(* ===== verification/_CoqProject ===== *)
-Q . S2P
Prelude.v
GoLib.v
Ring.v
Hub.v
HubThreads.v
FS.v
Config.v
ServerConfig.v
Peer.v
AWG.v
Tunnel.v
Float64.v
SSH.v
Health.v
Base64.v
Auth.v
Middleware.v
Invite.v
Expose.v
Caddy.v
Wizard.v
Regexp.v
WizardChecks.v
State.v
Detect.v
Bootstrap.v
Attach.v
Snapshot.v
Logger.v
DNS.v
Ports.v
Tray.v
AuditLog.v
RemoteAPI.v
Exposure.v
Adapters.v
ProvSSH.v
Templates.v
Provision.v
CaddyMTLS.v
LogTail.v
LogViews.v
LocalAPI.v
Startup.v
Sockets.v
Wiring.v
Workers.v
Platform.v
System.v
