(* ===== verification/Prelude.v ===== *)
(** * unet: a verification library for the tunnel daemon

    unet is a Go daemon that sets up an AmneziaWG server on a rented host and
    keeps a tunnel to it: it runs commands on the host over SSH, writes local
    interface files and calls [awg-quick], keeps its configuration and its API
    tokens in JSON files, serves an HTTP API with tokens, scopes and rate
    limits, hands out invitation links, probes the host's health and streams
    its log to browsers.  This library is a shallow embedding of the parts
    that hold state or decide something, translated function by function from
    src/src/internal/, with the theorems that say what they guarantee.

    ** How Go is read

    - A call returns [Ok], [Err] with the text of the error or [Panic]
      ([result], this file).  A call with effects is [eff W A], a function
      from the state it can reach to a result and the state after it; the
      state survives an error, as in Go.  [wrap] is [fmt.Errorf] with [%w],
      [try] is a caller that looks at the error itself.
    - [int], [int64] and [time.Duration] are [Z], with [wrap64] written out
      wherever the code can overflow; [float64] is IEEE 754 binary64 computed
      with the Standard Library's [SpecFloat] (Float64).  A string is its
      bytes.  A map is a [gmap]; a struct a [Record].
    - An operation that holds a mutex from start to end is one step.  Where
      the code releases the mutex in between ([Connect] of the tunnel manager,
      the start of a prober) or holds none (a replay of HubThreads) the operation is split at that point and the
      interleavings are theorems.
    - The clock, random draws and the results of network probes are arguments
      or fields of the state.  A handler reads the clock once.
    - Log output is not modelled, except where evaluating its arguments
      panics.  An error text leaves out captured command
      output appended to it for diagnosis and the quoting of [%q].

    ** The files

    - GoLib: [strings], [strconv], [net] for IPv4, [encoding/hex], with the
      lemmas the components share.
    - Ring: logstream/ring.go.  The array and counters of the ring of log
      records refine the list of everything written.
    - Hub: logstream/hub.go.  Subscribers are objects in a store, shared by
      the hub's map and the handlers; [hub_step] is every call and every turn
      of the event loop, each in one piece.
    - HubThreads: the same operations cut where they take and leave the lock
      and at every channel operation of a send, as threads that interleave in
      any way ([threads_step]); what Hub describes is the case in which no two
      of them overlap (HubThreads.operations_undisturbed).
    - FS: the file system calls the stores use.  Each call may fail, a failed
      write leaves a prefix, and the disk after every call is recorded, so
      that a statement about all recorded disks is one about crashes.
      [atomic_at] is the specification of an atomic replacement.
    - Config: config/config.go, config/secrets.go.  The manager over FS; the
      class [ConfigManager] is the interface the tunnel manager uses and
      [ConfigManagerLaws] what it promises.
    - ServerConfig, Peer, AWG, Tunnel: the package tunnel.  [SSHExecutor]
      (commands on the host) and [LocalHost] (processes and files of this
      machine) are the interfaces to what is outside; Tunnel is the manager
      over both.
    - SSH: ssh/client.go, session.go, pool.go over the class [GoSSH], the
      calls of golang.org/x/crypto/ssh; [GoSSHLaws] is the one fact used of
      it, that a session accepts a single command.
    - Health: lifecycle/health: the prober's decision, the reconnect sequence
      over the pool of SSH, the backoff, the manager that starts and stops
      probers.
    - Base64, Auth: encoding/base64 and the package auth: scopes, the token
      store on FS, the validation cache, JWTs.
    - Middleware: api/middleware and api/apicontext over Auth: who a request
      is, its scope, its rate, its audit entry.
    - Invite: the package invite: the line store with its offset index on FS,
      the attempt limiter, signed links, the three handlers.
    - Expose: routes/expose.go over the configuration manager and the DNS
      provider, check and commit apart.
    - Caddy: proxy/caddy.go over [HTTPClient]; [CaddyServer] is the documented
      admin API.
    - Wizard: wizard/wizard.go (reducer and transition table), state.go (the
      state file on FS), handlers.go, bootstrap.go, dnscheck/dnscheck.go over
      [WizardDeps], the services that reach the host.

    - Float64, Regexp: [strconv.ParseFloat], [%.1f] and the arithmetic of
      float64; anchored regular expressions as an executable matcher, equal to
      the language of the expression ([matches_lang]).
    - WizardChecks: wizard/preflight, wizard/dnscheck, wizard/steps.go: the
      checks behind [WizardDeps] and what they make of a command's output.
    - State: state/state.go, state/migration.go: the profile of the host and
      the migration plan, their validation and their files on FS.
    - Detect: lifecycle/compose and lifecycle/detect: the rendered compose
      file, the probes that classify a host, the drift check and its diff.
    - Bootstrap, Attach, Snapshot: the packages of the same name under
      lifecycle, on a session of SSH; Attach calls Detect and Bootstrap and
      stores the profile of State.  [Waiting] is the clock and the context.
    - Logger: logger and observability: the slog handler with redaction,
      rotation and the shared file handle, the ring of Ring behind it, the
      retention sweep.
    - DNS: dns and proxy/dns.go, two clients of the Cloudflare API; [CFServer]
      is the documented API with a server in memory.
    - Ports: daemon/api_ports.go, api_vps.go, tunnel/local_proxy.go over
      Config, Caddy and DNS.  A handler is split where it takes and leaves the
      configuration's lock, so requests interleave.  [PortsWorld] is what the
      handlers rely on of the services behind them.
    - Exposure: these services as main puts them together: Config, the client
      of Caddy, the DNS manager of DNS and the listeners keep [PortsWorld].
    - Tray: traylogic and trayapi: icon, polling, reconnection, notifications
      and menu of the tray application against the daemon's local API.
    - RemoteAPI: api/v1 and api/remote/routes.go over Auth, Middleware and
      AuditLog: every handler, the routing table, the chain of
      authentication, scope, rate limit and audit.  [PeerMutator],
      [RouteMutator] and [TunnelStatusProvider] are the interfaces of the code;
      Adapters (api/adapters) is their implementation over Tunnel and Ports.
    - AuditLog: audit and the audit handler: both append-only logs on FS, the
      scanner with its limit on a line, filters and pages.
    - ProvSSH, Templates, Provision: the package provisioner: its SSH client
      with the alias lookup in ssh_config and the record of host keys; the
      compose file, the server's file and the firewall script; the
      provisioning of a new server over [Host], which the client implements.
    - CaddyMTLS: proxy/caddy_mtls.go: the client certificate, its PEM text, and
      its registration in the configuration of Caddy over SSH.
    - LogTail, LogViews: loguicapi, the stream handlers of logstream and of the
      wizard: the capture of files and containers, filters, exports, and the
      connections of browsers over Hub ([server_step]).
    - LocalAPI: the rest of daemon: the table of routes with the rules of
      http.ServeMux, the ring of events, hosts, tunnel, DNS, start at login,
      the static files.
    - Startup: cmd/unet, api/remote/tls.go and server.go: the pid file, the
      reconciliation with a running interface, the keys and certificates of
      the remote API, and main as an interpreter of its statements
      ([main_body], [exec]) with deferred calls, driven by signals and by the
      end of the remote listener ([main_step]).
    - Sockets: tunnel/local_proxy.go behind [Start] and [Stop] of Ports (a
      connection is two streams, [handle] its steps, [loop_step] the accept
      loop), the dial of proxy/caddy.go, the probes of lifecycle/health and
      platform.
    - Wiring: metrics, qr and daemon/api_wizard.go: what the daemon plugs into
      the wizard, the invitations and the exposing of ports.
    - Workers: Start and Stop of the retention sweeper of Logger and of the
      aggregators of LogTail, in every order.
    - Platform: platform on Windows and the stubs of other systems, and
      cmd/unet-tray: the menu over the class [Systray] with its laws, the start
      at login over the class [Registry], the process of the tray as a machine.
    - System: the gates of cmd/unet (startup.go and its two builds) over FS and
      the class [NamedMutexes] of the calls of Windows with their laws;
      processes that start, end and crash ([mutex_step]); the save of Config over the operations of a system
      ([FileOps]) and the access check of Windows; daemon/server.go from its
      listener to the end of the process ([serve_step]).

    ** What is shown

    - Safety of access: a guarded handler runs only for a local or
      authenticated and authorised caller (Middleware.guarded_lets_in; what an
      accepted token or JWT is, Auth.accepted_token_verified and
      Auth.jwt_accepts_only_signed); invitations (Invite.landing_gates); the
      files served (LocalAPI.static_stays_inside); the metrics
      (Wiring.metrics_need_token); the address of the local server
      (System.local_server_stays_local) and, on Windows, the readers of the
      configuration (System.windows_config_access, System.config_acl_grants);
      quoting of remote arguments (ServerConfig.shellArg_is_one_word); secrets
      in the masked configuration.
      RemoteAPI.changes_need_scope says of the whole remote API who can change
      what, RemoteAPI.revocation_takes_effect that a revoked token stays out
      (RemoteAPI.revocation_race is the interleaving it excludes).
    - Crash safety: Config.update_atomic, Config.update_survives_restart and
      Auth.token_names_unique hold whatever system call fails; in
      Invite.lookups_sound the offset index stays right under failing writes,
      renames and openings.
    - Life cycle: Tunnel.connect_outcome, Tunnel.one_watchdog,
      SSH.pool_bounded, Health.execute_accounting,
      Health.third_failure_reconnects, HubThreads.hub_threads_inv,
      Wizard.saved_session_passes_gate, Expose.exposed_names_unique,
      LogViews.no_subscriber_leaks, ProvSSH.client_leaks_no_connection,
      Provision.provision_idempotent, Startup.one_instance_at_a_time,
      Sockets.one_accept_loop, Sockets.connections_relay_in_order,
      System.windows_one_instance (while the threads that took the lock
      live), System.windows_lock_is_not_lost, System.gates_before_the_lock,
      Logger.every_record_in_ring.
    - Refinement and function: Ring.snapshot_refines_log,
      Ring.since_replays_suffix, Hub.fanout_delivers, the address allocation
      and the command order of Peer, Tunnel.check_drift_outcome,
      Expose.expose_outcome, Caddy.add_then_list,
      LocalAPI.event_ring_holds_newest, LocalAPI.pages_are_complete,
      LogViews.logged_records_reach_browser, LogTail.whole_lines_logged_once,
      CaddyMTLS.bootstrap_registers, Templates.firewall_opens_what_is_published.
    - Round trips: JWTs, base64, invitations created and followed, the saved
      configuration across a restart, the entries of the audit log, the status
      between daemon and tray, PEM blocks, CSV exports, import links, the entry
      of the start at login (Platform.enabled_reads_back).
    - Bounds: the rate limits, the backoff in its machine arithmetic, the
      subnet of a new server, the pages of events.
    - Types: what State stores and loads is valid (State.loaded_records_valid).
    - Termination and liveness: Bootstrap.verifyHealth_returns within its
      deadline; Provision.wait_for_health_ends; Tray.reconnects_once_reachable;
      LogViews.stop_ends_streams; Sockets.stop_returns;
      Workers.stopped_group_drains.
    - Equivalence with a readable specification: Ports.subdomain_accepted_iff,
      State.isValidHost_labels, WizardChecks.compatible_iff,
      WizardChecks.cloudflare_token_accepted, ProvSSH.scanner_reads_lines,
      LogTail.extractContainerTS_regexp, and LocalAPI.offered_host_resolves
      between the two readers of ssh_config; System.save_over_posix between the
      save of Config and the one over the operations of a system.
    - Composition: Ports.create_outcome and its rollback,
      Exposure.created_is_routed over Caddy and DNS, Attach.attach_success
      over Detect, Bootstrap and State, Bootstrap.bootstrap_phases_outcome,
      DNS.manager_delete_removes_all.
    - Behaviour that looks unintended, stated as it is:
      Wizard.commit_without_port_panics, Wizard.step_back_goes_forward,
      Tunnel.double_connect_leaks, Tunnel.remove_last_peer_stale,
      Tunnel.client_conf_loses_obfuscation, Health.execute_never_succeeds,
      Health.backoff_wraps, SSH.any_host_key_accepted,
      Auth.cached_token_ignores_expiry, Caddy.remove_route_position,
      Expose.lost_race_reported_created, Attach.attach_never_succeeds,
      Detect.own_deployment_drifts, Snapshot.create_never_prunes,
      Logger.rotation_cuts_off_children, Logger.grouped_secret_leaks,
      Exposure.rejected_duplicate_takes_over, HubThreads.replay_overtaken,
      Ports.concurrent_removals_take_neighbour, DNS.cloudflare_needs_zone_id,
      Tray.dead_daemon_goes_unnoticed, Tray.menu_stays_initial,
      AuditLog.oversized_entry_hides_rest, AuditLog.torn_write_hides_next,
      WizardChecks.validated_step_advances (a warning blocks),
      RemoteAPI.revocation_race, RemoteAPI.local_session_is_refused,
      Adapters.deleted_route_keeps_socket, Adapters.any_name_is_routed,
      Adapters.tunnel_down_answers, Provision.provision_never_succeeds,
      ProvSSH.unread_key_accepted, CaddyMTLS.unsaved_certificate_registered,
      LogTail.split_line_loses_its_head, LogTail.rotation_loses_the_rest,
      LogTail.long_line_ends_capture, LogViews.lost_archive_is_reported,
      LogViews.reconnection_replays_nothing, LocalAPI.wizard_routes_unreachable,
      LocalAPI.broken_tunnel_stays_down, Startup.overlapping_starts_both_run,
      Startup.remote_api_prevents_clean_exit, Startup.restart_forgets_tunnel,
      Startup.ssh_settings_are_pinned, Startup.torn_key_is_kept,
      Sockets.raw_dial_decides, Sockets.stop_keeps_relays,
      Sockets.service_end_cuts_client, Sockets.accept_errors_spin,
      Wiring.wired_wizard_stops_at_preflight, Wiring.exposed_without_record,
      Wiring.generated_code_has_no_keys, Workers.second_start_orphans,
      System.signal_cuts_requests, System.failed_listener_stays_down,
      System.privileges_asked_twice, System.windows_start_refused,
      Platform.menus_pile_up,
      Platform.submenu_flags_lost, Platform.moved_binary_stays_lost,
      Platform.disable_always_succeeds, Platform.programs_share_an_entry,
      Platform.quit_keeps_the_process.
    The forty most important theorems are the properties of the manifest; the
    others stay as lemmas, several of those named here among them.

    ** Hypotheses and fuel

    Cryptography and JSON are parameters.  A codec's laws say that decoding
    inverts encoding; they are met by [count_enc] and [count_dec] of GoLib in
    the witnesses, which also instantiate the interfaces to the outside.
    Fuel appears in loops over a byte string, where it is the string's length
    or one more and each round consumes a byte ([trim_left_with], [Fields],
    [scan_all]); running out is never an outcome.  Three bounds are numbers:
    [verify_fuel] is 25 rounds of polling, one more than fit between start and
    deadline (Bootstrap.verifyHealth_returns); [rotate_loop] tries the 999
    names the code tries; [itoa2_loop] has 20 digits, enough for 64 bits.

    ** What is not modelled

    Every package of src/src/internal with a state or a decision of its own has
    a file.  Left out: the call of the toast library, the embedded pictures
    and pages; the flags and log output of the programs; the modes of files on
    POSIX ([Chmod] has an outcome and no effect; Windows access lists are in
    System); the timers that start a sweep or a poll: each firing is an event
    of the models.  The documented behaviour of Windows (named mutexes, the
    access check, the Run key) is written down where it is used, the
    mutexes as laws of a class: whether creating one that exists is an error
    is a hypothesis of System.windows_start_refused.  The handlers are run
    with the dependencies main always fills in: the dispatcher has a token
    cache ([handleJWT] true), the remote API an audit logger ([AuditLog] true).
    JSON text, cryptography, DNS, TLS and the Prometheus and
    QR libraries are parameters.  Data races that the mutexes exclude have no
    counterpart. *)

From Stdlib Require Export ZArith Lia Ascii.
From stdpp Require Export base list gmap strings option.

#[global] Arguments String.append : simpl nomatch.

Declare Scope go_scope.
Delimit Scope go_scope with go.

(** ** Results: a Go call returns a value, returns an error or panics. *)

Inductive result (A : Type) : Type :=
  | Ok (a : A)
  | Err (e : string)
  | Panic (why : string).
Arguments Ok {A} _.
Arguments Err {A} _.
Arguments Panic {A} _.

#[global] Instance result_ret : MRet result := fun A a => Ok a.
#[global] Instance result_bind : MBind result := fun A B k m =>
  match m with Ok a => k a | Err e => Err e | Panic p => Panic p end.

(** [fmt.Errorf("prefix: %w", err)] *)
Definition wrap_err {A} (prefix : string) (m : result A) : result A :=
  match m with Err e => Err (prefix +:+ e) | r => r end.

(** [if c { return errors.New(e) }] *)
Definition fail_if (c : bool) (e : string) : result unit := if c then Err e else Ok tt.

Lemma fail_if_ok c e u : fail_if c e = Ok u <-> c = false.
Proof. destruct c, u; simpl; split; by intros. Qed.

(** A result that is not a panic. *)
Definition calm {A} (m : result A) : Prop := forall p, m <> Panic p.

Lemma calm_bind {A B} (m : result A) (k : A -> result B) :
  calm m -> (forall a, calm (k a)) -> calm (mbind k m).
Proof. intros Hm Hk. destruct m as [a|e|p]; [apply Hk|done|by destruct (Hm p)]. Qed.

Lemma calm_fail_if c e : calm (fail_if c e).
Proof. by destruct c. Qed.

Lemma result_bind_ok {A B} (m : result A) (k : A -> result B) b :
  mbind k m = Ok b <-> exists a, m = Ok a /\ k a = Ok b.
Proof. destruct m; simpl; split; [eauto|by intros (? & [= <-] & ?)|done|naive_solver|done|naive_solver]. Qed.

Definition is_ok {A} (m : result A) : bool :=
  match m with Ok _ => true | _ => false end.

(** ** Effects: a Go call also changes the state it can reach.  The state
    survives an error, as it does in Go. *)

Definition eff (W A : Type) : Type := W -> result A * W.

#[global] Instance eff_ret W : MRet (eff W) := fun A a w => (Ok a, w).
#[global] Instance eff_bind W : MBind (eff W) := fun A B k m w =>
  match m w with
  | (Ok a, w') => k a w'
  | (Err e, w') => (Err e, w')
  | (Panic p, w') => (Panic p, w')
  end.

Definition throw {W A} (e : string) : eff W A := fun w => (Err e, w).
Definition panic {W A} (p : string) : eff W A := fun w => (Panic p, w).
Definition get {W} : eff W W := fun w => (Ok w, w).
Definition modify {W} (f : W -> W) : eff W unit := fun w => (Ok tt, f w).

Definition lift {W A} (r : result A) : eff W A := fun w => (r, w).

(** The value of a call with its error, when the caller looks at both. *)
Definition try {W A} (m : eff W A) : eff W (result A) := fun w =>
  match m w with
  | (Panic p, w') => (Panic p, w')
  | (r, w') => (Ok r, w')
  end.

Definition wrap {W A} (prefix : string) (m : eff W A) : eff W A := fun w =>
  let '(r, w') := m w in (wrap_err prefix r, w').

(** Runs [m] on a component of the state. *)
Definition on_part {W V A} (rd : W -> V) (wr : V -> W -> W) (m : eff V A) : eff W A :=
  fun w => let '(r, v) := m (rd w) in (r, wr v w).

Arguments throw {_ _} _ _ /.
Arguments panic {_ _} _ _ /.
Arguments get {_} _ /.
Arguments modify {_} _ _ /.

Lemma bind_ok {W A B} (m : eff W A) (k : A -> eff W B) w a w' :
  m w = (Ok a, w') -> mbind k m w = k a w'.
Proof. intros E. unfold mbind, eff_bind. by rewrite E. Qed.

Lemma bind_err {W A B} (m : eff W A) (k : A -> eff W B) w e w' :
  m w = (Err e, w') -> mbind k m w = (Err e, w').
Proof. intros E. unfold mbind, eff_bind. by rewrite E. Qed.

Lemma bind_ok_inv {W A B} (m : eff W A) (k : A -> eff W B) w b w'' :
  mbind k m w = (Ok b, w'') ->
  exists a w', m w = (Ok a, w') /\ k a w' = (Ok b, w'').
Proof.
  unfold mbind, eff_bind. destruct (m w) as [[a| |] w'] eqn:E; intros H; try discriminate.
  eauto.
Qed.

Lemma wrap_ok_inv {W A} pre (m : eff W A) w a w' :
  wrap pre m w = (Ok a, w') -> m w = (Ok a, w').
Proof. unfold wrap. by destruct (m w) as [[]]. Qed.

Lemma wrap_world {W A} pre (m : eff W A) w r w' : wrap pre m w = (r, w') -> w' = snd (m w).
Proof. unfold wrap. destruct (m w) as [r0 w0]. by intros [= _ <-]. Qed.

(** ** Calls that never panic *)

Definition no_panic {W A} (m : eff W A) : Prop := forall w p, fst (m w) <> Panic p.

Lemma no_panic_ret {W A} (a : A) : no_panic (mret a : eff W A).
Proof. by intros w p. Qed.

Lemma no_panic_throw {W A} e : no_panic (throw e : eff W A).
Proof. by intros w p. Qed.

Lemma no_panic_bind {W A B} (m : eff W A) (k : A -> eff W B) :
  no_panic m -> (forall a, no_panic (k a)) -> no_panic (mbind k m).
Proof.
  intros Hm Hk w p. specialize (Hm w). unfold mbind, eff_bind.
  destruct (m w) as [[a|e|q] w']; simpl; [apply Hk|done|by destruct (Hm q)].
Qed.

Lemma no_panic_wrap {W A} pre (m : eff W A) : no_panic m -> no_panic (wrap pre m).
Proof. intros H w p. specialize (H w p). unfold wrap. by destruct (m w) as [[]]. Qed.

Lemma no_panic_try {W A} (m : eff W A) : no_panic m -> no_panic (try m).
Proof.
  intros H w p. specialize (H w). unfold try. destruct (m w) as [[| |q]]; try done.
  by destruct (H q).
Qed.

(** ** Calls that always succeed *)

Definition succeeds {W A} (m : eff W A) : Prop := forall w, exists a w', m w = (Ok a, w').

Lemma succeeds_ret {W A} (a : A) : succeeds (mret a : eff W A).
Proof. intros w. by exists a, w. Qed.

Lemma succeeds_bind {W A B} (m : eff W A) (k : A -> eff W B) :
  succeeds m -> (forall a, succeeds (k a)) -> succeeds (mbind k m).
Proof.
  intros Hm Hk w. destruct (Hm w) as (a & w' & E). unfold mbind, eff_bind. rewrite E. apply Hk.
Qed.

Lemma succeeds_no_panic {W A} (m : eff W A) : succeeds m -> no_panic m.
Proof. intros Hm w p. destruct (Hm w) as (a & w' & ->). done. Qed.

(** ** Calls that leave an observation of the state alone *)

Definition preserves {W B A} (f : W -> B) (m : eff W A) : Prop := forall w, f (snd (m w)) = f w.

Section preserves.
Context {W B : Type} (f : W -> B).

Lemma preserves_const {A} (r : result A) : preserves f (fun w => (r, w)).
Proof. by intros w. Qed.

Lemma preserves_ret {A} (a : A) : preserves f (mret a : eff W A).
Proof. by intros w. Qed.

Lemma preserves_get : preserves f get.
Proof. by intros w. Qed.

Lemma preserves_bind {A C} (m : eff W A) (k : A -> eff W C) :
  preserves f m -> (forall a, preserves f (k a)) -> preserves f (mbind k m).
Proof.
  intros Hm Hk w. specialize (Hm w). unfold mbind, eff_bind.
  destruct (m w) as [[a|e|p] w']; simpl in *; [|done..]. by rewrite Hk.
Qed.

Lemma preserves_wrap {A} pre (m : eff W A) : preserves f m -> preserves f (wrap pre m).
Proof. intros Hm w. specialize (Hm w). unfold wrap. by destruct (m w). Qed.

Lemma preserves_try {A} (m : eff W A) : preserves f m -> preserves f (try m).
Proof. intros Hm w. specialize (Hm w). unfold try. by destruct (m w) as [[]]. Qed.

Lemma preserves_modify (g : W -> W) : (forall w, f (g w) = f w) -> preserves f (modify g).
Proof. intros Hg w. apply Hg. Qed.

Lemma preserves_on_part {V A} (rd : W -> V) wr (m : eff V A) :
  (forall v w, f (wr v w) = f w) -> preserves f (on_part rd wr m).
Proof. intros Hw w. unfold on_part. destruct (m (rd w)). apply Hw. Qed.
End preserves.

(** Goes through a sequence of calls; leaves those it does not know. *)
Ltac preserving := repeat (first
  [ apply preserves_const | apply preserves_wrap | apply preserves_try
  | apply preserves_bind; [|intros ?]
  | apply preserves_on_part; [reflexivity || (intros; reflexivity)]
  | apply preserves_modify; [reflexivity || (intros; reflexivity)]
  | case_match ]).

Lemma no_panic_lift {W A} (r : result A) : (forall p, r <> Panic p) -> no_panic (lift r : eff W A).
Proof. intros H w p. apply H. Qed.

(** Inversion of a successful sequence. *)
Ltac bind_inv H :=
  let a := fresh "a" in let w := fresh "w" in let E := fresh "E" in
  apply bind_ok_inv in H as (a & w & E & H).

(** ** Finite sequences of transitions *)

Inductive star {S : Type} (R : S -> S -> Prop) : S -> S -> Prop :=
  | star_nil s : star R s s
  | star_snoc s1 s2 s3 : star R s1 s2 -> R s2 s3 -> star R s1 s3.

Lemma star_trans {S} (R : S -> S -> Prop) s1 s2 s3 : star R s1 s2 -> star R s2 s3 -> star R s1 s3.
Proof. intros H1 H2. induction H2 as [|? ? ? ? IH ?]; [done|]. eapply star_snoc; [by apply IH|done]. Qed.

Lemma star_inv_ind {S} (R : S -> S -> Prop) (I : S -> Prop) :
  (forall s s', I s -> R s s' -> I s') -> forall s s', I s -> star R s s' -> I s'.
Proof. intros HR s s' Hs. induction 1; eauto. Qed.

(** ** Time: [time.Time] and [time.Duration] as nanoseconds *)

Abbreviation time := Z.
Definition ns_second : Z := 1000000000.
Definition seconds (n : Z) : Z := n * ns_second.
Arguments seconds _%_Z.
Definition ns_minute : Z := 60000000000.

(** ** Signed 64-bit integers: Go's [int], [int64] and [time.Duration] *)

Definition int64_min : Z := - 2 ^ 63.
Definition int64_max : Z := 2 ^ 63 - 1.

(** Two's-complement wrap-around. *)
Definition wrap64 (z : Z) : Z := (z + 2 ^ 63) `mod` 2 ^ 64 - 2 ^ 63.

Lemma wrap64_id z : (int64_min <= z <= int64_max)%Z -> wrap64 z = z.
Proof.
  unfold int64_min, int64_max, wrap64. intros H.
  rewrite Z.mod_small; lia.
Qed.

Lemma wrap64_range z : (int64_min <= wrap64 z <= int64_max)%Z.
Proof.
  unfold int64_min, int64_max, wrap64.
  pose proof (Z.mod_pos_bound (z + 2 ^ 63) (2 ^ 64) ltac:(lia)). lia.
Qed.

(** ** Lists *)

(** The last [n] elements. *)
Definition lastn {A} (n : nat) (l : list A) : list A := drop (length l - n) l.

Lemma lastn_length {A} n (l : list A) : length (lastn n l) = n `min` length l.
Proof. unfold lastn. rewrite length_drop. lia. Qed.

Lemma lastn_all {A} n (l : list A) : length l <= n -> lastn n l = l.
Proof. intros H. unfold lastn. by replace (length l - n) with 0 by lia. Qed.

Lemma lookup_lastn {A} n (l : list A) i :
  lastn n l !! i = l !! (length l - n + i).
Proof. unfold lastn. by rewrite lookup_drop. Qed.

Section filter.
Context {A : Type} (P : A -> Prop) `{forall x, Decision (P x)}.

Lemma gfilter_app l1 l2 : filter P (l1 ++ l2) = filter P l1 ++ filter P l2.
Proof.
  induction l1 as [|x l1 IH]; [done|]. simpl. rewrite !filter_cons, IH. by case_decide.
Qed.

Lemma gfilter_none l : Forall (fun x => ~ P x) l -> filter P l = [].
Proof. induction 1; [done|]. by rewrite filter_cons_False. Qed.

Lemma gfilter_all l : Forall P l -> filter P l = l.
Proof. induction 1 as [|x l Hx Hl IH]; [done|]. by rewrite filter_cons_True, IH. Qed.
End filter.

(** A decidable property of a range of integers, by evaluation. *)
Lemma check_range (P : Z -> bool) (lo : Z) (n : nat) z :
  forallb (fun i => P (lo + Z.of_nat i)%Z) (seq 0 n) = true ->
  (lo <= z < lo + Z.of_nat n)%Z -> P z = true.
Proof.
  intros Hall Hz. rewrite forallb_forall in Hall.
  specialize (Hall (Z.to_nat (z - lo))). rewrite in_seq in Hall.
  replace z with (lo + Z.of_nat (Z.to_nat (z - lo)))%Z by lia. apply Hall. lia.
Qed.

(** ** Hints *)

Create HintDb unet.
Create Rewrite HintDb unet_len.
Create Rewrite HintDb unet_str.
#[export] Hint Resolve calm_fail_if wrap64_range no_panic_ret no_panic_throw no_panic_bind no_panic_wrap no_panic_try : unet.
#[export] Hint Rewrite @lastn_length @length_app @length_drop @length_take @length_insert : unet_len.
