(* ===== verification/GoLib.v ===== *)
(** * The part of Go's standard library the program uses on strings and
    numbers: [strings], [strconv], [net] (IPv4), [encoding/binary],
    [encoding/hex].  A Go string is a sequence of bytes, here a [string]
    of 8-bit [ascii]. *)

From Stdlib Require Import Ascii DecimalString DecimalN DecimalPos.
From stdpp Require Import sorting countable.
From S2P Require Import Prelude.

Definition nl : ascii := "010"%char.
Definition tab : ascii := "009"%char.
Definition cr : ascii := "013"%char.
Definition nls : string := String nl EmptyString.
Definition dquote : string := String "034"%char EmptyString.

Definition slen (s : string) : nat := String.length s.

(** ** [strings] *)

Fixpoint HasPrefix (s p : string) {struct p} : bool :=
  match p with
  | EmptyString => true
  | String a p' =>
      match s with
      | EmptyString => false
      | String b s' => bool_decide (a = b) && HasPrefix s' p'
      end
  end.

(** [s[n:]] and [s[:n]] for [n] within bounds. *)
Fixpoint sdrop (n : nat) (s : string) : string :=
  match n, s with
  | O, _ => s
  | S n', String _ s' => sdrop n' s'
  | S _, EmptyString => EmptyString
  end.

Fixpoint stake (n : nat) (s : string) : string :=
  match n, s with
  | O, _ => EmptyString
  | S n', String a s' => String a (stake n' s')
  | S _, EmptyString => EmptyString
  end.

Definition TrimPrefix (s p : string) : string :=
  if HasPrefix s p then sdrop (slen p) s else s.

Definition HasSuffix (s p : string) : bool :=
  bool_decide (slen p <= slen s) &&
  bool_decide (sdrop (slen s - slen p) s = p).

Definition TrimSuffix (s p : string) : string :=
  if HasSuffix s p then stake (slen s - slen p) s else s.

(** [strings.Index]: the first position of [p] in [s]. *)
Fixpoint Index (s p : string) : option nat :=
  if HasPrefix s p then Some 0
  else match s with
       | EmptyString => None
       | String _ s' => S <$> Index s' p
       end.

Definition Contains (s p : string) : bool :=
  match Index s p with Some _ => true | None => false end.

(** [strings.IndexByte] *)
Fixpoint IndexByte (s : string) (c : ascii) : option nat :=
  match s with
  | EmptyString => None
  | String a s' => if decide (a = c) then Some 0 else S <$> IndexByte s' c
  end.

(** [strings.Split] with a one-byte separator; never the empty list. *)
Fixpoint Split (s : string) (c : ascii) : list string :=
  match s with
  | EmptyString => [EmptyString]
  | String a s' =>
      if decide (a = c) then EmptyString :: Split s' c
      else match Split s' c with
           | [] => [String a EmptyString]
           | w :: ws => String a w :: ws
           end
  end.

Fixpoint Join (l : list string) (c : ascii) : string :=
  match l with
  | [] => EmptyString
  | [w] => w
  | w :: ws => w +:+ String c (Join ws c)
  end.

Fixpoint srev_onto (s acc : string) : string :=
  match s with EmptyString => acc | String a s' => srev_onto s' (String a acc) end.
Definition srev (s : string) : string := srev_onto s EmptyString.

(** The UTF-8 encodings of the code points [unicode.IsSpace] accepts. *)
Definition bytes (l : list nat) : string :=
  foldr (fun n s => String (ascii_of_nat n) s) EmptyString l.

Definition spaces : list string :=
  map bytes ([ [9]; [10]; [11]; [12]; [13]; [32]; [194; 133]; [194; 160];
               [225; 154; 128]; [226; 128; 168]; [226; 128; 169];
               [226; 128; 175]; [226; 129; 159]; [227; 128; 128] ]
             ++ map (fun i => [226; 128; i]) (seq 128 11)).

Fixpoint first_space (sps : list string) (s : string) : option nat :=
  match sps with
  | [] => None
  | p :: ps => if HasPrefix s p then Some (slen p) else first_space ps s
  end.

Fixpoint trim_left_with (fuel : nat) (sps : list string) (s : string) : string :=
  match fuel with
  | O => s
  | S f => match first_space sps s with
           | Some n => trim_left_with f sps (sdrop n s)
           | None => s
           end
  end.

Definition TrimLeftSpace (s : string) : string :=
  trim_left_with (slen s) spaces s.
Definition TrimRightSpace (s : string) : string :=
  srev (trim_left_with (slen s) (map srev spaces) (srev s)).
Definition TrimSpace (s : string) : string := TrimRightSpace (TrimLeftSpace s).

(** [strings.TrimRight(s, "\n")] *)
Fixpoint drop_nl (s : string) : string :=
  match s with
  | String a s' => if decide (a = nl) then drop_nl s' else s
  | EmptyString => EmptyString
  end.
Definition TrimRightNl (s : string) : string := srev (drop_nl (srev s)).

(** [strings.Fields]: maximal runs without white space. *)
Fixpoint fields_go (fuel : nat) (s cur : string) : list string :=
  let flush rest := if decide (cur = EmptyString) then rest else srev cur :: rest in
  match fuel with
  | O => flush []
  | S f =>
      match s with
      | EmptyString => flush []
      | String a s' =>
          match first_space spaces s with
          | Some n => flush (fields_go f (sdrop n s) EmptyString)
          | None => fields_go f s' (String a cur)
          end
      end
  end.
Definition Fields (s : string) : list string := fields_go (S (slen s)) s EmptyString.

(** [strings.ReplaceAll] of a one-byte string. *)
Fixpoint ReplaceAll (s : string) (c : ascii) (by_ : string) : string :=
  match s with
  | EmptyString => EmptyString
  | String a s' => if decide (a = c) then by_ +:+ ReplaceAll s' c by_
                   else String a (ReplaceAll s' c by_)
  end.

(** Byte order on strings, Go's [<] on [string]. *)
Fixpoint string_ltb (a b : string) : bool :=
  match a, b with
  | EmptyString, String _ _ => true
  | String x a', String y b' =>
      (N_of_ascii x <? N_of_ascii y)%N ||
      (bool_decide (x = y) && string_ltb a' b')
  | _, EmptyString => false
  end.

(** ** [strconv] *)

Definition digits_of (n : N) : string := NilEmpty.string_of_uint (N.to_uint n).

Definition Itoa (z : Z) : string :=
  if (z <? 0)%Z then String "-"%char (digits_of (Z.to_N (- z)))
  else digits_of (Z.to_N z).

Definition parse_digits (s : string) : option N :=
  match s with
  | EmptyString => None
  | _ => N.of_uint <$> NilEmpty.uint_of_string s
  end.

(** [strconv.Atoi]: the value Go returns, and the error if there is one.  A
    syntax error gives 0; out of range gives the nearest [int64]. *)
Definition Atoi (s : string) : Z * option string :=
  let '(neg, ds) := match s with
                    | String "-"%char r => (true, r)
                    | String "+"%char r => (false, r)
                    | _ => (false, s)
                    end in
  match parse_digits ds with
  | None => (0%Z, Some "strconv.Atoi: invalid syntax")
  | Some n =>
      let z := if neg : bool then (- Z.of_N n)%Z else Z.of_N n in
      if decide (z < int64_min)%Z then (int64_min, Some "strconv.Atoi: value out of range")
      else if decide (int64_max < z)%Z then (int64_max, Some "strconv.Atoi: value out of range")
      else (z, None)
  end.

(** ** [net]: addresses as 16 bytes, IPv4 in its mapped form *)

Definition in_range (lo hi c : ascii) : bool :=
  (N_of_ascii lo <=? N_of_ascii c)%N && (N_of_ascii c <=? N_of_ascii hi)%N.
Definition is_digit : ascii -> bool := in_range "0" "9".

(** [strings.ToLower] on ASCII letters; other bytes stay. *)
Definition lower_char (c : ascii) : ascii :=
  if in_range "A" "Z" c then ascii_of_N (N_of_ascii c + 32) else c.
Fixpoint ToLower (s : string) : string :=
  match s with String c s' => String (lower_char c) (ToLower s') | EmptyString => EmptyString end.

Definition hex_val (c : ascii) : option Z :=
  let v := Z.of_N (N_of_ascii c) in
  if is_digit c then Some (v - 48)%Z
  else if in_range "a" "f" c then Some (v - 87)%Z
  else if in_range "A" "F" c then Some (v - 55)%Z
  else None.

(** One field of [netip.parseIPv4Fields]: one to three digits, at most 255,
    no leading zero. *)
Definition parse_octet (s : string) : option Z :=
  n ← parse_digits s;
  if (255 <? n)%N then None
  else if bool_decide (1 < slen s) && HasPrefix s "0" then None
  else Some (Z.of_N n).

Definition parse_ipv4 (s : string) : option (list Z) :=
  match Split s "." with
  | [a; b; c; d] =>
      a ← parse_octet a; b ← parse_octet b; c ← parse_octet c; d ← parse_octet d;
      Some [a; b; c; d]
  | _ => None
  end.

Definition v4in6 (ip : list Z) : list Z := replicate 10 0%Z ++ [255; 255]%Z ++ ip.

(** The hexadecimal digits at the front of an IPv6 field. *)
Fixpoint hex_run (s : string) (acc : Z) (off : nat) : Z * nat * string :=
  match s with
  | String c s' =>
      match hex_val c with
      | Some v => hex_run s' (acc * 16 + v)%Z (S off)
      | None => (acc, off, s)
      end
  | EmptyString => (acc, off, s)
  end.

(** The loop of [netip.parseIPv6]: the bytes so far, and where [::] stood. *)
Fixpoint ipv6_loop (fuel : nat) (s : string) (ip : list Z) (ell : option nat)
  : option (list Z * option nat) :=
  match fuel with
  | O => if decide (s = EmptyString) then Some (ip, ell) else None
  | S f =>
      let '(acc, off, rest) := hex_run s 0 0 in
      if bool_decide (off = 0) || bool_decide (4 < off) then None else
      match rest with
      | String "."%char _ =>
          if bool_decide (ell = None) && negb (bool_decide (length ip = 12)) then None
          else if bool_decide (16 < length ip + 4) then None
          else v4 ← parse_ipv4 s; Some (ip ++ v4, ell)
      | EmptyString => Some (ip ++ [acc / 256; acc `mod` 256]%Z, ell)
      | String ":"%char rest' =>
          let ip' := ip ++ [acc / 256; acc `mod` 256]%Z in
          match rest' with
          | EmptyString => None
          | String ":"%char rest'' =>
              match ell with
              | Some _ => None
              | None => if decide (rest'' = EmptyString) then Some (ip', Some (length ip'))
                        else ipv6_loop f rest'' ip' (Some (length ip'))
              end
          | _ => ipv6_loop f rest' ip' ell
          end
      | _ => None
      end
  end.

Definition parse_ipv6 (s : string) : option (list Z) :=
  let '(s0, ell0) := if HasPrefix s "::" then (sdrop 2 s, Some 0) else (s, None) in
  if bool_decide (s0 = EmptyString) && bool_decide (ell0 = Some 0)
  then Some (replicate 16 0%Z) else
  '(ip, ell) ← ipv6_loop 8 s0 [] ell0;
  match ell with
  | None => if decide (length ip = 16) then Some ip else None
  | Some e => if decide (length ip < 16)
              then Some (take e ip ++ replicate (16 - length ip) 0%Z ++ drop e ip)
              else None
  end.

(** [netip.ParseAddr] without a zone: the address and its bit length. *)
Fixpoint parse_addr_scan (s0 s : string) : option (list Z * Z) :=
  match s with
  | EmptyString => None
  | String "."%char _ => (fun ip => (v4in6 ip, 32%Z)) <$> parse_ipv4 s0
  | String ":"%char _ =>
      if IndexByte s0 "%" is Some _ then None else (fun ip => (ip, 128%Z)) <$> parse_ipv6 s0
  | String "%"%char _ => None
  | String _ s' => parse_addr_scan s0 s'
  end.

(** [net.ParseIP] *)
Definition ParseIP (s : string) : option (list Z) := fst <$> parse_addr_scan s s.

(** [IP.To4] *)
Definition To4 (ip : list Z) : option (list Z) :=
  if decide (length ip = 16 /\ take 12 ip = replicate 10 0%Z ++ [255; 255]%Z)
  then Some (drop 12 ip) else None.

(** The mask byte that keeps the first [k] bits of a byte. *)
Definition mask_byte (k : Z) : Z := 255 - (Z.ones (8 - Z.max 0 (Z.min 8 k))).
Definition apply_mask (ip : list Z) (n : Z) : list Z :=
  imap (fun i b => Z.land b (mask_byte (n - 8 * Z.of_nat i))) ip.

(** [net.ParseCIDR]: the address and the network address. *)
Definition ParseCIDR (s : string) : option (list Z * list Z) :=
  i ← IndexByte s "/";
  '(ip, bits) ← parse_addr_scan (stake i s) (stake i s);
  n ← parse_digits (sdrop (S i) s);
  if (bits <? Z.of_N n)%Z then None
  else Some (ip, apply_mask ip (if decide (bits = 32)%Z then 96 + Z.of_N n else Z.of_N n)%Z).

Definition dot4 (a b c d : Z) : string :=
  Itoa a +:+ "." +:+ Itoa b +:+ "." +:+ Itoa c +:+ "." +:+ Itoa d.

(** ** [encoding/binary], [encoding/hex] *)

Definition byte_of_Z (z : Z) : ascii := ascii_of_N (Z.to_N (z `mod` 256)).

Definition hex_digit (z : Z) : ascii :=
  if (z <? 10)%Z then byte_of_Z (48 + z) else byte_of_Z (87 + z).

Fixpoint hex_EncodeToString (s : string) : string :=
  match s with
  | EmptyString => EmptyString
  | String a s' =>
      let v := Z.of_N (N_of_ascii a) in
      String (hex_digit (v / 16)) (String (hex_digit (v `mod` 16)) (hex_EncodeToString s'))
  end.

(** [hex.DecodeString]: the bytes decoded before an error, if any. *)
Fixpoint hex_DecodeString (s : string) : string * option string :=
  match s with
  | EmptyString => (EmptyString, None)
  | String a EmptyString =>
      (EmptyString, Some (if hex_val a is Some _ then "encoding/hex: odd length hex string"
                          else "encoding/hex: invalid byte"))
  | String a (String b s') =>
      match hex_val a, hex_val b with
      | Some x, Some y =>
          let '(r, e) := hex_DecodeString s' in (String (byte_of_Z (16 * x + y)) r, e)
      | _, _ => (EmptyString, Some "encoding/hex: invalid byte")
      end
  end.

(** ** Lemmas *)

Fixpoint str_all (f : ascii -> bool) (s : string) : bool :=
  match s with EmptyString => true | String a s' => f a && str_all f s' end.

(** [s] does not contain the byte [c]. *)
Definition free_of (c : ascii) (s : string) : bool :=
  str_all (fun a => negb (bool_decide (a = c))) s.

Lemma sapp_nil_r s : s +:+ "" = s.
Proof. induction s; simpl; congruence. Qed.

Lemma sapp_assoc a b c : (a +:+ b) +:+ c = a +:+ (b +:+ c).
Proof. induction a; simpl; congruence. Qed.

Lemma slen_app a b : slen (a +:+ b) = slen a + slen b.
Proof. unfold slen. induction a; simpl; congruence. Qed.

Lemma slen_String a s : slen (String a s) = S (slen s).
Proof. done. Qed.

Lemma sdrop_app a b : sdrop (slen a) (a +:+ b) = b.
Proof. unfold slen. induction a; simpl; congruence. Qed.

Lemma stake_app a b : stake (slen a) (a +:+ b) = a.
Proof. unfold slen. induction a; simpl; congruence. Qed.

Lemma stake_sdrop n s : stake n s +:+ sdrop n s = s.
Proof. revert s. induction n; intros [|a s]; simpl; congruence. Qed.

Lemma sapp_inj_l p a b : p +:+ a = p +:+ b -> a = b.
Proof. induction p; simpl; intros H; [done|]. injection H. auto. Qed.

Lemma str_all_app f a b : str_all f (a +:+ b) = str_all f a && str_all f b.
Proof. induction a; simpl; [done|]. rewrite IHa. by rewrite andb_assoc. Qed.

Lemma str_all_impl (f g : ascii -> bool) s :
  (forall a, f a = true -> g a = true) -> str_all f s = true -> str_all g s = true.
Proof.
  intros Hfg. induction s as [|a s IH]; simpl; [done|].
  rewrite !andb_true_iff. intros [? ?]. eauto.
Qed.

Lemma HasPrefix_app p s : HasPrefix (p +:+ s) p = true.
Proof. induction p as [|a p IH]; simpl; [done|]. by rewrite bool_decide_true, IH. Qed.

Lemma HasPrefix_spec s p : HasPrefix s p = true <-> exists r, s = p +:+ r.
Proof.
  split; [|intros [r ->]; apply HasPrefix_app].
  revert s. induction p as [|a p IH]; intros [|b s]; simpl; try done; eauto.
  rewrite andb_true_iff, bool_decide_eq_true. intros [-> H].
  destruct (IH _ H) as [r ->]. by exists r.
Qed.

Lemma HasSuffix_spec s p : HasSuffix s p = true <-> exists r, s = r +:+ p.
Proof.
  unfold HasSuffix. rewrite andb_true_iff, !bool_decide_eq_true. split.
  - intros [Hl E]. exists (stake (slen s - slen p) s). rewrite <- E at 2. by rewrite stake_sdrop.
  - intros [r ->]. rewrite slen_app. split; [lia|].
    replace (slen r + slen p - slen p) with (slen r) by lia. apply sdrop_app.
Qed.

Lemma sapp_inj_r a b p : a +:+ p = b +:+ p -> a = b.
Proof.
  intros E. assert (slen a = slen b) as Hl by (apply (f_equal slen) in E; rewrite !slen_app in E; lia).
  rewrite <- (stake_app a p), E, Hl. apply stake_app.
Qed.

Lemma TrimPrefix_app p s : TrimPrefix (p +:+ s) p = s.
Proof. unfold TrimPrefix. by rewrite HasPrefix_app, sdrop_app. Qed.

Lemma TrimSuffix_app s p : TrimSuffix (s +:+ p) p = s.
Proof.
  unfold TrimSuffix. assert (HasSuffix (s +:+ p) p = true) as -> by (apply HasSuffix_spec; eauto).
  rewrite slen_app. replace (slen s + slen p - slen p) with (slen s) by lia. apply stake_app.
Qed.

Lemma TrimPrefix_no p s : HasPrefix s p = false -> TrimPrefix s p = s.
Proof. unfold TrimPrefix. by intros ->. Qed.

Lemma Split_nonempty s c : Split s c <> [].
Proof.
  destruct s as [|a s]; simpl; [done|]. case_decide; [done|]. by destruct (Split s c).
Qed.

Lemma Split_free s c : free_of c s = true -> Split s c = [s].
Proof.
  unfold free_of. induction s as [|a s IH]; simpl; [done|].
  rewrite andb_true_iff, negb_true_iff, bool_decide_eq_false.
  intros [Ha Hs]. rewrite decide_False by done. by rewrite IH.
Qed.

Lemma Split_app_sep a b c :
  free_of c a = true -> Split (a +:+ String c b) c = a :: Split b c.
Proof.
  unfold free_of. induction a as [|x a IH]; simpl.
  - by rewrite decide_True.
  - rewrite andb_true_iff, negb_true_iff, bool_decide_eq_false.
    intros [Ha Hs]. rewrite decide_False by done. by rewrite IH.
Qed.

Lemma Split_app a b c : Split (a +:+ String c b) c = Split a c ++ Split b c.
Proof.
  induction a as [|x a IH]; simpl; [by rewrite decide_True|].
  case_decide; [by rewrite IH|]. pose proof (Split_nonempty a c).
  rewrite IH. by destruct (Split a c).
Qed.

Lemma Split_Join l c :
  l <> [] -> Forall (fun w => free_of c w = true) l -> Split (Join l c) c = l.
Proof.
  intros Hne Hl. induction Hl as [|w l Hw Hl IH]; [done|].
  destruct l as [|w' l]; simpl.
  - by apply Split_free.
  - rewrite Split_app_sep by done. f_equal. by apply IH.
Qed.

Lemma Split_pieces s c : Forall (fun w => free_of c w = true) (Split s c).
Proof.
  unfold free_of. induction s as [|a s IH]; simpl; [by repeat constructor|].
  case_decide; [by constructor|].
  destruct (Split s c) as [|w ws]; [constructor; simpl; [|done]|].
  - by rewrite bool_decide_false.
  - inversion IH; subst. constructor; [|done]. simpl.
    by rewrite bool_decide_false.
Qed.

Lemma Join_Split s c : Join (Split s c) c = s.
Proof.
  induction s as [|a s IH]; simpl; [done|].
  pose proof (Split_nonempty s c). case_decide; subst.
  - destruct (Split s c); [done|]. simpl in *. by rewrite IH.
  - destruct (Split s c) as [|w [|w' ws]]; simpl in *; [done| |]; by rewrite IH.
Qed.

Lemma IndexByte_None s c : free_of c s = true -> IndexByte s c = None.
Proof.
  unfold free_of. induction s as [|a s IH]; simpl; [done|].
  rewrite andb_true_iff, negb_true_iff, bool_decide_eq_false.
  intros [Ha Hs]. rewrite decide_False by done. by rewrite IH.
Qed.

Lemma IndexByte_app a b c :
  free_of c a = true -> IndexByte (a +:+ String c b) c = Some (slen a).
Proof.
  unfold free_of, slen. induction a as [|x a IH]; simpl.
  - by rewrite decide_True.
  - rewrite andb_true_iff, negb_true_iff, bool_decide_eq_false.
    intros [Ha Hs]. rewrite decide_False by done. by rewrite IH.
Qed.

(** The string around the byte found. *)
Lemma IndexByte_cut s c i : IndexByte s c = Some i ->
  s = stake i s +:+ String c (sdrop (S i) s).
Proof.
  revert i. induction s as [|a s IH]; intros i; simpl; [done|].
  destruct (decide (a = c)) as [->|]; [by intros [= <-]|].
  destruct (IndexByte s c) as [k|]; [|done]. intros [= <-]. simpl. f_equal. by apply IH.
Qed.

Lemma IndexByte_before s c i : IndexByte s c = Some i -> free_of c (stake i s) = true.
Proof.
  revert i. induction s as [|a s IH]; intros i; simpl; [done|].
  destruct (decide (a = c)) as [->|Hne]; [by intros [= <-]|].
  destruct (IndexByte s c) as [k|]; [|done]. intros [= <-]. unfold free_of in *. simpl.
  rewrite bool_decide_false by done. by apply IH.
Qed.

Lemma IndexByte_free s c : IndexByte s c = None -> free_of c s = true.
Proof.
  induction s as [|a s IH]; simpl; [done|]. destruct (decide (a = c)) as [->|Hne]; [done|].
  destruct (IndexByte s c); [done|]. intros _. unfold free_of in *. simpl.
  rewrite bool_decide_false by done. by apply IH.
Qed.

Lemma Index_not_at s p a :
  Index (String a s) p = if HasPrefix (String a s) p then Some 0 else S <$> Index s p.
Proof. done. Qed.

(** *** Numbers *)

Lemma string_of_uint_digits d : str_all is_digit (NilEmpty.string_of_uint d) = true.
Proof. induction d; simpl; auto. Qed.

Lemma uint_of_string_of_uint d :
  NilEmpty.uint_of_string (NilEmpty.string_of_uint d) = Some d.
Proof. apply NilEmpty.usu. Qed.

Lemma digits_of_digits n : str_all is_digit (digits_of n) = true.
Proof. apply string_of_uint_digits. Qed.

Lemma N_to_uint_not_nil n : N.to_uint n <> Decimal.Nil.
Proof.
  destruct n as [|p]; [done|]. simpl.
  intros H. pose proof (DecimalPos.Unsigned.to_uint_nonnil p). done.
Qed.

Lemma digits_of_cons n : exists a s, digits_of n = String a s /\ is_digit a = true.
Proof.
  pose proof (digits_of_digits n) as Hd. unfold digits_of in *.
  pose proof (N_to_uint_not_nil n).
  destruct (N.to_uint n); simpl in *; try done; eauto.
Qed.

Lemma parse_digits_of n : parse_digits (digits_of n) = Some n.
Proof.
  destruct (digits_of_cons n) as (a & s & E & _). unfold parse_digits.
  rewrite E, <- E. unfold digits_of. rewrite uint_of_string_of_uint. simpl.
  f_equal. apply DecimalN.Unsigned.of_to.
Qed.

Lemma Atoi_Itoa z : (int64_min <= z <= int64_max)%Z -> Atoi (Itoa z) = (z, None).
Proof.
  intros Hz. unfold Atoi, Itoa. destruct (Z.ltb_spec z 0) as [Hn|Hn].
  - rewrite parse_digits_of, Z2N.id, Z.opp_involutive by lia.
    by rewrite !decide_False by lia.
  - destruct (digits_of_cons (Z.to_N z)) as (a & s & E & Ha).
    pose proof (parse_digits_of (Z.to_N z)) as Hp. rewrite E in Hp |- *.
    assert (a <> "-"%char /\ a <> "+"%char) as [H1 H2]
      by (split; intros ->; discriminate Ha).
    destruct a as [[] [] [] [] [] [] [] []]; try done;
      rewrite Hp, Z2N.id by lia; by rewrite !decide_False by lia.
Qed.

Lemma digits_of_inj n m : digits_of n = digits_of m -> n = m.
Proof.
  intros H. pose proof (parse_digits_of n) as Hn.
  rewrite H, parse_digits_of in Hn. congruence.
Qed.

Lemma Itoa_inj_nonneg a b : (0 <= a)%Z -> (0 <= b)%Z -> Itoa a = Itoa b -> a = b.
Proof.
  intros Ha Hb. unfold Itoa.
  destruct (Z.ltb_spec a 0), (Z.ltb_spec b 0); try lia.
  intros E%digits_of_inj. lia.
Qed.

Lemma digit_free c s :
  is_digit c = false -> str_all is_digit s = true -> free_of c s = true.
Proof.
  intros Hc. apply str_all_impl. intros a Ha.
  rewrite negb_true_iff, bool_decide_eq_false. intros ->. congruence.
Qed.

Lemma Itoa_free c z : (0 <= z)%Z -> is_digit c = false -> free_of c (Itoa z) = true.
Proof.
  intros Hz Hc. unfold Itoa. destruct (Z.ltb_spec z 0); [lia|].
  apply digit_free; [done|apply digits_of_digits].
Qed.

#[export] Hint Rewrite slen_app sapp_assoc sapp_nil_r : unet_str.
#[export] Hint Resolve HasPrefix_app Split_nonempty digits_of_digits : unet.

(** *** Trimming *)

(** Printable ASCII other than the blank: no byte of a white-space encoding. *)
Definition graphic (c : ascii) : bool := in_range "!" "~" c.

Definition starts_nongraphic (p : string) : bool :=
  match p with String a _ => negb (graphic a) | EmptyString => false end.

Lemma first_space_graphic sps s :
  forallb starts_nongraphic sps = true ->
  match s with String a _ => graphic a = true | EmptyString => True end ->
  first_space sps s = None.
Proof.
  intros Hsps Hs. induction sps as [|p sps IH]; [done|]. simpl in *.
  apply andb_true_iff in Hsps as [Hp Hsps].
  destruct p as [|a p]; [done|]. simpl in *. destruct s as [|b s]; [by apply IH|].
  destruct (decide (a = b)) as [->|Hne]; [by rewrite Hs in Hp|].
  rewrite bool_decide_false by done. by apply IH.
Qed.

Lemma trim_left_graphic f sps s :
  forallb starts_nongraphic sps = true ->
  match s with String a _ => graphic a = true | EmptyString => True end ->
  trim_left_with f sps s = s.
Proof. intros H Hs. destruct f; [done|]. simpl. by rewrite first_space_graphic. Qed.

Lemma srev_onto_app s t : srev_onto s t = srev s +:+ t.
Proof.
  unfold srev. revert t. induction s as [|a s IH]; intros t; [done|]. simpl.
  rewrite IH, (IH (String a "")). by rewrite sapp_assoc.
Qed.

Lemma srev_cons a s : srev (String a s) = srev s +:+ String a "".
Proof. unfold srev at 1. simpl. apply srev_onto_app. Qed.

Lemma srev_app s t : srev (s +:+ t) = srev t +:+ srev s.
Proof.
  induction s as [|a s IH]; simpl; [by rewrite sapp_nil_r|].
  by rewrite !srev_cons, IH, sapp_assoc.
Qed.

Lemma srev_involutive s : srev (srev s) = s.
Proof. induction s as [|a s IH]; [done|]. by rewrite srev_cons, srev_app, IH. Qed.

Lemma str_all_srev f s : str_all f (srev s) = str_all f s.
Proof.
  induction s as [|a s IH]; [done|]. rewrite srev_cons, str_all_app, IH. simpl.
  rewrite andb_true_r. apply andb_comm.
Qed.

Lemma str_all_head f s :
  str_all f s = true -> match s with String a _ => f a = true | EmptyString => True end.
Proof. destruct s; [done|]. simpl. by intros [? _]%andb_true_iff. Qed.

Lemma TrimSpace_graphic s : str_all graphic s = true -> TrimSpace s = s.
Proof.
  intros Hs. unfold TrimSpace, TrimRightSpace, TrimLeftSpace.
  rewrite (trim_left_graphic _ spaces s); [|done|by apply (str_all_head graphic)].
  rewrite trim_left_graphic; [apply srev_involutive|done|].
  apply (str_all_head graphic). by rewrite str_all_srev.
Qed.

(** Trimming keeps a string that has something to show. *)
Definition blank (s : string) : bool := str_all (fun c => negb (graphic c)) s.

Lemma first_space_blank sps s n :
  forallb blank sps = true -> first_space sps s = Some n ->
  exists p r, s = p +:+ r /\ slen p = n /\ blank p = true.
Proof.
  intros Hsps. induction sps as [|p sps IH]; [done|]. simpl in *.
  apply andb_true_iff in Hsps as [Hp Hsps]. destruct (HasPrefix s p) eqn:Hpre; [|by apply IH].
  intros [= <-]. apply HasPrefix_spec in Hpre as [r ->]. eauto.
Qed.

Lemma trim_left_blank f sps s :
  forallb blank sps = true -> blank (trim_left_with f sps s) = blank s.
Proof.
  intros Hsps. revert s. induction f as [|f IH]; intros s; [done|]. simpl.
  destruct (first_space sps s) as [n|] eqn:E; [|done].
  destruct (first_space_blank _ _ _ Hsps E) as (p & r & -> & <- & Hp).
  rewrite IH, sdrop_app. unfold blank in *. by rewrite str_all_app, Hp.
Qed.

Lemma TrimSpace_blank s : blank (TrimSpace s) = blank s.
Proof.
  unfold TrimSpace, TrimRightSpace, TrimLeftSpace, blank. rewrite str_all_srev.
  fold blank. rewrite trim_left_blank by (vm_compute; reflexivity).
  unfold blank. rewrite str_all_srev. apply trim_left_blank. by vm_compute.
Qed.

Lemma TrimSpace_nonempty s : blank s = false -> TrimSpace s <> EmptyString.
Proof. intros H E. by rewrite <- TrimSpace_blank, E in H. Qed.

Lemma digit_graphic s : str_all is_digit s = true -> str_all graphic s = true.
Proof.
  apply str_all_impl. unfold is_digit, graphic, in_range. intros a.
  rewrite !andb_true_iff, !N.leb_le. simpl. lia.
Qed.

Lemma Itoa_graphic z : str_all graphic (Itoa z) = true.
Proof.
  unfold Itoa. destruct (z <? 0)%Z; simpl; apply digit_graphic, digits_of_digits.
Qed.

Lemma dot4_graphic a b c d : str_all graphic (dot4 a b c d) = true.
Proof. unfold dot4. by rewrite !str_all_app, !Itoa_graphic. Qed.

Lemma free_of_app x a b : free_of x (a +:+ b) = free_of x a && free_of x b.
Proof. apply str_all_app. Qed.

Lemma Itoa_free_of c z : is_digit c = false -> c <> "-"%char -> free_of c (Itoa z) = true.
Proof.
  intros Hc Hne. unfold Itoa. destruct (z <? 0)%Z.
  - unfold free_of. simpl. rewrite bool_decide_false by done.
    apply (digit_free c); [done|apply digits_of_digits].
  - apply digit_free; [done|apply digits_of_digits].
Qed.

Lemma dot4_free x a b c d :
  is_digit x = false -> x <> "-"%char -> x <> "."%char -> free_of x (dot4 a b c d) = true.
Proof.
  intros. unfold dot4. rewrite !free_of_app, !Itoa_free_of by done.
  unfold free_of. simpl. by rewrite bool_decide_false.
Qed.

Lemma dot4_nonempty a b c d : dot4 a b c d <> EmptyString.
Proof. unfold dot4. by destruct (Itoa a). Qed.

(** Dotted quads are injective in each octet. *)
Lemma dot4_inj_last a b c i j :
  (0 <= i)%Z -> (0 <= j)%Z -> dot4 a b c i = dot4 a b c j -> i = j.
Proof.
  unfold dot4. intros Hi Hj E. do 6 apply sapp_inj_l in E. by apply Itoa_inj_nonneg.
Qed.

(** ** A codec for any countable type, for the witnesses *)

Fixpoint bits_of (p : positive) : string :=
  match p with
  | xH => EmptyString
  | xO q => String "0"%char (bits_of q)
  | xI q => String "1"%char (bits_of q)
  end.
Fixpoint of_bits (s : string) : positive :=
  match s with
  | EmptyString => xH
  | String c s' => if decide (c = "1"%char) then xI (of_bits s') else xO (of_bits s')
  end.

Definition count_enc {A} `{Countable A} (a : A) : string := bits_of (encode a).
Definition count_dec {A} `{Countable A} (s : string) : option A := decode (of_bits s).

Lemma count_dec_enc {A} `{Countable A} (a : A) : count_dec (count_enc a) = Some a.
Proof.
  unfold count_dec, count_enc. assert (forall p, of_bits (bits_of p) = p) as ->.
  { induction p as [p IH|p IH|]; simpl; [by rewrite IH..|done]. }
  apply decode_encode.
Qed.

(** A record is countable through the list of its encoded fields. *)
Ltac by_fields enc dec :=
  intros []; unfold enc, dec; repeat (rewrite decode_encode; cbn [mbind option_bind]); done.

(** ** The order of strings *)

Lemma N_of_ascii_inj x y : N_of_ascii x = N_of_ascii y -> x = y.
Proof. intros E. by rewrite <- (ascii_N_embedding x), E, ascii_N_embedding. Qed.

Lemma string_ltb_asym a b : string_ltb a b = true -> string_ltb b a = false.
Proof.
  revert b. induction a as [|x a IH]; intros [|y b]; simpl; try done.
  rewrite orb_true_iff, andb_true_iff, bool_decide_eq_true, N.ltb_lt.
  rewrite orb_false_iff, andb_false_iff, bool_decide_eq_false, N.ltb_ge.
  intros [Hlt|[-> Hab]]; [|split; [lia|by right; apply IH]].
  split; [lia|left]. intros ->. lia.
Qed.

Lemma string_ltb_cotrans a b c :
  string_ltb a c = true -> string_ltb a b = true \/ string_ltb b c = true.
Proof.
  revert b c. induction a as [|x a IH]; intros b [|z c]; simpl; try done; destruct b as [|y b]; simpl; auto.
  rewrite !orb_true_iff, !andb_true_iff, !bool_decide_eq_true, !N.ltb_lt.
  intros [Hlt|[-> Hac]].
  - destruct (N.lt_trichotomy (N_of_ascii x) (N_of_ascii y)) as [|[E|]]; [auto| |right; left; lia].
    apply N_of_ascii_inj in E as ->. auto.
  - destruct (N.lt_trichotomy (N_of_ascii z) (N_of_ascii y)) as [|[E|]]; [auto| |auto].
    apply N_of_ascii_inj in E as ->. destruct (IH b c Hac); auto.
Qed.

(** ** Dotted addresses are read back *)

Definition octet (z : Z) : Prop := (0 <= z < 256)%Z.

Lemma parse_octet_Itoa z : octet z -> parse_octet (Itoa z) = Some z.
Proof.
  intros Hz. apply (bool_decide_unpack _), Is_true_eq_left.
  apply (check_range (fun z => bool_decide (parse_octet (Itoa z) = Some z)) 0 256 z); [|exact Hz].
  vm_compute. reflexivity.
Qed.

Lemma Itoa_octet_free c z : octet z -> is_digit c = false -> free_of c (Itoa z) = true.
Proof. intros [Hz _]. by apply Itoa_free. Qed.

Lemma dot4_sep a b c d : dot4 a b c d =
  Itoa a +:+ String "." (Itoa b +:+ String "." (Itoa c +:+ String "." (Itoa d))).
Proof. done. Qed.

Lemma parse_ipv4_dot4 a b c d : octet a -> octet b -> octet c -> octet d ->
  parse_ipv4 (dot4 a b c d) = Some [a; b; c; d].
Proof.
  intros Ha Hb Hc Hd. unfold parse_ipv4. rewrite dot4_sep.
  rewrite !Split_app_sep, Split_free by (by apply Itoa_octet_free).
  by rewrite !parse_octet_Itoa.
Qed.

Lemma parse_addr_scan_digits s0 p r : str_all is_digit p = true ->
  parse_addr_scan s0 (p +:+ String "." r) = (fun ip => (v4in6 ip, 32%Z)) <$> parse_ipv4 s0.
Proof.
  induction p as [|c p IH]; [done|]. intros [Hc Hp]%andb_prop. rewrite <- IH by done.
  by destruct c as [[] [] [] [] [] [] [] []].
Qed.

Lemma Itoa_digits z : (0 <= z)%Z -> str_all is_digit (Itoa z) = true.
Proof. intros Hz. unfold Itoa. replace (z <? 0)%Z with false by lia. apply digits_of_digits. Qed.

Lemma parse_addr_dot4 a b c d : octet a -> octet b -> octet c -> octet d ->
  parse_addr_scan (dot4 a b c d) (dot4 a b c d) = Some (v4in6 [a; b; c; d], 32%Z).
Proof.
  intros Ha Hb Hc Hd. rewrite dot4_sep at 2. rewrite parse_addr_scan_digits by (apply Itoa_digits, Ha). by rewrite parse_ipv4_dot4.
Qed.

Lemma ParseIP_dot4 a b c d : octet a -> octet b -> octet c -> octet d ->
  ParseIP (dot4 a b c d) = Some (v4in6 [a; b; c; d]).
Proof. intros Ha Hb Hc Hd. unfold ParseIP. by rewrite parse_addr_dot4. Qed.

Lemma dot4_slash_free a b c d : octet a -> octet b -> octet c -> octet d ->
  free_of "/" (dot4 a b c d) = true.
Proof.
  intros. unfold dot4. rewrite !free_of_app, !Itoa_octet_free by done. reflexivity.
Qed.

Lemma sdrop_S_app a c b : sdrop (S (slen a)) (a +:+ String c b) = b.
Proof. induction a as [|x a IH]; [done|exact IH]. Qed.

Lemma ParseCIDR_dot4 a b c d n : octet a -> octet b -> octet c -> octet d -> (0 <= n <= 32)%Z ->
  ParseCIDR (dot4 a b c d +:+ String "/" (Itoa n)) =
  Some (v4in6 [a; b; c; d], apply_mask (v4in6 [a; b; c; d]) (96 + n)).
Proof.
  intros Ha Hb Hc Hd Hn. unfold ParseCIDR. rewrite IndexByte_app by (by apply dot4_slash_free).
  cbn [mbind option_bind]. rewrite stake_app, parse_addr_dot4 by done. cbn [mbind option_bind].
  rewrite sdrop_S_app. unfold Itoa. replace (n <? 0)%Z with false by lia.
  rewrite parse_digits_of. cbn [mbind option_bind].
  rewrite Z2N.id by lia. replace (32 <? n)%Z with false by lia. by rewrite decide_True.
Qed.
