(* ===== verification/Ring.v ===== *)
(** * logstream/ring.go: the bounded ring buffer of log records

    The ring is modelled with its backing array and its three counters at
    their machine widths; the specification is the plain list of everything
    ever written, and the refinement lemmas say what a reader of the ring
    sees of that list. *)

From S2P Require Import Prelude.

(** The dynamic values of [map[string]any]. *)
#[warnings="-register-all"] Inductive any : Type :=
  | AString (s : string)
  | AInt (z : Z)
  | ABool (b : bool)
  | ANil
  | AOther (json : string)   (* any other value, by its JSON text *)
  | AMap (m : list (string * any)).

Record LogRecord := {
  TS : string;
  Level : string;
  Component : string;
  Source : string;
  Msg : string;
  Seq : Z;
  Fields : list (string * any)
}.

Definition zero_record : LogRecord :=
  {| TS := ""; Level := ""; Component := ""; Source := ""; Msg := ""; Seq := 0; Fields := [] |}.

Definition with_seq (rec : LogRecord) (n : Z) : LogRecord :=
  {| TS := TS rec; Level := Level rec; Component := Component rec;
     Source := Source rec; Msg := Msg rec; Seq := n; Fields := Fields rec |}.

Record Ring := {
  records : list LogRecord;
  cap : Z;        (* uint64 *)
  writeIdx : Z;   (* atomic.Uint64 *)
  total : Z;      (* atomic.Int64 *)
  seq : Z         (* atomic.Int64 *)
}.

Definition uint64 (z : Z) : Z := z `mod` 2 ^ 64.

Definition NewRing (capacity : Z) : Ring :=
  let capacity := if (capacity <=? 0)%Z then 200%Z else capacity in
  {| records := replicate (Z.to_nat capacity) zero_record;
     cap := uint64 capacity; writeIdx := 0; total := 0; seq := 0 |}.

Definition Write (rec : LogRecord) (r : Ring) : Z * Ring :=
  let sq := wrap64 (seq r + 1) in
  let rec := with_seq rec sq in
  let wi := uint64 (writeIdx r + 1) in
  let idx := uint64 (wi - 1) in
  (sq, {| records := <[Z.to_nat (idx `mod` cap r) := rec]> (records r);
          cap := cap r; writeIdx := wi;
          total := wrap64 (total r + 1); seq := sq |}).

Definition NextSeq (r : Ring) : Z := wrap64 (seq r + 1).

(** [r.records[i%cap]]; the index is below [cap], the length of the array. *)
Definition slot (r : Ring) (i : Z) : LogRecord :=
  default zero_record (records r !! Z.to_nat (i `mod` cap r)).

Definition Snapshot (r : Ring) : list LogRecord :=
  if (total r =? 0)%Z then []
  else
    let count := Z.min (uint64 (total r)) (cap r) in
    map (fun i => slot r (uint64 (uint64 (total r) - count + Z.of_nat i)))
        (List.seq 0 (Z.to_nat count)).

Definition Since (r : Ring) (afterSeq : Z) : list LogRecord :=
  if (total r =? 0)%Z then []
  else
    let count := uint64 (total r) in
    let startIdx := if (cap r <? count)%Z then (count - cap r)%Z else 0%Z in
    filter (fun rec => afterSeq < Seq rec)%Z
      (map (fun i => slot r (startIdx + Z.of_nat i))
           (List.seq 0 (Z.to_nat (count - startIdx)))).

Definition Len (r : Ring) : Z :=
  if (total r <=? 0)%Z then 0%Z
  else if (cap r <? total r)%Z then cap r else total r.

Definition Cap (r : Ring) : Z := cap r.

(** ** Specification: the log as the list of all records written *)

(** The records as stored: the [i]-th record has sequence number [i+1]. *)
Definition numbered (l : list LogRecord) : list LogRecord :=
  imap (fun i rec => with_seq rec (Z.of_nat i + 1)) l.

Definition write_all (l : list LogRecord) (r : Ring) : Ring :=
  foldl (fun r rec => snd (Write rec r)) r l.

(** What the ring remembers of the history [h]. *)
Record ring_inv (n : nat) (h : list LogRecord) (r : Ring) : Prop := {
  inv_small : (Z.of_nat (length h) < 2 ^ 63)%Z;
  inv_cap : cap r = Z.of_nat n /\ 0 < n /\ (Z.of_nat n < 2 ^ 63)%Z;
  inv_len : length (records r) = n;
  inv_idx : writeIdx r = Z.of_nat (length h);
  inv_total : total r = Z.of_nat (length h);
  inv_seq : seq r = Z.of_nat (length h);
  inv_slots : forall i, i < length h -> length h <= i + n ->
    records r !! (i `mod` n) = h !! i
}.

Lemma uint64_small z : (0 <= z < 2 ^ 64)%Z -> uint64 z = z.
Proof. apply Z.mod_small. Qed.

Lemma NewRing_inv n :
  0 < n -> (Z.of_nat n < 2 ^ 63)%Z -> ring_inv n [] (NewRing (Z.of_nat n)).
Proof.
  intros Hn Hb. unfold NewRing.
  rewrite (proj2 (Z.leb_gt _ _)) by lia.
  split; simpl; try lia.
  - rewrite uint64_small by lia. lia.
  - rewrite length_replicate. lia.
Qed.

Lemma Write_inv n h r rec :
  ring_inv n h r -> (Z.of_nat (S (length h)) < 2 ^ 63)%Z ->
  ring_inv n (h ++ [with_seq rec (Z.of_nat (length h) + 1)]) (snd (Write rec r)).
Proof.
  intros [Hs (Hc & Hn & Hcb) Hl Hi Ht Hq Hsl] Hb.
  assert (Hsq : wrap64 (seq r + 1) = (Z.of_nat (length h) + 1)%Z).
  { rewrite Hq. apply wrap64_id. unfold int64_min, int64_max. lia. }
  assert (Hw : uint64 (writeIdx r + 1) = (Z.of_nat (length h) + 1)%Z).
  { rewrite Hi. apply uint64_small. lia. }
  unfold Write. rewrite Hsq, Hw.
  replace (Z.of_nat (length h) + 1 - 1)%Z with (Z.of_nat (length h)) by lia.
  rewrite uint64_small, Hc, <- Nat2Z.inj_mod, Nat2Z.id by lia.
  split; simpl; rewrite ?length_app, ?length_insert; simpl; try lia.
  - rewrite Ht, wrap64_id; unfold int64_min, int64_max; lia.
  - intros i Hlt Hle. destruct (decide (i = length h)) as [->|Hne].
    + rewrite list_lookup_insert_eq by (rewrite Hl; apply Nat.mod_upper_bound; lia).
      rewrite lookup_app_r, Nat.sub_diag by lia. done.
    + rewrite lookup_app_l by lia. rewrite list_lookup_insert_ne; [apply Hsl; lia|].
      intros Heq. pose proof (Nat.div_mod_eq i n). pose proof (Nat.div_mod_eq (length h) n).
      assert (i `div` n < length h `div` n \/ length h `div` n <= i `div` n) as [|] by lia; nia.
Qed.

Lemma slot_inv n h r i :
  ring_inv n h r -> i < length h -> length h <= i + n ->
  slot r (Z.of_nat i) = default zero_record (h !! i).
Proof.
  intros [Hs (Hc & Hn & Hcb) Hl Hi Ht Hq Hsl] Hlt Hle. unfold slot.
  rewrite Hc, <- Nat2Z.inj_mod, Nat2Z.id. by rewrite Hsl.
Qed.

Lemma map_slots n h r k m :
  ring_inv n h r -> k + m = length h -> m <= n ->
  map (fun i => slot r (Z.of_nat k + Z.of_nat i)) (List.seq 0 m) = drop k h.
Proof.
  intros Hinv Hkm Hm. apply list_eq. intros i.
  rewrite lookup_drop. destruct (decide (i < m)) as [Hi|Hi].
  - rewrite list_lookup_fmap, lookup_seq_lt by done. simpl.
    rewrite <- Nat2Z.inj_add, (slot_inv n h) by (done || lia).
    destruct (lookup_lt_is_Some_2 h (k + i)) as [x ->]; [lia|done].
  - rewrite !lookup_ge_None_2; [done|lia|]. rewrite length_map, length_seq. lia.
Qed.

(** The readers, in terms of the history. *)
Lemma Snapshot_inv n h r : ring_inv n h r -> Snapshot r = lastn n h.
Proof.
  intros Hinv. destruct (id Hinv) as [Hs (Hc & Hn & Hcb) Hl Hi Ht Hq Hsl].
  unfold Snapshot. rewrite Ht. destruct (Z.eqb_spec (Z.of_nat (length h)) 0) as [H0|H0].
  - destruct h; [done|simpl in H0; lia].
  - rewrite uint64_small, Hc by lia. unfold lastn.
    rewrite <- (map_slots n h r (length h - n) (Nat.min (length h) n)) by (done || lia).
    rewrite <- Nat2Z.inj_min, Nat2Z.id. apply map_ext_in.
    intros i Hin%in_seq. f_equal. rewrite uint64_small; lia.
Qed.

Lemma Since_inv n h r a :
  ring_inv n h r -> Since r a = filter (fun rec => a < Seq rec)%Z (lastn n h).
Proof.
  intros Hinv. destruct (id Hinv) as [Hs (Hc & Hn & Hcb) Hl Hi Ht Hq Hsl].
  unfold Since. rewrite Ht. destruct (Z.eqb_spec (Z.of_nat (length h)) 0) as [H0|H0].
  - destruct h; [done|simpl in H0; lia].
  - rewrite uint64_small, Hc by lia. f_equal. unfold lastn.
    rewrite <- (map_slots n h r (length h - n) (Nat.min (length h) n)) by (done || lia).
    destruct (Z.ltb_spec (Z.of_nat n) (Z.of_nat (length h)));
      (replace (Z.to_nat _) with (Nat.min (length h) n) by lia);
      apply map_ext; intros i; f_equal; lia.
Qed.

Lemma Len_inv n h r : ring_inv n h r -> Len r = Z.of_nat (length (lastn n h)).
Proof.
  intros [Hs (Hc & Hn & Hcb) Hl Hi Ht Hq Hsl].
  unfold Len. rewrite Ht, Hc, lastn_length.
  destruct (Z.leb_spec (Z.of_nat (length h)) 0), (Z.ltb_spec (Z.of_nat n) (Z.of_nat (length h))); lia.
Qed.

Lemma NextSeq_inv n h r :
  ring_inv n h r -> (Z.of_nat (S (length h)) < 2 ^ 63)%Z ->
  NextSeq r = (Z.of_nat (length h) + 1)%Z.
Proof.
  intros [Hs (Hc & Hn & Hcb) Hl Hi Ht Hq Hsl] Hb. unfold NextSeq. rewrite Hq.
  apply wrap64_id. unfold int64_min, int64_max. lia.
Qed.

Lemma numbered_app l rec :
  numbered (l ++ [rec]) = numbered l ++ [with_seq rec (Z.of_nat (length l) + 1)].
Proof. unfold numbered. rewrite imap_app. simpl. by rewrite Nat.add_0_r. Qed.

Lemma length_numbered l : length (numbered l) = length l.
Proof. apply length_imap. Qed.

Lemma numbered_Seq l i rec : numbered l !! i = Some rec -> Seq rec = (Z.of_nat i + 1)%Z.
Proof.
  unfold numbered. rewrite list_lookup_imap, fmap_Some. by intros (x & _ & ->).
Qed.

Lemma write_all_inv n l :
  0 < n -> (Z.of_nat n < 2 ^ 63)%Z -> (Z.of_nat (length l) < 2 ^ 63)%Z ->
  ring_inv n (numbered l) (write_all l (NewRing (Z.of_nat n))).
Proof.
  intros Hn Hnb. induction l as [|rec l IH] using rev_ind; intros Hb.
  - by apply NewRing_inv.
  - rewrite length_app in Hb. simpl in Hb. unfold write_all.
    rewrite foldl_app. simpl. rewrite numbered_app, <- length_numbered.
    apply Write_inv; [apply IH; lia|]. rewrite length_numbered. lia.
Qed.

Lemma filter_seq_drop l k :
  filter (fun rec => Z.of_nat k < Seq rec)%Z (numbered l) = drop k (numbered l).
Proof.
  induction l as [|rec l IH] using rev_ind; [by destruct k|].
  rewrite numbered_app, gfilter_app, IH, filter_cons, filter_nil. simpl.
  destruct (decide (k <= length l)) as [Hk|Hk].
  - rewrite decide_True by lia. rewrite drop_app_le; [done|]. rewrite length_numbered. lia.
  - rewrite decide_False by lia.
    rewrite !drop_ge; rewrite ?length_app, ?length_numbered; simpl; try lia. done.
Qed.

(** ** Properties *)

(** C15: Whatever has been written, a snapshot of a ring of capacity [n] is the
    last [n] records in order, numbered from 1, [Len] is their number and the
    next sequence number follows the last one written. *)
Theorem snapshot_refines_log n l :
  0 < n -> (Z.of_nat n < 2 ^ 63)%Z -> (Z.of_nat (S (length l)) < 2 ^ 63)%Z ->
  let r := write_all l (NewRing (Z.of_nat n)) in
  Snapshot r = lastn n (numbered l) /\
  Len r = Z.of_nat (Nat.min n (length l)) /\
  NextSeq r = (Z.of_nat (length l) + 1)%Z.
Proof.
  intros Hn Hnb Hb r.
  assert (Hinv : ring_inv n (numbered l) r) by (apply write_all_inv; lia).
  rewrite (Snapshot_inv _ _ _ Hinv), (Len_inv _ _ _ Hinv), lastn_length, length_numbered.
  rewrite (NextSeq_inv _ _ _ Hinv), length_numbered by (rewrite length_numbered; lia).
  done.
Qed.

Definition sample (m : string) : LogRecord :=
  {| TS := "t"; Level := "info"; Component := "c"; Source := "daemon"; Msg := m; Seq := 0; Fields := [] |}.

Lemma snapshot_refines_log_witness :
  let r := write_all [sample "a"; sample "b"; sample "c"] (NewRing 2) in
  Snapshot r = lastn 2 (numbered [sample "a"; sample "b"; sample "c"]) /\
  Len r = 2%Z /\ NextSeq r = 4%Z.
Proof. apply (snapshot_refines_log 2 [sample "a"; sample "b"; sample "c"]); simpl; lia. Defined.

(** Replay after a reconnect has no gap and no repetition: as long as the
    ring still holds record [k+1], [Since k] is every record after the [k]-th,
    in order, however the buffer has wrapped. *)
Theorem since_replays_suffix n l k :
  0 < n -> (Z.of_nat n < 2 ^ 63)%Z -> (Z.of_nat (length l) < 2 ^ 63)%Z ->
  length l <= k + n ->
  Since (write_all l (NewRing (Z.of_nat n))) (Z.of_nat k) = drop k (numbered l).
Proof.
  intros Hn Hnb Hb Hk.
  rewrite (Since_inv n (numbered l)) by (apply write_all_inv; lia).
  rewrite <- (filter_seq_drop l k). unfold lastn. rewrite length_numbered.
  rewrite <- (take_drop (length l - n) (numbered l)) at 2.
  rewrite gfilter_app.
  assert (filter (fun rec => Z.of_nat k < Seq rec)%Z (take (length l - n) (numbered l)) = [])
    as ->; [|done].
  apply gfilter_none. apply Forall_lookup_2. intros i rec Hi.
  apply lookup_take_Some in Hi as [Hi Hlt]. apply numbered_Seq in Hi. lia.
Qed.

Lemma since_replays_suffix_witness :
  Since (write_all [sample "a"; sample "b"; sample "c"] (NewRing 2)) 1
  = drop 1 (numbered [sample "a"; sample "b"; sample "c"]).
Proof. apply (since_replays_suffix 2 [sample "a"; sample "b"; sample "c"] 1); simpl; lia. Defined.
