(* ===== verification/Hub.v ===== *)
(** * logstream/hub.go: fan-out of log records to SSE subscribers

    Subscribers are shared objects: the hub's map and the SSE handler hold the
    same pointer.  The model keeps the objects in a store [objs] and the map as
    the set of registered identifiers.  A buffered channel is its queue and its
    capacity.  An operation here is what its call does when no other runs
    meanwhile; HubThreads cuts them where others can come between, above all
    [Replay], which holds no lock, and [Unsubscribe], which closes outside it. *)

From S2P Require Import Prelude Ring.

Record SubFilter := {
  Levels : gmap string bool;
  Components : gmap string bool;
  Sources : gmap string bool
}.

Record Subscriber := {
  ch : list string;
  ch_cap : nat;
  filters : SubFilter;
  closed : bool
}.

Record Hub := {
  ring : Ring;
  objs : gmap Z Subscriber;
  subscribers : gset Z;
  nextID : Z;
  stopped : bool;
  notifyCh : list Z
}.

#[local] Definition set_sub_ch (c : list string) (s : Subscriber) : Subscriber :=
  {| ch := c; ch_cap := ch_cap s; filters := filters s; closed := closed s |}.
#[local] Definition set_objs (o : gmap Z Subscriber) (h : Hub) : Hub :=
  {| ring := ring h; objs := o; subscribers := subscribers h; nextID := nextID h;
     stopped := stopped h; notifyCh := notifyCh h |}.
#[local] Definition set_notify (n : list Z) (h : Hub) : Hub :=
  {| ring := ring h; objs := objs h; subscribers := subscribers h; nextID := nextID h;
     stopped := stopped h; notifyCh := n |}.

Definition NewSubscriber (bufferSize : Z) (f : SubFilter) : Subscriber :=
  let bufferSize := if (bufferSize <=? 0)%Z then 1000%Z else bufferSize in
  {| ch := []; ch_cap := Z.to_nat bufferSize; filters := f; closed := false |}.

(** [Close]: the compare-and-swap makes a second close a no-op. *)
Definition Close (s : Subscriber) : Subscriber :=
  if closed s then s
  else {| ch := ch s; ch_cap := ch_cap s; filters := filters s; closed := true |}.

(** [len(m) > 0 && !m[k]] *)
Definition filtered_out (m : gmap string bool) (k : string) : bool :=
  negb (bool_decide (m = ∅)) && negb (default false (m !! k)).

Definition Matches (s : Subscriber) (rec : LogRecord) : bool :=
  if filtered_out (Levels (filters s)) (Level rec) then false
  else if filtered_out (Components (filters s)) (Component rec) then false
  else if filtered_out (Sources (filters s)) (Source rec) then false
  else true.

(** [send]: the three [select]s with a default case. *)
Definition send (data : string) (s : Subscriber) : bool * Subscriber :=
  if closed s then (false, s)
  else if decide (length (ch s) < ch_cap s) then (true, set_sub_ch (ch s ++ [data]) s)
  else
    let s' := match ch s with
              | [] => s
              | _ :: rest => set_sub_ch rest s
              end in
    if decide (length (ch s') < ch_cap s') then (true, set_sub_ch (ch s' ++ [data]) s')
    else (false, s').

Definition NewHub (r : Ring) : Hub :=
  {| ring := r; objs := ∅; subscribers := ∅; nextID := 0; stopped := false; notifyCh := [] |}.

Definition Subscribe (f : SubFilter) (h : Hub) : (Z * Z) * Hub :=
  let id := wrap64 (nextID h + 1) in
  ((id, wrap64 (NextSeq (ring h) - 1)),
   {| ring := ring h; objs := <[id := NewSubscriber 1000 f]> (objs h);
      subscribers := {[id]} ∪ subscribers h; nextID := id;
      stopped := stopped h; notifyCh := notifyCh h |}).

(** In one piece; the deletion and the closing are two steps of HubThreads. *)
Definition Unsubscribe (id : Z) (h : Hub) : Hub :=
  if decide (id ∈ subscribers h) then
    {| ring := ring h; objs := alter Close id (objs h);
       subscribers := subscribers h ∖ {[id]}; nextID := nextID h;
       stopped := stopped h; notifyCh := notifyCh h |}
  else h.

Definition Subscribers (h : Hub) : nat := size (subscribers h).

(** The notification channel holds 256 sequence numbers; a full one drops. *)
Definition Notify (sq : Z) (h : Hub) : Hub :=
  if decide (length (notifyCh h) < 256) then set_notify (notifyCh h ++ [sq]) h else h.

(** [Stop]: a second call closes a closed channel, which panics. *)
Definition Stop : eff Hub unit := fun h =>
  if stopped h then (Panic "close of closed channel", h)
  else (Ok tt, {| ring := ring h;
                  objs := map_imap (fun id s => Some (if decide (id ∈ subscribers h)
                                                      then Close s else s)) (objs h);
                  subscribers := ∅; nextID := nextID h;
                  stopped := true; notifyCh := notifyCh h |}).

Section Encoding.
(** [json.Marshal] of the SSE event of a record, by [fanout] and by [Replay]
    (a struct and a map: different key orders); [None] is its error. *)
Context (marshal_event marshal_map : LogRecord -> option string).

Definition send_encoded (enc : LogRecord -> option string) (rec : LogRecord)
  (s : Subscriber) : Subscriber :=
  match enc rec with
  | None => s
  | Some data => if Matches s rec then snd (send data s) else s
  end.

Definition send_records (enc : LogRecord -> option string) (recs : list LogRecord)
  (s : Subscriber) : Subscriber :=
  foldl (fun s rec => send_encoded enc rec s) s recs.

(** Each record goes to every registered subscriber; the map's iteration
    order does not matter, since subscribers do not share a queue. *)
Definition fanout (afterSeq : Z) (h : Hub) : Hub :=
  let recs := Since (ring h) (wrap64 (afterSeq - 1)) in
  set_objs (map_imap (fun id s =>
    Some (if decide (id ∈ subscribers h) then send_records marshal_event recs s else s))
    (objs h)) h.

(** In one piece; every check and send is a step of its own in HubThreads. *)
Definition Replay (id : Z) (afterSeq : Z) (h : Hub) : Hub :=
  set_objs (alter (send_records marshal_map (Since (ring h) afterSeq)) id (objs h)) h.

(** The slog handler's write followed by [Notify]. *)
Definition write_notify (rec : LogRecord) (h : Hub) : Hub :=
  let '(sq, r) := Write rec (ring h) in
  Notify sq {| ring := r; objs := objs h; subscribers := subscribers h;
               nextID := nextID h; stopped := stopped h; notifyCh := notifyCh h |}.

(** One iteration of [Run] that takes a notification. *)
Definition run_notified (h : Hub) : option Hub :=
  match notifyCh h with
  | [] => None
  | sq :: rest => Some (fanout sq (set_notify rest h))
  end.

(** The SSE goroutine takes one event from its channel. *)
Definition receive (s : Subscriber) : Subscriber := set_sub_ch (tail (ch s)) s.

(** The writer, the event loop, the HTTP handlers and the SSE goroutines
    interleave at these operations. *)
Inductive hub_step : Hub -> Hub -> Prop :=
  | step_write rec h : hub_step h (write_notify rec h)
  | step_run h h' : run_notified h = Some h' -> hub_step h h'
  | step_subscribe f h : (nextID h < int64_max)%Z -> hub_step h (snd (Subscribe f h))
  | step_unsubscribe id h : hub_step h (Unsubscribe id h)
  | step_replay id k h : hub_step h (Replay id k h)
  | step_receive id h : hub_step h (set_objs (alter receive id (objs h)) h)
  | step_stop h h' : Stop h = (Ok tt, h') -> hub_step h h'.

(** ** Lemmas *)

Lemma send_cap data s : ch_cap (snd (send data s)) = ch_cap s.
Proof. unfold send. by repeat (case_match || case_decide). Qed.

Lemma send_filters data s : filters (snd (send data s)) = filters s.
Proof. unfold send. by repeat (case_match || case_decide). Qed.

Lemma send_closed data s : closed (snd (send data s)) = closed s.
Proof. unfold send. by repeat (case_match || case_decide). Qed.

(** Dropping the oldest event keeps the newest [ch_cap] of what was sent. *)
Lemma send_open data s :
  closed s = false -> 0 < ch_cap s -> length (ch s) <= ch_cap s ->
  fst (send data s) = true /\
  ch (snd (send data s)) = lastn (ch_cap s) (ch s ++ [data]).
Proof.
  intros Hc Hp Hl. unfold send. rewrite Hc. case_decide as Hlt.
  - split; [done|]. simpl. rewrite lastn_all; [done|]. rewrite length_app. simpl. lia.
  - destruct s as [q n f c]; simpl in *. destruct q as [|x q]; simpl in *; [lia|].
    rewrite decide_True by lia. split; [done|]. simpl.
    unfold lastn. simpl. rewrite length_app. simpl.
    by replace (S (length q + 1) - n) with 1 by lia.
Qed.

Record sub_ok (s : Subscriber) : Prop := {
  sub_cap_pos : 0 < ch_cap s;
  sub_bounded : length (ch s) <= ch_cap s
}.

Lemma send_ok data s : sub_ok s -> sub_ok (snd (send data s)).
Proof.
  intros [Hp Hb]. destruct (closed s) eqn:Hc.
  - unfold send. by rewrite Hc.
  - destruct (send_open data s Hc Hp Hb) as [_ Hch].
    split; rewrite send_cap; [done|]. rewrite Hch, lastn_length. lia.
Qed.

Lemma Close_ok s : sub_ok s -> sub_ok (Close s).
Proof. intros [? ?]. unfold Close. by case_match. Qed.

Lemma Close_closed s : closed (Close s) = true.
Proof. unfold Close. by destruct (closed s) eqn:E. Qed.

Section records.
Context (enc : LogRecord -> option string).

Lemma send_records_cons rec recs s :
  send_records enc (rec :: recs) s = send_records enc recs (send_encoded enc rec s).
Proof. done. Qed.

Lemma send_records_closed recs s : closed (send_records enc recs s) = closed s.
Proof.
  revert s. induction recs as [|rec recs IH]; intros s; [done|].
  rewrite send_records_cons, IH. unfold send_encoded.
  repeat case_match; rewrite ?send_closed; done.
Qed.

Lemma send_records_ok recs s : sub_ok s -> sub_ok (send_records enc recs s).
Proof.
  revert s. induction recs as [|rec recs IH]; intros s Hs; [done|].
  rewrite send_records_cons. apply IH. unfold send_encoded. repeat case_match; auto using send_ok.
Qed.

(** The events a subscriber is due for [recs]. *)
Definition encoded (s : Subscriber) (recs : list LogRecord) : list string :=
  omap enc (filter (fun rec => Matches s rec = true) recs).

Lemma lastn_lastn_app n (q l : list string) :
  lastn n (lastn n q ++ l) = lastn n (q ++ l).
Proof.
  unfold lastn. rewrite !length_app, length_drop.
  destruct (decide (length q <= n)).
  - replace (length q - n) with 0 by lia. rewrite drop_0, Nat.sub_0_r. done.
  - replace (length q - (length q - n)) with n by lia.
    rewrite <- (drop_app_le q l (length q - n)) by lia. rewrite drop_drop. f_equal. lia.
Qed.

Lemma send_records_open recs s :
  closed s = false -> sub_ok s ->
  ch (send_records enc recs s) = lastn (ch_cap s) (ch s ++ encoded s recs).
Proof.
  intros Hc Hs. revert s Hc Hs. induction recs as [|rec recs IH]; intros s Hc [Hp Hb].
  - unfold encoded. rewrite filter_nil. simpl. rewrite app_nil_r, lastn_all; done.
  - rewrite send_records_cons. unfold encoded, send_encoded. rewrite filter_cons.
    destruct (Matches s rec) eqn:Hm.
    2: { rewrite decide_False by done. by destruct (enc rec); apply IH. }
    rewrite decide_True by done. simpl.
    destruct (enc rec) as [data|] eqn:He; [|by apply IH].
    destruct (send_open data s Hc Hp Hb) as [_ Hch].
    rewrite IH; [|by rewrite send_closed|by apply send_ok].
    assert (encoded (snd (send data s)) recs = encoded s recs) as ->.
    { unfold encoded. f_equal. apply list_filter_iff. intros r.
      unfold Matches. by rewrite send_filters. }
    by rewrite send_cap, Hch, lastn_lastn_app, <- app_assoc.
Qed.
End records.

(** ** The invariant of the hub *)

Record hub_inv (h : Hub) : Prop := {
  hub_registered : forall id, id ∈ subscribers h ->
    exists s, objs h !! id = Some s /\ closed s = false;
  hub_unregistered : forall id s, objs h !! id = Some s -> id ∉ subscribers h ->
    closed s = true;
  hub_queues : forall id s, objs h !! id = Some s -> sub_ok s;
  hub_ids : (0 <= nextID h <= int64_max)%Z /\
    forall id s, objs h !! id = Some s -> (1 <= id <= nextID h)%Z;
  hub_notify : length (notifyCh h) <= 256
}.

Lemma hub_inv_new r : hub_inv (NewHub r).
Proof.
  split; simpl; try done; lia.
Qed.

Lemma Subscribe_inv f h :
  (nextID h < int64_max)%Z -> hub_inv h -> hub_inv (snd (Subscribe f h)).
Proof.
  intros Hlt [Hr Hu Hq [Hn Hi] Hno]. unfold Subscribe.
  rewrite wrap64_id by (unfold int64_min, int64_max in *; lia).
  split; simpl.
  - intros id. destruct (decide (id = nextID h + 1)%Z) as [->|Hne].
    + intros _. rewrite lookup_insert_eq. eauto.
    + intros Hid. rewrite lookup_insert_ne by done. apply Hr. set_solver.
  - intros id s. destruct (decide (id = nextID h + 1)%Z) as [->|Hne]; [set_solver|].
    rewrite lookup_insert_ne by done. intros Hid Hnot. eapply Hu; [done|set_solver].
  - intros id s. destruct (decide (id = nextID h + 1)%Z) as [->|Hne].
    + rewrite lookup_insert_eq. intros [= <-]. split; simpl; lia.
    + rewrite lookup_insert_ne by done. apply Hq.
  - split; [lia|]. intros id s. destruct (decide (id = nextID h + 1)%Z) as [->|Hne]; [lia|].
    rewrite lookup_insert_ne by done. intros Hid. apply Hi in Hid. lia.
  - done.
Qed.

(** An update of the objects that keeps [closed] and the queues sound. *)
Lemma hub_inv_objs h (o : gmap Z Subscriber) :
  hub_inv h ->
  (forall id, o !! id = None <-> objs h !! id = None) ->
  (forall id s s', objs h !! id = Some s -> o !! id = Some s' ->
     closed s' = closed s /\ sub_ok s') ->
  hub_inv (set_objs o h).
Proof.
  intros [Hr Hu Hq [Hn Hi] Hno] Hdom Ho.
  assert (Hold : forall id s', o !! id = Some s' -> exists s, objs h !! id = Some s).
  { intros id s' Hs'. destruct (objs h !! id) eqn:E; [eauto|].
    apply Hdom in E. congruence. }
  split; simpl; try done.
  - intros id Hid. destruct (Hr id Hid) as (s & Hs & Hc).
    destruct (o !! id) as [s'|] eqn:E; [|apply Hdom in E; congruence].
    destruct (Ho _ _ _ Hs E) as [Hcc _]. exists s'. split; [done|congruence].
  - intros id s' Hs' Hid. destruct (Hold _ _ Hs') as [s Hs].
    destruct (Ho _ _ _ Hs Hs') as [-> _]. eauto.
  - intros id s' Hs'. destruct (Hold _ _ Hs') as [s Hs]. by destruct (Ho _ _ _ Hs Hs').
  - split; [done|]. intros id s' Hs'. destruct (Hold _ _ Hs') as [s Hs]. eauto.
Qed.

Lemma hub_inv_alter h id f :
  hub_inv h -> (forall s, sub_ok s -> closed (f s) = closed s /\ sub_ok (f s)) ->
  hub_inv (set_objs (alter f id (objs h)) h).
Proof.
  intros Hh Hf. apply hub_inv_objs; [done| |].
  - intros i. by rewrite lookup_alter_None.
  - intros i s s' Hs. pose proof (hub_queues _ Hh _ _ Hs). rewrite lookup_alter.
    case_decide; [subst; rewrite Hs; intros [= <-]; auto|]. rewrite Hs. by intros [= <-].
Qed.

Lemma fanout_inv k h : hub_inv h -> hub_inv (fanout k h).
Proof.
  intros Hh. apply hub_inv_objs; [done| |]; intros id; rewrite map_lookup_imap.
  - by destruct (objs h !! id).
  - intros s s' Hs. rewrite Hs. simpl. intros [= <-].
    pose proof (hub_queues _ Hh _ _ Hs). case_decide; [|done].
    rewrite send_records_closed. auto using send_records_ok.
Qed.

Lemma set_notify_inv n h : length n <= 256 -> hub_inv h -> hub_inv (set_notify n h).
Proof. intros Hn []. by split. Qed.

Lemma Unsubscribe_inv id h : hub_inv h -> hub_inv (Unsubscribe id h).
Proof.
  intros [Hr Hu Hq [Hn Hi] Hno].
  unfold Unsubscribe. case_decide as Hin; [|done].
  split; simpl; try done.
  - intros i Hi'. rewrite lookup_alter_ne by set_solver. apply Hr. set_solver.
  - intros i s. rewrite lookup_alter. case_decide as Hd.
    + subst. intros [s0 [_ ->]]%fmap_Some _. apply Close_closed.
    + intros Hs Hni. eapply Hu; [done|set_solver].
  - intros i s. rewrite lookup_alter. case_decide as Hd; [|apply Hq].
    subst. intros [s0 [Hs0 ->]]%fmap_Some. eauto using Close_ok.
  - split; [done|]. intros i s. rewrite lookup_alter. case_decide as Hd; [|apply Hi].
    subst. intros [s0 [Hs0 ->]]%fmap_Some. eauto.
Qed.

Lemma Stop_inv h h' : hub_inv h -> Stop h = (Ok tt, h') -> hub_inv h'.
Proof.
  unfold Stop. intros [Hr Hu Hq [Hn Hi] Hno]. case_match; [done|]. intros [= <-].
  split; simpl; try done.
  - intros id s. rewrite map_lookup_imap. destruct (objs h !! id) as [s0|] eqn:E; simpl; [|done].
    intros [= <-] _. case_decide; [apply Close_closed|]. eauto.
  - intros id s. rewrite map_lookup_imap. destruct (objs h !! id) as [s0|] eqn:E; simpl; [|done].
    intros [= <-]. case_decide; eauto using Close_ok.
  - split; [done|]. intros id s. rewrite map_lookup_imap.
    destruct (objs h !! id) as [s0|] eqn:E; simpl; [|done]. eauto.
Qed.

Lemma hub_step_inv h h' : hub_inv h -> hub_step h h' -> hub_inv h'.
Proof.
  intros Hh. destruct 1 as [rec h|h h' Hrun|f h Hlt|id h|id k h|id h|h h' Hstop].
  - unfold write_notify, Notify. destruct Hh. simpl. case_decide; split; simpl; try done.
    rewrite length_app. simpl in *. lia.
  - unfold run_notified in Hrun. pose proof (hub_notify _ Hh) as Hno.
    destruct (notifyCh h); [done|]. injection Hrun as <-.
    apply fanout_inv, set_notify_inv; [simpl in *; lia|done].
  - by apply Subscribe_inv.
  - by apply Unsubscribe_inv.
  - apply hub_inv_alter; [done|]. intros s Hs.
    rewrite send_records_closed. auto using send_records_ok.
  - apply hub_inv_alter; [done|]. intros s [Hp Hb]. split; [done|]. split; [done|].
    simpl. destruct (ch s); simpl in *; lia.
  - by eapply Stop_inv.
Qed.
End Encoding.

(** ** Properties *)

Section Delivery.
Context (marshal_event marshal_map : LogRecord -> option string).

(** In every state reached by operations that do not overlap, of the writer,
    the event loop, subscriptions, replays, receivers and [Stop], a registered
    subscriber's channel is open, an unregistered one's is closed, no queue
    exceeds its capacity, and identifiers are never reused. *)
Theorem hub_reachable_inv r h :
  star (hub_step marshal_event marshal_map) (NewHub r) h -> hub_inv h.
Proof.
  apply star_inv_ind; [|apply hub_inv_new].
  intros; eauto using hub_step_inv.
Qed.

Lemma fanout_sub k h n l id s :
  hub_inv h -> ring h = write_all l (NewRing (Z.of_nat n)) ->
  0 < n -> (Z.of_nat n < 2 ^ 63)%Z -> (Z.of_nat (length l) < 2 ^ 63)%Z ->
  length l <= k + n -> (Z.of_nat k < int64_max)%Z ->
  id ∈ subscribers h -> objs h !! id = Some s ->
  exists s', objs (fanout marshal_event (Z.of_nat k + 1) h) !! id = Some s' /\
    closed s' = false /\ ch_cap s' = ch_cap s /\
    ch s' = lastn (ch_cap s) (ch s ++ encoded marshal_event s (drop k (numbered l))).
Proof.
  intros Hh Hr Hn Hnb Hb Hk Hkb Hin Hs.
  destruct (hub_registered _ Hh _ Hin) as (s0 & Hs0 & Hc).
  rewrite Hs in Hs0. injection Hs0 as <-.
  unfold fanout. simpl. rewrite map_lookup_imap, Hs. simpl. rewrite decide_True by done.
  replace (Z.of_nat k + 1 - 1)%Z with (Z.of_nat k) by lia.
  rewrite wrap64_id by (unfold int64_min, int64_max in *; lia).
  rewrite Hr, since_replays_suffix by done.
  eexists. split; [done|]. rewrite send_records_closed. split; [done|]. split.
  - generalize (drop k (numbered l)). intros recs. clear. revert s.
    induction recs as [|rec recs IH]; intros s; [done|]. rewrite send_records_cons, IH.
    unfold send_encoded. repeat case_match; rewrite ?send_cap; done.
  - apply send_records_open; [done|]. by eapply hub_queues.
Qed.

(** When the event loop handles the notification of record [k+1], every
    registered subscriber's queue becomes the newest [capacity] events of
    what it held followed by the events, in order, of exactly the records
    after the [k]-th that pass its filters. *)
Theorem fanout_delivers k h n l id s :
  hub_inv h -> ring h = write_all l (NewRing (Z.of_nat n)) ->
  0 < n -> (Z.of_nat n < 2 ^ 63)%Z -> (Z.of_nat (length l) < 2 ^ 63)%Z ->
  length l <= k + n -> (Z.of_nat k < int64_max)%Z ->
  id ∈ subscribers h -> objs h !! id = Some s ->
  exists s', objs (fanout marshal_event (Z.of_nat k + 1) h) !! id = Some s' /\
    ch s' = lastn (ch_cap s) (ch s ++ encoded marshal_event s (drop k (numbered l))).
Proof.
  intros. edestruct (fanout_sub k h n l id s) as (s' & Hs' & _ & _ & Hch); eauto.
Qed.
End Delivery.

Definition no_filter : SubFilter := {| Levels := ∅; Components := ∅; Sources := ∅ |}.

(** Two records are logged before the event loop runs; then it handles both
    notifications. *)
Definition burst (enc : LogRecord -> option string) (r1 r2 : LogRecord) : option (list string) :=
  let h := snd (Subscribe no_filter (NewHub (NewRing 4))) in
  let h := write_notify r2 (write_notify r1 h) in
  h1 ← run_notified enc h;
  h2 ← run_notified enc h1;
  ch <$> objs h2 !! 1%Z.

(** A burst duplicates events.  [fanout] sends everything from the
    notified record on, not that record alone, so when two records are
    written before the loop runs the second one reaches each subscriber
    twice. *)
Theorem burst_duplicates (enc : LogRecord -> string) r1 r2 :
  burst (fun rec => Some (enc rec)) r1 r2 =
  Some [enc (with_seq r1 1); enc (with_seq r2 2); enc (with_seq r2 2)].
Proof. vm_compute. done. Qed.

Lemma hub_reachable_inv_witness :
  hub_inv (snd (Subscribe no_filter (NewHub (NewRing 4)))).
Proof.
  apply (hub_reachable_inv (fun _ => None) (fun _ => None) (NewRing 4)).
  eapply star_snoc; [apply star_nil|]. apply step_subscribe. reflexivity.
Defined.

Lemma fanout_delivers_witness :
  let enc rec := Some (Msg rec) in
  let h := write_notify (sample "b") (snd (Subscribe no_filter (NewHub (NewRing 4)))) in
  exists s', objs (fanout enc 1 h) !! 1%Z = Some s' /\ ch s' = ["b"].
Proof.
  intros enc h.
  destruct (fanout_delivers enc 0 h 4 [sample "b"] 1 (NewSubscriber 1000 no_filter))
    as (s' & Hs' & Hch); try (vm_compute; reflexivity || lia).
  - apply (hub_step_inv enc enc (snd (Subscribe no_filter (NewHub (NewRing 4))))); [|constructor].
    apply Subscribe_inv; [reflexivity|apply hub_inv_new].
  - exists s'. split; [exact Hs'|]. rewrite Hch. vm_compute. reflexivity.
Defined.
