(* ===== verification/HubThreads.v ===== *)
(** * logstream/hub.go: the hub's operations as threads

    The operations of Hub cut where they take and leave the lock and, for the
    sends, at every channel operation.  A thread is an operation in progress;
    [threads_step] lets any thread take its next step, and a panic ends the
    process.  [undisturbed] relates the machine to the operations of Hub, each
    of which is what its thread does when no other runs. *)

From S2P Require Import Prelude Ring Hub.

(** Where [send] stands: before the check of [closed], before each of the
    three selects. *)
Inductive send_pc := AtCheck | AtTry | AtDiscard | AtRetry.

(** An operation in progress. *)
Inductive thread :=
  | Notifying (sq : Z)                 (* the record is in the ring *)
  | Looping                            (* [Run], at its select *)
  | LoopTook (sq : Z)                  (* before [Since] *)
  | LoopRead (recs : list LogRecord)   (* before the lock *)
  | LoopSends (jobs : list (Z * string)) (p : send_pc)   (* under the read lock *)
  | Joining (id : Z)                   (* before the lock *)
  | Leaving (id : Z)                   (* deleted, before [Close] *)
  | Replaying (id : Z) (todo : list string) (p : send_pc)
  | Stopping.                          (* [stopCh] is closed; before the lock *)

Inductive culprit := ByStop | ByLoop | ByReplay (id : Z).

Record Threads := { hub : Hub; pool : gmap nat thread; panicked : option culprit }.

Definition set_hub (h : Hub) (T : Threads) : Threads := {| hub := h; pool := pool T; panicked := panicked T |}.
Definition set_pool (m : gmap nat thread) (T : Threads) : Threads :=
  {| hub := hub T; pool := m; panicked := panicked T |}.
Definition set_panic (c : culprit) (T : Threads) : Threads :=
  {| hub := hub T; pool := pool T; panicked := Some c |}.
Definition with_objs (o : gmap Z Subscriber) (h : Hub) : Hub :=
  {| ring := ring h; objs := o; subscribers := subscribers h; nextID := nextID h;
     stopped := stopped h; notifyCh := notifyCh h |}.
Definition with_subs (o : gset Z) (h : Hub) : Hub :=
  {| ring := ring h; objs := objs h; subscribers := o; nextID := nextID h;
     stopped := stopped h; notifyCh := notifyCh h |}.
Definition with_queue (c : list string) (s : Subscriber) : Subscriber :=
  {| ch := c; ch_cap := ch_cap s; filters := filters s; closed := closed s |}.

(** No fan-out holds the read lock. *)
Definition lock_free (T : Threads) : Prop := forall t jobs p, pool T !! t <> Some (LoopSends jobs p).

(** One channel operation of [send]: on to the next, done, or a send on a
    closed channel. *)
Inductive sending := Next (p : send_pc) (s : Subscriber) | Done (s : Subscriber) | SendPanics.
Definition send_at (p : send_pc) (data : string) (s : Subscriber) : sending :=
  let push := with_queue (ch s ++ [data]) s in
  match p with
  | AtCheck => if closed s then Done s else Next AtTry s
  | AtTry => if closed s then SendPanics
             else if decide (length (ch s) < ch_cap s) then Done push else Next AtDiscard s
  | AtDiscard => Next AtRetry (with_queue (tail (ch s)) s)
  | AtRetry => if closed s then SendPanics
               else if decide (length (ch s) < ch_cap s) then Done push else Done s
  end.

Section Machine.
Context (marshal_event marshal_map : LogRecord -> option string).

(** What [fanout] sends: for each record the subscribers, in the order the
    map gives them for that record. *)
Definition jobs_of (o : gmap Z Subscriber) (rec : LogRecord) (order : list Z) : list (Z * string) :=
  match marshal_event rec with
  | None => []
  | Some data => omap (fun id => s ← o !! id; if Matches s rec then Some (id, data) else None) order
  end.
Definition all_jobs (o : gmap Z Subscriber) (recs : list LogRecord) (orders : list (list Z)) : list (Z * string) :=
  concat (zip_with (jobs_of o) recs orders).

Inductive threads_step (T : Threads) : Threads -> Prop :=
  (* a record is written, then announced *)
  | ts_write t rec : panicked T = None -> pool T !! t = None ->
      let '(sq, r) := Write rec (ring (hub T)) in
      threads_step T (set_pool (<[t := Notifying sq]> (pool T))
        (set_hub {| ring := r; objs := objs (hub T); subscribers := subscribers (hub T); nextID := nextID (hub T);
                    stopped := stopped (hub T); notifyCh := notifyCh (hub T) |} T))
  | ts_notify t sq : panicked T = None -> pool T !! t = Some (Notifying sq) ->
      threads_step T (set_pool (delete t (pool T)) (set_hub (Notify sq (hub T)) T))
  (* the event loop *)
  | ts_take t sq rest : panicked T = None -> pool T !! t = Some Looping -> notifyCh (hub T) = sq :: rest ->
      threads_step T (set_pool (<[t := LoopTook sq]> (pool T))
        (set_hub {| ring := ring (hub T); objs := objs (hub T); subscribers := subscribers (hub T);
                    nextID := nextID (hub T); stopped := stopped (hub T); notifyCh := rest |} T))
  | ts_since t sq : panicked T = None -> pool T !! t = Some (LoopTook sq) ->
      threads_step T (set_pool (<[t := LoopRead (Since (ring (hub T)) (wrap64 (sq - 1)))]> (pool T)) T)
  | ts_nothing t : panicked T = None -> pool T !! t = Some (LoopRead []) ->
      threads_step T (set_pool (<[t := Looping]> (pool T)) T)
  | ts_lock t recs orders : panicked T = None -> pool T !! t = Some (LoopRead recs) -> recs <> [] ->
      Forall2 (fun _ o => o ≡ₚ elements (subscribers (hub T))) recs orders ->
      threads_step T (set_pool (<[t := LoopSends (all_jobs (objs (hub T)) recs orders) AtCheck]> (pool T)) T)
  | ts_unlock t : panicked T = None -> pool T !! t = Some (LoopSends [] AtCheck) ->
      threads_step T (set_pool (<[t := Looping]> (pool T)) T)
  | ts_return t : panicked T = None -> pool T !! t = Some Looping -> stopped (hub T) = true ->
      threads_step T (set_pool (delete t (pool T)) T)
  (* sends, of the loop and of a replay *)
  | ts_loop_send t id data jobs p s p' s' : panicked T = None ->
      pool T !! t = Some (LoopSends ((id, data) :: jobs) p) -> objs (hub T) !! id = Some s ->
      send_at p data s = Next p' s' ->
      threads_step T (set_pool (<[t := LoopSends ((id, data) :: jobs) p']> (pool T))
        (set_hub (with_objs (<[id := s']> (objs (hub T))) (hub T)) T))
  | ts_loop_sent t id data jobs p s s' : panicked T = None ->
      pool T !! t = Some (LoopSends ((id, data) :: jobs) p) -> objs (hub T) !! id = Some s ->
      send_at p data s = Done s' ->
      threads_step T (set_pool (<[t := LoopSends jobs AtCheck]> (pool T))
        (set_hub (with_objs (<[id := s']> (objs (hub T))) (hub T)) T))
  | ts_loop_panics t id data jobs p s : panicked T = None ->
      pool T !! t = Some (LoopSends ((id, data) :: jobs) p) -> objs (hub T) !! id = Some s ->
      send_at p data s = SendPanics -> threads_step T (set_panic ByLoop T)
  | ts_replay t id k s : panicked T = None -> pool T !! t = None -> objs (hub T) !! id = Some s ->
      threads_step T (set_pool
        (<[t := Replaying id (encoded marshal_map s (Since (ring (hub T)) k)) AtCheck]> (pool T)) T)
  | ts_replay_send t id data todo p s p' s' : panicked T = None ->
      pool T !! t = Some (Replaying id (data :: todo) p) -> objs (hub T) !! id = Some s ->
      send_at p data s = Next p' s' ->
      threads_step T (set_pool (<[t := Replaying id (data :: todo) p']> (pool T))
        (set_hub (with_objs (<[id := s']> (objs (hub T))) (hub T)) T))
  | ts_replay_sent t id data todo p s s' : panicked T = None ->
      pool T !! t = Some (Replaying id (data :: todo) p) -> objs (hub T) !! id = Some s ->
      send_at p data s = Done s' ->
      threads_step T (set_pool (<[t := Replaying id todo AtCheck]> (pool T))
        (set_hub (with_objs (<[id := s']> (objs (hub T))) (hub T)) T))
  | ts_replay_panics t id data todo p s : panicked T = None ->
      pool T !! t = Some (Replaying id (data :: todo) p) -> objs (hub T) !! id = Some s ->
      send_at p data s = SendPanics -> threads_step T (set_panic (ByReplay id) T)
  | ts_replayed t id p : panicked T = None -> pool T !! t = Some (Replaying id [] p) ->
      threads_step T (set_pool (delete t (pool T)) T)
  (* the browsers *)
  | ts_receive id s : panicked T = None -> objs (hub T) !! id = Some s ->
      threads_step T (set_hub (with_objs (<[id := receive s]> (objs (hub T))) (hub T)) T)
  | ts_add t f : panicked T = None -> pool T !! t = None -> (nextID (hub T) < int64_max)%Z ->
      let id := wrap64 (nextID (hub T) + 1) in
      threads_step T (set_pool (<[t := Joining id]> (pool T))
        (set_hub {| ring := ring (hub T); objs := <[id := NewSubscriber 1000 f]> (objs (hub T));
                    subscribers := subscribers (hub T); nextID := id; stopped := stopped (hub T);
                    notifyCh := notifyCh (hub T) |} T))
  | ts_register t id : panicked T = None -> lock_free T -> pool T !! t = Some (Joining id) ->
      threads_step T (set_pool (delete t (pool T))
        (set_hub (with_subs ({[id]} ∪ subscribers (hub T)) (hub T)) T))
  | ts_remove t id : panicked T = None -> lock_free T -> pool T !! t = None -> id ∈ subscribers (hub T) ->
      threads_step T (set_pool (<[t := Leaving id]> (pool T))
        (set_hub (with_subs (subscribers (hub T) ∖ {[id]}) (hub T)) T))
  | ts_close t id : panicked T = None -> pool T !! t = Some (Leaving id) ->
      threads_step T (set_pool (delete t (pool T))
        (set_hub (with_objs (alter Close id (objs (hub T))) (hub T)) T))
  (* the end *)
  | ts_stop t : panicked T = None -> pool T !! t = None -> stopped (hub T) = false ->
      threads_step T (set_pool (<[t := Stopping]> (pool T))
        (set_hub {| ring := ring (hub T); objs := objs (hub T); subscribers := subscribers (hub T);
                    nextID := nextID (hub T); stopped := true; notifyCh := notifyCh (hub T) |} T))
  | ts_stop_again : panicked T = None -> stopped (hub T) = true -> threads_step T (set_panic ByStop T)
  | ts_close_all t : panicked T = None -> lock_free T -> pool T !! t = Some Stopping ->
      threads_step T (set_pool (delete t (pool T))
        (set_hub {| ring := ring (hub T);
                    objs := map_imap (fun id s => Some (if decide (id ∈ subscribers (hub T)) then Close s else s))
                              (objs (hub T));
                    subscribers := ∅; nextID := nextID (hub T); stopped := stopped (hub T);
                    notifyCh := notifyCh (hub T) |} T)).

(** A hub with nothing but its event loop. *)
Definition idle (h : Hub) : Threads := {| hub := h; pool := {[0 := Looping]}; panicked := None |}.

(** ** The invariant *)

(** The identifier a subscription or its end has in hand, outside the map. *)
Definition held (m : gmap nat thread) (t : nat) (id : Z) : Prop :=
  m !! t = Some (Joining id) \/ m !! t = Some (Leaving id).
Definition open_in (h : Hub) (id : Z) : Prop := exists s, objs h !! id = Some s /\ closed s = false.

Record threads_inv (T : Threads) : Prop := {
  (* registered subscribers are open *)
  ti_registered : forall id, id ∈ subscribers (hub T) -> open_in (hub T) id;
  (* so is one that is being registered or closed, by one thread, and it is not in the map *)
  ti_held : forall t id, held (pool T) t id -> open_in (hub T) id /\ id ∉ subscribers (hub T);
  ti_one : forall t t' id, held (pool T) t id -> held (pool T) t' id -> t = t';
  (* and no other *)
  ti_open : forall id, open_in (hub T) id -> id ∈ subscribers (hub T) \/ exists t, held (pool T) t id;
  ti_queues : forall id s, objs (hub T) !! id = Some s -> sub_ok s;
  ti_ids : (0 <= nextID (hub T) <= int64_max)%Z /\
    forall id s, objs (hub T) !! id = Some s -> (1 <= id <= nextID (hub T))%Z;
  ti_notify : length (notifyCh (hub T)) <= 256;
  (* a fan-out sends to registered subscribers only *)
  ti_fanout : forall t jobs p, pool T !! t = Some (LoopSends jobs p) ->
    Forall (fun j => j.1 ∈ subscribers (hub T)) jobs;
  (* only a second Stop, and a replay to a channel that was closed, panic *)
  ti_panic : match panicked T with
             | None | Some ByStop => True
             | Some ByLoop => False
             | Some (ByReplay id) => exists s, objs (hub T) !! id = Some s /\ closed s = true
             end
}.

Lemma send_at_keeps p data s s' :
  (exists p', send_at p data s = Next p' s') \/ send_at p data s = Done s' ->
  sub_ok s -> closed s' = closed s /\ sub_ok s'.
Proof.
  intros Hs [Hp Hb]. destruct p; cbn in Hs; repeat (case_match || case_decide);
    destruct Hs as [[p' [=]]|[=]]; subst; cbn; (split; [done|]); try done; split; cbn; try done;
    rewrite ?length_app; cbn; try lia. destruct (ch s); cbn in *; lia.
Qed.

Lemma send_panics_closed p data s : send_at p data s = SendPanics -> closed s = true.
Proof. destruct p; cbn; repeat (case_match || case_decide); done. Qed.

Lemma inv_obj T id s s' : threads_inv T -> objs (hub T) !! id = Some s -> closed s' = closed s -> sub_ok s' ->
  threads_inv (set_hub (with_objs (<[id := s']> (objs (hub T))) (hub T)) T).
Proof.
  intros [H1 H2 H3 H4 H5 [Hn H6] H7 H8 H9] Hs Hc Hok.
  assert (Ho : forall i, open_in (with_objs (<[id := s']> (objs (hub T))) (hub T)) i <-> open_in (hub T) i).
  { intros i. unfold open_in. cbn. destruct (decide (i = id)) as [->|Hne]; [|by rewrite lookup_insert_ne].
    rewrite lookup_insert_eq, Hs. split; intros (x & [= <-] & Hx); eexists; split; try done; congruence. }
  split; cbn.
  - intros i Hi. by apply Ho, H1.
  - intros t i Hh. destruct (H2 t i Hh). by split; [apply Ho|].
  - exact H3.
  - intros i Hi. by apply H4, Ho.
  - intros i x [[<- <-]|[_ Hx]]%lookup_insert_Some; [done|by eapply H5].
  - split; [done|]. intros i x [[<- <-]|[_ Hx]]%lookup_insert_Some; by eapply H6.
  - done.
  - done.
  - destruct (panicked T) as [[| |i]|]; try done. destruct H9 as (x & Hx & Hcx).
    destruct (decide (i = id)) as [->|Hne].
    + rewrite lookup_insert_eq. rewrite Hs in Hx. injection Hx as <-. eexists. split; [done|congruence].
    + rewrite lookup_insert_ne by done. by exists x.
Qed.

(** A thread that moves on, with no identifier in hand. *)
Definition free_hands (x : thread) : Prop := forall id, x <> Joining id /\ x <> Leaving id.

Lemma held_elsewhere T m t' t id : (forall u, u <> t' -> m !! u = pool T !! u) ->
  (forall i, m !! t' <> Some (Joining i) /\ m !! t' <> Some (Leaving i)) ->
  held m t id -> held (pool T) t id.
Proof.
  unfold held. cbn. intros Hm Ht. destruct (decide (t = t')) as [->|Hne].
  - intros [Hx|Hx]; by destruct (Ht id).
  - by rewrite Hm.
Qed.

Lemma inv_thread T m t : threads_inv T -> (forall id, ~ held (pool T) t id) ->
  (forall u, u <> t -> m !! u = pool T !! u) ->
  (forall i, m !! t <> Some (Joining i) /\ m !! t <> Some (Leaving i)) ->
  (forall jobs p, m !! t = Some (LoopSends jobs p) -> Forall (fun j => j.1 ∈ subscribers (hub T)) jobs) ->
  threads_inv (set_pool m T).
Proof.
  intros [H1 H2 H3 H4 H5 H6 H7 H8 H9] Hno Hm Hx Hf. split; cbn; try done.
  - intros u id Hh. apply (H2 u). by eapply held_elsewhere.
  - intros u u' id Hu Hu'. apply (H3 u u' id); by eapply held_elsewhere.
  - intros id Hi. destruct (H4 id Hi) as [?|(u & Hu)]; [by left|right]. exists u.
    unfold held in *. cbn. rewrite Hm; [done|]. intros ->. by destruct (Hno id).
  - intros u jobs p Hu. destruct (decide (u = t)) as [->|Hne]; [by eapply Hf|].
    rewrite Hm in Hu by done. by eapply H8.
Qed.

Lemma inv_move T t x : threads_inv T -> (forall id, ~ held (pool T) t id) -> free_hands x ->
  (forall jobs p, x = LoopSends jobs p -> Forall (fun j => j.1 ∈ subscribers (hub T)) jobs) ->
  threads_inv (set_pool (<[t := x]> (pool T)) T).
Proof.
  intros Hi Hno Hx Hf. apply (inv_thread T _ t); [done|done| | |].
  - intros u Hu. by rewrite lookup_insert_ne.
  - intros i. rewrite lookup_insert_eq. destruct (Hx i). split; congruence.
  - intros jobs p. rewrite lookup_insert_eq. intros [= ->]. by eapply Hf.
Qed.

Lemma inv_end T t : threads_inv T -> (forall id, ~ held (pool T) t id) -> threads_inv (set_pool (delete t (pool T)) T).
Proof.
  intros Hi Hno. apply (inv_thread T _ t); [done|done| | |].
  - intros u Hu. by rewrite lookup_delete_ne.
  - intros i. by rewrite lookup_delete_eq.
  - intros jobs p. by rewrite lookup_delete_eq.
Qed.

Lemma inv_rest T h : threads_inv T -> objs h = objs (hub T) -> subscribers h = subscribers (hub T) ->
  nextID h = nextID (hub T) -> length (notifyCh h) <= 256 -> threads_inv (set_hub h T).
Proof.
  intros [H1 H2 H3 H4 H5 H6 H7 H8 H9] Ho Hs Hn Hl. split; cbn; unfold open_in in *; rewrite ?Ho, ?Hs, ?Hn; done.
Qed.

Lemma not_held T t x id : pool T !! t = x -> (forall i, x <> Some (Joining i) /\ x <> Some (Leaving i)) -> ~ held (pool T) t id.
Proof. intros Ht Hx [Hh|Hh]; destruct (Hx id); congruence. Qed.

(** What the fan-out is about to send goes to registered subscribers. *)
Lemma all_jobs_registered o (S : gset Z) recs orders :
  Forall2 (fun _ l => l ≡ₚ elements S) recs orders ->
  Forall (fun j => j.1 ∈ S) (all_jobs o recs orders).
Proof.
  induction 1 as [|rec l recs orders Hl _ IH]; [done|]. unfold all_jobs in *. cbn. apply list.Forall_app. split; [|done].
  unfold jobs_of. destruct (marshal_event rec) as [d|]; [|done].
  apply list.Forall_forall. intros [i x] (j & Hj & Hx)%list_elem_of_omap. cbn.
  destruct (o !! j) as [s|]; [|done]. cbn in Hx. destruct (Matches s rec); [|done]. injection Hx as <- _.
  rewrite Hl in Hj. by apply elem_of_elements.
Qed.

Lemma inv_add T t f : threads_inv T -> pool T !! t = None -> (nextID (hub T) < int64_max)%Z ->
  let id := wrap64 (nextID (hub T) + 1) in
  threads_inv (set_pool (<[t := Joining id]> (pool T))
    (set_hub {| ring := ring (hub T); objs := <[id := NewSubscriber 1000 f]> (objs (hub T));
                subscribers := subscribers (hub T); nextID := id; stopped := stopped (hub T);
                notifyCh := notifyCh (hub T) |} T)).
Proof.
  intros [H1 H2 H3 H4 H5 [Hn H6] H7 H8 H9] Ht Hlt. rewrite wrap64_id by (unfold int64_min, int64_max in *; lia).
  intros id. assert (Hnew : objs (hub T) !! id = None).
  { destruct (objs (hub T) !! id) eqn:E; [|done]. apply H6 in E. unfold id in E. lia. }
  assert (Hin : forall i, open_in (hub T) i -> i <> id) by (intros i (x & Hx & _) ->; congruence).
  assert (Hh : forall u i, held (<[t := Joining id]> (pool T)) u i ->
            (u = t /\ i = id) \/ (u <> t /\ held (pool T) u i)).
  { unfold held. cbn. intros u i. destruct (decide (u = t)) as [->|Hne].
    - rewrite lookup_insert_eq. left. split; [done|]. destruct H as [[=]|[=]]; congruence.
    - rewrite lookup_insert_ne by done. by right. }
  split; cbn.
  - intros i Hi. destruct (H1 i Hi) as (x & Hx & Hc). exists x. cbn.
    rewrite lookup_insert_ne; [done|]. intros <-. congruence.
  - intros u i [[-> ->]|[Hu Hi]]%Hh.
    + split; [eexists; cbn; by rewrite lookup_insert_eq|]. intros Hi. by apply (Hin id (H1 id Hi)).
    + destruct (H2 u i Hi) as [(x & Hx & Hc) Hns]. split; [|done]. exists x. cbn.
      rewrite lookup_insert_ne; [done|]. intros <-. congruence.
  - intros u u' i [[-> ->]|[Hu Hi]]%Hh [[-> Hi']|[Hu' Hi']]%Hh; try done.
    + by destruct (Hin id (proj1 (H2 _ _ Hi'))).
    + subst i. by destruct (Hin id (proj1 (H2 _ _ Hi))).
    + by eapply H3.
  - intros i (x & Hx & Hc). cbn in Hx. apply lookup_insert_Some in Hx as [[<- <-]|[Hne Hx]].
    + right. exists t. left. cbn. by rewrite lookup_insert_eq.
    + destruct (H4 i) as [?|(u & Hu)]; [by exists x|by left|right]. exists u. unfold held in *. cbn.
      rewrite lookup_insert_ne; [done|]. intros <-. by destruct Hu; congruence.
  - intros i x [[<- <-]|[_ Hx]]%lookup_insert_Some; [split; cbn; lia|by eapply H5].
  - split; [unfold id; lia|]. intros i x [[<- _]|[_ Hx]]%lookup_insert_Some; [unfold id; lia|].
    apply H6 in Hx. unfold id. lia.
  - done.
  - intros u jobs p Hu. apply lookup_insert_Some in Hu as [[_ [=]]|[_ Hu]]. by eapply H8.
  - destruct (panicked T) as [[| |i]|]; try done. destruct H9 as (x & Hx & Hc). exists x.
    rewrite lookup_insert_ne; [done|]. intros <-. congruence.
Qed.

(** Whoever keeps hold of an identifier after [t] let go of [id]. *)
Lemma held_delete T t u i : held (delete t (pool T)) u i -> u <> t /\ held (pool T) u i.
Proof.
  unfold held. cbn. destruct (decide (u = t)) as [->|Hne].
  - rewrite lookup_delete_eq. by intros [?|?].
  - by rewrite lookup_delete_ne.
Qed.

Lemma inv_register T t id : threads_inv T -> pool T !! t = Some (Joining id) ->
  threads_inv (set_pool (delete t (pool T)) (set_hub (with_subs ({[id]} ∪ subscribers (hub T)) (hub T)) T)).
Proof.
  intros [H1 H2 H3 H4 H5 H6 H7 H8 H9] Ht. assert (Hh : held (pool T) t id) by by left.
  split; cbn; try done.
  - intros i [->%elem_of_singleton|Hi]%elem_of_union; [by apply (H2 t id)|by apply H1].
  - intros u i [Hne Hu]%held_delete. destruct (H2 u i Hu). split; [done|].
    intros [->%elem_of_singleton|?]%elem_of_union; [|done]. by destruct Hne; eapply H3.
  - intros u u' i [_ Hu]%held_delete [_ Hu']%held_delete. by eapply H3.
  - intros i Hi. destruct (H4 i Hi) as [?|(u & Hu)]; [left; set_solver|].
    destruct (decide (u = t)) as [->|Hne].
    + left. assert (i = id) as -> by (destruct Hu; congruence). set_solver.
    + right. exists u. unfold held in *. cbn. by rewrite lookup_delete_ne by done.
  - intros u jobs p [_ Hu]%lookup_delete_Some. eapply list.Forall_impl; [by eapply H8|]. cbn. set_solver.
Qed.

Lemma inv_remove T t id : threads_inv T -> lock_free T -> pool T !! t = None -> id ∈ subscribers (hub T) ->
  threads_inv (set_pool (<[t := Leaving id]> (pool T))
    (set_hub (with_subs (subscribers (hub T) ∖ {[id]}) (hub T)) T)).
Proof.
  intros [H1 H2 H3 H4 H5 H6 H7 H8 H9] Hl Ht Hin.
  assert (Hh : forall u i, held (<[t := Leaving id]> (pool T)) u i ->
            (u = t /\ i = id) \/ (u <> t /\ held (pool T) u i)).
  { unfold held. cbn. intros u i. destruct (decide (u = t)) as [->|Hne].
    - rewrite lookup_insert_eq. intros [[=]|[=]]. by left.
    - rewrite lookup_insert_ne by done. by right. }
  split; cbn; try done.
  - intros i Hi. apply H1. set_solver.
  - intros u i [[-> ->]|[_ Hu]]%Hh; [split; [by apply H1|set_solver]|]. destruct (H2 u i Hu). split; [done|set_solver].
  - intros u u' i [[-> ->]|[Hu Hi]]%Hh [[-> Hi']|[Hu' Hi']]%Hh; try done.
    + by destruct (H2 _ _ Hi').
    + subst i. by destruct (H2 _ _ Hi).
    + by eapply H3.
  - intros i Hi. destruct (decide (i = id)) as [->|Hne].
    + right. exists t. right. cbn. by rewrite lookup_insert_eq.
    + destruct (H4 i Hi) as [?|(u & Hu)]; [left; set_solver|right]. exists u. unfold held in *. cbn.
      rewrite lookup_insert_ne; [done|]. intros <-. by destruct Hu; congruence.
  - intros u jobs p [[_ [=]]|[_ Hu]]%lookup_insert_Some. by destruct (Hl u jobs p).
Qed.

(** Closing what [closing] picks out. *)
Definition close_where (closing : Z -> bool) (o : gmap Z Subscriber) : gmap Z Subscriber :=
  map_imap (fun id s => Some (if closing id then Close s else s)) o.

Lemma close_where_lookup closing o id :
  close_where closing o !! id = (fun s => if closing id then Close s else s) <$> o !! id.
Proof. unfold close_where. rewrite map_lookup_imap. by destruct (o !! id). Qed.

Lemma alter_close_where id o : alter Close id o = close_where (fun i => bool_decide (i = id)) o.
Proof.
  apply map_eq. intros i. rewrite close_where_lookup, lookup_alter.
  case_decide as Hd; [subst; by rewrite bool_decide_true by done|].
  rewrite bool_decide_false by congruence. by destruct (o !! i).
Qed.

Lemma close_all_where (S : gset Z) o :
  map_imap (fun id s => Some (if decide (id ∈ S) then Close s else s)) o =
  close_where (fun i => bool_decide (i ∈ S)) o.
Proof.
  apply map_eq. intros i. rewrite close_where_lookup, map_lookup_imap.
  destruct (o !! i) as [x|]; [|done]. cbn. f_equal.
  by case_decide; [rewrite bool_decide_true by done|rewrite bool_decide_false by done].
Qed.

Lemma inv_closing T t closing S : threads_inv T ->
  (forall id, held (pool T) t id -> closing id = true) ->
  (forall id, id ∈ S <-> id ∈ subscribers (hub T) /\ closing id = false) ->
  (forall u id, u <> t -> held (pool T) u id -> closing id = false) ->
  (S = subscribers (hub T) \/ lock_free T) ->
  threads_inv (set_pool (delete t (pool T))
    (set_hub (with_subs S (with_objs (close_where closing (objs (hub T))) (hub T))) T)).
Proof.
  intros [H1 H2 H3 H4 H5 H6 H7 H8 H9] Ht HS Hu Hl.
  assert (Ho : forall id, open_in (with_subs S (with_objs (close_where closing (objs (hub T))) (hub T))) id <->
                open_in (hub T) id /\ closing id = false).
  { intros id. unfold open_in. cbn. rewrite close_where_lookup. split.
    - intros (s & (x & Hx & ->)%fmap_Some & Hc). destruct (closing id); [by rewrite Close_closed in Hc|]. eauto.
    - intros [(s & -> & Hc) ->]. by exists s. }
  split; cbn; try done.
  - intros id [Hi Hc]%HS. apply Ho. split; [by apply H1|done].
  - intros u id [Hne Hh]%held_delete. destruct (H2 u id Hh). split; [apply Ho; split; [done|by eapply Hu]|].
    by intros [? _]%HS.
  - intros u u' id [_ Hh]%held_delete [_ Hh']%held_delete. by eapply H3.
  - intros id [Hi Hc]%Ho. destruct (H4 id Hi) as [?|(u & Hh)]; [left; by apply HS|right].
    exists u. unfold held in *. cbn. rewrite lookup_delete_ne; [done|]. intros <-. apply Ht in Hh. congruence.
  - intros id s. rewrite close_where_lookup. intros (x & Hx & ->)%fmap_Some. apply H5 in Hx.
    destruct (closing id); [by apply Close_ok|done].
  - destruct H6 as [Hn H6]. split; [done|]. intros id s. rewrite close_where_lookup. intros (x & Hx & _)%fmap_Some.
    by eapply H6.
  - intros u jobs p [_ Hj]%lookup_delete_Some. destruct Hl as [->|Hl]; [by eapply H8|by destruct (Hl u jobs p)].
  - destruct (panicked T) as [[| |i]|]; try done. destruct H9 as (x & Hx & Hc). rewrite close_where_lookup, Hx.
    eexists. split; [done|]. destruct (closing i); [apply Close_closed|done].
Qed.

Lemma threads_inv_ext T T' : T = T' -> threads_inv T' -> threads_inv T.
Proof. by intros ->. Qed.

(** A channel operation of a thread that goes on sending. *)
Lemma inv_send T t id p data s s' x : threads_inv T -> objs (hub T) !! id = Some s ->
  (exists p', send_at p data s = Next p' s') \/ send_at p data s = Done s' ->
  (forall i, ~ held (pool T) t i) -> free_hands x ->
  (forall jobs q, x = LoopSends jobs q -> Forall (fun j => j.1 ∈ subscribers (hub T)) jobs) ->
  threads_inv (set_pool (<[t := x]> (pool T)) (set_hub (with_objs (<[id := s']> (objs (hub T))) (hub T)) T)).
Proof.
  intros Hi Hs Hsend Hno Hx Hf. destruct (send_at_keeps _ _ _ _ Hsend (ti_queues _ Hi _ _ Hs)) as [Hc Hok].
  apply (inv_move (set_hub (with_objs (<[id := s']> (objs (hub T))) (hub T)) T) t x);
    [by eapply inv_obj|done|done|done].
Qed.

Ltac empty_handed := intros ?; eapply not_held; [eassumption|by intros ?].

Lemma threads_step_inv T T' : threads_inv T -> threads_step T T' -> threads_inv T'.
Proof.
  intros Hi Hs. pose proof (ti_notify _ Hi) as Hn. destruct Hs.
  - unfold Write. apply (inv_move (set_hub _ T)); [by apply inv_rest|empty_handed|done|done].
  - apply (inv_end (set_hub _ T)); [|empty_handed]. unfold Notify.
    case_decide; apply inv_rest; cbn; rewrite ?length_app; cbn; try done; lia.
  - apply (inv_move (set_hub _ T)); [|empty_handed|done|done]. apply inv_rest; try done.
    match goal with E : notifyCh _ = _ :: _ |- _ => rewrite E in Hn end. cbn in *. lia.
  - apply inv_move; [done|empty_handed|done|done].
  - apply inv_move; [done|empty_handed|done|done].
  - apply inv_move; [done|empty_handed|done|]. intros jobs p [= <- <-]. by apply all_jobs_registered.
  - apply inv_move; [done|empty_handed|done|done].
  - apply inv_end; [done|empty_handed].
  - eapply inv_send; try done; [by left; eexists|empty_handed|].
    intros js q [= <- <-]. by eapply (ti_fanout _ Hi).
  - eapply inv_send; try done; [by right|empty_handed|].
    intros js q [= <- <-]. by eapply list.Forall_cons, (ti_fanout _ Hi).
  - exfalso. match goal with E : send_at _ _ _ = SendPanics |- _ => apply send_panics_closed in E as Hc end.
    match goal with E : pool T !! t = Some (LoopSends _ _) |- _ =>
      apply (ti_fanout _ Hi), list.Forall_cons in E as [Hin _] end.
    destruct (ti_registered _ Hi _ Hin) as (x & Hx & Hcx). cbn in Hx. congruence.
  - apply inv_move; [done|empty_handed|done|done].
  - eapply inv_send; try done; [by left; eexists|empty_handed].
  - eapply inv_send; try done; [by right|empty_handed].
  - match goal with E : send_at _ _ _ = SendPanics |- _ => apply send_panics_closed in E as Hc end.
    destruct Hi. split; try done. cbn. by exists s.
  - apply inv_end; [done|empty_handed].
  - eapply inv_obj; try done. destruct (ti_queues _ Hi _ _ H0) as [Hp Hb]. split; [done|].
    cbn. destruct (ch s); cbn in *; lia.
  - by apply inv_add.
  - by apply inv_register.
  - by apply inv_remove.
  - rewrite alter_close_where.
    eapply threads_inv_ext; [|apply (inv_closing T t (fun i => bool_decide (i = id)) (subscribers (hub T)) Hi)].
    + done.
    + intros i [Hh|Hh]; apply bool_decide_eq_true; congruence.
    + intros i. split; [|by intros [? _]]. intros Hin. split; [done|]. apply bool_decide_eq_false. intros ->.
      by destruct (ti_held _ Hi t id (or_intror H0)).
    + intros u i Hne Hh. apply bool_decide_eq_false. intros ->. destruct Hne.
      by eapply (ti_one _ Hi); [|right].
    + by left.
  - apply (inv_move (set_hub _ T)); [by apply inv_rest|empty_handed|done|done].
  - destruct Hi. by split.
  - rewrite close_all_where.
    eapply threads_inv_ext; [|apply (inv_closing T t (fun i => bool_decide (i ∈ subscribers (hub T))) ∅ Hi)].
    + done.
    + intros i [Hh|Hh]; congruence.
    + intros i. rewrite bool_decide_eq_false. set_solver.
    + intros u i _ Hh. apply bool_decide_eq_false. by destruct (ti_held _ Hi u i Hh).
    + by right.
Qed.

Lemma idle_inv r : threads_inv (idle (NewHub r)).
Proof.
  split; cbn; unfold held, open_in, idle; cbn; try done; try lia.
  - intros t id [[_ Hh]%lookup_singleton_Some|[_ Hh]%lookup_singleton_Some]; done.
  - intros t t' id [[_ Hh]%lookup_singleton_Some|[_ Hh]%lookup_singleton_Some]; done.
  - by intros id (s & Hs & _).
  - intros t jobs p [_ Hh]%lookup_singleton_Some. done.
Qed.

(** C22: in every state reachable by any interleaving of the hub's operations,
    cut where they take and leave the lock and at every channel operation of a
    send, a registered subscriber is open; outside the map only one that a
    subscription has not registered yet, or that Unsubscribe has deleted and
    not closed yet, is open, in the hands of one thread.  No queue exceeds its
    capacity, identifiers are never reused, and the fan-out sends to open
    channels only: the process can panic by a second Stop, and by a replay to
    a channel that has been closed. *)
Theorem hub_threads_inv r T : star threads_step (idle (NewHub r)) T -> threads_inv T.
Proof.
  apply star_inv_ind; [apply threads_step_inv|apply idle_inv].
Qed.

Lemma threads_step_eq T T' T'' : threads_step T T' -> T' = T'' -> threads_step T T''.
Proof. by intros ? <-. Qed.

(** ** A replay and the end of its subscriber *)

(** A replay whose subscriber is registered, about to check it for its next
    event, can be overtaken: Unsubscribe deletes the subscriber and closes the
    channel between the check and the send, and the process panics. *)
Theorem replay_overtaken T t u id data todo : threads_inv T -> panicked T = None -> lock_free T ->
  pool T !! t = Some (Replaying id (data :: todo) AtCheck) -> id ∈ subscribers (hub T) -> pool T !! u = None ->
  exists T', star threads_step T T' /\ panicked T' = Some (ByReplay id).
Proof.
  intros Hi Hp Hl Ht Hin Hu. destruct (ti_registered _ Hi id Hin) as (s & Hs & Hc).
  assert (Hne : t <> u) by (intros ->; congruence).
  set (T1 := set_pool (<[t := Replaying id (data :: todo) AtTry]> (pool T))
               (set_hub (with_objs (<[id := s]> (objs (hub T))) (hub T)) T)).
  set (T2 := set_pool (<[u := Leaving id]> (pool T1))
               (set_hub (with_subs (subscribers (hub T1) ∖ {[id]}) (hub T1)) T1)).
  set (T3 := set_pool (delete u (pool T2)) (set_hub (with_objs (alter Close id (objs (hub T2))) (hub T2)) T2)).
  exists (set_panic (ByReplay id) T3). split; [|done].
  eapply star_snoc; [eapply star_snoc; [eapply star_snoc; [eapply star_snoc; [apply star_nil|]|]|]|].
  - apply (ts_replay_send T t id data todo AtCheck s AtTry s); try done. cbn. by rewrite Hc.
  - apply (ts_remove T1 u id); [done| | |exact Hin].
    + intros v jobs p Hv. cbn in Hv. apply lookup_insert_Some in Hv as [[_ [=]]|[_ Hv]]. by destruct (Hl v jobs p).
    + cbn. by rewrite lookup_insert_ne.
  - apply (ts_close T2 u id); [done|]. cbn. by rewrite lookup_insert_eq.
  - apply (ts_replay_panics T3 t id data todo AtTry (Close s)); [done| | |].
    + cbn. rewrite lookup_delete_ne, lookup_insert_ne, lookup_insert_eq by done. done.
    + cbn. by rewrite lookup_alter_eq, lookup_insert_eq.
    + cbn. by rewrite Close_closed.
Qed.

(** ** One thread at a time

    What a thread does when no other runs: the operations of Hub. *)

(** A send that is not interrupted. *)
Lemma send_undisturbed data s :
  send_at AtCheck data s = Done (snd (send data s)) \/
  (send_at AtCheck data s = Next AtTry s /\
   (send_at AtTry data s = Done (snd (send data s)) \/
    exists s1, send_at AtTry data s = Next AtDiscard s /\ send_at AtDiscard data s = Next AtRetry s1 /\
      send_at AtRetry data s1 = Done (snd (send data s)))).
Proof.
  unfold send. cbn. destruct s as [q n f []]; cbn; [by left|right]. split; [done|].
  case_decide as Hd; [by left|right]. eexists. split_and!; [done|done|]. cbn.
  destruct q as [|x q]; cbn in *; by repeat case_decide.
Qed.

(** A job of a thread: [busy] is the thread at a point of the send, [rest]
    after it. *)
Lemma one_send T t id data s (busy : send_pc -> thread) (rest : thread) :
  pool T !! t = Some (busy AtCheck) -> objs (hub T) !! id = Some s ->
  (forall T p s p' s', panicked T = None -> pool T !! t = Some (busy p) -> objs (hub T) !! id = Some s ->
     send_at p data s = Next p' s' ->
     threads_step T (set_pool (<[t := busy p']> (pool T)) (set_hub (with_objs (<[id := s']> (objs (hub T))) (hub T)) T))) ->
  (forall T p s s', panicked T = None -> pool T !! t = Some (busy p) -> objs (hub T) !! id = Some s ->
     send_at p data s = Done s' ->
     threads_step T (set_pool (<[t := rest]> (pool T)) (set_hub (with_objs (<[id := s']> (objs (hub T))) (hub T)) T))) ->
  panicked T = None ->
  star threads_step T (set_pool (<[t := rest]> (pool T))
    (set_hub (with_objs (<[id := snd (send data s)]> (objs (hub T))) (hub T)) T)).
Proof.
  intros Ht Hs Hnext Hdone Hp. destruct (send_undisturbed data s) as [H1|[H1 [H2|(s1 & H2 & H3 & H4)]]].
  - eapply star_snoc; [apply star_nil|]. by apply (Hdone T AtCheck s).
  - eapply star_snoc; [eapply star_snoc; [apply star_nil|by apply (Hnext T AtCheck s)]|].
    eapply threads_step_eq; [eapply (Hdone _ AtTry s)|]; try done; cbn; rewrite ?lookup_insert_eq; try done.
    by rewrite !insert_insert_eq.
  - eapply star_snoc; [eapply star_snoc; [eapply star_snoc; [eapply star_snoc; [apply star_nil|by apply (Hnext T AtCheck s)]|]|]|].
    + eapply (Hnext _ AtTry s); try done; cbn; by rewrite lookup_insert_eq.
    + eapply (Hnext _ AtDiscard s); try done; cbn; by rewrite lookup_insert_eq.
    + eapply threads_step_eq; [eapply (Hdone _ AtRetry s1)|]; try done; cbn; rewrite ?lookup_insert_eq; try done.
      by rewrite !insert_insert_eq.
Qed.

(** The events of [ds] sent one after the other. *)
Definition send_list (ds : list string) (s : Subscriber) : Subscriber := foldl (fun s d => snd (send d s)) s ds.

Lemma send_list_records enc recs s : send_list (encoded enc s recs) s = send_records enc recs s.
Proof.
  revert s. induction recs as [|rec recs IH]; intros s; [done|]. rewrite send_records_cons.
  unfold encoded, send_encoded. rewrite filter_cons. destruct (Matches s rec) eqn:Hm.
  - rewrite decide_True by done. cbn. destruct (enc rec) as [d|]; [|apply IH].
    cbn. rewrite <- IH. unfold send_list at 1. f_equal. unfold encoded. f_equal. apply list_filter_iff.
    intros r. unfold Matches. by rewrite send_filters.
  - rewrite decide_False by done. destruct (enc rec); apply IH.
Qed.

Lemma alter_insert_id {A} (f : A -> A) (o : gmap Z A) id s : o !! id = Some s -> alter f id o = <[id := f s]> o.
Proof.
  intros Hs. apply map_eq. intros i. rewrite lookup_alter. case_decide as Hd.
  - subst. by rewrite Hs, lookup_insert_eq.
  - by rewrite lookup_insert_ne.
Qed.

Lemma alter_missing {A} (f : A -> A) (o : gmap Z A) id : o !! id = None -> alter f id o = o.
Proof.
  intros Hs. apply map_eq. intros i. rewrite lookup_alter. case_decide as Hd; [|done]. subst. by rewrite Hs.
Qed.

Lemma replay_run ds T t id s : panicked T = None -> pool T !! t = Some (Replaying id ds AtCheck) ->
  objs (hub T) !! id = Some s ->
  star threads_step T (set_pool (<[t := Replaying id [] AtCheck]> (pool T))
    (set_hub (with_objs (<[id := send_list ds s]> (objs (hub T))) (hub T)) T)).
Proof.
  revert T s. induction ds as [|d ds IH]; intros T s Hp Ht Hs.
  - cbn. rewrite insert_id, insert_id by done. destruct T as [[] ? ?]. apply star_nil.
  - assert (H1 := one_send T t id d s (fun p => Replaying id (d :: ds) p) (Replaying id ds AtCheck) Ht Hs).
    eapply star_trans; [apply H1; [|by intros; eapply ts_replay_sent|done]|].
    { intros. by eapply ts_replay_send. }
    match goal with |- star _ ?X _ => assert (H2 := IH X (snd (send d s)) Hp) end.
    cbn in H2. rewrite !lookup_insert_eq in H2. specialize (H2 eq_refl eq_refl).
    unfold set_pool, set_hub, with_objs in *. cbn in *. by rewrite !insert_insert_eq in H2.
Qed.

(** The jobs of a fan-out, on the objects. *)
Definition run_jobs (jobs : list (Z * string)) (o : gmap Z Subscriber) : gmap Z Subscriber :=
  foldl (fun o j => alter (fun s => snd (send j.2 s)) j.1 o) o jobs.

Lemma loop_run jobs T t : panicked T = None -> pool T !! t = Some (LoopSends jobs AtCheck) ->
  Forall (fun j => is_Some (objs (hub T) !! j.1)) jobs ->
  star threads_step T (set_pool (<[t := LoopSends [] AtCheck]> (pool T))
    (set_hub (with_objs (run_jobs jobs (objs (hub T))) (hub T)) T)).
Proof.
  revert T. induction jobs as [|[id d] jobs IH]; intros T Hp Ht Hall.
  - cbn. rewrite insert_id by done. destruct T as [[] ? ?]. apply star_nil.
  - apply list.Forall_cons in Hall as [[s Hs] Hall]. cbn in Hs.
    assert (H1 := one_send T t id d s (fun p => LoopSends ((id, d) :: jobs) p) (LoopSends jobs AtCheck) Ht Hs).
    eapply star_trans; [apply H1; [|by intros; eapply ts_loop_sent|done]|].
    { intros. by eapply ts_loop_send. }
    match goal with |- star _ ?X _ => assert (H2 := IH X Hp) end.
    cbn in H2. rewrite !lookup_insert_eq in H2. specialize (H2 eq_refl).
    unfold set_pool, set_hub, with_objs in *. cbn in *. rewrite !insert_insert_eq in H2.
    rewrite (alter_insert_id _ _ _ _ Hs). apply H2. eapply list.Forall_impl; [exact Hall|].
    intros [i x] Hi. cbn in *. destruct (decide (i = id)) as [->|Hne]; [by rewrite lookup_insert_eq|].
    by rewrite lookup_insert_ne.
Qed.

(** What a fan-out sends to one subscriber. *)
Definition jobs_for (id : Z) (jobs : list (Z * string)) : list string :=
  omap (fun j => if decide (j.1 = id) then Some j.2 else None) jobs.

Lemma run_jobs_lookup jobs o id : run_jobs jobs o !! id = send_list (jobs_for id jobs) <$> o !! id.
Proof.
  revert o. induction jobs as [|[i d] jobs IH]; intros o; cbn; [by destruct (o !! id)|].
  unfold run_jobs in IH. rewrite IH, lookup_alter. cbn. case_decide as Hd.
  - subst. by destruct (o !! id).
  - done.
Qed.

Lemma jobs_for_app id a b : jobs_for id (a ++ b) = jobs_for id a ++ jobs_for id b.
Proof. apply omap_app. Qed.

Lemma jobs_for_one o rec order id s : NoDup order -> o !! id = Some s ->
  jobs_for id (jobs_of o rec order) =
  if decide (id ∈ order) then (if Matches s rec then option_list (marshal_event rec) else []) else [].
Proof.
  intros Hnd Hs. unfold jobs_of. destruct (marshal_event rec) as [d|]; [|by repeat case_match].
  induction Hnd as [|i order Hi Hnd IH]; [done|]. cbn [omap list_omap].
  destruct (decide (i = id)) as [->|Hne].
  - rewrite Hs. rewrite (decide_True (P := id ∈ id :: order)) by set_solver.
    rewrite (decide_False (P := id ∈ order)) in IH by done. cbn. destruct (Matches s rec); cbn; [|exact IH].
    rewrite decide_True by done. f_equal. exact IH.
  - assert (H1 : jobs_for id (omap (fun id => s ← o !! id; if Matches s rec then Some (id, d) else None) order) =
      jobs_for id (omap (fun id => s ← o !! id; if Matches s rec then Some (id, d) else None) (i :: order))).
    { cbn. destruct (o !! i) as [x|]; [|done]. cbn. destruct (Matches x rec); [|done]. cbn.
      by rewrite decide_False by done. }
    cbn [omap list_omap] in H1. rewrite <- H1, IH. apply decide_ext. set_solver.
Qed.

Lemma jobs_for_all o (S : gset Z) recs orders id s : Forall2 (fun _ l => l ≡ₚ elements S) recs orders ->
  o !! id = Some s ->
  jobs_for id (all_jobs o recs orders) = if decide (id ∈ S) then encoded marshal_event s recs else [].
Proof.
  intros Hall Hs. induction Hall as [|rec l recs orders Hl _ IH].
  - by case_decide.
  - change (all_jobs o (rec :: recs) (l :: orders)) with (jobs_of o rec l ++ all_jobs o recs orders).
    rewrite jobs_for_app, IH, (jobs_for_one o rec l id s) by
      (try done; rewrite Hl; apply NoDup_elements).
    destruct (decide (id ∈ S)) as [Hin|Hin].
    + rewrite decide_True by (rewrite Hl; by apply elem_of_elements).
      unfold encoded. rewrite filter_cons. destruct (Matches s rec) eqn:Hm; cbn.
      * rewrite decide_True by done. cbn. by destruct (marshal_event rec).
      * by rewrite decide_False by done.
    + by rewrite decide_False by (rewrite Hl; by rewrite elem_of_elements).
Qed.

Lemma fanout_jobs o (S : gset Z) recs orders : Forall2 (fun _ l => l ≡ₚ elements S) recs orders ->
  run_jobs (all_jobs o recs orders) o =
  map_imap (fun id s => Some (if decide (id ∈ S) then send_records marshal_event recs s else s)) o.
Proof.
  intros Hall. apply map_eq. intros id. rewrite run_jobs_lookup, map_lookup_imap.
  destruct (o !! id) as [s|] eqn:Hs; [|done]. cbn. f_equal. rewrite (jobs_for_all _ S _ _ _ s Hall Hs).
  case_decide; [apply send_list_records|done].
Qed.

Lemma pool_back (x : thread) : delete 1 (<[1 := x]> {[0 := Looping]} : gmap nat thread) = {[0 := Looping]}.
Proof. by rewrite delete_insert_id. Qed.
Lemma pool_loop (x : thread) : <[0 := x]> {[0 := Looping]} = ({[0 := x]} : gmap nat thread).
Proof. apply insert_singleton_eq. Qed.
Lemma only_loop (h : Hub) (x : thread) c : (forall jobs p, x <> LoopSends jobs p) ->
  lock_free {| hub := h; pool := <[1 := x]> {[0 := Looping]}; panicked := c |}.
Proof.
  intros Hx t jobs p Ht. cbn in Ht.
  apply lookup_insert_Some in Ht as [[_ Ht]|[_ [_ Ht]%lookup_singleton_Some]]; [by eapply Hx|done].
Qed.

Lemma fanout_undisturbed h sq rest : hub_inv h -> notifyCh h = sq :: rest ->
  star threads_step (idle h)
    (idle (fanout marshal_event sq {| ring := ring h; objs := objs h; subscribers := subscribers h;
             nextID := nextID h; stopped := stopped h; notifyCh := rest |})).
Proof.
  intros Hh Hn. set (recs := Since (ring h) (wrap64 (sq - 1))).
  set (h1 := {| ring := ring h; objs := objs h; subscribers := subscribers h;
                nextID := nextID h; stopped := stopped h; notifyCh := rest |}).
  set (at_ x := {| hub := h1; pool := {[0 := x]}; panicked := None |}).
  assert (Hread : star threads_step (idle h) (at_ (LoopRead recs))).
  { eapply star_snoc; [eapply star_snoc; [apply star_nil|]|].
    - by apply (ts_take (idle h) 0 sq rest).
    - eapply threads_step_eq; [by apply (ts_since _ 0 sq)|]. unfold idle, set_pool, set_hub, at_. cbn.
      by rewrite !insert_singleton_eq. }
  assert (Hloop : forall o, star threads_step (at_ (LoopRead recs)) {| hub := with_objs o h1; pool := {[0 := LoopSends [] AtCheck]}; panicked := None |} ->
             star threads_step (idle h) (idle (with_objs o h1))).
  { intros o Ho. eapply star_trans; [exact Hread|]. eapply star_snoc; [exact Ho|].
    eapply threads_step_eq; [by apply (ts_unlock _ 0)|]. unfold idle, set_pool. cbn. by rewrite insert_singleton_eq. }
  unfold fanout. cbn [ring subscribers objs]. fold recs.
  change (star threads_step (idle h) (idle (with_objs (map_imap (fun id s =>
    Some (if decide (id ∈ subscribers h) then send_records marshal_event recs s else s)) (objs h)) h1))).
  destruct (decide (recs = [])) as [Hr|Hr].
  - eapply star_trans; [exact Hread|]. eapply star_snoc; [apply star_nil|].
    eapply threads_step_eq; [apply (ts_nothing _ 0); [done|]; cbn; by rewrite Hr, lookup_singleton_eq|].
    unfold idle, set_pool. cbn. rewrite insert_singleton_eq. f_equal. unfold with_objs, h1. cbn. f_equal.
    rewrite Hr. apply map_eq. intros i. rewrite map_lookup_imap. destruct (objs h !! i); [|done]. cbn. by case_decide.
  - set (orders := map (fun _ => elements (subscribers h)) recs).
    assert (Ho : Forall2 (fun _ o => o ≡ₚ elements (subscribers h)) recs orders).
    { unfold orders. clear. induction recs; cbn; by constructor. }
    rewrite <- (fanout_jobs _ _ _ orders) by done. apply Hloop.
    set (jobs := all_jobs (objs h) recs orders).
    eapply star_trans; [eapply star_snoc; [apply star_nil|]|].
    + by apply (ts_lock (at_ (LoopRead recs)) 0 recs orders).
    + match goal with |- star _ ?X _ => assert (H2 := loop_run jobs X 0 eq_refl) end. cbn in H2.
      rewrite !lookup_insert_eq in H2. specialize (H2 eq_refl). unfold set_pool, set_hub, with_objs in *. cbn in *.
      rewrite !insert_singleton_eq in *. apply H2. eapply list.Forall_impl; [by apply all_jobs_registered|].
      intros j Hj. cbn in Hj. destruct (hub_registered _ Hh _ Hj) as (s & -> & _). done.
Qed.

(** Every operation of Hub is a run of the machine, from a hub where nothing
    else runs to one where nothing else runs. *)
Theorem operations_undisturbed h h' : hub_inv h -> hub_step marshal_event marshal_map h h' ->
  star threads_step (idle h) (idle h').
Proof.
  intros Hh Hs. destruct Hs as [rec h|h h' Hrun|f h Hlt|id h|id k h|id h|h h' Hstop].
  - eapply star_snoc; [eapply star_snoc; [apply star_nil|by apply (ts_write (idle h) 1 rec)]|].
    eapply threads_step_eq; [by eapply (ts_notify _ 1)|].
    unfold idle, set_pool, set_hub, write_notify. cbn. by rewrite pool_back.
  - unfold run_notified in Hrun. destruct (notifyCh h) as [|sq rest] eqn:Hn; [done|]. injection Hrun as <-.
    by apply fanout_undisturbed.
  - eapply star_snoc; [eapply star_snoc; [apply star_nil|by apply (ts_add (idle h) 1 f)]|].
    eapply threads_step_eq; [eapply (ts_register _ 1)|]; [done|by apply only_loop|done|].
    unfold idle, set_pool, set_hub, with_subs. cbn. by rewrite pool_back.
  - unfold Unsubscribe. case_decide as Hin; [|apply star_nil].
    eapply star_snoc; [eapply star_snoc; [apply star_nil|apply (ts_remove (idle h) 1 id); [done| |done|done]]|].
    { intros t jobs p Ht. cbn in Ht. by apply lookup_singleton_Some in Ht as [_ Ht]. }
    eapply threads_step_eq; [by eapply (ts_close _ 1)|].
    unfold idle, set_pool, set_hub, with_subs, with_objs. cbn. by rewrite pool_back.
  - unfold Replay. destruct (objs h !! id) as [s|] eqn:Hs.
    2: { rewrite alter_missing by done. destruct h. apply star_nil. }
    eapply star_snoc; [eapply star_trans; [eapply star_snoc; [apply star_nil|by apply (ts_replay (idle h) 1 id k s)]|]|].
    + eapply (replay_run _ _ 1 id s); done.
    + eapply threads_step_eq; [eapply (ts_replayed _ 1 id AtCheck)|]; [done|cbn; by rewrite lookup_insert_eq|].
      unfold idle, set_pool, set_hub, with_objs. cbn. rewrite delete_insert_eq, pool_back.
      rewrite send_list_records. by rewrite (alter_insert_id _ _ _ _ Hs).
  - destruct (objs h !! id) as [s|] eqn:Hs.
    2: { rewrite alter_missing by done. destruct h. apply star_nil. }
    eapply star_snoc; [apply star_nil|]. eapply threads_step_eq; [by apply (ts_receive (idle h) id s)|].
    unfold idle, set_hub, with_objs. cbn. by rewrite (alter_insert_id _ _ _ _ Hs).
  - unfold Stop in Hstop. destruct (stopped h) eqn:Hst; [done|]. injection Hstop as <-.
    eapply star_snoc; [eapply star_snoc; [apply star_nil|by apply (ts_stop (idle h) 1)]|].
    eapply threads_step_eq; [eapply (ts_close_all _ 1)|]; [done|by apply only_loop|done|].
    unfold idle, set_pool, set_hub. cbn. by rewrite pool_back.
Qed.
End Machine.

(** ** Witnesses *)

Definition w_enc (rec : LogRecord) : option string := Some (Msg rec).
(** A subscriber and one record. *)
Definition w_hub : Hub := snd (Subscribe no_filter (write_notify (sample "a") (NewHub (NewRing 4)))).
Definition w_replaying : Threads :=
  set_pool (<[1 := Replaying 1 ["a"] AtCheck]> (pool (idle w_hub))) (idle w_hub).

Lemma w_hub_reached : hub_inv w_hub /\ star (threads_step w_enc w_enc) (idle (NewHub (NewRing 4))) (idle w_hub).
Proof.
  pose proof (hub_inv_new (NewRing 4)) as H0.
  assert (S1 : hub_step w_enc w_enc (NewHub (NewRing 4)) (write_notify (sample "a") (NewHub (NewRing 4)))) by constructor.
  assert (S2 : hub_step w_enc w_enc (write_notify (sample "a") (NewHub (NewRing 4))) w_hub)
    by (apply step_subscribe; reflexivity).
  pose proof (hub_step_inv _ _ _ _ H0 S1) as H1. split; [by eapply hub_step_inv|].
  eapply star_trans; eapply operations_undisturbed; eassumption.
Qed.

Lemma w_replaying_reached : star (threads_step w_enc w_enc) (idle (NewHub (NewRing 4))) w_replaying.
Proof.
  eapply star_snoc; [apply w_hub_reached|].
  eapply threads_step_eq; [by apply (ts_replay w_enc w_enc (idle w_hub) 1 1 0 (NewSubscriber 1000 no_filter))|].
  done.
Qed.

(** The state with a replay under way satisfies the invariant. *)
Lemma hub_threads_inv_witness : threads_inv w_replaying.
Proof. exact (hub_threads_inv w_enc w_enc (NewRing 4) w_replaying w_replaying_reached). Defined.

Lemma replay_overtaken_witness : exists T',
  star (threads_step w_enc w_enc) w_replaying T' /\ panicked T' = Some (ByReplay 1).
Proof.
  apply (replay_overtaken w_enc w_enc w_replaying 1 2 1 "a" []).
  - eapply star_inv_ind; [apply (threads_step_inv w_enc w_enc)|apply idle_inv|apply w_replaying_reached].
  - reflexivity.
  - intros t jobs p Ht. cbn in Ht. apply lookup_insert_Some in Ht as [[_ [=]]|[_ [_ Ht]%lookup_singleton_Some]]. done.
  - reflexivity.
  - vm_compute. reflexivity.
  - reflexivity.
Defined.

Lemma operations_undisturbed_witness :
  star (threads_step w_enc w_enc) (idle w_hub) (idle (Unsubscribe 1 w_hub)).
Proof.
  apply (operations_undisturbed w_enc w_enc w_hub (Unsubscribe 1 w_hub)); [apply w_hub_reached|apply step_unsubscribe].
Defined.
