(* ===== verification/FS.v ===== *)
(** * The file system as the program uses it

    [os.MkdirAll], [os.CreateTemp], [Write], [Sync], [Close], [Chmod],
    [os.Rename], [os.Remove] and [os.ReadFile] on a map from paths to
    contents.  Every call may fail: the world carries the outcome of each
    system call to come, and a failed write leaves a prefix of its data.  The
    world also records the disk after every call, so that a theorem about all
    recorded disks is a theorem about a crash at any point. *)

From S2P Require Import Prelude GoLib.

(** How one system call fails: its error, and how much a write got through. *)
Record fault := { f_err : string; f_written : nat }.

Record World := {
  files : gmap string string;
  outcomes : list (option fault);   (* of the calls to come; none left: success *)
  draws : list string;              (* the random parts of temporary names *)
  disks : list (gmap string string) (* the disk after every call so far *)
}.

Definition next_outcome (w : World) : option fault := default None (head (outcomes w)).

Definition after (d : gmap string string) (w : World) : World :=
  {| files := d; outcomes := tail (outcomes w); draws := draws w; disks := disks w ++ [d] |}.

(** A call that changes the disk by [f] when it succeeds, by [g] of how much
    it did when it fails. *)
Definition syscall (f : gmap string string -> gmap string string)
    (g : nat -> gmap string string -> gmap string string) : eff World unit := fun w =>
  match next_outcome w with
  | None => (Ok tt, after (f (files w)) w)
  | Some e => (Err (f_err e), after (g (f_written e) (files w)) w)
  end.

Definition no_change (n : nat) (d : gmap string string) := d.

Definition MkdirAll (dir : string) : eff World unit := syscall id no_change.
Definition WriteTo (name data : string) : eff World unit :=
  syscall (<[name := data]>) (fun n => <[name := stake n data]>).
Definition Sync (name : string) : eff World unit := syscall id no_change.
Definition CloseFile (name : string) : eff World unit := syscall id no_change.
Definition Chmod (name : string) : eff World unit := syscall id no_change.
Definition Remove (name : string) : eff World unit := syscall (delete name) no_change.
Definition Rename (src dst : string) : eff World unit :=
  syscall (fun d => match d !! src with Some c => <[dst := c]> (delete src d) | None => d end)
          no_change.

(** [os.CreateTemp(dir, prefix+"*"+suffix)]: the draw is the one it settles
    on after retrying taken names. *)
Definition CreateTemp (prefix suffix : string) : eff World string := fun w =>
  let name := prefix +:+ default "0" (head (draws w)) +:+ suffix in
  let w1 := {| files := files w; outcomes := outcomes w; draws := tail (draws w); disks := disks w |} in
  match next_outcome w, files w !! name with
  | None, None => (Ok name, after (<[name := EmptyString]> (files w)) w1)
  | Some e, _ => (Err (f_err e), after (files w) w1)
  | None, Some _ => (Err "createtemp: file exists", after (files w) w1)
  end.

(** [os.ReadFile]: the contents, no such file, or another error. *)
Inductive read_result := Contents (data : string) | NotExist | ReadError (e : string).

Definition ReadFile (name : string) : eff World read_result := fun w =>
  match next_outcome w with
  | Some e => (Ok (ReadError (f_err e)), after (files w) w)
  | None => (Ok (match files w !! name with Some c => Contents c | None => NotExist end),
             after (files w) w)
  end.

(** [json.Marshal]: the text, or why there is none. *)
Definition marshalled (pre : string) (data : string + string) : eff World string := fun w =>
  (match data with inl e => Err (pre +:+ e) | inr d => Ok d end, w).

(** Runs [m]; if it fails, runs [cleanup], whose errors are dropped, and
    returns [m]'s error behind [prefix]. *)
Definition or_cleanup (m : eff World unit) (prefix : string) (cleanup : list (eff World unit))
  : eff World unit :=
  fun w => match m w with
           | (Err e, w') => (Err (prefix +:+ e), foldl (fun w c => snd (c w)) w' cleanup)
           | r => r
           end.

(** ** What leaves a path alone *)

Definition keeps {A} (path : string) (m : eff World A) : Prop := forall w,
  files (snd (m w)) !! path = files w !! path /\
  exists ds, disks (snd (m w)) = disks w ++ ds /\
             Forall (fun d => d !! path = files w !! path) ds.

Lemma keeps_ret {A} path (a : A) : keeps path (mret a).
Proof. intros w. split; [done|]. exists []. by rewrite app_nil_r. Qed.

Lemma keeps_const {A} path (r : result A) : keeps path (fun w => (r, w)).
Proof. intros w. split; [done|]. exists []. by rewrite app_nil_r. Qed.

Lemma keeps_bind {A B} path (m : eff World A) (k : A -> eff World B) :
  keeps path m -> (forall a, keeps path (k a)) -> keeps path (mbind k m).
Proof.
  intros Hm Hk w. destruct (Hm w) as (Hf & ds & Hd & Hall).
  unfold mbind, eff_bind. destruct (m w) as [[a|e|p] w']; simpl in *; eauto.
  destruct (Hk a w') as (Hf' & ds' & Hd' & Hall').
  split; [congruence|]. exists (ds ++ ds'). rewrite Hd', Hd, app_assoc.
  split; [done|]. apply Forall_app. rewrite <- Hf. split; [by rewrite Hf|done].
Qed.

Lemma keeps_try {A} path (m : eff World A) : keeps path m -> keeps path (try m).
Proof.
  intros Hm w. destruct (Hm w) as (Hf & ds & Hd & Hall).
  unfold try. destruct (m w) as [[]]; simpl in *; eauto.
Qed.

Lemma keeps_wrap {A} path pre (m : eff World A) : keeps path m -> keeps path (wrap pre m).
Proof.
  intros Hm w. destruct (Hm w) as (Hf & ds & Hd & Hall).
  unfold wrap. destruct (m w) as [[]]; simpl in *; eauto.
Qed.

Lemma keeps_syscall path f g :
  (forall d, f d !! path = d !! path) -> (forall n d, g n d !! path = d !! path) ->
  keeps path (syscall f g).
Proof.
  intros Hf Hg w. unfold syscall. destruct (next_outcome w) as [e|]; simpl.
  all: split; [auto|]; eexists [_]; split; [done|]; repeat constructor; auto.
Qed.

Lemma keeps_Write path name data : name <> path -> keeps path (WriteTo name data).
Proof. intros H. apply keeps_syscall; intros; by rewrite lookup_insert_ne. Qed.

Lemma keeps_Remove path name : name <> path -> keeps path (Remove name).
Proof. intros H. apply keeps_syscall; intros; [by rewrite lookup_delete_ne|done]. Qed.

Lemma keeps_Rename path src dst : src <> path -> dst <> path -> keeps path (Rename src dst).
Proof.
  intros H1 H2. apply keeps_syscall; [|done]. intros d. destruct (d !! src); [|done].
  by rewrite lookup_insert_ne, lookup_delete_ne.
Qed.

Lemma keeps_id path : keeps path (syscall id no_change).
Proof. by apply keeps_syscall. Qed.

Lemma keeps_ReadFile path name : keeps path (ReadFile name).
Proof.
  intros w. unfold ReadFile. destruct (next_outcome w); simpl;
    (split; [done|]; eexists [_]; split; [done|]; by repeat constructor).
Qed.

Lemma keeps_CreateTemp path pre suf :
  (forall r, pre +:+ r +:+ suf <> path) -> keeps path (CreateTemp pre suf).
Proof.
  intros H w. unfold CreateTemp. cbv zeta.
  set (name := pre +:+ _). destruct (next_outcome _), (files w !! name); simpl.
  all: assert (Hn : name <> path) by apply H.
  all: split; [by rewrite ?lookup_insert_ne|].
  all: eexists [_]; split; [done|]; constructor; [|done]; by rewrite ?lookup_insert_ne.
Qed.

Lemma keeps_fold path (cs : list (eff World unit)) w :
  Forall (keeps path) cs ->
  let w' := foldl (fun w c => snd (c w)) w cs in
  files w' !! path = files w !! path /\
  exists ds, disks w' = disks w ++ ds /\ Forall (fun d => d !! path = files w !! path) ds.
Proof.
  intros Hcs. revert w. induction Hcs as [|c cs Hc Hcs IH]; intros w; simpl.
  - split; [done|]. exists []. by rewrite app_nil_r.
  - destruct (Hc w) as (Hf & ds & Hd & Hall).
    destruct (IH (snd (c w))) as (Hf' & ds' & Hd' & Hall').
    split; [congruence|]. exists (ds ++ ds'). rewrite Hd', Hd, app_assoc.
    split; [done|]. apply Forall_app. rewrite <- Hf. split; [by rewrite Hf|done].
Qed.

Lemma keeps_or_cleanup path m pre cs :
  keeps path m -> Forall (keeps path) cs -> keeps path (or_cleanup m pre cs).
Proof.
  intros Hm Hcs w. destruct (Hm w) as (Hf & ds & Hd & Hall). unfold or_cleanup.
  destruct (m w) as [[a|e|p] w']; simpl in *; eauto.
  destruct (keeps_fold path cs w' Hcs) as (Hf' & ds' & Hd' & Hall').
  split; [congruence|]. exists (ds ++ ds'). rewrite Hd', Hd, app_assoc.
  split; [done|]. apply Forall_app. rewrite <- Hf. split; [by rewrite Hf|done].
Qed.

Create HintDb fs.
#[export] Hint Resolve keeps_ret keeps_const keeps_bind keeps_try keeps_wrap keeps_Write keeps_Rename
  keeps_Remove keeps_id keeps_ReadFile keeps_CreateTemp keeps_or_cleanup : fs.
#[export] Hint Extern 1 (keeps _ (MkdirAll _)) => apply keeps_id : fs.
#[export] Hint Extern 1 (keeps _ (Sync _)) => apply keeps_id : fs.
#[export] Hint Extern 1 (keeps _ (CloseFile _)) => apply keeps_id : fs.
#[export] Hint Extern 1 (keeps _ (Chmod _)) => apply keeps_id : fs.
#[export] Hint Extern 1 (Forall (keeps _) _) => repeat constructor : fs.

(** ** Atomic replacement *)

(** Run from [w], [m] replaces the contents of [path] by [data] or leaves them
    alone; the disk shows the old or the new contents at every point; [m]
    reports success exactly when the new contents are in place. *)
Definition atomic_at {A} (path data : string) (w : World) (m : eff World A) : Prop :=
  match fst (m w) with
  | Ok _ => files (snd (m w)) !! path = Some data
  | Err _ => files (snd (m w)) !! path = files w !! path
  | Panic _ => False
  end /\
  exists ds, disks (snd (m w)) = disks w ++ ds /\
    Forall (fun d => d !! path = files w !! path \/ d !! path = Some data) ds.

(** A prologue that only touches other files. *)
Lemma atomic_bind {A B} path data w (m : eff World A) (k : A -> eff World B) :
  keeps path m -> no_panic m ->
  (forall a w', m w = (Ok a, w') -> atomic_at path data w' (k a)) ->
  atomic_at path data w (mbind k m).
Proof.
  intros Hm Hp Hk. destruct (Hm w) as (Hf & ds & Hd & Hall).
  specialize (Hp w). unfold atomic_at, mbind, eff_bind.
  destruct (m w) as [[a|e|p] w']; simpl in *.
  - destruct (Hk a w' eq_refl) as (Hr & ds' & Hd' & Hall'). rewrite Hf in Hr, Hall'.
    split; [done|]. exists (ds ++ ds'). rewrite Hd', Hd, app_assoc. split; [done|].
    apply Forall_app. split; [|done]. eapply Forall_impl; [|exact Hall]. auto.
  - split; [done|]. exists ds. split; [done|]. eapply Forall_impl; [|exact Hall]. auto.
  - by destruct (Hp p).
Qed.

(** The commit: renaming a file that holds the new contents. *)
Lemma atomic_rename path data w tmp pre cs :
  files w !! tmp = Some data -> tmp <> path -> Forall (keeps path) cs ->
  atomic_at path data w (or_cleanup (Rename tmp path) pre cs).
Proof.
  intros Htmp Hne Hcs. unfold atomic_at, or_cleanup, Rename, syscall.
  destruct (next_outcome w) as [e|]; simpl.
  - destruct (keeps_fold path cs (after (files w) w) Hcs) as (Hf & ds & Hd & Hall).
    split; [exact Hf|]. exists ([files w] ++ ds).
    split; [etrans; [exact Hd|]; by rewrite app_assoc|]. apply Forall_app. split; [constructor; [by left|done]|].
    eapply Forall_impl; [|exact Hall]. auto.
  - rewrite Htmp, lookup_insert_eq. split; [done|]. eexists [_]. split; [done|].
    constructor; [|done]. right. apply lookup_insert_eq.
Qed.

Lemma no_panic_syscall f g : no_panic (syscall f g).
Proof. intros w p. unfold syscall. by destruct (next_outcome w). Qed.

Lemma no_panic_or_cleanup m pre cs : no_panic m -> no_panic (or_cleanup m pre cs).
Proof.
  intros H w p. specialize (H w p). unfold or_cleanup. by destruct (m w) as [[]].
Qed.

Lemma no_panic_CreateTemp pre suf : no_panic (CreateTemp pre suf).
Proof. intros w p. unfold CreateTemp. cbv zeta. by repeat case_match. Qed.

#[export] Hint Resolve no_panic_syscall no_panic_or_cleanup no_panic_wrap no_panic_CreateTemp no_panic_try : fs.
#[export] Hint Extern 1 (no_panic (MkdirAll _)) => apply no_panic_syscall : fs.
#[export] Hint Extern 1 (no_panic (Sync _)) => apply no_panic_syscall : fs.
#[export] Hint Extern 1 (no_panic (CloseFile _)) => apply no_panic_syscall : fs.
#[export] Hint Extern 1 (no_panic (Chmod _)) => apply no_panic_syscall : fs.
#[export] Hint Extern 1 (no_panic (WriteTo _ _)) => apply no_panic_syscall : fs.
#[export] Hint Extern 1 (no_panic (Rename _ _)) => apply no_panic_syscall : fs.

Lemma write_ok tmp data pre cs w w' :
  or_cleanup (WriteTo tmp data) pre cs w = (Ok tt, w') -> files w' !! tmp = Some data.
Proof.
  unfold or_cleanup, WriteTo, syscall. destruct (next_outcome w); [done|].
  intros [= <-]. simpl. apply lookup_insert_eq.
Qed.

(** A call that keeps the temporary file too. *)
Lemma keeps_files {A} path (m : eff World A) w r w' :
  keeps path m -> m w = (r, w') -> files w' !! path = files w !! path.
Proof. intros H E. destruct (H w) as [Hf _]. by rewrite E in Hf. Qed.

Lemma or_cleanup_ok m pre cs w w' :
  or_cleanup m pre cs w = (Ok tt, w') -> m w = (Ok tt, w').
Proof. unfold or_cleanup. by destruct (m w) as [[]]. Qed.

(** A temporary name is never the target: their last bytes differ. *)
Fixpoint last_byte (s : string) : option ascii :=
  match s with
  | EmptyString => None
  | String a s' => match last_byte s' with Some b => Some b | None => Some a end
  end.

Lemma last_byte_app a b c : last_byte b = Some c -> last_byte (a +:+ b) = Some c.
Proof. intros H. induction a as [|x a IH]; simpl; [done|]. by rewrite IH. Qed.

Lemma tmp_ne pre r suf path c d :
  last_byte suf = Some c -> last_byte path = Some d -> c <> d -> pre +:+ r +:+ suf <> path.
Proof.
  intros Hs Hp Hcd E.
  assert (last_byte (pre +:+ r +:+ suf) = Some c) by (do 2 apply last_byte_app; done).
  congruence.
Qed.

(** One step of an atomic write's proof: the next call touches neither the
    target nor, once written, the temporary file. *)
Ltac atomic_next :=
  apply atomic_bind; [solve [auto 6 with fs]|solve [auto 6 with fs]|];
  let w := fresh "w" in let E := fresh "E" in intros [] w E.

(** ** Appending: [os.OpenFile(name, O_APPEND|O_WRONLY)] and a write *)

Definition OpenAppend (name : string) : eff World unit := fun w =>
  match next_outcome w, files w !! name with
  | None, Some _ => (Ok tt, after (files w) w)
  | None, None => (Err "open: no such file or directory", after (files w) w)
  | Some e, _ => (Err (f_err e), after (files w) w)
  end.

Definition append_data (name data : string) (d : gmap string string) : gmap string string :=
  <[name := default EmptyString (d !! name) +:+ data]> d.
Definition AppendTo (name data : string) : eff World unit :=
  syscall (append_data name data) (fun n => append_data name (stake n data)).

(** [os.IsNotExist] of [os.Stat]'s error. *)
Definition not_exist (name : string) : eff World bool := fun w =>
  match next_outcome w with
  | Some _ => (Ok false, after (files w) w)
  | None => (Ok (bool_decide (files w !! name = None)), after (files w) w)
  end.

(** The lines of a file, the last one also without a newline; a file that
    ends in a newline has no empty last line. *)
Definition file_lines (s : string) : list string :=
  let ls := Split s nl in
  match rev ls with
  | EmptyString :: r => rev r
  | _ => ls
  end.

(** [os.Remove], where a missing file is not an error. *)
Definition RemoveIfExists (name : string) : eff World unit := fun w =>
  match next_outcome w, files w !! name with
  | None, None => (Ok tt, after (files w) w)
  | _, _ => Remove name w
  end.

(** ** A property of a file that holds at every point of time *)

Definition safe_at {A} (path : string) (good : option string -> Prop) (m : eff World A) : Prop :=
  forall w, good (files w !! path) ->
  good (files (snd (m w)) !! path) /\
  exists ds, disks (snd (m w)) = disks w ++ ds /\ Forall (fun d => good (d !! path)) ds.

Lemma keeps_safe_at {A} path good (m : eff World A) : keeps path m -> safe_at path good m.
Proof.
  intros Hm w Hg. destruct (Hm w) as (Hf & ds & Hd & Hall). rewrite Hf. split; [done|].
  exists ds. split; [done|]. eapply Forall_impl; [|exact Hall]. by intros d ->.
Qed.

Lemma atomic_safe_at {A} path (good : option string -> Prop) data (m : eff World A) :
  (forall w, atomic_at path data w m) -> good (Some data) -> safe_at path good m.
Proof.
  intros Hm Hgood w Hg. destruct (Hm w) as (Hr & ds & Hd & Hall). split.
  - destruct (fst (m w)); [by rewrite Hr|by rewrite Hr|done].
  - exists ds. split; [done|]. eapply Forall_impl; [|exact Hall]. by intros d [-> | ->].
Qed.

Lemma safe_at_Remove path (good : option string -> Prop) :
  good None -> safe_at path good (Remove path).
Proof.
  intros Hn w Hg. unfold Remove, syscall. destruct (next_outcome w); simpl.
  - split; [done|]. eexists [_]. split; [done|]. by repeat constructor.
  - rewrite lookup_delete_eq. split; [done|]. eexists [_]. split; [done|].
    constructor; [by rewrite lookup_delete_eq|constructor].
Qed.

Lemma safe_at_RemoveIfExists path (good : option string -> Prop) :
  good None -> safe_at path good (RemoveIfExists path).
Proof.
  intros Hn w Hg. pose proof (safe_at_Remove path good Hn w Hg) as Hr. unfold RemoveIfExists.
  destruct (next_outcome w); [exact Hr|]. destruct (files w !! path) eqn:E; [exact Hr|]. simpl.
  rewrite E. split; [done|]. eexists [_]. split; [done|]. constructor; [by rewrite E|done].
Qed.

Lemma keeps_RemoveIfExists path name : name <> path -> keeps path (RemoveIfExists name).
Proof.
  intros Hn w. pose proof (keeps_Remove path name Hn w) as Hr. unfold RemoveIfExists.
  destruct (next_outcome w); [exact Hr|]. destruct (files w !! name); [exact Hr|]. simpl.
  split; [done|]. eexists [_]. split; [done|]. by constructor.
Qed.
#[export] Hint Resolve keeps_RemoveIfExists : fs.

(** The machine stops and starts again with one of the disks recorded; the
    system calls to come are new. *)
Definition reboot (d : gmap string string) (os : list (option fault)) (ds : list string) : World :=
  {| files := d; outcomes := os; draws := ds; disks := [] |}.
