(* ===== verification/Config.v ===== *)
(** * config/config.go, config/secrets.go: the configuration and its manager *)

From S2P Require Import Prelude GoLib FS.

Definition SecretString := string.

Definition Plain (s : SecretString) : string := s.

Definition mask (s : SecretString) : string :=
  if decide (slen s <= 4) then "****" else "****" +:+ sdrop (slen s - 4) s.

Record VPSConfig := {
  Host : string; SSHPort : Z; Username : string; AuthMode : string;
  PrivateKeyPath : string; Password : SecretString; IsProvisioned : bool;
  ContainerName : string; ImageBuildHash : string
}.

Record ObfuscationConfig := {
  Jc : Z; Jmin : Z; Jmax : Z; S1 : Z; S2 : Z; S3 : Z; S4 : Z;
  H1 : Z; H2 : Z; H3 : Z; H4 : Z; I1 : Z; I2 : Z; I3 : Z; I4 : Z; I5 : Z
}.

Record TunnelConfig := {
  InterfaceName : string; Subnet : string; ServerIP : string; LocalIP : string;
  ServerEndpoint : string; ServerPublicKey : string; PresharedKey : SecretString;
  PrivateKey : SecretString; PublicKey : string; MTU : Z; PersistentKeepalive : Z;
  Obfuscation : ObfuscationConfig; Status : string; ConnectedAt : string
}.

Record CaddyAPIConfig := {
  Address : string; TLSCert : string; TLSKey : SecretString;
  ClientCert : string; ClientKey : SecretString
}.

Record ExposedPort := {
  ID : string; Protocol : string; Internal : Z; HostHeader : string;
  PortStatus : string; CreatedAt : string
}.

Record DNSConfig := { Provider : string; Token : SecretString; Zone : string }.

Record DaemonConfig := {
  LogLevel : string; PidFile : string; AutoStart : bool; JWTSigningKey : SecretString
}.

Record RemoteAPIConfig := {
  Enabled : bool; ListenAddr : string; RTLSCert : string; RTLSKey : string
}.

Record RootConfig := {
  VPS : VPSConfig; Tunnel : TunnelConfig; CaddyAPI : CaddyAPIConfig;
  ExposedPorts : list ExposedPort; DNS : DNSConfig; Daemon : DaemonConfig;
  RemoteAPI : RemoteAPIConfig; ServerMirror : string; UIToken : SecretString
}.

Definition zero_obfuscation : ObfuscationConfig :=
  {| Jc := 0; Jmin := 0; Jmax := 0; S1 := 0; S2 := 0; S3 := 0; S4 := 0;
     H1 := 0; H2 := 0; H3 := 0; H4 := 0; I1 := 0; I2 := 0; I3 := 0; I4 := 0; I5 := 0 |}.

Definition zero_vps : VPSConfig :=
  {| Host := ""; SSHPort := 0; Username := ""; AuthMode := ""; PrivateKeyPath := "";
     Password := ""; IsProvisioned := false; ContainerName := ""; ImageBuildHash := "" |}.

Definition zero_tunnel : TunnelConfig :=
  {| InterfaceName := ""; Subnet := ""; ServerIP := ""; LocalIP := ""; ServerEndpoint := "";
     ServerPublicKey := ""; PresharedKey := ""; PrivateKey := ""; PublicKey := ""; MTU := 0;
     PersistentKeepalive := 0; Obfuscation := zero_obfuscation; Status := ""; ConnectedAt := "" |}.

(** [defaultConfig], with the fresh UUID it draws. *)
Definition defaultConfig (uuid : string) : RootConfig :=
  {| VPS := zero_vps; Tunnel := zero_tunnel;
     CaddyAPI := {| Address := ""; TLSCert := ""; TLSKey := ""; ClientCert := ""; ClientKey := "" |};
     ExposedPorts := []; DNS := {| Provider := ""; Token := ""; Zone := "" |};
     Daemon := {| LogLevel := ""; PidFile := ""; AutoStart := false; JWTSigningKey := "" |};
     RemoteAPI := {| Enabled := false; ListenAddr := ""; RTLSCert := ""; RTLSKey := "" |};
     ServerMirror := ""; UIToken := uuid |}.

(** Field updates of the callbacks given to [Update]. *)
Definition set_Tunnel (t : TunnelConfig) (c : RootConfig) : RootConfig :=
  {| VPS := VPS c; Tunnel := t; CaddyAPI := CaddyAPI c; ExposedPorts := ExposedPorts c;
     DNS := DNS c; Daemon := Daemon c; RemoteAPI := RemoteAPI c;
     ServerMirror := ServerMirror c; UIToken := UIToken c |}.

Definition set_ServerMirror (m : string) (c : RootConfig) : RootConfig :=
  {| VPS := VPS c; Tunnel := Tunnel c; CaddyAPI := CaddyAPI c; ExposedPorts := ExposedPorts c;
     DNS := DNS c; Daemon := Daemon c; RemoteAPI := RemoteAPI c;
     ServerMirror := m; UIToken := UIToken c |}.

Definition set_ExposedPorts (p : list ExposedPort) (c : RootConfig) : RootConfig :=
  {| VPS := VPS c; Tunnel := Tunnel c; CaddyAPI := CaddyAPI c; ExposedPorts := p;
     DNS := DNS c; Daemon := Daemon c; RemoteAPI := RemoteAPI c;
     ServerMirror := ServerMirror c; UIToken := UIToken c |}.

Definition set_status (s at_ : string) (t : TunnelConfig) : TunnelConfig :=
  {| InterfaceName := InterfaceName t; Subnet := Subnet t; ServerIP := ServerIP t;
     LocalIP := LocalIP t; ServerEndpoint := ServerEndpoint t;
     ServerPublicKey := ServerPublicKey t; PresharedKey := PresharedKey t;
     PrivateKey := PrivateKey t; PublicKey := PublicKey t; MTU := MTU t;
     PersistentKeepalive := PersistentKeepalive t; Obfuscation := Obfuscation t;
     Status := s; ConnectedAt := at_ |}.

(** [c.Tunnel.Status = s] *)
Definition set_tunnel_status (s : string) (c : RootConfig) : RootConfig :=
  set_Tunnel (set_status s (ConnectedAt (Tunnel c)) (Tunnel c)) c.

(** [cloneConfig]: values are immutable here, so the deep copy is the value. *)
Definition cloneConfig (src : RootConfig) : RootConfig := src.

Definition cloneAndMask (src : RootConfig) : RootConfig :=
  let dst := cloneConfig src in
  let v := VPS dst in let t := Tunnel dst in let c := CaddyAPI dst in let d := DNS dst in
  {| VPS := {| Host := Host v; SSHPort := SSHPort v; Username := Username v;
               AuthMode := AuthMode v; PrivateKeyPath := PrivateKeyPath v;
               Password := mask (Password (VPS src)); IsProvisioned := IsProvisioned v;
               ContainerName := ContainerName v; ImageBuildHash := ImageBuildHash v |};
     Tunnel := {| InterfaceName := InterfaceName t; Subnet := Subnet t; ServerIP := ServerIP t;
                  LocalIP := LocalIP t; ServerEndpoint := ServerEndpoint t;
                  ServerPublicKey := ServerPublicKey t;
                  PresharedKey := mask (PresharedKey (Tunnel src));
                  PrivateKey := mask (PrivateKey (Tunnel src)); PublicKey := PublicKey t;
                  MTU := MTU t; PersistentKeepalive := PersistentKeepalive t;
                  Obfuscation := Obfuscation t; Status := Status t; ConnectedAt := ConnectedAt t |};
     CaddyAPI := {| Address := Address c; TLSCert := TLSCert c;
                    TLSKey := mask (TLSKey (CaddyAPI src)); ClientCert := ClientCert c;
                    ClientKey := mask (ClientKey (CaddyAPI src)) |};
     ExposedPorts := ExposedPorts dst;
     DNS := {| Provider := Provider d; Token := mask (Token (DNS src)); Zone := Zone d |};
     Daemon := Daemon dst; RemoteAPI := RemoteAPI dst; ServerMirror := ServerMirror dst;
     UIToken := mask (UIToken src) |}.

(** ** The interface the other components use *)

Class ConfigManager (C : Type) := {
  cfg_get : C -> RootConfig;
  cfg_update : (RootConfig -> RootConfig) -> eff C unit
}.

(** What [Update] promises its callers: it applies the callback or, when it
    reports an error, leaves the configuration as it was. *)
Class ConfigManagerLaws (C : Type) `{ConfigManager C} : Prop := {
  cfg_update_ok f c c' : cfg_update f c = (Ok tt, c') -> cfg_get c' = f (cfg_get c);
  cfg_update_err f c e c' : cfg_update f c = (Err e, c') -> cfg_get c' = cfg_get c;
  cfg_update_total f c : exists r c', cfg_update f c = (r, c') /\ forall p, r <> Panic p
}.

(** The configuration after an [Update] whose error is dropped. *)
Lemma cfg_update_cases `{ConfigManagerLaws C} f c :
  cfg_get (snd (cfg_update f c)) = f (cfg_get c) \/
  cfg_get (snd (cfg_update f c)) = cfg_get c.
Proof.
  destruct (cfg_update_total f c) as ([[]|e|p] & c' & E & Hp); rewrite E; simpl.
  - left. by eapply cfg_update_ok.
  - right. by eapply cfg_update_err.
  - by destruct (Hp p).
Qed.

(** The reference implementation: a value that every update replaces. *)
Definition plain_config : ConfigManager RootConfig := {|
  cfg_get c := c;
  cfg_update f c := (Ok tt, f c)
|}.

Definition plain_config_laws : @ConfigManagerLaws RootConfig plain_config.
Proof. split; simpl; [by intros f c c' [= <-]|done|eauto]. Qed.

(** ** The manager *)

Section Manager.
Context (dir : string).
(** [json.MarshalIndent] and [json.Unmarshal] of the configuration. *)
Context (marshal : RootConfig -> string + string) (unmarshal : string -> option RootConfig).

Definition cfgPath : string := dir +:+ "/config.json".

Record Manager := { config : RootConfig; world : World }.

Definition saveLocked (cfg : RootConfig) : eff World unit :=
  data ← marshalled "config: marshal: " (marshal cfg);
  tmpName ← wrap "config: create temp: " (CreateTemp (dir +:+ "/config.") ".tmp");
  _ ← or_cleanup (WriteTo tmpName data) "config: write temp: " [CloseFile tmpName; Remove tmpName];
  _ ← or_cleanup (Sync tmpName) "config: sync temp: " [CloseFile tmpName; Remove tmpName];
  _ ← or_cleanup (CloseFile tmpName) "config: close temp: " [Remove tmpName];
  _ ← try (Chmod tmpName);
  or_cleanup (Rename tmpName cfgPath)
             ("config: rename " +:+ tmpName +:+ " -> " +:+ cfgPath +:+ ": ") [Remove tmpName].

Definition Get (m : Manager) : RootConfig := config m.
Definition GetMasked (m : Manager) : RootConfig := cloneAndMask (config m).

Definition Update (fn : RootConfig -> RootConfig) : eff Manager unit := fun m =>
  let draft := fn (cloneConfig (config m)) in
  match saveLocked draft (world m) with
  | (Ok _, w) => (Ok tt, {| config := draft; world := w |})
  | (Err e, w) => (Err e, {| config := config m; world := w |})
  | (Panic p, w) => (Panic p, {| config := config m; world := w |})
  end.

Definition Save : eff Manager unit := fun m =>
  let '(r, w) := saveLocked (config m) (world m) in
  (r, {| config := config m; world := w |}).

Definition manager_with (cfg : RootConfig) : eff World Manager := fun w =>
  (Ok {| config := cfg; world := w |}, w).

(** [NewManager]: the skeleton on a first run, else the file. *)
Definition NewManager (uuid : string) : eff World Manager :=
  _ ← wrap ("config: create dir " +:+ dir +:+ ": ") (MkdirAll dir);
  first ← not_exist cfgPath;
  if first : bool then
    let cfg := defaultConfig uuid in
    _ ← wrap "config: write skeleton: " (saveLocked cfg);
    manager_with cfg
  else
    r ← ReadFile cfgPath;
    match r with
    | Contents data =>
        match unmarshal data with
        | Some cfg => manager_with cfg
        | None => throw ("config: parse " +:+ cfgPath +:+ ": invalid JSON")
        end
    | NotExist => throw ("config: read " +:+ cfgPath +:+ ": no such file")
    | ReadError e => throw ("config: read " +:+ cfgPath +:+ ": " +:+ e)
    end.

#[export] Instance manager_config : ConfigManager Manager :=
  { cfg_get := Get; cfg_update := Update }.

(** ** Lemmas *)

Lemma cfg_tmp_ne r : (dir +:+ "/config.") +:+ r +:+ ".tmp" <> cfgPath.
Proof. eapply tmp_ne; [done|by apply last_byte_app|done]. Qed.

(** Without a text nothing is touched. *)
Lemma saveLocked_unencoded cfg e w : marshal cfg = inl e -> saveLocked cfg w = (Err ("config: marshal: " +:+ e), w).
Proof. intros He. unfold saveLocked, marshalled, mbind, eff_bind. by rewrite He. Qed.

Lemma saveLocked_atomic cfg data w : marshal cfg = inr data -> atomic_at cfgPath data w (saveLocked cfg).
Proof.
  intros Hm. unfold saveLocked. unfold mbind at 1, eff_bind at 1, marshalled at 1, atomic_at. rewrite Hm.
  match goal with |- context [files (snd (?m w))] => change (atomic_at cfgPath data w m) end.
  apply atomic_bind; [apply keeps_wrap, keeps_CreateTemp, cfg_tmp_ne|apply no_panic_wrap, no_panic_CreateTemp|].
  intros tmp w0 Etmp.
  assert (Hne : tmp <> cfgPath).
  { unfold wrap, CreateTemp in Etmp. cbv zeta in Etmp.
    repeat case_match; simplify_eq/=; apply cfg_tmp_ne. }
  clear Etmp w.
  atomic_next. apply write_ok in E as Htmp.
  atomic_next. apply or_cleanup_ok, (keeps_files tmp _ _ _ _ (keeps_id tmp)) in E0.
  atomic_next. apply or_cleanup_ok, (keeps_files tmp _ _ _ _ (keeps_id tmp)) in E1.
  apply atomic_bind; [solve [auto with fs]|solve [auto with fs]|]. intros r w5 E5.
  apply (keeps_files tmp _ _ _ _ (keeps_try tmp _ (keeps_id tmp))) in E5.
  apply atomic_rename; [congruence|done|]. constructor; [by apply keeps_Remove|done].
Qed.

Lemma Update_cases fn m :
  exists w, snd (Update fn m) = {| config := match fst (Update fn m) with
                                             | Ok _ => fn (config m) | _ => config m end;
                                   world := w |}.
Proof. unfold Update. destruct (saveLocked _ _) as [[] w]; simpl; by exists w. Qed.

#[export] Instance manager_laws : ConfigManagerLaws Manager.
Proof.
  split; simpl; unfold Get.
  - intros f c c' E. destruct (Update_cases f c) as [w Hw]. rewrite E in Hw. simpl in Hw. by subst.
  - intros f c e c' E. destruct (Update_cases f c) as [w Hw]. rewrite E in Hw. simpl in Hw. by subst.
  - intros f c. destruct (Update f c) as [r c'] eqn:E. exists r, c'. split; [done|].
    intros p ->. unfold Update in E.
    destruct (marshal (f (cloneConfig (config c)))) as [e|data] eqn:Hm.
    + by rewrite (saveLocked_unencoded _ _ _ Hm) in E.
    + destruct (saveLocked_atomic _ _ (world c) Hm) as [Hr _].
      by destruct (saveLocked _ _) as [[] w].
Qed.
End Manager.

(** ** Properties *)

Section Properties.
Context (dir : string) (marshal : RootConfig -> string + string) (unmarshal : string -> option RootConfig).

Lemma update_disk fn m :
  let m' := snd (Update dir marshal fn m) in
  let old := files (world m) !! cfgPath dir in
  let is_new o := exists data, marshal (fn (config m)) = inr data /\ o = Some data in
  match fst (Update dir marshal fn m) with
  | Ok _ => config m' = fn (config m) /\ is_new (files (world m') !! cfgPath dir)
  | Err _ => config m' = config m /\ files (world m') !! cfgPath dir = old
  | Panic _ => False
  end /\
  exists ds, disks (world m') = disks (world m) ++ ds /\
    Forall (fun d => d !! cfgPath dir = old \/ is_new (d !! cfgPath dir)) ds.
Proof.
  cbv zeta. unfold Update. change (cloneConfig (config m)) with (config m).
  destruct (marshal (fn (config m))) as [e|data] eqn:Hm.
  - rewrite (saveLocked_unencoded _ _ _ _ _ Hm). split; [done|]. exists []. by rewrite app_nil_r.
  - destruct (saveLocked_atomic dir marshal _ _ (world m) Hm) as [Hr (ds & Hd & Hall)].
    destruct (saveLocked _ _ _ _) as [[] w]; cbn in *; (split; [by eauto 6|exists ds; split; [done|]]);
      (eapply Forall_impl; [|exact Hall]); intros d [?|?]; eauto 6.
Qed.

(** C2: whatever system calls fail, whether or not the configuration can be
    encoded, and at every point of an update, the configuration file holds the
    old or the new contents in full.  [Update] succeeds exactly when memory and
    disk both hold the new configuration; when it fails both are as they were. *)
Theorem update_atomic fn m :
  let m' := snd (Update dir marshal fn m) in
  let old := files (world m) !! cfgPath dir in
  let is_new o := exists data, marshal (fn (config m)) = inr data /\ o = Some data in
  match fst (Update dir marshal fn m) with
  | Ok _ => config m' = fn (config m) /\ is_new (files (world m') !! cfgPath dir)
  | Err _ => config m' = config m /\ files (world m') !! cfgPath dir = old
  | Panic _ => False
  end /\
  exists ds, disks (world m') = disks (world m) ++ ds /\
    Forall (fun d => d !! cfgPath dir = old \/ is_new (d !! cfgPath dir)) ds.
Proof. apply update_disk. Qed.

Lemma Update_ok_disk fn m m' :
  Update dir marshal fn m = (Ok tt, m') ->
  exists data, marshal (fn (config m)) = inr data /\ files (world m') !! cfgPath dir = Some data.
Proof.
  intros E. pose proof (update_disk fn m) as H. rewrite E in H. apply H.
Qed.

(** An update survives a restart: when it succeeded and nothing fails
    afterwards, a new manager started on that disk loads exactly the updated
    configuration. *)
Theorem update_survives_restart fn m m' uuid :
  (forall data, marshal (fn (config m)) = inr data -> unmarshal data = Some (fn (config m))) ->
  Update dir marshal fn m = (Ok tt, m') -> outcomes (world m') = [] ->
  exists w, NewManager dir marshal unmarshal uuid (world m') =
            (Ok {| config := fn (config m); world := w |}, w).
Proof.
  intros Hrt HU Ho. apply Update_ok_disk in HU as (data & Hmar & Hd). specialize (Hrt data Hmar).
  unfold NewManager, wrap, MkdirAll, not_exist, ReadFile, syscall, mbind, eff_bind, next_outcome.
  rewrite Ho. simpl. rewrite Ho. simpl. rewrite Hd, bool_decide_false by done. simpl.
  rewrite Ho. simpl. rewrite Hd, Hrt. eexists. done.
Qed.
End Properties.

Lemma mask_tail s : exists t, mask s = "****" +:+ t /\ slen t <= 4 /\
  (slen s <= 4 -> t = "").
Proof.
  unfold mask. case_decide as H; [exists ""; split; [done|]; unfold slen; simpl; auto with lia|].
  exists (sdrop (slen s - 4) s). split; [done|].
  assert (slen (sdrop (slen s - 4) s) = 4) as ->.
  { assert (forall n s, slen (sdrop n s) = slen s - n) as ->; [|lia].
    clear. unfold slen. induction n; intros [|a s]; simpl; auto. }
  lia.
Qed.

(** The secrets [GetMasked] covers. *)
Definition masked_fields : list (RootConfig -> SecretString) :=
  [ (fun c => Password (VPS c)); (fun c => PresharedKey (Tunnel c));
    (fun c => PrivateKey (Tunnel c)); (fun c => TLSKey (CaddyAPI c));
    (fun c => ClientKey (CaddyAPI c)); (fun c => Token (DNS c)); UIToken ].

(** The configuration handed to API handlers shows of each of the seven
    masked secrets at most its last four bytes, and nothing of a secret of at
    most four bytes. *)
Theorem masked_config_hides_secrets m :
  Forall (fun secret => exists t, secret (GetMasked m) = "****" +:+ t /\ slen t <= 4 /\
            (slen (secret (config m)) <= 4 -> t = ""))
         masked_fields.
Proof.
  repeat constructor; apply mask_tail.
Qed.

(** [GetMasked] misses two secrets: the JWT signing key and the remote
    API's TLS key leave it in clear. *)
Theorem masked_config_leaks_jwt_key m :
  JWTSigningKey (Daemon (GetMasked m)) = JWTSigningKey (Daemon (config m)) /\
  RTLSKey (RemoteAPI (GetMasked m)) = RTLSKey (RemoteAPI (config m)).
Proof. done. Qed.

Definition sample_world : World :=
  {| files := ∅; outcomes := []; draws := ["17"]; disks := [] |}.
Definition sample_manager : Manager := {| config := defaultConfig "u"; world := sample_world |}.

Lemma update_survives_restart_witness :
  let fn := set_ServerMirror "{}" in
  let marshal c := inr (ServerMirror c +:+ UIToken c) in
  let unmarshal (_ : string) := Some (fn (defaultConfig "u")) in
  exists w, NewManager "/h" marshal unmarshal "v"
              (world (snd (Update "/h" marshal fn sample_manager))) =
            (Ok {| config := fn (defaultConfig "u"); world := w |}, w).
Proof.
  intros fn marshal unmarshal.
  exact (update_survives_restart "/h" marshal unmarshal fn sample_manager
           (snd (Update "/h" marshal fn sample_manager)) "v" (fun _ _ => eq_refl) eq_refl eq_refl).
Defined.
