(* ===== verification/ServerConfig.v ===== *)
(** * tunnel/server_config.go: reading the AmneziaWG server over SSH

    The remote host is not under src/: [SSHExecutor] is the interface the code
    has, and every theorem holds for whatever implements it.  Error texts keep
    the code's wrapping; captured output appended for diagnosis is left out. *)

From S2P Require Import Prelude GoLib Config.

(** [SSHExecutor]: stdout, stderr and the error of a remote command, and the
    effect on the world behind the connection. *)
Class SSHExecutor (E : Type) := {
  ExecuteCommand : string -> E -> (string * string * option string) * E;
  ExecuteScript : string -> E -> (string * string * option string) * E
}.

(** The stdout of a call, or its error. *)
Definition stdout_of {E} (f : E -> (string * string * option string) * E) : eff E string :=
  fun w => let '((out, _, e), w') := f w in
           (match e with None => Ok out | Some e => Err e end, w').

Record PeerDumpEntry := {
  pd_PublicKey : string; pd_PresharedKey : string; Endpoint : string; AllowedIPs : string;
  LastHandshake : string; RxBytes : string; TxBytes : string; pd_PersistentKeepalive : string
}.

Record ServerConfig := {
  sc_Address : string; ListenPort : Z; sc_Obfuscation : ObfuscationConfig;
  sc_ServerPublicKey : string; sc_PresharedKey : string; RawConf : string;
  ConfSha256 : string; Peers : list PeerDumpEntry
}.

(** [shellArg]: single quotes, each embedded quote as quote, backslash quote, quote. *)
Definition sq : ascii := "'"%char.
Definition bsl : ascii := "\"%char.
Definition sq_escaped : string := String sq (String bsl (String sq (String sq EmptyString))).
Definition shellArg (s : string) : string :=
  String sq EmptyString +:+ ReplaceAll s sq sq_escaped +:+ String sq EmptyString.

Definition dockerExecCmd (container cmd : string) : string :=
  "docker exec " +:+ shellArg container +:+ " " +:+ cmd.

(** ** Parsing [awg show dump] *)

Definition parse_dump_line (line : string) : option PeerDumpEntry :=
  match Split line tab with
  | a :: b :: c :: d :: e :: f :: g :: h :: _ =>
      Some {| pd_PublicKey := a; pd_PresharedKey := b; Endpoint := c; AllowedIPs := d;
              LastHandshake := e; RxBytes := f; TxBytes := g; pd_PersistentKeepalive := h |}
  | _ => None
  end.

Definition parseDumpOutput (raw : string) : list PeerDumpEntry :=
  let lines := Split (TrimSpace raw) nl in
  if decide (length lines < 2) then []
  else omap parse_dump_line (tail lines).

(** ** Parsing the [Interface] section *)

Definition is_section_header (trimmed : string) : bool :=
  HasPrefix trimmed "[" && HasSuffix trimmed "]".

Fixpoint section_go (sectionHeader : string) (lines : list string) (inSection : bool) : string :=
  match lines with
  | [] => EmptyString
  | line :: rest =>
      let trimmed := TrimSpace line in
      if decide (trimmed = sectionHeader) then section_go sectionHeader rest true
      else if is_section_header trimmed then
        if inSection then EmptyString else section_go sectionHeader rest inSection
      else if inSection then line +:+ String nl (section_go sectionHeader rest inSection)
      else section_go sectionHeader rest inSection
  end.

Definition extractSection (raw sectionName : string) : string :=
  TrimRightNl (section_go ("[" +:+ sectionName +:+ "]") (Split raw nl) false).

(** [\s] and [[A-Za-z0-9_]] of the regular expression [kvRe]. *)
Definition re_space (c : ascii) : bool :=
  bool_decide (c ∈ [tab; nl; "012"%char; cr; " "%char]).
Definition re_word (c : ascii) : bool :=
  is_digit c || in_range "a" "z" c || in_range "A" "Z" c || bool_decide (c = "_"%char).

Fixpoint skip_space (s : string) : string :=
  match s with String c s' => if re_space c then skip_space s' else s | EmptyString => s end.
Fixpoint word_run (s : string) : string * string :=
  match s with
  | String c s' => if re_word c then let '(w, r) := word_run s' in (String c w, r)
                   else (EmptyString, s)
  | EmptyString => (EmptyString, EmptyString)
  end.

Definition splitKeyValue (line : string) : option (string * string) :=
  let '(key, rest) := word_run (skip_space line) in
  if decide (key = EmptyString) then None else
  match skip_space rest with
  | String "="%char v =>
      let v := skip_space v in
      if free_of nl v then Some (key, TrimSpace v) else None
  | _ => None
  end.

(** [atoiOrZero] drops the error: out of range gives the nearest integer. *)
Definition atoiOrZero (s : string) : Z := fst (Atoi s).

Definition set_obf (key : string) (v : Z) (o : ObfuscationConfig) : ObfuscationConfig :=
  let pick name old := if decide (key = name) then v else old in
  {| Jc := pick "Jc" (Jc o); Jmin := pick "Jmin" (Jmin o); Jmax := pick "Jmax" (Jmax o);
     S1 := pick "S1" (S1 o); S2 := pick "S2" (S2 o); S3 := pick "S3" (S3 o); S4 := pick "S4" (S4 o);
     H1 := pick "H1" (H1 o); H2 := pick "H2" (H2 o); H3 := pick "H3" (H3 o); H4 := pick "H4" (H4 o);
     I1 := pick "I1" (I1 o); I2 := pick "I2" (I2 o); I3 := pick "I3" (I3 o);
     I4 := pick "I4" (I4 o); I5 := pick "I5" (I5 o) |}.

(** The fields the section sets: address, port, obfuscation. *)
Definition iface := (string * Z * ObfuscationConfig)%type.

Definition parse_iface_line (line0 : string) (i : iface) : result iface :=
  let '(addr, port, obf) := i in
  let line := TrimSpace line0 in
  if bool_decide (line = EmptyString) || HasPrefix line "#" then Ok i else
  match splitKeyValue line with
  | None => Ok i
  | Some (key, value) =>
      if decide (key = "Address") then Ok (value, port, obf)
      else if decide (key = "ListenPort") then
        match Atoi value with
        | (n, None) => Ok (addr, n, obf)
        | (_, Some e) => Err ("parse ListenPort: " +:+ e)
        end
      else Ok (addr, port, set_obf key (atoiOrZero value) obf)
  end.

Fixpoint parse_iface_lines (lines : list string) (i : iface) : result iface :=
  match lines with
  | [] => Ok i
  | l :: rest => match parse_iface_line l i with
                 | Ok i' => parse_iface_lines rest i'
                 | r => r
                 end
  end.

Definition parseInterfaceSection (raw : string) : result iface :=
  let section := extractSection raw "Interface" in
  if decide (section = EmptyString) then Err "no [Interface] section found"
  else parse_iface_lines (Split section nl) (EmptyString, 0%Z, zero_obfuscation).

(** ** The fetches *)

Definition default_container (vps : VPSConfig) : string :=
  if decide (ContainerName vps = EmptyString) then "unet-amnezia-awg" else ContainerName vps.

Section Fetch.
Context {E : Type} `{SSHExecutor E}.
(** [fmt.Sprintf("%x", sha256.Sum256(b))] *)
Context (sha256_hex : string -> string).

Definition dockerCat (container path : string) : eff E string :=
  wrap ("docker cat " +:+ path +:+ ": ")
       (stdout_of (ExecuteCommand (dockerExecCmd container ("cat " +:+ shellArg path)))).

Definition fetchPeerDump (container ifc : string) : eff E (list PeerDumpEntry) :=
  out ← wrap "awg show dump: "
    (stdout_of (ExecuteCommand (dockerExecCmd container ("awg show " +:+ shellArg ifc +:+ " dump"))));
  mret (parseDumpOutput out).

Lemma no_panic_stdout_of (f : E -> (string * string * option string) * E) :
  no_panic (stdout_of f).
Proof. intros w p. unfold stdout_of. by destruct (f w) as [[[out err] [e|]] w']. Qed.

Definition FetchAll (vps : VPSConfig) (ifc : string) : eff E ServerConfig :=
  let container := default_container vps in
  confRaw ← wrap "server_config: fetch awg0.conf: " (dockerCat container "/opt/amnezia/awg/awg0.conf");
  i ← wrap "server_config: parse awg0.conf: " (lift (parseInterfaceSection confRaw));
  srvPubKey ← wrap "server_config: fetch server public key: "
    (dockerCat container "/opt/amnezia/awg/wireguard_server_public_key.key");
  psk ← wrap "server_config: fetch PSK: " (dockerCat container "/opt/amnezia/awg/wireguard_psk.key");
  peers ← try (fetchPeerDump container ifc);
  let '(addr, port, obf) := i : iface in
  mret {| sc_Address := addr; ListenPort := port; sc_Obfuscation := obf;
          sc_ServerPublicKey := TrimSpace srvPubKey; sc_PresharedKey := TrimSpace psk;
          RawConf := confRaw; ConfSha256 := sha256_hex confRaw;
          Peers := match peers with Ok p => p | _ => [] end |}.

Definition FetchConfHash (vps : VPSConfig) : eff E string :=
  let container := default_container vps in
  out ← wrap "server_config: fetch conf hash: "
    (stdout_of (ExecuteCommand (dockerExecCmd container "sha256sum /opt/amnezia/awg/awg0.conf")));
  match Fields out with
  | [] => throw "server_config: unexpected sha256sum output"
  | h :: _ => mret h
  end.

Definition FetchPeers (vps : VPSConfig) (ifc : string) : eff E (list PeerDumpEntry) :=
  fetchPeerDump (default_container vps) ifc.

Lemma parse_iface_lines_total ls i p : parse_iface_lines ls i <> Panic p.
Proof.
  revert i. induction ls as [|l ls IH]; intros i; simpl; [done|].
  destruct (parse_iface_line l i) as [i'|e|q] eqn:El; [apply IH|done|].
  exfalso. destruct i as [[addr port] obf]. unfold parse_iface_line in El.
  repeat case_match; done.
Qed.

Lemma no_panic_FetchAll vps ifc : no_panic (FetchAll vps ifc).
Proof.
  unfold FetchAll, dockerCat, fetchPeerDump.
  repeat (first [ apply no_panic_bind; [|intros ?] | apply no_panic_wrap | apply no_panic_try
                | apply no_panic_stdout_of | apply no_panic_ret ]).
  - apply no_panic_lift. intros p. unfold parseInterfaceSection.
    case_decide; [done|apply parse_iface_lines_total].
  - destruct a0 as [[addr port] obf]. apply no_panic_ret.
Qed.
End Fetch.
#[export] Hint Resolve no_panic_stdout_of no_panic_FetchAll : unet.

(** ** The server mirror kept in the configuration *)

Record ServerMirrorJSON := {
  LastSyncedAt : string; AwgConfRaw : string; AwgConfSha256 : string;
  ClientsTable : option string; CaddyAdminConfig : option string; ServerPrivateKey : string
}.

Definition zero_mirror : ServerMirrorJSON :=
  {| LastSyncedAt := ""; AwgConfRaw := ""; AwgConfSha256 := ""; ClientsTable := None;
     CaddyAdminConfig := None; ServerPrivateKey := "" |}.

(** [json.Marshal] and [json.Unmarshal] at the types the tunnel stores. *)
Class MirrorCodec := {
  mirror_marshal : ServerMirrorJSON -> string;
  mirror_unmarshal : string -> option ServerMirrorJSON
}.

Definition ParseServerMirror `{MirrorCodec} (raw : string) : result ServerMirrorJSON :=
  if decide (raw = EmptyString) then Ok zero_mirror
  else match mirror_unmarshal raw with
       | Some m => Ok m
       | None => Err "server_config: parse serverMirror: invalid JSON"
       end.

Definition SerializeServerMirror `{MirrorCodec} (m : ServerMirrorJSON) : string :=
  mirror_marshal m.

(** ** Lemmas *)

(** A reference reader of one POSIX shell word: quoted by single quotes or by
    a backslash, up to the first other byte. *)
Fixpoint sh_quoted (s : string) : option (string * string) :=
  match s with
  | EmptyString => None
  | String c s' => if decide (c = sq) then Some (EmptyString, s')
                   else '(w, r) ← sh_quoted s'; Some (String c w, r)
  end.

Fixpoint sh_word (fuel : nat) (s : string) : option (string * string) :=
  match fuel with
  | O => None
  | S f =>
      match s with
      | EmptyString => Some (EmptyString, s)
      | String c s' =>
          if decide (c = sq) then
            '(w, r) ← sh_quoted s'; '(w', r') ← sh_word f r; Some (w +:+ w', r')
          else if decide (c = bsl) then
            match s' with
            | String d s'' => '(w, r) ← sh_word f s''; Some (String d w, r)
            | EmptyString => None
            end
          else if bool_decide (c ∈ [" "%char; tab; nl]) then Some (EmptyString, s)
          else '(w, r) ← sh_word f s'; Some (String c w, r)
      end
  end.

(** Where a word ends. *)
Definition word_end (s : string) : Prop :=
  s = EmptyString \/ exists c s', s = String c s' /\ c ∈ [" "%char; tab; nl].

Lemma sh_word_end f s : word_end s -> sh_word (S f) s = Some (EmptyString, s).
Proof.
  intros [->|(c & s' & -> & Hc)]; [done|]. simpl.
  rewrite (bool_decide_true (c ∈ _)) by done.
  rewrite !decide_False; [done| |]; intros ->; set_solver.
Qed.

(** Inside quotes: up to the next embedded quote, or to the closing one. *)
Lemma sh_word_shellArg_go f s rest :
  word_end rest -> 2 * slen s + 1 < f ->
  exists w r, sh_quoted (ReplaceAll s sq sq_escaped +:+ String sq rest) = Some (w, r) /\
    exists w', sh_word f r = Some (w', rest) /\ w +:+ w' = s.
Proof.
  intros Hrest. revert f. unfold slen. induction s as [|c s IH]; intros f Hf; simpl in *.
  - exists "", rest. split; [done|]. exists "". split; [|done].
    destruct f; [lia|]. by apply sh_word_end.
  - case_decide as Hc; subst; simpl.
    + exists "", (String bsl (String sq (String sq (ReplaceAll s sq sq_escaped +:+ String sq rest)))).
      split; [done|]. destruct f as [|[|f]]; [lia..|].
      destruct (IH f) as (w & r & Hq & w' & Hw & Hs); [lia|].
      exists (String sq s). split; [|done].
      change (sh_word (S (S f)) (String bsl (String sq (String sq
                (ReplaceAll s sq sq_escaped +:+ String sq rest)))))
        with (match sh_word (S f) (String sq (ReplaceAll s sq sq_escaped +:+ String sq rest)) with
              | Some (w0, r0) => Some (String sq w0, r0) | None => None end).
      simpl. rewrite Hq. simpl. rewrite Hw. simpl. by rewrite Hs.
    + rewrite decide_False by done. destruct (IH f) as (w & r & Hq & w' & Hw & Hs); [lia|].
      rewrite Hq. simpl. exists (String c w), r. split; [done|].
      exists w'. split; [done|]. simpl. by rewrite Hs.
Qed.

(** ** Properties *)

(** No injection through [shellArg]: whatever bytes the argument holds,
    and whatever word follows, the shell reads back exactly that argument as
    one word. *)
Theorem shellArg_is_one_word s rest :
  word_end rest ->
  exists fuel, sh_word fuel (shellArg s +:+ rest) = Some (s, rest).
Proof.
  intros Hrest.
  destruct (sh_word_shellArg_go (2 * slen s + 2) s rest Hrest) as (w & r & Hq & w' & Hw & Hs); [lia|].
  set (f := 2 * slen s + 2) in *. exists (S f). unfold shellArg.
  rewrite !sapp_assoc. simpl.
  change (String sq "" +:+ rest) with (String sq rest). rewrite Hq. simpl.
  rewrite Hw. simpl. by rewrite Hs.
Qed.

Lemma shellArg_is_one_word_witness :
  exists fuel, sh_word fuel (shellArg "x'; rm -rf /; '" +:+ " y") = Some ("x'; rm -rf /; '", " y").
Proof.
  apply (shellArg_is_one_word "x'; rm -rf /; '" " y").
  right. exists " "%char, "y". split; [reflexivity|]. apply elem_of_cons. left. reflexivity.
Defined.
