(* ===== verification/Peer.v ===== *)
(** * tunnel/peer.go: adding and removing peers on the server *)

From S2P Require Import Prelude GoLib Config ServerConfig.

Record UserData := { ClientName : string; CreationDate : string }.
Record ClientEntry := { ClientID : string; cUserData : UserData }.

#[export] Instance ClientEntry_eq_dec : EqDecision ClientEntry.
Proof. solve_decision || (intros [? []] [? []]; unfold Decision; repeat decide equality). Defined.

(** [json.MarshalIndent], [json.Marshal] and [json.Unmarshal] of the clients
    table; a nil slice and an empty one are both the empty list here, since
    the code treats them alike except where noted. *)
Class TableCodec := {
  table_marshal_indent : list ClientEntry -> string;
  table_marshal : list ClientEntry -> string;
  table_unmarshal : string -> option (list ClientEntry)
}.

Record AddPeerParams := {
  ap_VPS : VPSConfig; ap_Interface : string; ap_ClientPublicKey : string;
  ap_ClientIP : string; ap_PresharedKey : string; ap_ClientName : string;
  ap_PersistentKeepalive : Z
}.

Record AddPeerResult := { ClientsTableJSON : string }.

Record RemovePeerParams := {
  rp_VPS : VPSConfig; rp_Interface : string; rp_ClientPublicKey : string
}.

(** ** Address allocation *)

(** The addresses in the AllowedIPs column of the dump. *)
Definition occupied_of (p : PeerDumpEntry) : list string :=
  omap (fun ipCIDR =>
          let ip := TrimSpace (hd EmptyString (Split ipCIDR "/")) in
          if decide (ip = EmptyString) then None else Some ip)
       (Split (AllowedIPs p) ",").

Definition occupied (peers : list PeerDumpEntry) : gset string :=
  list_to_set (peers ≫= occupied_of).

(** The loop [for i := 2; i < 255; i++], with [n] iterations left. *)
Fixpoint first_free (a b c : Z) (occ : gset string) (i : Z) (n : nat) : option string :=
  match n with
  | O => None
  | S n' =>
      let candidate := dot4 a b c i in
      if decide (candidate ∈ occ) then first_free a b c occ (i + 1) n' else Some candidate
  end.

Definition AllocateNextIP (subnet : string) (peers : list PeerDumpEntry) : result string :=
  match ParseCIDR subnet with
  | None => Err ("peer: parse subnet " +:+ subnet)
  | Some (_, net) =>
      match To4 net with
      | Some (a :: b :: c :: _) =>
          match first_free a b c (occupied peers) 2 253 with
          | Some ip => Ok ip
          | None => Err ("peer: no free IP in subnet " +:+ subnet)
          end
      | _ => Err ("peer: subnet " +:+ subnet +:+ " is not IPv4")
      end
  end.

(** ** Commands *)

Definition dockerExec (container cmd : string) : string :=
  "docker exec " +:+ shellArg container +:+ " sh -c " +:+ shellArg cmd.

Definition truncateKey (key : string) : string :=
  if decide (12 < slen key) then stake 12 key +:+ "..." else key.

Definition buildPeerBlock (pubKey psk clientIP : string) (keepalive : Z) : string :=
  nls +:+ "[Peer]" +:+ nls +:+ "PublicKey = " +:+ pubKey +:+ nls +:+
  "PresharedKey = " +:+ psk +:+ nls +:+ "AllowedIPs = " +:+ clientIP +:+ "/32" +:+ nls +:+
  "PersistentKeepalive = " +:+ Itoa keepalive +:+ nls.

Definition append_script (container peerBlock : string) : string :=
  "docker exec -i " +:+ shellArg container +:+ " sh -c 'cat >> /opt/amnezia/awg/awg0.conf'"
  +:+ " <<'PEER'" +:+ nls +:+ peerBlock +:+ "PEER".


Definition sync_script (ifc : string) : string :=
  "flock -w 10 " +:+ shellArg "/opt/amnezia/awg/awg0.lock" +:+ " sh -c '" +:+
  "TMPFILE=$(mktemp /tmp/awg0-strip.XXXXXX) && " +:+
  "trap " +:+ dquote +:+ "rm -f $TMPFILE" +:+ dquote +:+ " EXIT && " +:+
  "awg-quick strip /opt/amnezia/awg/awg0.conf > $TMPFILE && " +:+
  "awg syncconf " +:+ shellArg ifc +:+ " $TMPFILE" +:+ "'".

Definition write_table_script (container payload : string) : string :=
  "docker exec -i " +:+ shellArg container +:+
  " sh -c 'cat > /opt/amnezia/awg/clientsTable.new'" +:+
  " <<'PAYLOAD'" +:+ nls +:+ payload +:+ nls +:+ "PAYLOAD".

Definition rename_table_cmd (container : string) : string :=
  dockerExec container "mv /opt/amnezia/awg/clientsTable.new /opt/amnezia/awg/clientsTable".

Definition cat_table_cmd (container : string) : string :=
  dockerExec container "cat /opt/amnezia/awg/clientsTable".

Definition show_peers_cmd (container ifc : string) : string :=
  dockerExec container ("awg show " +:+ shellArg ifc +:+ " peers").

Section PeerManager.
Context {E : Type} `{SSHExecutor E} `{TableCodec}.

Definition appendPeerBlock (container peerBlock : string) : eff E unit :=
  _ ← wrap "append peer block: " (stdout_of (ExecuteScript (append_script container peerBlock)));
  mret tt.

Definition syncConf (container ifc : string) : eff E unit :=
  _ ← wrap "syncconf (flock): "
    (stdout_of (ExecuteCommand (dockerExec container (sync_script ifc))));
  mret tt.

(** The key is one of the lines of the output. *)
Definition lists_peer (out pubKey : string) : bool :=
  existsb (fun line => bool_decide (TrimSpace line = pubKey)) (Split out nl).

Definition verifyPeer (container ifc pubKey : string) : eff E unit :=
  out ← wrap "verify peer: awg show peers: "
    (stdout_of (ExecuteCommand (show_peers_cmd container ifc)));
  if lists_peer out pubKey then mret tt
  else throw ("peer " +:+ truncateKey pubKey +:+ " not found in awg show output").

Definition readClientsTable (container : string) : eff E (list ClientEntry) :=
  out ← wrap "cat clientsTable: " (stdout_of (ExecuteCommand (cat_table_cmd container)));
  mret (match table_unmarshal out with Some entries => entries | None => [] end).

(** The write of the new table and the rename over the old one. *)
Definition writeClientsTable (container payload : string) : eff E string :=
  _ ← wrap "write clientsTable.new: "
    (stdout_of (ExecuteScript (write_table_script container payload)));
  _ ← wrap "rename clientsTable: " (stdout_of (ExecuteCommand (rename_table_cmd container)));
  mret payload.

Definition updateClientsTable (container pubKey clientName now : string) : eff E string :=
  r ← try (readClientsTable container);
  let existing := match r with Ok l => l | _ => [] end in
  let updated := existing ++ [{| ClientID := pubKey;
      cUserData := {| ClientName := clientName; CreationDate := now |} |}] in
  writeClientsTable container (table_marshal_indent updated).

Definition removeFromClientsTable (container pubKey : string) : eff E string :=
  existing ← wrap "read clientsTable: " (readClientsTable container);
  writeClientsTable container
    (table_marshal_indent (filter (fun e => ClientID e <> pubKey) existing)).

Definition default_iface (s : string) : string := if decide (s = EmptyString) then "awg0" else s.

Definition AddPeer (p : AddPeerParams) (now : string) : eff E AddPeerResult :=
  let container := default_container (ap_VPS p) in
  let ifc := default_iface (ap_Interface p) in
  let keepalive := if decide (ap_PersistentKeepalive p = 0)%Z then 25%Z
                   else ap_PersistentKeepalive p in
  let peerBlock := buildPeerBlock (ap_ClientPublicKey p) (ap_PresharedKey p) (ap_ClientIP p) keepalive in
  _ ← wrap "peer: append [Peer] block: " (appendPeerBlock container peerBlock);
  _ ← wrap "peer: syncconf: " (syncConf container ifc);
  _ ← wrap "peer: verify: " (verifyPeer container ifc (ap_ClientPublicKey p));
  ctJSON ← wrap "peer: update clientsTable: "
    (updateClientsTable container (ap_ClientPublicKey p) (ap_ClientName p) now);
  mret {| ClientsTableJSON := ctJSON |}.

(** Every step's error is only logged. *)
Definition RemovePeer (p : RemovePeerParams) : eff E unit :=
  let container := default_container (rp_VPS p) in
  let ifc := default_iface (rp_Interface p) in
  _ ← try (stdout_of (ExecuteCommand (dockerExec container
        ("awg set " +:+ shellArg ifc +:+ " peer " +:+ shellArg (rp_ClientPublicKey p) +:+ " remove"))));
  _ ← try (stdout_of (ExecuteCommand (dockerExec container ("awg-quick save " +:+ shellArg ifc))));
  _ ← try (removeFromClientsTable container (rp_ClientPublicKey p));
  mret tt.

(** Every call returns. *)
Ltac calm := repeat (first
  [ apply no_panic_bind; [|intros ?] | apply no_panic_wrap | apply no_panic_try
  | apply no_panic_stdout_of | apply no_panic_ret | apply no_panic_throw ]).

Lemma no_panic_AddPeer p now : no_panic (AddPeer p now).
Proof.
  unfold AddPeer, appendPeerBlock, syncConf, verifyPeer, updateClientsTable, readClientsTable,
    writeClientsTable. cbv zeta. calm. case_match; calm.
Qed.

Lemma no_panic_RemovePeer p : no_panic (RemovePeer p).
Proof.
  unfold RemovePeer, removeFromClientsTable, readClientsTable, writeClientsTable. calm.
Qed.
End PeerManager.
#[export] Hint Resolve no_panic_AddPeer no_panic_RemovePeer : unet.

(** [SortPeersByIP]: by the AllowedIPs column, as strings.  [sort.Slice] is
    not stable; the model is an insertion sort, one of its results. *)
Fixpoint insert_peer (p : PeerDumpEntry) (l : list PeerDumpEntry) : list PeerDumpEntry :=
  match l with
  | [] => [p]
  | q :: l' => if string_ltb (AllowedIPs q) (AllowedIPs p) then q :: insert_peer p l' else p :: l
  end.
Definition SortPeersByIP (l : list PeerDumpEntry) : list PeerDumpEntry := foldr insert_peer [] l.

(** ** An executor that records what it runs

    A plan is followed command by command: what the next command is may depend
    on the answers so far, and the first answer it does not accept ends it. *)

(** A command with its standard output and its error. *)
Record answer := { a_cmd : string; a_out : string; a_err : option string }.

Record planned := { p_cmd : string; p_script : bool; goes_on : answer -> bool }.

Section Logged.
Context {E : Type} `{X : SSHExecutor E}.

Definition logged : Type := E * list answer.

#[export] Instance logged_executor : SSHExecutor logged := {
  ExecuteCommand c w := let '((out, err, er), e) := ExecuteCommand c (fst w) in
    ((out, err, er), (e, snd w ++ [{| a_cmd := c; a_out := out; a_err := er |}]));
  ExecuteScript c w := let '((out, err, er), e) := ExecuteScript c (fst w) in
    ((out, err, er), (e, snd w ++ [{| a_cmd := c; a_out := out; a_err := er |}]))
}.

(** Whether the plan was followed to its end, the answers, and the server
    after it; [h] is what was answered before. *)
Fixpoint follow (plan : list (list answer -> planned)) (h : list answer) (e : E) : bool * list answer * E :=
  match plan with
  | [] => (true, h, e)
  | next :: plan' =>
      let st := next h in
      let '((out, _, er), e') :=
        if p_script st then ExecuteScript (p_cmd st) e else ExecuteCommand (p_cmd st) e in
      let a := {| a_cmd := p_cmd st; a_out := out; a_err := er |} in
      if goes_on st a then follow plan' (h ++ [a]) e' else (false, h ++ [a], e')
  end.
End Logged.

(** ** Lemmas on allocation *)

Lemma first_free_Some a b c occ i n ip :
  first_free a b c occ i n = Some ip ->
  exists k, (i <= k < i + Z.of_nat n)%Z /\ ip = dot4 a b c k /\ (ip ∉ occ) /\
            forall j, (i <= j < k)%Z -> dot4 a b c j ∈ occ.
Proof.
  revert i. induction n as [|n IH]; intros i; simpl; [done|].
  case_decide as Hin.
  - intros (k & Hk & -> & Hni & Hall)%IH. exists k. split; [lia|].
    split; [done|]. split; [done|]. intros j Hj.
    destruct (decide (j = i)) as [->|]; [done|]. apply Hall. lia.
  - intros [= <-]. exists i. split; [lia|]. split; [done|]. split; [done|]. lia.
Qed.

Lemma first_free_None a b c occ i n :
  first_free a b c occ i n = None <->
  (forall j, (i <= j < i + Z.of_nat n)%Z -> dot4 a b c j ∈ occ).
Proof.
  revert i. induction n as [|n IH]; intros i; simpl; [split; [lia|done]|].
  case_decide as Hin.
  - rewrite IH. split; intros Hall j Hj; [|apply Hall; lia].
    destruct (decide (j = i)) as [->|]; [done|]. apply Hall. lia.
  - split; [done|]. intros Hall. destruct Hin. apply Hall. lia.
Qed.

Lemma occupied_app l1 l2 : occupied (l1 ++ l2) = occupied l1 ∪ occupied l2.
Proof. unfold occupied. by rewrite bind_app, list_to_set_app_L. Qed.

(** The dump entry of a peer added with address [ip]. *)
Definition peer_with_ip (ip : string) : PeerDumpEntry :=
  {| pd_PublicKey := ""; pd_PresharedKey := ""; Endpoint := ""; AllowedIPs := ip +:+ "/32";
     LastHandshake := ""; RxBytes := ""; TxBytes := ""; pd_PersistentKeepalive := "" |}.

Lemma occupied_peer_with_ip ip :
  str_all graphic ip = true -> free_of "/" ip = true -> free_of "," ip = true ->
  ip <> EmptyString -> occupied [peer_with_ip ip] = {[ip]}.
Proof.
  intros Hg Hs Hc Hne. unfold occupied, occupied_of. simpl.
  rewrite Split_free by (rewrite free_of_app, Hc; done). simpl.
  change "/32" with (String "/" "32"). rewrite Split_app_sep by done. simpl.
  rewrite TrimSpace_graphic by done. rewrite decide_False by done. simpl. set_solver.
Qed.

Lemma allocate_spec subnet peers ip :
  AllocateNextIP subnet peers = Ok ip ->
  exists addr net a b c d k, ParseCIDR subnet = Some (addr, net) /\
    To4 net = Some (a :: b :: c :: d) /\ (2 <= k <= 254)%Z /\ ip = dot4 a b c k /\
    (ip ∉ occupied peers) /\ forall j, (2 <= j < k)%Z -> dot4 a b c j ∈ occupied peers.
Proof.
  unfold AllocateNextIP. intros E.
  destruct (ParseCIDR subnet) as [[addr net]|] eqn:Hp; [|done].
  destruct (To4 net) as [[|a [|b [|c d]]]|] eqn:Ht; try done.
  destruct (first_free _ _ _ _ _ _) as [ip'|] eqn:Hf; [|done]. injection E as <-.
  apply first_free_Some in Hf as (k & Hk & -> & Hni & Hall).
  exists addr, net, a, b, c, d, k. split_and!; try done; lia.
Qed.

Lemma AllocateNextIP_total subnet peers p : AllocateNextIP subnet peers <> Panic p.
Proof. unfold AllocateNextIP. by repeat case_match. Qed.

(** ** Properties *)

(** An allocated address is the first free host [2..254] of the subnet's
    /24: no dumped peer uses it and every lower one is in use. *)
Theorem allocate_first_free subnet peers ip :
  AllocateNextIP subnet peers = Ok ip ->
  exists addr net a b c d k, ParseCIDR subnet = Some (addr, net) /\
    To4 net = Some (a :: b :: c :: d) /\ (2 <= k <= 254)%Z /\ ip = dot4 a b c k /\
    (ip ∉ occupied peers) /\ (forall j, (2 <= j < k)%Z -> dot4 a b c j ∈ occupied peers).
Proof. apply allocate_spec. Qed.

(** Allocation in an IPv4 subnet fails only when it must: the error is
    returned exactly when all 253 hosts are in use. *)
Theorem allocate_fails_iff_full subnet addr net a b c d peers :
  ParseCIDR subnet = Some (addr, net) -> To4 net = Some (a :: b :: c :: d) ->
  is_ok (AllocateNextIP subnet peers) = false <->
  (forall k, (2 <= k <= 254)%Z -> dot4 a b c k ∈ occupied peers).
Proof.
  intros Hp Ht. unfold AllocateNextIP. rewrite Hp, Ht.
  pose proof (first_free_None a b c (occupied peers) 2 253) as Hn.
  destruct (first_free _ _ _ _ _ _).
  - split; [done|]. intros Hall. destruct Hn as [_ Hn]. discriminate Hn. intros. apply Hall. lia.
  - split; [|done]. intros _ k Hk. apply Hn; [done|lia].
Qed.

(** Two allocations in a row never give the same address: once the server
    lists the peer added with the first one, the second differs from it. *)
Theorem allocate_never_reuses subnet peers ip ip' :
  AllocateNextIP subnet peers = Ok ip ->
  AllocateNextIP subnet (peers ++ [peer_with_ip ip]) = Ok ip' -> ip' <> ip.
Proof.
  intros E E' ->.
  apply allocate_spec in E as (_ & _ & a & b & c & _ & k & _ & _ & _ & -> & _).
  apply allocate_spec in E' as (_ & _ & _ & _ & _ & _ & _ & _ & _ & _ & _ & Hni & _).
  rewrite occupied_app in Hni.
  rewrite occupied_peer_with_ip in Hni; [set_solver|..];
    auto using dot4_graphic, dot4_nonempty; by apply dot4_free.
Qed.

Definition succeeds_cmd (a : answer) : bool := bool_decide (a_err a = None).

(** The commands of [AddPeer].  All must succeed but the reading of the table,
    which is empty when it cannot be read or parsed, and the list of peers must
    contain the key. *)
Definition add_peer_plan `{TableCodec} (p : AddPeerParams) (now : string) : list (list answer -> planned) :=
  let container := default_container (ap_VPS p) in
  let ifc := default_iface (ap_Interface p) in
  let keepalive := if decide (ap_PersistentKeepalive p = 0)%Z then 25%Z
                   else ap_PersistentKeepalive p in
  let entry := {| ClientID := ap_ClientPublicKey p;
                  cUserData := {| ClientName := ap_ClientName p; CreationDate := now |} |} in
  let existing h := match list.last h with
                    | Some {| a_out := out; a_err := None |} => default [] (table_unmarshal out)
                    | _ => []
                    end in
  [ fun _ => {| p_cmd := append_script container (buildPeerBlock (ap_ClientPublicKey p) (ap_PresharedKey p)
                           (ap_ClientIP p) keepalive);
                p_script := true; goes_on := succeeds_cmd |};
    fun _ => {| p_cmd := dockerExec container (sync_script ifc); p_script := false; goes_on := succeeds_cmd |};
    fun _ => {| p_cmd := show_peers_cmd container ifc; p_script := false;
                goes_on a := succeeds_cmd a && lists_peer (a_out a) (ap_ClientPublicKey p) |};
    fun _ => {| p_cmd := cat_table_cmd container; p_script := false; goes_on _ := true |};
    fun h => {| p_cmd := write_table_script container (table_marshal_indent (existing h ++ [entry]));
                p_script := true; goes_on := succeeds_cmd |};
    fun _ => {| p_cmd := rename_table_cmd container; p_script := false; goes_on := succeeds_cmd |} ].

Section order.
Context `{X : SSHExecutor E} `{TableCodec}.

(** C23: adding a peer appends its block, reloads the interface, checks that the
    interface lists it, and only then rewrites the clients table, the one it
    read with the new entry at its end, by writing a new file and renaming it.
    It succeeds exactly when all of this was done, and stops at the first
    command that fails, the reading of the table apart, or whose list of peers
    lacks the key: no later command is run. *)
Theorem add_peer_command_order p now (e : E) :
  let '(ok, answers, e') := follow (add_peer_plan p now) [] e in
  exists r, AddPeer p now (e, []) = (r, (e', answers)) /\
    match r with Ok _ => ok = true | Err _ => ok = false | Panic _ => False end.
Proof.
  unfold AddPeer, appendPeerBlock, syncConf, verifyPeer, updateClientsTable, readClientsTable, writeClientsTable,
    wrap, try, stdout_of, mbind, eff_bind, mret, eff_ret, throw. cbn [ExecuteScript ExecuteCommand logged_executor fst snd].
  unfold add_peer_plan. cbv zeta. generalize (buildPeerBlock (ap_ClientPublicKey p) (ap_PresharedKey p) (ap_ClientIP p)
    (if decide (ap_PersistentKeepalive p = 0%Z) then 25%Z else ap_PersistentKeepalive p)). intros blk.
  generalize (default_container (ap_VPS p)) as c. generalize (default_iface (ap_Interface p)) as i. intros i c.
  generalize (append_script c blk) as s1. generalize (dockerExec c (sync_script i)) as s2.
  generalize (show_peers_cmd c i) as s3. generalize (cat_table_cmd c) as s4.
  generalize (write_table_script c) as s5. generalize (rename_table_cmd c) as s6. intros s6 s5 s4 s3 s2 s1.
  generalize ("peer " +:+ truncateKey (ap_ClientPublicKey p) +:+ " not found in awg show output"). intros missing.
  cbn -[String.append lists_peer].
  destruct (ExecuteScript s1 e) as [[[o1 x1] [r1|]] e1]; cbn -[String.append lists_peer]; [by eexists|].
  destruct (ExecuteCommand s2 e1) as [[[o2 x2] [r2|]] e2]; cbn -[String.append lists_peer]; [by eexists|].
  destruct (ExecuteCommand s3 e2) as [[[o3 x3] [r3|]] e3]; cbn -[String.append lists_peer]; [by eexists|].
  destruct (lists_peer o3 (ap_ClientPublicKey p)); cbn -[String.append lists_peer]; [|by eexists].
  destruct (ExecuteCommand s4 e3) as [[[o4 x4] [r4|]] e4]; cbn -[String.append lists_peer];
    [|destruct (table_unmarshal o4); cbn -[String.append lists_peer]].
  all: destruct (ExecuteScript (s5 _) e4) as [[[o5 x5] [r5|]] e5]; cbn -[String.append lists_peer]; [by eexists|].
  all: destruct (ExecuteCommand s6 e5) as [[[o6 x6] [r6|]] e6]; cbn -[String.append lists_peer]; by eexists.
Qed.
End order.

(** A reported success is real: [AddPeer] returns without error only if the
    server's own list of peers, read after the reload, contained the key. *)
Theorem add_peer_verified `{SSHExecutor E} `{TableCodec} p now (w w' : E) r :
  AddPeer p now w = (Ok r, w') ->
  exists out err v v', ExecuteCommand (show_peers_cmd (default_container (ap_VPS p))
      (default_iface (ap_Interface p))) v = ((out, err, None), v') /\
    exists line, line ∈ Split out nl /\ TrimSpace line = ap_ClientPublicKey p.
Proof.
  unfold AddPeer. cbv zeta. intros Hr. do 3 bind_inv Hr.
  apply wrap_ok_inv in E2. unfold verifyPeer in E2. bind_inv E2.
  apply wrap_ok_inv in E3. unfold stdout_of in E3.
  destruct (ExecuteCommand _ _) as [[[out err] [e|]] v0] eqn:Ex; [done|].
  injection E3 as <- <-. exists out, err, w1, v0. split; [exact Ex|].
  destruct (lists_peer out (ap_ClientPublicKey p)) eqn:Hl; [|done].
  unfold lists_peer in Hl. apply existsb_exists in Hl as (line & Hin & Ht).
  exists line. rewrite list_elem_of_In. split; [done|]. by apply bool_decide_eq_true in Ht.
Qed.

(** ** Witnesses *)

Definition no_peers : list PeerDumpEntry := [].

Lemma allocate_first_free_witness :
  AllocateNextIP "10.8.1.0/24" [peer_with_ip "10.8.1.2"] = Ok "10.8.1.3" /\
  exists addr net a b c d k, ParseCIDR "10.8.1.0/24" = Some (addr, net) /\
    To4 net = Some (a :: b :: c :: d) /\ (2 <= k <= 254)%Z /\ "10.8.1.3" = dot4 a b c k /\
    ("10.8.1.3" ∉ occupied [peer_with_ip "10.8.1.2"]) /\
    (forall j, (2 <= j < k)%Z -> dot4 a b c j ∈ occupied [peer_with_ip "10.8.1.2"]).
Proof.
  split; [vm_compute; reflexivity|].
  apply (allocate_first_free "10.8.1.0/24" [peer_with_ip "10.8.1.2"] "10.8.1.3").
  vm_compute. reflexivity.
Defined.

Lemma allocate_fails_iff_full_witness :
  is_ok (AllocateNextIP "10.8.1.0/24" no_peers) = false <->
  (forall k, (2 <= k <= 254)%Z -> dot4 10 8 1 k ∈ occupied no_peers).
Proof.
  eapply (allocate_fails_iff_full "10.8.1.0/24" _ _ 10 8 1 [0%Z]); vm_compute; reflexivity.
Defined.

Lemma allocate_never_reuses_witness : "10.8.1.3" <> "10.8.1.2".
Proof.
  apply (allocate_never_reuses "10.8.1.0/24" no_peers); vm_compute; reflexivity.
Defined.

(** An executor under which every command succeeds and prints the key [K]. *)
Definition yes_executor : SSHExecutor unit := {|
  ExecuteCommand _ w := (("K", "", None), w);
  ExecuteScript _ w := (("", "", None), w)
|}.
Definition no_table : TableCodec := {|
  table_marshal_indent _ := "[]"; table_marshal _ := "[]"; table_unmarshal _ := None
|}.
Definition sample_add : AddPeerParams :=
  {| ap_VPS := zero_vps; ap_Interface := "awg0"; ap_ClientPublicKey := "K";
     ap_ClientIP := "10.8.1.2"; ap_PresharedKey := "P"; ap_ClientName := "n";
     ap_PersistentKeepalive := 25 |}.

Lemma add_peer_verified_witness :
  exists out err (v v' : unit), @ExecuteCommand _ yes_executor
      (show_peers_cmd (default_container zero_vps) (default_iface "awg0")) v
      = ((out, err, None), v') /\
    exists line, line ∈ Split out nl /\ TrimSpace line = "K".
Proof.
  apply (@add_peer_verified _ yes_executor no_table sample_add "now" tt tt
           {| ClientsTableJSON := "[]" |}).
  vm_compute. reflexivity.
Defined.
