(* ===== verification/AWG.v ===== *)
(** * tunnel/awg.go: the local awg and awg-quick binaries

    The processes of the machine are not under src/: [LocalHost] is what the
    code asks of the operating system.  A command's output is one byte string;
    output appended to an error for diagnosis is left out. *)

From S2P Require Import Prelude GoLib Config.

(** [exec.Cmd.Output] and [CombinedOutput] of a program with its arguments and
    standard input, [exec.LookPath], [os.WriteFile], [os.UserHomeDir],
    [os.Hostname] and the formatted clock. *)
Class LocalHost (E : Type) := {
  RunCmd : string -> list string -> string -> eff E string;
  LookPath : string -> eff E string;
  WriteFile : string -> string -> eff E unit;
  UserHomeDir : eff E string;
  Hostname : eff E string;
  ClockRFC3339 : E -> string * E
}.

(** Operating-system calls return; they do not panic. *)
Class LocalHostLaws (E : Type) `{LocalHost E} : Prop := {
  RunCmd_returns n a i : no_panic (RunCmd n a i);
  LookPath_returns n : no_panic (LookPath n);
  WriteFile_returns n d : no_panic (WriteFile n d);
  UserHomeDir_returns : no_panic UserHomeDir;
  Hostname_returns : no_panic Hostname
}.
#[export] Hint Resolve RunCmd_returns LookPath_returns WriteFile_returns UserHomeDir_returns
  Hostname_returns : unet.

(** [time.Now().UTC().Format(time.RFC3339)] *)
Definition NowRFC3339 {E} `{LocalHost E} : eff E string := fun e =>
  let '(t, e') := ClockRFC3339 e in (Ok t, e').

Lemma NowRFC3339_ok {E} `{LocalHost E} e : is_ok (fst (NowRFC3339 e)) = true.
Proof. unfold NowRFC3339. by destruct (ClockRFC3339 e). Qed.

Lemma no_panic_NowRFC3339 {E} `{LocalHost E} : no_panic NowRFC3339.
Proof. intros e p. unfold NowRFC3339. by destruct (ClockRFC3339 e). Qed.
#[export] Hint Resolve NowRFC3339_ok no_panic_NowRFC3339 : unet.

(** [runtime.GOOS], as far as the code looks at it. *)
Inductive goos := linux | darwin | windows.

#[export] Instance goos_eq_dec : EqDecision goos.
Proof. solve_decision. Defined.

Record AWGCli := { QuickPath : string; AwgPath : string }.

Section AWG.
Context {E : Type} `{LocalHost E} (GOOS : goos).

Definition NewAWGCli : eff E AWGCli :=
  quick ← try (LookPath "awg-quick");
  quickPath ← (match quick with
    | Ok p => mret p
    | Err e => if decide (GOOS = windows) then mret EmptyString
               else throw ("tunnel: awg-quick not found on PATH: " +:+ e)
    | Panic p => panic p
    end : eff E string);
  awg ← try (LookPath "awg");
  mret {| QuickPath := quickPath; AwgPath := match awg with Ok p => p | _ => EmptyString end |}.

Definition or_default (path name : string) : string :=
  if decide (path = EmptyString) then name else path.

Definition quickCommand (c : AWGCli) (args : list string) : eff E string :=
  RunCmd (or_default (QuickPath c) "awg-quick") args EmptyString.

Definition awgCommand (c : AWGCli) (args : list string) (stdin : string) : eff E string :=
  RunCmd (or_default (AwgPath c) "awg") args stdin.

Definition Up (c : AWGCli) (confPath : string) : eff E unit :=
  _ ← wrap ("tunnel: awg-quick up " +:+ confPath +:+ ": ") (quickCommand c ["up"; confPath]);
  mret tt.

Definition Down (c : AWGCli) (confPath : string) : eff E unit :=
  _ ← wrap ("tunnel: awg-quick down " +:+ confPath +:+ ": ") (quickCommand c ["down"; confPath]);
  mret tt.

(** The check every call to the [awg] binary starts with. *)
Definition need_awg {A} (c : AWGCli) (what : string) (m : eff E A) : eff E A :=
  if decide (AwgPath c = EmptyString) then throw ("tunnel: awg binary not available" +:+ what) else m.

Definition Show (c : AWGCli) (ifc : string) : eff E string :=
  need_awg c "" (wrap ("tunnel: awg show " +:+ ifc +:+ ": ") (awgCommand c ["show"; ifc] "")).

Definition ShowDump (c : AWGCli) (ifc : string) : eff E string :=
  need_awg c "" (wrap ("tunnel: awg show " +:+ ifc +:+ " dump: ")
                      (awgCommand c ["show"; ifc; "dump"] "")).

Definition Strip (c : AWGCli) (confPath : string) : eff E string :=
  wrap ("tunnel: awg-quick strip " +:+ confPath +:+ ": ") (quickCommand c ["strip"; confPath]).

Definition GenKey (c : AWGCli) : eff E string :=
  need_awg c "" (out ← wrap "tunnel: awg genkey: " (awgCommand c ["genkey"] "");
                 mret (TrimSpace out)).

Definition PubKey (c : AWGCli) (privateKey : string) : eff E string :=
  need_awg c "" (out ← wrap "tunnel: awg pubkey: " (awgCommand c ["pubkey"] (privateKey +:+ nls));
                 mret (TrimSpace out)).

Definition GenerateKeyPair (c : AWGCli) : eff E (string * string) :=
  priv ← GenKey c;
  pub ← PubKey c priv;
  mret (priv, pub).

Definition InterfaceExists (c : AWGCli) (ifc : string) : eff E bool :=
  r ← try (Show c ifc);
  mret (is_ok r).

(** The first interface [awg show interfaces] lists. *)
Definition first_interface (c : AWGCli) (os : string) (none : string) : eff E string :=
  need_awg c " for interface discovery"
    (out ← wrap ("tunnel: awg show interfaces" +:+ os +:+ ": ")
                (awgCommand c ["show"; "interfaces"] "");
     let ifaces := TrimSpace out in
     if decide (ifaces = EmptyString) then throw none
     else mret (hd EmptyString (Split ifaces nl))).

Definition discoverDarwin (c : AWGCli) : eff E string :=
  first_interface c "" "tunnel: no AWG interfaces found on macOS".

Definition discoverWindows (c : AWGCli) : eff E string :=
  first_interface c " (Windows)"
    "tunnel: no AWG interfaces found on Windows (ensure AmneziaWG client is running)".

Definition DiscoverInterface (c : AWGCli) (expected : string) : eff E string :=
  ex ← InterfaceExists c expected;
  if ex : bool then mret expected else
  match GOOS with
  | darwin => discoverDarwin c
  | windows => discoverWindows c
  | linux => mret expected
  end.

(** ** None of the calls panics *)

Context `{!LocalHostLaws E}.

Lemma no_panic_need_awg {A} c what (m : eff E A) : no_panic m -> no_panic (need_awg c what m).
Proof. intros Hm. unfold need_awg. case_decide; auto with unet. Qed.

Lemma no_panic_GenerateKeyPair c : no_panic (GenerateKeyPair c).
Proof.
  apply no_panic_bind; [|intros priv; apply no_panic_bind; [|auto with unet]].
  all: apply no_panic_need_awg, no_panic_bind; auto with unet.
  all: apply no_panic_wrap, RunCmd_returns.
Qed.

Lemma no_panic_Up c p : no_panic (Up c p).
Proof. apply no_panic_bind; auto with unet. apply no_panic_wrap, RunCmd_returns. Qed.

Lemma no_panic_Down c p : no_panic (Down c p).
Proof. apply no_panic_bind; auto with unet. apply no_panic_wrap, RunCmd_returns. Qed.

Lemma no_panic_InterfaceExists c i : no_panic (InterfaceExists c i).
Proof.
  apply no_panic_bind; [|auto with unet].
  apply no_panic_try, no_panic_need_awg, no_panic_wrap, RunCmd_returns.
Qed.

Lemma no_panic_DiscoverInterface c i : no_panic (DiscoverInterface c i).
Proof.
  apply no_panic_bind; [apply no_panic_InterfaceExists|]. intros [|]; [auto with unet|].
  destruct GOOS; [auto with unet|..].
  all: apply no_panic_need_awg, no_panic_bind; [apply no_panic_wrap, RunCmd_returns|].
  all: intros out; cbv zeta; case_decide; auto with unet.
Qed.
End AWG.
#[export] Hint Resolve no_panic_GenerateKeyPair no_panic_Up no_panic_Down
  no_panic_InterfaceExists no_panic_DiscoverInterface : unet.

(** A host on which every program succeeds and prints [out]. *)
Definition quiet_host (out : string) : LocalHost unit := {|
  RunCmd _ _ _ := mret out; LookPath n := mret n; WriteFile _ _ := mret tt;
  UserHomeDir := mret "/root"; Hostname := mret "host"; ClockRFC3339 e := ("2024-01-01T00:00:00Z", e)
|}.

Definition quiet_host_laws out : @LocalHostLaws unit (quiet_host out).
Proof. split; intros; apply no_panic_ret. Qed.
