(* ===== verification/Tunnel.v ===== *)
(** * tunnel/manager.go: the life of the tunnel

    The manager over the configuration manager's interface, the SSH executor
    and the local host.  Operations are atomic except [Connect], whose guard
    and whose body run under separate holds of the mutex, so they are two
    definitions; [Connect] runs one after the other. *)

From S2P Require Import Prelude GoLib Config ServerConfig Peer AWG.

(** The parameters [Connect] gives to every peer. *)
Record ClientConfParams := {
  cc_InterfaceName : string; cc_PrivateKey : string; cc_Address : string;
  cc_ServerPublicKey : string; cc_Endpoint : string; cc_PresharedKey : string;
  cc_MTU : Z; cc_PersistentKeepalive : Z; cc_Obfuscation : ObfuscationConfig
}.

Definition writeIfNonZero (key : string) (value : Z) : string :=
  if decide (value = 0)%Z then EmptyString else key +:+ " = " +:+ Itoa value +:+ nls.

Definition obfuscation_lines (o : ObfuscationConfig) : string :=
  foldr (fun kv s => writeIfNonZero (fst kv) (snd kv) +:+ s) EmptyString
    [("Jc", Jc o); ("Jmin", Jmin o); ("Jmax", Jmax o); ("S1", S1 o); ("S2", S2 o);
     ("S3", S3 o); ("S4", S4 o); ("H1", H1 o); ("H2", H2 o); ("H3", H3 o); ("H4", H4 o);
     ("I1", I1 o); ("I2", I2 o); ("I3", I3 o); ("I4", I4 o); ("I5", I5 o)].

(** The text [writeClientConf] builds. *)
Definition client_conf (p : ClientConfParams) : string :=
  "[Interface]" +:+ nls +:+
  "PrivateKey = " +:+ cc_PrivateKey p +:+ nls +:+
  "Address = " +:+ cc_Address p +:+ nls +:+
  (if decide (0 < cc_MTU p)%Z then "MTU = " +:+ Itoa (cc_MTU p) +:+ nls else EmptyString) +:+
  nls +:+ "[Peer]" +:+ nls +:+
  "PublicKey = " +:+ cc_ServerPublicKey p +:+ nls +:+
  "Endpoint = " +:+ cc_Endpoint p +:+ nls +:+
  "PresharedKey = " +:+ cc_PresharedKey p +:+ nls +:+
  "AllowedIPs = 0.0.0.0/0, ::/0" +:+ nls +:+
  (if decide (0 < cc_PersistentKeepalive p)%Z
   then "PersistentKeepalive = " +:+ Itoa (cc_PersistentKeepalive p) +:+ nls else EmptyString) +:+
  obfuscation_lines (cc_Obfuscation p).

Definition deriveSubnet (address : string) : string :=
  match ParseCIDR address with
  | Some (ip, _) =>
      match To4 ip with
      | Some (a :: b :: c :: _) =>
          Itoa a +:+ "." +:+ Itoa b +:+ "." +:+ Itoa c +:+ ".0/24"
      | _ => EmptyString
      end
  | None => EmptyString
  end.

Definition deriveServerIP (address : string) : string :=
  match IndexByte address "/" with
  | Some (S i) => stake (S i) address
  | _ => address
  end.

(** What [Connect] stores in the configuration when it is done. *)
Record Session := {
  ss_iface : string; ss_subnet : string; ss_localIP : string; ss_endpoint : string;
  ss_server : ServerConfig; ss_privKey : string; ss_pubKey : string;
  ss_table : option string; ss_connectedAt : string; ss_syncedAt : string
}.

Definition session_config `{MirrorCodec} (s : Session) (c : RootConfig) : RootConfig :=
  set_ServerMirror
    (SerializeServerMirror
       {| LastSyncedAt := ss_syncedAt s; AwgConfRaw := RawConf (ss_server s);
          AwgConfSha256 := ConfSha256 (ss_server s); ClientsTable := ss_table s;
          CaddyAdminConfig := None; ServerPrivateKey := "" |})
    (set_Tunnel
       {| InterfaceName := ss_iface s; Subnet := ss_subnet s;
          ServerIP := deriveServerIP (sc_Address (ss_server s)); LocalIP := ss_localIP s;
          ServerEndpoint := ss_endpoint s; ServerPublicKey := sc_ServerPublicKey (ss_server s);
          PresharedKey := sc_PresharedKey (ss_server s); PrivateKey := ss_privKey s;
          PublicKey := ss_pubKey s; MTU := 1280; PersistentKeepalive := 25;
          Obfuscation := sc_Obfuscation (ss_server s); Status := "connected";
          ConnectedAt := ss_connectedAt s |} c).

(** [if c.Tunnel.PrivateKey.Plain() == ""] of [AddPeerForRemote]. *)
Definition set_keys (priv pub : string) (t : TunnelConfig) : TunnelConfig :=
  if decide (Plain (PrivateKey t) = EmptyString) then
    {| InterfaceName := InterfaceName t; Subnet := Subnet t; ServerIP := ServerIP t;
       LocalIP := LocalIP t; ServerEndpoint := ServerEndpoint t;
       ServerPublicKey := ServerPublicKey t; PresharedKey := PresharedKey t;
       PrivateKey := priv; PublicKey := pub; MTU := MTU t;
       PersistentKeepalive := PersistentKeepalive t; Obfuscation := Obfuscation t;
       Status := Status t; ConnectedAt := ConnectedAt t |}
  else t.

Definition table_with (t : option string) (at_ : string) (m : ServerMirrorJSON) : ServerMirrorJSON :=
  {| LastSyncedAt := at_; AwgConfRaw := AwgConfRaw m; AwgConfSha256 := AwgConfSha256 m;
     ClientsTable := match t with Some _ => t | None => ClientsTable m end;
     CaddyAdminConfig := CaddyAdminConfig m; ServerPrivateKey := ServerPrivateKey m |}.

(** The callback of [RemovePeerByPublicKey]: an empty result is a nil slice
    and leaves the stored table as it is. *)
Definition without_client `{TableCodec} (key : string) (t : option string) : option string :=
  match t ≫= table_unmarshal with
  | Some entries =>
      match filter (fun e => ClientID e <> key) entries with
      | [] => None
      | updated => Some (table_marshal updated)
      end
  | None => None
  end.

Definition mirror_add_peer `{MirrorCodec} (table : option string) (now : string)
    (priv pub : string) (c : RootConfig) : RootConfig :=
  let mirror := match ParseServerMirror (ServerMirror c) with Ok m => m | _ => zero_mirror end in
  let c1 := set_ServerMirror (SerializeServerMirror (table_with table now mirror)) c in
  set_Tunnel (set_keys priv pub (Tunnel c1)) c1.

Definition mirror_remove_peer `{MirrorCodec, TableCodec} (key now : string) (c : RootConfig)
  : RootConfig :=
  match ParseServerMirror (ServerMirror c) with
  | Ok mirror =>
      set_ServerMirror
        (SerializeServerMirror (table_with (without_client key (ClientsTable mirror)) now mirror)) c
  | _ => c
  end.

Section Tunnel.
Context {C E : Type} `{ConfigManager C} `{SSHExecutor E} `{LocalHost E}.
Context `{TableCodec} `{MirrorCodec}.
Context (GOOS : goos) (awg : AWGCli) (sha256_hex : string -> string).

(** [ext] is everything outside the process.  Watchdog goroutines are numbered
    by their start: [wd] is the one [cancel] and [done] belong to, [live] the
    ones still running. *)
Record Manager := {
  cfgMgr : C; ext : E; running : bool; status : string;
  wd : option nat; live : list nat; next_wd : nat
}.

Definition NewManager (c : C) (e : E) : Manager :=
  {| cfgMgr := c; ext := e; running := false; status := "disconnected";
     wd := None; live := []; next_wd := 0 |}.

Definition with_cfg (c : C) (s : Manager) : Manager :=
  {| cfgMgr := c; ext := ext s; running := running s; status := status s;
     wd := wd s; live := live s; next_wd := next_wd s |}.
Definition with_ext (e : E) (s : Manager) : Manager :=
  {| cfgMgr := cfgMgr s; ext := e; running := running s; status := status s;
     wd := wd s; live := live s; next_wd := next_wd s |}.
Definition with_status (st : string) (s : Manager) : Manager :=
  {| cfgMgr := cfgMgr s; ext := ext s; running := running s; status := st;
     wd := wd s; live := live s; next_wd := next_wd s |}.
Definition with_running (r : bool) (s : Manager) : Manager :=
  {| cfgMgr := cfgMgr s; ext := ext s; running := r; status := status s;
     wd := wd s; live := live s; next_wd := next_wd s |}.

(** A call on the world outside. *)
Definition outside {A} (m : eff E A) : eff Manager A := on_part ext with_ext m.

(** An [Update] whose error is dropped. *)
Definition update (f : RootConfig -> RootConfig) : eff Manager unit :=
  _ ← try (on_part cfgMgr with_cfg (cfg_update f)); mret tt.

Definition config_now : eff Manager RootConfig := fun s => (Ok (cfg_get (cfgMgr s)), s).

Definition setStatus (st : string) : eff Manager unit :=
  _ ← modify (with_status st); update (set_tunnel_status st).

Definition fail {A} (msg : string) : eff Manager A :=
  _ ← modify (with_status "error");
  _ ← update (set_tunnel_status "error");
  throw ("tunnel: " +:+ msg).

(** [if err != nil { return m.fail(...) }] *)
Definition or_fail {A} (what : string) (m : eff E A) : eff Manager A := fun s =>
  match outside m s with
  | (Err e, s') => fail (what +:+ e) s'
  | r => r
  end.

Definition ConfigDir : eff E string :=
  home ← wrap "config: cannot determine home dir: " UserHomeDir;
  mret (home +:+ "/.unet").

Definition clientConfPath : eff E string := dir ← ConfigDir; mret (dir +:+ "/awg0").

Definition writeClientConf (p : ClientConfParams) : eff E string :=
  dir ← ConfigDir;
  _ ← wrap "write client conf: " (WriteFile (dir +:+ "/awg0.conf") (client_conf p));
  mret (dir +:+ "/awg0").

Definition hostnameDefault : eff E string :=
  r ← try Hostname;
  mret (match r with Ok h => or_default h "unet-client" | _ => "unet-client" end).

Definition keypair (t : TunnelConfig) : eff Manager (string * string) :=
  if decide (Plain (PrivateKey t) = EmptyString \/ PublicKey t = EmptyString)
  then or_fail "generate keypair: " (GenerateKeyPair awg)
  else mret (Plain (PrivateKey t), PublicKey t).

Definition local_ip (t : TunnelConfig) (subnet : string) (peers : list PeerDumpEntry)
  : eff Manager string :=
  if decide (LocalIP t = EmptyString)
  then or_fail "allocate IP: " (fun e => (AllocateNextIP subnet peers, e))
  else mret (LocalIP t).

Definition peer_params (vps : VPSConfig) (pub ip psk name : string) : AddPeerParams :=
  {| ap_VPS := vps; ap_Interface := "awg0"; ap_ClientPublicKey := pub; ap_ClientIP := ip;
     ap_PresharedKey := psk; ap_ClientName := name; ap_PersistentKeepalive := 25 |}.

Definition add_peer_now (vps : VPSConfig) (pub ip psk : string) : eff E AddPeerResult :=
  name ← hostnameDefault;
  now ← NowRFC3339;
  AddPeer (peer_params vps pub ip psk name) now.

(** Step 4: nothing if the key is on the server already. *)
Definition ensure_peer (vps : VPSConfig) (srv : ServerConfig) (pub ip : string)
  : eff Manager (option string) :=
  if existsb (fun p => bool_decide (pd_PublicKey p = pub)) (Peers srv) then mret None
  else r ← or_fail "add peer: " (add_peer_now vps pub ip (sc_PresharedKey srv));
       mret (Some (ClientsTableJSON r)).

Definition discover : eff E string :=
  r ← try (DiscoverInterface GOOS awg "awg0");
  mret (match r with Ok n => n | _ => "awg0" end).

Definition startWatchdog : eff Manager unit := modify (fun s =>
  {| cfgMgr := cfgMgr s; ext := ext s; running := running s; status := status s;
     wd := Some (next_wd s); live := live s ++ [next_wd s]; next_wd := S (next_wd s) |}).

(** The guard of [Connect], under the mutex. *)
Definition connect_begin : eff Manager unit := fun s =>
  if running s then (Err "tunnel: already connected or connecting", s)
  else setStatus "connecting" s.

(** The rest of [Connect], without the mutex. *)
Definition connect_rest : eff Manager unit :=
  cfg ← config_now;
  let vps := VPS cfg in let t := Config.Tunnel cfg in
  if decide (Host vps = EmptyString) then fail "VPS host not configured" else
  if negb (IsProvisioned vps) then fail "VPS not provisioned" else
  srv ← or_fail "fetch server state: " (FetchAll sha256_hex vps "awg0");
  '(priv, pub) ← keypair t;
  let subnet := deriveSubnet (sc_Address srv) in
  if decide (subnet = EmptyString) then fail "could not derive subnet from server address" else
  ip ← local_ip t subnet (Peers srv);
  table ← ensure_peer vps srv pub ip;
  let endpoint := Host vps +:+ ":" +:+ Itoa (ListenPort srv) in
  path ← or_fail "write client conf: " (writeClientConf
    {| cc_InterfaceName := "awg0"; cc_PrivateKey := priv; cc_Address := ip +:+ "/24";
       cc_ServerPublicKey := sc_ServerPublicKey srv; cc_Endpoint := endpoint;
       cc_PresharedKey := sc_PresharedKey srv; cc_MTU := 1280; cc_PersistentKeepalive := 25;
       cc_Obfuscation := sc_Obfuscation srv |});
  _ ← or_fail "awg-quick up: " (Up awg path);
  name ← outside discover;
  at_ ← outside NowRFC3339;
  synced ← outside NowRFC3339;
  _ ← update (session_config
    {| ss_iface := name; ss_subnet := subnet; ss_localIP := ip; ss_endpoint := endpoint;
       ss_server := srv; ss_privKey := priv; ss_pubKey := pub; ss_table := table;
       ss_connectedAt := at_; ss_syncedAt := synced |});
  _ ← startWatchdog;
  modify (fun s => with_status "connected" (with_running true s)).

Definition Connect : eff Manager unit := _ ← connect_begin; connect_rest.

(** Cancels the current watchdog and waits for it. *)
Definition stop_watchdog : eff Manager unit := modify (fun s =>
  {| cfgMgr := cfgMgr s; ext := ext s; running := running s; status := status s;
     wd := wd s; live := filter (fun i => Some i <> wd s) (live s); next_wd := next_wd s |}).

Definition set_disconnected (c : RootConfig) : RootConfig :=
  set_Tunnel (set_status "disconnected" EmptyString (Config.Tunnel c)) c.

Definition Disconnect : eff Manager unit := fun s =>
  if negb (running s) then (Ok tt, s) else
  (_ ← stop_watchdog;
   path ← try (outside clientConfPath);
   _ ← (match path with
        | Ok p => _ ← try (outside (Down awg p)); mret tt
        | _ => mret tt
        end : eff Manager unit);
   _ ← update set_disconnected;
   modify (fun s => with_status "disconnected" (with_running false s))) s.

Definition Status : Manager -> string := status.
Definition IsConnected : Manager -> bool := running.

(** [s[:16]] *)
Definition slice16 (s : string) : eff Manager string :=
  if decide (slen s < 16) then panic "slice bounds out of range [:16]" else mret (stake 16 s).

Definition CheckDrift : eff Manager unit :=
  cfg ← config_now;
  mirror ← wrap "tunnel: parse mirror: " (lift (ParseServerMirror (ServerMirror cfg)));
  if decide (AwgConfSha256 mirror = EmptyString) then mret tt else
  remoteHash ← wrap "tunnel: fetch remote hash: " (outside (FetchConfHash (VPS cfg)));
  if decide (remoteHash = AwgConfSha256 mirror) then mret tt else
  r ← slice16 remoteHash;
  l ← slice16 (AwgConfSha256 mirror);
  throw ("tunnel: drift detected (remote=" +:+ r +:+ " local=" +:+ l +:+ ")").

Definition watchdogTick : eff Manager unit :=
  cfg ← config_now;
  ok ← outside (InterfaceExists awg (or_default (InterfaceName (Config.Tunnel cfg)) "awg0"));
  if negb ok then
    _ ← modify (with_status "error");
    update (set_tunnel_status "error")
  else (_ ← try CheckDrift; mret tt).

Definition AddPeerForRemote (name : string) : eff Manager string :=
  cfg ← config_now;
  let vps := VPS cfg in
  if decide (Host vps = EmptyString) then throw "tunnel: VPS not configured" else
  '(priv, pub) ← wrap "tunnel: generate keypair: " (outside (GenerateKeyPair awg));
  srv ← wrap "tunnel: fetch server state: " (outside (FetchAll sha256_hex vps "awg0"));
  let subnet := deriveSubnet (sc_Address srv) in
  if decide (subnet = EmptyString) then throw "tunnel: could not derive subnet" else
  ip ← wrap "tunnel: allocate IP: " (lift (AllocateNextIP subnet (Peers srv)));
  result ← wrap "tunnel: add peer: " (outside
    (now ← NowRFC3339; AddPeer (peer_params vps pub ip (sc_PresharedKey srv) name) now));
  now ← outside NowRFC3339;
  _ ← update (mirror_add_peer (Some (ClientsTableJSON result)) now priv pub);
  mret pub.

Definition RemovePeerByPublicKey (publicKey : string) : eff Manager unit :=
  cfg ← config_now;
  let vps := VPS cfg in
  if decide (Host vps = EmptyString) then throw "tunnel: VPS not configured" else
  _ ← wrap "tunnel: remove peer: " (outside (RemovePeer
        {| rp_VPS := vps; rp_Interface := "awg0"; rp_ClientPublicKey := publicKey |}));
  now ← outside NowRFC3339;
  update (mirror_remove_peer publicKey now).

(** ** Lemmas *)

Context `{!ConfigManagerLaws C} `{!LocalHostLaws E}.

Lemma update_spec f s : exists c, update f s = (Ok tt, with_cfg c s) /\
  (cfg_get c = f (cfg_get (cfgMgr s)) \/ cfg_get c = cfg_get (cfgMgr s)).
Proof.
  unfold update, mbind, eff_bind, try, on_part.
  pose proof (cfg_update_cases f (cfgMgr s)) as Hc.
  pose proof (cfg_update_total f (cfgMgr s)) as (r & c & Eq & Hp).
  rewrite Eq in *. exists c. destruct r as [[]|e|p]; simpl; try done. by destruct (Hp p).
Qed.

Lemma update_world f s r s' : update f s = (r, s') -> cfgMgr s' = snd (cfg_update f (cfgMgr s)).
Proof.
  unfold update, mbind, eff_bind, try, on_part. destruct (cfg_update f (cfgMgr s)) as [[x|e|p] c];
    by intros [= <- <-].
Qed.

(** The configurations differ at most in the tunnel's status. *)
Definition same_but_status (c c' : RootConfig) : Prop := exists st, c' = set_tunnel_status st c.

Lemma same_but_status_refl c : same_but_status c c.
Proof. exists (Config.Status (Config.Tunnel c)). by destruct c as [? []]. Qed.

Lemma same_but_status_trans c1 c2 c3 :
  same_but_status c1 c2 -> same_but_status c2 c3 -> same_but_status c1 c3.
Proof. intros [st ->] [st' ->]. by exists st'. Qed.

(** What [connect_rest] leaves behind, started in [s0]. *)
Definition connect_done (s0 : Manager) (r : result unit) (s' : Manager) : Prop :=
  match r with
  | Ok _ =>
      running s' = true /\ status s' = "connected" /\ wd s' = Some (next_wd s0) /\
      live s' = live s0 ++ [next_wd s0] /\ next_wd s' = S (next_wd s0) /\
      (same_but_status (cfg_get (cfgMgr s0)) (cfg_get (cfgMgr s')) \/
       exists ss, cfg_get (cfgMgr s') = session_config ss (cfg_get (cfgMgr s0)))
  | Err _ =>
      running s' = running s0 /\ status s' = "error" /\ wd s' = wd s0 /\ live s' = live s0 /\
      next_wd s' = next_wd s0 /\ same_but_status (cfg_get (cfgMgr s0)) (cfg_get (cfgMgr s'))
  | Panic _ => False
  end.

(** [m] meets it from [s0], whatever has happened outside meanwhile. *)
Definition connect_post (s0 : Manager) (m : eff Manager unit) : Prop := forall e,
  let '(r, s') := m (with_ext e s0) in connect_done s0 r s'.

Lemma post_fail s0 msg : connect_post s0 (fail msg).
Proof.
  intros e. unfold fail, mbind, eff_bind. simpl.
  destruct (update_spec (set_tunnel_status "error") (with_status "error" (with_ext e s0)))
    as (c & -> & Hc). simpl. split_and!; try done.
  destruct Hc as [->| ->]; [by eexists|apply same_but_status_refl].
Qed.

(** [m] only acts outside, or fails. *)
Definition connect_step {A} (m : eff Manager A) : Prop := forall s0 (k : A -> eff Manager unit),
  (forall a, connect_post s0 (k a)) -> connect_post s0 (mbind k m).

Lemma step_ret {A} (a : A) : connect_step (mret a).
Proof. intros s0 k Hk e. apply Hk. Qed.

Lemma step_or_fail {A} what (m : eff E A) : no_panic m -> connect_step (or_fail what m).
Proof.
  intros Hm s0 k Hk e. unfold mbind, eff_bind, or_fail, outside, on_part. simpl.
  specialize (Hm e). destruct (m e) as [[a|msg|p] e']; simpl.
  - apply (Hk a e').
  - pose proof (post_fail s0 (what +:+ msg) e') as Hf. unfold fail, mbind, eff_bind in *.
    simpl in *. by destruct (update _ _) as [[] s'].
  - by destruct (Hm p).
Qed.

Lemma step_outside {A} (m : eff E A) : (forall e, is_ok (fst (m e)) = true) ->
  connect_step (outside m).
Proof.
  intros Hm s0 k Hk e. unfold mbind, eff_bind, outside, on_part. simpl.
  specialize (Hm e). destruct (m e) as [[a|msg|p] e']; simpl in *; [|done..]. apply (Hk a e').
Qed.

Lemma step_bind {A B} (m : eff Manager A) (k : A -> eff Manager B) :
  connect_step m -> (forall a, connect_step (k a)) -> connect_step (mbind k m).
Proof.
  intros Hm Hk s0 k' Hk' e.
  pose proof (Hm s0 (fun a => mbind k' (k a)) (fun a => Hk a s0 k' Hk') e) as Hpost.
  unfold mbind, eff_bind in *. by destruct (m _) as [[a|msg|p] s'].
Qed.

Lemma no_panic_ConfigDir : no_panic ConfigDir.
Proof. apply no_panic_bind; auto with unet. Qed.

Lemma no_panic_writeClientConf p : no_panic (writeClientConf p).
Proof.
  apply no_panic_bind; [apply no_panic_ConfigDir|]. intros dir.
  apply no_panic_bind; auto with unet.
Qed.

Lemma no_panic_add_peer_now vps pub ip psk : no_panic (add_peer_now vps pub ip psk).
Proof.
  apply no_panic_bind; [apply no_panic_bind; auto with unet|]. intros name.
  apply no_panic_bind; auto with unet.
Qed.

Lemma discover_ok e : is_ok (fst (discover e)) = true.
Proof.
  unfold discover, mbind, eff_bind, try.
  pose proof (no_panic_DiscoverInterface GOOS awg "awg0" e) as Hp.
  destruct (DiscoverInterface _ _ _ _) as [[| |p] e']; simpl; try done. by destruct (Hp p).
Qed.

Lemma step_keypair t : connect_step (keypair t).
Proof.
  unfold keypair. case_decide; [apply step_or_fail; auto with unet|apply step_ret].
Qed.

Lemma step_local_ip t subnet peers : connect_step (local_ip t subnet peers).
Proof.
  unfold local_ip. case_decide; [apply step_or_fail|apply step_ret].
  intros e p. apply AllocateNextIP_total.
Qed.

Lemma step_ensure_peer vps srv pub ip : connect_step (ensure_peer vps srv pub ip).
Proof.
  unfold ensure_peer. destruct (existsb _ _); [apply step_ret|].
  apply step_bind; [apply step_or_fail, no_panic_add_peer_now|intros; apply step_ret].
Qed.

(** The last steps: store the session, start the watchdog. *)
Lemma post_finish s0 ss :
  connect_post s0 (_ ← update (session_config ss); _ ← startWatchdog;
                   modify (fun s => with_status "connected" (with_running true s))).
Proof.
  intros e. unfold mbind, eff_bind at 1.
  destruct (update_spec (session_config ss) (with_ext e s0)) as (c & -> & Hc). simpl.
  split_and!; try done. destruct Hc as [->| ->]; eauto using same_but_status_refl.
Qed.

Lemma connect_rest_post s0 : connect_post s0 connect_rest.
Proof.
  intros e. unfold connect_rest at 1. unfold mbind at 1, eff_bind at 1. unfold config_now at 1.
  cbv zeta. case_decide; [apply post_fail|]. destruct (negb _); [apply post_fail|].
  apply step_or_fail; [auto with unet|]. intros srv.
  apply step_keypair. intros [priv pub]. case_decide; [apply post_fail|].
  apply step_local_ip. intros ip. apply step_ensure_peer. intros table.
  apply step_or_fail; [apply no_panic_writeClientConf|]. intros path.
  apply step_or_fail; [auto with unet|]. intros [].
  apply step_outside; [apply discover_ok|]. intros name.
  apply step_outside; [apply NowRFC3339_ok|]. intros at_. apply step_outside; [apply NowRFC3339_ok|]. intros synced.
  apply post_finish.
Qed.

(** *** What a successful connection has negotiated *)

(** The keys and the address of the configuration, or new ones. *)
Definition keys_of (t : TunnelConfig) (e : E) (keys : string * string) (e' : E) : Prop :=
  let missing := Plain (PrivateKey t) = EmptyString \/ PublicKey t = EmptyString in
  (missing /\ GenerateKeyPair awg e = (Ok keys, e')) \/
  (~ missing /\ keys = (Plain (PrivateKey t), PublicKey t) /\ e' = e).
Definition address_of (t : TunnelConfig) (subnet : string) (peers : list PeerDumpEntry) (ip : string) : Prop :=
  (LocalIP t = EmptyString /\ AllocateNextIP subnet peers = Ok ip) \/
  (LocalIP t <> EmptyString /\ ip = LocalIP t).

(** The session [ss] comes from the configuration [cfg] and the calls outside,
    one after the other from [e]: the server read, the keys stored or new, the
    address stored or the next free one, the client registered unless the
    server had its key, the client's file written and the interface brought up
    from it. *)
Definition negotiated (cfg : RootConfig) (e : E) (ss : Session) : Prop :=
  let t := Config.Tunnel cfg in
  exists e1 e2 e3 e4 e5 path,
    FetchAll sha256_hex (VPS cfg) "awg0" e = (Ok (ss_server ss), e1) /\
    keys_of t e1 (ss_privKey ss, ss_pubKey ss) e2 /\
    ss_subnet ss = deriveSubnet (sc_Address (ss_server ss)) /\ ss_subnet ss <> EmptyString /\
    address_of t (ss_subnet ss) (Peers (ss_server ss)) (ss_localIP ss) /\
    (if existsb (fun p => bool_decide (pd_PublicKey p = ss_pubKey ss)) (Peers (ss_server ss))
     then ss_table ss = None /\ e3 = e2
     else exists r, add_peer_now (VPS cfg) (ss_pubKey ss) (ss_localIP ss) (sc_PresharedKey (ss_server ss)) e2
                      = (Ok r, e3) /\ ss_table ss = Some (ClientsTableJSON r)) /\
    ss_endpoint ss = Host (VPS cfg) +:+ ":" +:+ Itoa (ListenPort (ss_server ss)) /\
    writeClientConf
      {| cc_InterfaceName := "awg0"; cc_PrivateKey := ss_privKey ss; cc_Address := ss_localIP ss +:+ "/24";
         cc_ServerPublicKey := sc_ServerPublicKey (ss_server ss); cc_Endpoint := ss_endpoint ss;
         cc_PresharedKey := sc_PresharedKey (ss_server ss); cc_MTU := 1280; cc_PersistentKeepalive := 25;
         cc_Obfuscation := sc_Obfuscation (ss_server ss) |} e3 = (Ok path, e4) /\
    Up awg path e4 = (Ok tt, e5) /\
    fst (discover e5) = Ok (ss_iface ss).

Lemma or_fail_inv {A} what (m : eff E A) s a s' : or_fail what m s = (Ok a, s') ->
  exists e, m (ext s) = (Ok a, e) /\ s' = with_ext e s.
Proof.
  unfold or_fail, outside, on_part. destruct (m (ext s)) as [[x|msg|p] e]; [|..|done].
  - intros [= <- <-]. eauto.
  - unfold fail, mbind, eff_bind. cbn. by destruct (update _ _) as [[] ?].
Qed.

Lemma outside_inv {A} (m : eff E A) s a s' : outside m s = (Ok a, s') ->
  exists e, m (ext s) = (Ok a, e) /\ s' = with_ext e s.
Proof. unfold outside, on_part. destruct (m (ext s)) as [r e]. intros [= -> <-]. eauto. Qed.

Lemma fail_inv {A} msg s (a : A) s' : fail msg s = (Ok a, s') -> False.
Proof. unfold fail, mbind, eff_bind. cbn. by destruct (update _ _) as [[] ?]. Qed.

Lemma keypair_inv t s keys s' : keypair t s = (Ok keys, s') ->
  exists e, s' = with_ext e s /\ keys_of t (ext s) keys e.
Proof.
  unfold keypair, keys_of. case_decide; [intros (e & ? & ->)%or_fail_inv; eauto|].
  intros [= <- <-]. exists (ext s). destruct s. auto.
Qed.

Lemma local_ip_inv t subnet peers s ip s' : local_ip t subnet peers s = (Ok ip, s') ->
  s' = s /\ address_of t subnet peers ip.
Proof.
  unfold local_ip, address_of. case_decide; [|intros [= <- <-]; auto].
  intros (e & [= ? <-] & ->)%or_fail_inv. destruct s. auto.
Qed.

Lemma ensure_peer_inv vps srv pub ip s table s' : ensure_peer vps srv pub ip s = (Ok table, s') ->
  exists e, s' = with_ext e s /\
    if existsb (fun p => bool_decide (pd_PublicKey p = pub)) (Peers srv) then table = None /\ e = ext s
    else exists r, add_peer_now vps pub ip (sc_PresharedKey srv) (ext s) = (Ok r, e) /\
                   table = Some (ClientsTableJSON r).
Proof.
  unfold ensure_peer. destruct (existsb _ _).
  - intros [= <- <-]. exists (ext s). destruct s. auto.
  - intros (r & s5 & J4 & [= <- <-])%bind_ok_inv. apply or_fail_inv in J4 as (e & J4 & ->). eauto.
Qed.

Lemma connect_rest_ok s s' : connect_rest s = (Ok tt, s') ->
  exists ss, negotiated (cfg_get (cfgMgr s)) (ext s) ss /\
             cfgMgr s' = snd (cfg_update (session_config ss) (cfgMgr s)).
Proof.
  intros Hx. unfold connect_rest in Hx. apply bind_ok_inv in Hx as (cfg & s0 & J0 & Hx). injection J0 as <- <-.
  cbv zeta in Hx. case_decide; [by apply fail_inv in Hx|]. destruct (negb _); [by apply fail_inv in Hx|].
  apply bind_ok_inv in Hx as (srv & s1 & J1 & Hx). apply or_fail_inv in J1 as (e1 & J1 & ->).
  apply bind_ok_inv in Hx as ([priv pub] & s2 & J2 & Hx).
  apply keypair_inv in J2 as (e2 & -> & K2).
  case_decide; [by apply fail_inv in Hx|].
  apply bind_ok_inv in Hx as (ip & s3 & J3 & Hx).
  apply local_ip_inv in J3 as [-> K3].
  apply bind_ok_inv in Hx as (table & s4 & J4 & Hx).
  apply ensure_peer_inv in J4 as (e3 & -> & K4).
  apply bind_ok_inv in Hx as (path & s5 & J5 & Hx). apply or_fail_inv in J5 as (e4 & J5 & ->).
  apply bind_ok_inv in Hx as ([] & s6 & J6 & Hx). apply or_fail_inv in J6 as (e5 & J6 & ->).
  apply bind_ok_inv in Hx as (name & s7 & J7 & Hx). apply outside_inv in J7 as (e6 & J7 & ->).
  apply bind_ok_inv in Hx as (at_ & s8 & J8 & Hx). apply outside_inv in J8 as (e7 & J8 & ->).
  apply bind_ok_inv in Hx as (synced & s9 & J9 & Hx). apply outside_inv in J9 as (e8 & J9 & ->).
  apply bind_ok_inv in Hx as ([] & s10 & J10 & Hx). apply update_world in J10. injection Hx as <-.
  match type of J10 with _ = snd (cfg_update (session_config ?x) _) => exists x end.
  split; [|exact J10]. exists e1, e2, e3, e4, e5, path. cbn in *. split_and!; try done. by rewrite J7.
Qed.

Lemma with_ext_id s : with_ext (ext s) s = s.
Proof. by destruct s. Qed.

Lemma connect_rest_done s : let '(r, s') := connect_rest s in connect_done s r s'.
Proof. pose proof (connect_rest_post s (ext s)) as Hp. by rewrite with_ext_id in Hp. Qed.

Lemma connect_begin_spec s : running s = false ->
  exists c, connect_begin s = (Ok tt, with_cfg c (with_status "connecting" s)) /\
    same_but_status (cfg_get (cfgMgr s)) (cfg_get c).
Proof.
  intros Hr. unfold connect_begin, setStatus, mbind, eff_bind. rewrite Hr. simpl.
  destruct (update_spec (set_tunnel_status "connecting") (with_status "connecting" s))
    as (c & -> & Hc). exists c. split; [done|].
  destruct Hc as [->| ->]; [by eexists|apply same_but_status_refl].
Qed.

Lemma connect_done_before s c r s' :
  same_but_status (cfg_get (cfgMgr s)) (cfg_get c) ->
  connect_done (with_cfg c (with_status "connecting" s)) r s' -> connect_done s r s'.
Proof.
  intros Hc. destruct r as [[]|e|p]; simpl; [|naive_solver eauto using same_but_status_trans|done].
  intros (? & ? & ? & ? & ? & Hcfg). split_and!; try done.
  destruct Hcfg as [Hcfg|[ss Hcfg]]; [left; by eapply same_but_status_trans|right].
  exists ss. rewrite Hcfg. by destruct Hc as [st ->].
Qed.

Lemma connect_spec s : running s = false ->
  let '(r, s') := Connect s in connect_done s r s'.
Proof.
  intros Hr. unfold Connect, mbind, eff_bind.
  destruct (connect_begin_spec s Hr) as (c & -> & Hc). simpl.
  pose proof (connect_rest_done (with_cfg c (with_status "connecting" s))) as Hp.
  destruct (connect_rest _) as [r s']. by eapply connect_done_before.
Qed.

(** [m] leaves the session alone: it acts outside and on the configuration. *)
Definition keeps_session {A} (m : eff Manager A) : Prop := forall s,
  exists c e, snd (m s) = with_cfg c (with_ext e s).

Lemma keeps_session_const {A} (r : result A) : keeps_session (fun s => (r, s)).
Proof. intros s. exists (cfgMgr s), (ext s). by destruct s. Qed.

Lemma keeps_session_bind {A B} (m : eff Manager A) (k : A -> eff Manager B) :
  keeps_session m -> (forall a, keeps_session (k a)) -> keeps_session (mbind k m).
Proof.
  intros Hm Hk s. destruct (Hm s) as (c & e & Hs). unfold mbind, eff_bind.
  destruct (m s) as [[a|msg|p] s']; simpl in *; eauto.
  destruct (Hk a s') as (c' & e' & ->). subst. eauto.
Qed.

Lemma keeps_session_wrap {A} pre (m : eff Manager A) : keeps_session m -> keeps_session (wrap pre m).
Proof.
  intros Hm s. destruct (Hm s) as (c & e & Hs). unfold wrap.
  destruct (m s) as [r s']. simpl in *. eauto.
Qed.

Lemma keeps_session_try {A} (m : eff Manager A) : keeps_session m -> keeps_session (try m).
Proof.
  intros Hm s. destruct (Hm s) as (c & e & Hs). unfold try.
  destruct (m s) as [[] s']; simpl in *; eauto.
Qed.

Lemma keeps_session_outside {A} (m : eff E A) : keeps_session (outside m).
Proof.
  intros s. unfold outside, on_part. destruct (m (ext s)) as [r e]. simpl.
  exists (cfgMgr s), e. by destruct s.
Qed.

Lemma keeps_session_update f : keeps_session (update f).
Proof.
  intros s. destruct (update_spec f s) as (c & -> & _). exists c, (ext s). by destruct s.
Qed.

Lemma keeps_session_config_now : keeps_session config_now.
Proof. intros s. exists (cfgMgr s), (ext s). by destruct s. Qed.

Ltac keeps := repeat (first
  [ apply keeps_session_config_now | apply keeps_session_update | apply keeps_session_outside
  | apply keeps_session_bind; [|intros ?] | apply keeps_session_wrap | apply keeps_session_try
  | apply keeps_session_const
  | case_decide | case_match ]).

Lemma keeps_CheckDrift : keeps_session CheckDrift.
Proof. unfold CheckDrift. keeps. all: unfold slice16; keeps. Qed.

Lemma keeps_AddPeerForRemote name : keeps_session (AddPeerForRemote name).
Proof. unfold AddPeerForRemote. keeps. Qed.

Lemma keeps_RemovePeer key : keeps_session (RemovePeerByPublicKey key).
Proof. unfold RemovePeerByPublicKey. keeps. Qed.

(** A tick leaves everything but the status. *)
Lemma watchdogTick_spec s : exists c e st, snd (watchdogTick s) = with_cfg c (with_ext e (with_status st s)).
Proof.
  unfold watchdogTick. unfold mbind at 1, eff_bind at 1. simpl.
  unfold mbind at 1, eff_bind at 1.
  destruct (keeps_session_outside (InterfaceExists awg
    (or_default (InterfaceName (Config.Tunnel (cfg_get (cfgMgr s)))) "awg0")) s) as (c & e & Hs).
  destruct (outside _ s) as [[[|]|msg|p] s1]; simpl in *; subst;
    [|unfold mbind, eff_bind; simpl|exists c, e, (status s); by destruct s..].
  - assert (keeps_session (_ ← try CheckDrift; mret tt)) as Hk by (apply keeps_session_bind; [apply keeps_session_try, keeps_CheckDrift|intros; apply keeps_session_const]).
    destruct (Hk (with_cfg c (with_ext e s))) as (c' & e' & ->).
    exists c', e', (status s). by destruct s.
  - destruct (update_spec (set_tunnel_status "error")
      (with_status "error" (with_cfg c (with_ext e s)))) as (c' & -> & _).
    exists c', e, "error". by destruct s.
Qed.

Lemma disconnect_spec s : running s = true ->
  exists c e, Disconnect s = (Ok tt, with_cfg c (with_ext e (with_status "disconnected"
                (with_running false (snd (stop_watchdog s)))))) /\
    (cfg_get c = set_disconnected (cfg_get (cfgMgr s)) \/ cfg_get c = cfg_get (cfgMgr s)).
Proof.
  intros Hr. unfold Disconnect. rewrite Hr. simpl. unfold mbind at 1, eff_bind at 1. simpl.
  assert (exists e2 p, try (outside clientConfPath) (snd (stop_watchdog s)) =
            (Ok p, with_ext e2 (snd (stop_watchdog s)))) as (e2 & p & Hp).
  { unfold try, outside, on_part, clientConfPath. simpl.
    pose proof (no_panic_bind ConfigDir (fun dir => mret (dir +:+ "/awg0") : eff E string)
      no_panic_ConfigDir (fun _ => no_panic_ret _) (ext s)) as Hn.
    destruct (mbind _ ConfigDir (ext s)) as [[q|q|q] e2]; simpl; eauto. by destruct (Hn q). }
  unfold mbind at 1, eff_bind at 1. simpl in Hp. rewrite Hp. clear Hp.
  set (s2 := with_ext e2 _).
  assert (exists e3, (match p with
        | Ok p => _ ← try (outside (Down awg p)); mret tt
        | _ => mret tt
        end : eff Manager unit) s2 = (Ok tt, with_ext e3 s2)) as (e3 & Hd).
  { destruct p as [p|msg|msg]; [|exists e2; by destruct s..].
    unfold mbind, eff_bind, try, outside, on_part. pose proof (no_panic_Down awg p (ext s2)) as Hn.
    destruct (Down awg p (ext s2)) as [[q|q|q] e3]; simpl; eauto. by destruct (Hn q). }
  unfold mbind at 1, eff_bind at 1. rewrite Hd. unfold mbind at 1, eff_bind at 1.
  destruct (update_spec set_disconnected (with_ext e3 s2)) as (c & -> & Hc).
  exists c, e3. split; [|exact Hc]. by destruct s.
Qed.

(** ** Properties *)

(** One step of a session: a whole call, a tick of a running watchdog, or
    something outside. *)
Inductive session_step (s : Manager) : Manager -> Prop :=
  | step_connect : session_step s (snd (Connect s))
  | step_disconnect : session_step s (snd (Disconnect s))
  | step_add_peer name : session_step s (snd (AddPeerForRemote name s))
  | step_remove_peer key : session_step s (snd (RemovePeerByPublicKey key s))
  | step_tick i : i ∈ live s -> session_step s (snd (watchdogTick s))
  | step_world e : session_step s (with_ext e s).

Definition session_inv (s : Manager) : Prop :=
  if running s then exists i, wd s = Some i /\ live s = [i] else live s = [].

(** C3: the outcome of [Connect] on a tunnel that is not up.  On success it is
    up, with exactly one more watchdog; the interface was brought up from a
    file with the keys, address and endpoint of a session negotiated with the
    server, and exactly that session has been handed to the configuration,
    which holds it or, if storing failed, at most a new status.  On failure it
    is down, no watchdog was started, and at most the status in the
    configuration changed.  It never panics. *)
Theorem connect_outcome s : running s = false ->
  let '(r, s') := Connect s in connect_done s r s' /\
  (r = Ok tt -> exists c ss, same_but_status (cfg_get (cfgMgr s)) (cfg_get c) /\
     negotiated (cfg_get c) (ext s) ss /\ cfgMgr s' = snd (cfg_update (session_config ss) c) /\
     (fst (cfg_update (session_config ss) c) = Ok tt -> cfg_get (cfgMgr s') = session_config ss (cfg_get c))).
Proof.
  intros Hr. pose proof (connect_spec s Hr) as Hd. unfold Connect, mbind, eff_bind in *.
  destruct (connect_begin_spec s Hr) as (c & Hb & Hc). rewrite Hb in *.
  destruct (connect_rest _) as [r s'] eqn:Ec. split; [exact Hd|]. intros ->.
  apply connect_rest_ok in Ec as (ss & Hn & Hs). exists c, ss. split_and!; [done..|].
  intros Hok. cbn in Hs. rewrite Hs. destruct (cfg_update _ c) as [u c'] eqn:Eu. cbn in Hok. subst u.
  exact (cfg_update_ok _ _ _ Eu).
Qed.

(** C12: when calls do not overlap, one watchdog runs while the tunnel is up and
    none while it is down, in every reachable state. *)
Theorem one_watchdog c e s : star session_step (NewManager c e) s -> session_inv s.
Proof.
  apply star_inv_ind; [|done]. intros s1 s2 Hinv. destruct 1.
  - destruct (running s1) eqn:Hr.
    + unfold Connect, connect_begin, mbind, eff_bind. by rewrite Hr.
    + pose proof (connect_spec s1 Hr) as Hc. destruct (Connect s1) as [r s2].
      unfold session_inv in *. rewrite Hr in Hinv. destruct r as [[]|msg|p]; simpl in *; [| |done].
      * destruct Hc as (-> & _ & -> & -> & _). rewrite Hinv. by eexists.
      * destruct Hc as (-> & _ & _ & -> & _). by rewrite Hr.
  - destruct (running s1) eqn:Hr; [|unfold Disconnect; by rewrite Hr].
    destruct (disconnect_spec s1 Hr) as (c' & e' & -> & _).
    unfold session_inv in *. rewrite Hr in Hinv. destruct Hinv as (i & Hw & Hl). simpl.
    rewrite Hw, Hl, filter_cons_False; [done|]. intros Hne. by apply Hne.
  - destruct (keeps_AddPeerForRemote name s1) as (c' & e' & ->). exact Hinv.
  - destruct (keeps_RemovePeer key s1) as (c' & e' & ->). exact Hinv.
  - destruct (watchdogTick_spec s1) as (c' & e' & st & ->). exact Hinv.
  - exact Hinv.
Qed.

(** Overlapping calls of [Connect] leak a watchdog.  The guard is passed
    twice because [running] is only set at the end; both calls then succeed,
    and after [Disconnect] reports the tunnel down a watchdog still runs. *)
Theorem double_connect_leaks s s1 s2 s3 s4 :
  running s = false ->
  connect_begin s = (Ok tt, s1) -> connect_begin s1 = (Ok tt, s2) ->
  connect_rest s2 = (Ok tt, s3) -> connect_rest s3 = (Ok tt, s4) ->
  let s5 := snd (Disconnect s4) in
  running s5 = false /\ status s5 = "disconnected" /\ next_wd s ∈ live s5.
Proof.
  intros Hr E1 E2 E3 E4.
  destruct (connect_begin_spec s Hr) as (c1 & Hb & _). rewrite Hb in E1. injection E1 as <-.
  destruct (connect_begin_spec (with_cfg c1 (with_status "connecting" s)) Hr) as (c2 & Hb2 & _).
  rewrite Hb2 in E2. injection E2 as <-.
  pose proof (connect_rest_done (with_cfg c2 (with_status "connecting" (with_cfg c1
    (with_status "connecting" s))))) as H3.
  rewrite E3 in H3. simpl in H3. destruct H3 as (_ & _ & _ & Hl3 & Hn3 & _).
  pose proof (connect_rest_done s3) as H4. rewrite E4 in H4.
  destruct H4 as (Hr4 & _ & Hw4 & Hl4 & _).
  destruct (disconnect_spec s4 Hr4) as (c & e & -> & _). simpl. split_and!; [done|done|].
  apply list_elem_of_filter. rewrite Hw4, Hl4, Hl3, Hn3. split; [|set_solver].
  intros [= Heq]. lia.
Qed.

(** Drift is reported exactly when the remote hash differs from the
    mirror's; the report itself panics when either hash is shorter than the
    sixteen bytes it prints. *)
Theorem check_drift_outcome s m h e :
  ParseServerMirror (ServerMirror (cfg_get (cfgMgr s))) = Ok m -> AwgConfSha256 m <> EmptyString ->
  FetchConfHash (VPS (cfg_get (cfgMgr s))) (ext s) = (Ok h, e) ->
  snd (CheckDrift s) = with_ext e s /\
  (fst (CheckDrift s) = Ok tt <-> h = AwgConfSha256 m) /\
  ((exists p, fst (CheckDrift s) = Panic p) <->
   h <> AwgConfSha256 m /\ (slen h < 16 \/ slen (AwgConfSha256 m) < 16)).
Proof.
  intros Hm Hne Hf. unfold CheckDrift, wrap, lift, mbind, eff_bind, outside, on_part. simpl.
  rewrite Hm. simpl. rewrite decide_False by done. rewrite Hf. simpl.
  destruct (decide (h = AwgConfSha256 m)) as [Heq|Hd]; simpl.
  - split; [done|]. split; [done|]. split; [by intros [p ?]|by intros [? _]].
  - unfold slice16. destruct (decide (slen h < 16)) as [Hs|Hs]; simpl; [naive_solver|].
    destruct (decide (slen (AwgConfSha256 m) < 16)) as [Hs'|Hs']; simpl; naive_solver.
Qed.

(** Removing a peer takes its entry, and only its entry, out of the mirrored
    clients table, as long as another client remains; the other parts of the
    configuration are untouched. *)
Theorem remove_peer_mirror key now c m entries e0 :
  ParseServerMirror (ServerMirror c) = Ok m ->
  (ClientsTable m ≫= table_unmarshal) = Some entries ->
  e0 ∈ entries -> ClientID e0 <> key ->
  let left := filter (fun e => ClientID e <> key) entries in
  let m' := table_with (Some (table_marshal left)) now m in
  mirror_marshal m' <> EmptyString -> mirror_unmarshal (mirror_marshal m') = Some m' ->
  table_unmarshal (table_marshal left) = Some left ->
  let c' := mirror_remove_peer key now c in
  ParseServerMirror (ServerMirror c') = Ok m' /\
  (ClientsTable m' ≫= table_unmarshal) = Some left /\
  set_ServerMirror (ServerMirror c) c' = c.
Proof.
  intros Hp Ht Hin Hkey left m' Hnz Hrt Htab. unfold mirror_remove_peer. rewrite Hp. cbv zeta.
  split; [|split; [exact Htab|by destruct c]].
  assert (without_client key (ClientsTable m) = Some (table_marshal left)) as ->.
  2:{ unfold ParseServerMirror. simpl. unfold SerializeServerMirror. fold m'.
      rewrite decide_False by apply Hnz. by rewrite Hrt. }
  unfold without_client. rewrite Ht. unfold left.
  assert (e0 ∈ filter (fun e => ClientID e <> key) entries) as Hf
    by (by apply list_elem_of_filter).
  destruct (filter _ entries) as [|x l] eqn:Hl; [by apply not_elem_of_nil in Hf|done].
Qed.

(** Removing the last client leaves it in the mirrored table: the filtered
    slice is nil, which the code takes for "nothing to store". *)
Theorem remove_last_peer_stale key now c m entries :
  ParseServerMirror (ServerMirror c) = Ok m ->
  (ClientsTable m ≫= table_unmarshal) = Some entries ->
  Forall (fun e => ClientID e = key) entries ->
  let m' := table_with (ClientsTable m) now m in
  mirror_marshal m' <> EmptyString -> mirror_unmarshal (mirror_marshal m') = Some m' ->
  ParseServerMirror (ServerMirror (mirror_remove_peer key now c)) = Ok m' /\
  (ClientsTable m' ≫= table_unmarshal) = Some entries.
Proof.
  intros Hp Ht Hall m' Hnz Hrt. assert (ClientsTable m' = ClientsTable m) as Hsame.
  { unfold m'. simpl. by destruct (ClientsTable m). }
  rewrite Hsame. split; [|done]. unfold mirror_remove_peer. rewrite Hp.
  assert (table_with (without_client key (ClientsTable m)) now m = m') as ->.
  2:{ unfold ParseServerMirror. simpl. unfold SerializeServerMirror.
      rewrite decide_False by apply Hnz. by rewrite Hrt. }
  unfold without_client, m'. rewrite Ht, gfilter_none; [by destruct m as [? ? ? []]|].
  eapply Forall_impl; [|exact Hall]. intros x <- Hx. by apply Hx.
Qed.
End Tunnel.

(** The obfuscation parameters are written behind the [Peer] header, so the
    program's own reader of such files finds none of them in [Interface]. *)
Theorem client_conf_loses_obfuscation :
  let obf := {| Jc := 4; Jmin := 40; Jmax := 70; S1 := 15; S2 := 16; S3 := 17; S4 := 18;
                H1 := 1; H2 := 2; H3 := 3; H4 := 4; I1 := 0; I2 := 0; I3 := 0; I4 := 0; I5 := 0 |} in
  parseInterfaceSection (client_conf
    {| cc_InterfaceName := "awg0"; cc_PrivateKey := "a2V5"; cc_Address := "10.8.1.2/24";
       cc_ServerPublicKey := "cHVi"; cc_Endpoint := "192.0.2.1:51820"; cc_PresharedKey := "cHNr";
       cc_MTU := 1280; cc_PersistentKeepalive := 25; cc_Obfuscation := obf |})
  = Ok ("10.8.1.2/24", 0%Z, zero_obfuscation).
Proof. vm_compute. reflexivity. Qed.

(** ** Witnesses *)

Section Witnesses.
(** A server whose files all read as one small configuration. *)
Definition echo_server : SSHExecutor unit := {|
  ExecuteCommand c w :=
    ((if Contains c "awg0.conf" then "[Interface]" +:+ nls +:+ "Address = 10.8.1.1/24" +:+ nls
      else "K", "", None), w);
  ExecuteScript _ w := (("", "", None), w)
|}.

(** Entries one per line, a name between two bars; enough for the examples. *)
Definition line_table : TableCodec :=
  let print l := Join (map ClientID l) "," in
  let read s := Some (map (fun k => {| ClientID := k;
                    cUserData := {| ClientName := ""; CreationDate := "" |} |}) (Split s ",")) in
  {| table_marshal_indent := print; table_marshal := print; table_unmarshal := read |}.

Definition table_mirror : MirrorCodec := {|
  mirror_marshal m := "{" +:+ default "" (ClientsTable m);
  mirror_unmarshal s := Some {| LastSyncedAt := ""; AwgConfRaw := ""; AwgConfSha256 := "feed";
    ClientsTable := Some (sdrop 1 s); CaddyAdminConfig := None; ServerPrivateKey := "" |}
|}.

Definition ready_config : RootConfig :=
  {| VPS := {| Host := "192.0.2.1"; SSHPort := 22; Username := ""; AuthMode := "";
               PrivateKeyPath := ""; Password := ""; IsProvisioned := true;
               ContainerName := ""; ImageBuildHash := "" |};
     Config.Tunnel := zero_tunnel; CaddyAPI := CaddyAPI (defaultConfig "");
     ExposedPorts := []; DNS := DNS (defaultConfig ""); Daemon := Daemon (defaultConfig "");
     RemoteAPI := RemoteAPI (defaultConfig ""); ServerMirror := "{A,B"; UIToken := "" |}.

Definition awg_cli : AWGCli := {| QuickPath := ""; AwgPath := "/usr/bin/awg" |}.

#[local] Existing Instance plain_config.
#[local] Existing Instance plain_config_laws.
#[local] Existing Instance echo_server.
#[local] Existing Instance line_table.
#[local] Existing Instance table_mirror.
#[local] Instance key_host : LocalHost unit := quiet_host "K".
#[local] Instance key_host_laws : LocalHostLaws unit := quiet_host_laws "K".

Definition ready : Manager := NewManager ready_config tt.
Definition w_connect := Connect (C := RootConfig) (E := unit) linux awg_cli id.
Definition w_begin := connect_begin (C := RootConfig) (E := unit).
Definition w_rest := connect_rest (C := RootConfig) (E := unit) linux awg_cli id.

Lemma connect_outcome_witness :
  is_ok (fst (w_connect ready)) = true /\
  let '(r, s') := w_connect ready in connect_done ready r s'.
Proof.
  split; [vm_compute; reflexivity|].
  pose proof (connect_outcome (C := RootConfig) (E := unit) linux awg_cli id ready eq_refl) as H.
  unfold w_connect. destruct (Connect linux awg_cli id ready) as [r s']. apply H.
Defined.

Lemma one_watchdog_witness : session_inv (snd (w_connect ready)).
Proof.
  apply (one_watchdog (C := RootConfig) (E := unit) linux awg_cli id ready_config tt).
  eapply star_snoc; [apply star_nil|]. apply step_connect.
Defined.

Lemma double_connect_leaks_witness :
  let s1 := snd (w_begin ready) in let s2 := snd (w_begin s1) in
  let s3 := snd (w_rest s2) in let s4 := snd (w_rest s3) in
  let s5 := snd (Disconnect awg_cli s4) in
  running s5 = false /\ status s5 = "disconnected" /\ 0 ∈ live s5.
Proof.
  intros s1 s2 s3 s4.
  apply (double_connect_leaks (C := RootConfig) (E := unit) linux awg_cli id ready s1 s2 s3 s4);
    vm_compute; reflexivity.
Defined.

Lemma check_drift_outcome_witness : exists p,
  fst (CheckDrift (C := RootConfig) (E := unit) ready) = Panic p.
Proof.
  edestruct (check_drift_outcome (C := RootConfig) (E := unit) id ready) as (_ & _ & Hp);
    [vm_compute; reflexivity|vm_compute; discriminate|vm_compute; reflexivity|].
  apply Hp. split; [vm_compute; discriminate|]. left. vm_compute. repeat constructor.
Defined.

Definition two_clients : list ClientEntry :=
  map (fun k => {| ClientID := k; cUserData := {| ClientName := ""; CreationDate := "" |} |}) ["A"; "B"].
Definition the_mirror (t : string) : ServerMirrorJSON :=
  {| LastSyncedAt := ""; AwgConfRaw := ""; AwgConfSha256 := "feed"; ClientsTable := Some t;
     CaddyAdminConfig := None; ServerPrivateKey := "" |}.

Lemma remove_peer_mirror_witness :
  exists m', ParseServerMirror (ServerMirror (mirror_remove_peer "A" "" ready_config)) = Ok m' /\
    (ClientsTable m' ≫= table_unmarshal) = Some (filter (fun e => ClientID e <> "A") two_clients) /\
    set_ServerMirror (ServerMirror ready_config) (mirror_remove_peer "A" "" ready_config) = ready_config.
Proof.
  eexists. apply (remove_peer_mirror "A" "" ready_config (the_mirror "A,B") two_clients
           {| ClientID := "B"; cUserData := {| ClientName := ""; CreationDate := "" |} |}).
  - vm_compute. reflexivity.
  - vm_compute. reflexivity.
  - apply elem_of_cons. right. apply elem_of_cons. left. reflexivity.
  - vm_compute. discriminate.
  - vm_compute. discriminate.
  - vm_compute. reflexivity.
  - vm_compute. reflexivity.
Defined.

Lemma remove_last_peer_stale_witness :
  exists m', ParseServerMirror (ServerMirror (mirror_remove_peer "A" ""
    (set_ServerMirror "{A" ready_config))) = Ok m' /\
    (ClientsTable m' ≫= table_unmarshal) = Some (take 1 two_clients).
Proof.
  eexists. apply (remove_last_peer_stale "A" "" (set_ServerMirror "{A" ready_config) (the_mirror "A")
           (take 1 two_clients)).
  - vm_compute. reflexivity.
  - vm_compute. reflexivity.
  - repeat constructor.
  - vm_compute. discriminate.
  - vm_compute. reflexivity.
Defined.
End Witnesses.
