(* ===== verification/Float64.v ===== *)
(** * float64: IEEE 754 binary64, computed by the kernel

    The Standard Library's [SpecFloat] gives the correctly rounded operations
    as functions on integers.  Fused multiply-add, which Go permits on some
    processors, is not used. *)

From Stdlib Require Import SpecFloat.
From S2P Require Import Prelude GoLib.

Definition f64 := spec_float.

Definition f_of_Z (z : Z) : f64 := binary_normalize 53 1024 z 0 false.
Definition f_add : f64 -> f64 -> f64 := SFadd 53 1024.
Definition f_sub : f64 -> f64 -> f64 := SFsub 53 1024.
Definition f_mul : f64 -> f64 -> f64 := SFmul 53 1024.
Definition f_div : f64 -> f64 -> f64 := SFdiv 53 1024.
Definition f_ltb : f64 -> f64 -> bool := SFltb.
Definition f_leb : f64 -> f64 -> bool := SFleb.

(** The decimal constant [n/d]: the nearest float. *)
Definition f_const (n d : Z) : f64 := f_div (f_of_Z n) (f_of_Z d).

(** [2^k] for [0 <= k], infinite from [2^1024] on. *)
Definition f_pow2 (k : Z) : f64 := if decide (1023 < k)%Z then S754_infinity false else f_of_Z (2 ^ k).

(** Truncation toward zero of a finite float. *)
Definition f_trunc (f : f64) : option Z :=
  match f with
  | S754_zero _ => Some 0%Z
  | S754_finite s m e =>
      let z := if decide (0 <= e)%Z then (Zpos m * 2 ^ e)%Z else (Zpos m / 2 ^ (- e))%Z in
      Some (if s then (- z)%Z else z)
  | _ => None
  end.

(** Conversion to [int64].  Out of range the language leaves the result open:
    [odd] is what the machine gives. *)
Definition f_to_int64 (odd : f64 -> Z) (f : f64) : Z :=
  match f_trunc f with
  | Some z => if decide (int64_min <= z <= int64_max)%Z then z else wrap64 (odd f)
  | None => wrap64 (odd f)
  end.

Lemma f_to_int64_range odd f : (int64_min <= f_to_int64 odd f <= int64_max)%Z.
Proof.
  unfold f_to_int64. destruct (f_trunc f) as [z|]; [|apply wrap64_range].
  case_decide; [done|apply wrap64_range].
Qed.

(** ** Reading and writing decimals *)

(** The float nearest to [m / 10^k]. *)
Definition f_decimal (neg : bool) (m : N) (k : Z) : f64 :=
  match m with
  | N0 => S754_zero neg
  | Npos p =>
      if decide (k <= 0)%Z
      then SFdiv 53 1024 (S754_finite neg (p * Pos.pow 10 (Z.to_pos (Z.max 1 (- k))))%positive 0)
             (S754_finite false (if decide (k = 0)%Z then 10 else 1)%positive 0)
      else SFdiv 53 1024 (S754_finite neg p 0) (S754_finite false (Pos.pow 10 (Z.to_pos k)) 0)
  end.

(** Digits, and digits with one point: the number and how many follow it. *)
Definition decimal_digits (s : string) : option (N * Z) :=
  match IndexByte s "." with
  | None => n ← parse_digits s; Some (n, 0%Z)
  | Some i =>
      n ← parse_digits (stake i s +:+ sdrop (S i) s); Some (n, Z.of_nat (slen (sdrop (S i) s)))
  end.

(** [strconv.ParseFloat(s, 64)] on decimals with an optional exponent, and on
    the names of infinity and of no number; hexadecimal floats are taken as
    errors. *)
Definition ParseFloat (s : string) : f64 * option string :=
  let bad := (S754_zero false, Some ("strconv.ParseFloat: parsing " +:+ s +:+ ": invalid syntax")) in
  let '(neg, r) := match s with
                   | String "-"%char r => (true, r)
                   | String "+"%char r => (false, r)
                   | _ => (false, s)
                   end in
  let low := ToLower r in
  if decide (low = "inf" \/ low = "infinity") then (S754_infinity neg, None)
  else if decide (low = "nan" /\ r = s) then (S754_nan, None)
  else
    let '(mant, exp) := match IndexByte low "e" with
                        | Some i => (stake i low, Some (sdrop (S i) low))
                        | None => (low, None)
                        end in
    match decimal_digits mant, (match exp with None => Some 0%Z | Some x =>
                                 match Atoi x with (z, None) => Some z | _ => None end end) with
    | Some (m, k), Some x =>
        let f := f_decimal neg m (k - x) in
        (f, match f with
            | S754_infinity _ => Some ("strconv.ParseFloat: parsing " +:+ s +:+ ": value out of range")
            | _ => None
            end)
    | _, _ => bad
    end.

(** [%.1f]: the exact value rounded to one digit, ties to even. *)
Definition round_half_even (num den : Z) : Z :=
  let q := (num / den)%Z in let r := (num mod den)%Z in
  if decide (2 * r < den)%Z then q else if decide (den < 2 * r)%Z then (q + 1)%Z
  else if Z.even q then q else (q + 1)%Z.
Definition fmt_tenths (neg : bool) (t : Z) : string :=
  (if neg then "-" else "") +:+ Itoa (t / 10) +:+ "." +:+ Itoa (t mod 10).
Definition Sprintf_1f (f : f64) : string :=
  match f with
  | S754_nan => "NaN"
  | S754_infinity s => if s then "-Inf" else "+Inf"
  | S754_zero s => fmt_tenths s 0
  | S754_finite s m e =>
      fmt_tenths s (if decide (0 <= e)%Z then (10 * Zpos m * 2 ^ e)%Z
                    else round_half_even (10 * Zpos m) (2 ^ (- e)))
  end.
