(* ===== verification/SSH.v ===== *)
(** * ssh: connections, sessions and their pool

    golang.org/x/crypto/ssh and the network are not under src/: [GoSSH] is what
    the code asks of them, [GoSSHLaws] the documented behaviour it depends on.
    Clients and sessions are numbered.  Timeouts are outcomes of the calls. *)

From S2P Require Import Prelude GoLib FS Config ServerConfig.

(** What a started command leaves in the buffers, and [Wait]'s error. *)
Record cmd_result := {
  out_combined : string; out_stdout : string; out_stderr : string; out_err : option string
}.

Class GoSSH (E : Type) := {
  gs_tcp : string -> eff E unit;                    (* net.Dialer.DialContext *)
  gs_server_key : string -> eff E string;           (* the key the server shows, as text *)
  gs_auth : string -> string -> string -> eff E nat; (* address, user, credential: a client *)
  gs_signer : string -> eff E string;               (* read and parse a private key *)
  gs_NewSession : nat -> eff E nat;                 (* of a client *)
  gs_Keepalive : nat -> eff E unit;
  gs_exec : nat -> string -> string -> E -> result cmd_result * E;
     (* Start of a command with its standard input, then Wait; Err when Start fails *)
  gs_CloseSession : nat -> E -> option string * E;  (* the error, if any *)
  gs_CloseClient : nat -> E -> option string * E
}.

(** A call that only reports an error. *)
Definition reporting {E} (f : E -> option string * E) : eff E unit := fun e =>
  let '(r, e') := f e in (match r with None => Ok tt | Some msg => Err msg end, e').

(** "A Session only accepts one call to Run, Start, Shell, Output, or
    CombinedOutput": once a session has been started, it stays so, and another
    start fails. *)
Class GoSSHLaws (E : Type) `{GoSSH E} := {
  started : nat -> E -> Prop;
  started_exec s c i e : started s (snd (gs_exec s c i e));
  started_once s c i e : started s e -> exists msg, fst (gs_exec s c i e) = Err msg
}.

(** ** ssh/client.go *)

Record ConnectConfig := {
  cn_Host : string; cn_Port : Z; cn_User : string; cn_AuthMode : string;
  cn_PrivateKeyPath : string; cn_Password : string; cn_ConnectTimeout : Z
}.

Definition ConnectConfigFromVPSConfig (vps : VPSConfig) : ConnectConfig :=
  {| cn_Host := Config.Host vps; cn_Port := SSHPort vps; cn_User := Username vps;
     cn_AuthMode := AuthMode vps; cn_PrivateKeyPath := PrivateKeyPath vps;
     cn_Password := Plain (Password vps); cn_ConnectTimeout := seconds 30 |}.

(** [hostMetacharRe]: one of [;<>|`$] or a newline. *)
Definition host_metachar (c : ascii) : bool :=
  bool_decide (c ∈ [";"; "<"; ">"; "|"; "`"; "$"; nl]%char).

Definition ErrInvalidHost : string := "ssh: host contains forbidden metacharacters".

Definition validateHost (host : string) : result unit :=
  if str_all (fun c => negb (host_metachar c)) host then Ok tt else Err ErrInvalidHost.

Definition Validate (c : ConnectConfig) : result unit :=
  if decide (cn_Host c = EmptyString) then Err "ssh: host is required" else
  _ ← validateHost (cn_Host c);
  if decide (cn_User c = EmptyString) then Err "ssh: user is required" else
  if decide (cn_Port c < 0 \/ 65535 < cn_Port c)%Z
  then Err ("ssh: port " +:+ Itoa (cn_Port c) +:+ " out of range") else
  if decide (cn_AuthMode c = "key") then
    if decide (cn_PrivateKeyPath c = EmptyString)
    then Err "ssh: privateKeyPath required for key auth" else Ok tt
  else if decide (cn_AuthMode c = "password") then
    if decide (cn_Password c = EmptyString)
    then Err "ssh: password required for password auth" else Ok tt
  else Err ("ssh: unsupported auth mode " +:+ cn_AuthMode c).

Definition ShellEscape (s : string) : string :=
  String sq EmptyString +:+ ReplaceAll s sq sq_escaped +:+ String sq EmptyString.

(** ** Host keys *)

Section KnownHosts.
(** [config.ConfigDir()] *)
Context (config_dir : result string).

Definition knownHostsPath : result string :=
  dir ← config_dir; Ok (dir +:+ "/ssh_known_hosts").

(** What [hostKeyCallback] does before it returns the callback: the path. *)
Definition hostKeyCallback : eff World string :=
  khPath ← wrap "resolve known_hosts path: " (lift knownHostsPath);
  _ ← wrap "create known_hosts dir: " (MkdirAll (TrimSuffix khPath "/ssh_known_hosts"));
  missing ← not_exist khPath;
  _ ← (if missing : bool then wrap "create known_hosts: " (WriteTo khPath EmptyString)
       else mret tt);
  mret khPath.

Definition host_line (hostname key : string) : string := hostname +:+ " " +:+ TrimSpace key.

(** The callback itself; [key] is the marshalled authorized key. *)
Definition check_host_key (khPath hostname key : string) : eff World unit :=
  let line := host_line hostname key in
  r ← ReadFile khPath;
  match r with
  | Contents data =>
      if decide (line ∈ file_lines data) then mret tt else
      _ ← wrap "open known_hosts for append: " (OpenAppend khPath);
      wrap "write known_hosts: " (AppendTo khPath (line +:+ nls))
  | NotExist => throw "open known_hosts: no such file or directory"
  | ReadError e => throw ("open known_hosts: " +:+ e)
  end.
End KnownHosts.

(** ** Dialling, sessions and the pool *)

Section Pool.
Context {E : Type} `{GoSSH E} (config_dir : result string).

Definition maxSessionsPerHost : nat := 3.
Definition idleTimeout : Z := seconds 30.
Definition ErrPoolClosed : string := "ssh: pool closed".
Definition ErrPoolExhausted : string := "ssh: pool exhausted (max sessions reached)".

(** The pool, with the connections and the disk it acts on. *)
Record Pool := {
  p_cfg : ConnectConfig; client : option nat; sessions : gset nat; closed : bool;
  lastUsed : time; p_net : E; p_disk : World
}.

Definition with_net (e : E) (p : Pool) : Pool :=
  {| p_cfg := p_cfg p; client := client p; sessions := sessions p; closed := closed p;
     lastUsed := lastUsed p; p_net := e; p_disk := p_disk p |}.
Definition with_disk (w : World) (p : Pool) : Pool :=
  {| p_cfg := p_cfg p; client := client p; sessions := sessions p; closed := closed p;
     lastUsed := lastUsed p; p_net := p_net p; p_disk := w |}.
Definition with_client (c : option nat) (p : Pool) : Pool :=
  {| p_cfg := p_cfg p; client := c; sessions := sessions p; closed := closed p;
     lastUsed := lastUsed p; p_net := p_net p; p_disk := p_disk p |}.
Definition with_sessions (s : gset nat) (p : Pool) : Pool :=
  {| p_cfg := p_cfg p; client := client p; sessions := s; closed := closed p;
     lastUsed := lastUsed p; p_net := p_net p; p_disk := p_disk p |}.
Definition with_closed (b : bool) (p : Pool) : Pool :=
  {| p_cfg := p_cfg p; client := client p; sessions := sessions p; closed := b;
     lastUsed := lastUsed p; p_net := p_net p; p_disk := p_disk p |}.
Definition with_lastUsed (t : time) (p : Pool) : Pool :=
  {| p_cfg := p_cfg p; client := client p; sessions := sessions p; closed := closed p;
     lastUsed := t; p_net := p_net p; p_disk := p_disk p |}.

Definition onNet {A} (m : eff E A) : eff Pool A := on_part p_net with_net m.
Definition onDisk {A} (m : eff World A) : eff Pool A := on_part p_disk with_disk m.

(** [sess.Close()], its error dropped. *)
Definition closeSession (s : nat) : eff Pool unit := fun p =>
  (Ok tt, with_net (snd (gs_CloseSession s (p_net p))) p).

Definition publicKeyAuth (path : string) : eff E string :=
  wrap ("ssh: read private key " +:+ path +:+ ": ") (gs_signer path).

(** [Dial]: the handshake shows the server's key to the callback. *)
Definition Dial (cfg : ConnectConfig) : eff Pool nat :=
  _ ← lift (Validate cfg);
  let port := if decide (cn_Port cfg = 0)%Z then 22%Z else cn_Port cfg in
  let addr := cn_Host cfg +:+ ":" +:+ Itoa port in
  khPath ← wrap "ssh: host key callback: " (onDisk (hostKeyCallback config_dir));
  cred ← (if decide (cn_AuthMode cfg = "key") then onNet (publicKeyAuth (cn_PrivateKeyPath cfg))
          else mret (cn_Password cfg));
  _ ← wrap ("ssh: dial " +:+ addr +:+ ": ") (onNet (gs_tcp addr));
  wrap ("ssh: handshake " +:+ addr +:+ ": ")
    (key ← onNet (gs_server_key addr);
     _ ← onDisk (check_host_key khPath addr key);
     onNet (gs_auth addr (cn_User cfg) cred)).

Definition ensureClient : eff Pool unit := fun p =>
  match client p with
  | Some _ => (Ok tt, p)
  | None => (c ← Dial (p_cfg p); modify (with_client (Some c))) p
  end.

Definition closeClient : eff Pool unit := fun p =>
  match client p with
  | None => (Ok tt, p)
  | Some c =>
      let '(r, p') := onNet (reporting (gs_CloseClient c)) p in (r, with_client None p')
  end.

(** [p.client.NewSession()] *)
Definition newSession : eff Pool nat := fun p =>
  match client p with
  | Some c => onNet (gs_NewSession c) p
  | None => (Panic "nil pointer dereference", p)
  end.

(** [p.client.SendRequest("keepalive@openssh.com", true, nil)] *)
Definition keepalive : eff Pool unit := fun p =>
  match client p with
  | Some c => onNet (gs_Keepalive c) p
  | None => (Panic "nil pointer dereference", p)
  end.

Definition reconnect_session (what : string) : eff Pool nat :=
  _ ← try closeClient;
  _ ← ensureClient;
  wrap what newSession.

Definition open_session : eff Pool nat :=
  r ← try newSession;
  match r with
  | Ok s => mret s
  | _ => reconnect_session "ssh: new session after reconnect: "
  end.

Definition validated (s : nat) : eff Pool nat :=
  r ← try keepalive;
  match r with
  | Ok _ => mret s
  | _ =>
      _ ← closeSession s;
      s' ← reconnect_session "ssh: new session after validation failure: ";
      r ← try keepalive;
      match r with
      | Ok _ => mret s'
      | Err e => _ ← closeSession s';
                 throw ("ssh: client validation failed after reconnect: " +:+ e)
      | Panic e => panic e
      end
  end.

Definition Session (now : time) : eff Pool nat := fun p =>
  if closed p then (Err ErrPoolClosed, p) else
  if decide (maxSessionsPerHost <= size (sessions p)) then (Err ErrPoolExhausted, p) else
  (_ ← ensureClient;
   raw ← open_session;
   sess ← validated raw;
   _ ← modify (fun p => with_lastUsed now (with_sessions ({[sess]} ∪ sessions p) p));
   mret sess) p.

Definition Put (sess : nat) : eff Pool unit :=
  _ ← modify (fun p => with_sessions (sessions p ∖ {[sess]}) p);
  _ ← closeSession sess;
  mret tt.

(** Closes every tracked session, in some order. *)
Fixpoint close_all (l : list nat) : eff Pool unit :=
  match l with
  | [] => mret tt
  | s :: l' => _ ← closeSession s; close_all l'
  end.

Definition Close : eff Pool unit := fun p =>
  if closed p then (Ok tt, p) else
  (_ ← close_all (elements (sessions p));
   _ ← modify (with_sessions ∅);
   closeClient) (with_closed true p).

(** One tick of [sweepIdle]; it returns once the pool is closed. *)
Definition sweep_tick (now : time) : eff Pool unit := fun p =>
  if bool_decide (closed p = false /\ client p <> None /\ size (sessions p) = 0 /\
                  (idleTimeout < now - lastUsed p)%Z)
  then (_ ← try closeClient; mret tt) p
  else (Ok tt, p).

Record PoolStats := {
  ActiveSessions : nat; IdleSlots : Z; HasConnection : bool; LastUsed : time
}.

Definition Stats (p : Pool) : PoolStats :=
  {| ActiveSessions := size (sessions p);
     IdleSlots := Z.of_nat maxSessionsPerHost - Z.of_nat (size (sessions p));
     HasConnection := bool_decide (client p <> None); LastUsed := lastUsed p |}.

Definition NewPool (cfg : ConnectConfig) (now : time) (e : E) (w : World) : result Pool :=
  _ ← Validate cfg;
  Ok {| p_cfg := cfg; client := None; sessions := ∅; closed := false; lastUsed := now;
        p_net := e; p_disk := w |}.

(** ** ssh/session.go: a command on a session *)

(** [Run]: the combined output, also next to an error. *)
Definition Run (s : nat) (cmd : string) : E -> (string * option string) * E := fun e =>
  match gs_exec s cmd EmptyString e with
  | (Ok r, e') => ((out_combined r, out_err r), e')
  | (Err m, e') => ((EmptyString, Some ("ssh: start " +:+ cmd +:+ ": " +:+ m)), e')
  | (Panic m, e') => ((EmptyString, Some m), e')
  end.

Definition Output (s : nat) (cmd : string) : E -> (string * string * option string) * E := fun e =>
  match gs_exec s cmd EmptyString e with
  | (Ok r, e') => ((out_stdout r, out_stderr r, out_err r), e')
  | (Err m, e') => ((EmptyString, EmptyString, Some ("ssh: start " +:+ cmd +:+ ": " +:+ m)), e')
  | (Panic m, e') => ((EmptyString, EmptyString, Some m), e')
  end.

Definition RunScript (s : nat) (script : string) : E -> (string * string * option string) * E :=
  fun e =>
  match gs_exec s "bash -s" script e with
  | (Ok r, e') => ((out_stdout r, out_stderr r, out_err r), e')
  | (Err m, e') => ((EmptyString, EmptyString, Some ("ssh: start bash script: " +:+ m)), e')
  | (Panic m, e') => ((EmptyString, EmptyString, Some m), e')
  end.

(** ** Lemmas *)

(** An observation that connections, the disk and the client do not touch
    survives opening a session. *)
Section Frame.
Context {B : Type} (f : Pool -> B).
Hypothesis f_net : forall e p, f (with_net e p) = f p.
Hypothesis f_disk : forall w p, f (with_disk w p) = f p.
Hypothesis f_client : forall c p, f (with_client c p) = f p.

Lemma frame_onNet {A} (m : eff E A) : preserves f (onNet m).
Proof. apply preserves_on_part. auto. Qed.

Lemma frame_onDisk {A} (m : eff World A) : preserves f (onDisk m).
Proof. apply preserves_on_part. auto. Qed.

Lemma frame_closeSession s : preserves f (closeSession s).
Proof. intros p. apply f_net. Qed.

Lemma frame_Dial cfg : preserves f (Dial cfg).
Proof.
  unfold Dial. cbv zeta.
  repeat first [apply frame_onNet|apply frame_onDisk|progress preserving].
Qed.

Lemma frame_ensureClient : preserves f ensureClient.
Proof.
  intros p. unfold ensureClient. destruct (client p); [done|].
  apply (preserves_bind f (Dial (p_cfg p)) (fun c => modify (with_client (Some c))));
    [apply frame_Dial|]. intros c q. apply f_client.
Qed.

Lemma frame_closeClient : preserves f closeClient.
Proof.
  intros p. unfold closeClient. destruct (client p) as [c|]; [|done].
  pose proof (frame_onNet (reporting (gs_CloseClient c)) p) as Hs.
  by destruct (onNet _ p) as [r p']; simpl in *; rewrite f_client.
Qed.

Lemma frame_newSession : preserves f newSession.
Proof. intros p. unfold newSession. destruct (client p); [apply frame_onNet|done]. Qed.

Lemma frame_keepalive : preserves f keepalive.
Proof. intros p. unfold keepalive. destruct (client p); [apply frame_onNet|done]. Qed.

Lemma frame_reconnect what : preserves f (reconnect_session what).
Proof.
  unfold reconnect_session.
  apply preserves_bind; [apply preserves_try, frame_closeClient|intros _].
  apply preserves_bind; [apply frame_ensureClient|intros _].
  apply preserves_wrap, frame_newSession.
Qed.

Lemma frame_open_session : preserves f open_session.
Proof.
  apply preserves_bind; [apply preserves_try, frame_newSession|].
  intros [s|e|e]; [apply preserves_const|apply frame_reconnect..].
Qed.

Lemma frame_validated s : preserves f (validated s).
Proof.
  apply preserves_bind; [apply preserves_try, frame_keepalive|].
  assert (preserves f (_ ← closeSession s;
      s' ← reconnect_session "ssh: new session after validation failure: ";
      r ← try keepalive;
      match r with
      | Ok _ => mret s'
      | Err e => _ ← closeSession s';
                 throw ("ssh: client validation failed after reconnect: " +:+ e)
      | Panic e => panic e
      end)) as Hretry.
  { apply preserves_bind; [apply frame_closeSession|intros _].
    apply preserves_bind; [apply frame_reconnect|intros s'].
    apply preserves_bind; [apply preserves_try, frame_keepalive|intros r].
    destruct r as [[]|e|e]; [apply preserves_const| |apply preserves_const].
    apply preserves_bind; [apply frame_closeSession|intros _; apply preserves_const]. }
  intros [[]|e|e]; [apply preserves_const|exact Hretry..].
Qed.

Lemma frame_close_all l : preserves f (close_all l).
Proof.
  induction l; simpl; [apply preserves_const|].
  apply preserves_bind; [apply frame_closeSession|done].
Qed.
End Frame.

(** The part of a pool that bounds its sessions. *)
Definition slots (p : Pool) : gset nat * bool := (sessions p, closed p).

(** What [Session] does to the slots. *)
Lemma Session_slots now p :
  match Session now p with
  | (Ok s, p') => closed p = false /\ size (sessions p) < maxSessionsPerHost /\
                  slots p' = ({[s]} ∪ sessions p, false) /\ lastUsed p' = now
  | (_, p') => slots p' = slots p
  end.
Proof.
  unfold Session. destruct (closed p) eqn:Hc; [done|]. case_decide as Hfull; [done|].
  unfold mbind, eff_bind. pose proof (frame_ensureClient slots ltac:(done) ltac:(done) ltac:(done) p) as H1.
  destruct (ensureClient p) as [[[]|e|e] p1]; [|exact H1..]. simpl in H1.
  pose proof (frame_open_session slots ltac:(done) ltac:(done) ltac:(done) p1) as H2.
  destruct (open_session p1) as [[raw|e|e] p2]; simpl in H2; [|exact (eq_trans H2 H1)..].
  pose proof (frame_validated slots ltac:(done) ltac:(done) ltac:(done) raw p2) as H3.
  destruct (validated raw p2) as [[s|e|e] p3]; simpl in H3;
    [|exact (eq_trans H3 (eq_trans H2 H1))..].
  assert (slots p3 = slots p) as [= Hs Hcl] by congruence.
  split_and!; [done|lia| |done]. unfold slots. simpl. congruence.
Qed.

(** An observation of a pool that [Session] leaves alone. *)
Lemma frame_Session {B} (f : Pool -> B) now :
  (forall e p, f (with_net e p) = f p) -> (forall w p, f (with_disk w p) = f p) ->
  (forall c p, f (with_client c p) = f p) -> (forall s p, f (with_sessions s p) = f p) ->
  (forall t p, f (with_lastUsed t p) = f p) ->
  preserves f (Session now).
Proof.
  intros Hn Hd Hc Hs Hl p. unfold Session. destruct (closed p); [done|]. case_decide; [done|].
  revert p H0. intros p _. revert p.
  apply preserves_bind; [by apply frame_ensureClient|intros _].
  apply preserves_bind; [by apply frame_open_session|intros raw].
  apply preserves_bind; [by apply frame_validated|intros s].
  apply preserves_bind; [|intros _; apply preserves_const].
  apply preserves_modify. intros p. by rewrite Hl, Hs.
Qed.

Definition pool_inv (p : Pool) : Prop :=
  size (sessions p) <= maxSessionsPerHost /\
  (closed p = true -> sessions p = ∅ /\ client p = None).

(** One call of a pool's operation, or something on the connections. *)
Inductive pool_step (p : Pool) : Pool -> Prop :=
  | ps_session now : pool_step p (snd (Session now p))
  | ps_put s : pool_step p (snd (Put s p))
  | ps_close : pool_step p (snd (Close p))
  | ps_sweep now : pool_step p (snd (sweep_tick now p))
  | ps_net e : pool_step p (with_net e p).

Lemma client_closeClient p : client (snd (closeClient p)) = None.
Proof.
  unfold closeClient. destruct (client p) as [c|] eqn:Hc; [|done].
  by destruct (onNet _ p).
Qed.

Lemma try_snd {W A} (m : eff W A) w : snd (try m w) = snd (m w).
Proof. unfold try. by destruct (m w) as [[]]. Qed.

Lemma close_all_ok l p : exists p', close_all l p = (Ok tt, p').
Proof.
  revert p. induction l as [|s l IH]; intros p; [by eexists|]. apply IH.
Qed.

Lemma sweep_slots now p : slots (snd (sweep_tick now p)) = slots p.
Proof.
  unfold sweep_tick. case_bool_decide; [|done].
  unfold mbind, eff_bind, try. pose proof (frame_closeClient slots ltac:(done) ltac:(done) p) as Hs.
  by destruct (closeClient p) as [[] p'].
Qed.

(** ** Properties *)

(** In every reachable state of a pool at most three sessions are open, and
    a closed pool holds neither sessions nor a connection. *)
Theorem pool_bounded cfg now e w p0 p :
  NewPool cfg now e w = Ok p0 -> star pool_step p0 p -> pool_inv p.
Proof.
  intros Hn. apply star_inv_ind.
  2:{ unfold NewPool in Hn. destruct (Validate cfg) as [[]|msg|msg]; [|done..].
      injection Hn as <-. split; [vm_compute; lia|done]. }
  clear. intros p q [Hsz Hcl]. destruct 1.
  - pose proof (Session_slots now p) as Hs. destruct (Session now p) as [[s|e|e] q] eqn:HS.
    1:{ destruct Hs as (Hc & Hlt & [= Hq Hqc] & _). simpl. split; [|by rewrite Hqc].
        rewrite Hq. pose proof (size_union_alt {[s]} (sessions p)) as Hu.
        assert (size (sessions p ∖ {[s]}) <= size (sessions p)) by (apply subseteq_size; set_solver).
        rewrite Hu, size_singleton. unfold maxSessionsPerHost in *. lia. }
    all: injection Hs as Hq Hqc; simpl; split; [by rewrite Hq|]; rewrite Hqc; intros Hc.
    all: unfold Session in HS; rewrite Hc in HS; injection HS as _ <-; auto.
  - split; simpl.
    + etrans; [apply (subseteq_size (sessions p ∖ {[s]}) (sessions p)); set_solver|exact Hsz].
    + intros Hc. destruct (Hcl Hc) as [-> ?]. split; [set_solver|done].
  - unfold Close. destruct (closed p) eqn:Hc; [exact (conj Hsz (fun _ => Hcl eq_refl))|]. unfold mbind, eff_bind.
    destruct (close_all_ok (elements (sessions p)) (with_closed true p)) as [p1 ->]. simpl.
    pose proof (frame_closeClient slots ltac:(done) ltac:(done) (with_sessions ∅ p1)) as [= Hq _].
    split; [rewrite Hq; vm_compute; lia|]. intros _.
    split; [by rewrite Hq|]. apply client_closeClient.
  - pose proof (sweep_slots now p) as [= Hq Hqc]. split; [by rewrite Hq|].
    rewrite Hqc. intros Hc. unfold sweep_tick. rewrite bool_decide_false by naive_solver.
    auto.
  - exact (conj Hsz Hcl).
Qed.

(** A session is handed out only below the bound, and takes exactly one
    slot; a failed request takes none, and [Put] gives the slot back. *)
Theorem session_slot_discipline now p :
  match Session now p with
  | (Ok s, p') => size (sessions p) < maxSessionsPerHost /\ (s ∈ sessions p') /\
                  sessions p' = {[s]} ∪ sessions p /\
                  sessions (snd (Put s p')) = sessions p ∖ {[s]}
  | (_, p') => sessions p' = sessions p
  end.
Proof.
  pose proof (Session_slots now p) as Hs. destruct (Session now p) as [[s|e|e] q].
  - destruct Hs as (_ & Hlt & [= Hq _] & _). split; [done|]. rewrite Hq. split; [set_solver|].
    split; [done|]. simpl. rewrite Hq. set_solver.
  - by injection Hs.
  - by injection Hs.
Qed.

(** A second command on one session never runs: whatever was run first, the
    second [Run] gives no output and an error. *)
Theorem second_run_fails `{!GoSSHLaws E} s c1 c2 e :
  let '(_, e1) := Run s c1 e in
  exists err, fst (Run s c2 e1) = (EmptyString, Some err).
Proof.
  unfold Run at 1. pose proof (started_exec s c1 EmptyString e) as Hst.
  destruct (gs_exec s c1 EmptyString e) as [[r|m|m] e1]; simpl in Hst.
  all: destruct (started_once s c2 EmptyString e1 Hst) as [msg Hm]; unfold Run.
  all: destruct (gs_exec s c2 EmptyString e1) as [[]]; simpl in *; try done; eauto.
Qed.
End Pool.

(** Host keys are not verified: on a disk that works the callback accepts
    every key for every host, whatever keys the file holds for it. *)
Theorem any_host_key_accepted khPath data hostname key w :
  outcomes w = [] -> files w !! khPath = Some data ->
  fst (check_host_key khPath hostname key w) = Ok tt.
Proof.
  intros Ho Hf. unfold check_host_key, ReadFile, mbind, eff_bind, next_outcome.
  rewrite Ho. simpl. rewrite Hf. case_decide; [done|].
  unfold wrap, OpenAppend, AppendTo, syscall, next_outcome. simpl. rewrite Ho. simpl. rewrite Hf. simpl. by rewrite Ho.
Qed.

(** A known key is found again: the callback does not touch the file when
    the pair of host and key is recorded. *)
Theorem known_key_not_rewritten khPath data hostname key w :
  outcomes w = [] -> files w !! khPath = Some data -> host_line hostname key ∈ file_lines data ->
  fst (check_host_key khPath hostname key w) = Ok tt /\
  files (snd (check_host_key khPath hostname key w)) = files w.
Proof.
  intros Ho Hf Hin. unfold check_host_key, ReadFile, mbind, eff_bind, next_outcome.
  rewrite Ho. simpl. rewrite Hf. by rewrite decide_True.
Qed.

(** ** A reference implementation of the session interface, for witnesses:
    every command prints [out]; the state is the set of started sessions. *)
Definition echo_ssh (out : string) : GoSSH (gset nat) := {|
  gs_tcp _ := mret tt; gs_server_key _ := mret "ssh-ed25519 AAAA"; gs_auth _ _ _ := mret 0;
  gs_signer _ := mret "key"; gs_NewSession _ := fun e => (Ok (size e), e);
  gs_Keepalive _ := mret tt;
  gs_exec s _ _ e :=
    if decide (s ∈ e) then (Err "ssh: session already started", e)
    else (Ok {| out_combined := out; out_stdout := out; out_stderr := ""; out_err := None |},
          {[s]} ∪ e);
  gs_CloseSession _ e := (None, e); gs_CloseClient _ e := (None, e)
|}.

Definition echo_ssh_laws out : @GoSSHLaws (gset nat) (echo_ssh out).
Proof.
  refine {| started := fun s e => s ∈ e |}; simpl.
  - intros s c i e. case_decide; simpl; set_solver.
  - intros s c i e Hs. rewrite decide_True by done. by eexists.
Defined.

Definition sample_ssh : ConnectConfig :=
  {| cn_Host := "vps.example.org"; cn_Port := 22; cn_User := "root"; cn_AuthMode := "password";
     cn_PrivateKeyPath := ""; cn_Password := "pw"; cn_ConnectTimeout := 0 |}.
Definition empty_disk : World := {| files := ∅; outcomes := []; draws := []; disks := [] |}.

Section Witnesses.
#[local] Instance w_ssh : GoSSH (gset nat) := echo_ssh "ok".
#[local] Instance w_laws : GoSSHLaws (gset nat) := echo_ssh_laws "ok".

Definition w_pool : Pool (E := gset nat) :=
  {| p_cfg := sample_ssh; client := None; sessions := ∅; closed := false; lastUsed := 0%Z;
     p_net := ∅; p_disk := empty_disk |}.

Lemma pool_bounded_witness :
  is_ok (fst (Session (Ok "/root/.unet") 1%Z w_pool)) = true /\
  pool_inv (snd (Session (Ok "/root/.unet") 1%Z w_pool)).
Proof.
  split; [vm_compute; reflexivity|].
  apply (pool_bounded (Ok "/root/.unet") sample_ssh 0%Z ∅ empty_disk w_pool).
  - vm_compute. reflexivity.
  - eapply star_snoc; [apply star_nil|]. apply ps_session.
Defined.

Lemma second_run_fails_witness : exists err,
  fst (Run 0 "true" (snd (Run 0 "uname" (∅ : gset nat)))) = (EmptyString, Some err).
Proof. exact (second_run_fails (E := gset nat) 0 "uname" "true" ∅). Defined.

Definition w_disk (lines : string) : World :=
  {| files := {["kh" := lines]}; outcomes := []; draws := []; disks := [] |}.

Lemma any_host_key_accepted_witness :
  fst (check_host_key "kh" "h:22" "ssh-ed25519 EVIL" (w_disk ("h:22 ssh-ed25519 GOOD" +:+ nls))) = Ok tt.
Proof. eapply any_host_key_accepted; vm_compute; reflexivity. Defined.

Lemma known_key_not_rewritten_witness :
  files (snd (check_host_key "kh" "h:22" "K" (w_disk ("h:22 K" +:+ nls))))
  = files (w_disk ("h:22 K" +:+ nls)).
Proof.
  apply (known_key_not_rewritten "kh" ("h:22 K" +:+ nls) "h:22" "K").
  - reflexivity.
  - vm_compute. reflexivity.
  - apply elem_of_cons. left. vm_compute. reflexivity.
Defined.
End Witnesses.
