(* ===== verification/Health.v ===== *)
(** * lifecycle/health: probing and reconnecting

    The prober's decision and the reconnect sequence over the session pool.
    The clock, the random draw and the probe outcomes are inputs. *)

From Stdlib Require Import SpecFloat.
From S2P Require Import Prelude GoLib Float64 FS SSH.

(** ** prober.go *)

Record HealthSnapshot := {
  Timestamp : time; VPSReachable : bool; WGTunnelUp : bool; Errors : list string;
  ProbeLatencyMS : Z
}.

Record ProberConfig := {
  Interval : Z; FailureThreshold : Z; ICMPTarget : string; HTTPTarget : string
}.

(** [NewProber]'s defaults. *)
Definition with_defaults (c : ProberConfig) : ProberConfig :=
  {| Interval := if decide (Interval c = 0)%Z then seconds 15 else Interval c;
     FailureThreshold := if decide (FailureThreshold c = 0)%Z then 3 else FailureThreshold c;
     ICMPTarget := ICMPTarget c; HTTPTarget := HTTPTarget c |}.

(** The outcome of one probe: [None] is success. *)
Definition probe (icmp http : option string) (start stop : time) : HealthSnapshot :=
  let snap up errs := {| Timestamp := start; VPSReachable := up; WGTunnelUp := up;
                         Errors := errs; ProbeLatencyMS := ((stop - start) `quot` 1000000)%Z |} in
  match icmp with
  | None => snap true []
  | Some e => match http with
              | None => snap true []
              | Some e' => snap false [e; e']
              end
  end.

(** [reconnects] and [shown] count the calls of [OnReconnect] and [OnSnapshot]. *)
Record Prober := {
  cfg : ProberConfig; lastSnapshot : option HealthSnapshot; consecutiveFail : Z;
  running : bool; has_OnReconnect : bool; reconnects : nat; shown : list HealthSnapshot
}.

Definition NewProber (c : ProberConfig) (hook : bool) : Prober :=
  {| cfg := with_defaults c; lastSnapshot := None; consecutiveFail := 0; running := false;
     has_OnReconnect := hook; reconnects := 0; shown := [] |}.

Definition processSnapshot (snap : HealthSnapshot) (p : Prober) : Prober :=
  let fails := if VPSReachable snap then 0%Z else wrap64 (consecutiveFail p + 1) in
  let fire := bool_decide (FailureThreshold (cfg p) <= fails)%Z && has_OnReconnect p in
  {| cfg := cfg p; lastSnapshot := Some snap;
     consecutiveFail := if fire then 0%Z else fails; running := running p;
     has_OnReconnect := has_OnReconnect p;
     reconnects := if fire then S (reconnects p) else reconnects p;
     shown := shown p ++ [snap] |}.

(** [Run]: one probe per tick. *)
Definition run_probes (snaps : list HealthSnapshot) (p : Prober) : Prober :=
  foldl (fun p s => processSnapshot s p) p snaps.

Definition Snapshot (p : Prober) : option HealthSnapshot := lastSnapshot p.
Definition IsRunning (p : Prober) : bool := running p.

(** The probe's HTTP target: the subnet's address, without its mask. *)
Definition http_target (subnet : string) : string :=
  if decide (subnet = EmptyString) then EmptyString
  else hd EmptyString (Split subnet "/") +:+ ":2019/config/".

(** [HTTPCheck.Probe] and [ICMPPing.Probe]: the address tried. *)
Definition probe_url (target : string) : string :=
  match target with
  | EmptyString => target
  | String c _ => if decide (c = "h"%char) then target else "http://" +:+ target
  end.

(** ** reconnect.go *)

Inductive ReconnectPhase := NoPhase | PhaseProbing | PhaseReconnect | PhaseVerifying
  | PhaseSyncing | PhaseFailed | PhaseRecovered.

Record ReconnectState := {
  StartedAt : option time; AttemptCount : Z; NextAttemptAt : time; CurrentDelay : Z;
  Phase : ReconnectPhase; LastError : string
}.

Definition zero_reconnect : ReconnectState :=
  {| StartedAt := None; AttemptCount := 0; NextAttemptAt := 0%Z; CurrentDelay := 0;
     Phase := NoPhase; LastError := "" |}.

Definition backoffInitial : Z := 2000 * 1000000.
Definition backoffCap : Z := 60000 * 1000000.
Definition backoffJitter : f64 := f_const 2 10.

Section Reconnect.
(** What the processor makes of a float outside the range of [int64]. *)
Context (odd : f64 -> Z).

(** The delay before jitter, as 64-bit arithmetic gives it. *)
Definition base_delay (attempt : Z) : Z :=
  let d := wrap64 (backoffInitial * f_to_int64 odd (f_pow2 (attempt - 1))) in
  if decide (backoffCap < d)%Z then backoffCap else d.

(** [u] is [rng.Float64()]. *)
Definition jitter (u : f64) (delay : Z) : Z :=
  let factor := f_add (f_of_Z 1) (f_mul (f_sub (f_mul u (f_of_Z 2)) (f_of_Z 1)) backoffJitter) in
  f_to_int64 odd (f_mul (f_of_Z delay) factor).

Definition scheduleNext (u : f64) (now : time) (s : ReconnectState) : ReconnectState :=
  let delay := jitter u (base_delay (AttemptCount s)) in
  {| StartedAt := StartedAt s; AttemptCount := AttemptCount s; NextAttemptAt := (now + delay)%Z;
     CurrentDelay := delay; Phase := Phase s; LastError := LastError s |}.

Definition set_phase (ph : ReconnectPhase) (s : ReconnectState) : ReconnectState :=
  {| StartedAt := StartedAt s; AttemptCount := AttemptCount s; NextAttemptAt := NextAttemptAt s;
     CurrentDelay := CurrentDelay s; Phase := ph; LastError := LastError s |}.
Definition set_error (e : string) (s : ReconnectState) : ReconnectState :=
  {| StartedAt := StartedAt s; AttemptCount := AttemptCount s; NextAttemptAt := NextAttemptAt s;
     CurrentDelay := CurrentDelay s; Phase := Phase s; LastError := e |}.

Context {E : Type} `{GoSSH E} (config_dir : result string).

(** [emitted] records the states given to [OnStateChange]. *)
Record Reconnector := {
  pool : Pool (E := E); state : ReconnectState; emitted : list ReconnectState
}.

Definition NewReconnector (p : Pool (E := E)) : Reconnector :=
  {| pool := p; state := zero_reconnect; emitted := [] |}.

Definition with_pool (p : Pool (E := E)) (r : Reconnector) : Reconnector :=
  {| pool := p; state := state r; emitted := emitted r |}.
Definition with_state (s : ReconnectState) (r : Reconnector) : Reconnector :=
  {| pool := pool r; state := s; emitted := emitted r |}.

Definition onPool {A} (m : eff (Pool (E := E)) A) : eff Reconnector A := on_part pool with_pool m.
Definition edit (f : ReconnectState -> ReconnectState) : eff Reconnector unit :=
  modify (fun r => with_state (f (state r)) r).
Definition emitState : eff Reconnector unit :=
  modify (fun r => {| pool := pool r; state := state r; emitted := emitted r ++ [state r] |}).

(** A command on a session of the pool: its output and its error. *)
Definition run_on (s : nat) (cmd : string) : eff Reconnector (string * option string) := fun r =>
  let '(oe, e) := Run s cmd (p_net (pool r)) in (Ok oe, with_pool (with_net e (pool r)) r).

(** Every failing path ends like this. *)
Definition retreat {A} (u : f64) (now : time) (last err : string) : eff Reconnector A :=
  _ ← edit (fun s => set_error last (set_phase PhaseFailed s));
  _ ← edit (scheduleNext u now);
  _ ← emitState;
  throw err.

Definition enter (ph : ReconnectPhase) : eff Reconnector unit := _ ← edit (set_phase ph); emitState.

Definition docker_info_cmd : string :=
  "sudo docker info --format '{{.ServerVersion}}' 2>/dev/null".
Definition docker_ps_cmd : string :=
  "sudo docker ps --filter name=unet- --format '{{.Names}}' 2>/dev/null".
Definition expectedContainers : list string := ["unet-net-pause"; "unet-amnezia-awg"; "unet-caddy"].

(** The first expected container whose name the listing does not contain. *)
Definition missing_container (containerOut : string) : option string :=
  head (filter (fun name => Contains containerOut name = false) expectedContainers).
#[local] Arguments missing_container : simpl never.

Definition begin_attempt (now : time) (s : ReconnectState) : ReconnectState :=
  {| StartedAt := match StartedAt s with None => Some now | t => t end;
     AttemptCount := wrap64 (AttemptCount s + 1); NextAttemptAt := NextAttemptAt s;
     CurrentDelay := CurrentDelay s; Phase := PhaseProbing; LastError := LastError s |}.

Definition Execute (u : f64) (now : time) : eff Reconnector unit :=
  _ ← edit (begin_attempt now);
  _ ← emitState;
  sess ← try (onPool (Session config_dir now));
  match sess with
  | Ok sess =>
      _ ← enter PhaseReconnect;
      '(out, err) ← run_on sess docker_info_cmd;
      match err with
      | Some e =>
          _ ← onPool (Put sess);
          retreat u now ("Docker not running: " +:+ e) ("reconnect: Docker: " +:+ e)
      | None =>
          _ ← enter PhaseVerifying;
          '(containerOut, err) ← run_on sess docker_ps_cmd;
          _ ← onPool (Put sess);
          match err with
          | Some e => retreat u now ("Container check failed: " +:+ e) ("reconnect: containers: " +:+ e)
          | None =>
              match missing_container containerOut with
              | Some name => retreat u now ("Missing container: " +:+ name)
                                          ("reconnect: missing container " +:+ name)
              | None =>
                  _ ← enter PhaseSyncing;
                  _ ← edit (fun s => set_error EmptyString (set_phase PhaseRecovered s));
                  _ ← emitState;
                  edit (fun _ => zero_reconnect)
              end
          end
      end
  | Err e => retreat u now ("SSH unreachable: " +:+ e) ("reconnect: SSH: " +:+ e)
  | Panic e => panic e
  end.

(** ** Lemmas *)

(** What every attempt that fails leaves behind, started in [r0]. *)
Definition failed_attempt (now : time) (r0 r : Reconnector) : Prop :=
  sessions (pool r) ⊆ sessions (pool r0) /\
  Phase (state r) = PhaseFailed /\
  AttemptCount (state r) = wrap64 (AttemptCount (state r0) + 1) /\
  StartedAt (state r) = Some (default now (StartedAt (state r0))) /\
  NextAttemptAt (state r) = (now + CurrentDelay (state r))%Z /\
  exists l, emitted r = l ++ [state r].

Lemma run_on_spec s cmd r :
  run_on s cmd r = (Ok (fst (Run s cmd (p_net (pool r)))),
                    with_pool (with_net (snd (Run s cmd (p_net (pool r)))) (pool r)) r).
Proof. unfold run_on. by destruct (Run s cmd _). Qed.

(** The goal [failed_attempt] at a computed state. *)
Ltac failing tac :=
  split_and!; simpl; [tac|done|done|by destruct (StartedAt _)|done|by eexists].

Lemma Execute_cases u now r0 :
  match Execute u now r0 with
  | (Ok _, r) => state r = zero_reconnect /\ sessions (pool r) ⊆ sessions (pool r0)
  | (Err _, r) => failed_attempt now r0 r
  | (Panic _, r) => sessions (pool r) ⊆ sessions (pool r0)
  end.
Proof.
  unfold Execute, enter, edit, emitState, try, onPool, on_part, mbind, eff_bind. simpl.
  pose proof (Session_slots config_dir now (pool r0)) as Hs.
  destruct (Session config_dir now (pool r0)) as [[s|e|e] p1].
  - destruct Hs as (_ & _ & [= Hp1 _] & _). simpl. rewrite run_on_spec.
    destruct (Run s docker_info_cmd _) as [[out [e|]] e1]; simpl.
    + failing ltac:(rewrite Hp1; set_solver).
    + rewrite run_on_spec. simpl.
      destruct (Run s docker_ps_cmd _) as [[out2 [e|]] e2]; simpl.
      * failing ltac:(rewrite Hp1; set_solver).
      * destruct (missing_container out2) as [name|].
        -- failing ltac:(rewrite Hp1; set_solver).
        -- simpl. split; [done|]. rewrite Hp1. set_solver.
  - injection Hs as Hs _. simpl. failing ltac:(by rewrite Hs).
  - injection Hs as Hs _. simpl. by rewrite Hs.
Qed.

(** ** lifecycle/health/health.go *)

(** Prober goroutines are numbered; [asked] are those told to stop. *)
Record HealthManager := {
  hm_running : bool; cancelFunc : option nat; probers : gset nat; asked : gset nat; next : nat
}.

Definition NewHealthManager : HealthManager :=
  {| hm_running := false; cancelFunc := None; probers := ∅; asked := ∅; next := 0 |}.

Definition Start (m : HealthManager) : HealthManager :=
  if hm_running m then m else
  {| hm_running := true; cancelFunc := Some (next m); probers := {[next m]} ∪ probers m;
     asked := asked m; next := S (next m) |}.

Definition Stop (m : HealthManager) : HealthManager :=
  {| hm_running := false; cancelFunc := None; probers := probers m;
     asked := match cancelFunc m with Some i => {[i]} ∪ asked m | None => asked m end;
     next := next m |}.

(** A goroutine that was told to stop returns from [Run] and clears the flag. *)
Definition prober_exit (i : nat) (m : HealthManager) : HealthManager :=
  if decide (i ∈ probers m /\ i ∈ asked m) then
    {| hm_running := false; cancelFunc := cancelFunc m; probers := probers m ∖ {[i]};
       asked := asked m; next := next m |}
  else m.

Inductive hm_step (m : HealthManager) : HealthManager -> Prop :=
  | hs_start : hm_step m (Start m)
  | hs_stop : hm_step m (Stop m)
  | hs_exit i : i ∈ probers m -> i ∈ asked m -> hm_step m (prober_exit i m).

(** [handleReconnect]: the retries that are pending after one more call. *)
Definition handleReconnect (u : f64) (now : time) (r : Reconnector) (pending : nat)
  : Reconnector * nat :=
  let '(res, r') := Execute u now r in
  (r', match res with Err _ => S pending | _ => pending end).

(** ** Properties *)

(** An attempt that fails says so: on every failing path the session is
    given back, the phase is failed, the attempt is counted, the next one is
    due after the computed delay, and the final state was published.  An
    attempt that succeeds resets the state and gives its session back too. *)
Theorem execute_accounting u now r0 :
  match Execute u now r0 with
  | (Ok _, r) => state r = zero_reconnect /\ sessions (pool r) ⊆ sessions (pool r0)
  | (Err _, r) => failed_attempt now r0 r
  | (Panic _, r) => sessions (pool r) ⊆ sessions (pool r0)
  end.
Proof. apply Execute_cases. Qed.

(** The sequence never succeeds: it runs two commands on one session, and a
    session accepts one. *)
Theorem execute_never_succeeds `{!GoSSHLaws E} u now r0 :
  fst (Execute u now r0) <> Ok tt.
Proof.
  unfold Execute, enter, edit, emitState, try, onPool, on_part, mbind, eff_bind. simpl.
  destruct (Session config_dir now (pool r0)) as [[s|e|e] p1]; [|done..].
  simpl. rewrite run_on_spec. simpl. unfold Run at 1 2.
  pose proof (started_exec s docker_info_cmd EmptyString (p_net p1)) as Hst.
  destruct (gs_exec s docker_info_cmd EmptyString (p_net p1)) as [[c|m|m] e1]; [|done..].
  simpl in *. destruct (out_err c) as [err|]; [done|]. rewrite run_on_spec. simpl. unfold Run.
  destruct (started_once s docker_ps_cmd EmptyString e1 Hst) as [msg Hm].
  destruct (gs_exec s docker_ps_cmd EmptyString e1) as [[c'|m|m] e2]; [done| |done]. done.
Qed.
End Reconnect.

(** C37: Up to the 33rd attempt the delay doubles from two seconds and is capped
    at a minute: no arithmetic wraps. *)
Theorem backoff_doubles_to_cap odd n : (1 <= n <= 33)%Z ->
  base_delay odd n = Z.min (seconds 60) (seconds (2 ^ n)).
Proof.
  intros Hn. apply Z.eqb_eq.
  apply (check_range (fun n => (base_delay odd n =? Z.min (seconds 60) (seconds (2 ^ n)))%Z) 1 33);
    [vm_compute; reflexivity|lia].
Qed.

(** The 34th delay is negative, and from the 55th to the 63rd attempt the
    delay is zero: the product wraps in 64 bits before it meets the cap, so
    the retries no longer wait. *)
Theorem backoff_wraps odd :
  (base_delay odd 34 < 0)%Z /\ forall n, (55 <= n <= 63)%Z -> base_delay odd n = 0%Z.
Proof.
  split; [vm_compute; reflexivity|]. intros n Hn. apply Z.eqb_eq.
  apply (check_range (fun n => (base_delay odd n =? 0)%Z) 55 9); [vm_compute; reflexivity|lia].
Qed.

(** The failures at the end of a run of snapshots. *)
Definition trailing_failures (snaps : list HealthSnapshot) : Z :=
  foldl (fun n s => if VPSReachable s then 0%Z else (n + 1)%Z) 0%Z snaps.

(** The reconnect hook is called exactly on the third failure in a row since
    the last success or call: while it has not been called, the counter is the
    number of failures at the end, and it stays below the threshold. *)
Theorem third_failure_reconnects c snap snaps :
  FailureThreshold c = 0%Z ->
  let p := run_probes snaps (NewProber c true) in
  (0 <= consecutiveFail p <= 2)%Z /\
  reconnects (processSnapshot snap p) =
    (if bool_decide (VPSReachable snap = false /\ consecutiveFail p = 2%Z)
     then S (reconnects p) else reconnects p) /\
  (reconnects p = 0 -> consecutiveFail p = trailing_failures snaps).
Proof.
  intros Ht p.
  assert (forall l, (0 <= consecutiveFail (run_probes l (NewProber c true)) <= 2)%Z /\
            has_OnReconnect (run_probes l (NewProber c true)) = true /\
            FailureThreshold (cfg (run_probes l (NewProber c true))) = 3%Z /\
            (reconnects (run_probes l (NewProber c true)) = 0 ->
             consecutiveFail (run_probes l (NewProber c true)) = trailing_failures l)) as Hinv.
  { clear p snap snaps. induction l as [|s l (Hc & Hh & Hf & Htr)] using rev_ind.
    - simpl. rewrite Ht. done.
    - unfold run_probes, trailing_failures in *. rewrite !foldl_app. simpl.
      set (q := foldl _ _ l) in *. rewrite Hh, Hf.
      destruct (VPSReachable s); [done|].
      rewrite wrap64_id by (unfold int64_min, int64_max; lia).
      case_bool_decide as Hd; simpl; [done|]. split; [lia|]. split; [done|]. split; [done|].
      intros Hr. by rewrite Htr. }
  destruct (Hinv snaps) as (Hc & Hh & Hf & Htr). fold p in Hc, Hh, Hf, Htr.
  split; [exact Hc|]. split; [|exact Htr]. unfold processSnapshot. simpl. rewrite Hh, Hf.
  destruct (VPSReachable snap).
  { rewrite (bool_decide_false (true = false /\ _)) by naive_solver.
    by rewrite bool_decide_false by lia. }
  rewrite wrap64_id by (unfold int64_min, int64_max; lia).
  rewrite andb_true_r. case_bool_decide as H1; case_bool_decide as H2; try done; exfalso;
    [apply H2; split; [done|lia]|destruct H2; lia].
Qed.

(** The flag that keeps a second prober from starting is cleared by the
    first one's late exit: two probers that nobody asked to stop can run. *)
Theorem two_probers_run : exists m i j,
  star hm_step NewHealthManager m /\ i <> j /\
  {[i; j]} ⊆ probers m /\ (i ∉ asked m) /\ (j ∉ asked m).
Proof.
  exists (Start (prober_exit 0 (Start (Stop (Start NewHealthManager))))), 1, 2.
  split; [|split; [done|]; split_and!; refine (bool_decide_unpack _ _); vm_compute; exact I].
  repeat (eapply star_snoc; [|first [apply hs_start|apply hs_stop|apply hs_exit;
    refine (bool_decide_unpack _ _); vm_compute; exact I]]). apply star_nil.
Qed.

(** ** Witnesses *)

Lemma execute_never_succeeds_witness :
  fst (Execute (E := gset nat) (H := echo_ssh "unet-net-pause unet-amnezia-awg unet-caddy")
         (fun _ => 0%Z) (Ok "/root/.unet") (f_const 1 2) 7%Z
         (NewReconnector (E := gset nat)
            {| p_cfg := sample_ssh; client := None; sessions := ∅; closed := false; lastUsed := 0%Z;
               p_net := ∅; p_disk := empty_disk |})) <> Ok tt.
Proof.
  apply (@execute_never_succeeds (fun _ => 0%Z) (gset nat)
           (echo_ssh "unet-net-pause unet-amnezia-awg unet-caddy") (Ok "/root/.unet")
           (echo_ssh_laws "unet-net-pause unet-amnezia-awg unet-caddy")).
Defined.

Lemma backoff_doubles_to_cap_witness : base_delay (fun _ => 0%Z) 5 = seconds 32.
Proof.
  rewrite (backoff_doubles_to_cap (fun _ => 0%Z) 5) by lia. vm_compute. reflexivity.
Defined.

Definition down : HealthSnapshot := probe (Some "icmp") (Some "http") 0%Z 5000000%Z.

Lemma third_failure_reconnects_witness :
  let p := run_probes [down; down]
             (NewProber {| Interval := 0; FailureThreshold := 0; ICMPTarget := ""; HTTPTarget := "" |} true) in
  reconnects (processSnapshot down p) = 1.
Proof.
  intros p.
  destruct (third_failure_reconnects
    {| Interval := 0; FailureThreshold := 0; ICMPTarget := ""; HTTPTarget := "" |} down [down; down]
    eq_refl) as (_ & Hr & _).
  fold p in Hr. rewrite Hr. vm_compute. reflexivity.
Defined.
