(* ===== verification/Base64.v ===== *)
(** * encoding/base64: the raw URL and the padded standard alphabets

    A decoder skips carriage returns and line feeds; trailing bits of the last
    character are ignored, as Go's non-strict encodings do. *)

From S2P Require Import Prelude GoLib.

Definition bytes_of (s : string) : list Z := map (fun c => Z.of_N (N_of_ascii c)) (String.list_ascii_of_string s).
Definition of_bytes (l : list Z) : string := String.string_of_list_ascii (map byte_of_Z l).

(** The 64 characters, by value. *)
Definition alphabet (c62 c63 : ascii) (v : Z) : ascii :=
  if (v <? 26)%Z then byte_of_Z (65 + v)
  else if (v <? 52)%Z then byte_of_Z (71 + v)
  else if (v <? 62)%Z then byte_of_Z (v - 4)
  else if (v =? 62)%Z then c62 else c63.

Definition value_of (c62 c63 : ascii) (c : ascii) : option Z :=
  let n := Z.of_N (N_of_ascii c) in
  if in_range "A" "Z" c then Some (n - 65)%Z
  else if in_range "a" "z" c then Some (n - 71)%Z
  else if in_range "0" "9" c then Some (n + 4)%Z
  else if decide (c = c62) then Some 62%Z
  else if decide (c = c63) then Some 63%Z
  else None.

Fixpoint to_sextets (l : list Z) : list Z :=
  (match l with
  | a :: b :: c :: r =>
      a / 4 :: (a mod 4) * 16 + b / 16 :: (b mod 16) * 4 + c / 64 :: c mod 64 :: to_sextets r
  | [a; b] => [a / 4; (a mod 4) * 16 + b / 16; (b mod 16) * 4]
  | [a] => [a / 4; (a mod 4) * 16]
  | [] => []
  end)%Z.

Fixpoint from_sextets (l : list Z) : option (list Z) :=
  (match l with
  | w :: x :: y :: z :: r =>
      rest ← from_sextets r;
      Some (w * 4 + x / 16 :: (x mod 16) * 16 + y / 4 :: (y mod 4) * 64 + z :: rest)
  | [w; x; y] => Some [w * 4 + x / 16; (x mod 16) * 16 + y / 4]
  | [w; x] => Some [w * 4 + x / 16]
  | [_] => None
  | [] => Some []
  end)%Z.

Definition not_newline (c : ascii) : bool := negb (bool_decide (c = nl) || bool_decide (c = cr)).

Definition encode_with (c62 c63 : ascii) (s : string) : string :=
  String.string_of_list_ascii (map (alphabet c62 c63) (to_sextets (bytes_of s))).

Definition decode_chars (c62 c63 : ascii) (l : list ascii) : option string :=
  vs ← mapM (value_of c62 c63) l;
  of_bytes <$> from_sextets vs.

(** [base64.RawURLEncoding] *)
Definition url_encode : string -> string := encode_with "-" "_".
Definition url_decode (s : string) : option string :=
  decode_chars "-" "_" (List.filter not_newline (String.list_ascii_of_string s)).

(** [base64.StdEncoding] *)
Definition std_encode (s : string) : string :=
  let e := encode_with "+" "/" s in
  e +:+ (match (slen e mod 4)%nat with 2 => "==" | 3 => "=" | _ => "" end).

Definition strip_padding (l : list ascii) : list ascii :=
  match rev l with
  | "="%char :: "="%char :: r => rev r
  | "="%char :: r => rev r
  | _ => l
  end.

Definition std_decode (s : string) : option string :=
  let l := List.filter not_newline (String.list_ascii_of_string s) in
  if decide ((length l mod 4)%nat = 0) then decode_chars "+" "/" (strip_padding l) else None.

(** ** Round trip *)

Definition byte (z : Z) : Prop := (0 <= z < 256)%Z.

Lemma to_from_sextets l : Forall byte l -> from_sextets (to_sextets l) = Some l.
Proof.
  unfold byte.
  assert (forall n l, length l < n -> Forall byte l -> from_sextets (to_sextets l) = Some l) as Hgo.
  2:{ intros Hl. by apply (Hgo (S (length l))); [lia|]. }
  clear l. unfold byte. induction n as [|n IH]; intros l Hn Hl; [lia|].
  destruct l as [|a [|b [|c r]]]; simpl; [done|..].
  - apply Forall_cons_1 in Hl as [Ha _]. do 2 f_equal. Z.div_mod_to_equations. lia.
  - apply Forall_cons_1 in Hl as [Ha [Hb _]%Forall_cons_1].
    do 2 f_equal; [|f_equal]; Z.div_mod_to_equations; lia.
  - apply Forall_cons_1 in Hl as [Ha [Hb [Hc Hr]%Forall_cons_1]%Forall_cons_1].
    rewrite IH by (simpl in Hn; done || lia). simpl.
    do 2 f_equal; [|f_equal; [|f_equal]]; Z.div_mod_to_equations; lia.
Qed.

Lemma sextets_range l : Forall byte l -> Forall (fun v => 0 <= v < 64)%Z (to_sextets l).
Proof.
  unfold byte.
  assert (forall n l, length l < n -> Forall byte l -> Forall (fun v => 0 <= v < 64)%Z (to_sextets l)) as Hgo.
  2:{ intros Hl. by apply (Hgo (S (length l))); [lia|]. }
  clear l. unfold byte. induction n as [|n IH]; intros l Hn Hl; [lia|].
  destruct l as [|a [|b [|c r]]]; simpl; [done|..].
  - apply Forall_cons_1 in Hl as [Ha _]. repeat constructor; Z.div_mod_to_equations; lia.
  - apply Forall_cons_1 in Hl as [Ha [Hb _]%Forall_cons_1].
    repeat constructor; Z.div_mod_to_equations; lia.
  - apply Forall_cons_1 in Hl as [Ha [Hb [Hc Hr]%Forall_cons_1]%Forall_cons_1].
    do 4 (constructor; [Z.div_mod_to_equations; lia|]).
    apply IH; [simpl in Hn; lia|done].
Qed.

Lemma bytes_of_range s : Forall byte (bytes_of s).
Proof.
  unfold bytes_of. apply Forall_map, Forall_true. intros c. simpl. unfold byte.
  pose proof (N_ascii_bounded c). lia.
Qed.

Lemma of_bytes_of s : of_bytes (bytes_of s) = s.
Proof.
  unfold of_bytes, bytes_of. rewrite map_map.
  rewrite (map_ext _ id), map_id, String.string_of_list_ascii_of_string; [done|].
  intros c. unfold byte_of_Z, id. pose proof (N_ascii_bounded c).
  rewrite Z.mod_small by lia. by rewrite N2Z.id, ascii_N_embedding.
Qed.

(** The URL alphabet: every value has its character back, and no character is
    skipped or is a dot. *)
Definition url_char_ok (v : Z) : bool :=
  let c := alphabet "-" "_" v in
  bool_decide (value_of "-" "_" c = Some v) && not_newline c && negb (bool_decide (c = "."%char)).

Lemma url_char v : (0 <= v < 64)%Z ->
  value_of "-" "_" (alphabet "-" "_" v) = Some v /\ not_newline (alphabet "-" "_" v) = true /\
  alphabet "-" "_" v <> "."%char.
Proof.
  intros Hv. assert (url_char_ok v = true) as Hc.
  { apply (check_range url_char_ok 0 64); [vm_compute; reflexivity|lia]. }
  unfold url_char_ok in Hc.
  rewrite !andb_true_iff, bool_decide_eq_true, negb_true_iff, bool_decide_eq_false in Hc. tauto.
Qed.

Lemma url_decode_encode s : url_decode (url_encode s) = Some s.
Proof.
  unfold url_decode, url_encode, encode_with, decode_chars.
  rewrite String.list_ascii_of_string_of_list_ascii.
  pose proof (sextets_range _ (bytes_of_range s)) as Hr.
  assert (List.filter not_newline (map (alphabet "-" "_") (to_sextets (bytes_of s)))
          = map (alphabet "-" "_") (to_sextets (bytes_of s))) as ->.
  { induction Hr as [|v l Hv Hl IH]; [done|]. simpl.
    destruct (url_char v Hv) as (_ & -> & _). by rewrite IH. }
  assert (mapM (value_of "-" "_") (map (alphabet "-" "_") (to_sextets (bytes_of s)))
          = Some (to_sextets (bytes_of s))) as ->.
  { induction Hr as [|v l Hv Hl IH]; [done|]. simpl.
    destruct (url_char v Hv) as (-> & _ & _). simpl. by rewrite IH. }
  simpl. rewrite to_from_sextets by apply bytes_of_range. simpl. by rewrite of_bytes_of.
Qed.

Lemma url_encode_no_dot s : free_of "." (url_encode s) = true.
Proof.
  unfold url_encode, encode_with, free_of.
  pose proof (sextets_range _ (bytes_of_range s)) as Hr.
  induction Hr as [|v l Hv Hl IH]; [done|]. simpl.
  destruct (url_char v Hv) as (_ & _ & Hd). by rewrite bool_decide_false, IH.
Qed.

(** ** The standard alphabet, with padding *)

Definition std_char_ok (v : Z) : bool :=
  let c := alphabet "+" "/" v in
  bool_decide (value_of "+" "/" c = Some v) && not_newline c && negb (bool_decide (c = "="%char)).

Lemma std_char v : (0 <= v < 64)%Z ->
  value_of "+" "/" (alphabet "+" "/" v) = Some v /\ not_newline (alphabet "+" "/" v) = true /\
  alphabet "+" "/" v <> "="%char.
Proof.
  intros Hv. assert (std_char_ok v = true) as Hc.
  { apply (check_range std_char_ok 0 64); [vm_compute; reflexivity|lia]. }
  unfold std_char_ok in Hc.
  rewrite !andb_true_iff, bool_decide_eq_true, negb_true_iff, bool_decide_eq_false in Hc. tauto.
Qed.

Lemma sextets_mod l : (length (to_sextets l) mod 4 <> 1)%nat.
Proof.
  enough (forall n l, length l < n -> (length (to_sextets l) mod 4 <> 1)%nat) as Hgo by (by apply (Hgo (S (length l))); lia).
  clear l. induction n as [|n IH]; intros l Hn; [lia|].
  destruct l as [|a [|b [|c r]]]; [done..|]. cbn [to_sextets length] in *.
  replace (S (S (S (S (length (to_sextets r)))))) with (length (to_sextets r) + 1 * 4) by lia.
  rewrite Nat.Div0.mod_add. apply IH. lia.
Qed.

(** A list of digits ends in none of the padding. *)
Lemma last_not_pad l c r : Forall (fun c => c <> "="%char) l -> rev l = c :: r -> c <> "="%char.
Proof.
  intros Hl E. rewrite list.Forall_forall in Hl. apply Hl, list_elem_of_In, in_rev. rewrite E. by left.
Qed.

Definition paddings : list (list ascii) := [[]; ["="%char]; ["="%char; "="%char]].

Lemma strip_padding_no l pad : Forall (fun c => c <> "="%char) l ->
  pad ∈ paddings -> strip_padding (l ++ pad) = l.
Proof.
  intros Hl Hp. unfold strip_padding. rewrite rev_app_distr. unfold paddings in Hp.
  rewrite !elem_of_cons in Hp. destruct Hp as [->|[->|[->|[]%not_elem_of_nil]]]; cbn [rev app].
  - rewrite app_nil_r. destruct (rev l) as [|c r] eqn:E; [done|].
    pose proof (last_not_pad l c r Hl E). by destruct c as [[] [] [] [] [] [] [] []].
  - destruct (rev l) as [|c r] eqn:E; [by rewrite <- (rev_involutive l), E|].
    pose proof (last_not_pad l c r Hl E).
    transitivity (rev (c :: r)); [by destruct c as [[] [] [] [] [] [] [] []]|].
    by rewrite <- E, rev_involutive.
  - by rewrite rev_involutive.
Qed.

Lemma list_ascii_app a b : String.list_ascii_of_string (a +:+ b) =
  String.list_ascii_of_string a ++ String.list_ascii_of_string b.
Proof. induction a as [|c a IH]; [done|simpl; by rewrite IH]. Qed.

Lemma slen_of_list l : slen (String.string_of_list_ascii l) = length l.
Proof. unfold slen. induction l as [|c l IH]; simpl; by rewrite ?IH. Qed.

Section StdChars.
Context (vs : list Z) (Hr : Forall (fun v => 0 <= v < 64)%Z vs).

Lemma std_chars_kept : List.filter not_newline (map (alphabet "+" "/") vs) = map (alphabet "+" "/") vs.
Proof.
  induction Hr as [|v l Hv Hl IH]; [done|]. simpl. destruct (std_char v Hv) as (_ & -> & _). by rewrite IH.
Qed.

Lemma std_values : mapM (value_of "+" "/") (map (alphabet "+" "/") vs) = Some vs.
Proof.
  induction Hr as [|v l Hv Hl IH]; [done|]. simpl. destruct (std_char v Hv) as (-> & _ & _). simpl.
  by rewrite IH.
Qed.

Lemma std_chars_no_pad : Forall (fun c => c <> "="%char) (map (alphabet "+" "/") vs).
Proof. induction Hr as [|v l Hv Hl IH]; [constructor|]. constructor; [apply (std_char v Hv)|by apply IH]. Qed.
End StdChars.

(** The characters of an encoding: digits, and padding to a multiple of four. *)
Lemma std_encode_chars s : exists pad,
  let cs := map (alphabet "+" "/") (to_sextets (bytes_of s)) in
  String.list_ascii_of_string (std_encode s) = cs ++ pad /\ pad ∈ paddings /\
  (length (cs ++ pad) mod 4 = 0)%nat.
Proof.
  set (cs := map (alphabet "+" "/") (to_sextets (bytes_of s))).
  exists (match (length cs mod 4)%nat with 2 => ["="; "="]%char | 3 => ["="%char] | _ => [] end).
  cbv zeta. unfold std_encode. rewrite list_ascii_app. unfold encode_with. fold cs.
  rewrite String.list_ascii_of_string_of_list_ascii, slen_of_list.
  assert (Hm : (length cs mod 4 <> 1)%nat) by (subst cs; rewrite length_map; apply sextets_mod).
  pose proof (Nat.mod_upper_bound (length cs) 4 ltac:(lia)).
  rewrite length_app, Nat.Div0.add_mod. unfold paddings. rewrite !elem_of_cons.
  destruct (length cs mod 4)%nat as [|[|[|[|]]]]; try lia; simpl; tauto.
Qed.

Lemma std_decode_encode s : std_decode (std_encode s) = Some s.
Proof.
  destruct (std_encode_chars s) as (pad & He & Hp & Hl). unfold std_decode. rewrite He.
  pose proof (sextets_range _ (bytes_of_range s)) as Hr.
  assert (Hf : List.filter not_newline pad = pad).
  { unfold paddings in Hp. rewrite !elem_of_cons in Hp. by destruct Hp as [->|[->|[->|[]%not_elem_of_nil]]]. }
  rewrite filter_app, Hf, std_chars_kept, decide_True by done.
  rewrite strip_padding_no by auto using std_chars_no_pad.
  unfold decode_chars. rewrite std_values by done. simpl.
  rewrite to_from_sextets by apply bytes_of_range. simpl. by rewrite of_bytes_of.
Qed.

Lemma bytes_of_bytes l : Forall byte l -> bytes_of (of_bytes l) = l.
Proof.
  intros Hl. unfold bytes_of, of_bytes. rewrite String.list_ascii_of_string_of_list_ascii, map_map.
  induction Hl as [|z l Hz Hl IH]; [done|]. cbn [map]. rewrite IH. f_equal.
  unfold byte_of_Z, byte in *. rewrite Z.mod_small, N_ascii_embedding by lia. lia.
Qed.
