(* ===== verification/Auth.v ===== *)
(** * auth: scopes, API tokens, their store, the validation cache and JWTs

    bcrypt, SHA-256, HMAC, the random source and the JSON codecs are
    parameters.  The store works on the file system of [FS]; the clock is an
    argument. *)

From S2P Require Import Prelude GoLib FS Base64.

(** ** scope.go *)

Definition Scope := string.
Definition ScopeRead : Scope := "read".
Definition ScopeWrite : Scope := "write".
Definition ScopeAdmin : Scope := "admin".

Definition Allows (s required : Scope) : bool :=
  if decide (required = ScopeRead) then
    bool_decide (s = ScopeAdmin) || bool_decide (s = ScopeWrite) || bool_decide (s = ScopeRead)
  else if decide (required = ScopeWrite) then
    bool_decide (s = ScopeAdmin) || bool_decide (s = ScopeWrite)
  else if decide (required = ScopeAdmin) then bool_decide (s = ScopeAdmin)
  else false.

(** ** token.go *)

Record APIToken := {
  ID : string; Name : string; TokenHash : string; TokenPrefix : string; TScope : Scope;
  CreatedBy : string; CreatedAt : time; ExpiresAt : option time; LastUsedAt : option time;
  RequestCount : Z; Enabled : bool
}.

#[export] Instance APIToken_eq_dec : EqDecision APIToken.
Proof. solve_decision. Defined.

Definition ErrDuplicateName : string := "peer_name_conflict: token name already exists".
Definition ErrInvalidDate : string := "invalid expiration date: must be in the future".
Definition ErrTokenNotFound : string := "not_found: token not found".

(** [random] is the 32 bytes drawn. *)
Definition GenerateTokenString (random : string) : string := "unet_" +:+ url_encode random.

(** [HashToken] and [VerifyToken]: bcrypt. *)
Class Bcrypt := {
  HashToken : string -> result string;
  VerifyToken : string -> string -> bool
}.

Definition expired (now : time) (t : option time) : bool :=
  match t with Some e => (e <? now)%Z | None => false end.

Definition NewAPIToken `{Bcrypt} (name : string) (scope : Scope) (createdBy : string)
    (expiresAt : option time) (random uuid : string) (now : time) : result (APIToken * string) :=
  if expired now expiresAt then Err ErrInvalidDate else
  let plainToken := GenerateTokenString random in
  hash ← HashToken plainToken;
  Ok ({| ID := uuid; Name := name; TokenHash := hash; TokenPrefix := stake 8 plainToken;
         TScope := scope; CreatedBy := createdBy; CreatedAt := now; ExpiresAt := expiresAt;
         LastUsedAt := None; RequestCount := 0; Enabled := true |}, plainToken).

(** ** store.go *)

Class TokensCodec := {
  tokens_marshal : list APIToken -> string;
  tokens_unmarshal : string -> option (list APIToken)
}.

Section Store.
Context `{TokensCodec} (dir file : string).

(** [Store.path] is [dir/file]. *)
Definition path : string := dir +:+ "/" +:+ file.

Definition load : eff World (list APIToken) :=
  r ← ReadFile path;
  match r with
  | NotExist => mret []
  | ReadError e => throw e
  | Contents data =>
      match tokens_unmarshal data with
      | Some tokens => mret tokens
      | None => if decide (slen data = 0) then mret [] else throw "invalid JSON"
      end
  end.

Definition save (tokens : list APIToken) : eff World unit :=
  let data := tokens_marshal tokens in
  _ ← MkdirAll dir;
  tmpName ← CreateTemp (dir +:+ "/tokens.") ".tmp";
  _ ← or_cleanup (WriteTo tmpName data) "" [CloseFile tmpName; Remove tmpName];
  _ ← or_cleanup (Sync tmpName) "" [CloseFile tmpName; Remove tmpName];
  _ ← or_cleanup (CloseFile tmpName) "" [Remove tmpName];
  _ ← try (Chmod tmpName);
  or_cleanup (Rename tmpName path) "" [Remove tmpName].

Definition has_name (name : string) (tokens : list APIToken) : bool :=
  existsb (fun t => bool_decide (Name t = name)) tokens.

Definition Create (token : APIToken) : eff World unit :=
  tokens ← load;
  if has_name (Name token) tokens then throw ErrDuplicateName
  else save (tokens ++ [token]).

Definition find_token (p : APIToken -> bool) (tokens : list APIToken) : result APIToken :=
  match List.find p tokens with Some t => Ok t | None => Err ErrTokenNotFound end.

Definition GetByID (id : string) : eff World APIToken :=
  tokens ← load; lift (find_token (fun t => bool_decide (ID t = id)) tokens).

Definition GetByName (name : string) : eff World APIToken :=
  tokens ← load; lift (find_token (fun t => bool_decide (Name t = name)) tokens).

Definition List_ : eff World (list APIToken) := load.

(** The loop over the list: changes the first token with this ID. *)
Fixpoint replace_first (id : string) (f : APIToken -> APIToken) (tokens : list APIToken)
  : option (list APIToken) :=
  match tokens with
  | [] => None
  | t :: rest => if decide (ID t = id) then Some (f t :: rest)
                 else cons t <$> replace_first id f rest
  end.

(** The check of [Update] against the other tokens. *)
Definition name_taken (token : APIToken) (tokens : list APIToken) : bool :=
  match List.find (fun t => bool_decide (ID t = ID token)) tokens with
  | Some t => negb (bool_decide (Name t = Name token)) &&
              existsb (fun other => negb (bool_decide (ID other = ID token)) &&
                                    bool_decide (Name other = Name token)) tokens
  | None => false
  end.

Definition Update (token : APIToken) : eff World unit :=
  tokens ← load;
  if name_taken token tokens then throw ErrDuplicateName else
  match replace_first (ID token) (fun _ => token) tokens with
  | Some tokens' => save tokens'
  | None => throw ErrTokenNotFound
  end.

Definition disable (t : APIToken) : APIToken :=
  {| ID := ID t; Name := Name t; TokenHash := TokenHash t; TokenPrefix := TokenPrefix t;
     TScope := TScope t; CreatedBy := CreatedBy t; CreatedAt := CreatedAt t;
     ExpiresAt := ExpiresAt t; LastUsedAt := LastUsedAt t; RequestCount := RequestCount t;
     Enabled := false |}.

Definition SoftDelete (id : string) : eff World unit :=
  tokens ← load;
  match replace_first id disable tokens with
  | Some tokens' => save tokens'
  | None => throw ErrTokenNotFound
  end.
End Store.

(** ** cache.go *)

Record cacheEntry := {
  tokenID : string; tokenName : string; scope : Scope; hash : string; sha256Sum : string;
  enabled : bool; expiresAt : option time; cachedAt : time
}.

(** The cache and the store it reads through. *)
Record TokenCache := { entries : gmap string cacheEntry; ttl : Z; store : World }.

Record TokenValidationResult := { TokenID : string; TokenName : string; VScope : Scope }.

Section Cache.
Context `{TokensCodec} `{Bcrypt} (dir file : string) (sha256 : string -> string).

Definition NewTokenCache (w : World) (ttl : Z) : TokenCache :=
  {| entries := ∅; ttl := if decide (ttl = 0)%Z then 5 * ns_minute else ttl; store := w |}.

Definition with_entries (e : gmap string cacheEntry) (c : TokenCache) : TokenCache :=
  {| entries := e; ttl := ttl c; store := store c |}.
Definition with_store (w : World) (c : TokenCache) : TokenCache :=
  {| entries := entries c; ttl := ttl c; store := w |}.

Definition cache_hit (c : TokenCache) (plainToken : string) (now : time)
  : option TokenValidationResult :=
  match entries c !! stake 8 plainToken with
  | Some e =>
      if bool_decide (now - cachedAt e < ttl c)%Z && enabled e &&
         bool_decide (sha256 plainToken = sha256Sum e)
      then Some {| TokenID := tokenID e; TokenName := tokenName e; VScope := scope e |}
      else None
  | None => None
  end.

Definition usable (plainToken : string) (now : time) (t : APIToken) : bool :=
  Enabled t && negb (expired now (ExpiresAt t)) && VerifyToken plainToken (TokenHash t).

Definition entry_of (plainToken : string) (now : time) (t : APIToken) : cacheEntry :=
  {| tokenID := ID t; tokenName := Name t; scope := TScope t; hash := TokenHash t;
     sha256Sum := sha256 plainToken; enabled := Enabled t; expiresAt := ExpiresAt t;
     cachedAt := now |}.

Definition Validate (plainToken : string) (now : time) : eff TokenCache TokenValidationResult :=
  fun c =>
  match cache_hit c plainToken now with
  | Some r => (Ok r, c)
  | None =>
      (tokens ← on_part store with_store (List_ dir file);
       match List.find (usable plainToken now) tokens with
       | Some t =>
           _ ← modify (fun c => with_entries
                 (<[TokenPrefix t := entry_of plainToken now t]> (entries c)) c);
           mret {| TokenID := ID t; TokenName := Name t; VScope := TScope t |}
       | None => throw ErrTokenNotFound
       end) c
  end.

Definition Invalidate (tokenPrefix : string) : eff TokenCache unit :=
  modify (fun c => with_entries (delete tokenPrefix (entries c)) c).
Definition InvalidateAll : eff TokenCache unit := modify (with_entries ∅).
End Cache.

(** ** jwt.go *)

Record JWTClaims := {
  Sub : string; CName : string; CScope : Scope; Iss : string; Iat : Z; Exp : Z; Jti : string
}.

Class ClaimsCodec := {
  claims_marshal : JWTClaims -> string;
  claims_unmarshal : string -> option JWTClaims
}.

Record JWTIssuer := { signingKey : string; jttl : Z }.

Definition defaultJWTTTL : Z := 15 * ns_minute.

Definition NewJWTIssuer (signingKeyBase64 : string) : result JWTIssuer :=
  match std_decode signingKeyBase64 with
  | None => Err "auth: decode jwt key: illegal base64 data"
  | Some key =>
      if decide (slen key < 32)
      then Err ("auth: jwt key too short (" +:+ Itoa (Z.of_nat (slen key)) +:+ " bytes, need 32)")
      else Ok {| signingKey := key; jttl := defaultJWTTTL |}
  end.

Definition GenerateJWTSigningKey (random : string) : string := std_encode random.

(** The loop of [splitJWT]: at the second dot the rest is the third part. *)
Definition splitJWT (s : string) : list string :=
  match IndexByte s "." with
  | None => []
  | Some i =>
      let rest := sdrop (S i) s in
      match IndexByte rest "." with
      | None => []
      | Some j => [stake i s; stake j rest; sdrop (S j) rest]
      end
  end.

Definition jwt_quote : string := String "034"%char EmptyString.
Definition jwt_header : string :=
  "{" +:+ jwt_quote +:+ "alg" +:+ jwt_quote +:+ ":" +:+ jwt_quote +:+ "HS256" +:+ jwt_quote +:+
  "," +:+ jwt_quote +:+ "typ" +:+ jwt_quote +:+ ":" +:+ jwt_quote +:+ "JWT" +:+ jwt_quote +:+ "}".

Section JWT.
Context `{ClaimsCodec} (hmac : string -> string -> string).

(** [now] in nanoseconds; [Unix] drops the fraction. *)
Definition Unix (t : time) : Z := (t / ns_second)%Z.

Definition issue_claims (j : JWTIssuer) (tokenID tokenName : string) (s : Scope) (jti : string)
    (now : time) : JWTClaims :=
  {| Sub := tokenID; CName := tokenName; CScope := s; Iss := "unet-daemon"; Iat := Unix now;
     Exp := Unix (now + jttl j)%Z; Jti := jti |}.

Definition sign (j : JWTIssuer) (signingInput : string) : string :=
  url_encode (hmac (signingKey j) signingInput).

Definition Issue (j : JWTIssuer) (tokenID tokenName : string) (s : Scope) (jti : string)
    (now : time) : string :=
  let signingInput := url_encode jwt_header +:+ "." +:+
    url_encode (claims_marshal (issue_claims j tokenID tokenName s jti now)) in
  signingInput +:+ "." +:+ sign j signingInput.

Definition jwt_Validate (j : JWTIssuer) (tokenStr : string) (now : time) : result JWTClaims :=
  match splitJWT tokenStr with
  | [p0; p1; p2] =>
      if decide (p2 <> sign j (p0 +:+ "." +:+ p1)) then Err "auth: invalid jwt signature" else
      match url_decode p1 with
      | None => Err "auth: decode jwt payload: illegal base64 data"
      | Some payload =>
          match claims_unmarshal payload with
          | None => Err "auth: unmarshal claims: invalid JSON"
          | Some claims =>
              if decide (Iss claims <> "unet-daemon") then Err "auth: invalid jwt issuer" else
              if decide (Exp claims < Unix now)%Z then Err "auth: jwt expired" else Ok claims
          end
      end
  | _ => Err "auth: invalid jwt format"
  end.
End JWT.

(** ** Lemmas on the store *)

Section StoreLemmas.
Context `{TokensCodec} (dir file : string).
Context (roundtrip : forall l, tokens_unmarshal (tokens_marshal l) = Some l).
(** The store's file is not named like a temporary one. *)
Context (c : ascii) (file_last : last_byte file = Some c) (c_not_p : c <> "p"%char).

Lemma path_last : last_byte (path dir file) = Some c.
Proof. unfold path. by do 2 apply last_byte_app. Qed.

Lemma tokens_tmp_ne r : (dir +:+ "/tokens.") +:+ r +:+ ".tmp" <> path dir file.
Proof. eapply tmp_ne; [done|apply path_last|congruence]. Qed.

Lemma save_atomic tokens w :
  atomic_at (path dir file) (tokens_marshal tokens) w (save dir file tokens).
Proof.
  atomic_next.
  apply atomic_bind; [apply keeps_CreateTemp, tokens_tmp_ne|apply no_panic_CreateTemp|].
  intros tmp w1 Etmp.
  assert (Hne : tmp <> path dir file).
  { unfold CreateTemp in Etmp. cbv zeta in Etmp. repeat case_match; simplify_eq/=; apply tokens_tmp_ne. }
  clear Etmp. atomic_next. apply write_ok in E0 as Htmp.
  atomic_next. apply or_cleanup_ok, (keeps_files tmp _ _ _ _ (keeps_id tmp)) in E1.
  atomic_next. apply or_cleanup_ok, (keeps_files tmp _ _ _ _ (keeps_id tmp)) in E2.
  apply atomic_bind; [solve [auto with fs]|solve [auto with fs]|]. intros r w5 E5.
  apply (keeps_files tmp _ _ _ _ (keeps_try tmp _ (keeps_id tmp))) in E5.
  apply atomic_rename; [congruence|done|]. constructor; [by apply keeps_Remove|done].
Qed.

(** What a reader of the disk finds. *)
Definition stored (w : World) : option (list APIToken) :=
  match files w !! path dir file with
  | None => Some []
  | Some data => match tokens_unmarshal data with
                 | Some l => Some l
                 | None => if decide (slen data = 0) then Some [] else None
                 end
  end.

Lemma load_spec w :
  files (snd (load dir file w)) = files w /\
  (forall p, fst (load dir file w) <> Panic p) /\
  forall l, fst (load dir file w) = Ok l -> stored w = Some l.
Proof.
  clear c c_not_p file_last. unfold load, ReadFile, stored, mbind, eff_bind. destruct (next_outcome w); simpl; [done|].
  destruct (files w !! path dir file) as [data|]; simpl; [|naive_solver].
  destruct (tokens_unmarshal data); simpl; [naive_solver|]. case_decide; simpl; naive_solver.
Qed.

Lemma save_stored tokens w :
  let w' := snd (save dir file tokens w) in
  (stored w' = stored w \/ stored w' = Some tokens) /\
  (fst (save dir file tokens w) = Ok tt -> stored w' = Some tokens).
Proof.
  intros w'. destruct (save_atomic tokens w) as [Hr _]. unfold stored. fold w' in Hr.
  destruct (fst (save dir file tokens w)) as [[]|e|p]; [| |done].
  all: rewrite Hr; rewrite ?roundtrip; auto. split; [auto|done].
Qed.

(** A failed [save] leaves the stored tokens as they are. *)
Lemma save_err tokens w e : fst (save dir file tokens w) = Err e ->
  stored (snd (save dir file tokens w)) = stored w.
Proof.
  intros He. destruct (save_atomic tokens w) as [Hr _]. rewrite He in Hr. unfold stored. by rewrite Hr.
Qed.

Lemma stored_files w w' : files w' = files w -> stored w' = stored w.
Proof. unfold stored. by intros ->. Qed.

Lemma replace_first_In id f l l' :
  replace_first id f l = Some l' -> exists l1 t l2,
  l = l1 ++ t :: l2 /\ l' = l1 ++ f t :: l2 /\ ID t = id.
Proof.
  revert l'. induction l as [|t l IH]; intros l'; simpl; [done|]. case_decide as Hid.
  - intros [= <-]. by exists [], t, l.
  - destruct (replace_first id f l) as [r|]; [|done]. intros [= <-].
    destruct (IH r eq_refl) as (l1 & u & l2 & -> & -> & Hu). by exists (t :: l1), u, l2.
Qed.

(** It is the token [GetByID] finds. *)
Lemma replace_first_found id f l l' t :
  List.find (fun t => bool_decide (ID t = id)) l = Some t -> replace_first id f l = Some l' ->
  exists l1 l2, l = l1 ++ t :: l2 /\ l' = l1 ++ f t :: l2 /\ ID t = id.
Proof.
  revert l'. induction l as [|u l IH]; intros l'; simpl; [done|]. case_decide as Hid.
  - rewrite bool_decide_true by done. intros [= ->] [= <-]. by exists [], l.
  - rewrite bool_decide_false by done. destruct (replace_first id f l) as [r|]; [|done].
    intros Hf [= <-]. destruct (IH r Hf eq_refl) as (l1 & l2 & -> & -> & ?). by exists (u :: l1), l2.
Qed.

Definition unique (l : list APIToken) : Prop := NoDup (map Name l) /\ NoDup (map ID l).

Lemma unique_snoc l t :
  unique l -> has_name (Name t) l = false -> (ID t ∉ map ID l) -> unique (l ++ [t]).
Proof.
  intros [Hn Hi] Hname Hid. unfold unique. rewrite !map_app. simpl.
  split; (apply list.NoDup_app; split; [done|]; split; [|apply list.NoDup_singleton]).
  - intros x Hx ->%list_elem_of_singleton. apply list_elem_of_fmap in Hx as (u & Hu & Hin).
    apply not_true_iff_false in Hname. apply Hname. unfold has_name. apply existsb_exists.
    exists u. split; [by apply list_elem_of_In|]. by apply bool_decide_eq_true.
  - by intros x Hx ->%list_elem_of_singleton.
Qed.

(** Replacing a token by one with its ID keeps uniqueness when the new name is
    not used by another. *)
Lemma unique_replace l1 t u l2 :
  unique (l1 ++ t :: l2) -> ID u = ID t ->
  (Name u ∉ map Name (l1 ++ l2)) -> unique (l1 ++ u :: l2).
Proof.
  intros [Hn Hi] Hid Hname. unfold unique in *. rewrite !map_app in *. simpl in *.
  rewrite Hid. split; [|done].
  rewrite <- Permutation_middle in Hn |- *. apply list.NoDup_cons in Hn as [_ Hn].
  apply list.NoDup_cons. split; [done|exact Hn].
Qed.

(** A disk whose tokens have unique names and IDs. *)
Definition store_ok (w : World) : Prop := exists l, stored w = Some l /\ unique l.

(** An operation that loads the tokens and may save others. *)
Lemma load_save_ok (k : list APIToken -> eff World unit) w :
  store_ok w ->
  (forall l w1, stored w1 = Some l -> unique l -> store_ok (snd (k l w1))) ->
  store_ok (snd (mbind k (load dir file) w)).
Proof.
  intros (l & Hl & Hu) Hk. destruct (load_spec w) as (Hf & _ & Hok).
  unfold mbind, eff_bind. destruct (load dir file w) as [[l'|e|p] w1]; simpl in *.
  - apply Hk; [rewrite (stored_files w w1); auto|]. specialize (Hok l' eq_refl). congruence.
  - exists l. by rewrite (stored_files w w1).
  - exists l. by rewrite (stored_files w w1).
Qed.

Lemma save_ok tokens w l :
  stored w = Some l -> unique l -> unique tokens -> store_ok (snd (save dir file tokens w)).
Proof.
  intros Hl Hu Ht. destruct (save_stored tokens w) as [[Hs|Hs] _]; [exists l|exists tokens];
    by rewrite Hs.
Qed.

Lemma Create_ok t w :
  store_ok w -> (forall l, stored w = Some l -> ID t ∉ map ID l) ->
  store_ok (snd (Create dir file t w)).
Proof.
  intros Hw Hfresh. unfold Create. destruct (load_spec w) as (Hf & _ & Hok).
  destruct Hw as (l0 & Hl0 & Hu0). unfold mbind, eff_bind.
  destruct (load dir file w) as [[l|e|p] w1]; simpl in *;
    [|exists l0; by rewrite (stored_files w w1)..].
  specialize (Hok l eq_refl). assert (l0 = l) as -> by congruence.
  destruct (has_name (Name t) l) eqn:Hname; simpl; [exists l; by rewrite (stored_files w w1)|].
  apply (save_ok _ _ l); [by rewrite (stored_files w w1)|done|].
  apply unique_snoc; auto.
Qed.

Lemma other_name l1 t l2 tok :
  unique (l1 ++ t :: l2) -> ID t = ID tok -> name_taken tok (l1 ++ t :: l2) = false ->
  Name tok ∉ map Name (l1 ++ l2).
Proof.
  intros [Hn Hi] Hid Htaken Hin.
  assert (List.find (fun t => bool_decide (ID t = ID tok)) (l1 ++ t :: l2) = Some t) as Hfind.
  { clear Htaken Hin Hn. induction l1 as [|u l1 IH]; simpl.
    - by rewrite bool_decide_true.
    - simpl in Hi. apply list.NoDup_cons in Hi as [Hu Hi]. rewrite bool_decide_false; [auto|].
      intros Hut. apply Hu. rewrite Hut, <- Hid, map_app. set_solver. }
  unfold name_taken in Htaken. rewrite Hfind in Htaken.
  apply list_elem_of_fmap in Hin as (u & Hu & Huin).
  assert (u ∈ l1 ++ t :: l2) as Hu' by set_solver.
  assert (ID u <> ID tok) as Hne.
  { intros Heq. rewrite map_app in Hi. simpl in Hi. rewrite <- Permutation_middle in Hi.
    apply list.NoDup_cons in Hi as [Ht _]. apply Ht. rewrite <- map_app, Hid, <- Heq.
    apply list_elem_of_fmap. eauto. }
  rewrite andb_false_iff, negb_false_iff, bool_decide_eq_true in Htaken.
  destruct Htaken as [Hsame|Hnone].
  - rewrite map_app in Hn. simpl in Hn. rewrite <- Permutation_middle in Hn.
    apply list.NoDup_cons in Hn as [Ht _]. apply Ht. rewrite <- map_app, Hsame, Hu.
    apply list_elem_of_fmap. eauto.
  - apply not_true_iff_false in Hnone. apply Hnone, existsb_exists.
    exists u. split; [by apply list_elem_of_In|].
    by rewrite bool_decide_false, bool_decide_true.
Qed.

Lemma Update_ok t w : store_ok w -> store_ok (snd (Update dir file t w)).
Proof.
  intros Hw. apply load_save_ok; [done|]. intros l w1 Hl Hu.
  destruct (name_taken t l) eqn:Htaken; [by exists l|].
  destruct (replace_first _ _ l) as [l'|] eqn:Hr; [|by exists l].
  apply (save_ok _ _ l); [done..|].
  apply replace_first_In in Hr as (l1 & u & l2 & -> & -> & Hid).
  eapply unique_replace; [exact Hu|done|]. by eapply other_name.
Qed.

Lemma SoftDelete_ok id w : store_ok w -> store_ok (snd (SoftDelete dir file id w)).
Proof.
  intros Hw. apply load_save_ok; [done|]. intros l w1 Hl Hu.
  destruct (replace_first _ _ l) as [l'|] eqn:Hr; [|by exists l].
  apply (save_ok _ _ l); [done..|].
  apply replace_first_In in Hr as (l1 & u & l2 & -> & -> & Hid).
  eapply unique_replace; [exact Hu|done|]. simpl. destruct Hu as [Hn _].
  rewrite map_app in *. simpl in Hn. rewrite <- Permutation_middle in Hn.
  by apply list.NoDup_cons in Hn as [? _].
Qed.

Lemma load_readable w l : stored w = Some l -> next_outcome w = None ->
  exists w1, load dir file w = (Ok l, w1).
Proof.
  unfold stored, load, ReadFile, mbind, eff_bind. intros Hs ->. cbn.
  destruct (files w !! path dir file) as [data|]; [|injection Hs as <-; by eexists].
  destruct (tokens_unmarshal data); [injection Hs as <-; by eexists|].
  case_decide; [injection Hs as <-; by eexists|done].
Qed.

(** What the three operations of the handlers amount to. *)
Lemma load_then {A} (k : list APIToken -> eff World A) w :
  (exists l w1, stored w = Some l /\ stored w1 = Some l /\ mbind k (load dir file) w = k l w1) \/
  (exists e, fst (mbind k (load dir file) w) = Err e /\
             stored (snd (mbind k (load dir file) w)) = stored w).
Proof.
  destruct (load_spec w) as (Hf & Hp & Hl). unfold mbind, eff_bind.
  destruct (load dir file w) as [[l|e|p] w1]; cbn in *; [left|right|by destruct (Hp p)].
  - exists l, w1. specialize (Hl l eq_refl). by rewrite (stored_files w w1).
  - exists e. by rewrite (stored_files w w1).
Qed.

Lemma save_spec tokens w :
  fst (save dir file tokens w) = Ok tt /\ stored (snd (save dir file tokens w)) = Some tokens \/
  exists e, fst (save dir file tokens w) = Err e /\ stored (snd (save dir file tokens w)) = stored w.
Proof.
  destruct (save_stored tokens w) as [_ Hok]. destruct (save_atomic tokens w) as [Hr _].
  pose proof (save_err tokens w) as He.
  revert Hr Hok He. destruct (fst (save dir file tokens w)) as [[]|e|p]; intros Hr Hok He; [by left; auto| |done].
  right. exists e. eauto.
Qed.

Lemma Create_spec t w :
  (exists l, fst (Create dir file t w) = Ok tt /\ stored w = Some l /\ has_name (Name t) l = false /\
             stored (snd (Create dir file t w)) = Some (l ++ [t])) \/
  (exists e, fst (Create dir file t w) = Err e /\ stored (snd (Create dir file t w)) = stored w).
Proof.
  unfold Create. match goal with |- context [mbind ?k _ _] =>
    destruct (load_then k w) as [(l & w1 & Hl & Hl1 & ->)|(e & He & Hs)] end; [|right; eauto].
  destruct (has_name (Name t) l) eqn:Hn; [right; exists ErrDuplicateName; by rewrite Hl|].
  destruct (save_spec (l ++ [t]) w1) as [[Ho Hs]|(e & He & Hs)]; [left|right].
  - by exists l.
  - exists e. by rewrite Hs, Hl, Hl1.
Qed.

Lemma GetByID_spec id w :
  stored (snd (GetByID dir file id w)) = stored w /\
  ((exists t l, fst (GetByID dir file id w) = Ok t /\ stored w = Some l /\
                List.find (fun t => bool_decide (ID t = id)) l = Some t) \/
   exists e, fst (GetByID dir file id w) = Err e).
Proof.
  unfold GetByID. match goal with |- context [mbind ?k _ _] =>
    destruct (load_then k w) as [(l & w1 & Hl & Hl1 & ->)|(e & He & Hs)] end; [|eauto].
  unfold lift, find_token. cbn. split; [congruence|].
  destruct (List.find _ l) as [t|] eqn:Hf; [left; by exists t, l|right; eauto].
Qed.

Lemma SoftDelete_spec id w :
  (exists l l', fst (SoftDelete dir file id w) = Ok tt /\ stored w = Some l /\
                replace_first id disable l = Some l' /\
                stored (snd (SoftDelete dir file id w)) = Some l') \/
  (exists e, fst (SoftDelete dir file id w) = Err e /\
             stored (snd (SoftDelete dir file id w)) = stored w).
Proof.
  unfold SoftDelete. match goal with |- context [mbind ?k _ _] =>
    destruct (load_then k w) as [(l & w1 & Hl & Hl1 & ->)|(e & He & Hs)] end; [|right; eauto].
  destruct (replace_first id disable l) as [l'|] eqn:Hr; [|right; exists ErrTokenNotFound; by rewrite Hl].
  destruct (save_spec l' w1) as [[Ho Hs]|(e & He & Hs)]; [left|right].
  - by exists l, l'.
  - exists e. by rewrite Hs, Hl, Hl1.
Qed.

(** ** Properties of the store *)

(** One operation on the store, with a fresh ID for a new token. *)
Inductive store_step (w : World) : World -> Prop :=
  | st_create t : (forall l, stored w = Some l -> ID t ∉ map ID l) ->
      store_step w (snd (Create dir file t w))
  | st_update t : store_step w (snd (Update dir file t w))
  | st_delete id : store_step w (snd (SoftDelete dir file id w))
  | st_list : store_step w (snd (load dir file w)).

(** C24: token names and IDs stay unique on disk, through any sequence of
    operations and whatever system calls fail. *)
Theorem token_names_unique w w' : store_ok w -> star store_step w w' -> store_ok w'.
Proof.
  intros Hw Hs. eapply (star_inv_ind store_step store_ok); [|exact Hw|exact Hs].
  clear w w' Hw Hs. intros w w' Hw. destruct 1.
  - by apply Create_ok.
  - by apply Update_ok.
  - by apply SoftDelete_ok.
  - destruct Hw as (l & Hl & Hu). exists l. split; [|done].
    destruct (load_spec w) as (Hf & _). by rewrite (stored_files w).
Qed.

(** A token that was created is found by its name, and one that was not
    created because the name exists leaves the disk alone. *)
Theorem create_then_get t w w' :
  store_ok w -> (forall l, stored w = Some l -> ID t ∉ map ID l) ->
  Create dir file t w = (Ok tt, w') -> outcomes w' = [] ->
  fst (GetByName dir file (Name t) w') = Ok t.
Proof.
  intros (l & Hl & Hu) Hfresh HC Ho. unfold Create in HC. bind_inv HC.
  destruct (load_spec w) as (Hf & _ & Hok). rewrite E in Hf, Hok. simpl in *.
  specialize (Hok a eq_refl). assert (l = a) as -> by congruence.
  destruct (has_name (Name t) a) eqn:Hname; [done|].
  destruct (save_stored (a ++ [t]) w0) as [_ Hs]. rewrite HC in Hs. simpl in Hs.
  specialize (Hs eq_refl). unfold GetByName, load, ReadFile, next_outcome, mbind, eff_bind.
  rewrite Ho. simpl. unfold stored in Hs.
  destruct (files w' !! path dir file) as [data|]; simpl; [|by destruct a].
  destruct (tokens_unmarshal data) as [l'|]; simpl; [|case_decide; by destruct a].
  injection Hs as ->. unfold lift, find_token. simpl.
  assert (List.find (fun u => bool_decide (Name u = Name t)) (a ++ [t]) = Some t) as ->; [|done].
  clear -Hname. induction a as [|u a IH]; simpl in *; [by rewrite bool_decide_true|].
  apply orb_false_iff in Hname as [-> Hname]. auto.
Qed.
End StoreLemmas.

(** ** Properties of the cache *)

Section CacheProperties.
Context `{TokensCodec} `{Bcrypt} (dir file : string) (sha256 : string -> string).

Inductive cache_step (c : TokenCache) : TokenCache -> Prop :=
  | cs_validate tok now : cache_step c (snd (Validate dir file sha256 tok now c))
  | cs_invalidate p : cache_step c (snd (Invalidate p c))
  | cs_invalidate_all : cache_step c (snd (InvalidateAll c))
  | cs_store w : cache_step c (with_store w c).

(** Accepted through the store. *)
Lemma Validate_miss tok now c r c' :
  (tokens ← on_part store with_store (List_ dir file);
   match List.find (usable tok now) tokens with
   | Some t =>
       _ ← modify (fun c => with_entries
             (<[TokenPrefix t := entry_of sha256 tok now t]> (entries c)) c);
       mret {| TokenID := ID t; TokenName := Name t; VScope := TScope t |}
   | None => throw ErrTokenNotFound
   end) c = (Ok r, c') ->
  exists t tokens, fst (List_ dir file (store c)) = Ok tokens /\ (t ∈ tokens) /\
    usable tok now t = true /\ ttl c' = ttl c /\
    entries c' = <[TokenPrefix t := entry_of sha256 tok now t]> (entries c) /\
    r = {| TokenID := ID t; TokenName := Name t; VScope := TScope t |}.
Proof.
  intros Hv. bind_inv Hv. unfold on_part in E. destruct (List_ dir file (store c)) as [rl w'].
  injection E as -> <-. destruct (List.find (usable tok now) a) as [t|] eqn:Hf; [|done].
  apply List.find_some in Hf as [Hin Hu]. simpl in Hv. injection Hv as <- <-.
  exists t, a. by rewrite list_elem_of_In.
Qed.

(** The two ways a token is accepted. *)
Lemma Validate_cases tok now c r c' :
  Validate dir file sha256 tok now c = (Ok r, c') ->
  (exists e, entries c !! stake 8 tok = Some e /\ (now - cachedAt e < ttl c)%Z /\
     sha256 tok = sha256Sum e /\ c' = c /\
     r = {| TokenID := tokenID e; TokenName := tokenName e; VScope := scope e |}) \/
  (exists t tokens, fst (List_ dir file (store c)) = Ok tokens /\ (t ∈ tokens) /\
     usable tok now t = true /\ ttl c' = ttl c /\
     entries c' = <[TokenPrefix t := entry_of sha256 tok now t]> (entries c) /\
     r = {| TokenID := ID t; TokenName := Name t; VScope := TScope t |}).
Proof.
  unfold Validate, cache_hit. intros Hv.
  destruct (entries c !! stake 8 tok) as [e|] eqn:He;
    [destruct (bool_decide _ && _ && _) eqn:Hb|].
  - left. rewrite !andb_true_iff, !bool_decide_eq_true in Hb. destruct Hb as [[Ht _] Hs].
    injection Hv as <- <-. by exists e.
  - right. by apply Validate_miss.
  - right. by apply Validate_miss.
Qed.

(** The token [plain] verified at the time [t0] against [t], which the store
    held in the cache [c]. *)
Definition verified_in (c : TokenCache) (plain : string) (t0 : Z) (t : APIToken) : Prop :=
  usable plain t0 t = true /\ exists l, fst (List_ dir file (store c)) = Ok l /\ t ∈ l.

Lemma Validate_entries tok now c :
  entries (snd (Validate dir file sha256 tok now c)) = entries c \/
  exists t, verified_in c tok now t /\ entries (snd (Validate dir file sha256 tok now c)) =
    <[TokenPrefix t := entry_of sha256 tok now t]> (entries c).
Proof.
  destruct (Validate dir file sha256 tok now c) as [[r|e|p] c'] eqn:Hv.
  - apply Validate_cases in Hv as [(e & _ & _ & _ & -> & _)|(t & l & Hl & Hin & Hu & _ & He & _)];
      [by left|right]. exists t. split; [|done]. split; [done|]. by exists l.
  - left. unfold Validate in Hv. destruct (cache_hit _ _ _ _); [done|].
    unfold mbind, eff_bind, on_part in Hv. destruct (List_ dir file (store c)) as [[l|e'|e'] w'].
    + destruct (List.find _ _); [done|]. by injection Hv as _ <-.
    + by injection Hv as _ <-.
    + done.
  - left. unfold Validate in Hv. destruct (cache_hit _ _ _ _); [done|].
    unfold mbind, eff_bind, on_part in Hv. destruct (List_ dir file (store c)) as [[l|e'|e'] w'].
    + by destruct (List.find _ _).
    + done.
    + by injection Hv as _ <-.
Qed.

(** Every entry of a reachable cache stands for a verification in a cache
    before it. *)
Definition entry_sound (init c : TokenCache) (e : cacheEntry) : Prop := exists c0 plain t,
  star cache_step init c0 /\ star cache_step c0 c /\ verified_in c0 plain (cachedAt e) t /\
  e = entry_of sha256 plain (cachedAt e) t.
Definition cache_sound (init c : TokenCache) : Prop :=
  star cache_step init c /\ map_Forall (fun _ e => entry_sound init c e) (entries c).

Lemma entry_later init c c' e : cache_step c c' -> entry_sound init c e -> entry_sound init c' e.
Proof.
  intros Hs (c0 & plain & t & H1 & H2 & H3). exists c0, plain, t. split_and!; [done| |apply H3..].
  by eapply star_snoc.
Qed.

Lemma cache_step_sound init c c' : cache_sound init c -> cache_step c c' -> cache_sound init c'.
Proof.
  intros [Hr Hc] Hs. split; [by eapply star_snoc|].
  assert (map_Forall (fun _ e => entry_sound init c' e) (entries c)) as Hc'.
  { eapply map_Forall_impl; [exact Hc|]. intros k e. by apply entry_later. }
  destruct Hs; simpl in *.
  - destruct (Validate_entries tok now c) as [->|(t & Hu & ->)]; [done|].
    apply map_Forall_insert_2; [|done]. exists c, tok, t. split_and!; try done.
    eapply star_snoc; [apply star_nil|apply cs_validate].
  - by apply map_Forall_delete.
  - apply map_Forall_empty.
  - done.
Qed.


(** The cache outlives the token: once accepted through the store, a token
    is accepted again for the whole time to live, whatever its expiry date. *)
Theorem cached_token_ignores_expiry tok t0 now c r c' :
  entries c = ∅ -> Validate dir file sha256 tok t0 c = (Ok r, c') ->
  (forall tokens t, fst (List_ dir file (store c)) = Ok tokens -> t ∈ tokens ->
     usable tok t0 t = true -> TokenPrefix t = stake 8 tok) ->
  (now - t0 < ttl c)%Z ->
  Validate dir file sha256 tok now c' = (Ok r, c').
Proof.
  intros He Hv Hp Ht. apply Validate_cases in Hv as [(e & Hl & _)|(t & l & Hls & Hin & Hu & Htl & Hent & ->)].
  - rewrite He, lookup_empty in Hl. done.
  - unfold Validate, cache_hit. rewrite Hent, <- (Hp l t Hls Hin Hu), lookup_insert_eq. simpl.
    apply andb_true_iff in Hu as [[Hen _]%andb_true_iff _].
    rewrite Htl, Hen, !bool_decide_true by done. done.
Qed.
End CacheProperties.

(** ** Properties of the tokens' web form *)

Section JWTProperties.
Context `{ClaimsCodec} (hmac : string -> string -> string).

Lemma splitJWT_app a b s :
  free_of "." a = true -> free_of "." b = true ->
  splitJWT ((a +:+ "." +:+ b) +:+ "." +:+ s) = [a; b; s].
Proof.
  intros Ha Hb. unfold splitJWT. rewrite !sapp_assoc.
  change ("." +:+ (b +:+ "." +:+ s)) with (String "."%char (b +:+ String "."%char s)).
  rewrite IndexByte_app by done.
  assert (sdrop (S (slen a)) (a +:+ String "."%char (b +:+ String "."%char s))
          = b +:+ String "."%char s) as ->.
  { replace (S (slen a)) with (slen (a +:+ ".")) by (rewrite slen_app; unfold slen; simpl; lia).
    change (String "."%char (b +:+ String "."%char s)) with ("." +:+ (b +:+ String "."%char s)).
    rewrite <- sapp_assoc. apply sdrop_app. }
  rewrite stake_app, IndexByte_app, stake_app by done. do 3 f_equal.
  replace (S (slen b)) with (slen (b +:+ ".")) by (rewrite slen_app; unfold slen; simpl; lia).
  change (String "."%char s) with ("." +:+ s). rewrite <- sapp_assoc. apply sdrop_app.
Qed.

(** Whatever the time, an issued JWT validates to nothing but its claims. *)
Lemma issued_claims j tokenID tokenName s jti t0 now cl :
  let claims := issue_claims j tokenID tokenName s jti t0 in
  claims_unmarshal (claims_marshal claims) = Some claims ->
  jwt_Validate hmac j (Issue hmac j tokenID tokenName s jti t0) now = Ok cl -> cl = claims.
Proof.
  intros claims Hrt. unfold Issue, jwt_Validate. cbv zeta. fold claims.
  rewrite splitJWT_app by apply url_encode_no_dot.
  rewrite decide_False by auto. rewrite url_decode_encode, Hrt. repeat case_decide; congruence.
Qed.

(** An issued JWT validates to exactly its claims, under the same key and
    until its time to live has passed. *)
Theorem jwt_roundtrip j tokenID tokenName s jti t0 now :
  let claims := issue_claims j tokenID tokenName s jti t0 in
  claims_unmarshal (claims_marshal claims) = Some claims ->
  (0 <= now <= t0 + jttl j)%Z ->
  jwt_Validate hmac j (Issue hmac j tokenID tokenName s jti t0) now = Ok claims.
Proof.
  intros claims Hrt Hnow. unfold Issue, jwt_Validate. cbv zeta. fold claims.
  rewrite splitJWT_app by apply url_encode_no_dot.
  rewrite decide_False by auto. rewrite url_decode_encode, Hrt.
  rewrite decide_False by auto. rewrite decide_False; [done|]. simpl. unfold Unix.
  apply Z.le_ngt, Z.div_le_mono; [done|lia].
Qed.

(** Only signed tokens validate: an accepted token is header, payload and
    the HMAC of both under the issuer's key; its payload holds the claims
    returned, from this issuer and not expired. *)
Theorem jwt_accepts_only_signed j tokenStr now claims :
  jwt_Validate hmac j tokenStr now = Ok claims ->
  exists p0 p1, tokenStr = (p0 +:+ "." +:+ p1) +:+ "." +:+ sign hmac j (p0 +:+ "." +:+ p1) /\
    (url_decode p1 ≫= claims_unmarshal) = Some claims /\
    Iss claims = "unet-daemon" /\ (Unix now <= Exp claims)%Z.
Proof.
  unfold jwt_Validate. intros Hv. unfold splitJWT in Hv.
  destruct (IndexByte tokenStr ".") as [i|] eqn:Hi; [|done].
  set (rest := sdrop (S i) tokenStr) in *.
  destruct (IndexByte rest ".") as [k|] eqn:Hk; [|done].
  set (third := sdrop (S k) rest) in *.
  destruct (decide (third <> _)) as [|Hsig] in Hv; [done|]. apply dec_stable in Hsig.
  destruct (url_decode (stake k rest)) as [payload|] eqn:Hd; [|done].
  destruct (claims_unmarshal payload) as [cl|] eqn:Hc; [|done].
  destruct (decide (Iss cl <> _)) as [|Hiss] in Hv; [done|]. apply dec_stable in Hiss.
  destruct (decide (Exp cl < _)%Z) as [|Hexp] in Hv; [done|]. injection Hv as ->.
  exists (stake i tokenStr), (stake k rest). rewrite <- Hsig, Hd. simpl.
  split; [|split; [done|split; [done|lia]]].
  etrans; [apply (IndexByte_cut _ _ _ Hi)|]. fold rest. rewrite !sapp_assoc. f_equal. simpl. f_equal.
  apply (IndexByte_cut _ _ _ Hk).
Qed.
End JWTProperties.

(** The scopes form the chain read, write, admin: a scope allows exactly
    the scopes at or below it, and no other string allows or is allowed. *)
Theorem allows_is_the_chain s required :
  Allows s required = true <->
  exists i j, [ScopeRead; ScopeWrite; ScopeAdmin] !! i = Some required /\
    [ScopeRead; ScopeWrite; ScopeAdmin] !! j = Some s /\ i <= j.
Proof.
  unfold Allows. split.
  - destruct (decide (required = ScopeRead)) as [Hr|_].
    { intros [[Hs|Hs]%orb_true_iff|Hs]%orb_true_iff; apply bool_decide_eq_true in Hs; subst;
        [exists 0, 2|exists 0, 1|exists 0, 0]; auto with lia. }
    destruct (decide (required = ScopeWrite)) as [Hr|_].
    { intros [Hs|Hs]%orb_true_iff; apply bool_decide_eq_true in Hs; subst;
        [exists 1, 2|exists 1, 1]; auto with lia. }
    destruct (decide (required = ScopeAdmin)) as [Hr|_]; [|done].
    intros Hs%bool_decide_eq_true. subst. by exists 2, 2.
  - intros (i & j & Hr & Hs & Hij).
    destruct i as [|[|[|i]]]; [..|done]; injection Hr as <-;
      destruct j as [|[|[|j]]]; try done; try lia; injection Hs as <-; done.
Qed.

(** ** Witnesses *)

(** The fields as a list of numbers, which keeps the encoding small. *)
Definition token_fields (t : APIToken) : list positive :=
  [encode (ID t); encode (Name t); encode (TokenHash t); encode (TokenPrefix t);
   encode (TScope t); encode (CreatedBy t); encode (CreatedAt t); encode (ExpiresAt t);
   encode (LastUsedAt t); encode (RequestCount t); encode (Enabled t)].
Definition token_of_fields (l : list positive) : option APIToken :=
  match l with
  | [a; b; c; d; e; f; g; h; i; j; k] =>
      a ← decode a; b ← decode b; c ← decode c; d ← decode d; e ← decode e; f ← decode f;
      g ← decode g; h ← decode h; i ← decode i; j ← decode j; k ← decode k;
      Some {| ID := a; Name := b; TokenHash := c; TokenPrefix := d; TScope := e; CreatedBy := f;
              CreatedAt := g; ExpiresAt := h; LastUsedAt := i; RequestCount := j; Enabled := k |}
  | _ => None
  end.
#[export] Instance APIToken_countable : Countable APIToken.
Proof.
  apply (inj_countable token_fields token_of_fields).
  intros []. unfold token_fields, token_of_fields. 
  do 11 (rewrite decode_encode; cbn [mbind option_bind]). done.
Defined.

Definition count_tokens : TokensCodec :=
  {| tokens_marshal := count_enc; tokens_unmarshal := count_dec |}.
(** A stand-in for bcrypt: the hash is the token. *)
Definition plain_bcrypt : Bcrypt :=
  {| HashToken s := Ok s; VerifyToken p h := bool_decide (p = h) |}.

Definition sample_token (name : string) : APIToken :=
  {| ID := name; Name := name; TokenHash := "unet_abcdef"; TokenPrefix := "unet_abc";
     TScope := ScopeRead; CreatedBy := ""; CreatedAt := 0%Z; ExpiresAt := Some 10%Z;
     LastUsedAt := None; RequestCount := 0; Enabled := true |}.
Definition blank : World := {| files := ∅; outcomes := []; draws := []; disks := [] |}.
Definition w_tokens_disk : World :=
  snd (@Create count_tokens "d" "t.json" (sample_token "a") blank).

Lemma blank_ok : @store_ok count_tokens "d" "t.json" blank.
Proof. exists []. split; [vm_compute; reflexivity|]. split; apply base.NoDup_nil_2. Qed.

Lemma token_names_unique_witness : @store_ok count_tokens "d" "t.json" w_tokens_disk.
Proof.
  apply (@token_names_unique count_tokens "d" "t.json" count_dec_enc "n"%char eq_refl
           ltac:(discriminate) blank); [apply blank_ok|].
  eapply star_snoc; [apply star_nil|]. apply st_create.
  intros l Hl. vm_compute in Hl. injection Hl as <-. simpl. intros H. inversion H.
Defined.

Lemma create_then_get_witness :
  fst (@GetByName count_tokens "d" "t.json" "a" w_tokens_disk) = Ok (sample_token "a").
Proof.
  apply (@create_then_get count_tokens "d" "t.json" count_dec_enc "n"%char eq_refl
           ltac:(discriminate) (sample_token "a") blank).
  - apply blank_ok.
  - intros l Hl. vm_compute in Hl. injection Hl as <-. simpl. intros H. inversion H.
  - vm_compute. reflexivity.
  - vm_compute. reflexivity.
Defined.

Section CacheWitness.
#[local] Existing Instance count_tokens.
#[local] Existing Instance plain_bcrypt.
Definition w_cache : TokenCache := NewTokenCache w_tokens_disk 0.
Definition w_accepted := Validate "d" "t.json" id "unet_abcdef" 5%Z w_cache.


(** The token expires at 10; at 1000 the cache still accepts it. *)
Lemma cached_token_ignores_expiry_witness :
  expired 1000%Z (ExpiresAt (sample_token "a")) = true /\
  is_ok (fst (Validate "d" "t.json" id "unet_abcdef" 1000%Z (snd w_accepted))) = true.
Proof.
  split; [reflexivity|].
  rewrite (cached_token_ignores_expiry "d" "t.json" id "unet_abcdef" 5%Z 1000%Z w_cache
    {| TokenID := "a"; TokenName := "a"; VScope := ScopeRead |} (snd w_accepted)).
  - reflexivity.
  - reflexivity.
  - vm_compute. reflexivity.
  - intros tokens t Hl Hin _. vm_compute in Hl. injection Hl as <-.
    apply list_elem_of_singleton in Hin as ->. reflexivity.
  - vm_compute. reflexivity.
Defined.
End CacheWitness.

Definition claims_tuple (c : JWTClaims) := (Sub c, CName c, CScope c, Iss c, Iat c, Exp c, Jti c).
#[export] Instance JWTClaims_eq_dec : EqDecision JWTClaims.
Proof. solve_decision. Defined.
#[export] Instance JWTClaims_countable : Countable JWTClaims.
Proof.
  apply (inj_countable' claims_tuple (fun '(a, b, c, d, e, f, g) =>
    {| Sub := a; CName := b; CScope := c; Iss := d; Iat := e; Exp := f; Jti := g |})).
  by intros [].
Defined.
Definition count_claims : ClaimsCodec :=
  {| claims_marshal := count_enc; claims_unmarshal := count_dec |}.
Definition short_hmac (k m : string) : string := stake 4 k +:+ stake 2 m.
Definition w_issuer : JWTIssuer := {| signingKey := "k"; jttl := defaultJWTTTL |}.
Definition w_jwt : string := @Issue count_claims short_hmac w_issuer "id" "n" ScopeWrite "j" 0%Z.

Lemma jwt_roundtrip_witness :
  @jwt_Validate count_claims short_hmac w_issuer w_jwt (seconds 60)
  = Ok (issue_claims w_issuer "id" "n" ScopeWrite "j" 0%Z).
Proof.
  apply (@jwt_roundtrip count_claims short_hmac w_issuer "id" "n" ScopeWrite "j" 0%Z (seconds 60)).
  - apply count_dec_enc.
  - vm_compute. split; discriminate.
Defined.

Lemma jwt_accepts_only_signed_witness : exists p0 p1,
  w_jwt = (p0 +:+ "." +:+ p1) +:+ "." +:+ sign short_hmac w_issuer (p0 +:+ "." +:+ p1).
Proof.
  destruct (@jwt_accepts_only_signed count_claims short_hmac w_issuer w_jwt 0%Z
    (issue_claims w_issuer "id" "n" ScopeWrite "j" 0%Z)) as (p0 & p1 & Hw & _).
  - vm_compute. reflexivity.
  - exists p0, p1. exact Hw.
Defined.
