(* ===== verification/Middleware.v ===== *)
(** * api/middleware: who a request is, what it may do, how often

    A handler is given as what it was called with: [Serve] passes the request
    on with the identity found, [Refuse] is the error response.  The token
    cache is the state; the clock is an argument. *)

From S2P Require Import Prelude GoLib Float64 FS Auth.
From Stdlib Require Import SpecFloat.

Record Request := {
  XForwardedFor : string; Authorization : string; RemoteAddr : string;
  Method : string; UrlPath : string; UserAgent : string
}.

Record AuthInfo := {
  ITokenID : string; ITokenName : string; IScope : string; Source : string; SessionID : string
}.

Inductive outcome :=
  | Serve (info : AuthInfo)
  | Refuse (status : Z) (code message : string).

(** [net.SplitHostPort]: the host, when the address has one colon outside
    brackets. *)
Fixpoint last_colon (s : string) : option nat :=
  match s with
  | EmptyString => None
  | String c s' => match last_colon s' with
                   | Some i => Some (S i)
                   | None => if decide (c = ":"%char) then Some 0 else None
                   end
  end.

Definition SplitHostPort (hostport : string) : option (string * string) :=
  i ← last_colon hostport;
  let port := sdrop (S i) hostport in
  if HasPrefix hostport "[" then
    e ← IndexByte hostport "]";
    if bool_decide (S e = i) && free_of "[" (sdrop 1 hostport) && free_of "]" (sdrop (S e) hostport)
    then Some (stake (e - 1) (sdrop 1 hostport), port) else None
  else
    let host := stake i hostport in
    if free_of ":" host && free_of "[" hostport && free_of "]" hostport
    then Some (host, port) else None.

Definition isLoopback (host : string) : bool :=
  bool_decide (host = "127.0.0.1") || bool_decide (host = "::1") ||
  bool_decide (host = "localhost") || HasPrefix host "127.".

Definition remote_host (r : Request) : string :=
  match SplitHostPort (RemoteAddr r) with Some (h, _) => h | None => RemoteAddr r end.

Definition ErrCodeUnauthorized : string := "unauthorized".
Definition ErrCodeForbiddenScope : string := "forbidden_scope".
Definition ErrCodeRateLimited : string := "rate_limited".
Definition unauthorized (m : string) : outcome := Refuse 401 ErrCodeUnauthorized m.

Definition localhost_info : AuthInfo :=
  {| ITokenID := "localhost"; ITokenName := "localhost"; IScope := ScopeAdmin;
     Source := "localhost"; SessionID := "" |}.

Section Dispatch.
Context `{TokensCodec} `{Bcrypt} `{ClaimsCodec} (dir file : string).
Context (sha256 : string -> string) (hmac : string -> string -> string).
(** [deps.JWTIssuer] *)
Context (issuer : JWTIssuer).

Definition handlePAT (plainToken : string) (now : time) : eff TokenCache outcome :=
  r ← try (Validate dir file sha256 plainToken now);
  mret (match r with
        | Ok v => Serve {| ITokenID := TokenID v; ITokenName := TokenName v; IScope := VScope v;
                           Source := "pat"; SessionID := "" |}
        | _ => unauthorized "Invalid or expired token"
        end).

Definition jwt_info (c : JWTClaims) : AuthInfo :=
  {| ITokenID := Sub c; ITokenName := CName c; IScope := CScope c; Source := "jwt";
     SessionID := Jti c |}.

(** Is the token the JWT was issued for still enabled? *)
Definition sub_enabled (sub : string) (tokens : list APIToken) : bool :=
  existsb (fun t => bool_decide (ID t = sub) && Enabled t) tokens.

(** [has_cache]: whether the dispatcher was given a token cache. *)
Definition handleJWT (has_cache : bool) (tokenStr : string) (now : time) : eff TokenCache outcome :=
  match jwt_Validate hmac issuer tokenStr now with
  | Ok claims =>
      if has_cache then
        tokens ← try (on_part store with_store (List_ dir file));
        mret (match tokens with
              | Ok tokens => if sub_enabled (Sub claims) tokens then Serve (jwt_info claims)
                             else unauthorized "Referenced token revoked or deleted"
              | _ => unauthorized "Token validation failed"
              end)
      else mret (Serve (jwt_info claims))
  | _ => mret (unauthorized "Invalid or expired JWT")
  end.

(** The dispatcher of main, which has one: [handlePAT] uses it unchecked. *)
Definition handleTokenAuth (r : Request) (now : time) : eff TokenCache outcome :=
  let authHeader := Authorization r in
  if decide (authHeader = EmptyString) then mret (unauthorized "Authorization header required") else
  let token := TrimPrefix authHeader "Bearer " in
  if decide (token = authHeader)
  then mret (unauthorized "Invalid authorization scheme, use Bearer")
  else if HasPrefix token "unet_" then handlePAT token now
  else if HasPrefix token "eyJ" then handleJWT true token now
  else mret (unauthorized "Unrecognized token format").

Definition AuthDispatcher (r : Request) (now : time) : eff TokenCache outcome :=
  if decide (XForwardedFor r <> EmptyString) then handleTokenAuth r now
  else if isLoopback (remote_host r) then mret (Serve localhost_info)
  else handleTokenAuth r now.

Definition RequireScope (required : Scope) (info : option AuthInfo) : outcome :=
  match info with
  | None => unauthorized "Authentication required"
  | Some i => if Allows (IScope i) required then Serve i
              else Refuse 403 ErrCodeForbiddenScope "Insufficient scope"
  end.

(** [AuthDispatcher(deps, RequireScope(required, next))] *)
Definition guarded (required : Scope) (r : Request) (now : time) : eff TokenCache outcome :=
  o ← AuthDispatcher r now;
  mret (match o with Serve i => RequireScope required (Some i) | Refuse s c m => Refuse s c m end).
End Dispatch.

(** ** ratelimit.go *)

Record visitor := { tokens : f64; lastCheck : time }.

Definition rateLimitPerMinute : Z := 60.
Definition rateLimitBurst : Z := 10.
Definition rateLimitWindow : Z := ns_minute.
Definition rateLimitEvictAfter : Z := 2 * ns_minute.

Abbreviation RateLimiter := (gmap string visitor).

(** [now.Sub(t)]: saturates at the ends of [Duration]. *)
Definition time_Sub (now t : time) : Z := Z.max int64_min (Z.min int64_max (now - t)).

Definition evict (now : time) (vs : RateLimiter) : RateLimiter :=
  if decide (1000 < size vs)
  then filter (fun kv => (time_Sub now (lastCheck (snd kv)) <= rateLimitEvictAfter)%Z) vs
  else vs.

Definition refilled (now : time) (v : visitor) : f64 :=
  let elapsed := time_Sub now (lastCheck v) in
  let t := f_add (tokens v) (f_div (f_mul (f_of_Z elapsed) (f_of_Z rateLimitPerMinute))
                                   (f_of_Z rateLimitWindow)) in
  if f_ltb (f_of_Z rateLimitBurst) t then f_of_Z rateLimitBurst else t.

Definition allow (key : string) (now : time) (vs : RateLimiter) : bool * RateLimiter :=
  let vs := evict now vs in
  match vs !! key with
  | None => (true, <[key := {| tokens := f_of_Z (rateLimitBurst - 1); lastCheck := now |}]> vs)
  | Some v =>
      let t := refilled now v in
      if f_ltb t (f_of_Z 1) then (false, <[key := {| tokens := t; lastCheck := now |}]> vs)
      else (true, <[key := {| tokens := f_sub t (f_of_Z 1); lastCheck := now |}]> vs)
  end.

(** [RateLimiter.Middleware] *)
Definition rate_limited (info : option AuthInfo) (now : time) (vs : RateLimiter)
  : bool * RateLimiter :=
  match info with
  | Some i => if bool_decide (ITokenID i = EmptyString) || bool_decide (Source i = "localhost")
              then (true, vs) else allow (ITokenID i) now vs
  | None => (true, vs)
  end.

(** ** audit.go *)

Inductive Action := ActionCreatePeer | ActionDeletePeer | ActionCreateRoute | ActionDeleteRoute
  | ActionCreateToken | ActionRevokeToken | NoAction.

Definition methodToAction (method path : string) : Action :=
  let pick a b := if decide (method = "POST") then a else b in
  if Contains path "/peers" then pick ActionCreatePeer ActionDeletePeer
  else if Contains path "/routes" then pick ActionCreateRoute ActionDeleteRoute
  else if Contains path "/tokens" then pick ActionCreateToken ActionRevokeToken
  else NoAction.

Record AuditEntry := {
  ActorTokenID : string; ActorTokenName : string; EAction : Action; SourceIP : string;
  EUserAgent : string
}.

(** The entry [AuditLog] writes after the handler answered with [statusCode]. *)
Definition AuditLog (has_logger : bool) (info : option AuthInfo) (r : Request) (statusCode : Z)
  : option AuditEntry :=
  if negb has_logger then None else
  match info with
  | Some i =>
      if decide (Source i = "localhost") then None
      else if decide (Method r <> "POST" /\ Method r <> "DELETE") then None
      else if decide (statusCode < 200 \/ 300 <= statusCode)%Z then None
      else Some {| ActorTokenID := ITokenID i; ActorTokenName := ITokenName i;
                   EAction := methodToAction (Method r) (UrlPath r); SourceIP := RemoteAddr r;
                   EUserAgent := UserAgent r |}
  | None => None
  end.

(** ** Properties *)

Section Properties.
Context `{TokensCodec} `{Bcrypt} `{ClaimsCodec} (dir file : string).
Context (sha256 : string -> string) (hmac : string -> string -> string) (issuer : JWTIssuer).

(** The three ways to be let in with a scope. *)
Inductive let_in (required : Scope) (r : Request) (now : time) (c : TokenCache) : AuthInfo -> Prop :=
  | in_local : XForwardedFor r = EmptyString -> isLoopback (remote_host r) = true ->
      let_in required r now c localhost_info
  | in_pat tok v : Authorization r = "Bearer " +:+ tok -> HasPrefix tok "unet_" = true ->
      fst (Validate dir file sha256 tok now c) = Ok v -> Allows (VScope v) required = true ->
      let_in required r now c {| ITokenID := TokenID v; ITokenName := TokenName v;
                                 IScope := VScope v; Source := "pat"; SessionID := "" |}
  | in_jwt tok claims l : Authorization r = "Bearer " +:+ tok ->
      jwt_Validate hmac issuer tok now = Ok claims ->
      fst (List_ dir file (store c)) = Ok l -> sub_enabled (Sub claims) l = true ->
      Allows (CScope claims) required = true ->
      let_in required r now c (jwt_info claims).

Lemma TrimPrefix_cut s p : TrimPrefix s p <> s -> s = p +:+ TrimPrefix s p.
Proof.
  destruct (HasPrefix s p) eqn:Hp; [|by rewrite TrimPrefix_no].
  apply HasPrefix_spec in Hp as [rest ->]. by rewrite TrimPrefix_app.
Qed.

Lemma token_auth_let_in required r now c i :
  fst (handleTokenAuth dir file sha256 hmac issuer r now c) = Ok (Serve i) ->
  Allows (IScope i) required = true -> let_in required r now c i.
Proof.
  unfold handleTokenAuth. case_decide as He; [done|]. cbv zeta. case_decide as Ht; [done|].
  apply TrimPrefix_cut in Ht. set (tok := TrimPrefix _ _) in *.
  destruct (HasPrefix tok "unet_") eqn:Hu; [|destruct (HasPrefix tok "eyJ"); [|done]].
  - unfold handlePAT, mbind, eff_bind, try.
    destruct (Validate dir file sha256 tok now c) as [[v|e|e] c'] eqn:Hv; simpl; [|done..].
    intros [= <-] Ha. simpl in Ha. eapply in_pat; [done|done| |done]. by rewrite Hv.
  - unfold handleJWT. destruct (jwt_Validate _ _ _ _) as [claims|e|e] eqn:Hj; [|done..].
    unfold mbind, eff_bind, try, on_part.
    destruct (List_ dir file (store c)) as [[l|e|e] w] eqn:Hl; simpl; [|done..].
    destruct (sub_enabled (Sub claims) l) eqn:Hs; [|done]. intros [= <-] Ha.
    eapply in_jwt; eauto. by rewrite Hl.
Qed.

Lemma dispatched_let_in required r now c i :
  fst (AuthDispatcher dir file sha256 hmac issuer r now c) = Ok (Serve i) ->
  Allows (IScope i) required = true -> let_in required r now c i.
Proof.
  unfold AuthDispatcher. intros Ho Ha.
  destruct (decide (XForwardedFor r <> EmptyString)) as [Hx|Hx];
    [|destruct (isLoopback (remote_host r)) eqn:Hloop].
  - by apply token_auth_let_in.
  - injection Ho as <-. apply in_local; [by apply dec_stable|done].
  - by apply token_auth_let_in.
Qed.

(** C10: a guarded handler runs only for a local connection that was not
    forwarded, a personal token the store accepts, or a JWT whose token is
    still enabled; in the last two cases their scope allows the required one.
    A forwarded request is never local. *)
Theorem guarded_lets_in required r now c i :
  fst (guarded dir file sha256 hmac issuer required r now c) = Ok (Serve i) ->
  let_in required r now c i.
Proof.
  unfold guarded, mbind, eff_bind.
  destruct (AuthDispatcher dir file sha256 hmac issuer r now c) as [[o|e|e] c'] eqn:Ho; [|done..].
  simpl. destruct o as [j|]; [|done]. unfold RequireScope.
  destruct (Allows (IScope j) required) eqn:Ha; [|done]. intros [= <-].
  apply dispatched_let_in; [by rewrite Ho|done].
Qed.
End Properties.

(** The answers to calls for one key, each at an offset from [t0]. *)
Fixpoint answers (key : string) (t0 : time) (offsets : list Z) (vs : RateLimiter) : list bool :=
  match offsets with
  | [] => []
  | d :: ds => let '(b, vs') := allow key (t0 + d)%Z vs in b :: answers key t0 ds vs'
  end.

(** The state of one key. *)
Definition key_step (now : time) (v : option visitor) : bool * visitor :=
  match v with
  | None => (true, {| tokens := f_of_Z (rateLimitBurst - 1); lastCheck := now |})
  | Some v => let t := refilled now v in
              if f_ltb t (f_of_Z 1) then (false, {| tokens := t; lastCheck := now |})
              else (true, {| tokens := f_sub t (f_of_Z 1); lastCheck := now |})
  end.

Lemma allow_key_step key now vs : size vs <= 1000 ->
  allow key now vs = (fst (key_step now (vs !! key)), <[key := snd (key_step now (vs !! key))]> vs).
Proof.
  intros Hsz. unfold allow, evict. rewrite decide_False by lia. unfold key_step.
  destruct (vs !! key); [|done]. by case_match.
Qed.

(** Keys do not share a budget: a call for one key leaves every other key's
    bucket as it is, until more than a thousand keys are known. *)
Theorem rate_keys_independent k1 k2 now vs :
  k1 <> k2 -> size vs <= 1000 -> snd (allow k1 now vs) !! k2 = vs !! k2.
Proof.
  intros Hne Hsz. rewrite allow_key_step by done. simpl. by rewrite lookup_insert_ne.
Qed.

(** A call moves the time base only. *)
Definition shift_visitor (d : Z) (v : visitor) : visitor :=
  {| tokens := tokens v; lastCheck := (lastCheck v + d)%Z |}.

Lemma key_step_shift d now v :
  key_step (now + d)%Z (shift_visitor d <$> v) =
  (fst (key_step now v), shift_visitor d (snd (key_step now v))).
Proof.
  unfold key_step. destruct v as [v|]; [|done]. simpl. unfold refilled, time_Sub. simpl.
  replace (now + d - (lastCheck v + d))%Z with (now - lastCheck v)%Z by lia. by case_match.
Qed.

Fixpoint key_answers (t0 : time) (offsets : list Z) (v : option visitor) : list bool :=
  match offsets with
  | [] => []
  | d :: ds => let '(b, v') := key_step (t0 + d)%Z v in b :: key_answers t0 ds (Some v')
  end.

Lemma answers_key key t0 ds vs : size (<[key := {| tokens := f_of_Z 0; lastCheck := 0%Z |}]> vs) <= 1000 ->
  answers key t0 ds vs = key_answers t0 ds (vs !! key).
Proof.
  revert vs. induction ds as [|d ds IH]; intros vs Hsz; [done|]. simpl.
  assert (size vs <= 1000) as Hvs.
  { etrans; [|exact Hsz]. rewrite map_size_insert. destruct (vs !! key); simpl; lia. }
  rewrite allow_key_step by done. destruct (key_step (t0 + d)%Z (vs !! key)) as [b v']. simpl.
  rewrite IH; [by rewrite lookup_insert_eq|].
  rewrite insert_insert_eq. rewrite map_size_insert in *. done.
Qed.

Lemma key_answers_shift t0 ds v :
  key_answers t0 ds (shift_visitor t0 <$> v) = key_answers 0%Z ds v.
Proof.
  revert v. induction ds as [|d ds IH]; intros v; [done|]. simpl.
  replace (t0 + d)%Z with (0 + d + t0)%Z by lia. rewrite key_step_shift.
  destruct (key_step (0 + d)%Z v) as [b v']. simpl. by rewrite <- IH.
Qed.

(** The limit as documented, whenever a key starts: ten requests at once
    pass and the eleventh does not; after half a second still none passes,
    after each full second exactly one does; a long pause gives ten again,
    never more. *)
Theorem rate_limit_profile key t0 :
  answers key t0 (replicate 11 0 ++ [seconds 1 / 2; seconds 1; seconds 1; seconds 2; seconds 2] ++
                  replicate 11 (seconds 3600))%Z ∅ =
  replicate 10 true ++ [false] ++ [false; true; false; true; false] ++ replicate 10 true ++ [false].
Proof.
  rewrite answers_key by (rewrite insert_empty, map_size_singleton; lia).
  rewrite lookup_empty. change None with (shift_visitor t0 <$> @None visitor).
  rewrite key_answers_shift. vm_compute. reflexivity.
Qed.

(** ** Witnesses *)

Definition local_request (xff : string) : Request :=
  {| XForwardedFor := xff; Authorization := "Bearer unet_abcdef"; RemoteAddr := "127.0.0.1:5000";
     Method := "GET"; UrlPath := "/api/v1/peers"; UserAgent := "" |}.

Section Witnesses.
#[local] Existing Instance count_tokens.
#[local] Existing Instance plain_bcrypt.
#[local] Existing Instance count_claims.

Definition pat_info : AuthInfo :=
  {| ITokenID := "a"; ITokenName := "a"; IScope := "read"; Source := "pat"; SessionID := "" |}.

(** Through a proxy, the same connection needs its token. *)
Lemma guarded_lets_in_witness :
  let_in "d" "t.json" id short_hmac w_issuer ScopeRead (local_request "203.0.113.9") 5%Z w_cache pat_info.
Proof. apply guarded_lets_in. vm_compute. reflexivity. Defined.
End Witnesses.

Lemma rate_keys_independent_witness : snd (allow "a" 5%Z (∅ : RateLimiter)) !! "b" = None.
Proof. etransitivity; [apply (rate_keys_independent "a" "b" 5%Z ∅)|reflexivity]; vm_compute; [discriminate|lia]. Defined.
