(* ===== verification/Invite.v ===== *)
(** * invite: invitation links, their file store, the rate limit and the gates

    SHA-256, HMAC, AES-GCM, the random source and the JSON codec are
    parameters.  The store works on the file system of [FS], where seeking and
    reading through an open handle succeed; a handler reads the clock once, as
    its argument [now]. *)

From S2P Require Import Prelude GoLib FS Base64.

(** ** invite.go *)

Definition ModeHMAC : string := "hmac".
Definition ModeShortCode : string := "shortcode".

Record InviteLink := {
  ID : string; PeerID : string; Mode : string; TokenHash : string; ShortCode : string;
  ExpiresAt : time; MaxUses : Z; UseCount : Z; CreatedAt : time; CreatedBy : string;
  ClaimedAt : option time; ClaimedIP : string; ConfigEnc : string; HMACSig : string
}.

Record CreateInviteRequest := {
  rPeerID : string; rMode : string; rTTLSeconds : Z; rMaxUses : Z
}.

Class InviteCodec := {
  inv_marshal : InviteLink -> string;
  inv_unmarshal : string -> option InviteLink
}.

(** ** bufio.Scanner over lines *)

Definition drop_cr (s : string) : string := TrimSuffix s (String cr EmptyString).

(** The next line and what follows it; [None] at the end of the input or when
    the line does not fit a buffer of [max] bytes. *)
Definition scan_line (max : nat) (s : string) : option (string * string) :=
  match s with
  | EmptyString => None
  | _ =>
      match IndexByte s nl with
      | Some i => if decide (i < max) then Some (drop_cr (stake i s), sdrop (S i) s) else None
      | None => if decide (slen s < max) then Some (drop_cr s, EmptyString) else None
      end
  end.

(** All lines, and whether the scanner stopped before the end. *)
Fixpoint scan_all (fuel max : nat) (s : string) : list string * bool :=
  match fuel with
  | O => ([], true)
  | S f =>
      match scan_line max s with
      | Some (line, rest) => let '(ls, e) := scan_all f max rest in (line :: ls, e)
      | None => ([], negb (bool_decide (s = EmptyString)))
      end
  end.
Definition scan_lines (max : nat) (s : string) : list string * bool := scan_all (S (slen s)) max s.

Definition MaxScanTokenSize : nat := Z.to_nat (64 * 1024).
Definition storeBuffer : nat := Z.to_nat (1024 * 1024).

(** ** store.go *)

Section Store.
Context `{InviteCodec} (dir : string).

Definition storePath : string := dir +:+ "/invites.jsonl".

(** [file_open] tells whether the handle [s.file] is open. *)
Record Store := { disk : World; index : gmap string Z; file_open : bool }.

Definition with_disk (w : World) (s : Store) : Store :=
  {| disk := w; index := index s; file_open := file_open s |}.
Definition with_index (i : gmap string Z) (s : Store) : Store :=
  {| disk := disk s; index := i; file_open := file_open s |}.
Definition with_open (b : bool) (s : Store) : Store :=
  {| disk := disk s; index := index s; file_open := b |}.
Definition onDisk {A} (m : eff World A) : eff Store A := on_part disk with_disk m.

(** [os.OpenFile(path, O_CREATE|O_RDWR|O_APPEND)] *)
Definition OpenCreate (name : string) : eff World unit :=
  syscall (fun d => match d !! name with None => <[name := EmptyString]> d | Some _ => d end) no_change.

Definition contents (w : World) : string := default EmptyString (files w !! storePath).

(** One line of an index: an offset is moved by the line and its newline. *)
Definition index_line (line : string) (io : gmap string Z * Z) : gmap string Z * Z :=
  let '(i, o) := io in
  (match inv_unmarshal line with
   | Some inv => if decide (TokenHash inv <> EmptyString) then <[TokenHash inv := o]> i else i
   | None => i
   end, o + Z.of_nat (slen line) + 1)%Z.

Definition index_lines (lines : list string) (io : gmap string Z * Z) : gmap string Z * Z :=
  foldl (fun io line => index_line line io) io lines.

Definition buildIndex : eff World (gmap string Z) :=
  r ← ReadFile storePath;
  match r with
  | Contents data =>
      let '(lines, err) := scan_lines storeBuffer data in
      if err : bool then throw "bufio.Scanner: token too long"
      else mret (fst (index_lines lines (∅, 0%Z)))
  | NotExist => throw "file does not exist"
  | ReadError e => throw e
  end.

Definition NewStore : eff World Store :=
  _ ← wrap "mkdir invites: " (MkdirAll dir);
  _ ← wrap "open invites store: " (OpenCreate storePath);
  i ← wrap "build index: " buildIndex;
  w ← get;
  mret {| disk := w; index := i; file_open := true |}.

Definition Append (inv : InviteLink) : eff Store unit := fun s =>
  let data := inv_marshal inv +:+ nls in
  if negb (file_open s) then (Err "seek end: file already closed", s) else
  let offset := Z.of_nat (slen (contents (disk s))) in
  (_ ← wrap "write invite: " (onDisk (AppendTo storePath data));
   if decide (TokenHash inv = EmptyString) then mret tt
   else modify (fun s => with_index (<[TokenHash inv := offset]> (index s)) s)) s.

Definition FindByTokenHash (h : string) : eff Store (option InviteLink) := fun s =>
  match index s !! h with
  | None => (Ok None, s)
  | Some offset =>
      if negb (file_open s) then (Err "seek to offset: file already closed", s) else
      match scan_line MaxScanTokenSize (sdrop (Z.to_nat offset) (contents (disk s))) with
      | None => (Ok None, s)
      | Some (line, _) =>
          match inv_unmarshal line with
          | Some inv => (Ok (Some inv), s)
          | None => (Err "unmarshal invite: invalid JSON", s)
          end
      end
  end.

(** Is the line kept by a collection at [now]?  A zero time never expires. *)
Definition zero_time : time := (-62135596800 * ns_second)%Z.
Definition gc_keeps (now : time) (line : string) : bool :=
  match inv_unmarshal line with
  | None => false
  | Some inv =>
      negb (negb (bool_decide (ExpiresAt inv = zero_time)) && (ExpiresAt inv <? now)%Z) &&
      negb ((0 <? MaxUses inv)%Z && (MaxUses inv <=? UseCount inv)%Z)
  end.

(** The loop that writes the kept lines and indexes them. *)
Fixpoint gc_write (tmpPath : string) (lines : list string) (o : Z) : eff Store unit :=
  match lines with
  | [] => mret tt
  | line :: rest =>
      _ ← modify (fun s => with_index (fst (index_line line (index s, o))) s);
      _ ← wrap "write during gc: " (onDisk (AppendTo tmpPath line));
      _ ← wrap "write newline during gc: " (onDisk (AppendTo tmpPath nls));
      gc_write tmpPath rest (o + Z.of_nat (slen line) + 1)
  end.

(** What follows the creation of the temporary file; on failure it is closed
    and removed. *)
Definition gc_commit (tmpPath : string) (kept : list string) : eff Store unit :=
  _ ← modify (with_index ∅);
  _ ← gc_write tmpPath kept 0;
  _ ← wrap "close tmp: " (onDisk (CloseFile tmpPath));
  _ ← wrap "rename after gc: " (onDisk (Rename tmpPath storePath));
  wrap "reopen after gc: " (onDisk (OpenCreate storePath)).

Definition gc_cleanup (tmpPath : string) : eff Store unit :=
  _ ← try (onDisk (CloseFile tmpPath)); _ ← try (onDisk (Remove tmpPath)); mret tt.

(** A collection, from the closing of the old handle on. *)
Definition gc_body (now : time) : eff Store unit :=
  _ ← wrap "close for gc: " (onDisk (CloseFile storePath));
  r ← onDisk (ReadFile storePath);
  data ← (match r with
          | Contents data => mret data
          | NotExist => throw "read for gc: file does not exist"
          | ReadError e => throw ("read for gc: " +:+ e)
          end : eff Store string);
  let '(lines, err) := scan_lines storeBuffer data in
  if err : bool then throw "scan during gc: bufio.Scanner: token too long" else
  let kept := List.filter (gc_keeps now) lines in
  let tmpPath := storePath +:+ ".tmp" in
  _ ← wrap "create tmp for gc: " (onDisk (WriteTo tmpPath EmptyString));
  r ← try (gc_commit tmpPath kept);
  match r with
  | Ok _ => modify (with_open true)
  | Err e => _ ← gc_cleanup tmpPath; throw e
  | Panic e => panic e
  end.

Definition GC (now : time) : eff Store unit := fun s =>
  if negb (file_open s) then (Err "close for gc: file already closed", s)
  else gc_body now (with_open false s).

Definition Close : eff Store unit := fun s =>
  if negb (file_open s) then (Err "close: file already closed", s)
  else onDisk (CloseFile storePath) (with_open false s).
End Store.

(** ** hmac.go, shortcode.go, crypto.go *)

(** Big-endian bytes of [uint64(v)]. *)
Definition binPutUint64 (v : Z) : string :=
  let u := (v mod 2 ^ 64)%Z in
  of_bytes (map (fun k => Z.shiftr u k `mod` 256)%Z [56; 48; 40; 32; 24; 16; 8; 0]%Z).

Class Crypto := {
  Sha256 : string -> string;
  Hmac : string -> string -> string;          (* key, message *)
  GcmSeal : string -> string -> string -> string;        (* key, nonce, plaintext *)
  GcmOpen : string -> string -> string -> option string  (* key, nonce, ciphertext *)
}.

Section Handlers.
Context `{InviteCodec} `{Crypto} (dir : string).

Definition SignURL (token peerID : string) (expiresAt : Z) (hmacKey : string) : string :=
  Hmac hmacKey (token +:+ peerID +:+ binPutUint64 expiresAt).

Definition ValidateURL (token peerID : string) (expiresAt : Z) (signature hmacKey : string) : bool :=
  bool_decide (signature = SignURL token peerID expiresAt hmacKey).

(** The decimal code of a random [uint64]. *)
Definition GenerateCode (n : Z) : string := Itoa (10000000 + n mod 90000000)%Z.

Definition DeriveKey (secret : string) : string := stake 32 (Sha256 secret).

Definition nonceSize : nat := 12.
Definition EncryptConfig (plaintext key nonce : string) : string :=
  std_encode (nonce +:+ GcmSeal key nonce plaintext).
Definition DecryptConfig (blob key : string) : result string :=
  match std_decode blob with
  | None => Err "base64 decode: illegal base64 data"
  | Some data =>
      if decide (slen data < nonceSize) then Err "ciphertext too short" else
      match GcmOpen key (stake nonceSize data) (sdrop nonceSize data) with
      | None => Err "gcm open: cipher: message authentication failed"
      | Some p => Ok p
      end
  end.

(** [fmt.Sscanf(s, "%d", &v)] into a zero [int64]. *)
Fixpoint digit_run (s : string) : string :=
  match s with
  | String c s' => if is_digit c then String c (digit_run s') else EmptyString
  | EmptyString => EmptyString
  end.
Definition Sscanf_d (s : string) : Z :=
  let s1 := trim_left_with (slen s) (List.filter (fun p => negb (bool_decide (p = nls))) spaces) s in
  let num := match s1 with
             | String "-"%char r => String "-"%char (digit_run r)
             | String "+"%char r => digit_run r
             | _ => digit_run s1
             end in
  match Atoi num with (v, None) => v | _ => 0%Z end.

(** ** handler.go *)

Definition rateLimitMaxAttempts : nat := 5.
Definition rateLimitWindow : Z := seconds 60.

Record Handler := {
  store : Store; hmacKey : string; encKey : string; rlMap : gmap string (list time)
}.

Definition NewHandler (s : Store) (daemonSecret : string) : Handler :=
  {| store := s; hmacKey := DeriveKey (daemonSecret +:+ "-hmac"); encKey := DeriveKey daemonSecret;
     rlMap := ∅ |}.

(** The attempts of one address after one more at [now], and whether it passes. *)
Definition rate_step (now : time) (attempts : option (list time)) : bool * list time :=
  match attempts with
  | None => (true, [now])
  | Some l =>
      let filtered := filter (fun t => (now - rateLimitWindow < t)%Z) l in
      if decide (rateLimitMaxAttempts <= length filtered) then (false, filtered)
      else (true, filtered ++ [now])
  end.

Definition checkRateLimit (ip : string) (now : time) : eff Handler bool := fun h =>
  let '(ok, l) := rate_step now (rlMap h !! ip) in
  (Ok ok, {| store := store h; hmacKey := hmacKey h; encKey := encKey h;
             rlMap := <[ip := l]> (rlMap h) |}).

Definition onStore {A} (m : eff Store A) : eff Handler A :=
  on_part store (fun s h => {| store := s; hmacKey := hmacKey h; encKey := encKey h;
                               rlMap := rlMap h |}) m.

Record Request := {
  peerId : string; XForwardedFor : string; RemoteAddr : string;
  q_token : string; q_expires : string; q_sig : string; q_code : string
}.

Definition extractIP (r : Request) : string :=
  if decide (XForwardedFor r <> EmptyString) then XForwardedFor r else RemoteAddr r.

(** The answers of the handlers. *)
Inductive response :=
  | Created (inv : InviteLink) (token : string) (url : string)
  | Landing (inv : InviteLink)
  | Config (text : string)
  | Error (status : Z) (code message : string).

Definition bad_request (m : string) : response := Error 400 "bad_request" m.
Definition internal (m : string) : response := Error 500 "internal_error" m.
Definition not_found (m : string) : response := Error 404 "not_found" m.

Definition hashOf (s : string) : string := hex_EncodeToString (Sha256 s).

Definition quote_url (peer token sig : string) (expires : Z) : string :=
  "/invite/" +:+ peer +:+ "?token=" +:+ token +:+ "&expires=" +:+ Itoa expires +:+ "&sig=" +:+ sig.

(** [HandleCreate] after decoding: [u1], [u2] are fresh UUIDs, [rnd] the random
    number of a short code. *)
Definition HandleCreate (pathPeer : string) (req : option CreateInviteRequest) (u1 u2 : string)
    (rnd : Z) (now : time) : eff Handler response := fun h =>
  if decide (pathPeer = EmptyString) then (Ok (bad_request "peerId is required"), h) else
  match req with
  | None => (Ok (bad_request "invalid request body"), h)
  | Some q =>
      let peer := if decide (rPeerID q = EmptyString) then pathPeer else rPeerID q in
      let mode := if decide (rMode q = EmptyString) then ModeHMAC else rMode q in
      let ttl := if decide (rTTLSeconds q <= 0)%Z then 3600%Z else rTTLSeconds q in
      let uses := if decide (rMaxUses q <= 0)%Z then 1%Z else rMaxUses q in
      if negb (bool_decide (mode = ModeHMAC) || bool_decide (mode = ModeShortCode))
      then (Ok (bad_request "mode must be hmac or shortcode"), h) else
      let expiresAt := (now + wrap64 (ttl * ns_second))%Z in
      let unix := (expiresAt / ns_second)%Z in
      let inv token code sig :=
        {| ID := u1; PeerID := peer; Mode := mode; TokenHash := hashOf token; ShortCode := code;
           ExpiresAt := expiresAt; MaxUses := uses; UseCount := 0; CreatedAt := now;
           CreatedBy := "system"; ClaimedAt := None; ClaimedIP := ""; ConfigEnc := "";
           HMACSig := sig |} in
      let '(link, token, url) :=
        if decide (mode = ModeHMAC) then
          let sig := hex_EncodeToString (SignURL u2 peer unix (hmacKey h)) in
          (inv u2 EmptyString sig, u2, quote_url peer u2 sig unix)
        else let code := GenerateCode rnd in (inv code code EmptyString, code, EmptyString) in
      (r ← try (onStore (Append dir link));
       mret (match r with Ok _ => Created link token url | _ => internal "store failed" end)) h
  end.

(** The checks every use of an invite goes through. *)
Definition usable_invite (peer : string) (now : time) (inv : option InviteLink)
  : response + InviteLink :=
  match inv with
  | None => inl (not_found "invite not found")
  | Some inv =>
      if decide (PeerID inv <> peer) then inl (not_found "invite not found") else
      if decide (ExpiresAt inv <= now)%Z then inl (Error 410 "expired" "invite has expired") else
      if decide (0 < MaxUses inv /\ MaxUses inv <= UseCount inv)%Z
      then inl (Error 410 "consumed" "invite has been consumed") else inr inv
  end.

Definition rate_limited_response : response := Error 429 "rate_limited" "too many attempts".

Definition limited (r : Request) (now : time) (k : eff Handler response) : eff Handler response :=
  if decide (peerId r = EmptyString) then mret (bad_request "peerId is required") else
  ok ← checkRateLimit (extractIP r) now;
  if ok : bool then k else mret rate_limited_response.

(** The signature is only looked at when both parameters are there. *)
Definition signature_ok (r : Request) (h : Handler) : bool :=
  if decide (q_expires r <> EmptyString /\ q_sig r <> EmptyString) then
    ValidateURL (q_token r) (peerId r) (Sscanf_d (q_expires r)) (fst (hex_DecodeString (q_sig r)))
                (hmacKey h)
  else true.

Definition HandleLanding (r : Request) (now : time) : eff Handler response :=
  limited r now
    (if decide (q_token r <> EmptyString) then
       inv ← try (onStore (FindByTokenHash dir (hashOf (q_token r))));
       h ← get;
       mret (match inv with
             | Ok inv =>
                 match usable_invite (peerId r) now inv with
                 | inl e => e
                 | inr inv => if signature_ok r h then Landing inv
                              else Error 403 "unauthorized" "invalid signature"
                 end
             | _ => internal "lookup failed"
             end)
     else if decide (q_code r <> EmptyString) then
       inv ← try (onStore (FindByTokenHash dir (hashOf (q_code r))));
       mret (match inv with
             | Ok inv => match usable_invite (peerId r) now inv with
                         | inl e => e | inr inv => Landing inv end
             | _ => internal "lookup failed"
             end)
     else mret (bad_request "token or code query param required")).

Definition HandleDownload (r : Request) (now : time) : eff Handler response :=
  limited r now
    (if decide (q_token r = EmptyString /\ q_code r = EmptyString)
     then mret (bad_request "token or code query param required") else
     let secret := if decide (q_token r <> EmptyString) then q_token r else q_code r in
     inv ← try (onStore (FindByTokenHash dir (hashOf secret)));
     h ← get;
     mret (match inv with
           | Ok inv =>
               match usable_invite (peerId r) now inv with
               | inl e => e
               | inr inv =>
                   if decide (ConfigEnc inv = EmptyString)
                   then not_found "no config available for this invite"
                   else match DecryptConfig (ConfigEnc inv) (encKey h) with
                        | Ok text => Config text
                        | _ => internal "decrypt failed"
                        end
               end
           | _ => internal "lookup failed"
           end)).
End Handlers.

(** ** Lemmas on the store *)

(** What the store relies on of its JSON: encoding and decoding agree, a line
    has no newline, and a carriage return behind it is white space. *)
Class InviteCodecLaws `{InviteCodec} : Prop := {
  inv_roundtrip i : inv_unmarshal (inv_marshal i) = Some i;
  inv_one_line i : free_of nl (inv_marshal i) = true;
  inv_cr line : inv_unmarshal (drop_cr line) = inv_unmarshal line
}.

Section StoreLemmas.
Context `{InviteCodecLaws} (dir : string).

(** At offset [o] of [file] stands a whole line that decodes to an invite with
    hash [h]. *)
Definition points_to (file h : string) (o : Z) : Prop := exists pre line post inv,
  file = pre +:+ line +:+ nls +:+ post /\ o = Z.of_nat (slen pre) /\
  free_of nl line = true /\ inv_unmarshal line = Some inv /\ TokenHash inv = h.

Definition store_inv (s : Store) : Prop := file_open s = true ->
  map_Forall (points_to (contents dir (disk s))) (index s).

Lemma points_to_app file more h o : points_to file h o -> points_to (file +:+ more) h o.
Proof.
  intros (pre & line & post & inv & -> & -> & Hf & Hu & Hh).
  exists pre, line, (post +:+ more), inv. by rewrite !sapp_assoc.
Qed.

Lemma index_grows file more (i : gmap string Z) :
  map_Forall (points_to file) i -> map_Forall (points_to (file +:+ more)) i.
Proof. intros Hi h o Ho. by apply points_to_app, Hi. Qed.

Lemma AppendTo_contents name data w :
  exists d, default EmptyString (files (snd (AppendTo name data w)) !! name) =
            default EmptyString (files w !! name) +:+ d /\
            (fst (AppendTo name data w) = Ok tt -> d = data).
Proof.
  unfold AppendTo, syscall, append_data. destruct (next_outcome w) as [e|]; simpl.
  - exists (stake (f_written e) data). by rewrite lookup_insert_eq.
  - exists data. by rewrite lookup_insert_eq.
Qed.

Lemma points_to_new file inv :
  points_to (file +:+ inv_marshal inv +:+ nls) (TokenHash inv) (Z.of_nat (slen file)).
Proof.
  exists file, (inv_marshal inv), EmptyString, inv. rewrite sapp_nil_r.
  split_and!; auto using inv_one_line, inv_roundtrip.
Qed.

Lemma Append_inv inv s : store_inv s -> store_inv (snd (Append dir inv s)).
Proof.
  intros Hs. unfold Append. destruct (file_open s) eqn:Ho; simpl; [|done].
  unfold wrap, onDisk, on_part, mbind, eff_bind.
  destruct (AppendTo_contents (storePath dir) (inv_marshal inv +:+ nls) (disk s)) as (d & Hd & Hok).
  destruct (AppendTo _ _ (disk s)) as [[[]|e|e] w]; simpl in *.
  - specialize (Hok eq_refl). subst d. case_decide; intros _; simpl; unfold contents; rewrite Hd.
    + by apply index_grows, Hs.
    + apply map_Forall_insert_2; [apply points_to_new|by apply index_grows, Hs].
  - intros _. simpl. unfold contents. rewrite Hd. by apply index_grows, Hs.
  - intros _. simpl. unfold contents. rewrite Hd. by apply index_grows, Hs.
Qed.

(** Reading back at an offset. *)
Lemma scan_line_at pre line post max :
  free_of nl line = true -> slen line < max ->
  scan_line max (sdrop (slen pre) (pre +:+ line +:+ nls +:+ post)) = Some (drop_cr line, post).
Proof.
  intros Hf Hl. rewrite sdrop_app. unfold scan_line.
  change (line +:+ nls +:+ post) with (line +:+ String nl post).
  rewrite IndexByte_app by done. rewrite stake_app.
  assert (sdrop (S (slen line)) (line +:+ String nl post) = post) as ->.
  { replace (S (slen line)) with (slen (line +:+ nls)) by (rewrite slen_app; unfold slen; simpl; lia).
    change (line +:+ String nl post) with (line +:+ nls +:+ post).
    rewrite <- sapp_assoc. apply sdrop_app. }
  rewrite decide_True by done. by destruct line.
Qed.

Lemma scan_line_long pre line post max :
  free_of nl line = true -> max <= slen line ->
  scan_line max (sdrop (slen pre) (pre +:+ line +:+ nls +:+ post)) = None.
Proof.
  intros Hf Hl. rewrite sdrop_app. unfold scan_line.
  change (line +:+ nls +:+ post) with (line +:+ String nl post).
  rewrite IndexByte_app by done. rewrite decide_False by lia. by destruct line.
Qed.

(** The lines a scanner gives contain no newline. *)
Lemma free_of_drop_cr s : free_of nl s = true -> free_of nl (drop_cr s) = true.
Proof.
  intros Hf. unfold drop_cr, TrimSuffix. case_match; [|done].
  rewrite <- (stake_sdrop (slen s - slen (String cr "")) s), free_of_app in Hf.
  by apply andb_true_iff in Hf as [? _].
Qed.

Lemma scan_line_free max s line rest : scan_line max s = Some (line, rest) -> free_of nl line = true.
Proof.
  unfold scan_line. destruct s as [|a s]; [done|].
  destruct (IndexByte (String a s) nl) as [i|] eqn:Hi; case_decide; try done; intros [= <- <-];
    apply free_of_drop_cr.
  - by apply IndexByte_before in Hi.
  - by apply IndexByte_free.
Qed.

(** Each round consumes a byte, so a fuel above the length is enough. *)
Lemma scan_line_shorter max s line rest : scan_line max s = Some (line, rest) -> slen rest < slen s.
Proof.
  unfold scan_line. destruct s as [|a s]; [done|]. change (slen (String a s)) with (S (slen s)).
  destruct (IndexByte (String a s) nl) as [i|]; case_decide; try done; intros [= _ <-]; [|simpl; lia].
  change (sdrop (S i) (String a s)) with (sdrop i s).
  rewrite <- (stake_sdrop i s) at 2. rewrite slen_app. lia.
Qed.

Lemma scan_all_fuel f g max s :
  slen s < f -> slen s < g -> scan_all f max s = scan_all g max s.
Proof.
  revert g s. induction f as [|f IH]; intros g s Hf Hg; [lia|]. destruct g as [|g]; [lia|].
  cbn [scan_all]. destruct (scan_line max s) as [[line rest]|] eqn:Hl; [|done].
  apply scan_line_shorter in Hl. by rewrite (IH g rest) by lia.
Qed.

Lemma scan_all_free fuel max s : Forall (fun l => free_of nl l = true) (fst (scan_all fuel max s)).
Proof.
  revert s. induction fuel as [|f IH]; intros s; simpl; [done|].
  destruct (scan_line max s) as [[line rest]|] eqn:Hl; [|done].
  specialize (IH rest). destruct (scan_all f max rest). simpl in *. constructor; [|done].
  by apply scan_line_free in Hl.
Qed.

(** The temporary file of a collection. *)
Definition tmp_contents (tmp : string) (s : Store) : string :=
  default EmptyString (files (disk s) !! tmp).

Lemma index_line_points file line (i : gmap string Z) :
  free_of nl line = true -> map_Forall (points_to file) i ->
  map_Forall (points_to (file +:+ line +:+ nls))
             (fst (index_line line (i, Z.of_nat (slen file)))).
Proof.
  intros Hf Hi. unfold index_line. simpl.
  destruct (inv_unmarshal line) as [inv|] eqn:Hu; [|by apply index_grows].
  case_decide; [|by apply index_grows].
  apply map_Forall_insert_2; [|by apply index_grows].
  exists file, line, EmptyString, inv. by rewrite sapp_nil_r.
Qed.

Lemma gc_write_points tmp lines s s' :
  Forall (fun l => free_of nl l = true) lines ->
  map_Forall (points_to (tmp_contents tmp s)) (index s) ->
  gc_write tmp lines (Z.of_nat (slen (tmp_contents tmp s))) s = (Ok tt, s') ->
  map_Forall (points_to (tmp_contents tmp s')) (index s').
Proof.
  revert s. induction lines as [|line lines IH]; intros s Hall Hi Hw; simpl in Hw.
  - by injection Hw as <-.
  - apply Forall_cons_1 in Hall as [Hf Hall].
    bind_inv Hw. injection E as _ <-. bind_inv Hw. apply wrap_ok_inv in E.
    bind_inv Hw. apply wrap_ok_inv in E0.
    unfold onDisk, on_part in E, E0. simpl in E.
    destruct (AppendTo_contents tmp line (disk s)) as (d1 & Hd1 & Hok1).
    destruct (AppendTo tmp line (disk s)) as [r1 w1]. injection E as -> <-. simpl in *.
    destruct (AppendTo_contents tmp nls w1) as (d2 & Hd2 & Hok2).
    destruct (AppendTo tmp nls w1) as [r2 w2]. injection E0 as -> <-. simpl in *.
    destruct a0, a1. rewrite (Hok1 eq_refl) in Hd1. rewrite (Hok2 eq_refl) in Hd2.
    assert (tmp_contents tmp {| disk := w2;
              index := fst (index_line line (index s, Z.of_nat (slen (tmp_contents tmp s))));
              file_open := file_open s |} = tmp_contents tmp s +:+ line +:+ nls) as Ht.
    { unfold tmp_contents. simpl. rewrite Hd2, Hd1. by rewrite sapp_assoc. }
    eapply IH; [exact Hall| |].
    + rewrite Ht. simpl. by apply index_line_points.
    + rewrite Ht, !slen_app. etrans; [|exact Hw]. f_equal. change (slen nls) with 1. lia.
Qed.

(** A collection that fails leaves the handle closed. *)
Definition fails_closed {A} (m : eff Store A) : Prop := forall s, file_open s = false ->
  match m s with (Ok _, _) => True | (_, s') => file_open s' = false end.

Lemma fails_closed_bind {A B} (m : eff Store A) (k : A -> eff Store B) :
  preserves file_open m -> (forall a, fails_closed (k a)) -> fails_closed (mbind k m).
Proof.
  intros Hm Hk s Hs. specialize (Hm s). unfold mbind, eff_bind.
  destruct (m s) as [[a|e|p] s']; simpl in Hm; [apply Hk; congruence|congruence..].
Qed.

Lemma fails_closed_const {A} (r : result A) : fails_closed (fun s => (r, s)).
Proof. intros s Hs. by destruct r. Qed.

Lemma open_onDisk {A} (m : eff World A) : preserves file_open (onDisk m).
Proof. by apply preserves_on_part. Qed.

Lemma open_gc_write tmp lines o : preserves file_open (gc_write tmp lines o).
Proof.
  revert o. induction lines as [|l lines IH]; intros o; simpl; [apply preserves_const|].
  apply preserves_bind; [by apply preserves_modify|intros _].
  apply preserves_bind; [apply preserves_wrap, open_onDisk|intros _].
  apply preserves_bind; [apply preserves_wrap, open_onDisk|intros _]. apply IH.
Qed.

Lemma open_gc_commit tmp kept : preserves file_open (gc_commit dir tmp kept).
Proof.
  unfold gc_commit. apply preserves_bind; [by apply preserves_modify|intros _].
  apply preserves_bind; [apply open_gc_write|intros _].
  do 2 (apply preserves_bind; [apply preserves_wrap, open_onDisk|intros _]).
  apply preserves_wrap, open_onDisk.
Qed.

Lemma open_gc_cleanup tmp : preserves file_open (gc_cleanup tmp).
Proof.
  unfold gc_cleanup. do 2 (apply preserves_bind; [apply preserves_try, open_onDisk|intros _]).
  apply preserves_const.
Qed.

Lemma tmp_not_store : storePath dir +:+ ".tmp" <> storePath dir.
Proof. eapply (tmp_ne "" (storePath dir) ".tmp"); [done|by apply last_byte_app|done]. Qed.

Lemma syscall_ok f g w w' : syscall f g w = (Ok tt, w') -> files w' = f (files w).
Proof. unfold syscall. destruct (next_outcome w); [done|]. by intros [= <-]. Qed.

Lemma onDisk_ok {A} (m : eff World A) s a s' :
  onDisk m s = (Ok a, s') -> exists w, m (disk s) = (Ok a, w) /\ s' = with_disk w s.
Proof.
  unfold onDisk, on_part. destruct (m (disk s)) as [r w]. intros [= -> <-]. eauto.
Qed.

Lemma gc_write_exists tmp lines o s s' :
  is_Some (files (disk s) !! tmp) -> gc_write tmp lines o s = (Ok tt, s') ->
  is_Some (files (disk s') !! tmp).
Proof.
  revert o s. induction lines as [|line lines IH]; intros o s Hex Hw; simpl in Hw.
  - by injection Hw as <-.
  - bind_inv Hw. injection E as _ <-. bind_inv Hw. apply wrap_ok_inv in E.
    bind_inv Hw. apply wrap_ok_inv in E0. eapply IH; [|exact Hw].
    destruct a0, a1. apply onDisk_ok in E as (w1 & E1 & ->), E0 as (w2 & E2 & ->).
    apply syscall_ok in E2. simpl. rewrite E2. unfold append_data. by rewrite lookup_insert_eq.
Qed.

(** A collection that commits. *)
Lemma gc_commit_points kept s s' :
  Forall (fun l => free_of nl l = true) kept ->
  files (disk s) !! (storePath dir +:+ ".tmp") = Some EmptyString ->
  gc_commit dir (storePath dir +:+ ".tmp") kept s = (Ok tt, s') ->
  map_Forall (points_to (contents dir (disk s'))) (index s').
Proof.
  set (tmp := storePath dir +:+ ".tmp"). intros Hall Hempty Hg. unfold gc_commit in Hg.
  bind_inv Hg. injection E as _ <-. bind_inv Hg. destruct a0.
  assert (map_Forall (points_to (tmp_contents tmp w)) (index w)) as Hpts.
  { apply (gc_write_points tmp kept (with_index ∅ s)); [done|apply map_Forall_empty|].
    assert (tmp_contents tmp (with_index ∅ s) = EmptyString) as ->; [|done].
    unfold tmp_contents. simpl. by rewrite Hempty. }
  apply gc_write_exists in E as [x Hx]; [|simpl; by rewrite Hempty].
  bind_inv Hg. apply wrap_ok_inv, onDisk_ok in E as (w1 & E1 & ->). destruct a0.
  bind_inv Hg. apply wrap_ok_inv, onDisk_ok in E as (w2 & E2 & ->). destruct a0.
  apply wrap_ok_inv, onDisk_ok in Hg as (w3 & E3 & ->).
  apply syscall_ok in E1, E2, E3. simpl in *. unfold id in E1. rewrite E1, Hx in E2.
  assert (files w2 !! storePath dir = Some x) as Hs by (by rewrite E2, lookup_insert_eq).
  rewrite Hs in E3. unfold contents. rewrite E3, Hs. simpl.
  unfold tmp_contents in Hpts. by rewrite Hx in Hpts.
Qed.

Lemma gc_body_fails_closed now : fails_closed (gc_body dir now).
Proof.
  apply fails_closed_bind; [apply preserves_wrap, open_onDisk|intros _].
  apply fails_closed_bind; [apply open_onDisk|intros r].
  apply fails_closed_bind; [destruct r; apply preserves_const|intros data].
  destruct (scan_lines _ data) as [lines [|]]; [apply fails_closed_const|].
  apply fails_closed_bind; [apply preserves_wrap, open_onDisk|intros _].
  apply fails_closed_bind; [apply preserves_try, open_gc_commit|intros [[]|e|e]].
  - by intros s Hs.
  - apply fails_closed_bind; [apply open_gc_cleanup|intros _; apply fails_closed_const].
  - apply fails_closed_const.
Qed.

Lemma gc_body_points now s s' :
  gc_body dir now s = (Ok tt, s') -> map_Forall (points_to (contents dir (disk s'))) (index s').
Proof.
  intros E. unfold gc_body in E. bind_inv E. apply wrap_ok_inv, onDisk_ok in E0 as (w1 & _ & ->).
  bind_inv E. apply onDisk_ok in E0 as (w2 & _ & ->). bind_inv E. clear E0.
  destruct (scan_lines storeBuffer a1) as [lines err] eqn:Hscan. destruct err; [done|].
  bind_inv E. apply wrap_ok_inv, onDisk_ok in E0 as (w3 & E3 & ->).
  bind_inv E. destruct a3 as [[]|e|e]; simpl in E; [|bind_inv E; done|done].
  injection E as <-. simpl. destruct a2. apply syscall_ok in E3. unfold try in E0.
  match type of E0 with context [gc_commit ?d ?t ?k ?s] =>
    destruct (gc_commit d t k s) as [[[]|e|p] s3] eqn:Hg end; [|done..].
  injection E0 as <-. eapply gc_commit_points; [| |exact Hg].
  - pose proof (scan_all_free (S (slen a1)) storeBuffer a1) as Hfree.
    unfold scan_lines in Hscan. rewrite Hscan in Hfree. simpl in Hfree.
    rewrite Forall_forall in Hfree |- *. intros l Hl. apply Hfree.
    by apply filter_In in Hl as [Hl _].
  - simpl. rewrite E3. apply lookup_insert_eq.
Qed.

Lemma GC_inv now s : store_inv s -> store_inv (snd (GC dir now s)).
Proof.
  intros Hs. unfold GC. destruct (file_open s) eqn:Ho; simpl; [|done].
  pose proof (gc_body_fails_closed now (with_open false s) eq_refl) as Hc.
  destruct (gc_body dir now (with_open false s)) as [[[]|e|p] s'] eqn:E; simpl.
  - intros _. by eapply gc_body_points.
  - intros Hop. congruence.
  - intros Hop. congruence.
Qed.

(** ** Properties of the store *)

Inductive store_step (s : Store) : Store -> Prop :=
  | ss_append inv : store_step s (snd (Append dir inv s))
  | ss_find h : store_step s (snd (FindByTokenHash dir h s))
  | ss_gc now : store_step s (snd (GC dir now s))
  | ss_close : store_step s (snd (Close dir s)).

Lemma closed_by_Close s : file_open s = true -> file_open (snd (Close dir s)) = false.
Proof. intros Ho. unfold Close. rewrite Ho. simpl. by rewrite (open_onDisk _ _). Qed.

Lemma Close_inv s : store_inv s -> store_inv (snd (Close dir s)).
Proof.
  intros Hs. destruct (file_open s) eqn:Ho; [|unfold Close; by rewrite Ho].
  intros Hop. rewrite closed_by_Close in Hop; done.
Qed.

Lemma Find_same h s : snd (FindByTokenHash dir h s) = s.
Proof. unfold FindByTokenHash. by repeat case_match. Qed.

Lemma Find_no_panic h s p : fst (FindByTokenHash dir h s) <> Panic p.
Proof. unfold FindByTokenHash. by repeat case_match. Qed.

(** A file as the store leaves it: whole lines without carriage returns. *)
Definition unlines (ls : list string) : string := foldr (fun l s => l +:+ nls +:+ s) EmptyString ls.
Definition clean_line (l : string) : Prop := free_of nl l = true /\ free_of cr l = true.
Definition clean (file : string) : Prop := exists ls, file = unlines ls /\ Forall clean_line ls.

Lemma drop_cr_clean l : free_of cr l = true -> drop_cr l = l.
Proof.
  intros Hf. unfold drop_cr, TrimSuffix, HasSuffix. case_match eqn:Hs; [|done].
  apply andb_true_iff in Hs as [_ Hs]. apply bool_decide_eq_true in Hs.
  rewrite <- (stake_sdrop (slen l - slen (String cr "")) l), Hs, free_of_app in Hf.
  by apply andb_true_iff in Hf as [_ Hf].
Qed.

Lemma scan_all_unlines fuel max ls lines :
  Forall clean_line ls -> slen (unlines ls) < fuel ->
  scan_all fuel max (unlines ls) = (lines, false) -> lines = ls.
Proof.
  revert ls lines. induction fuel as [|f IH]; intros ls lines Hall Hf; [lia|].
  destruct ls as [|l ls]; [by intros [= <-]|].
  apply Forall_cons_1 in Hall as [[Hnl Hcr] Hall].
  change (unlines (l :: ls)) with (l +:+ nls +:+ unlines ls) in *.
  rewrite !slen_app in Hf. change (slen nls) with 1 in Hf. cbn [scan_all].
  destruct (decide (slen l < max)).
  - rewrite (scan_line_at EmptyString l (unlines ls) max Hnl ltac:(done)
             : scan_line max (l +:+ nls +:+ unlines ls) = _).
    destruct (scan_all f max (unlines ls)) as [ls' e] eqn:Hrec. intros [= <- ->].
    f_equal; [by apply drop_cr_clean|]. apply (IH ls); [done|lia|done].
  - rewrite (scan_line_long EmptyString l (unlines ls) max Hnl ltac:(lia)
             : scan_line max (l +:+ nls +:+ unlines ls) = _).
    intros [= _ Hb]. exfalso. by destruct l.
Qed.

Lemma index_lines_points ls : forall file (i : gmap string Z),
  Forall clean_line ls -> map_Forall (points_to file) i ->
  map_Forall (points_to (file +:+ unlines ls))
             (fst (index_lines ls (i, Z.of_nat (slen file)))).
Proof.
  induction ls as [|l ls IH]; intros file i Hall Hi; [simpl; by rewrite sapp_nil_r|].
  apply Forall_cons_1 in Hall as [[Hnl _] Hall].
  pose proof (index_line_points file l i Hnl Hi) as Hi'.
  specialize (IH (file +:+ l +:+ nls) _ Hall Hi').
  change (unlines (l :: ls)) with (l +:+ nls +:+ unlines ls). rewrite !sapp_assoc in *.
  assert (index_line l (i, Z.of_nat (slen file)) =
          (fst (index_line l (i, Z.of_nat (slen file))), Z.of_nat (slen (file +:+ l +:+ nls)))) as E.
  { unfold index_line. simpl. f_equal. rewrite !slen_app. change (slen nls) with 1. lia. }
  unfold index_lines in *. cbn [foldl]. by rewrite E.
Qed.

Lemma NewStore_inv w s w' :
  NewStore dir w = (Ok s, w') -> clean (contents dir w) -> store_inv s.
Proof.
  intros Hn [ls [Hc Hall]] _. unfold NewStore in Hn.
  bind_inv Hn. apply wrap_ok_inv in E. destruct a. apply syscall_ok in E.
  bind_inv Hn. apply wrap_ok_inv in E0. destruct a. apply syscall_ok in E0.
  bind_inv Hn. apply wrap_ok_inv in E1. injection Hn as <- <-.
  assert (contents dir w1 = contents dir w) as Hw1.
  { unfold contents. rewrite E0, E. unfold id. destruct (files w !! storePath dir) eqn:Hf; simpl.
    - by rewrite Hf.
    - by rewrite lookup_insert_eq. }
  unfold buildIndex, ReadFile, mbind, eff_bind in E1.
  destruct (next_outcome w1); [done|]. destruct (files w1 !! storePath dir) eqn:Hf; [|done].
  assert (s = unlines ls) as -> by (rewrite <- Hc, <- Hw1; unfold contents; by rewrite Hf).
  destruct (scan_lines storeBuffer (unlines ls)) as [lines [|]] eqn:Hs; [done|].
  apply scan_all_unlines in Hs as ->; [|done|lia]. injection E1 as <- <-. simpl.
  unfold contents. simpl. rewrite Hf. apply (index_lines_points ls EmptyString); [done|].
  apply map_Forall_empty.
Qed.

Lemma store_reach_inv s0 s : store_inv s0 -> star store_step s0 s -> store_inv s.
Proof.
  apply (star_inv_ind store_step store_inv).
  intros s1 s2 Hs. destruct 1; [by apply Append_inv|by rewrite Find_same|by apply GC_inv|by apply Close_inv].
Qed.

Lemma Find_points s h o :
  file_open s = true -> index s !! h = Some o -> points_to (contents dir (disk s)) h o ->
  exists pre line post inv, contents dir (disk s) = pre +:+ line +:+ nls +:+ post /\
    inv_unmarshal line = Some inv /\ TokenHash inv = h /\
    fst (FindByTokenHash dir h s) = Ok (if decide (slen line < MaxScanTokenSize) then Some inv else None).
Proof.
  intros Ho Hi (pre & line & post & inv & Hc & -> & Hf & Hu & Hh).
  exists pre, line, post, inv. split_and!; [done..|].
  unfold FindByTokenHash. rewrite Hi, Ho, Nat2Z.id, Hc. cbn [negb]. case_decide as Hl.
  - rewrite scan_line_at by done. by rewrite inv_cr, Hu.
  - by rewrite scan_line_long by (done || lia).
Qed.

(** C16: every invitation the index knows can be read back: from a store
    opened on a file of whole lines, through any appends, look-ups, collections and closings, whatever of their
    writes, renames and openings fail, a look-up gives the invitation with
    exactly that hash, unless its line outgrows the reader's buffer.  It
    reports an error only on a store whose file was closed, by the caller or
    by a failed collection. *)
Theorem lookups_sound w0 w1 s0 s h :
  NewStore dir w0 = (Ok s0, w1) -> clean (contents dir w0) -> star store_step s0 s ->
  match fst (FindByTokenHash dir h s) with
  | Ok (Some inv) => TokenHash inv = h
  | Ok None => index s !! h = None \/ exists pre line post,
      contents dir (disk s) = pre +:+ line +:+ nls +:+ post /\ MaxScanTokenSize <= slen line
  | _ => file_open s = false
  end.
Proof.
  intros Hnew Hclean Hs. apply store_reach_inv in Hs; [|by eapply NewStore_inv].
  destruct (index s !! h) as [o|] eqn:Hi; [|by unfold FindByTokenHash; rewrite Hi; left].
  destruct (file_open s) eqn:Ho; [|by unfold FindByTokenHash; rewrite Hi, Ho].
  destruct (Find_points s h o Ho Hi (Hs Ho h o Hi)) as (pre & line & post & inv & Hc & Hu & Hh & ->).
  case_decide; [done|]. right. exists pre, line, post. split; [done|lia].
Qed.

(** An appended invitation is found by its hash. *)
Lemma append_then_find s inv s' :
  Append dir inv s = (Ok tt, s') -> TokenHash inv <> EmptyString ->
  slen (inv_marshal inv) < MaxScanTokenSize ->
  fst (FindByTokenHash dir (TokenHash inv) s') = Ok (Some inv).
Proof.
  intros HA Hne Hlen. unfold Append in HA. destruct (file_open s) eqn:Ho; [|done]. simpl in HA.
  bind_inv HA. apply wrap_ok_inv, onDisk_ok in E as (w1 & E1 & ->).
  destruct (AppendTo_contents (storePath dir) (inv_marshal inv +:+ nls) (disk s)) as (d & Hd & Hok).
  rewrite E1 in Hd, Hok. destruct a. specialize (Hok eq_refl). subst d. simpl in Hd.
  rewrite decide_False in HA by done. injection HA as <-.
  unfold FindByTokenHash. cbn [index file_open disk with_index with_disk].
  rewrite lookup_insert_eq, Ho, Nat2Z.id. cbn [negb].
  assert (contents dir w1 = contents dir (disk s) +:+ inv_marshal inv +:+ nls) as -> by exact Hd.
  rewrite <- (sapp_nil_r (inv_marshal inv +:+ nls)), sapp_assoc.
  rewrite scan_line_at by auto using inv_one_line. by rewrite inv_cr, inv_roundtrip.
Qed.
End StoreLemmas.

(** ** Properties of the handlers *)

(** Calls of the limiter for one address; the times of those that pass. *)
Fixpoint passed (ts : list time) (attempts : option (list time)) : list time :=
  match ts with
  | [] => []
  | t :: ts' => let '(ok, l) := rate_step t attempts in
                if ok : bool then t :: passed ts' (Some l) else passed ts' (Some l)
  end.

Definition window (t : time) (l : list time) : list time :=
  filter (fun u => (t - rateLimitWindow < u <= t)%Z) l.

Fixpoint nondecreasing (l : list time) : Prop :=
  match l with
  | t :: ((u :: _) as l') => (t <= u)%Z /\ nondecreasing l'
  | _ => True
  end.

(** The window before each call, given the attempts that were kept. *)
Lemma window_filter t l : Forall (fun u => u <= t)%Z l ->
  window t l = filter (fun u => (t - rateLimitWindow < u)%Z) l.
Proof.
  unfold window. induction 1 as [|u l Hu Hl IH]; [done|]. rewrite !filter_cons, IH.
  repeat case_decide; try done; lia.
Qed.

Lemma filter_window_later t t' (l : list time) : (t <= t')%Z ->
  filter (fun u => (t' - rateLimitWindow < u)%Z) (filter (fun u => (t - rateLimitWindow < u)%Z) l)
  = filter (fun u => (t' - rateLimitWindow < u)%Z) l.
Proof.
  intros Ht. induction l as [|u l IH]; [done|]. rewrite !filter_cons.
  repeat case_decide; rewrite ?filter_cons; repeat case_decide; try lia; congruence.
Qed.

Lemma filter_shorter {A} (P : A -> Prop) `{forall x, Decision (P x)} l : length (filter P l) <= length l.
Proof. induction l as [|x l IH]; [done|]. rewrite filter_cons. case_decide; simpl; lia. Qed.

Lemma recent_mono t t' (l : list time) : (t <= t')%Z ->
  length (filter (fun u => (t' - rateLimitWindow < u)%Z) l)
  <= length (filter (fun u => (t - rateLimitWindow < u)%Z) l).
Proof. intros Ht. rewrite <- (filter_window_later t t' l) by done. apply filter_shorter. Qed.

(** [seen] is what passed so far; the entry keeps what still counts. *)
Definition entry_ok (now : time) (seen : list time) (attempts : option (list time)) : Prop :=
  match attempts with
  | None => seen = []
  | Some l => length l <= rateLimitMaxAttempts /\
              filter (fun u => (now - rateLimitWindow < u)%Z) l
              = filter (fun u => (now - rateLimitWindow < u)%Z) seen
  end.

Lemma rate_step_ok now prev seen attempts :
  (prev <= now)%Z -> entry_ok prev seen attempts ->
  let '(ok, l) := rate_step now attempts in
  let seen' := if ok then seen ++ [now] else seen in
  entry_ok now seen' (Some l) /\
  length (filter (fun u => (now - rateLimitWindow < u)%Z) seen') <= rateLimitMaxAttempts.
Proof.
  intros Hprev Hent. unfold rate_step. destruct attempts as [l|]; simpl in Hent.
  - destruct Hent as [Hlen Hent].
    assert (filter (fun u => (now - rateLimitWindow < u)%Z) l
            = filter (fun u => (now - rateLimitWindow < u)%Z) seen) as Hl.
    { rewrite <- (filter_window_later prev now l), Hent by done. by apply filter_window_later. }
    pose proof (filter_shorter (fun u => (now - rateLimitWindow < u)%Z) l) as Hsh.
    rewrite Hl in *. case_decide as Hfull; simpl.
    + split; [|lia]. split; [lia|]. by apply filter_window_later.
    + assert (length (filter (fun u => (now - rateLimitWindow < u)%Z) (seen ++ [now])) <= rateLimitMaxAttempts).
      { rewrite gfilter_app, length_app, filter_cons. case_decide; simpl; lia. }
      split; [|done]. split; [rewrite length_app; simpl; lia|].
      by rewrite !gfilter_app, filter_window_later.
  - subst seen. simpl. unfold rateLimitMaxAttempts. split; [split; [lia|done]|].
    rewrite filter_cons. case_decide; simpl; lia.
Qed.

Lemma window_bound t now seen :
  (now <= t)%Z -> length (filter (fun u => (now - rateLimitWindow < u)%Z) seen) <= rateLimitMaxAttempts ->
  length (window t seen) <= rateLimitMaxAttempts.
Proof.
  intros Ht Hn. etrans; [|exact Hn]. etrans; [|by apply (recent_mono now t)].
  unfold window. clear. induction seen as [|u seen IH]; [done|]. rewrite !filter_cons.
  repeat case_decide; simpl; lia.
Qed.

Lemma passed_windows ts : forall prev seen attempts,
  nondecreasing (prev :: ts) -> entry_ok prev seen attempts ->
  (forall t, length (window t seen) <= rateLimitMaxAttempts) ->
  forall t, length (window t (seen ++ passed ts attempts)) <= rateLimitMaxAttempts.
Proof.
  induction ts as [|now ts IH]; intros prev seen attempts Hnd0 Hent Hwin t; simpl.
  { by rewrite app_nil_r. }
  destruct Hnd0 as [Hp Hnd].
  pose proof (rate_step_ok now prev seen attempts Hp Hent) as Hs.
  destruct (rate_step now attempts) as [ok l]. destruct Hs as [Hent' Hnow].
  assert (forall t, length (window t (if ok then seen ++ [now] else seen)) <= rateLimitMaxAttempts) as Hwin'.
  { intros u. destruct (decide (now <= u)%Z) as [Hu|Hu]; [by apply (window_bound u now)|].
    destruct ok; [|done]. unfold window in *. rewrite gfilter_app, filter_cons.
    rewrite decide_False by lia. simpl. by rewrite app_nil_r. }
  destruct ok; [|by apply (IH now)].
  replace (seen ++ now :: passed ts (Some l)) with ((seen ++ [now]) ++ passed ts (Some l))
    by (by rewrite <- app_assoc).
  by apply (IH now).
Qed.

(** The sliding window holds: however the calls of one address are spaced,
    at most five of them pass in any sixty seconds. *)
Theorem at_most_five_per_minute ts t :
  nondecreasing ts -> length (window t (passed ts None)) <= rateLimitMaxAttempts.
Proof.
  intros Hnd. destruct ts as [|t0 ts]; [simpl; unfold rateLimitMaxAttempts; lia|].
  apply (passed_windows (t0 :: ts) t0 [] None); [split; [lia|done]|done|].
  intros. unfold window, rateLimitMaxAttempts. simpl. lia.
Qed.

Section Gates.
Context `{InviteCodecLaws} `{Crypto} (dir : string).

Lemma limited_cases r now k h res h' :
  limited r now k h = (Ok res, h') -> (forall s c m, res <> Error s c m) ->
  exists h1, checkRateLimit (extractIP r) now h = (Ok true, h1) /\ k h1 = (Ok res, h') /\
             store h1 = store h /\ hmacKey h1 = hmacKey h.
Proof.
  unfold limited. case_decide; [intros [= <-] Hne; by destruct (Hne _ _ _ eq_refl)|].
  intros Hl Hne. bind_inv Hl. unfold checkRateLimit in *.
  destruct (rate_step now (rlMap h !! extractIP r)) as [ok l]. injection E as <- <-.
  destruct ok; [eauto|]. simpl in Hl. injection Hl as <- _. by destruct (Hne _ _ _ eq_refl).
Qed.

Lemma usable_inv peer now oi inv :
  usable_invite peer now oi = inr inv ->
  oi = Some inv /\ PeerID inv = peer /\ (now < ExpiresAt inv)%Z /\
  ~ (0 < MaxUses inv /\ MaxUses inv <= UseCount inv)%Z.
Proof.
  unfold usable_invite. destruct oi as [i|]; [|done].
  destruct (decide (PeerID i <> peer)) as [|Hp]; [done|].
  case_decide; [done|]. case_decide; [done|]. intros [= ->].
  split_and!; [done|by apply dec_stable|lia|done].
Qed.

(** What an accepted landing proves: the store holds an invitation with the
    hash of the token or code, it is for this peer, not expired, not used up,
    and a complete signature given with a token is valid.  The store is left
    as it was. *)
Theorem landing_gates r now h inv h' :
  HandleLanding dir r now h = (Ok (Landing inv), h') ->
  let secret := if decide (q_token r <> EmptyString) then q_token r else q_code r in
  secret <> EmptyString /\
  fst (FindByTokenHash dir (hashOf secret) (store h)) = Ok (Some inv) /\
  PeerID inv = peerId r /\ (now < ExpiresAt inv)%Z /\
  ~ (0 < MaxUses inv /\ MaxUses inv <= UseCount inv)%Z /\
  (q_token r <> EmptyString -> signature_ok r h = true) /\
  store h' = store h.
Proof.
  intros HL. apply limited_cases in HL as (h1 & _ & HL & Hst & Hk); [|done].
  assert (forall secret, fst (try (onStore (FindByTokenHash dir (hashOf secret))) h1)
            = Ok (fst (FindByTokenHash dir (hashOf secret) (store h))) /\
          store (snd (try (onStore (FindByTokenHash dir (hashOf secret))) h1)) = store h /\
          hmacKey (snd (try (onStore (FindByTokenHash dir (hashOf secret))) h1)) = hmacKey h) as Hfind.
  { intros secret. unfold try, onStore, on_part. rewrite Hst.
    pose proof (Find_same dir (hashOf secret) (store h)) as Hsame.
    pose proof (Find_no_panic dir (hashOf secret) (store h)) as Hnp.
    destruct (FindByTokenHash dir (hashOf secret) (store h)) as [[| |p] s1]; simpl in *;
      [by subst|by subst|by destruct (Hnp p)]. }
  cbv zeta. destruct (decide (q_token r <> EmptyString)) as [Ht|Ht]; simpl in HL.
  - destruct (Hfind (q_token r)) as (Hf & Hs & Hk'). unfold mbind, eff_bind in HL.
    destruct (try _ h1) as [[a|e|e] h2]; [|done..]. simpl in Hf, Hs, Hk'. injection Hf as ->.
    destruct (FindByTokenHash dir (hashOf (q_token r)) (store h)) as [[oi|e|e] s1]; simpl in HL; [|done..].
    destruct (usable_invite (peerId r) now oi) as [e|i] eqn:Hu.
    { injection HL as -> _. unfold usable_invite in Hu. by repeat case_match. }
    destruct (signature_ok r h2) eqn:Hsig; [|done]. injection HL as -> <-. simpl.
    apply usable_inv in Hu as (-> & Hp & Hexp & Huse).
    unfold signature_ok in *. rewrite Hk' in Hsig. by split_and!.
  - destruct (decide (q_code r <> EmptyString)) as [Hcode|]; [|done].
    destruct (Hfind (q_code r)) as (Hf & Hs & Hk'). unfold mbind, eff_bind in HL.
    destruct (try _ h1) as [[a|e|e] h2]; [|done..]. simpl in Hf, Hs. injection Hf as ->.
    destruct (FindByTokenHash dir (hashOf (q_code r)) (store h)) as [[oi|e|e] s1]; simpl in HL; [|done..].
    destruct (usable_invite (peerId r) now oi) as [e|i] eqn:Hu.
    { injection HL as -> _. unfold usable_invite in Hu. by repeat case_match. }
    injection HL as -> <-. simpl. apply usable_inv in Hu as (-> & Hp & Hexp & Huse).
    by split_and!.
Qed.

(** *** A created link lands *)

Lemma hex_byte c : let v := Z.of_N (N_of_ascii c) in
  hex_val (hex_digit (v / 16)) = Some (v / 16)%Z /\
  hex_val (hex_digit (v `mod` 16)) = Some (v `mod` 16)%Z /\
  byte_of_Z (16 * (v / 16) + v `mod` 16) = c.
Proof. destruct c as [[] [] [] [] [] [] [] []]; vm_compute; done. Qed.

Lemma hex_roundtrip s : hex_DecodeString (hex_EncodeToString s) = (s, None).
Proof.
  induction s as [|c s IH]; [done|]. destruct (hex_byte c) as (Hhi & Hlo & Hby).
  cbn [hex_EncodeToString hex_DecodeString]. by rewrite Hhi, Hlo, IH, Hby.
Qed.

Lemma digit_run_digits s : str_all is_digit s = true -> digit_run s = s.
Proof.
  induction s as [|c s IH]; simpl; [done|]. intros [Hc Hs]%andb_true_iff. by rewrite Hc, IH.
Qed.

Lemma Sscanf_Itoa z : (int64_min <= z <= int64_max)%Z -> Sscanf_d (Itoa z) = z.
Proof.
  intros Hz. unfold Sscanf_d. rewrite trim_left_graphic;
    [|done|apply (str_all_head graphic), Itoa_graphic].
  pose proof (Atoi_Itoa z Hz) as HA. unfold Itoa in *. destruct (z <? 0)%Z; cbv zeta.
  - by rewrite digit_run_digits, HA by apply digits_of_digits.
  - pose proof (digits_of_digits (Z.to_N z)) as Hd.
    destruct (digits_of_cons (Z.to_N z)) as (a & s & E & Ha). rewrite E in *.
    assert (a <> "-"%char /\ a <> "+"%char) as [Hm Hp] by (split; intros ->; discriminate Ha).
    apply digit_run_digits in Hd.
    destruct a as [[] [] [] [] [] [] [] []]; try done; by rewrite Hd, HA.
Qed.

Lemma GenerateCode_nonempty n : GenerateCode n <> EmptyString.
Proof.
  unfold GenerateCode, Itoa. destruct (_ <? 0)%Z; [done|].
  by destruct (digits_of_cons (Z.to_N (10000000 + n mod 90000000))) as (a & s & -> & _).
Qed.

(** What a created link holds. *)
Definition fresh_link (key : string) (inv : InviteLink) (tok : string) : Prop :=
  TokenHash inv = hashOf tok /\ PeerID inv <> EmptyString /\
  (0 < MaxUses inv)%Z /\ UseCount inv = 0%Z /\
  (Mode inv = ModeHMAC -> HMACSig inv =
     hex_EncodeToString (SignURL tok (PeerID inv) (ExpiresAt inv / ns_second) key)).

Lemma HandleCreate_created path req u1 u2 rnd now h inv tok url h1 :
  HandleCreate dir path req u1 u2 rnd now h = (Ok (Created inv tok url), h1) ->
  Append dir inv (store h) = (Ok tt, store h1) /\ hmacKey h1 = hmacKey h /\ rlMap h1 = rlMap h /\
  fresh_link (hmacKey h) inv tok.
Proof.
  unfold HandleCreate. case_decide as Hpath; [done|]. destruct req as [q|]; [|done]. cbv zeta.
  set (mode := if decide (rMode q = EmptyString) then ModeHMAC else rMode q).
  destruct (negb _) eqn:Hmode; [done|].
  set (uses := if decide (rMaxUses q <= 0)%Z then 1%Z else rMaxUses q).
  set (peer := if decide (rPeerID q = EmptyString) then path else rPeerID q).
  assert (0 < uses)%Z as Huses by (unfold uses; destruct (decide (rMaxUses q <= 0)%Z); lia).
  assert (peer <> EmptyString) as Hpeer by (unfold peer; by destruct (decide (rPeerID q = EmptyString))).
  assert (forall link token' url',
    (r ← try (onStore (Append dir link));
     mret (match r with Ok _ => Created link token' url' | _ => internal "store failed" end)) h
      = (Ok (Created inv tok url), h1) ->
    Append dir inv (store h) = (Ok tt, store h1) /\ hmacKey h1 = hmacKey h /\
    rlMap h1 = rlMap h /\ inv = link /\ tok = token') as Hstore.
  { intros link token' url'. unfold mbind, eff_bind, try, onStore, on_part.
    destruct (Append dir link (store h)) as [[[]|e|e] s1] eqn:HA; [|done..].
    intros [= <- <- _ <-]. done. }
  destruct (decide (mode = ModeHMAC)) as [Hm|Hm]; intros (HA & Hk & Hr & -> & ->)%Hstore;
    (split_and!; [done..|]); unfold fresh_link; simpl; split_and!; try done.
Qed.

(** A request that follows the link, or gives the code, of an invitation. *)
Definition follows (inv : InviteLink) (tok : string) (r : Request) : Prop :=
  peerId r = PeerID inv /\
  if decide (Mode inv = ModeHMAC)
  then q_token r = tok /\ q_expires r = Itoa (ExpiresAt inv / ns_second) /\ q_sig r = HMACSig inv
  else q_token r = EmptyString /\ q_code r = tok.

Lemma follows_signed inv tok r h :
  follows inv tok r -> fresh_link (hmacKey h) inv tok ->
  (int64_min <= ExpiresAt inv / ns_second <= int64_max)%Z -> tok <> EmptyString ->
  (if decide (q_token r <> EmptyString) then q_token r else q_code r) = tok /\
  (q_token r <> EmptyString -> signature_ok r h = true) /\
  (q_token r = EmptyString -> q_code r <> EmptyString).
Proof.
  intros [Hp Hf] (_ & _ & _ & _ & Hsig) Hrange Htok. case_decide as Hm.
  - destruct Hf as (Ht & He & Hs). rewrite Ht, decide_True by done. split_and!; [done| |done].
    intros _. unfold signature_ok. rewrite Ht, He, Hs, (Hsig Hm), Hp.
    case_decide; [|done]. rewrite Sscanf_Itoa, hex_roundtrip by done.
    unfold ValidateURL. simpl. by apply bool_decide_true.
  - destruct Hf as [-> ->]. by rewrite decide_False by (intros Hx; by apply Hx).
Qed.

(** A request whose look-up finds a usable invitation lands. *)
Lemma HandleLanding_serves r now h inv :
  let secret := if decide (q_token r <> EmptyString) then q_token r else q_code r in
  peerId r <> EmptyString -> fst (rate_step now (rlMap h !! extractIP r)) = true ->
  (q_token r = EmptyString -> q_code r <> EmptyString) ->
  fst (FindByTokenHash dir (hashOf secret) (store h)) = Ok (Some inv) ->
  usable_invite (peerId r) now (Some inv) = inr inv ->
  (q_token r <> EmptyString -> signature_ok r h = true) ->
  fst (HandleLanding dir r now h) = Ok (Landing inv).
Proof.
  cbv zeta. intros Hp Hrate Hcode Hfind Huse Hsig. unfold HandleLanding, limited.
  rewrite decide_False by done. unfold mbind, eff_bind, checkRateLimit.
  destruct (rate_step now (rlMap h !! extractIP r)) as [ok l]. simpl in Hrate. rewrite Hrate.
  assert (forall secret, fst (FindByTokenHash dir (hashOf secret) (store h)) = Ok (Some inv) ->
    forall h', store h' = store h ->
    try (onStore (FindByTokenHash dir (hashOf secret))) h' =
      (Ok (Ok (Some inv)), {| store := store h; hmacKey := hmacKey h'; encKey := encKey h';
                              rlMap := rlMap h' |})) as Htry.
  { intros secret Hf h' Hst. unfold try, onStore, on_part. rewrite Hst.
    pose proof (Find_same dir (hashOf secret) (store h)) as Hsame.
    destruct (FindByTokenHash dir (hashOf secret) (store h)) as [x s1]. simpl in *. by subst. }
  destruct (decide (q_token r <> EmptyString)) as [Ht|Ht].
  - rewrite (Htry _ Hfind) by done. cbn [get]. rewrite Huse.
    match goal with |- context [signature_ok r ?h'] =>
      assert (signature_ok r h' = true) as -> by exact (Hsig Ht) end. done.
  - rewrite decide_True by (apply Hcode; by apply dec_stable).
    rewrite (Htry _ Hfind) by done. by rewrite Huse.
Qed.

(** An invitation works: whoever follows the link or gives the code of an
    invitation that was created gets its landing page, before it expires and
    while the address has attempts left. *)
Theorem created_link_lands path req u1 u2 rnd t0 h inv tok url h1 r t1 :
  HandleCreate dir path req u1 u2 rnd t0 h = (Ok (Created inv tok url), h1) ->
  follows inv tok r -> (t1 < ExpiresAt inv)%Z ->
  fst (rate_step t1 (rlMap h1 !! extractIP r)) = true ->
  tok <> EmptyString -> Sha256 tok <> EmptyString ->
  (int64_min <= ExpiresAt inv / ns_second <= int64_max)%Z ->
  slen (inv_marshal inv) < MaxScanTokenSize ->
  fst (HandleLanding dir r t1 h1) = Ok (Landing inv).
Proof.
  intros Hc Hf Hexp Hrate Htok Hsha Hrange Hlen.
  apply HandleCreate_created in Hc as (HA & Hk & _ & Hfresh). rewrite <- Hk in Hfresh.
  destruct (follows_signed inv tok r h1 Hf Hfresh Hrange Htok) as (Hsecret & Hsig & Hcode).
  destruct Hf as [Hp _], Hfresh as (Hhash & Hne & Hmax & Huse & _).
  apply HandleLanding_serves; [by rewrite Hp|done|done| | |done].
  - rewrite Hsecret, <- Hhash. apply (append_then_find dir (store h)); [done| |done].
    rewrite Hhash. unfold hashOf. by destruct (Sha256 tok).
  - unfold usable_invite. rewrite decide_False by (rewrite Hp; by intros []).
    by rewrite !decide_False by lia.
Qed.


Definition without_sig (r : Request) : Request :=
  {| peerId := peerId r; XForwardedFor := XForwardedFor r; RemoteAddr := RemoteAddr r;
     q_token := q_token r; q_expires := q_expires r; q_sig := EmptyString; q_code := q_code r |}.

(** The signature is optional: leaving it out of a link passes the check
    whatever it was. *)
Lemma signature_optional r h : signature_ok (without_sig r) h = true.
Proof. unfold signature_ok. simpl. by rewrite decide_False by naive_solver. Qed.
End Gates.

(** ** Witnesses: a codec for invitations, and stand-ins for the ciphers *)

Definition link_fields (i : InviteLink) : list positive :=
  [encode (ID i); encode (PeerID i); encode (Mode i); encode (TokenHash i); encode (ShortCode i);
   encode (ExpiresAt i); encode (MaxUses i); encode (UseCount i); encode (CreatedAt i);
   encode (CreatedBy i); encode (ClaimedAt i); encode (ClaimedIP i); encode (ConfigEnc i);
   encode (HMACSig i)].
Definition link_of_fields (l : list positive) : option InviteLink :=
  match l with
  | [a; b; c; d; e; f; g; h; i; j; k; m; n; o] =>
      a ← decode a; b ← decode b; c ← decode c; d ← decode d; e ← decode e; f ← decode f;
      g ← decode g; h ← decode h; i ← decode i; j ← decode j; k ← decode k; m ← decode m;
      n ← decode n; o ← decode o;
      Some {| ID := a; PeerID := b; Mode := c; TokenHash := d; ShortCode := e; ExpiresAt := f;
              MaxUses := g; UseCount := h; CreatedAt := i; CreatedBy := j; ClaimedAt := k;
              ClaimedIP := m; ConfigEnc := n; HMACSig := o |}
  | _ => None
  end.
#[export] Instance InviteLink_eq_dec : EqDecision InviteLink.
Proof. solve_decision. Defined.
#[export] Instance InviteLink_countable : Countable InviteLink.
Proof.
  apply (inj_countable link_fields link_of_fields).
  intros []. unfold link_fields, link_of_fields.
  do 14 (rewrite decode_encode; cbn [mbind option_bind]). done.
Defined.

Fixpoint without_cr (s : string) : string :=
  match s with
  | String c s' => if decide (c = cr) then without_cr s' else String c (without_cr s')
  | EmptyString => EmptyString
  end.

Definition link_codec : InviteCodec :=
  {| inv_marshal := count_enc; inv_unmarshal s := count_dec (without_cr s) |}.

Lemma without_cr_app a b : without_cr (a +:+ b) = without_cr a +:+ without_cr b.
Proof. induction a as [|c a IH]; simpl; [done|]. rewrite IH. by case_decide. Qed.

Lemma without_cr_drop s : without_cr (drop_cr s) = without_cr s.
Proof.
  unfold drop_cr, TrimSuffix, HasSuffix. case_match eqn:Hs; [|done].
  apply andb_true_iff in Hs as [_ Hs]. apply bool_decide_eq_true in Hs.
  set (n := slen s - slen (String cr "")) in *.
  transitivity (without_cr (stake n s +:+ sdrop n s)); [|by rewrite stake_sdrop].
  rewrite without_cr_app, Hs. simpl. by rewrite sapp_nil_r.
Qed.

Lemma bits_plain p : without_cr (bits_of p) = bits_of p /\ free_of nl (bits_of p) = true.
Proof. induction p as [p [IH1 IH2]|p [IH1 IH2]|]; simpl; rewrite ?IH1; done. Qed.

#[export] Instance link_codec_laws : @InviteCodecLaws link_codec.
Proof.
  split.
  - intros i. cbn [inv_marshal inv_unmarshal link_codec]. unfold count_enc at 1.
    rewrite (proj1 (bits_plain _)). apply count_dec_enc.
  - intros i. apply (bits_plain (encode i)).
  - intros line. cbn [inv_unmarshal link_codec]. by rewrite without_cr_drop.
Qed.

Definition sample_link : InviteLink :=
  {| ID := "1"; PeerID := "p"; Mode := ModeHMAC; TokenHash := "74"; ShortCode := "";
     ExpiresAt := seconds 100; MaxUses := 1; UseCount := 0; CreatedAt := 0%Z; CreatedBy := "system";
     ClaimedAt := None; ClaimedIP := ""; ConfigEnc := ""; HMACSig := "" |}.
Definition empty_disk : World := {| files := ∅; outcomes := []; draws := []; disks := [] |}.
Definition empty_store : Store :=
  match fst (@NewStore link_codec "d" empty_disk) with
  | Ok s => s
  | _ => {| disk := empty_disk; index := ∅; file_open := false |}
  end.
Definition one_link_store : Store := snd (@Append link_codec "d" sample_link empty_store).

Lemma lookups_sound_witness :
  match fst (@FindByTokenHash link_codec "d" "74" one_link_store) with
  | Ok (Some inv) => TokenHash inv = "74"
  | Ok None => index one_link_store !! "74" = None \/ exists pre line post,
      contents "d" (disk one_link_store) = pre +:+ line +:+ nls +:+ post /\
      MaxScanTokenSize <= slen line
  | _ => file_open one_link_store = false
  end.
Proof.
  apply (@lookups_sound link_codec link_codec_laws "d" empty_disk
           (snd (@NewStore link_codec "d" empty_disk)) empty_store one_link_store "74");
    [vm_compute; reflexivity|by exists []|].
  eapply star_snoc; [apply star_nil|]. apply ss_append.
Defined.

Lemma at_most_five_per_minute_witness :
  nondecreasing (repeat 0%Z 7) /\
  length (window 0%Z (passed (repeat 0%Z 7) None)) <= rateLimitMaxAttempts.
Proof.
  assert (nondecreasing (repeat 0%Z 7)) as H by (simpl; lia).
  split; [exact H|exact (at_most_five_per_minute (repeat 0%Z 7) 0%Z H)].
Defined.

Definition plain_crypto : Crypto :=
  {| Sha256 s := s; Hmac k m := k +:+ m; GcmSeal _ _ p := p; GcmOpen _ _ c := Some c |}.
Definition link_handler : Handler := @NewHandler plain_crypto one_link_store "secret".
Definition landing_request : Request :=
  {| peerId := "p"; XForwardedFor := ""; RemoteAddr := "10.0.0.1:5"; q_token := "t";
     q_expires := ""; q_sig := ""; q_code := "" |}.

Lemma landing_gates_witness :
  PeerID sample_link = peerId landing_request /\ (0 < ExpiresAt sample_link)%Z.
Proof.
  destruct (@landing_gates link_codec plain_crypto "d" landing_request 0 link_handler sample_link
              (snd (@HandleLanding link_codec plain_crypto "d" landing_request 0 link_handler))
              ltac:(vm_compute; reflexivity)) as (_ & _ & Hp & He & _).
  exact (conj Hp He).
Defined.

(** Creating an invitation of ten seconds and following its link after five. *)
Definition w_request : CreateInviteRequest :=
  {| rPeerID := ""; rMode := ""; rTTLSeconds := 10; rMaxUses := 0 |}.
Definition new_handler : Handler := @NewHandler plain_crypto empty_store "secret".
Definition w_created : result response * Handler :=
  @HandleCreate link_codec plain_crypto "d" "p" (Some w_request) "i" "t" 0 0 new_handler.
Definition w_link : InviteLink :=
  match fst w_created with Ok (Created inv _ _) => inv | _ => sample_link end.
Definition w_url : string :=
  match fst w_created with Ok (Created _ _ url) => url | _ => EmptyString end.
Definition follow_request : Request :=
  {| peerId := "p"; XForwardedFor := ""; RemoteAddr := "10.0.0.1:5"; q_token := "t";
     q_expires := "10"; q_sig := HMACSig w_link; q_code := "" |}.

Lemma created_link_lands_witness :
  fst (@HandleLanding link_codec plain_crypto "d" follow_request (seconds 5) (snd w_created))
  = Ok (Landing w_link).
Proof.
  apply (@created_link_lands link_codec link_codec_laws plain_crypto "d" "p" (Some w_request)
           "i" "t" 0 0 new_handler w_link "t" w_url (snd w_created)); try discriminate.
  - vm_compute. reflexivity.
  - vm_compute. repeat split.
  - vm_compute. reflexivity.
  - vm_compute. reflexivity.
  - vm_compute. split; discriminate.
  - refine (bool_decide_unpack _ _). vm_compute. exact I.
Defined.
