(* ===== verification/Expose.v ===== *)
(** * routes/expose.go, wizard/dnscheck/nipio.go: exposing a local port

    The handler over the configuration manager and the DNS provider.  It reads
    the configuration first and updates it later without a lock in between, so
    the check and the commit are two definitions that other requests may
    separate.  UUIDs, random letters and the clock are arguments; messages
    leave out the quoting of [%q]. *)

From S2P Require Import Prelude GoLib Config.

Record ExposeRequest := { LocalPort : Z; Subdomain : string }.
Record ExposeRoute := {
  RouteID : string; RSubdomain : string; RLocalPort : Z; FQDN : string;
  RStatus : string; RCreatedAt : string
}.

Class DNSCreator (E : Type) := { UpsertRecord : string -> string -> eff E unit }.

Inductive response :=
  | Created (route : ExposeRoute) (url : string)
  | Error (status : Z) (code message : string) (suggestions : list string).

(** [^[a-z0-9]([a-z0-9-]{0,61}[a-z0-9])?$] *)
Definition label_char (c : ascii) : bool := in_range "a" "z" c || is_digit c.
Definition first_char_ok (f : ascii -> bool) (s : string) : bool :=
  match s with String c _ => f c | EmptyString => false end.
Definition subdomainRe (s : string) : bool :=
  str_all (fun c => label_char c || bool_decide (c = "-"%char)) s &&
  first_char_ok label_char s && first_char_ok label_char (srev s) &&
  bool_decide (slen s <= 63).

Definition charset : string := "abcdefghijklmnopqrstuvwxyz0123456789".
Definition random_letter (n : nat) : string := stake 1 (sdrop (n `mod` 36) charset).

(** [picks]: the four draws of [rand.Intn(36)]. *)
Definition GenerateSubdomain (hint : string) (picks : list nat) : string :=
  if decide (hint <> EmptyString) then hint
  else "svc-" +:+ foldr (fun n s => random_letter n +:+ s) EmptyString (take 4 picks).

Definition generateSuggestions (draws : list (list nat)) : list string :=
  map (GenerateSubdomain EmptyString) (take 3 draws).

Definition BuildNipioSubdomain (label vpsPublicIP : string) : string :=
  let dashed := ReplaceAll vpsPublicIP "." "-" in
  if decide (label = EmptyString) then dashed +:+ ".nip.io"
  else label +:+ "." +:+ dashed +:+ ".nip.io".

Section Expose.
Context {C E : Type} `{ConfigManager C} `{DNSCreator E}.
(** [h.vpsPublicIP] and [h.tunnel.IsConnected()]. *)
Context (vpsPublicIP : string) (connected : E -> bool).

Record Handler := { cfgMgr : C; ext : E }.
Definition with_cfg (c : C) (h : Handler) : Handler := {| cfgMgr := c; ext := ext h |}.
Definition with_ext (e : E) (h : Handler) : Handler := {| cfgMgr := cfgMgr h; ext := e |}.

Definition ports (h : Handler) : list ExposedPort := ExposedPorts (cfg_get (cfgMgr h)).

Definition buildFQDN (cfg : RootConfig) (subdomain : string) : result string :=
  if decide (vpsPublicIP <> EmptyString) then Ok (BuildNipioSubdomain subdomain vpsPublicIP)
  else if decide (Zone (DNS cfg) <> EmptyString) then Ok (subdomain +:+ "." +:+ Zone (DNS cfg))
  else Err "no domain zone or VPS public IP configured".

Definition resolveTargetIP (cfg : RootConfig) : string :=
  if decide (vpsPublicIP <> EmptyString) then vpsPublicIP else ServerIP (Tunnel cfg).

Definition taken (subdomain : string) (ps : list ExposedPort) : bool :=
  existsb (fun ep => bool_decide (HostHeader ep = subdomain)) ps.

(** What the checks leave for the commit. *)
Record plan := { newPort : ExposedPort; p_fqdn : string; targetIP : string }.

(** [HandleExpose] up to the first update. *)
Definition expose_check (req : option ExposeRequest) (picks : list nat) (draws : list (list nat))
    (routeID now : string) (h : Handler) : response + plan :=
  match req with
  | None => inl (Error 400 "bad_request" "invalid request body" [])
  | Some req =>
      if decide (LocalPort req < 1 \/ 65535 < LocalPort req)%Z
      then inl (Error 400 "bad_request" ("local_port must be 1-65535, got " +:+ Itoa (LocalPort req)) [])
      else if negb (connected (ext h))
      then inl (Error 412 "tunnel_not_connected" "tunnel is not connected" []) else
      let subdomain := if decide (Subdomain req = EmptyString)
                       then GenerateSubdomain EmptyString picks else Subdomain req in
      if negb (subdomainRe subdomain)
      then inl (Error 400 "bad_request"
                 ("subdomain " +:+ subdomain +:+ " must match ^[a-z0-9]([a-z0-9-]{0,61}[a-z0-9])?$") [])
      else
      let cfg := cfg_get (cfgMgr h) in
      if taken subdomain (ExposedPorts cfg)
      then inl (Error 409 "route_conflict" ("subdomain " +:+ subdomain +:+ " is already in use")
                  (generateSuggestions draws))
      else match buildFQDN cfg subdomain with
           | Ok fqdn => inr {| newPort := {| ID := routeID; Protocol := "http";
                                             Internal := LocalPort req; HostHeader := subdomain;
                                             PortStatus := "active"; CreatedAt := now |};
                               p_fqdn := fqdn; targetIP := resolveTargetIP cfg |}
           | Err e | Panic e => inl (Error 400 "bad_request" e [])
           end
  end.

(** The callback of the first update: it keeps a port that came first. *)
Definition add_port (p : ExposedPort) (c : RootConfig) : RootConfig :=
  if taken (HostHeader p) (ExposedPorts c) then c
  else set_ExposedPorts (ExposedPorts c ++ [p]) c.

Fixpoint drop_first (f : ExposedPort -> bool) (l : list ExposedPort) : list ExposedPort :=
  match l with
  | [] => []
  | p :: l' => if f p then l' else p :: drop_first f l'
  end.

(** The callback of the rollback. *)
Definition remove_port (routeID : string) (c : RootConfig) : RootConfig :=
  set_ExposedPorts (drop_first (fun p => bool_decide (ID p = routeID)) (ExposedPorts c)) c.

Definition update (f : RootConfig -> RootConfig) : eff Handler unit :=
  on_part cfgMgr with_cfg (cfg_update f).

Definition created (pl : plan) : response :=
  let p := newPort pl in
  Created {| RouteID := ID p; RSubdomain := HostHeader p; RLocalPort := Internal p;
             FQDN := p_fqdn pl; RStatus := "active"; RCreatedAt := CreatedAt p |}
          ("https://" +:+ p_fqdn pl).

(** The rest of [HandleExpose]. *)
Definition expose_commit (pl : plan) : eff Handler response :=
  saved ← try (update (add_port (newPort pl)));
  match saved with
  | Ok _ =>
      r ← try (on_part ext with_ext (UpsertRecord (HostHeader (newPort pl)) (targetIP pl)));
      match r with
      | Ok _ => mret (created pl)
      | Err e | Panic e =>
          _ ← try (update (remove_port (ID (newPort pl))));
          mret (Error 500 "internal_error" ("DNS record creation failed: " +:+ e) [])
      end
  | _ => mret (Error 500 "internal_error" "failed to save route" [])
  end.

Definition HandleExpose (req : option ExposeRequest) (picks : list nat) (draws : list (list nat))
    (routeID now : string) : eff Handler response := fun h =>
  match expose_check req picks draws routeID now h with
  | inl r => (Ok r, h)
  | inr pl => expose_commit pl h
  end.
End Expose.

(** ** Lemmas *)

Lemma taken_false s ps : taken s ps = false <-> s ∉ map HostHeader ps.
Proof.
  unfold taken. induction ps as [|p ps IH]; simpl; [split; [intros _; apply not_elem_of_nil|done]|].
  rewrite orb_false_iff, IH, bool_decide_eq_false, not_elem_of_cons. naive_solver.
Qed.

Lemma fresh_ids i l : i ∉ map ID l -> Forall (fun p => bool_decide (ID p = i) = false) l.
Proof.
  induction l as [|p l IH]; simpl; [done|]. rewrite not_elem_of_cons. intros [Hp Hl].
  constructor; [|by apply IH]. apply bool_decide_eq_false. congruence.
Qed.

Lemma drop_first_none f l : Forall (fun p => f p = false) l -> drop_first f l = l.
Proof. induction 1 as [|p l Hp Hl IH]; simpl; [done|]. by rewrite Hp, IH. Qed.

Lemma drop_first_snoc f l p :
  Forall (fun p => f p = false) l -> f p = true -> drop_first f (l ++ [p]) = l.
Proof. intros Hl Hp. induction Hl as [|q l Hq Hl IH]; simpl; [by rewrite Hp|]. by rewrite Hq, IH. Qed.

Lemma drop_first_sublist f l : drop_first f l `sublist_of` l.
Proof. induction l as [|p l IH]; simpl; [done|]. destruct (f p); by constructor. Qed.

Lemma add_port_hosts p c :
  NoDup (map HostHeader (ExposedPorts c)) -> NoDup (map HostHeader (ExposedPorts (add_port p c))).
Proof.
  intros Hnd. unfold add_port. destruct (taken _ _) eqn:Ht; [done|]. simpl.
  apply taken_false in Ht. rewrite map_app. apply list.NoDup_app.
  split_and!; [done| |apply list.NoDup_singleton].
  intros x Hx ->%list_elem_of_singleton. done.
Qed.

Lemma remove_port_hosts i c :
  NoDup (map HostHeader (ExposedPorts c)) -> NoDup (map HostHeader (ExposedPorts (remove_port i c))).
Proof.
  intros Hnd. eapply sublist_NoDup; [exact Hnd|].
  apply (fmap_sublist HostHeader), drop_first_sublist.
Qed.

Section Properties.
Context {C E : Type} `{ConfigManagerLaws C} `{DNSCreator E}.
Context (vpsPublicIP : string) (connected : E -> bool).

(** What an accepted request was checked for. *)
Lemma check_plan req picks draws i now (h : Handler (C := C) (E := E)) pl :
  expose_check vpsPublicIP connected req picks draws i now h = inr pl ->
  exists q, req = Some q /\ connected (ext h) = true /\ ID (newPort pl) = i /\
    Internal (newPort pl) = LocalPort q /\ (1 <= LocalPort q <= 65535)%Z /\
    subdomainRe (HostHeader (newPort pl)) = true /\ taken (HostHeader (newPort pl)) (ports h) = false /\
    (Subdomain q <> EmptyString -> HostHeader (newPort pl) = Subdomain q).
Proof.
  unfold expose_check. destruct req as [q|]; [|done]. case_decide as Hport; [done|].
  destruct (connected (ext h)) eqn:Hc; [|done]. simpl.
  set (sub := if decide (Subdomain q = EmptyString) then _ else _).
  destruct (subdomainRe sub) eqn:Hre; [|done]. simpl. destruct (taken sub _) eqn:Ht; [done|].
  destruct (buildFQDN _ _ _); [|done..]. intros [= <-]. exists q. simpl.
  split_and!; try done; [lia..|]. intros Hs. unfold sub. by rewrite decide_False.
Qed.

Lemma update_ports f (h : Handler (C := C) (E := E)) :
  match update f h with
  | (Ok tt, h') => cfg_get (cfgMgr h') = f (cfg_get (cfgMgr h)) /\ ext h' = ext h
  | (Err _, h') => cfg_get (cfgMgr h') = cfg_get (cfgMgr h) /\ ext h' = ext h
  | (Panic _, _) => False
  end.
Proof.
  unfold update, on_part. destruct (cfg_update_total f (cfgMgr h)) as (r & c' & Hu & Hp).
  rewrite Hu. destruct r as [[]|e|p]; simpl; [| |by destruct (Hp p)]; (split; [|done]).
  - by apply cfg_update_ok in Hu.
  - by eapply cfg_update_err.
Qed.

(** The commit, whatever happened since the check. *)
Lemma commit_cases pl (h h' : Handler (C := C) (E := E)) r :
  expose_commit pl h = (Ok r, h') -> ID (newPort pl) ∉ map ID (ports h) ->
  let stored := ExposedPorts (add_port (newPort pl) (cfg_get (cfgMgr h))) in
  (r = created pl /\ ports h' = stored) \/
  (exists m, r = Error 500 "internal_error" m [] /\ (ports h' = ports h \/ ports h' = stored)).
Proof.
  intros Hc Hfresh. unfold expose_commit in Hc. unfold mbind, eff_bind, try in Hc.
  pose proof (update_ports (add_port (newPort pl)) h) as Hu.
  destruct (update (add_port (newPort pl)) h) as [[[]|e|e] h1]; [destruct Hu as [Hu _]| |done].
  - unfold on_part in Hc. destruct (UpsertRecord _ _ _) as [[[]|e|e] e1]; simpl in Hc; [| |done].
    + left. injection Hc as <- <-. split; [done|]. unfold ports. simpl. by rewrite Hu.
    + right. pose proof (update_ports (remove_port (ID (newPort pl))) (with_ext e1 h1)) as Hr.
      destruct (update (remove_port _) _) as [[[]|e2|e2] h2]; simpl in *; [| |done];
        injection Hc as <- <-; eexists; (split; [done|]); unfold ports; destruct Hr as [-> _];
        rewrite Hu; [left|by right].
      unfold remove_port, add_port. simpl. destruct (taken _ _).
      * by apply drop_first_none, fresh_ids.
      * apply drop_first_snoc; [by apply fresh_ids|by apply bool_decide_eq_true].
  - right. injection Hc as <- <-. eexists. split; [done|]. left. unfold ports. by rewrite (proj1 Hu).
Qed.
Lemma add_port_new p c :
  taken (HostHeader p) (ExposedPorts c) = false ->
  ExposedPorts (add_port p c) = ExposedPorts c ++ [p].
Proof. intros Ht. unfold add_port. by rewrite Ht. Qed.

(** Exposing is all or nothing: run alone, a request that is answered with
    a route came in over a connected tunnel with a port in range and a free,
    well-formed name, and added exactly that route; a refused request changed
    nothing, and so did one whose DNS record failed, unless taking the route
    back failed too. *)
Theorem expose_outcome req picks draws i now (h h' : Handler (C := C) (E := E)) r :
  HandleExpose vpsPublicIP connected req picks draws i now h = (Ok r, h') ->
  i ∉ map ID (ports h) ->
  match r with
  | Created route _ => exists q p, req = Some q /\ connected (ext h) = true /\
      (1 <= LocalPort q <= 65535)%Z /\ subdomainRe (HostHeader p) = true /\
      taken (HostHeader p) (ports h) = false /\ ports h' = ports h ++ [p] /\
      Internal p = LocalPort q /\ ID p = i /\
      RouteID route = ID p /\ RSubdomain route = HostHeader p /\ RLocalPort route = Internal p
  | Error st _ _ _ => ports h' = ports h \/ (st = 500%Z /\ exists p, ports h' = ports h ++ [p])
  end.
Proof.
  unfold HandleExpose. destruct (expose_check _ _ _ _ _ _ _ h) as [e|pl] eqn:Hc.
  - intros [= <- <-] _. destruct e as [route url|]; [|by left]. exfalso. revert Hc.
    unfold expose_check. by repeat case_match.
  - apply check_plan in Hc as (q & -> & Hcon & Hi & Hint & Hport & Hre & Ht & _).
    intros Hcommit Hfresh. apply commit_cases in Hcommit; [|by rewrite Hi].
    rewrite add_port_new in Hcommit by exact Ht.
    destruct Hcommit as [[-> Hp]|(m & -> & [Hp|Hp])]; simpl; [|by left|right; eauto].
    exists q, (newPort pl). split_and!; solve [done|lia].
Qed.

(** Any number of requests at once, with other changes of the configuration
    that leave the ports alone. *)
Inductive expose_step (h : Handler (C := C) (E := E)) : Handler (C := C) (E := E) -> Prop :=
  | es_store p : expose_step h (snd (update (add_port p) h))
  | es_rollback i : expose_step h (snd (update (remove_port i) h))
  | es_dns s ip : expose_step h (snd (on_part ext with_ext (UpsertRecord s ip) h))
  | es_other f : (forall c, ExposedPorts (f c) = ExposedPorts c) -> expose_step h (snd (update f h)).

Lemma update_ports_cases f (h : Handler (C := C) (E := E)) :
  ports (snd (update f h)) = ExposedPorts (f (cfg_get (cfgMgr h))) \/
  ports (snd (update f h)) = ports h.
Proof.
  pose proof (update_ports f h) as Hu. unfold ports.
  destruct (update f h) as [[[]|e|e] h1]; simpl; [left|right|done]; by rewrite (proj1 Hu).
Qed.

(** A name is exposed once, however requests interleave and whatever
    updates or DNS calls fail. *)
Theorem exposed_names_unique h0 h :
  NoDup (map HostHeader (ports h0)) -> star expose_step h0 h -> NoDup (map HostHeader (ports h)).
Proof.
  apply (star_inv_ind expose_step (fun h => NoDup (map HostHeader (ports h)))).
  intros h1 h2 Hnd. destruct 1 as [p|i|s ip|f Hf].
  - destruct (update_ports_cases (add_port p) h1) as [->| ->]; [by apply add_port_hosts|done].
  - destruct (update_ports_cases (remove_port i) h1) as [->| ->]; [by apply remove_port_hosts|done].
  - unfold on_part. by destruct (UpsertRecord s ip (ext h1)).
  - destruct (update_ports_cases f h1) as [->| ->]; [by rewrite Hf|done].
Qed.

(** The second of two requests for one name that both passed the check is
    answered with a route, and its route is not stored. *)
Theorem lost_race_reported_created pl1 pl2 (h h1 h2 : Handler (C := C) (E := E)) :
  taken (HostHeader (newPort pl1)) (ports h) = false ->
  HostHeader (newPort pl2) = HostHeader (newPort pl1) ->
  ID (newPort pl1) ∉ map ID (ports h) -> ID (newPort pl2) ∉ map ID (ports h) ->
  ID (newPort pl1) <> ID (newPort pl2) ->
  expose_commit pl1 h = (Ok (created pl1), h1) ->
  expose_commit pl2 h1 = (Ok (created pl2), h2) ->
  ports h2 = ports h ++ [newPort pl1] /\ ID (newPort pl2) ∉ map ID (ports h2).
Proof.
  intros Ht Hname Hf1 Hf2 Hne Hc1 Hc2.
  apply commit_cases in Hc1 as [[_ Hp1]|(m & [=] & _)]; [|done].
  rewrite add_port_new in Hp1 by exact Ht.
  assert (ID (newPort pl2) ∉ map ID (ports h1)) as Hf2'.
  { change (ExposedPorts (cfg_get (cfgMgr h))) with (ports h) in Hp1.
    rewrite Hp1, map_app. simpl. rewrite elem_of_app, list_elem_of_singleton. naive_solver. }
  apply commit_cases in Hc2 as [[_ Hp2]|(m & [=] & _)]; [|done].
  assert (ports h2 = ports h1) as Hsame.
  { rewrite Hp2. unfold add_port. change (ExposedPorts (cfg_get (cfgMgr h1))) with (ports h1).
    rewrite Hp1. unfold taken. rewrite existsb_app. simpl.
    rewrite Hname, (bool_decide_true (HostHeader (newPort pl1) = _)) by done.
    rewrite orb_true_r. by rewrite <- Hp1. }
  rewrite Hsame. by split.
Qed.
End Properties.

(** ** Witnesses *)

#[export] Instance quiet_dns : DNSCreator unit := {| UpsertRecord _ _ e := (Ok tt, e) |}.
Definition w_handler : Handler (C := RootConfig) (E := unit) :=
  {| cfgMgr := defaultConfig "u"; ext := tt |}.
Definition w_expose (port : Z) (i : string) : Handler -> result response * Handler :=
  @HandleExpose RootConfig unit plain_config quiet_dns "1.2.3.4" (fun _ => true)
    (Some {| LocalPort := port; Subdomain := "app" |}) [] [] i "now".
Definition w_plan (port : Z) (i : string) : plan :=
  {| newPort := {| ID := i; Protocol := "http"; Internal := port; HostHeader := "app";
                   PortStatus := "active"; CreatedAt := "now" |};
     p_fqdn := "app.1-2-3-4.nip.io"; targetIP := "1.2.3.4" |}.

Lemma expose_outcome_witness :
  exists q p, Some {| LocalPort := 3000; Subdomain := "app" |} = Some q /\ true = true /\
    (1 <= LocalPort q <= 65535)%Z /\ subdomainRe (HostHeader p) = true /\
    taken (HostHeader p) [] = false /\
    @ports _ _ plain_config (snd (w_expose 3000 "1" w_handler)) = [] ++ [p] /\
    Internal p = LocalPort q /\ ID p = "1" /\ "1" = ID p /\ "app" = HostHeader p /\ 3000%Z = Internal p.
Proof.
  apply (@expose_outcome RootConfig unit plain_config plain_config_laws quiet_dns "1.2.3.4"
           (fun _ => true) (Some {| LocalPort := 3000; Subdomain := "app" |}) [] [] "1" "now"
           w_handler (snd (w_expose 3000 "1" w_handler)) (created (w_plan 3000 "1")));
    [vm_compute; reflexivity|apply not_elem_of_nil].
Defined.

Lemma exposed_names_unique_witness :
  NoDup (map HostHeader (@ports _ _ plain_config
    (snd (@update _ unit plain_config (add_port (newPort (w_plan 3000 "1"))) w_handler)))).
Proof.
  apply (@exposed_names_unique RootConfig unit plain_config plain_config_laws quiet_dns w_handler);
    [apply base.NoDup_nil_2|].
  eapply star_snoc; [apply star_nil|]. apply es_store.
Defined.

Definition w_commit (port : Z) (i : string) : Handler -> result response * Handler :=
  @expose_commit RootConfig unit plain_config quiet_dns (w_plan port i).

Lemma lost_race_reported_created_witness :
  @ports _ unit plain_config (snd (w_commit 4000 "2" (snd (w_commit 3000 "1" w_handler))))
    = [] ++ [newPort (w_plan 3000 "1")] /\
  "2" ∉ map ID (@ports _ unit plain_config (snd (w_commit 4000 "2" (snd (w_commit 3000 "1" w_handler))))).
Proof.
  apply (@lost_race_reported_created RootConfig unit plain_config plain_config_laws quiet_dns
           (w_plan 3000 "1") (w_plan 4000 "2") w_handler (snd (w_commit 3000 "1" w_handler)));
    [vm_compute; reflexivity|reflexivity|apply not_elem_of_nil|apply not_elem_of_nil|discriminate
    |vm_compute; reflexivity|vm_compute; reflexivity].
Defined.
