(* ===== verification/Caddy.v ===== *)
(** * proxy/caddy.go: the reverse-proxy routes of the remote Caddy

    The client over the configuration manager and an HTTP client; [CaddyServer]
    is the documented behaviour of Caddy's admin API.  The mutex makes every
    operation one step.  Host names are compared as [strings.EqualFold] does
    for ASCII. *)

From S2P Require Import Prelude GoLib Config.

Record Route := { Host : string; UpstreamDial : string }.

Record caddyUpstreamJSON := { Dial : string }.
Record caddyHandleJSON := { HandlerName : string; Upstreams : list caddyUpstreamJSON }.
Record caddyMatchJSON := { MHost : list string }.
Record caddyRouteJSON := {
  Match : list caddyMatchJSON; Handle : list caddyHandleJSON; Terminal : bool
}.
(** [caddyConfigResponse], down to the routes of each server. *)
Record caddyConfigResponse := { Servers : gmap string (list caddyRouteJSON) }.

Class CaddyCodec := {
  route_marshal : caddyRouteJSON -> string;
  config_unmarshal : string -> option caddyConfigResponse
}.

(** [http.NewRequest], which fails on a malformed URL, and [httpClient.Do]
    with the body it reads: method, URL, request body; status and body. *)
Class HTTPClient (E : Type) := {
  NewRequest : string -> string -> option string;
  Do : string -> string -> string -> eff E (Z * string)
}.

Fixpoint EqualFold (s t : string) : bool :=
  match s, t with
  | EmptyString, EmptyString => true
  | String a s', String b t' => bool_decide (lower_char a = lower_char b) && EqualFold s' t'
  | _, _ => false
  end.

(** [net.JoinHostPort] *)
Definition JoinHostPort (host port : string) : string :=
  if free_of ":" host then host +:+ ":" +:+ port
  else "[" +:+ host +:+ "]:" +:+ port.

Definition route_for (host upstreamDial : string) : caddyRouteJSON :=
  {| Match := [{| MHost := [host] |}];
     Handle := [{| HandlerName := "reverse_proxy"; Upstreams := [{| Dial := upstreamDial |}] |}];
     Terminal := true |}.

(** The first host of the matchers: of each, its first host, until one is not
    empty. *)
Fixpoint match_host (ms : list caddyMatchJSON) : string :=
  match ms with
  | [] => EmptyString
  | m :: ms' => match MHost m with
                | h :: _ => if decide (h = EmptyString) then match_host ms' else h
                | [] => match_host ms'
                end
  end.

Fixpoint upstream_dial (hs : list caddyHandleJSON) : string :=
  match hs with
  | [] => EmptyString
  | h :: hs' => match Upstreams h with
                | u :: _ => if decide (HandlerName h = "reverse_proxy") then Dial u
                            else upstream_dial hs'
                | [] => upstream_dial hs'
                end
  end.

Definition parse_route (r : caddyRouteJSON) : Route :=
  {| Host := match_host (Match r); UpstreamDial := upstream_dial (Handle r) |}.

(** Routes without a host are left out. *)
Definition host_routes (rs : list caddyRouteJSON) : list Route :=
  filter (fun r => Host r <> EmptyString) (map parse_route rs).

Fixpoint find_host (host : string) (rs : list Route) : option nat :=
  match rs with
  | [] => None
  | r :: rs' => if EqualFold (Host r) host then Some 0 else S <$> find_host host rs'
  end.

Section Caddy.
Context {C E : Type} `{ConfigManager C} `{HTTPClient E} `{CaddyCodec}.

Record CaddyClient := { cfgMgr : C; baseURL : string; net : E }.
Definition with_net (e : E) (c : CaddyClient) : CaddyClient :=
  {| cfgMgr := cfgMgr c; baseURL := baseURL c; net := e |}.
Definition with_baseURL (u : string) (c : CaddyClient) : CaddyClient :=
  {| cfgMgr := cfgMgr c; baseURL := u; net := net c |}.

Definition resolveBaseURL : eff CaddyClient string := fun c =>
  let cfg := cfg_get (cfgMgr c) in
  (if decide (Address (CaddyAPI cfg) <> EmptyString) then Ok (Address (CaddyAPI cfg))
   else if decide (ServerIP (Tunnel cfg) = EmptyString)
        then Err "proxy: tunnel server IP not configured"
        else Ok ("http://" +:+ JoinHostPort (ServerIP (Tunnel cfg)) "2019"), c).

Definition baseURLResolved : eff CaddyClient string := fun c =>
  if decide (baseURL c <> EmptyString) then (Ok (baseURL c), c)
  else (url ← resolveBaseURL; _ ← modify (with_baseURL url); mret url) c.

(** A request and its answer, with the two texts that differ between calls. *)
Definition request (create on method url body : string) : eff CaddyClient string :=
  match NewRequest method url with
  | Some e => throw (create +:+ e)
  | None =>
      '(code, text) ← wrap "caddy api unreachable: " (on_part net with_net (Do method url body));
      if decide (400 <= code)%Z then throw ("caddy returned " +:+ Itoa code +:+ on +:+ ": " +:+ text) else mret text
  end.

Definition routesPath : string := "/config/apps/http/servers/srv0/routes".

Definition AddRoute (host upstreamDial : string) : eff CaddyClient unit :=
  base ← wrap "proxy: resolve caddy address: " baseURLResolved;
  _ ← wrap "proxy: " (request "create request: " "" "POST" (base +:+ routesPath)
                              (route_marshal (route_for host upstreamDial)));
  mret tt.

Definition listRoutesLocked (base : string) : eff CaddyClient (list Route) :=
  text ← request "create request: " "" "GET" (base +:+ "/config/") EmptyString;
  match config_unmarshal text with
  | None => throw "decode caddy config: invalid JSON"
  | Some cfg => mret (match Servers cfg !! "srv0" with Some rs => host_routes rs | None => [] end)
  end.

Definition findRouteIndexLocked (base host : string) : eff CaddyClient nat :=
  routes ← listRoutesLocked base;
  match find_host host routes with
  | Some i => mret i
  | None => throw ("no route found for host " +:+ host)
  end.

Definition RemoveRoute (host : string) : eff CaddyClient unit :=
  base ← wrap "proxy: resolve caddy address: " baseURLResolved;
  idx ← wrap ("proxy: find route for host " +:+ host +:+ ": ") (findRouteIndexLocked base host);
  _ ← wrap "proxy: " (request "create delete request: " " on delete" "DELETE"
        (base +:+ routesPath +:+ "/" +:+ Itoa (Z.of_nat idx)) EmptyString);
  mret tt.

Definition ListRoutes : eff CaddyClient (list Route) :=
  base ← wrap "proxy: resolve caddy address: " baseURLResolved; listRoutesLocked base.
End Caddy.

(** ** Caddy's admin API: the configuration it shows, appending a route and
    removing one by its position in the whole list. *)

Class CaddyServer (E : Type) `{HTTPClient E} `{CaddyCodec} := {
  srv0 : E -> option (list caddyRouteJSON);
  caddy_get base e code text e' :
    Do "GET" (base +:+ "/config/") EmptyString e = (Ok (code, text), e') -> (code < 400)%Z ->
    exists cfg, config_unmarshal text = Some cfg /\ Servers cfg !! "srv0" = srv0 e /\
                srv0 e' = srv0 e;
  caddy_post base r e code text e' :
    Do "POST" (base +:+ routesPath) (route_marshal r) e = (Ok (code, text), e') -> (code < 400)%Z ->
    srv0 e' = Some (default [] (srv0 e) ++ [r]);
  caddy_delete base i e code text e' :
    Do "DELETE" (base +:+ routesPath +:+ "/" +:+ Itoa (Z.of_nat i)) EmptyString e
      = (Ok (code, text), e') -> (code < 400)%Z ->
    srv0 e' = delete i <$> srv0 e
}.

Section Properties.
Context {C E : Type} `{ConfigManager C} `{CaddyServer E}.

(** A request that succeeds. *)
Lemma request_ok create on method url body (c c' : CaddyClient (C := C) (E := E)) text :
  request create on method url body c = (Ok text, c') ->
  exists code e, Do method url body (net c) = (Ok (code, text), e) /\ (code < 400)%Z /\
                 c' = with_net e c.
Proof.
  unfold request. destruct (NewRequest method url); [done|]. intros Hr. bind_inv Hr.
  apply wrap_ok_inv in E0. unfold on_part in E0. destruct (Do _ _ _ _) as [x e] eqn:Hdo.
  injection E0 as -> <-. destruct a as [code t]. case_decide; [done|]. injection Hr as <- <-.
  exists code, e. split_and!; [done|lia|done].
Qed.

Lemma baseURL_ok (c c' : CaddyClient (C := C) (E := E)) base :
  baseURLResolved c = (Ok base, c') -> net c' = net c.
Proof.
  unfold baseURLResolved. case_decide; [by intros [= _ <-]|]. intros Hb. bind_inv Hb.
  unfold resolveBaseURL in E0. injection E0 as _ <-. bind_inv Hb.
  injection E0 as _ <-. by injection Hb as _ <-.
Qed.

Definition routes (c : CaddyClient (C := C) (E := E)) : list caddyRouteJSON :=
  default [] (srv0 (net c)).

Lemma list_ok base (c c' : CaddyClient (C := C) (E := E)) rs :
  listRoutesLocked base c = (Ok rs, c') ->
  rs = host_routes (routes c) /\ srv0 (net c') = srv0 (net c).
Proof.
  unfold listRoutesLocked. intros Hl. bind_inv Hl.
  apply request_ok in E0 as (code & e & Hdo & Hcode & ->).
  destruct (caddy_get _ _ _ _ _ Hdo Hcode) as (cfg & Hcfg & Hsrv & Hsame).
  rewrite Hcfg in Hl. injection Hl as <- <-. split; [|done].
  rewrite Hsrv. unfold routes. by destruct (srv0 (net c)).
Qed.

(** The position found is one among the routes that have a host. *)
Definition hostless (r : caddyRouteJSON) : bool := bool_decide (match_host (Match r) = EmptyString).
Definition matches (host : string) (r : caddyRouteJSON) : bool :=
  negb (hostless r) && EqualFold (match_host (Match r)) host.

Lemma find_host_position host l i :
  find_host host (host_routes l) = Some i ->
  exists l1 r l2, l = l1 ++ r :: l2 /\ matches host r = true /\
    Forall (fun r => matches host r = false) l1 /\
    i = length l1 - length (List.filter hostless l1).
Proof.
  revert i. induction l as [|r l IH]; intros i; [done|]. unfold host_routes. cbn [map].
  rewrite filter_cons. unfold matches, hostless in *. simpl.
  destruct (decide (match_host (Match r) = EmptyString)) as [Hno|Hhost].
  - rewrite decide_False by (intros Hx; by apply Hx). intros Hi.
    destruct (IH i Hi) as (l1 & r' & l2 & -> & Hr' & Hall & ->).
    exists (r :: l1), r', l2. split_and!; [done|done|constructor; [|done]|].
    + by rewrite bool_decide_true.
    + simpl. by rewrite bool_decide_true by done.
  - rewrite decide_True by done. simpl. destruct (EqualFold (match_host (Match r)) host) eqn:Hm.
    + intros [= <-]. exists [], r, l. split_and!; [done| |done|done].
      by rewrite bool_decide_false.
    + destruct (find_host host _) as [j|] eqn:Hj; [|done]. intros [= <-].
      destruct (IH j eq_refl) as (l1 & r' & l2 & -> & Hr' & Hall & ->).
      exists (r :: l1), r', l2. split_and!; [done|done|constructor; [|done]|].
      * by rewrite Hm, andb_false_r.
      * simpl. rewrite bool_decide_false by done.
        pose proof (filter_length_le (fun r => bool_decide (match_host (Match r) = EmptyString)) l1). lia.
Qed.

Lemma find_host_none host l : find_host host (host_routes l) = None <-> Forall (fun r => matches host r = false) l.
Proof.
  induction l as [|r l IH]; [by split|]. unfold host_routes. cbn [map]. rewrite filter_cons.
  rewrite list.Forall_cons, <- IH. unfold matches, hostless. simpl.
  destruct (decide (match_host (Match r) = EmptyString)) as [Hno|Hhost].
  - rewrite decide_False by (intros Hx; by apply Hx). rewrite bool_decide_true by done. cbn. tauto.
  - rewrite decide_True by done. rewrite bool_decide_false by done. simpl.
    destruct (EqualFold _ _); [by split; [|intros [? _]]|]. rewrite fmap_None. tauto.
Qed.

(** What removing a host removes: the route as many positions before the
    host's first one as there are routes without a host before it, since the
    position is counted among the routes that have one.  Without such routes it
    is the host's own. *)
Theorem remove_route_position host (c c' : CaddyClient (C := C) (E := E)) :
  RemoveRoute host c = (Ok tt, c') ->
  exists l1 r l2, routes c = l1 ++ r :: l2 /\ matches host r = true /\
    Forall (fun r => matches host r = false) l1 /\
    routes c' = delete (length l1 - length (List.filter hostless l1)) (l1 ++ r :: l2).
Proof.
  intros Hr. unfold RemoveRoute in Hr. bind_inv Hr. apply wrap_ok_inv, baseURL_ok in E0.
  bind_inv Hr. apply wrap_ok_inv in E1. unfold findRouteIndexLocked in E1. bind_inv E1.
  apply list_ok in E2 as [-> Hsrv]. destruct (find_host _ _) as [i|] eqn:Hf; [|done].
  injection E1 as <- <-. apply find_host_position in Hf as (l1 & r & l2 & Hl & Hm & Hall & ->).
  exists l1, r, l2. unfold routes in *. rewrite E0 in Hl, Hsrv. split_and!; [done..|].
  bind_inv Hr. apply wrap_ok_inv, request_ok in E1 as (code & e & Hdo & Hcode & ->).
  injection Hr as <-. simpl. rewrite (caddy_delete _ _ _ _ _ _ Hdo Hcode), Hsrv.
  destruct (srv0 (net c)); [|by destruct l1]. simpl in *. by rewrite Hl.
Qed.

Lemma add_ok_routes host up (c c1 : CaddyClient (C := C) (E := E)) :
  AddRoute host up c = (Ok tt, c1) -> routes c1 = routes c ++ [route_for host up].
Proof.
  intros Ha. unfold AddRoute in Ha. bind_inv Ha. apply wrap_ok_inv, baseURL_ok in E0.
  bind_inv Ha. apply wrap_ok_inv, request_ok in E1 as (code & e & Hdo & Hcode & ->).
  injection Ha as <-. unfold routes. simpl. by rewrite (caddy_post _ _ _ _ _ _ Hdo Hcode), E0.
Qed.

(** An added route is listed last, after those listed before. *)
Theorem add_then_list host up (c c1 c2 : CaddyClient (C := C) (E := E)) rs :
  host <> EmptyString -> AddRoute host up c = (Ok tt, c1) -> ListRoutes c1 = (Ok rs, c2) ->
  rs = host_routes (routes c) ++ [{| Host := host; UpstreamDial := up |}].
Proof.
  intros Hh Ha%add_ok_routes Hl. unfold ListRoutes in Hl. bind_inv Hl. apply wrap_ok_inv, baseURL_ok in E0.
  apply list_ok in Hl as [-> _]. assert (routes w = routes c1) as -> by (unfold routes; by rewrite E0).
  rewrite Ha. unfold host_routes. rewrite map_app, gfilter_app. f_equal. simpl.
  rewrite filter_cons. unfold parse_route. simpl.
  rewrite (decide_False (P := host = EmptyString)) by done. by rewrite decide_True.
Qed.
End Properties.

(** ** Witnesses: a server in memory *)

Definition route_tuple (r : caddyRouteJSON) : list (list string) * list (string * list string) * bool :=
  (map MHost (Match r), map (fun h => (HandlerName h, map Dial (Upstreams h))) (Handle r), Terminal r).
Definition tuple_route (t : list (list string) * list (string * list string) * bool) : caddyRouteJSON :=
  let '(m, h, b) := t in
  {| Match := map (fun hs => {| MHost := hs |}) m;
     Handle := map (fun nu => {| HandlerName := fst nu;
                                 Upstreams := map (fun d => {| Dial := d |}) (snd nu) |}) h;
     Terminal := b |}.

Lemma map_id_on {A} (f : A -> A) l : (forall a, f a = a) -> map f l = l.
Proof. intros Hf. induction l as [|a l IH]; simpl; [done|]. by rewrite Hf, IH. Qed.

Lemma tuple_route_tuple r : tuple_route (route_tuple r) = r.
Proof.
  destruct r as [m h b]. unfold tuple_route, route_tuple. simpl. rewrite !map_map. f_equal.
  - apply map_id_on. by intros [].
  - apply map_id_on. intros [n u]. simpl. f_equal. rewrite map_map. apply map_id_on. by intros [].
Qed.

Definition shown (o : option (list caddyRouteJSON)) : string := count_enc (map route_tuple <$> o).
#[export] Instance memory_codec : CaddyCodec := {|
  route_marshal r := count_enc (route_tuple r);
  config_unmarshal s :=
    match count_dec s with
    | Some (Some l) => Some {| Servers := {["srv0" := map tuple_route l]} |}
    | Some None => Some {| Servers := ∅ |}
    | None => None
    end
|}.

(** What follows the last slash. *)
Fixpoint last_segment (s : string) : option string :=
  match s with
  | EmptyString => None
  | String c s' => match last_segment s' with
                   | Some x => Some x
                   | None => if decide (c = "/"%char) then Some s' else None
                   end
  end.

Lemma last_segment_free s : free_of "/" s = true -> last_segment s = None.
Proof.
  induction s as [|c s IH]; [done|]. unfold free_of. simpl.
  intros [Hc%negb_true_iff%bool_decide_eq_false Hs]%andb_true_iff.
  rewrite IH by done. by rewrite decide_False.
Qed.

Lemma last_segment_app a b :
  free_of "/" b = true -> last_segment (a +:+ String "/" b) = Some b.
Proof.
  intros Hb. induction a as [|c a IH]; simpl; [by rewrite last_segment_free|]. by rewrite IH.
Qed.

#[export] Instance memory_http : HTTPClient (option (list caddyRouteJSON)) := {|
  NewRequest _ _ := None;
  Do method url body e :=
    if decide (method = "GET") then (Ok (200%Z, shown e), e)
    else if decide (method = "POST") then
      match count_dec body with
      | Some r => (Ok (200%Z, EmptyString), Some (default [] e ++ [tuple_route r]))
      | None => (Ok (400%Z, EmptyString), e)
      end
    else
      match last_segment url ≫= parse_digits with
      | Some i => (Ok (200%Z, EmptyString), delete (N.to_nat i) <$> e)
      | None => (Ok (404%Z, EmptyString), e)
      end
|}.

#[export, refine] Instance memory_server : CaddyServer (option (list caddyRouteJSON)) :=
  {| srv0 e := e |}.
Proof.
  - intros base e code text e' [= <- <- <-] _. unfold shown, config_unmarshal, memory_codec.
    rewrite count_dec_enc. destruct e as [l|]; eexists; (split; [reflexivity|]); [|done].
    simpl. rewrite lookup_singleton_eq, map_map. split; [|done]. f_equal.
    apply map_id_on, tuple_route_tuple.
  - intros base r e code text e'. cbn [Do memory_http]. rewrite decide_False, decide_True by done.
    unfold route_marshal, memory_codec. rewrite count_dec_enc, tuple_route_tuple. by intros [= _ _ <-].
  - intros base i e code text e'. cbn [Do memory_http]. rewrite !decide_False by done.
    rewrite <- (sapp_assoc base routesPath).
    change ("/" +:+ Itoa (Z.of_nat i)) with (String "/" (Itoa (Z.of_nat i))).
    rewrite last_segment_app by (apply Itoa_free_of; done). cbn [mbind option_bind].
    unfold Itoa. destruct (Z.ltb_spec (Z.of_nat i) 0); [lia|]. rewrite parse_digits_of.
    intros [= _ _ <-] _. f_equal. f_equal. lia.
Defined.

Definition bare_route : caddyRouteJSON := {| Match := []; Handle := []; Terminal := false |}.
Definition w_caddy (rs : list caddyRouteJSON) : CaddyClient :=
  {| cfgMgr := defaultConfig "u"; baseURL := "http://10.8.1.1:2019"; net := Some rs |}.
Definition w_routes : list caddyRouteJSON := [route_for "a" "1"; bare_route; route_for "b" "2"].

(** Removing [b] behind a route without host removes that route instead. *)
Lemma remove_route_position_witness :
  (exists l1 r l2, w_routes = l1 ++ r :: l2 /\ matches "b" r = true /\
     Forall (fun r => matches "b" r = false) l1 /\
     [route_for "a" "1"; route_for "b" "2"] = delete (length l1 - length (List.filter hostless l1)) (l1 ++ r :: l2)).
Proof.
  apply (@remove_route_position RootConfig _ plain_config _ _ memory_server "b" (w_caddy w_routes)
           (w_caddy [route_for "a" "1"; route_for "b" "2"])).
  vm_compute. reflexivity.
Defined.

Lemma add_then_list_witness :
  [{| Host := "a"; UpstreamDial := "1" |}; {| Host := "b"; UpstreamDial := "2" |};
   {| Host := "c"; UpstreamDial := "3" |}]
  = host_routes w_routes ++ [{| Host := "c"; UpstreamDial := "3" |}].
Proof.
  apply (@add_then_list RootConfig _ plain_config _ _ memory_server "c" "3" (w_caddy w_routes)
           (w_caddy (w_routes ++ [route_for "c" "3"])) (w_caddy (w_routes ++ [route_for "c" "3"])));
    [discriminate|vm_compute; reflexivity|vm_compute; reflexivity].
Defined.
