(* ===== verification/Wizard.v ===== *)
(** * wizard: the setup wizard, its state file, its handlers and the commit

    The reducer and its transition table, the state file on the file system of
    [FS], the HTTP handlers and the goroutine that bootstraps the host.  What
    reaches the host (connection, preflight, bootstrap, first peer, first
    route) and the DNS resolver are the interface [WizardDeps]; UUIDs and the
    formatted clock are arguments, one reading per call; the JSON codec is a
    parameter.  Messages leave out the quoting of [%q]. *)

From Stdlib Require Import SpecFloat.
From S2P Require Import Prelude GoLib Float64 FS.

(** ** wizard.go: data *)

(** [WizardStep] is a string: the ten constants and everything else. *)
Inductive WizardStep :=
  | StepWelcome | StepSSH | StepPreflight | StepDomainMode | StepDomainCheck
  | StepCloudflare | StepCreatePeer | StepCommit | StepSuccess | StepError
  | OtherStep (s : string).

#[export] Instance WizardStep_eq_dec : EqDecision WizardStep.
Proof. solve_decision. Defined.

Definition step_name (s : WizardStep) : string :=
  match s with
  | StepWelcome => "welcome" | StepSSH => "ssh" | StepPreflight => "preflight"
  | StepDomainMode => "domain_mode" | StepDomainCheck => "domain_check"
  | StepCloudflare => "cloudflare" | StepCreatePeer => "create_peer" | StepCommit => "commit"
  | StepSuccess => "success" | StepError => "error" | OtherStep s => s
  end.

Definition all_steps : list WizardStep :=
  [StepWelcome; StepSSH; StepPreflight; StepDomainMode; StepDomainCheck; StepCloudflare;
   StepCreatePeer; StepCommit; StepSuccess; StepError].

(** The step a string is. *)
Definition step_of (s : string) : WizardStep :=
  match List.find (fun st => bool_decide (step_name st = s)) all_steps with
  | Some st => st
  | None => OtherStep s
  end.

Definition IsValidStep (s : WizardStep) : bool :=
  match s with OtherStep _ => false | _ => true end.

Inductive SessionStatus := StatusInProgress | StatusCommitted | StatusAbandoned
  | OtherStatus (s : string).

#[export] Instance SessionStatus_eq_dec : EqDecision SessionStatus.
Proof. solve_decision. Defined.

Record SSHInput := {
  Host : string; Port : Z; User : string; AuthType : string; KeyPath : string; Password : string
}.
Record PortExpose := { LocalPort : Z; Subdomain : string }.

Record WizardInputs := {
  SSH : option SSHInput; DomainMode : string; Domain : string; CloudflareToken : string;
  NipioEnabled : bool; FirstPeerName : string; FirstPortExpose : option PortExpose
}.

Record PreflightResult := {
  TargetHost : string; PCheckedAt : string; Distro : string; DistroVersion : string;
  Arch : string; DiskFreeGB : f64; RAMMB : Z; HasSudo : bool; HasDocker : bool;
  DockerRunning : bool; Port443Free : bool; Port80Free : bool; PortWGFree : bool;
  Compatible : bool; PWarnings : list string; BlockingFailures : list string
}.

Record DomainCheckResult := {
  DDomain : string; DMode : string; DCheckedAt : string; ARecordIPs : list string;
  PointsToVPS : bool; CloudflareDetected : bool; CloudflareTokenValid : option bool;
  CloudflareTokenScopes : list string; CloudflareZoneID : string; TLSStrategy : string;
  TLSFeasible : bool; DWarnings : list string; DErrors : list string
}.

Record WizardState := {
  SessionID : string; CurrentStep : WizardStep; Status : SessionStatus; Inputs : WizardInputs;
  PreflightResult_ : option PreflightResult; DomainCheckResult_ : option DomainCheckResult;
  ProgressPct : Z; StartedAt : string; LastSavedAt : string; CommittedAt : string;
  ErrorMessage : string
}.

Definition no_inputs : WizardInputs :=
  {| SSH := None; DomainMode := ""; Domain := ""; CloudflareToken := ""; NipioEnabled := false;
     FirstPeerName := ""; FirstPortExpose := None |}.

Definition NewState (uuid now : string) : WizardState :=
  {| SessionID := uuid; CurrentStep := StepWelcome; Status := StatusInProgress;
     Inputs := no_inputs; PreflightResult_ := None; DomainCheckResult_ := None; ProgressPct := 0;
     StartedAt := now; LastSavedAt := now; CommittedAt := ""; ErrorMessage := "" |}.

(** Assignments to fields. *)
Definition set_step (st : WizardStep) (s : WizardState) : WizardState :=
  {| SessionID := SessionID s; CurrentStep := st; Status := Status s; Inputs := Inputs s;
     PreflightResult_ := PreflightResult_ s; DomainCheckResult_ := DomainCheckResult_ s;
     ProgressPct := ProgressPct s; StartedAt := StartedAt s; LastSavedAt := LastSavedAt s;
     CommittedAt := CommittedAt s; ErrorMessage := ErrorMessage s |}.
Definition set_status (st : SessionStatus) (s : WizardState) : WizardState :=
  {| SessionID := SessionID s; CurrentStep := CurrentStep s; Status := st; Inputs := Inputs s;
     PreflightResult_ := PreflightResult_ s; DomainCheckResult_ := DomainCheckResult_ s;
     ProgressPct := ProgressPct s; StartedAt := StartedAt s; LastSavedAt := LastSavedAt s;
     CommittedAt := CommittedAt s; ErrorMessage := ErrorMessage s |}.
Definition set_inputs (i : WizardInputs) (s : WizardState) : WizardState :=
  {| SessionID := SessionID s; CurrentStep := CurrentStep s; Status := Status s; Inputs := i;
     PreflightResult_ := PreflightResult_ s; DomainCheckResult_ := DomainCheckResult_ s;
     ProgressPct := ProgressPct s; StartedAt := StartedAt s; LastSavedAt := LastSavedAt s;
     CommittedAt := CommittedAt s; ErrorMessage := ErrorMessage s |}.
Definition set_preflight (r : option PreflightResult) (s : WizardState) : WizardState :=
  {| SessionID := SessionID s; CurrentStep := CurrentStep s; Status := Status s; Inputs := Inputs s;
     PreflightResult_ := r; DomainCheckResult_ := DomainCheckResult_ s;
     ProgressPct := ProgressPct s; StartedAt := StartedAt s; LastSavedAt := LastSavedAt s;
     CommittedAt := CommittedAt s; ErrorMessage := ErrorMessage s |}.
Definition set_domain_check (r : option DomainCheckResult) (s : WizardState) : WizardState :=
  {| SessionID := SessionID s; CurrentStep := CurrentStep s; Status := Status s; Inputs := Inputs s;
     PreflightResult_ := PreflightResult_ s; DomainCheckResult_ := r;
     ProgressPct := ProgressPct s; StartedAt := StartedAt s; LastSavedAt := LastSavedAt s;
     CommittedAt := CommittedAt s; ErrorMessage := ErrorMessage s |}.
Definition set_pct (p : Z) (s : WizardState) : WizardState :=
  {| SessionID := SessionID s; CurrentStep := CurrentStep s; Status := Status s; Inputs := Inputs s;
     PreflightResult_ := PreflightResult_ s; DomainCheckResult_ := DomainCheckResult_ s;
     ProgressPct := p; StartedAt := StartedAt s; LastSavedAt := LastSavedAt s;
     CommittedAt := CommittedAt s; ErrorMessage := ErrorMessage s |}.
Definition set_saved (now : string) (s : WizardState) : WizardState :=
  {| SessionID := SessionID s; CurrentStep := CurrentStep s; Status := Status s; Inputs := Inputs s;
     PreflightResult_ := PreflightResult_ s; DomainCheckResult_ := DomainCheckResult_ s;
     ProgressPct := ProgressPct s; StartedAt := StartedAt s; LastSavedAt := now;
     CommittedAt := CommittedAt s; ErrorMessage := ErrorMessage s |}.
Definition set_committed (now : string) (s : WizardState) : WizardState :=
  {| SessionID := SessionID s; CurrentStep := CurrentStep s; Status := Status s; Inputs := Inputs s;
     PreflightResult_ := PreflightResult_ s; DomainCheckResult_ := DomainCheckResult_ s;
     ProgressPct := ProgressPct s; StartedAt := StartedAt s; LastSavedAt := now;
     CommittedAt := now; ErrorMessage := ErrorMessage s |}.
Definition set_error (e : string) (s : WizardState) : WizardState :=
  {| SessionID := SessionID s; CurrentStep := CurrentStep s; Status := Status s; Inputs := Inputs s;
     PreflightResult_ := PreflightResult_ s; DomainCheckResult_ := DomainCheckResult_ s;
     ProgressPct := ProgressPct s; StartedAt := StartedAt s; LastSavedAt := LastSavedAt s;
     CommittedAt := CommittedAt s; ErrorMessage := e |}.

(** [action.Data]: the two pointers the reducer looks for, or anything else. *)
Inductive payload :=
  | PreflightData (r : option PreflightResult)
  | DomainData (r : option DomainCheckResult)
  | OtherData.

Record WizardAction := { Type_ : string; Step : WizardStep; Data : payload; AError : string }.
Definition action (t : string) : WizardAction :=
  {| Type_ := t; Step := OtherStep ""; Data := OtherData; AError := "" |}.

Definition ActionStartSession : string := "start_session".
Definition ActionStepComplete : string := "step_complete".
Definition ActionPreflight : string := "preflight_result".
Definition ActionDomainCheck : string := "domain_check_result".
Definition ActionStepBack : string := "step_back".
Definition ActionCommitStart : string := "commit_start".
Definition ActionCommitSuccess : string := "commit_success".
Definition ActionCommitFailure : string := "commit_failure".
Definition ActionRetry : string := "retry".
Definition ActionAbandon : string := "abandon".

Definition stepProgress (s : WizardStep) : Z :=
  match s with
  | StepWelcome => 0 | StepSSH => 12 | StepPreflight => 25 | StepDomainMode => 37
  | StepDomainCheck => 50 | StepCloudflare => 62 | StepCreatePeer => 75 | StepCommit => 87
  | StepSuccess => 100 | StepError => 0 | OtherStep _ => 0
  end.

(** ** wizard.go: the transition table *)

Record transition := { From : WizardStep; To : WizardStep; Guard : WizardState -> bool }.
Definition always (s : WizardState) : bool := true.
Definition preflight_is (b : bool) (s : WizardState) : bool :=
  match PreflightResult_ s with Some r => Bool.eqb (Compatible r) b | None => false end.
Definition mode_is (m : string) (s : WizardState) : bool := bool_decide (DomainMode (Inputs s) = m).
Definition feasible_with (cf : bool) (s : WizardState) : bool :=
  match DomainCheckResult_ s with
  | Some r => Bool.eqb (CloudflareDetected r) cf && TLSFeasible r
  | None => false
  end.
Definition not_empty (f : WizardInputs -> string) (s : WizardState) : bool :=
  bool_decide (f (Inputs s) <> EmptyString).
Definition has_ssh (s : WizardState) : bool := bool_decide (SSH (Inputs s) <> None).

Definition tr (f t : WizardStep) (g : WizardState -> bool) : transition :=
  {| From := f; To := t; Guard := g |}.

Definition transitions : list transition :=
  [tr StepWelcome StepSSH always;
   tr StepSSH StepWelcome always;
   tr StepSSH StepPreflight has_ssh;
   tr StepPreflight StepSSH always;
   tr StepPreflight StepDomainMode (preflight_is true);
   tr StepPreflight StepSSH (preflight_is false);
   tr StepDomainMode StepPreflight always;
   tr StepDomainMode StepDomainCheck (mode_is "byo");
   tr StepDomainMode StepCreatePeer (mode_is "nipio");
   tr StepDomainCheck StepDomainMode always;
   tr StepDomainCheck StepCloudflare (feasible_with true);
   tr StepDomainCheck StepCreatePeer (feasible_with false);
   tr StepCloudflare StepDomainCheck always;
   tr StepCloudflare StepCreatePeer (not_empty CloudflareToken);
   tr StepCreatePeer StepCloudflare always;
   tr StepCreatePeer StepDomainMode always;
   tr StepCreatePeer StepCommit (not_empty FirstPeerName);
   tr StepCommit StepSuccess always;
   tr StepCommit StepError always;
   tr StepError StepSSH always;
   tr StepError StepWelcome always].

(** The guard of the first entry for the pair decides. *)
Definition isTransitionAllowed (from to : WizardStep) (state : WizardState) : bool :=
  match List.find (fun t => bool_decide (From t = from /\ To t = to)) transitions with
  | Some t => Guard t state
  | None => false
  end.

Definition backNavAllowed (s : WizardStep) : bool :=
  match s with
  | StepSSH | StepPreflight | StepDomainMode | StepDomainCheck | StepCloudflare
  | StepCreatePeer => true
  | _ => false
  end.

(** ** wizard.go: the reducer *)

Definition TransitionError (from to : WizardStep) (msg : string) : string :=
  "invalid transition " +:+ step_name from +:+ " -> " +:+ step_name to +:+ ": " +:+ msg.

Definition handleStartSession (s : WizardState) : result WizardState :=
  if decide (Status s <> OtherStatus "" /\ Status s <> StatusInProgress)
  then Err (TransitionError (CurrentStep s) StepWelcome "session already exists")
  else Ok (set_pct (stepProgress StepWelcome) (set_status StatusInProgress (set_step StepWelcome s))).

(** The three assignments that end a change of step. *)
Definition move_to (st : WizardStep) (now : string) (s : WizardState) : WizardState :=
  set_saved now (set_pct (stepProgress st) (set_step st s)).

Definition handleStepComplete (s : WizardState) (a : WizardAction) (now : string)
  : result WizardState :=
  if negb (IsValidStep (Step a)) then Err ("invalid step: " +:+ step_name (Step a)) else
  if negb (isTransitionAllowed (CurrentStep s) (Step a) s)
  then Err (TransitionError (CurrentStep s) (Step a) "transition not allowed")
  else Ok (move_to (Step a) now s).

Definition handleStepBack (s : WizardState) (a : WizardAction) (now : string)
  : result WizardState :=
  if negb (backNavAllowed (CurrentStep s))
  then Err (TransitionError (CurrentStep s) (Step a) "back navigation not allowed from current step")
  else if negb (IsValidStep (Step a)) then Err ("invalid step: " +:+ step_name (Step a))
  else Ok (move_to (Step a) now s).

Definition handlePreflightResult (s : WizardState) (a : WizardAction) (now : string)
  : result WizardState :=
  if decide (CurrentStep s <> StepPreflight)
  then Err (TransitionError (CurrentStep s) StepPreflight
              "preflight result can only be set during preflight step")
  else match Data a with
       | PreflightData (Some r) =>
           let s := set_saved now (set_preflight (Some r) s) in
           Ok (if Compatible r then set_pct (stepProgress StepDomainMode) (set_step StepDomainMode s)
               else s)
       | PreflightData None => Panic "nil pointer dereference"
       | _ => Err "invalid preflight result data"
       end.

Definition handleDomainCheckResult (s : WizardState) (a : WizardAction) (now : string)
  : result WizardState :=
  if decide (CurrentStep s <> StepDomainCheck)
  then Err (TransitionError (CurrentStep s) StepDomainCheck
              "domain check result can only be set during domain_check step")
  else match Data a with
       | DomainData (Some r) =>
           let s := set_saved now (set_domain_check (Some r) s) in
           if negb (TLSFeasible r) then Ok s else
           let st := if CloudflareDetected r then StepCloudflare else StepCreatePeer in
           Ok (set_pct (stepProgress st) (set_step st s))
       | DomainData None => Panic "nil pointer dereference"
       | _ => Err "invalid domain check result data"
       end.

Definition handleCommitStart (s : WizardState) (now : string) : result WizardState :=
  if decide (CurrentStep s <> StepCommit)
  then Err (TransitionError (CurrentStep s) StepCommit "commit can only start from commit step")
  else Ok (set_saved now s).

Definition handleCommitSuccess (s : WizardState) (now : string) : result WizardState :=
  if decide (CurrentStep s <> StepCommit)
  then Err (TransitionError (CurrentStep s) StepSuccess
              "commit success can only happen from commit step")
  else Ok (set_committed now (set_pct 100 (set_status StatusCommitted (set_step StepSuccess s)))).

Definition handleCommitFailure (s : WizardState) (a : WizardAction) (now : string)
  : result WizardState :=
  if decide (CurrentStep s <> StepCommit)
  then Err (TransitionError (CurrentStep s) StepError
              "commit failure can only happen from commit step")
  else Ok (set_saved now (set_error (AError a) (set_step StepError s))).

Definition handleRetry (s : WizardState) (now : string) : result WizardState :=
  if decide (CurrentStep s <> StepError)
  then Err (TransitionError (CurrentStep s) StepSSH "retry only allowed from error step")
  else Ok (move_to StepSSH now
             (set_domain_check None (set_preflight None (set_error "" (set_step StepSSH s))))).

Definition handleAbandon (s : WizardState) (now : string) : result WizardState :=
  Ok (set_saved now (set_status StatusAbandoned s)).

(** [None] is a nil state. *)
Definition Reducer (state : option WizardState) (a : WizardAction) (now : string)
  : result WizardState :=
  match state with
  | None => Err "state is nil"
  | Some s =>
      let t := Type_ a in
      if decide (t = ActionStartSession) then handleStartSession s
      else if decide (t = ActionStepComplete) then handleStepComplete s a now
      else if decide (t = ActionStepBack) then handleStepBack s a now
      else if decide (t = ActionPreflight) then handlePreflightResult s a now
      else if decide (t = ActionDomainCheck) then handleDomainCheckResult s a now
      else if decide (t = ActionCommitStart) then handleCommitStart s now
      else if decide (t = ActionCommitSuccess) then handleCommitSuccess s now
      else if decide (t = ActionCommitFailure) then handleCommitFailure s a now
      else if decide (t = ActionRetry) then handleRetry s now
      else if decide (t = ActionAbandon) then handleAbandon s now
      else Err ("unknown action type: " +:+ t)
  end.

(** ** dnscheck.go *)

(** [LookupHost] and [LookupNS]: records or an error. *)
Record lookups := { l_host : result (list string); l_ns : result (list string) }.

Definition join (sep : string) (l : list string) : string :=
  match l with
  | [] => EmptyString
  | x :: l' => foldl (fun acc y => acc +:+ sep +:+ y) x l'
  end.

(** [dnscheck.Validate]; the token's validity is never set before it is
    looked at, so it is [None] here as in the code. *)
Definition dns_validate (d : lookups) (domain vpsIP : string) (port80Free : bool) (now : string)
  : DomainCheckResult :=
  let '(ips, aerr) := match l_host d with
                      | Ok l => (l, [])
                      | Err e | Panic e => ([], ["A record lookup failed: " +:+ e])
                      end in
  let points := existsb (fun ip => bool_decide (ip = vpsIP)) ips in
  let '(cf, nswarn) := match l_ns d with
                       | Ok l => (existsb (fun ns => HasSuffix (ToLower ns) ".cloudflare.com") l, [])
                       | Err e | Panic e => (false, ["NS lookup failed: " +:+ e])
                       end in
  let tokenValid : option bool := None in
  let dns01 := cf && match tokenValid with Some b => b | None => false end in
  let feasible := dns01 || port80Free in
  let terr := if feasible then []
              else [if cf then "port 80 is blocked and Cloudflare token is invalid or missing; TLS certificate issuance not possible"
                    else "port 80 is blocked and no Cloudflare detected; TLS certificate issuance not possible"] in
  let pwarn := if negb points && (0 <? Z.of_nat (length ips))%Z
               then ["domain does not point to VPS IP " +:+ vpsIP +:+ "; current A records: " +:+ join ", " ips]
               else [] in
  {| DDomain := domain; DMode := "byo"; DCheckedAt := now; ARecordIPs := ips; PointsToVPS := points;
     CloudflareDetected := cf; CloudflareTokenValid := tokenValid; CloudflareTokenScopes := [];
     CloudflareZoneID := ""; TLSStrategy := if dns01 then "dns-01" else "http-01";
     TLSFeasible := feasible; DWarnings := nswarn ++ pwarn; DErrors := aerr ++ terr |}.

(** ** state.go *)

Class WizardCodec := {
  state_marshal : WizardState -> string;
  state_unmarshal : string -> option WizardState
}.

Definition is_hex (c : ascii) : bool := match hex_val c with Some _ => true | None => false end.
Fixpoint groups (l : list string) (ns : list nat) : bool :=
  match l, ns with
  | [], [] => true
  | s :: l', n :: ns' => str_all is_hex s && bool_decide (slen s = n) && groups l' ns'
  | _, _ => false
  end.
(** Five runs of hexadecimal digits between dashes. *)
Definition uuidPattern (s : string) : bool := groups (Split s "-") [8; 4; 4; 4; 12].

Section State.
Context `{WizardCodec} (dir : string).

Definition StateFilePath : string := dir +:+ "/wizard-state.json".

(** Saving also stamps the state in memory, which the callers then drop. *)
Definition SaveState (state : WizardState) (now : string) : eff World unit :=
  let data := state_marshal (set_saved now state) in
  _ ← wrap "failed to create state directory: " (MkdirAll dir);
  tmpPath ← wrap "failed to create temp file: " (CreateTemp (dir +:+ "/.wizard-state-") ".tmp");
  _ ← or_cleanup (WriteTo tmpPath data) "failed to write state to temp file: "
                 [CloseFile tmpPath; Remove tmpPath];
  _ ← or_cleanup (Chmod tmpPath) "failed to set file permissions: "
                 [CloseFile tmpPath; Remove tmpPath];
  _ ← or_cleanup (CloseFile tmpPath) "failed to close temp file: " [Remove tmpPath];
  or_cleanup (Rename tmpPath StateFilePath) "failed to rename temp file to state file: "
             [Remove tmpPath].

Definition parse_state (data : string) : result WizardState :=
  if decide (slen data = 0) then Err "wizard state file is empty" else
  match state_unmarshal data with
  | None => Err "wizard state file contains invalid JSON"
  | Some s =>
      if negb (uuidPattern (SessionID s))
      then Err ("wizard state has invalid session_id: " +:+ SessionID s +:+ " (expected UUID format)")
      else if negb (IsValidStep (CurrentStep s))
      then Err ("wizard state has invalid current_step: " +:+ step_name (CurrentStep s))
      else Ok s
  end.

Definition LoadState : eff World (option WizardState) :=
  r ← ReadFile StateFilePath;
  match r with
  | NotExist => mret None
  | ReadError e => throw ("failed to read wizard state: " +:+ e)
  | Contents data => s ← lift (parse_state data); mret (Some s)
  end.

(** A missing file is not an error. *)
Definition DeleteState : eff World unit := fun w =>
  match next_outcome w, files w !! StateFilePath with
  | None, None => (Ok tt, after (files w) w)
  | _, _ => wrap "failed to delete wizard state: " (Remove StateFilePath) w
  end.
End State.

(** ** handlers.go, bootstrap.go *)

Record BootstrapResult := { WGEndpoint : string; ServerPubKey : string }.
Record PeerResult := { PeerID : string; LocalIP : string }.
Record RouteExposeResult := { RFQDN : string; RURL : string }.

(** Connecting to the host and checking it; resolving names; the three parts
    of a bootstrap. *)
Class WizardDeps (E : Type) := {
  RunPreflight : SSHInput -> eff E (result PreflightResult);
  Lookup : string -> eff E lookups;
  Bootstrap : WizardState -> eff E BootstrapResult;
  CreatePeer : string -> WizardState -> eff E PeerResult;
  ExposeRoute : Z -> string -> WizardState -> eff E RouteExposeResult
}.

(** The bodies of a step, decoded. *)
Inductive body :=
  | NoBody | SSHBody (i : SSHInput) | ModeBody (mode : string) | DomainBody (domain : string)
  | TokenBody (token : string) (enabled : bool)
  | PeerBody (name : string) (port : option PortExpose).

Inductive reply :=
  | StateReply (s : WizardState)
  | StepDone (id : string) (step next : WizardStep) (pct : Z)
  | PreflightReply (status : Z) (r : PreflightResult)
  | Committing (id : string)
  | Abandoned (id : string)
  | Fail (status : Z) (code message : string).

Definition set_ssh (x : SSHInput) (i : WizardInputs) : WizardInputs :=
  {| SSH := Some x; DomainMode := DomainMode i; Domain := Domain i;
     CloudflareToken := CloudflareToken i; NipioEnabled := NipioEnabled i;
     FirstPeerName := FirstPeerName i; FirstPortExpose := FirstPortExpose i |}.
Definition set_mode (m : string) (i : WizardInputs) : WizardInputs :=
  {| SSH := SSH i; DomainMode := m; Domain := Domain i; CloudflareToken := CloudflareToken i;
     NipioEnabled := bool_decide (m = "nipio"); FirstPeerName := FirstPeerName i;
     FirstPortExpose := FirstPortExpose i |}.
Definition set_domain (d : string) (i : WizardInputs) : WizardInputs :=
  {| SSH := SSH i; DomainMode := DomainMode i; Domain := d; CloudflareToken := CloudflareToken i;
     NipioEnabled := NipioEnabled i; FirstPeerName := FirstPeerName i;
     FirstPortExpose := FirstPortExpose i |}.
Definition set_token (t : string) (i : WizardInputs) : WizardInputs :=
  {| SSH := SSH i; DomainMode := DomainMode i; Domain := Domain i; CloudflareToken := t;
     NipioEnabled := NipioEnabled i; FirstPeerName := FirstPeerName i;
     FirstPortExpose := FirstPortExpose i |}.
Definition set_peer (n : string) (p : option PortExpose) (i : WizardInputs) : WizardInputs :=
  {| SSH := SSH i; DomainMode := DomainMode i; Domain := Domain i;
     CloudflareToken := CloudflareToken i; NipioEnabled := NipioEnabled i; FirstPeerName := n;
     FirstPortExpose := p |}.

Definition invalid_body {A} : result A := Err "invalid request body".

Definition applyStepInput (step : WizardStep) (b : body) (s : WizardState) : result WizardState :=
  let upd f := Ok (set_inputs (f (Inputs s)) s) in
  match step with
  | StepWelcome => Ok s
  | StepSSH =>
      match b with
      | SSHBody i =>
          if decide (Host i = EmptyString) then Err "ssh.host is required"
          else if decide (Port i <= 0)%Z then Err "ssh.port is required and must be positive"
          else if decide (User i = EmptyString) then Err "ssh.user is required"
          else if decide (AuthType i = EmptyString) then Err "ssh.auth_type is required"
          else upd (set_ssh i)
      | _ => invalid_body
      end
  | StepDomainMode =>
      match b with
      | ModeBody m => if decide (m <> "byo" /\ m <> "nipio") then Err "mode must be 'byo' or 'nipio'"
                      else upd (set_mode m)
      | _ => invalid_body
      end
  | StepDomainCheck =>
      match b with
      | DomainBody d => if decide (d = EmptyString) then Err "domain is required"
                        else upd (set_domain d)
      | _ => invalid_body
      end
  | StepCloudflare =>
      match b with
      | TokenBody t enabled =>
          if enabled && bool_decide (t = EmptyString)
          then Err "token is required when cloudflare is enabled" else upd (set_token t)
      | _ => invalid_body
      end
  | StepCreatePeer =>
      match b with
      | PeerBody n p => if decide (n = EmptyString) then Err "peer_name is required"
                        else upd (set_peer n p)
      | _ => invalid_body
      end
  | _ => Err ("step " +:+ step_name step +:+ " does not accept input")
  end.

Definition resolveNextStep (s : WizardState) (current : WizardStep) : result WizardStep :=
  match current with
  | StepWelcome => Ok StepSSH
  | StepSSH => Ok StepPreflight
  | StepDomainMode => Ok (if decide (DomainMode (Inputs s) = "nipio") then StepCreatePeer
                          else StepDomainCheck)
  | StepDomainCheck =>
      Ok (match DomainCheckResult_ s with
          | Some r => if CloudflareDetected r && TLSFeasible r then StepCloudflare
                      else StepCreatePeer
          | None => StepCreatePeer
          end)
  | StepCloudflare => Ok StepCreatePeer
  | StepCreatePeer => Ok StepCommit
  | _ => Err ("no next step defined for " +:+ step_name current)
  end.

Definition redactState (s : WizardState) : WizardState :=
  let i := Inputs s in
  let ssh := match SSH i with
             | Some x => if decide (Password x <> EmptyString)
                         then Some {| Host := Host x; Port := Port x; User := User x;
                                      AuthType := AuthType x; KeyPath := KeyPath x;
                                      Password := "[REDACTED]" |}
                         else Some x
             | None => None
             end in
  let t := CloudflareToken i in
  let token := if decide (t = EmptyString) then t
               else if decide (8 < slen t) then stake 8 t +:+ "..." else t +:+ "..." in
  set_inputs {| SSH := ssh; DomainMode := DomainMode i; Domain := Domain i;
                CloudflareToken := token; NipioEnabled := NipioEnabled i;
                FirstPeerName := FirstPeerName i; FirstPortExpose := FirstPortExpose i |} s.

Section Handlers.
Context {E : Type} `{WizardDeps E} `{WizardCodec} (dir vpsIP : string).

(** [started]: the bootstraps handed to a goroutine so far. *)
Record Server := { disk : World; deps : E; started : list WizardState }.
Definition with_disk (w : World) (v : Server) : Server :=
  {| disk := w; deps := deps v; started := started v |}.
Definition with_deps (e : E) (v : Server) : Server :=
  {| disk := disk v; deps := e; started := started v |}.
Definition spawn (s : WizardState) (v : Server) : Server :=
  {| disk := disk v; deps := deps v; started := started v ++ [s] |}.
Definition onDisk {A} (m : eff World A) : eff Server A := on_part disk with_disk m.
Definition onDeps {A} (m : eff E A) : eff Server A := on_part deps with_deps m.

(** [if err != nil { writeError(...); return }] *)
Definition or_reply {A} (m : eff Server A) (status : Z) (code prefix : string)
    (k : A -> eff Server reply) : eff Server reply :=
  r ← try m;
  match r with
  | Ok a => k a
  | Err e | Panic e => mret (Fail status code (prefix +:+ e))
  end.

Definition not_found : reply := Fail 404 "not_found" "session not found".

(** The session a request names, if it is the one on disk. *)
Definition with_session (id : string) (k : WizardState -> eff Server reply) : eff Server reply :=
  or_reply (onDisk (LoadState dir)) 500 "state_error" "" (fun state =>
    match state with
    | None => mret not_found
    | Some s => if decide (SessionID s <> id) then mret not_found else k s
    end).

Definition save_then (s : WizardState) (now : string) (k : eff Server reply) : eff Server reply :=
  or_reply (onDisk (SaveState dir s now)) 500 "save_error" "" (fun _ => k).

Definition reduce_then (s : WizardState) (a : WizardAction) (now : string)
    (k : WizardState -> eff Server reply) : eff Server reply :=
  or_reply (lift (Reducer (Some s) a now)) 500 "reducer_error" "" k.

Definition handleCreateSession (uuid now : string) : eff Server reply :=
  or_reply (onDisk (LoadState dir)) 500 "state_error" "" (fun existing =>
    match existing with
    | Some _ => mret (Fail 409 "session_exists" "a wizard session already exists")
    | None => let s := NewState uuid now in save_then s now (mret (StateReply (set_saved now s)))
    end).

Definition handleGetSession (id : string) : eff Server reply :=
  with_session id (fun s =>
    mret (StateReply (if decide (CurrentStep s = StepCommit /\ Status s = StatusInProgress)
                      then s else redactState s))).

Definition handleDeleteSession (id now : string) : eff Server reply :=
  with_session id (fun s =>
    reduce_then s (action ActionAbandon) now (fun _ =>
      or_reply (onDisk (DeleteState dir)) 500 "delete_error" "" (fun _ => mret (Abandoned id)))).

(** The DNS check of the domain step. *)
Definition domain_step (step : WizardStep) (s : WizardState) (now : string)
  : eff Server WizardState :=
  if decide (step = StepDomainCheck) then
    d ← onDeps (Lookup (Domain (Inputs s)));
    let port80Free := match PreflightResult_ s with Some r => Port80Free r | None => true end in
    mret (set_domain_check (Some (dns_validate d (Domain (Inputs s)) vpsIP port80Free now)) s)
  else mret s.

Definition handleStepSubmit (id stepStr : string) (b : body) (now : string) : eff Server reply :=
  with_session id (fun s =>
    let step := step_of stepStr in
    if negb (IsValidStep step) then mret (Fail 422 "invalid_step" ("invalid step: " +:+ stepStr)) else
    if decide (CurrentStep s <> step)
    then mret (Fail 409 "invalid_step_order"
                 ("expected step " +:+ step_name (CurrentStep s) +:+ " but got " +:+ step_name step))
    else
    or_reply (lift (applyStepInput step b s)) 422 "validation_error" "" (fun s =>
    or_reply (domain_step step s now) 422 "dns_check_failed" "DNS validation failed: " (fun s =>
    or_reply (lift (resolveNextStep s step)) 422 "transition_error" "" (fun next =>
    reduce_then s {| Type_ := ActionStepComplete; Step := next; Data := OtherData; AError := "" |} now
      (fun updated => save_then updated now
        (mret (StepDone (SessionID updated) step next (ProgressPct updated)))))))).

Definition handlePreflight (id now : string) : eff Server reply :=
  with_session id (fun s =>
    if decide (CurrentStep s <> StepPreflight)
    then mret (Fail 409 "invalid_step" ("preflight can only run from preflight step, current: "
                 +:+ step_name (CurrentStep s)))
    else
    match SSH (Inputs s) with
    | None => mret (Fail 422 "missing_ssh" "SSH credentials not set; complete the SSH step first")
    | Some ssh =>
        or_reply (onDeps (RunPreflight ssh)) 502 "ssh_connect_failed" "SSH connection failed: "
          (fun checked => match checked with
            | Ok pr =>
                reduce_then s {| Type_ := ActionPreflight; Step := OtherStep "";
                                 Data := PreflightData (Some pr); AError := "" |} now (fun updated =>
                  save_then updated now
                    (mret (PreflightReply (if Compatible pr then 200 else 422) pr)))
            | Err e | Panic e =>
                mret (Fail 500 "preflight_error" ("Preflight check failed: " +:+ e))
            end)
    end).

Definition handleCommit (id now : string) : eff Server reply :=
  with_session id (fun s =>
    if decide (CurrentStep s <> StepCommit)
    then mret (Fail 409 "invalid_step" ("commit can only run from commit step, current: "
                 +:+ step_name (CurrentStep s)))
    else if decide (Status s <> StatusInProgress)
    then mret (Fail 409 "invalid_status" "session status is not in_progress")
    else reduce_then s (action ActionCommitStart) now (fun updated =>
      save_then updated now
        (_ ← modify (spawn (set_saved now updated)); mret (Committing id)))).

(** The goroutine of a commit.  What it only logs is [tt]. *)
Definition commitFailure (errMsg now : string) : eff Server unit :=
  loaded ← try (onDisk (LoadState dir));
  match loaded with
  | Ok loaded =>
      match Reducer loaded {| Type_ := ActionCommitFailure; Step := OtherStep ""; Data := OtherData;
                              AError := errMsg |} now with
      | Ok updated => _ ← try (onDisk (SaveState dir updated now)); mret tt
      | Err _ => mret tt
      | Panic p => panic p
      end
  | _ => mret tt
  end.

(** The first route, when one was asked for. *)
Definition first_route (s : WizardState) : eff Server (option RouteExposeResult) :=
  match FirstPortExpose (Inputs s) with
  | Some p => r ← onDeps (ExposeRoute (LocalPort p) (Subdomain p) s); mret (Some r)
  | None => mret None
  end.

(** The last log line reads a field of the route result. *)
Definition routeResult_URL (r : option RouteExposeResult) : eff Server string :=
  match r with Some r => mret (RURL r) | None => panic "nil pointer dereference" end.

Definition runBootstrap (s : WizardState) (now : string) : eff Server unit :=
  boot ← try (onDeps (Bootstrap s));
  match boot with
  | Err e | Panic e => commitFailure e now
  | Ok _ =>
      peer ← try (onDeps (CreatePeer (FirstPeerName (Inputs s)) s));
      match peer with
      | Err e | Panic e => commitFailure ("peer creation failed: " +:+ e) now
      | Ok _ =>
          route ← try (first_route s);
          match route with
          | Err e | Panic e => commitFailure ("route exposure failed: " +:+ e) now
          | Ok route =>
              loaded ← try (onDisk (LoadState dir));
              match loaded with
              | Err _ | Panic _ => commitFailure "internal state error" now
              | Ok loaded =>
                  match Reducer loaded (action ActionCommitSuccess) now with
                  | Err _ => mret tt
                  | Panic p => panic p
                  | Ok updated =>
                      saved ← try (onDisk (SaveState dir updated now));
                      match saved with
                      | Ok _ => _ ← routeResult_URL route; mret tt
                      | _ => mret tt
                      end
                  end
              end
          end
      end
  end.
End Handlers.

(** ** The state file *)

Class WizardCodecLaws `{WizardCodec} : Prop := {
  state_roundtrip s : state_unmarshal (state_marshal s) = Some s
}.

Section StateLemmas.
Context `{WizardCodecLaws} (dir : string).

Lemma wizard_tmp_ne r : (dir +:+ "/.wizard-state-") +:+ r +:+ ".tmp" <> StateFilePath dir.
Proof. eapply tmp_ne; [done|by apply last_byte_app|done]. Qed.

Lemma SaveState_atomic s now w :
  atomic_at (StateFilePath dir) (state_marshal (set_saved now s)) w (SaveState dir s now).
Proof.
  atomic_next.
  apply atomic_bind; [apply keeps_wrap, keeps_CreateTemp, wizard_tmp_ne
                     |apply no_panic_wrap, no_panic_CreateTemp|].
  intros tmp w1 Etmp. apply wrap_ok_inv in Etmp.
  assert (Hne : tmp <> StateFilePath dir).
  { unfold CreateTemp in Etmp. cbv zeta in Etmp. repeat case_match; simplify_eq/=; apply wizard_tmp_ne. }
  clear Etmp. atomic_next. apply write_ok in E0 as Htmp.
  atomic_next. apply or_cleanup_ok, (keeps_files tmp _ _ _ _ (keeps_id tmp)) in E1.
  atomic_next. apply or_cleanup_ok, (keeps_files tmp _ _ _ _ (keeps_id tmp)) in E2.
  apply atomic_rename; [congruence|done|]. constructor; [by apply keeps_Remove|done].
Qed.

(** What a load finds on the disk. *)
Definition on_file (w : World) (s : WizardState) : Prop :=
  exists data, files w !! StateFilePath dir = Some data /\ parse_state data = Ok s.

Lemma LoadState_spec w :
  files (snd (LoadState dir w)) = files w /\
  forall s, fst (LoadState dir w) = Ok (Some s) -> on_file w s.
Proof.
  unfold LoadState, ReadFile, mbind, eff_bind, on_file. destruct (next_outcome w); simpl; [done|].
  destruct (files w !! StateFilePath dir) as [data|]; simpl; [|done]. unfold lift.
  destruct (parse_state data) as [s|e|p] eqn:Hp; simpl; [|done..].
  split; [done|]. intros s' [= <-]. eauto.
Qed.

Lemma parse_marshal s s' : parse_state (state_marshal s) = Ok s' -> s' = s.
Proof.
  unfold parse_state. rewrite state_roundtrip. by repeat (case_decide || case_match); intros [= <-].
Qed.

Lemma on_file_files w w' s :
  files w' !! StateFilePath dir = files w !! StateFilePath dir -> on_file w' s -> on_file w s.
Proof. unfold on_file. by intros ->. Qed.

Lemma SaveState_file s now w s' :
  on_file (snd (SaveState dir s now w)) s' -> on_file w s' \/ s' = set_saved now s.
Proof.
  destruct (SaveState_atomic s now w) as [Hr _]. intros Hf.
  destruct (fst (SaveState dir s now w)); [right|left; by eapply on_file_files|done].
  destruct Hf as (data & Hd & Hp). rewrite Hd in Hr. injection Hr as ->. by apply parse_marshal.
Qed.

Lemma DeleteState_file w s : on_file (snd (DeleteState dir w)) s -> on_file w s.
Proof.
  unfold DeleteState, Remove, wrap, syscall.
  destruct (next_outcome w), (files w !! StateFilePath dir) eqn:Hf; simpl;
    try (by apply on_file_files).
  intros (data & Hd & _). simpl in Hd. by rewrite lookup_delete_eq in Hd.
Qed.
End StateLemmas.

(** ** What a step presupposes *)

Definition domain_done (s : WizardState) : Prop :=
  DomainMode (Inputs s) = "nipio" \/
  (DomainMode (Inputs s) = "byo" /\ exists r, DomainCheckResult_ s = Some r /\
     TLSFeasible r = true /\ (CloudflareDetected r = true -> CloudflareToken (Inputs s) <> EmptyString)).

Definition gate (s : WizardState) : Prop :=
  match CurrentStep s with
  | StepWelcome | StepSSH | StepError => True
  | StepPreflight => has_ssh s = true
  | StepDomainMode => has_ssh s = true /\ preflight_is true s = true
  | StepDomainCheck => has_ssh s = true /\ preflight_is true s = true /\ mode_is "byo" s = true
  | StepCloudflare => has_ssh s = true /\ preflight_is true s = true /\ mode_is "byo" s = true /\
                      feasible_with true s = true
  | StepCreatePeer => has_ssh s = true /\ preflight_is true s = true /\ domain_done s
  | StepCommit | StepSuccess =>
      has_ssh s = true /\ preflight_is true s = true /\ domain_done s /\
      FirstPeerName (Inputs s) <> EmptyString
  | OtherStep _ => False
  end /\ Status s = (if decide (CurrentStep s = StepSuccess) then StatusCommitted else StatusInProgress).

Lemma step_complete_inv s a now s' :
  handleStepComplete s a now = Ok s' ->
  isTransitionAllowed (CurrentStep s) (Step a) s = true /\ s' = move_to (Step a) now s.
Proof.
  unfold handleStepComplete. destruct (IsValidStep (Step a)); [|done]. simpl.
  destruct (isTransitionAllowed _ _ _); [|done]. by intros [= <-].
Qed.

Lemma feasible_true cf s : feasible_with cf s = true ->
  exists r, DomainCheckResult_ s = Some r /\ CloudflareDetected r = cf /\ TLSFeasible r = true.
Proof.
  unfold feasible_with. destruct (DomainCheckResult_ s) as [r|]; [|done].
  intros [Hc Hf]%andb_true_iff. apply eqb_prop in Hc. eauto.
Qed.

Lemma status_open s : gate s -> CurrentStep s <> StepSuccess -> Status s = StatusInProgress.
Proof. intros [_ Hs] Hne. by rewrite decide_False in Hs. Qed.

(** The first half: what a body leaves alone, step by step. *)
Lemma apply_cases step b s s1 : applyStepInput step b s = Ok s1 ->
  match step with
  | StepWelcome => s1 = s
  | StepSSH => exists i, s1 = set_inputs (set_ssh i (Inputs s)) s
  | StepDomainMode => exists m, s1 = set_inputs (set_mode m (Inputs s)) s
  | StepDomainCheck => exists d, s1 = set_inputs (set_domain d (Inputs s)) s
  | StepCloudflare => exists t, s1 = set_inputs (set_token t (Inputs s)) s
  | StepCreatePeer => exists n p, s1 = set_inputs (set_peer n p (Inputs s)) s
  | _ => False
  end.
Proof.
  unfold applyStepInput, invalid_body.
  destruct step, b; try done; repeat case_match; try done; intros [= <-]; eauto.
Qed.

Lemma apply_step step b s s1 : applyStepInput step b s = Ok s1 -> CurrentStep s1 = CurrentStep s.
Proof.
  intros Hin%apply_cases. destruct step; try done;
    repeat match goal with He : exists _, _ |- _ => destruct He end; by subst.
Qed.

(** A submitted step leads through the gate of the next one. *)
Lemma submit_gate s b s1 r next now :
  gate s -> applyStepInput (CurrentStep s) b s = Ok s1 ->
  let s2 := if decide (CurrentStep s = StepDomainCheck) then set_domain_check (Some r) s1 else s1 in
  resolveNextStep s2 (CurrentStep s) = Ok next ->
  isTransitionAllowed (CurrentStep s) next s2 = true -> gate (move_to next now s2).
Proof.
  intros Hgate Hin%apply_cases s2 Hnext Hall. pose proof (status_open s Hgate) as Hst.
  destruct Hgate as [Hg _]. unfold s2 in *. clear s2.
  destruct (CurrentStep s) eqn:Hcs; cbn [resolveNextStep] in Hnext; try done; simpl in Hnext, Hall |- *.
  - subst s1. injection Hnext as <-. split; [done|]. simpl. by apply Hst.
  - destruct Hin as [i ->]. injection Hnext as <-. split; [by apply bool_decide_true|].
    simpl. by apply Hst.
  - destruct Hin as [m ->]. simpl in Hnext. destruct Hg as [Hssh Hpre].
    case_decide as Hm; injection Hnext as <-; (split; [|simpl; by apply Hst]).
    + split_and!; [done..|]. by left.
    + by split_and!.
  - destruct Hin as [d ->]. simpl in Hnext. destruct Hg as (Hssh & Hpre & Hbyo).
    destruct (CloudflareDetected r && TLSFeasible r) eqn:Hr; injection Hnext as <-;
      (split; [|simpl; by apply Hst]); [by split_and!|].
    apply (feasible_true false) in Hall as (r' & Hr' & Hcf & Hf). injection Hr' as <-.
    split_and!; [done..|]. right. apply bool_decide_eq_true in Hbyo. split; [done|].
    exists r. split_and!; [done..|]. by rewrite Hcf.
  - destruct Hin as [t ->]. injection Hnext as <-. destruct Hg as (Hssh & Hpre & Hbyo & Hfeas).
    split; [|simpl; by apply Hst]. split_and!; [done..|]. right.
    apply bool_decide_eq_true in Hbyo, Hall. apply feasible_true in Hfeas as (r' & Hr' & _ & Hf).
    split; [done|]. by exists r'.
  - destruct Hin as (n & p & ->). injection Hnext as <-. destruct Hg as (Hssh & Hpre & Hdom).
    split; [|simpl; by apply Hst]. apply bool_decide_eq_true in Hall. by split_and!.
Qed.

(** ** What every handler keeps: the file passes its gate *)

Section HandlerLemmas.
Context {E : Type} `{WizardDeps E} `{WizardCodecLaws} (dir vpsIP : string).

Definition file_ok (v : Server (E := E)) : Prop := forall s, on_file dir (disk v) s -> gate s.

Definition safe {A} (m : eff (Server (E := E)) A) : Prop := forall v, file_ok v -> file_ok (snd (m v)).

Lemma safe_same {A} (m : eff (Server (E := E)) A) :
  (forall v, disk (snd (m v)) = disk v) -> safe m.
Proof. intros Hm v Hv s Hs. apply Hv. by rewrite <- Hm. Qed.

Lemma safe_const {A} (r : result A) : safe (fun v => (r, v)).
Proof. by apply safe_same. Qed.

Lemma safe_bind {A B} (m : eff Server A) (k : A -> eff Server B) :
  safe m -> (forall a, safe (k a)) -> safe (mbind k m).
Proof.
  intros Hm Hk v Hv. specialize (Hm v Hv). unfold mbind, eff_bind.
  destruct (m v) as [[a|e|p] v']; simpl in *; [by apply Hk|done..].
Qed.

Lemma safe_try {A} (m : eff Server A) : safe m -> safe (try m).
Proof. intros Hm v Hv. specialize (Hm v Hv). unfold try. by destruct (m v) as [[]]. Qed.

Lemma safe_onDeps {A} (m : eff E A) : safe (onDeps m).
Proof. apply safe_same. intros v. unfold onDeps, on_part. by destruct (m (deps v)). Qed.

Lemma safe_or_reply {A} (m : eff Server A) st code pre k :
  safe m -> (forall a, safe (k a)) -> safe (or_reply m st code pre k).
Proof.
  intros Hm Hk. apply safe_bind; [by apply safe_try|]. intros [a|e|e]; [apply Hk|apply safe_const..].
Qed.

(** Like the bind above, when the continuation knows what the call returned. *)
Lemma safe_or_reply_lift {A} (r : result A) st code pre k :
  (forall a, r = Ok a -> safe (k a)) -> safe (or_reply (lift r) st code pre k).
Proof.
  intros Hk v Hv. unfold or_reply, mbind, eff_bind, try, lift.
  destruct r as [a|e|p]; simpl; [by apply Hk|done..].
Qed.

Lemma safe_save s now : gate s -> safe (onDisk (SaveState dir s now)).
Proof.
  intros Hg v Hv s' Hs. unfold onDisk, on_part in Hs.
  destruct (SaveState dir s now (disk v)) as [r w] eqn:Hw. simpl in Hs.
  pose proof (SaveState_file dir s now (disk v) s') as Hf. rewrite Hw in Hf.
  destruct (Hf Hs) as [Hold| ->]; [by apply Hv|exact Hg].
Qed.

Lemma safe_save_then s now k : gate s -> safe k -> safe (save_then dir s now k).
Proof. intros Hg Hk. apply safe_or_reply; [by apply safe_save|done]. Qed.

Lemma safe_load : safe (onDisk (LoadState dir)).
Proof.
  intros v Hv s Hs. apply Hv. unfold onDisk, on_part in Hs.
  destruct (LoadState dir (disk v)) as [r w] eqn:Hw. simpl in Hs.
  eapply on_file_files; [|exact Hs]. pose proof (LoadState_spec dir (disk v)) as [Hf _].
  rewrite Hw in Hf. simpl in Hf. by rewrite Hf.
Qed.

(** What a load returns has passed its gate. *)
Lemma load_gate v r v' : file_ok v -> onDisk (LoadState dir) v = (r, v') ->
  file_ok v' /\ forall s, r = Ok (Some s) -> gate s.
Proof.
  intros Hv Hl. split.
  - pose proof (safe_load v Hv) as Hs. by rewrite Hl in Hs.
  - intros s ->. apply Hv. unfold onDisk, on_part in Hl.
    destruct (LoadState_spec dir (disk v)) as [_ Hf].
    destruct (LoadState dir (disk v)) as [r w]. injection Hl as -> _. by apply Hf.
Qed.

Lemma safe_with_session id k :
  (forall s, gate s -> safe (k s)) -> safe (with_session (E := E) dir id k).
Proof.
  intros Hk v Hv. unfold with_session, or_reply, mbind, eff_bind, try.
  destruct (onDisk (LoadState dir) v) as [r v'] eqn:Hl.
  apply load_gate in Hl as [Hv' Hg]; [|done].
  destruct r as [[s|]|e|p]; simpl; try done. case_decide; [done|]. apply Hk; [by apply Hg|done].
Qed.

Lemma safe_create uuid now : safe (handleCreateSession (E := E) dir uuid now).
Proof.
  apply safe_or_reply; [apply safe_load|]. intros [s|]; [apply safe_const|].
  apply safe_save_then; [by split|apply safe_const].
Qed.

Lemma safe_get id : safe (handleGetSession (E := E) dir id).
Proof. apply safe_with_session. intros s _. apply safe_const. Qed.

Lemma safe_delete id now : safe (handleDeleteSession (E := E) dir id now).
Proof.
  apply safe_with_session. intros s _. apply safe_or_reply_lift. intros s' _.
  apply safe_or_reply; [|intros _; apply safe_const]. intros v Hv s2 Hs. apply Hv.
  unfold onDisk, on_part in Hs. destruct (DeleteState dir (disk v)) as [r w] eqn:Hw. simpl in Hs.
  pose proof (DeleteState_file dir (disk v) s2) as Hd. rewrite Hw in Hd. by apply Hd.
Qed.

Lemma safe_submit id st b now : safe (handleStepSubmit dir vpsIP id st b now).
Proof.
  apply safe_with_session. intros s Hg. cbv zeta.
  destruct (negb (IsValidStep (step_of st))); [apply safe_const|].
  case_decide as Hstep; [apply safe_const|].
  apply safe_or_reply_lift. intros s1 Hin. rewrite <- Hstep in *.
  assert (forall s2, (exists r, s2 = if decide (CurrentStep s = StepDomainCheck)
                               then set_domain_check (Some r) s1 else s1) ->
    safe (or_reply (lift (resolveNextStep s2 (CurrentStep s))) 422 "transition_error" "" (fun next =>
      reduce_then s2 {| Type_ := ActionStepComplete; Step := next; Data := OtherData; AError := "" |} now
        (fun updated => save_then dir updated now
          (mret (StepDone (SessionID updated) (CurrentStep s) next (ProgressPct updated))))))) as Hrest.
  { intros s2 [r ->]. apply safe_or_reply_lift. intros next Hnext.
    apply safe_or_reply_lift. intros s3 Hred.
    change (handleStepComplete (if decide (CurrentStep s = StepDomainCheck)
              then set_domain_check (Some r) s1 else s1)
              {| Type_ := ActionStepComplete; Step := next; Data := OtherData; AError := "" |} now
            = Ok s3) in Hred.
    apply step_complete_inv in Hred as [Hall ->]. apply safe_save_then; [|apply safe_const].
    apply (submit_gate s b s1 r); try done.
    assert (CurrentStep (if decide (CurrentStep s = StepDomainCheck)
              then set_domain_check (Some r) s1 else s1) = CurrentStep s) as Hsame by (apply apply_step in Hin; case_decide; exact Hin).
    by rewrite Hsame in Hall. }
  unfold domain_step. case_decide as Hdc.
  - intros v Hv. unfold or_reply at 1, mbind, eff_bind, try.
    pose proof (safe_onDeps (Lookup (Domain (Inputs s1))) v Hv) as Hv'.
    destruct (onDeps (Lookup (Domain (Inputs s1))) v) as [[d|e|p] v']; simpl; [|done..].
    apply Hrest; [|done]. eexists. reflexivity.
  - intros v Hv. apply Hrest; [|done].
    by exists (dns_validate {| l_host := Ok []; l_ns := Ok [] |} "" "" true "").
Qed.

Lemma safe_preflight id now : safe (handlePreflight (E := E) dir id now).
Proof.
  apply safe_with_session. intros s Hg. case_decide as Hstep; [apply safe_const|].
  destruct (SSH (Inputs s)) as [ssh|] eqn:Hssh; [|apply safe_const].
  apply safe_or_reply; [apply safe_onDeps|]. intros [pr|e|e]; [|apply safe_const..].
  apply safe_or_reply_lift. intros s' Hred. apply safe_save_then; [|apply safe_const].
  pose proof (status_open s Hg) as Hst. rewrite Hstep in Hst.
  assert (has_ssh s = true) as Hh by (apply bool_decide_true; by rewrite Hssh).
  change (handlePreflightResult s {| Type_ := ActionPreflight; Step := OtherStep "";
            Data := PreflightData (Some pr); AError := "" |} now = Ok s') in Hred.
  revert Hred. unfold handlePreflightResult. rewrite decide_False by (intros Hx; by apply Hx).
  simpl. intros [= <-]. unfold gate. destruct (Compatible pr) eqn:Hc; simpl.
  - split; [|by apply Hst]. split; [done|]. unfold preflight_is. simpl. by rewrite Hc.
  - rewrite Hstep. split; [done|by apply Hst].
Qed.
End HandlerLemmas.

Section CommitLemmas.
Context {E : Type} `{WizardDeps E} `{WizardCodecLaws} (dir vpsIP : string).

Lemma commit_start_gate s now s' :
  gate s -> Reducer (Some s) (action ActionCommitStart) now = Ok s' -> gate s'.
Proof.
  intros Hg Hr. change (handleCommitStart s now = Ok s') in Hr. unfold handleCommitStart in Hr.
  case_decide; [done|]. by injection Hr as <-.
Qed.

Lemma commit_success_gate s now s' :
  gate s -> Reducer (Some s) (action ActionCommitSuccess) now = Ok s' -> gate s'.
Proof.
  intros [Hg _] Hr. change (handleCommitSuccess s now = Ok s') in Hr. unfold handleCommitSuccess in Hr.
  destruct (decide (CurrentStep s = StepCommit)) as [Hc|Hc]; [|by rewrite decide_True in Hr].
  rewrite decide_False in Hr by (intros Hx; by apply Hx). injection Hr as <-.
  rewrite Hc in Hg. by split.
Qed.

Lemma commit_failure_gate s a now s' : Type_ a = ActionCommitFailure ->
  gate s -> Reducer (Some s) a now = Ok s' -> gate s'.
Proof.
  intros Ht Hg Hr. destruct a as [t st d e]. simpl in Ht. subst t.
  change (handleCommitFailure s {| Type_ := ActionCommitFailure; Step := st; Data := d; AError := e |}
            now = Ok s') in Hr.
  unfold handleCommitFailure in Hr.
  destruct (decide (CurrentStep s = StepCommit)) as [Hc|Hc]; [|by rewrite decide_True in Hr].
  rewrite decide_False in Hr by (intros Hx; by apply Hx). injection Hr as <-.
  split; [done|]. simpl. apply (status_open s Hg). by rewrite Hc.
Qed.

Lemma safe_commit id now : safe (E := E) dir (handleCommit (E := E) dir id now).
Proof.
  apply safe_with_session. intros s Hg. case_decide; [apply safe_const|].
  case_decide; [apply safe_const|]. apply safe_or_reply_lift. intros s' Hr.
  apply safe_save_then; [by eapply commit_start_gate|].
  apply safe_bind; [by apply safe_same|intros _; apply safe_const].
Qed.

(** A load, a reduction and a save, whatever surrounds them. *)
Lemma safe_load_then {A} (k : result (option WizardState) -> eff (Server (E := E)) A) :
  (forall r, (forall s, r = Ok (Some s) -> gate s) -> safe dir (k r)) ->
  safe dir (mbind k (try (onDisk (LoadState dir)))).
Proof.
  intros Hk v Hv. unfold mbind, eff_bind, try.
  destruct (onDisk (LoadState dir) v) as [r v'] eqn:Hl.
  apply load_gate in Hl as [Hv' Hg]; [|done].
  destruct r as [o|e|p]; simpl; [by apply Hk|by apply Hk|done].
Qed.

Lemma safe_save_rest {A} s now (k : result unit -> eff (Server (E := E)) A) :
  gate s -> (forall r, safe dir (k r)) -> safe dir (mbind k (try (onDisk (SaveState dir s now)))).
Proof. intros Hg Hk. apply safe_bind; [by apply safe_try, safe_save|done]. Qed.

Lemma safe_commitFailure e now : safe dir (commitFailure (E := E) dir e now).
Proof.
  apply safe_load_then. intros [[s|]|e'|p] Hg; try apply safe_const.
  destruct (Reducer (Some s) _ now) as [s'|e'|p] eqn:Hr; try apply safe_const.
  apply safe_save_rest; [|intros r; apply safe_const].
  eapply commit_failure_gate; [|by apply Hg|exact Hr]. done.
Qed.

Lemma safe_runBootstrap s now : safe dir (runBootstrap (E := E) dir s now).
Proof.
  apply safe_bind; [apply safe_try, safe_onDeps|].
  intros [b|e|e]; [|apply safe_commitFailure..].
  apply safe_bind; [apply safe_try, safe_onDeps|].
  intros [p|e|e]; [|apply safe_commitFailure..].
  apply safe_bind.
  { apply safe_try. unfold first_route. destruct (FirstPortExpose (Inputs s)); [|apply safe_const].
    apply safe_bind; [apply safe_onDeps|intros r; apply safe_const]. }
  intros [r|e|e]; [|apply safe_commitFailure..].
  apply safe_load_then. intros [[l|]|e|e] Hg; try apply safe_commitFailure; [|apply safe_const].
  destruct (Reducer (Some l) _ now) as [s'|e|e] eqn:Hr; try apply safe_const.
  apply safe_save_rest; [eapply commit_success_gate; [by apply Hg|exact Hr]|].
  intros [[]|e|e]; [|apply safe_const..].
  apply safe_bind; [destruct r; apply safe_const|intros u; apply safe_const].
Qed.

(** Requests and the end of a bootstrap, in any order. *)
Inductive wizard_step (v : Server (E := E)) : Server (E := E) -> Prop :=
  | ws_create uuid now : wizard_step v (snd (handleCreateSession dir uuid now v))
  | ws_get id : wizard_step v (snd (handleGetSession dir id v))
  | ws_delete id now : wizard_step v (snd (handleDeleteSession dir id now v))
  | ws_submit id st b now : wizard_step v (snd (handleStepSubmit dir vpsIP id st b now v))
  | ws_preflight id now : wizard_step v (snd (handlePreflight dir id now v))
  | ws_commit id now : wizard_step v (snd (handleCommit dir id now v))
  | ws_boot s now : In s (started v) -> wizard_step v (snd (runBootstrap dir s now v)).

(** C4: no step is reached without what it presupposes.  Starting without a
    state file, whatever requests are made, whatever the host and the resolver
    answer and whatever system calls fail, a session on disk that is at a step
    has the SSH coordinates, the compatible host, the feasible domain and the
    peer name that the steps before it ask for, and it is committed exactly
    when the wizard succeeded. *)
Theorem saved_session_passes_gate v0 v s :
  files (disk v0) !! StateFilePath dir = None -> star wizard_step v0 v ->
  on_file dir (disk v) s -> gate s.
Proof.
  intros Hnew Hstar. revert s. change (file_ok dir v).
  apply (star_inv_ind wizard_step (file_ok dir)) with (3 := Hstar).
  - intros v1 v2 Hv. destruct 1.
    + by apply safe_create.
    + by apply safe_get.
    + by apply safe_delete.
    + by apply safe_submit.
    + by apply safe_preflight.
    + by apply safe_commit.
    + by apply safe_runBootstrap.
  - intros s (data & Hd & _). by rewrite Hnew in Hd.
Qed.

(** A bootstrap that was not asked to expose a port crashes the daemon
    after it succeeded: the success is saved, then the last log line reads the
    missing route result. *)
Theorem commit_without_port_panics s now (v : Server (E := E)) b p l e1 e2 w1 w2 :
  FirstPortExpose (Inputs s) = None ->
  Bootstrap s (deps v) = (Ok b, e1) -> CreatePeer (FirstPeerName (Inputs s)) s e1 = (Ok p, e2) ->
  LoadState dir (disk v) = (Ok (Some l), w1) -> CurrentStep l = StepCommit ->
  SaveState dir (set_committed now (set_pct 100 (set_status StatusCommitted (set_step StepSuccess l))))
    now w1 = (Ok tt, w2) ->
  exists why, fst (runBootstrap dir s now v) = Panic why /\
              disk (snd (runBootstrap dir s now v)) = w2.
Proof.
  intros Hport Hb Hp Hl Hc Hs. unfold runBootstrap, mbind, eff_bind, try, onDeps, on_part.
  rewrite Hb. simpl. rewrite Hp. unfold first_route. rewrite Hport. simpl.
  unfold onDisk, on_part. simpl. rewrite Hl. simpl.
  change (Reducer (Some l) (action ActionCommitSuccess) now) with (handleCommitSuccess l now).
  unfold handleCommitSuccess. rewrite decide_False by (rewrite Hc; intros Hx; by apply Hx).
  change (disk (with_disk w1 (with_deps e2 (with_deps e1 v)))) with w1. rewrite Hs. simpl. eauto.
Qed.
End CommitLemmas.

(** A step back is not checked against the table: it goes forward as well,
    past every guard. *)
Lemma step_back_goes_forward now :
  exists s, handleStepBack (set_step StepSSH (NewState "u" now))
    {| Type_ := ActionStepBack; Step := StepCommit; Data := OtherData; AError := "" |} now = Ok s /\
  CurrentStep s = StepCommit /\ SSH (Inputs s) = None /\ ~ gate s.
Proof.
  eexists. split; [reflexivity|]. split; [done|]. split; [done|]. by intros [(Hh & _) _].
Qed.

(** ** Witnesses: a codec for sessions and a host that answers *)

#[export] Instance spec_float_eq_dec : EqDecision spec_float.
Proof. solve_decision. Defined.
Definition float_parts (f : f64) : list positive :=
  match f with
  | S754_zero b => [encode 0; encode b]
  | S754_infinity b => [encode 1; encode b]
  | S754_nan => [encode 2]
  | S754_finite b m e => [encode 3; encode b; encode m; encode e]
  end.
Definition float_of_parts (l : list positive) : option f64 :=
  match l with
  | [k; b] => k ← decode k; b ← decode b;
              Some (if decide (k = 0) then S754_zero b else S754_infinity b)
  | [_] => Some S754_nan
  | [_; b; m; e] => b ← decode b; m ← decode m; e ← decode e; Some (S754_finite b m e)
  | _ => None
  end.
#[export] Instance f64_countable : Countable spec_float.
Proof.
  apply (inj_countable float_parts float_of_parts).
  intros [b|b| |b m e]; unfold float_parts, float_of_parts;
    repeat (rewrite decode_encode; cbn [mbind option_bind]); done.
Defined.


Definition sSHInput_fields (x : SSHInput) : list positive :=
  [encode (Host x); encode (Port x); encode (User x); encode (AuthType x); encode (KeyPath x);
   encode (Password x)].
Definition sSHInput_of_fields (l : list positive) : option SSHInput :=
  match l with
  | [x0; x1; x2; x3; x4; x5] =>
      x0 ← decode x0; x1 ← decode x1; x2 ← decode x2; x3 ← decode x3; x4 ← decode x4;
      x5 ← decode x5;
      Some {| Host := x0; Port := x1; User := x2; AuthType := x3; KeyPath := x4;
               Password := x5 |}
  | _ => None
  end.
#[export] Instance SSHInput_eq_dec : EqDecision SSHInput.
Proof. solve_decision. Defined.
#[export] Instance SSHInput_countable : Countable SSHInput.
Proof. apply (inj_countable sSHInput_fields sSHInput_of_fields). by_fields sSHInput_fields sSHInput_of_fields. Defined.

Definition portExpose_fields (x : PortExpose) : list positive :=
  [encode (LocalPort x); encode (Subdomain x)].
Definition portExpose_of_fields (l : list positive) : option PortExpose :=
  match l with
  | [x0; x1] =>
      x0 ← decode x0; x1 ← decode x1;
      Some {| LocalPort := x0; Subdomain := x1 |}
  | _ => None
  end.
#[export] Instance PortExpose_eq_dec : EqDecision PortExpose.
Proof. solve_decision. Defined.
#[export] Instance PortExpose_countable : Countable PortExpose.
Proof. apply (inj_countable portExpose_fields portExpose_of_fields). by_fields portExpose_fields portExpose_of_fields. Defined.

Definition wizardInputs_fields (x : WizardInputs) : list positive :=
  [encode (SSH x); encode (DomainMode x); encode (Domain x); encode (CloudflareToken x);
   encode (NipioEnabled x); encode (FirstPeerName x); encode (FirstPortExpose x)].
Definition wizardInputs_of_fields (l : list positive) : option WizardInputs :=
  match l with
  | [x0; x1; x2; x3; x4; x5; x6] =>
      x0 ← decode x0; x1 ← decode x1; x2 ← decode x2; x3 ← decode x3; x4 ← decode x4;
      x5 ← decode x5; x6 ← decode x6;
      Some {| SSH := x0; DomainMode := x1; Domain := x2; CloudflareToken := x3;
               NipioEnabled := x4; FirstPeerName := x5; FirstPortExpose := x6 |}
  | _ => None
  end.
#[export] Instance WizardInputs_eq_dec : EqDecision WizardInputs.
Proof. solve_decision. Defined.
#[export] Instance WizardInputs_countable : Countable WizardInputs.
Proof. apply (inj_countable wizardInputs_fields wizardInputs_of_fields). by_fields wizardInputs_fields wizardInputs_of_fields. Defined.

Definition preflightResult_fields (x : PreflightResult) : list positive :=
  [encode (TargetHost x); encode (PCheckedAt x); encode (Distro x); encode (DistroVersion x);
   encode (Arch x); encode (DiskFreeGB x); encode (RAMMB x); encode (HasSudo x);
   encode (HasDocker x); encode (DockerRunning x); encode (Port443Free x);
   encode (Port80Free x); encode (PortWGFree x); encode (Compatible x); encode (PWarnings x);
   encode (BlockingFailures x)].
Definition preflightResult_of_fields (l : list positive) : option PreflightResult :=
  match l with
  | [x0; x1; x2; x3; x4; x5; x6; x7; x8; x9; x10; x11; x12; x13; x14; x15] =>
      x0 ← decode x0; x1 ← decode x1; x2 ← decode x2; x3 ← decode x3; x4 ← decode x4;
      x5 ← decode x5; x6 ← decode x6; x7 ← decode x7; x8 ← decode x8; x9 ← decode x9;
      x10 ← decode x10; x11 ← decode x11; x12 ← decode x12; x13 ← decode x13; x14 ← decode x14;
      x15 ← decode x15;
      Some {| TargetHost := x0; PCheckedAt := x1; Distro := x2; DistroVersion := x3;
               Arch := x4; DiskFreeGB := x5; RAMMB := x6; HasSudo := x7; HasDocker := x8;
               DockerRunning := x9; Port443Free := x10; Port80Free := x11; PortWGFree := x12;
               Compatible := x13; PWarnings := x14; BlockingFailures := x15 |}
  | _ => None
  end.
#[export] Instance PreflightResult_eq_dec : EqDecision PreflightResult.
Proof. solve_decision. Defined.
#[export] Instance PreflightResult_countable : Countable PreflightResult.
Proof. apply (inj_countable preflightResult_fields preflightResult_of_fields). by_fields preflightResult_fields preflightResult_of_fields. Defined.

Definition domainCheckResult_fields (x : DomainCheckResult) : list positive :=
  [encode (DDomain x); encode (DMode x); encode (DCheckedAt x); encode (ARecordIPs x);
   encode (PointsToVPS x); encode (CloudflareDetected x); encode (CloudflareTokenValid x);
   encode (CloudflareTokenScopes x); encode (CloudflareZoneID x); encode (TLSStrategy x);
   encode (TLSFeasible x); encode (DWarnings x); encode (DErrors x)].
Definition domainCheckResult_of_fields (l : list positive) : option DomainCheckResult :=
  match l with
  | [x0; x1; x2; x3; x4; x5; x6; x7; x8; x9; x10; x11; x12] =>
      x0 ← decode x0; x1 ← decode x1; x2 ← decode x2; x3 ← decode x3; x4 ← decode x4;
      x5 ← decode x5; x6 ← decode x6; x7 ← decode x7; x8 ← decode x8; x9 ← decode x9;
      x10 ← decode x10; x11 ← decode x11; x12 ← decode x12;
      Some {| DDomain := x0; DMode := x1; DCheckedAt := x2; ARecordIPs := x3;
               PointsToVPS := x4; CloudflareDetected := x5; CloudflareTokenValid := x6;
               CloudflareTokenScopes := x7; CloudflareZoneID := x8; TLSStrategy := x9;
               TLSFeasible := x10; DWarnings := x11; DErrors := x12 |}
  | _ => None
  end.
#[export] Instance DomainCheckResult_eq_dec : EqDecision DomainCheckResult.
Proof. solve_decision. Defined.
#[export] Instance DomainCheckResult_countable : Countable DomainCheckResult.
Proof. apply (inj_countable domainCheckResult_fields domainCheckResult_of_fields). by_fields domainCheckResult_fields domainCheckResult_of_fields. Defined.

Definition status_tag (s : SessionStatus) : nat * string :=
  match s with
  | StatusInProgress => (0, EmptyString) | StatusCommitted => (1, EmptyString)
  | StatusAbandoned => (2, EmptyString) | OtherStatus s => (3, s)
  end.
Definition step_tag (s : WizardStep) : nat * string :=
  match s with
  | StepWelcome => (0, EmptyString) | StepSSH => (1, EmptyString) | StepPreflight => (2, EmptyString)
  | StepDomainMode => (3, EmptyString) | StepDomainCheck => (4, EmptyString)
  | StepCloudflare => (5, EmptyString) | StepCreatePeer => (6, EmptyString)
  | StepCommit => (7, EmptyString) | StepSuccess => (8, EmptyString) | StepError => (9, EmptyString)
  | OtherStep s => (10, s)
  end.
#[export] Instance SessionStatus_countable : Countable SessionStatus.
Proof.
  apply (inj_countable status_tag (fun t => Some match t with
    | (0, _) => StatusInProgress | (1, _) => StatusCommitted | (2, _) => StatusAbandoned
    | (_, s) => OtherStatus s end)).
  by intros [].
Defined.
#[export] Instance WizardStep_countable : Countable WizardStep.
Proof.
  apply (inj_countable step_tag (fun t => Some match t with
    | (10, s) => OtherStep s | (n, _) => nth n all_steps StepError end)).
  by intros [].
Defined.
Definition wizardState_fields (x : WizardState) : list positive :=
  [encode (SessionID x); encode (CurrentStep x); encode (Status x); encode (Inputs x);
   encode (PreflightResult_ x); encode (DomainCheckResult_ x); encode (ProgressPct x);
   encode (StartedAt x); encode (LastSavedAt x); encode (CommittedAt x);
   encode (ErrorMessage x)].
Definition wizardState_of_fields (l : list positive) : option WizardState :=
  match l with
  | [x0; x1; x2; x3; x4; x5; x6; x7; x8; x9; x10] =>
      x0 ← decode x0; x1 ← decode x1; x2 ← decode x2; x3 ← decode x3; x4 ← decode x4;
      x5 ← decode x5; x6 ← decode x6; x7 ← decode x7; x8 ← decode x8; x9 ← decode x9;
      x10 ← decode x10;
      Some {| SessionID := x0; CurrentStep := x1; Status := x2; Inputs := x3;
               PreflightResult_ := x4; DomainCheckResult_ := x5; ProgressPct := x6;
               StartedAt := x7; LastSavedAt := x8; CommittedAt := x9; ErrorMessage := x10 |}
  | _ => None
  end.
#[export] Instance WizardState_eq_dec : EqDecision WizardState.
Proof. solve_decision. Defined.
#[export] Instance WizardState_countable : Countable WizardState.
Proof. apply (inj_countable wizardState_fields wizardState_of_fields). by_fields wizardState_fields wizardState_of_fields. Defined.

#[export] Instance count_wizard : WizardCodec := {|
  state_marshal := count_enc; state_unmarshal := count_dec |}.
#[export] Instance count_wizard_laws : WizardCodecLaws.
Proof. split. apply count_dec_enc. Qed.

(** A host that is reachable, compatible and bootstraps. *)
Definition good_preflight : PreflightResult :=
  {| TargetHost := "h"; PCheckedAt := "t"; Distro := "debian"; DistroVersion := "12"; Arch := "";
     DiskFreeGB := S754_zero false; RAMMB := 0; HasSudo := true; HasDocker := true;
     DockerRunning := true; Port443Free := true; Port80Free := true; PortWGFree := true;
     Compatible := true; PWarnings := []; BlockingFailures := [] |}.
#[export] Instance good_host : WizardDeps unit := {|
  RunPreflight _ e := (Ok (Ok good_preflight), e);
  Lookup _ e := (Ok {| l_host := Ok ["1.2.3.4"]; l_ns := Ok [] |}, e);
  Bootstrap _ e := (Ok {| WGEndpoint := ""; ServerPubKey := "" |}, e);
  CreatePeer _ _ e := (Ok {| PeerID := ""; LocalIP := "" |}, e);
  ExposeRoute _ _ _ e := (Ok {| RFQDN := ""; RURL := "" |}, e)
|}.

Definition u1 : string := "01234567-89ab-cdef-0123-456789abcdef".
Definition server0 : Server (E := unit) :=
  {| disk := {| files := ∅; outcomes := []; draws := []; disks := [] |}; deps := tt; started := [] |}.
Definition submit (st : string) (b : body) : eff (Server (E := unit)) reply :=
  handleStepSubmit "d" "1.2.3.4" u1 st b "t".
Definition run (ms : list (eff (Server (E := unit)) reply)) (v : Server (E := unit)) : Server (E := unit) :=
  foldl (fun v m => snd (m v)) v ms.

(** A whole session up to the commit, by nip.io. *)
Definition to_commit : list (eff (Server (E := unit)) reply) :=
  [handleCreateSession "d" u1 "t"; submit "welcome" NoBody;
   submit "ssh" (SSHBody {| Host := "h"; Port := 22; User := "root"; AuthType := "key";
                            KeyPath := ""; Password := "" |});
   handlePreflight "d" u1 "t"; submit "domain_mode" (ModeBody "nipio");
   submit "create_peer" (PeerBody "laptop" None)].
Definition at_commit : Server (E := unit) := run to_commit server0.
Definition committing : Server (E := unit) := snd (handleCommit "d" u1 "t" at_commit).
Definition session_of (v : Server (E := unit)) : WizardState :=
  match fst (LoadState "d" (disk v)) with Ok (Some s) => s | _ => NewState "" "" end.

Lemma saved_session_passes_gate_witness :
  CurrentStep (session_of at_commit) = StepCommit /\ gate (session_of at_commit).
Proof.
  split; [vm_compute; reflexivity|].
  apply (@saved_session_passes_gate unit good_host count_wizard count_wizard_laws "d" "1.2.3.4"
           server0 at_commit); [reflexivity| |].
  - unfold at_commit, to_commit, run. cbn [foldl].
    eapply star_snoc; [|apply ws_submit]. eapply star_snoc; [|apply ws_submit].
    eapply star_snoc; [|apply ws_preflight]. eapply star_snoc; [|apply ws_submit].
    eapply star_snoc; [|apply ws_submit]. eapply star_snoc; [|apply ws_create]. apply star_nil.
  - unfold on_file. eexists. split; vm_compute; reflexivity.
Defined.

(** The most common session: no port to expose. *)
Definition commit_session : WizardState := set_step StepCommit (NewState u1 "t").
Definition commit_server : Server (E := unit) :=
  {| disk := {| files := {[StateFilePath "d" := state_marshal commit_session]}; outcomes := [];
                draws := []; disks := [] |};
     deps := tt; started := [commit_session] |}.
Definition loaded_world : World := snd (LoadState "d" (disk commit_server)).
Definition success_world : World :=
  snd (SaveState "d" (set_committed "t" (set_pct 100 (set_status StatusCommitted
    (set_step StepSuccess commit_session)))) "t" loaded_world).

Lemma commit_without_port_panics_witness :
  exists why, fst (runBootstrap "d" commit_session "t" commit_server) = Panic why /\
    disk (snd (runBootstrap "d" commit_session "t" commit_server)) = success_world.
Proof.
  apply (@commit_without_port_panics unit good_host count_wizard "d" commit_session "t"
           commit_server {| WGEndpoint := ""; ServerPubKey := "" |} {| PeerID := ""; LocalIP := "" |}
           commit_session tt tt loaded_world success_world);
    [reflexivity|reflexivity|reflexivity|vm_compute; reflexivity|reflexivity|vm_compute; reflexivity].
Defined.

(** The daemon that refuses to skip Cloudflare: a token is only optional in
    the form. *)
Lemma cloudflare_cannot_be_skipped now : forall s,
  CurrentStep s = StepCloudflare ->
  exists s1, applyStepInput StepCloudflare (TokenBody "" false) s = Ok s1 /\
    resolveNextStep s1 StepCloudflare = Ok StepCreatePeer /\
    exists e, handleStepComplete s1 {| Type_ := ActionStepComplete; Step := StepCreatePeer;
                                       Data := OtherData; AError := "" |} now = Err e.
Proof.
  intros s Hs. eexists. split; [reflexivity|]. split; [reflexivity|].
  unfold handleStepComplete. simpl. rewrite Hs. simpl. eauto.
Qed.

(** Two commits of one session: the step stays the same until a bootstrap
    ends, so both are started. *)
Lemma commit_twice_starts_twice :
  length (started (snd (handleCommit "d" u1 "t" committing))) = 2.
Proof. vm_compute. reflexivity. Qed.
