(* ===== verification/Regexp.v ===== *)
(** * regexp: the expressions the program compiles

    The part of Go's [regexp] the code uses on text that is anchored at both
    ends, or only at the start: byte classes, sequences, alternatives,
    repetition.  [re_matches] is an executable matcher by derivatives;
    [matches_lang] relates it to the language an expression denotes, so that
    the components evaluate the matcher and prove with the language. *)

From S2P Require Import Prelude GoLib.

Inductive re :=
  | RNone
  | REps
  | RCls (f : ascii -> bool)
  | RCat (a b : re)
  | RAlt (a b : re)
  | RStar (a : re).

(** [s?], [s{n}], [s{0,n}], a literal byte and a literal string. *)
Definition ROpt (a : re) : re := RAlt a REps.
Fixpoint RRep (n : nat) (a : re) : re :=
  match n with O => REps | S n' => RCat a (RRep n' a) end.
Fixpoint RUpto (n : nat) (a : re) : re :=
  match n with O => REps | S n' => RAlt (RCat a (RUpto n' a)) REps end.
Definition RLit (c : ascii) : re := RCls (fun x => bool_decide (x = c)).
Definition RAny : re := RCls (fun _ => true).

(** The language of an expression. *)
Inductive lang : re -> string -> Prop :=
  | lang_eps : lang REps EmptyString
  | lang_cls f c : f c = true -> lang (RCls f) (String c EmptyString)
  | lang_cat a b s t : lang a s -> lang b t -> lang (RCat a b) (s +:+ t)
  | lang_alt_l a b s : lang a s -> lang (RAlt a b) s
  | lang_alt_r a b s : lang b s -> lang (RAlt a b) s
  | lang_star_nil a : lang (RStar a) EmptyString
  | lang_star_cons a s t : lang a s -> lang (RStar a) t -> lang (RStar a) (s +:+ t).

Fixpoint nullable (r : re) : bool :=
  match r with
  | RNone | RCls _ => false
  | REps | RStar _ => true
  | RCat a b => nullable a && nullable b
  | RAlt a b => nullable a || nullable b
  end.

(** Sequence and alternative without the trivial cases, so that derivatives
    stay small. *)
Definition cat (a b : re) : re :=
  match a, b with
  | RNone, _ => RNone
  | _, RNone => RNone
  | REps, _ => b
  | _, _ => RCat a b
  end.
Definition alt (a b : re) : re :=
  match a, b with RNone, _ => b | _, RNone => a | _, _ => RAlt a b end.

Fixpoint deriv (c : ascii) (r : re) : re :=
  match r with
  | RNone | REps => RNone
  | RCls f => if f c then REps else RNone
  | RCat a b => if nullable a then alt (cat (deriv c a) b) (deriv c b) else cat (deriv c a) b
  | RAlt a b => alt (deriv c a) (deriv c b)
  | RStar a => cat (deriv c a) (RStar a)
  end.

Fixpoint re_matches (r : re) (s : string) : bool :=
  match s with
  | EmptyString => nullable r
  | String c s' => re_matches (deriv c r) s'
  end.

(** [^r$] and [^r] on a text. *)
Definition MatchFull (r : re) (s : string) : bool := re_matches r s.
Definition MatchPrefix (r : re) (s : string) : bool := re_matches (RCat r (RStar RAny)) s.

(** ** The matcher decides the language *)

Lemma lang_none s : ~ lang RNone s.
Proof. intros H. inversion H. Qed.

Lemma lang_eps_inv s : lang REps s <-> s = EmptyString.
Proof. split; [by inversion 1|intros ->; constructor]. Qed.

Lemma lang_cls_inv f s : lang (RCls f) s <-> exists c, s = String c EmptyString /\ f c = true.
Proof. split; [inversion 1; eauto|intros (c & -> & Hc); by constructor]. Qed.

Lemma lang_cat_inv a b s :
  lang (RCat a b) s <-> exists s1 s2, s = s1 +:+ s2 /\ lang a s1 /\ lang b s2.
Proof. split; [inversion 1; eauto|intros (s1 & s2 & -> & ? & ?); by constructor]. Qed.

Lemma lang_alt_inv a b s : lang (RAlt a b) s <-> lang a s \/ lang b s.
Proof.
  split; [inversion 1; auto|intros [H|H]; [by apply lang_alt_l|by apply lang_alt_r]].
Qed.

Lemma lang_cat_smart a b s : lang (cat a b) s <-> lang (RCat a b) s.
Proof.
  assert (HN : forall x, lang (RCat RNone x) s <-> lang RNone s).
  { intros x. rewrite lang_cat_inv. split; [by intros (? & ? & _ & ?%lang_none & _)|].
    by intros ?%lang_none. }
  assert (HN' : forall x, lang (RCat x RNone) s <-> lang RNone s).
  { intros x. rewrite lang_cat_inv. split; [by intros (? & ? & _ & _ & ?%lang_none)|].
    by intros ?%lang_none. }
  assert (HE : forall x, lang (RCat REps x) s <-> lang x s).
  { intros x. rewrite lang_cat_inv. split.
    - by intros (? & ? & -> & ->%lang_eps_inv & ?).
    - intros H. exists EmptyString, s. split_and!; [done|constructor|done]. }
  destruct a, b; simpl; rewrite ?HN, ?HN', ?HE; done.
Qed.

Lemma lang_alt_smart a b s : lang (alt a b) s <-> lang (RAlt a b) s.
Proof.
  rewrite lang_alt_inv.
  destruct a, b; simpl; rewrite ?lang_alt_inv;
    (split; [tauto|]; intros [H|H]; try tauto; by destruct (lang_none _ H)).
Qed.

Lemma nullable_spec r : nullable r = true <-> lang r EmptyString.
Proof.
  induction r as [| |f|a IHa b IHb|a IHa b IHb|a IHa]; simpl.
  - split; [done|]. by intros ?%lang_none.
  - by rewrite lang_eps_inv.
  - split; [done|]. by intros (c & ? & _)%lang_cls_inv.
  - rewrite andb_true_iff, IHa, IHb, lang_cat_inv. split.
    + intros [Ha Hb]. by exists EmptyString, EmptyString.
    + intros (s1 & s2 & Hs & Ha & Hb). destruct s1, s2; done.
  - by rewrite orb_true_iff, IHa, IHb, lang_alt_inv.
  - split; [constructor|done].
Qed.

Lemma lang_star_uncons a c s :
  lang (RStar a) (String c s) ->
  exists s1 s2, s = s1 +:+ s2 /\ lang a (String c s1) /\ lang (RStar a) s2.
Proof.
  intros H. remember (RStar a) as r eqn:Hr. remember (String c s) as t eqn:Ht.
  revert s Ht. induction H as [| | | | | |a' s1 t H1 _ H2 IH2]; intros s' Ht; try done.
  simplify_eq. destruct s1 as [|c1 s1]; simpl in Ht; [by apply IH2|].
  simplify_eq. eauto.
Qed.

Lemma deriv_spec c r s : lang (deriv c r) s <-> lang r (String c s).
Proof.
  revert s. induction r as [| |f|a IHa b IHb|a IHa b IHb|a IHa]; intros s; simpl.
  - split; by intros ?%lang_none.
  - rewrite lang_eps_inv. split; [by intros ?%lang_none|done].
  - rewrite lang_cls_inv. destruct (f c) eqn:Hf.
    + rewrite lang_eps_inv. split; [intros ->; eauto|]. by intros (? & [= -> ->] & _).
    + split; [by intros ?%lang_none|]. intros (? & [= <- ->] & ?). congruence.
  - assert (Hcat : lang (cat (deriv c a) b) s <->
      exists s1 s2, s = s1 +:+ s2 /\ lang a (String c s1) /\ lang b s2).
    { rewrite lang_cat_smart, lang_cat_inv. by setoid_rewrite IHa. }
    assert (Hsp : lang (RCat a b) (String c s) <->
      (exists s1 s2, s = s1 +:+ s2 /\ lang a (String c s1) /\ lang b s2) \/
      (lang a EmptyString /\ lang b (String c s))).
    { rewrite lang_cat_inv. split.
      - intros ([|c1 s1] & s2 & Hs & Ha & Hb); simpl in Hs; [subst; by right|].
        simplify_eq. left. eauto.
      - intros [(s1 & s2 & -> & ? & ?)|[? ?]];
          [by exists (String c s1), s2|by exists EmptyString, (String c s)]. }
    rewrite Hsp, <- nullable_spec. destruct (nullable a).
    + rewrite lang_alt_smart, lang_alt_inv, Hcat, IHb. tauto.
    + rewrite Hcat. split; [by left|]. by intros [?|[? _]].
  - by rewrite lang_alt_smart, !lang_alt_inv, IHa, IHb.
  - rewrite lang_cat_smart, lang_cat_inv. split.
    + intros (s1 & s2 & -> & H1%IHa & H2). apply (lang_star_cons a (String c s1) s2 H1 H2).
    + intros (s1 & s2 & -> & H1 & H2)%lang_star_uncons. exists s1, s2. by rewrite IHa.
Qed.

Lemma matches_lang r s : re_matches r s = true <-> lang r s.
Proof.
  revert r. induction s as [|c s IH]; intros r; simpl; [apply nullable_spec|].
  by rewrite IH, deriv_spec.
Qed.

Lemma lang_any s : lang (RStar RAny) s.
Proof.
  induction s as [|c s IH]; [constructor|].
  apply (lang_star_cons RAny (String c EmptyString) s); [by constructor|done].
Qed.

Lemma MatchPrefix_spec r s :
  MatchPrefix r s = true <-> exists s1 s2, s = s1 +:+ s2 /\ lang r s1.
Proof.
  unfold MatchPrefix. rewrite matches_lang, lang_cat_inv. split.
  - intros (s1 & s2 & -> & ? & _). eauto.
  - intros (s1 & s2 & -> & ?). exists s1, s2. split_and!; [done|done|apply lang_any].
Qed.

(** ** Repetition *)

Lemma lang_lit c s : lang (RLit c) s <-> s = String c EmptyString.
Proof.
  unfold RLit. rewrite lang_cls_inv. split.
  - by intros (x & -> & ->%bool_decide_eq_true).
  - intros ->. exists c. by rewrite bool_decide_eq_true.
Qed.

Lemma lang_opt a s : lang (ROpt a) s <-> lang a s \/ s = EmptyString.
Proof. unfold ROpt. by rewrite lang_alt_inv, lang_eps_inv. Qed.

Lemma slen_0 s : slen s = 0 <-> s = EmptyString.
Proof. by destruct s. Qed.

Lemma lang_rep_cls n f s : lang (RRep n (RCls f)) s <-> str_all f s = true /\ slen s = n.
Proof.
  revert s. induction n as [|n IH]; intros s; simpl.
  - rewrite lang_eps_inv. split; [by intros ->|]. intros [_ H]. by apply slen_0.
  - rewrite lang_cat_inv. split.
    + intros (s1 & s2 & -> & (c & -> & Hc)%lang_cls_inv & [H1 H2]%IH). simpl.
      rewrite Hc. split; [done|]. unfold slen in *. simpl. lia.
    + destruct s as [|c s]; [by intros [_ ?]|]. simpl. rewrite andb_true_iff.
      intros [[Hc Hs] [= Hl]]. exists (String c EmptyString), s.
      split_and!; [done|by constructor|]. by apply IH.
Qed.

Lemma lang_upto_cls n f s : lang (RUpto n (RCls f)) s <-> str_all f s = true /\ slen s <= n.
Proof.
  revert s. induction n as [|n IH]; intros s; simpl.
  - rewrite lang_eps_inv. split; [by intros ->|]. intros [_ H]. apply slen_0. lia.
  - rewrite lang_alt_inv, lang_cat_inv, lang_eps_inv. split.
    + intros [(s1 & s2 & -> & (c & -> & Hc)%lang_cls_inv & [H1 H2]%IH)| ->].
      * simpl. rewrite Hc. split; [done|]. unfold slen in *. simpl. lia.
      * split; [done|]. unfold slen. simpl. lia.
    + destruct s as [|c s]; [by right|]. simpl. rewrite andb_true_iff.
      intros [[Hc Hs] Hl]. left. exists (String c EmptyString), s.
      split_and!; [done|by constructor|]. apply IH. split; [done|].
      unfold slen in *. simpl in Hl. lia.
Qed.

Create Rewrite HintDb relang.
#[export] Hint Rewrite lang_eps_inv lang_cls_inv lang_cat_inv lang_alt_inv lang_lit lang_opt
  lang_rep_cls lang_upto_cls : relang.

(** A list of words, each in the language of [a], each behind the byte [c]:
    what [(c a)*] matches. *)
Lemma lang_star_sep c a s :
  lang (RStar (RCat (RLit c) a)) s <->
  exists ws, Forall (lang a) ws /\ s = foldr (fun w t => String c (w +:+ t)) EmptyString ws.
Proof.
  split.
  - intros H. remember (RStar (RCat (RLit c) a)) as r eqn:Hr.
    induction H as [| | | | |a'|a' s1 t H1 _ H2 IH2]; try done; [by exists []|].
    injection Hr as ->. destruct (IH2 eq_refl) as (ws & Hws & ->).
    apply lang_cat_inv in H1 as (x & w & -> & ->%lang_lit & Hw).
    exists (w :: ws). split; [by constructor|]. done.
  - intros (ws & Hws & ->). induction Hws as [|w ws Hw _ IH]; [constructor|].
    apply (lang_star_cons _ (String c w)); [|done].
    apply lang_cat_inv. exists (String c EmptyString), w. by rewrite lang_lit.
Qed.

(** ** Words with edges: a first and a last byte of one class, the rest of a
    wider one. *)

Definition first_is (f : ascii -> bool) (s : string) : bool :=
  match s with String c _ => f c | EmptyString => false end.
Definition edges (f : ascii -> bool) (s : string) : bool := first_is f s && first_is f (srev s).

Lemma snoc_cases s : s = EmptyString \/ exists m d, s = m +:+ String d EmptyString.
Proof.
  rewrite <- (srev_involutive s). destruct (srev s) as [|d m]; [by left|right].
  exists (srev m), d. apply srev_cons.
Qed.

Lemma edges_snoc f m d : edges f (m +:+ String d EmptyString) =
  first_is f (m +:+ String d EmptyString) && f d.
Proof. unfold edges. by rewrite srev_app. Qed.

Lemma lang_edges f g n s : (forall c, f c = true -> g c = true) ->
  lang (RCat (RCls f) (ROpt (RCat (RUpto n (RCls g)) (RCls f)))) s <->
  str_all g s = true /\ edges f s = true /\ slen s <= n + 2.
Proof.
  intros Hfg. rewrite lang_cat_inv. setoid_rewrite lang_opt. setoid_rewrite lang_cls_inv.
  setoid_rewrite lang_cat_inv. setoid_rewrite lang_upto_cls. setoid_rewrite lang_cls_inv. split.
  - intros (s1 & s2 & -> & (c & -> & Hc) & [(m & t & -> & [Hm Hl] & d & -> & Hd)| ->]).
    + rewrite <- sapp_assoc, edges_snoc, !str_all_app, !slen_app. cbn.
      rewrite (Hfg _ Hc), (Hfg _ Hd), Hm, Hc, Hd. split_and!; [done..|]. lia.
    + unfold edges. cbn. rewrite (Hfg _ Hc), Hc. split_and!; [done..|lia].
  - intros (Ha & He & Hl). destruct s as [|c t]; [done|].
    pose proof He as [Hc _]%andb_true_iff. exists (String c EmptyString), t.
    split; [done|]. split; [by exists c|].
    destruct (snoc_cases t) as [->|(m & d & ->)]; [by right|left].
    change (String c (m +:+ String d "")) with (String c m +:+ String d "") in *.
    rewrite edges_snoc, !str_all_app, !slen_app in *. cbn in Ha, He, Hl.
    apply andb_true_iff in Ha as [[_ Hm]%andb_true_iff _]. apply andb_true_iff in He as [_ Hd].
    exists m, (String d ""). split; [done|]. split; [split; [done|]|by exists d].
    unfold slen in *. cbn in Hl. lia.
Qed.
