(* ===== verification/WizardChecks.v ===== *)
(** * wizard/preflight, wizard/dnscheck, wizard/steps.go: the wizard's checks

    The commands the preflight runs on the host and what it makes of their
    output, the reading of [os-release] and of disk sizes, the check of a
    Cloudflare token and of nip.io, and the validators of the steps.  The SSH
    session, the pool, the resolver and the Cloudflare API are interfaces;
    [PreflightResult] of [Wizard] is the record both packages declare.
    Messages leave out the quoting of [%q]. *)

From Stdlib Require Import SpecFloat.
From S2P Require Import Prelude GoLib Float64 Regexp Expose Wizard.

(** Standard output, standard error, and the error of a command. *)
Class SSHSession (E : Type) := { session_Run : string -> E -> string * string * option string * E }.

(** ** distro.go *)

(** [strings.Trim] with a set of two quotes. *)
Definition is_quote (c : ascii) : bool := bool_decide (c = "034"%char \/ c = "'"%char).
Fixpoint drop_quotes (s : string) : string :=
  match s with String c s' => if is_quote c then drop_quotes s' else s | EmptyString => s end.
Definition TrimQuotes (s : string) : string := srev (drop_quotes (srev (drop_quotes s))).

(** One line: the pair read so far with the line's value put in. *)
Definition os_release_line (acc : string * string) (line : string) : string * string :=
  let line := TrimSpace line in
  if bool_decide (line = "") || HasPrefix line "#" then acc else
  match IndexByte line "=" with
  | None => acc
  | Some i =>
      let key := TrimSpace (stake i line) in
      let value := TrimQuotes (TrimSpace (sdrop (S i) line)) in
      if decide (key = "ID") then (value, snd acc)
      else if decide (key = "VERSION_ID") then (fst acc, value)
      else acc
  end.
Definition ParseOSRelease (content : string) : string * string :=
  foldl os_release_line ("", "") (Split content nl).

(** [strings.SplitN(v, ".", 3)]: the third part keeps its dots. *)
Definition split3 (v : string) : list string :=
  match Split v "." with
  | a :: b :: (c :: _ as rest) => [a; b; Join rest "."]
  | l => l
  end.

(** Errors are dropped: a part that is no number counts as [Atoi] leaves it. *)
Definition parseVersion (v : string) : Z * Z * Z :=
  let n i := match split3 v !! i with Some s => fst (Atoi s) | None => 0%Z end in
  (n 0, n 1, n 2).

Definition unsupported (id versionID : string) : string :=
  "Unsupported OS: " +:+ id +:+ " " +:+ versionID +:+ ". Supported: Ubuntu 22.04/24.04, Debian 12.".

Definition CheckDistro (id versionID : string) : bool * string :=
  let '(major, minor, _) := parseVersion versionID in
  if decide (id = "ubuntu") then
    if decide (22 < major \/ major = 22 /\ 4 <= minor)%Z then (true, "")
    else (false, unsupported id versionID)
  else if decide (id = "debian") then
    if decide (12 <= major)%Z then (true, "") else (false, unsupported id versionID)
  else (false, unsupported id versionID).

(** ** preflight.go *)

Definition parseDiskSize (s : string) : f64 * option string :=
  let s := TrimSpace s in
  if HasSuffix s "G" then ParseFloat (TrimSuffix s "G")
  else if HasSuffix s "T" then
    let '(v, err) := ParseFloat (TrimSuffix s "T") in (f_mul v (f_of_Z 1024), err)
  else if HasSuffix s "M" then
    let '(v, err) := ParseFloat (TrimSuffix s "M") in (f_div v (f_of_Z 1024), err)
  else ParseFloat s.

(** Assignments to fields. *)
Definition block (m : string) (r : PreflightResult) : PreflightResult :=
  {| TargetHost := TargetHost r; PCheckedAt := PCheckedAt r; Distro := Distro r;
     DistroVersion := DistroVersion r; Arch := Arch r; DiskFreeGB := DiskFreeGB r; RAMMB := RAMMB r;
     HasSudo := HasSudo r; HasDocker := HasDocker r; DockerRunning := DockerRunning r;
     Port443Free := Port443Free r; Port80Free := Port80Free r; PortWGFree := PortWGFree r;
     Compatible := Compatible r; PWarnings := PWarnings r;
     BlockingFailures := BlockingFailures r ++ [m] |}.
Definition warn (m : string) (r : PreflightResult) : PreflightResult :=
  {| TargetHost := TargetHost r; PCheckedAt := PCheckedAt r; Distro := Distro r;
     DistroVersion := DistroVersion r; Arch := Arch r; DiskFreeGB := DiskFreeGB r; RAMMB := RAMMB r;
     HasSudo := HasSudo r; HasDocker := HasDocker r; DockerRunning := DockerRunning r;
     Port443Free := Port443Free r; Port80Free := Port80Free r; PortWGFree := PortWGFree r;
     Compatible := Compatible r; PWarnings := PWarnings r ++ [m];
     BlockingFailures := BlockingFailures r |}.
Definition set_distro (id v : string) (r : PreflightResult) : PreflightResult :=
  {| TargetHost := TargetHost r; PCheckedAt := PCheckedAt r; Distro := id; DistroVersion := v;
     Arch := Arch r; DiskFreeGB := DiskFreeGB r; RAMMB := RAMMB r; HasSudo := HasSudo r;
     HasDocker := HasDocker r; DockerRunning := DockerRunning r; Port443Free := Port443Free r;
     Port80Free := Port80Free r; PortWGFree := PortWGFree r; Compatible := Compatible r;
     PWarnings := PWarnings r; BlockingFailures := BlockingFailures r |}.
Definition set_disk (gb : f64) (r : PreflightResult) : PreflightResult :=
  {| TargetHost := TargetHost r; PCheckedAt := PCheckedAt r; Distro := Distro r;
     DistroVersion := DistroVersion r; Arch := Arch r; DiskFreeGB := gb; RAMMB := RAMMB r;
     HasSudo := HasSudo r; HasDocker := HasDocker r; DockerRunning := DockerRunning r;
     Port443Free := Port443Free r; Port80Free := Port80Free r; PortWGFree := PortWGFree r;
     Compatible := Compatible r; PWarnings := PWarnings r; BlockingFailures := BlockingFailures r |}.
Definition set_sudo (b : bool) (r : PreflightResult) : PreflightResult :=
  {| TargetHost := TargetHost r; PCheckedAt := PCheckedAt r; Distro := Distro r;
     DistroVersion := DistroVersion r; Arch := Arch r; DiskFreeGB := DiskFreeGB r; RAMMB := RAMMB r;
     HasSudo := b; HasDocker := HasDocker r; DockerRunning := DockerRunning r;
     Port443Free := Port443Free r; Port80Free := Port80Free r; PortWGFree := PortWGFree r;
     Compatible := Compatible r; PWarnings := PWarnings r; BlockingFailures := BlockingFailures r |}.
Definition set_docker (has runs : bool) (r : PreflightResult) : PreflightResult :=
  {| TargetHost := TargetHost r; PCheckedAt := PCheckedAt r; Distro := Distro r;
     DistroVersion := DistroVersion r; Arch := Arch r; DiskFreeGB := DiskFreeGB r; RAMMB := RAMMB r;
     HasSudo := HasSudo r; HasDocker := has; DockerRunning := runs;
     Port443Free := Port443Free r; Port80Free := Port80Free r; PortWGFree := PortWGFree r;
     Compatible := Compatible r; PWarnings := PWarnings r; BlockingFailures := BlockingFailures r |}.
Definition set_ports (p443 p80 wg : bool) (r : PreflightResult) : PreflightResult :=
  {| TargetHost := TargetHost r; PCheckedAt := PCheckedAt r; Distro := Distro r;
     DistroVersion := DistroVersion r; Arch := Arch r; DiskFreeGB := DiskFreeGB r; RAMMB := RAMMB r;
     HasSudo := HasSudo r; HasDocker := HasDocker r; DockerRunning := DockerRunning r;
     Port443Free := p443; Port80Free := p80; PortWGFree := wg;
     Compatible := Compatible r; PWarnings := PWarnings r; BlockingFailures := BlockingFailures r |}.
Definition set_compatible (b : bool) (r : PreflightResult) : PreflightResult :=
  {| TargetHost := TargetHost r; PCheckedAt := PCheckedAt r; Distro := Distro r;
     DistroVersion := DistroVersion r; Arch := Arch r; DiskFreeGB := DiskFreeGB r; RAMMB := RAMMB r;
     HasSudo := HasSudo r; HasDocker := HasDocker r; DockerRunning := DockerRunning r;
     Port443Free := Port443Free r; Port80Free := Port80Free r; PortWGFree := PortWGFree r;
     Compatible := b; PWarnings := PWarnings r; BlockingFailures := BlockingFailures r |}.

Definition no_result (host now : string) : PreflightResult :=
  {| TargetHost := host; PCheckedAt := now; Distro := ""; DistroVersion := ""; Arch := "";
     DiskFreeGB := S754_zero false; RAMMB := 0; HasSudo := false; HasDocker := false;
     DockerRunning := false; Port443Free := false; Port80Free := false; PortWGFree := false;
     Compatible := false; PWarnings := []; BlockingFailures := [] |}.

(** What each check makes of the output and the error of its command. *)
Definition Output : Type := string * option string.

Definition checkDistro (o : Output) (r : PreflightResult) : PreflightResult :=
  match o with
  | (_, Some e) => block ("Failed to read /etc/os-release: " +:+ e) r
  | (content, None) =>
      let '(id, versionID) := ParseOSRelease content in
      let r := set_distro id versionID r in
      let '(compatible, msg) := CheckDistro id versionID in
      if compatible then r else block msg r
  end.

Definition checkDisk (o : Output) (r : PreflightResult) : PreflightResult :=
  match o with
  | (_, Some e) => block ("Failed to check disk space: " +:+ e) r
  | (output, None) =>
      match Split (TrimSpace output) nl with
      | _ :: line :: _ =>
          match Fields line with
          | _ :: _ :: _ :: availStr :: _ =>
              match parseDiskSize availStr with
              | (_, Some e) => warn ("Could not parse available disk: " +:+ e) r
              | (gb, None) =>
                  let r := set_disk gb r in
                  if f_ltb gb (f_of_Z 2)
                  then block ("Insufficient disk space: " +:+ Sprintf_1f gb +:+ "GB available, need ≥2GB") r
                  else r
              end
          | _ => block "Unexpected df output format" r
          end
      | _ => block "Unexpected df output format" r
      end
  end.

Definition checkSudo (o : Output) (r : PreflightResult) : PreflightResult :=
  match snd o with
  | None => set_sudo true r
  | Some _ => block "Passwordless sudo is required" (set_sudo false r)
  end.

Definition checkDocker (o : Output) (r : PreflightResult) : PreflightResult :=
  match o with
  | (_, Some _) => warn "Docker not found or not running. It will be installed during setup."
                     (set_docker false false r)
  | (output, None) =>
      if Contains output "Server:" then set_docker true true r
      else warn "Docker is installed but daemon is not running" (set_docker true false r)
  end.

Definition checkPorts (o : Output) (r : PreflightResult) : PreflightResult :=
  match o with
  | (_, Some _) => set_ports true true true (warn "Could not check port availability" r)
  | (output, None) =>
      let p443 := negb (Contains output ":443 ") in
      let p80 := negb (Contains output ":80 ") in
      let r := set_ports p443 p80 true r in
      let r := if p443 then r else block "Port 443 is already in use" r in
      if p80 then r else warn "Port 80 is in use (HTTP redirect may not work)" r
  end.

Section Preflight.
Context {E : Type} `{SSHSession E}.

Definition runCmd (cmd : string) : eff E Output := fun e =>
  let '(stdout, _, err, e') := session_Run cmd e in (Ok (stdout, err), e').

Definition Run (targetHost now : string) : eff E PreflightResult :=
  let r := no_result targetHost now in
  o1 ← runCmd "cat /etc/os-release"; let r := checkDistro o1 r in
  o2 ← runCmd "df -h /"; let r := checkDisk o2 r in
  o3 ← runCmd "sudo -n true"; let r := checkSudo o3 r in
  o4 ← runCmd "docker info 2>&1"; let r := checkDocker o4 r in
  o5 ← runCmd "ss -tlnp 2>/dev/null || netstat -tlnp 2>/dev/null"; let r := checkPorts o5 r in
  mret (set_compatible (bool_decide (length (BlockingFailures r) = 0)) r).
End Preflight.

(** ** dnscheck/cloudflare.go *)

Record Zone := { ZID : string; ZName : string }.
Class CloudflareAPI (A : Type) := {
  ListZones : A -> result (list Zone);
  VerifyToken : A -> result (bool * list string)
}.
Record CFValidationError := { CFCode : string; CFMessage : string }.
Definition CFValidationError_Error (e : CFValidationError) : string :=
  CFCode e +:+ ": " +:+ CFMessage e.

Definition has_scope (s : string) : bool :=
  HasPrefix s "Zone:DNS:" || bool_decide (s = "Zone:DNS:Edit") || bool_decide (s = "Zone:Edit").
Definition zone_covers (domain : string) (z : Zone) : bool :=
  bool_decide (ZName z = domain) || HasSuffix domain ("." +:+ ZName z).

(** Whether the token is valid, its scopes, the zone, and the error. *)
Definition ValidateCloudflareToken {A} `{CloudflareAPI A} (api : A) (token domain : string)
  : bool * list string * string * option CFValidationError :=
  let err c m := Some {| CFCode := c; CFMessage := m |} in
  if decide (token = "") then (false, [], "", err "cf_token_empty" "cloudflare token is required")
  else
    match VerifyToken api with
    | Err e | Panic e => (false, [], "", err "cf_token_invalid" ("token verification failed: " +:+ e))
    | Ok (false, _) => (false, [], "", err "cf_token_invalid" "token is not valid")
    | Ok (true, scopes) =>
        if negb (existsb has_scope scopes)
        then (true, scopes, "", err "cf_token_missing_scope" "token lacks required DNS edit scope")
        else
          match ListZones api with
          | Err e | Panic e => (true, scopes, "", err "cf_zone_list_failed" ("failed to list zones: " +:+ e))
          | Ok zones =>
              match List.find (zone_covers domain) zones with
              | Some z => (true, scopes, ZID z, None)
              | None => (true, scopes, "", err "cf_zone_not_found"
                           ("no cloudflare zone found for domain " +:+ domain))
              end
          end
    end.

(** ** dnscheck/nipio.go *)

(** The list of addresses as [%v] writes it. *)
Definition bracketed (ips : list string) : string := "[" +:+ Join ips " " +:+ "]".

Definition CheckNipioResolution (lookup : string -> result (list string)) (vpsPublicIP : string)
  : bool * string :=
  let testDomain := BuildNipioSubdomain "" vpsPublicIP in
  match lookup testDomain with
  | Ok ips =>
      if existsb (fun ip => bool_decide (ip = vpsPublicIP)) ips then (true, "")
      else (false, "nip.io resolved " +:+ testDomain +:+ " but returned unexpected IPs: " +:+ bracketed ips)
  | _ => (false, "nip.io DNS unreachable. Proceed without DNS verification or use your own domain.")
  end.

(** ** steps.go *)

Record ValidationError := { VCode : string; VMessage : string; IsWarning : bool }.
Definition ValidationError_Error (e : ValidationError) : string := VCode e +:+ ": " +:+ VMessage e.
Definition invalid (c m : string) : ValidationError := {| VCode := c; VMessage := m; IsWarning := false |}.

Definition peer_char (c : ascii) : bool :=
  in_range "a" "z" c || in_range "A" "Z" c || is_digit c || bool_decide (c = "_"%char) ||
  bool_decide (c = "-"%char).
(** [^[a-zA-Z0-9_-]{1,64}$] *)
Definition peerNameRe : re := RCat (RCls peer_char) (RUpto 63 (RCls peer_char)).

Definition ValidatePeerName (name : string) : option ValidationError :=
  if decide (name = "") then Some (invalid "peer_name_empty" "peer name is required")
  else if negb (MatchFull peerNameRe name)
  then Some (invalid "peer_name_invalid" ("peer name " +:+ name +:+ " must match ^[a-zA-Z0-9_-]{1,64}$"))
  else None.

Definition validateDomainMode (mode : string) : option ValidationError :=
  if decide (mode <> "byo" /\ mode <> "nipio")
  then Some (invalid "domain_mode_invalid" ("mode must be " +:+ dquote +:+ "byo" +:+ dquote +:+ " or " +:+
                                       dquote +:+ "nipio" +:+ dquote +:+ ", got " +:+ mode)) else None.

Definition domain_char (c : ascii) : bool :=
  in_range "a" "z" c || in_range "A" "Z" c || is_digit c || bool_decide (c = "."%char) ||
  bool_decide (c = "_"%char) || bool_decide (c = "-"%char).
Definition validateDomainCheck (domain : string) : option ValidationError :=
  if decide (domain = "") then Some (invalid "domain_empty" "domain is required")
  else if decide (253 < slen domain) then Some (invalid "domain_invalid" "domain exceeds 253 characters")
  else if negb (str_all domain_char domain)
  then Some (invalid "domain_invalid" ("domain " +:+ domain +:+ " contains invalid characters"))
  else None.

Definition validateCloudflare (token : string) : option ValidationError :=
  if decide (token = "")
  then Some (invalid "cloudflare_token_empty" "Cloudflare API token is required") else None.
Definition validateCreatePeer (name : string) : option ValidationError := ValidatePeerName name.

(** What a connection to the host does: the TCP dial, the SSH login, the two
    commands; each is its error. *)
Record HostAnswers := {
  dialed : option string; logged_in : option string; sudo : option string; docker : option string
}.

Definition validateSSH (input : SSHInput) (h : HostAnswers) : option ValidationError :=
  if decide (Host input = "") then Some (invalid "ssh_connection_refused" "host is empty") else
  if decide (Port input <= 0 \/ 65535 < Port input)%Z
  then Some (invalid "ssh_connection_refused" ("invalid port " +:+ Itoa (Port input))) else
  let addr := Host input +:+ ":" +:+ Itoa (Port input) in
  match dialed h with
  | Some e => Some (invalid "ssh_connection_refused" ("TCP connect to " +:+ addr +:+ " failed: " +:+ e))
  | None =>
      match logged_in h with
      | Some e =>
          if Contains e "passphrase" || Contains e "decrypt"
          then Some (invalid "ssh_passphrase_protected" "SSH key is passphrase-protected")
          else if Contains e "unable to authenticate" || Contains e "permission denied"
          then Some (invalid "ssh_auth_failed" ("SSH auth failed: " +:+ e))
          else Some (invalid "ssh_auth_failed" ("SSH connection failed: " +:+ e))
      | None =>
          match sudo h with
          | Some e => Some (invalid "ssh_no_sudo" ("user " +:+ User input +:+ " lacks sudo: " +:+ e))
          | None =>
              match docker h with
              | Some _ => Some {| VCode := "ssh_no_docker";
                                  VMessage := "Docker not found or not running on target host";
                                  IsWarning := true |}
              | None => None
              end
          end
      end
  end.

(** The dynamic value a step is given. *)
Inductive step_input := InSSH (i : SSHInput) | InString (s : string) | InOther.

Definition or_next (e : option ValidationError) (next : WizardStep) : ValidationError + WizardStep :=
  match e with Some e => inl e | None => inr next end.

Definition validateStep (step : WizardStep) (inputs : step_input) (h : HostAnswers)
  : ValidationError + WizardStep :=
  let expect what := inl (invalid "invalid_input" ("expected " +:+ what)) in
  match step with
  | StepWelcome => inr StepSSH
  | StepSSH => match inputs with
               | InSSH i => or_next (validateSSH i h) StepPreflight
               | _ => expect "*SSHInput"
               end
  | StepPreflight => inr StepDomainMode
  | StepDomainMode => match inputs with
                      | InString s => or_next (validateDomainMode s) StepDomainCheck
                      | _ => expect "string mode"
                      end
  | StepDomainCheck => match inputs with
                       | InString s => or_next (validateDomainCheck s) StepCloudflare
                       | _ => expect "string domain"
                       end
  | StepCloudflare => match inputs with
                      | InString s => or_next (validateCloudflare s) StepCreatePeer
                      | _ => expect "string token"
                      end
  | StepCreatePeer => match inputs with
                      | InString s => or_next (validateCreatePeer s) StepCommit
                      | _ => expect "string name"
                      end
  | _ => inl (invalid "unknown_step" ("no validator for step " +:+ step_name step))
  end.

(** ** The preflight's verdict *)

(** The commands in the order [Run] sends them, and their answers. *)
Definition preflight_commands : list string :=
  ["cat /etc/os-release"; "df -h /"; "sudo -n true"; "docker info 2>&1";
   "ss -tlnp 2>/dev/null || netstat -tlnp 2>/dev/null"].
Fixpoint answers {E} `{SSHSession E} (cmds : list string) (e : E) : list Output * E :=
  match cmds with
  | [] => ([], e)
  | c :: cs => let '(out, _, err, e1) := session_Run c e in
               let '(os, e2) := answers cs e1 in ((out, err) :: os, e2)
  end.

Definition supported (id versionID : string) : Prop :=
  let '(major, minor, _) := parseVersion versionID in
  id = "ubuntu" /\ (22 < major \/ major = 22 /\ 4 <= minor)%Z \/ id = "debian" /\ (12 <= major)%Z.
Definition os_ok (o : Output) : Prop :=
  snd o = None /\ let '(id, v) := ParseOSRelease (fst o) in supported id v.
(** The fourth column of the second line, no number or at least 2 (GB). *)
Definition disk_ok (o : Output) : Prop :=
  snd o = None /\ exists h line ls a b c size fs,
    Split (TrimSpace (fst o)) nl = h :: line :: ls /\ Fields line = a :: b :: c :: size :: fs /\
    (snd (parseDiskSize size) <> None \/ f_ltb (fst (parseDiskSize size)) (f_of_Z 2) = false).
Definition port_ok (o : Output) : Prop := snd o <> None \/ Contains (fst o) ":443 " = false.

Lemma CheckDistro_supported id v : fst (CheckDistro id v) = true <-> supported id v.
Proof.
  unfold CheckDistro, supported. destruct (parseVersion v) as [[ma mi] pa].
  repeat case_decide; subst; cbn; intuition (congruence || lia).
Qed.

(** Each check keeps the failures so far, and adds one exactly when its
    condition fails. *)
Definition clean (r : PreflightResult) : Prop := BlockingFailures r = [].

Lemma block_clean m r : ~ clean (block m r).
Proof. unfold clean; cbn. by destruct (BlockingFailures r). Qed.

Lemma checkDistro_clean o r : clean (checkDistro o r) <-> clean r /\ os_ok o.
Proof.
  unfold os_ok. destruct o as [content [e|]]; cbn -[block supported CheckDistro ParseOSRelease].
  { pose proof (block_clean ("Failed to read /etc/os-release: " +:+ e) r). intuition congruence. }
  destruct (ParseOSRelease content) as [id v]. rewrite <- CheckDistro_supported.
  destruct (CheckDistro id v) as [[] m]; cbn -[block].
  - unfold clean; cbn. intuition.
  - pose proof (block_clean m (set_distro id v r)). intuition congruence.
Qed.

Lemma checkDisk_clean o r : clean (checkDisk o r) <-> clean r /\ disk_ok o.
Proof.
  unfold disk_ok, checkDisk. destruct o as [out [e|]]; cbn [fst snd].
  { pose proof (block_clean ("Failed to check disk space: " +:+ e) r). intuition congruence. }
  assert (Hu : ~ clean (block "Unexpected df output format" r)) by apply block_clean.
  destruct (Split (TrimSpace out) nl) as [|h [|line ls]].
  1,2: split; [done|intros (_ & _ & ? & ? & ? & ? & ? & ? & ? & ? & ? & _); congruence].
  destruct (Fields line) as [|a [|b [|c [|size fs]]]] eqn:Ef.
  1-4: split; [done|intros (_ & _ & ? & ? & ? & ? & ? & ? & ? & ? & ? & ? & _); congruence].
  assert (Hex : clean r ->
    snd (parseDiskSize size) <> None \/ f_ltb (fst (parseDiskSize size)) (f_of_Z 2) = false ->
    clean r /\ @None string = None /\ exists h' line' ls' a' b' c' size' fs',
      h :: line :: ls = h' :: line' :: ls' /\ Fields line' = a' :: b' :: c' :: size' :: fs' /\
      (snd (parseDiskSize size') <> None \/ f_ltb (fst (parseDiskSize size')) (f_of_Z 2) = false)).
  { intros Hc ?. split; [done|]. split; [done|]. by exists h, line, ls, a, b, c, size, fs. }
  destruct (parseDiskSize size) as [gb [e|]] eqn:Ep; cbn [fst snd] in *.
  { split; [intros Hc; apply Hex; [done|by left]|by intros []]. }
  destruct (f_ltb gb (f_of_Z 2)) eqn:El.
  - split; [by intros ?%block_clean|].
    intros (_ & _ & ? & ? & ? & ? & ? & ? & size' & ? & [= -> -> ->] & Hf & Hd).
    rewrite Hf in Ef. injection Ef as -> -> -> -> ->.
    rewrite Ep in Hd. cbn [fst snd] in Hd. rewrite El in Hd. by destruct Hd.
  - split; [intros Hc; apply Hex; [done|by right]|by intros []].
Qed.

Lemma checkSudo_clean o r : clean (checkSudo o r) <-> clean r /\ snd o = None.
Proof.
  unfold checkSudo. destruct (snd o).
  - pose proof (block_clean "Passwordless sudo is required" (set_sudo false r)). intuition congruence.
  - unfold clean; cbn. intuition.
Qed.

Lemma checkDocker_clean o r : clean (checkDocker o r) <-> clean r.
Proof. destruct o as [out [e|]]; cbn; [done|]. by destruct (Contains out "Server:"). Qed.

Lemma checkPorts_clean o r : clean (checkPorts o r) <-> clean r /\ port_ok o.
Proof.
  unfold port_ok, checkPorts. destruct o as [out [e|]]; cbn [fst snd].
  { split; [intros Hc; split; [done|by left]|by intros []]. }
  destruct (Contains out ":443 "), (Contains out ":80 "); cbn [negb].
  1,2: split; [by intros ?%block_clean|intros [_ []]; congruence].
  all: split; [intros Hc; split; [done|by right]|by intros []].
Qed.

Lemma runCmd_bind {E} `{SSHSession E} {A} c (k : Output -> eff E A) e :
  mbind k (runCmd c) e = let '(out, _, err, e1) := session_Run c e in k (out, err) e1.
Proof. unfold mbind, eff_bind, runCmd. by destruct (session_Run c e) as [[[? ?] ?] ?]. Qed.

Lemma set_compatible_clean r :
  Compatible (set_compatible (bool_decide (length (BlockingFailures r) = 0)) r) = true <-> clean r.
Proof.
  unfold clean. cbn [Compatible set_compatible]. rewrite bool_decide_eq_true.
  by destruct (BlockingFailures r).
Qed.

(** The preflight calls a host compatible exactly when its os-release was
    read and names Ubuntu from 22.4 on or Debian from 12 on, [df] answered a
    table whose free space is 2 GB or more or no number at all, [sudo] asks
    for no password, and [ss] failed or shows nothing on port 443.  Docker,
    port 80 and a free size that cannot be read only warn; each of the five
    commands is sent, in order, whatever the earlier ones answered. *)
Theorem compatible_iff {E} `{SSHSession E} (host now : string) (e e' : E) (r : PreflightResult) :
  Run host now e = (Ok r, e') ->
  exists os df su docker ss,
    answers preflight_commands e = ([os; df; su; docker; ss], e') /\
    (Compatible r = true <-> os_ok os /\ disk_ok df /\ snd su = None /\ port_ok ss).
Proof.
  intros HR. unfold Run in HR.
  unfold answers, preflight_commands. revert HR. rewrite runCmd_bind.
  destruct (session_Run _ e) as [[[out1 ?] err1] e1]. rewrite runCmd_bind.
  destruct (session_Run _ e1) as [[[out2 ?] err2] e2]. rewrite runCmd_bind.
  destruct (session_Run _ e2) as [[[out3 ?] err3] e3]. rewrite runCmd_bind.
  destruct (session_Run _ e3) as [[[out4 ?] err4] e4]. rewrite runCmd_bind.
  destruct (session_Run _ e4) as [[[out5 ?] err5] e5]. unfold mret, eff_ret.
  intros HR. assert (HR1 : forall a b : PreflightResult, (Ok a, e5) = (Ok b, e') -> a = b /\ e5 = e')
    by (intros a b HE; split; congruence).
  apply HR1 in HR as [<- <-]. eexists _, _, _, _, _. split; [reflexivity|].
  rewrite set_compatible_clean, checkPorts_clean, checkDocker_clean, checkSudo_clean,
    checkDisk_clean, checkDistro_clean.
  assert (Hn : clean (no_result host now)) by done. tauto.
Qed.

(** An Ubuntu 24.10 with 9.8 GB free, no Docker, and port 80 taken. *)
#[local] Instance good_host : SSHSession (list string) := {|
  session_Run c log :=
    let out :=
      if decide (c = "cat /etc/os-release")
      then "NAME=Ubuntu" +:+ nls +:+ "VERSION_ID='24.10'" +:+ nls +:+ "ID=ubuntu" +:+ nls
      else if decide (c = "df -h /")
      then "Filesystem Size Used Avail Use% Mounted on" +:+ nls +:+ "/dev/vda1 25G 15G 9.8G 61% /" +:+ nls
      else if HasPrefix c "ss " then "LISTEN 0 4096 *:80 *:*" else "" in
    (out, "", if HasPrefix c "docker" then Some "not found" else None, log ++ [c]) |}.

Lemma compatible_iff_witness :
  exists r, Run "203.0.113.9" "2026-01-01T00:00:00Z" [] = (Ok r, preflight_commands) /\
    Compatible r = true /\ Distro r = "ubuntu" /\ length (PWarnings r) = 2 /\
    exists os df su docker ss,
      answers preflight_commands [] = ([os; df; su; docker; ss], preflight_commands) /\
      (Compatible r = true <-> os_ok os /\ disk_ok df /\ snd su = None /\ port_ok ss).
Proof.
  refine (ex_intro _ _ (conj _ (conj _ (conj _ (conj _ _))))).
  1-4: vm_compute; reflexivity.
  apply (compatible_iff "203.0.113.9" "2026-01-01T00:00:00Z" [] preflight_commands).
  vm_compute; reflexivity.
Defined.

(** ** The Cloudflare token, the steps *)

Lemma find_split {A} (f : A -> bool) l x :
  List.find f l = Some x <->
  exists before after, l = before ++ x :: after /\ f x = true /\ Forall (fun y => f y = false) before.
Proof.
  induction l as [|y l IH]; cbn.
  { split; [done|]. by intros ([|] & ? & ? & _). }
  destruct (f y) eqn:Ey.
  - split.
    + intros [= ->]. by exists [], l.
    + intros ([|y' before] & after & [= -> ->] & _ & Hb); [done|].
      apply Forall_cons_1 in Hb as [Hy _]. congruence.
  - rewrite IH. split; intros (before & after & He & Hx & Hb).
    + exists (y :: before), after. subst. repeat split; [done|]. by constructor.
    + destruct before as [|y' before]; injection He as -> ->; [congruence|].
      apply Forall_cons_1 in Hb as [_ Hb]. by exists before, after.
Qed.

(** A token is accepted for a domain exactly when it is not empty,
    Cloudflare verifies it with a DNS scope and lists a zone that is the
    domain or a parent of it; the zone reported is the first such one of the
    list, not the closest. *)
Theorem cloudflare_token_accepted {A} `{CloudflareAPI A} (api : A) (token domain zone : string)
    (scopes : list string) :
  ValidateCloudflareToken api token domain = (true, scopes, zone, None) <->
  token <> "" /\ VerifyToken api = Ok (true, scopes) /\ Exists (fun s => has_scope s = true) scopes /\
  exists before z after, ListZones api = Ok (before ++ z :: after) /\ zone = ZID z /\
    (ZName z = domain \/ HasSuffix domain ("." +:+ ZName z) = true) /\
    Forall (fun y => zone_covers domain y = false) before.
Proof.
  assert (Hz : forall z, zone_covers domain z = true <->
                ZName z = domain \/ HasSuffix domain ("." +:+ ZName z) = true).
  { intros z. unfold zone_covers. by rewrite orb_true_iff, bool_decide_eq_true. }
  setoid_rewrite <- Hz. clear Hz. unfold ValidateCloudflareToken.
  case_decide as Ht; [split; [done|by intros []]|].
  destruct (VerifyToken api) as [[[] sc]|e|e].
  2-4: split; [by intros [=]|by intros (_ & [=] & _)].
  destruct (existsb has_scope sc) eqn:Es; cbn [negb].
  2: { split; [by intros [=]|]. intros (_ & [= ->] & (s & Hin & Hs)%list.Exists_exists & _).
       apply not_true_iff_false in Es as []. apply existsb_exists. exists s.
       by rewrite <- list_elem_of_In. }
  assert (Hsc : Exists (fun s => has_scope s = true) sc).
  { apply existsb_exists in Es as (s & Hin%list_elem_of_In & Hs). apply list.Exists_exists. by exists s. }
  destruct (ListZones api) as [zones|e|e].
  2,3: split; [by intros [=]|by intros (_ & _ & _ & ? & ? & ? & [=] & _)].
  destruct (List.find (zone_covers domain) zones) as [z|] eqn:Ef; (split; [intros [=]; subst|]).
  - apply find_split in Ef as (before & after & -> & Hc & Hb).
    repeat (split; [done|]). by exists before, z, after.
  - intros (_ & [= ->] & _ & before & z' & after & [= ->] & -> & Hc & Hb).
    rewrite (proj2 (find_split _ _ z')) in Ef; [congruence|]. by exists before, after.
  - intros (_ & [= ->] & _ & before & z' & after & [= ->] & -> & Hc & Hb).
    rewrite (proj2 (find_split _ _ z')) in Ef; [congruence|]. by exists before, after.
Qed.

(** A peer name passes exactly when it has 1 to 64 characters, all of
    them letters, digits, [_] or [-]. *)
Theorem peer_name_accepted_iff (name : string) :
  ValidatePeerName name = None <-> 1 <= slen name <= 64 /\ str_all peer_char name = true.
Proof.
  unfold ValidatePeerName, MatchFull. case_decide as Hn.
  { subst. split; [done|]. cbn. lia. }
  destruct (re_matches peerNameRe name) eqn:Em; cbn [negb]; (split; [intros He; try done|]).
  - apply matches_lang, lang_cat_inv in Em as (x & y & -> & (c & -> & Hc)%lang_cls_inv & [Hy Hl]%lang_upto_cls).
    cbn. rewrite Hc, Hy. unfold slen in *. split; [lia|done].
  - done.
  - intros [[_ Hl] Ha]. exfalso. apply not_true_iff_false in Em as []. apply matches_lang, lang_cat_inv.
    destruct name as [|c name]; [done|]. cbn in Ha. apply andb_true_iff in Ha as [Hc Ha].
    exists (String c ""), name. repeat split; [by apply lang_cls_inv; exists c|].
    apply lang_upto_cls. unfold slen in *. cbn in Hl. split; [done|lia].
Qed.

(** The steps in the order the wizard shows them. *)
Definition next_of (s : WizardStep) : option WizardStep :=
  match s with
  | StepWelcome => Some StepSSH | StepSSH => Some StepPreflight
  | StepPreflight => Some StepDomainMode | StepDomainMode => Some StepDomainCheck
  | StepDomainCheck => Some StepCloudflare | StepCloudflare => Some StepCreatePeer
  | StepCreatePeer => Some StepCommit | _ => None
  end.

Lemma validateSSH_outcome (i : SSHInput) (h : HostAnswers) :
  match validateSSH i h with
  | None => dialed h = None /\ logged_in h = None /\ sudo h = None /\ docker h = None
  | Some e => IsWarning e = true <->
              Host i <> "" /\ (0 < Port i <= 65535)%Z /\
              dialed h = None /\ logged_in h = None /\ sudo h = None /\ docker h <> None
  end.
Proof.
  unfold validateSSH. repeat case_decide; cbn; [split; [done|tauto]|split; [done|lia]|].
  destruct (dialed h) as [d|]; [split; [done|naive_solver]|].
  destruct (logged_in h) as [l|]; [repeat case_match; split; (done || naive_solver)|].
  destruct (sudo h) as [u|]; [split; [done|naive_solver]|].
  destruct (docker h) as [k|]; [|done]. split; [|done]. intros _. repeat split; try done; lia.
Qed.

(** The steps that take a text neither warn nor skip. *)
Lemma text_steps_never_warn (step : WizardStep) (inputs : step_input) (h : HostAnswers) :
  step = StepDomainMode \/ step = StepDomainCheck \/ step = StepCloudflare \/ step = StepCreatePeer ->
  match validateStep step inputs h with
  | inr next => next_of step = Some next /\ step <> StepSSH
  | inl e => IsWarning e = false
  end.
Proof.
  intros Hs. assert (step <> StepSSH) by naive_solver.
  destruct Hs as [->|[->|[->| ->]]]; destruct inputs as [i|s|]; cbn [validateStep]; try done;
    unfold or_next, validateDomainMode, validateDomainCheck, validateCloudflare, validateCreatePeer,
      ValidatePeerName;
    repeat case_match; naive_solver.
Qed.

(** A validated step leads to the next one, never past it; and the
    missing Docker that [validateSSH] marks as a warning is handed on like any
    error, so the step that has it is not passed. *)
Theorem validated_step_advances (step : WizardStep) (inputs : step_input) (h : HostAnswers) :
  match validateStep step inputs h with
  | inr next => next_of step = Some next /\
                (forall i, step = StepSSH -> inputs = InSSH i ->
                   dialed h = None /\ logged_in h = None /\ sudo h = None /\ docker h = None)
  | inl e => IsWarning e = true <->
             step = StepSSH /\ exists i, inputs = InSSH i /\ Host i <> "" /\ (0 < Port i <= 65535)%Z /\
             dialed h = None /\ logged_in h = None /\ sudo h = None /\ docker h <> None
  end.
Proof.
  pose proof (text_steps_never_warn step inputs h) as Htxt.
  destruct (decide (step = StepDomainMode \/ step = StepDomainCheck \/ step = StepCloudflare \/
                    step = StepCreatePeer)) as [Hs|Hs].
  { specialize (Htxt Hs). destruct (validateStep step inputs h) as [e|next].
    - rewrite Htxt. split; [done|]. intros [-> _]. naive_solver.
    - destruct Htxt as [Hn Hne]. by split. }
  clear Htxt. destruct step; try tauto; cbn [validateStep]; try done.
  all: try (split; [done|by intros [? _]]).
  destruct inputs as [i| |]; cbn [or_next]; try by (split; [done|by intros (_ & ? & ? & _)]).
  pose proof (validateSSH_outcome i h) as Hssh. unfold or_next. destruct (validateSSH i h) as [e|].
  + rewrite Hssh. split; [intros; split; [done|by exists i]|]. by intros (_ & ? & [= <-] & ?).
  + split; [done|]. by intros ? _ [= <-].
Qed.
