(* ===== verification/State.v ===== *)
(** * state: the profile of the host and the migration plan

    state/state.go and state/migration.go: the two records, their validation
    (host names, hashes and lock stamps as regular expressions), and their
    files, written by [atomicWriteJSON] on the file system of [FS].  The JSON
    codecs and [uuid.Parse] are parameters; the messages leave out the quoting
    of [%q]. *)

From S2P Require Import Prelude GoLib Regexp FS.

(** ** Data *)

Definition VPSStatusActive : string := "active".
Definition VPSStatusMigrating : string := "migrating".
Definition VPSStatusDecommissioned : string := "decommissioned".
Definition VPSStatusUnreachable : string := "unreachable".

Definition AuthModeKey : string := "key".
Definition AuthModePassword : string := "password".

Record VPSProfile := {
  Host : string; Port : Z; User : string; AuthMode : string; PrivateKeyPath : string;
  KnownGoodVersion : string; LastSeenAt : string; Status : string; ComposeHash : string;
  WGEndpoint : string; WGServerPublicKey : string; TunnelSubnet : string; LockedBy : string
}.

Record MigrationPlan := {
  ID : string; SourceVPS : string; TargetVPS : string; DNSTtlSeconds : Z; CutoverAt : string;
  MStatus : string; SnapshotID : string; StartedAt : string; CompletedAt : string; Error : string
}.

(** ** Validation *)

Definition is_alnum (c : ascii) : bool :=
  in_range "a" "z" c || in_range "A" "Z" c || in_range "0" "9" c.
Definition alnum_dash (c : ascii) : bool := is_alnum c || bool_decide (c = "-"%char).
Definition hex_lower (c : ascii) : bool := in_range "a" "f" c || in_range "0" "9" c.

(** [[a-zA-Z0-9]([a-zA-Z0-9-]{0,61}[a-zA-Z0-9])?] *)
Definition labelRe : re :=
  RCat (RCls is_alnum) (ROpt (RCat (RUpto 61 (RCls alnum_dash)) (RCls is_alnum))).
Definition fqdnRe : re := RCat labelRe (RStar (RCat (RLit ".") labelRe)).
Definition hexRe : re := RRep 64 (RCls hex_lower).

Fixpoint seq_re (l : list re) : re :=
  match l with [] => REps | [r] => r | r :: l' => RCat r (seq_re l') end.
Definition lockRe : re :=
  let h n := RRep n (RCls hex_lower) in
  let d n := RRep n (RCls is_digit) in
  seq_re [h 8; RLit "-"; h 4; RLit "-"; h 4; RLit "-"; h 4; RLit "-"; h 12; RLit ":";
          d 4; RLit "-"; d 2; RLit "-"; d 2; RLit "T"].

Definition isValidSHA256 (s : string) : bool := MatchFull hexRe s.
Definition isValidLockFormat (s : string) : bool := MatchPrefix lockRe s.

Definition isValidHost (host : string) : bool :=
  match ParseIP host with
  | Some _ => true
  | None =>
      if HasPrefix host "[" && HasSuffix host "]"
      then match ParseIP (stake (slen host - 2) (sdrop 1 host)) with Some _ => true | None => false end
      else MatchFull fqdnRe host && bool_decide (slen host <= 253)
  end.

Definition VPSProfile_Validate (p : VPSProfile) : result unit :=
  _ ← fail_if (bool_decide (Host p = "")) "state: host is required";
  _ ← fail_if (negb (isValidHost (Host p)))
        ("state: invalid host " +:+ Host p +:+ " (must be IPv4, IPv6, or FQDN)");
  _ ← fail_if (bool_decide (Port p < 0 \/ 65535 < Port p)%Z)
        ("state: port " +:+ Itoa (Port p) +:+ " out of range (0-65535)");
  _ ← fail_if (bool_decide (User p = "")) "state: user is required";
  _ ← (if decide (AuthMode p = AuthModeKey) then
         fail_if (bool_decide (PrivateKeyPath p = ""))
           "state: privateKeyPath required when authMode=key"
       else if decide (AuthMode p = AuthModePassword) then Ok tt
       else Err ("state: invalid authMode " +:+ AuthMode p));
  _ ← fail_if (bool_decide (ComposeHash p <> "") && negb (isValidSHA256 (ComposeHash p)))
        "state: composeHash must be 64-char lowercase hex";
  fail_if (bool_decide (LockedBy p <> "") && negb (isValidLockFormat (LockedBy p)))
    "state: lockedBy must be <UUID>:<ISO-8601> or empty".

Definition DefaultPort (p : VPSProfile) : Z := if decide (Port p = 0)%Z then 22%Z else Port p.

Section Plan.
(** [uuid.Parse] of github.com/google/uuid: its error, if any. *)
Context (uuid_Parse : string -> option string).

Definition MigrationPlan_Validate (m : MigrationPlan) : result unit :=
  _ ← fail_if (bool_decide (ID m = "")) "state: migration id is required";
  _ ← match uuid_Parse (ID m) with
      | Some e => Err ("state: migration id must be valid UUIDv4: " +:+ e)
      | None => Ok tt
      end;
  _ ← fail_if (bool_decide (SourceVPS m = "")) "state: sourceVPS is required";
  _ ← fail_if (bool_decide (TargetVPS m = "")) "state: targetVPS is required";
  _ ← fail_if (bool_decide (SourceVPS m = TargetVPS m))
        "state: sourceVPS and targetVPS must be different";
  fail_if (bool_decide (DNSTtlSeconds m < 60 \/ 3600 < DNSTtlSeconds m)%Z)
    ("state: dnsTtlSeconds " +:+ Itoa (DNSTtlSeconds m) +:+ " out of range (60-3600)").
End Plan.

(** ** The files *)

(** [path] is [dir/base]; what is marshalled is [data]. *)
Definition atomicWriteJSON (dir base : string) (v : string + string) : eff World unit :=
  let path := dir +:+ "/" +:+ base in
  _ ← wrap "state: create dir: " (MkdirAll dir);
  data ← marshalled "state: marshal: " v;
  tmpName ← wrap "state: create temp: " (CreateTemp (path +:+ ".") ".tmp");
  _ ← or_cleanup (WriteTo tmpName data) "state: write temp: " [CloseFile tmpName; Remove tmpName];
  _ ← or_cleanup (Sync tmpName) "state: sync temp: " [CloseFile tmpName; Remove tmpName];
  _ ← or_cleanup (CloseFile tmpName) "state: close temp: " [Remove tmpName];
  _ ← or_cleanup (Chmod tmpName) "state: chmod temp: " [Remove tmpName];
  or_cleanup (Rename tmpName path) ("state: rename " +:+ tmpName +:+ " -> " +:+ path +:+ ": ")
             [Remove tmpName].

(** [encoding/json] on the two records. *)
Class StateCodec := {
  profile_marshal : VPSProfile -> string + string;
  profile_unmarshal : string -> result VPSProfile;
  plan_marshal : MigrationPlan -> string + string;
  plan_unmarshal : string -> result MigrationPlan
}.

Section Files.
Context `{StateCodec} (uuid_Parse : string -> option string).
(** [config.ConfigDir()] *)
Context (config_dir : result string).

Definition VPSProfilePath : result string := dir ← config_dir; Ok (dir +:+ "/vps.json").
Definition MigrationPlanPath : result string := dir ← config_dir; Ok (dir +:+ "/migration.json").

(** Reading and parsing a file; a missing file is [nil]. *)
Definition LoadVPSProfile : eff World (option VPSProfile) :=
  path ← lift VPSProfilePath;
  r ← ReadFile path;
  match r with
  | NotExist => mret None
  | ReadError e => throw ("state: read vps.json: " +:+ e)
  | Contents data =>
      p ← lift (wrap_err "state: parse vps.json: " (profile_unmarshal data)); mret (Some p)
  end.

Definition SaveVPSProfile (profile : VPSProfile) : eff World unit :=
  _ ← lift (VPSProfile_Validate profile);
  _ ← lift VPSProfilePath;
  dir ← lift config_dir;
  atomicWriteJSON dir "vps.json" (profile_marshal profile).

Definition LoadMigrationPlan : eff World (option MigrationPlan) :=
  path ← lift MigrationPlanPath;
  r ← ReadFile path;
  match r with
  | NotExist => mret None
  | ReadError e => throw ("state: read migration.json: " +:+ e)
  | Contents data =>
      p ← lift (wrap_err "state: parse migration.json: " (plan_unmarshal data)); mret (Some p)
  end.

Definition SaveMigrationPlan (plan : MigrationPlan) : eff World unit :=
  _ ← lift (MigrationPlan_Validate uuid_Parse plan);
  _ ← lift MigrationPlanPath;
  dir ← lift config_dir;
  atomicWriteJSON dir "migration.json" (plan_marshal plan).

Definition DeleteMigrationPlan : eff World unit :=
  path ← lift MigrationPlanPath;
  wrap "state: remove migration.json: " (RemoveIfExists path).
End Files.

(** ** Host names, label by label *)

(** A DNS label: letters, digits and inner dashes, at most 63 bytes. *)
Definition label_ok (w : string) : bool :=
  str_all alnum_dash w && bool_decide (1 <= slen w <= 63) &&
  match w with String c _ => is_alnum c | EmptyString => false end &&
  match last_byte w with Some c => is_alnum c | None => false end.

Lemma alnum_is_alnum_dash c : is_alnum c = true -> alnum_dash c = true.
Proof. unfold alnum_dash. by intros ->. Qed.

Lemma last_byte_split w c :
  last_byte w = Some c -> exists u, w = u +:+ String c EmptyString.
Proof.
  induction w as [|a w IH]; [done|]. simpl.
  destruct (last_byte w) as [b|] eqn:Hb.
  - intros [= ->]. destruct (IH eq_refl) as [u ->]. by exists (String a u).
  - intros [= ->]. destruct w; [by exists EmptyString|].
    simpl in Hb. by destruct (last_byte w).
Qed.

Lemma labelRe_spec w : lang labelRe w <-> label_ok w = true.
Proof.
  unfold labelRe, label_ok. rewrite !andb_true_iff, bool_decide_eq_true. split.
  - intros (s1 & s2 & -> & (c & -> & Hc)%lang_cls_inv & Hr)%lang_cat_inv. simpl.
    apply lang_opt in Hr as [Hr| ->].
    + apply lang_cat_inv in Hr as (m & e & -> & [Hm Hl]%lang_upto_cls & (d & -> & Hd)%lang_cls_inv).
      rewrite str_all_app, Hm. simpl. rewrite Hc, alnum_is_alnum_dash, alnum_is_alnum_dash by done.
      rewrite (last_byte_app m (String d EmptyString) d eq_refl), Hd.
      split_and!; try done; unfold slen in *; simpl; rewrite ?length_app; simpl;
        pose proof (slen_app m (String d "")) as Hs; unfold slen in Hs; simpl in Hs; lia.
    + simpl. rewrite Hc, alnum_is_alnum_dash by done. split_and!; try done; unfold slen; simpl; lia.
  - intros [[[Hall Hlen] Hf] Hlast]. destruct w as [|c w]; [done|].
    apply lang_cat_inv. exists (String c EmptyString), w.
    split_and!; [done|by constructor|]. apply lang_opt. simpl in Hall, Hlast.
    apply andb_true_iff in Hall as [_ Hall].
    destruct (last_byte w) as [d|] eqn:Hd.
    + left. destruct (last_byte_split _ _ Hd) as [u ->].
      rewrite str_all_app in Hall. apply andb_true_iff in Hall as [Hu _].
      apply lang_cat_inv. exists u, (String d EmptyString).
      split_and!; [done| |by constructor]. apply lang_upto_cls. split; [done|].
      assert (slen (u +:+ String d "") <= 62) by (unfold slen in *; simpl in Hlen; lia).
      rewrite slen_app in *. unfold slen in *. simpl in *. lia.
    + right. destruct w; [done|]. simpl in Hd. by destruct (last_byte w).
Qed.

Lemma label_free_dot w : label_ok w = true -> free_of "." w = true.
Proof.
  unfold label_ok. rewrite !andb_true_iff. intros [[[H _] _] _]. revert H.
  apply str_all_impl. intros c. unfold alnum_dash, is_alnum.
  destruct (decide (c = "."%char)) as [->|Hne]; [done|]. intros _. by apply negb_true_iff, bool_decide_eq_false.
Qed.

Lemma sep_Join c w ws :
  w +:+ foldr (fun w t => String c (w +:+ t)) EmptyString ws = Join (w :: ws) c.
Proof.
  revert w. induction ws as [|v ws IH]; intros w; simpl; [apply sapp_nil_r|].
  by rewrite IH.
Qed.

Lemma Forall_label ws : Forall (lang labelRe) ws <-> Forall (fun w => label_ok w = true) ws.
Proof. split; intros H; (eapply Forall_impl; [|exact H]); intros w; apply labelRe_spec. Qed.

Lemma fqdnRe_spec s : MatchFull fqdnRe s = true <-> Forall (fun w => label_ok w = true) (Split s ".").
Proof.
  unfold MatchFull, fqdnRe. rewrite matches_lang, lang_cat_inv. split.
  - intros (w & t & -> & Hw%labelRe_spec & (ws & Hws%Forall_label & ->)%lang_star_sep).
    rewrite sep_Join, Split_Join; [by constructor|done|].
    constructor; [by apply label_free_dot|].
    eapply Forall_impl; [|exact Hws]. apply label_free_dot.
  - intros H. pose proof (Join_Split s ".") as E.
    pose proof (Split_nonempty s ".") as Hne. destruct (Split s ".") as [|w ws]; [done|]. clear Hne.
    apply Forall_cons_1 in H as [Hw Hws]. exists w, (foldr (fun w t => String "." (w +:+ t)) EmptyString ws).
    split_and!; [by rewrite sep_Join|by apply labelRe_spec|]. apply lang_star_sep. exists ws.
    by rewrite Forall_label.
Qed.

Lemma fqdnRe_head s :
  lang fqdnRe s -> exists c s', s = String c s' /\ is_alnum c = true.
Proof.
  intros (w & t & -> & Hw%labelRe_spec & _)%lang_cat_inv. unfold label_ok in Hw.
  destruct w as [|c w]; [done|]. exists c, (w +:+ t). split; [done|].
  rewrite !andb_true_iff in Hw. tauto.
Qed.

(** ** The files hold valid records, whatever call fails *)

Class StateCodecLaws `{StateCodec} : Prop := {
  profile_roundtrip p data : profile_marshal p = inr data -> profile_unmarshal data = Ok p;
  plan_roundtrip p data : plan_marshal p = inr data -> plan_unmarshal data = Ok p
}.

Section Stored.
Context `{StateCodecLaws} (uuid_Parse : string -> option string) (dir : string).

Definition vps_json : string := dir +:+ "/vps.json".
Definition migration_json : string := dir +:+ "/migration.json".

Lemma file_tmp_ne base r path d :
  last_byte path = Some d -> d <> "p"%char ->
  ((dir +:+ "/" +:+ base) +:+ ".") +:+ r +:+ ".tmp" <> path.
Proof.
  intros Hd Hne. eapply (tmp_ne _ _ _ _ "p"%char d); [done|exact Hd|by intros <-].
Qed.

Lemma atomicWriteJSON_atomic base data d w :
  last_byte (dir +:+ "/" +:+ base) = Some d -> d <> "p"%char ->
  atomic_at (dir +:+ "/" +:+ base) data w (atomicWriteJSON dir base (inr data)).
Proof.
  intros Hd Hp. unfold atomicWriteJSON. cbv zeta. atomic_next.
  apply atomic_bind; [apply keeps_const|done|]. intros x w' [= <- <-].
  apply atomic_bind; [apply keeps_wrap, keeps_CreateTemp; intros r; by eapply file_tmp_ne
                     |apply no_panic_wrap, no_panic_CreateTemp|].
  intros tmp w1 Etmp. apply wrap_ok_inv in Etmp.
  assert (Hne : tmp <> dir +:+ "/" +:+ base).
  { unfold CreateTemp in Etmp. cbv zeta in Etmp.
    repeat case_match; simplify_eq/=; by eapply file_tmp_ne. }
  clear Etmp. atomic_next. apply write_ok in E0 as Htmp.
  atomic_next. apply or_cleanup_ok, (keeps_files tmp _ _ _ _ (keeps_id tmp)) in E1.
  atomic_next. apply or_cleanup_ok, (keeps_files tmp _ _ _ _ (keeps_id tmp)) in E2.
  atomic_next. apply or_cleanup_ok, (keeps_files tmp _ _ _ _ (keeps_id tmp)) in E3.
  apply atomic_rename; [congruence|done|]. constructor; [by apply keeps_Remove|done].
Qed.

(** A value that cannot be encoded is not written. *)
Lemma unencoded_keeps base e path : keeps path (atomicWriteJSON dir base (inl e)).
Proof.
  unfold atomicWriteJSON. cbv zeta. apply keeps_bind; [auto with fs|intros _].
  intros w. exact (keeps_const path (Err ("state: marshal: " +:+ e) : result unit) w).
Qed.

Lemma unencoded_fails base e w : exists e', fst (atomicWriteJSON dir base (inl e) w) = Err e'.
Proof.
  unfold atomicWriteJSON, wrap, MkdirAll, syscall, marshalled, mbind, eff_bind.
  destruct (next_outcome w); cbn; eauto.
Qed.

(** What the two files may hold. *)
Definition good_profile (o : option string) : Prop :=
  match o with
  | None => True
  | Some data => exists p, profile_marshal p = inr data /\ VPSProfile_Validate p = Ok tt
  end.
Definition good_plan (o : option string) : Prop :=
  match o with
  | None => True
  | Some data => exists m, plan_marshal m = inr data /\ MigrationPlan_Validate uuid_Parse m = Ok tt
  end.
Definition disk_ok (d : gmap string string) : Prop :=
  good_profile (d !! vps_json) /\ good_plan (d !! migration_json).

(** A call that keeps both files good. *)
Definition keeps_ok {A} (m : eff World A) : Prop :=
  safe_at vps_json good_profile m /\ safe_at migration_json good_plan m.

Lemma vps_last : last_byte vps_json = Some "n"%char.
Proof. unfold vps_json. by apply last_byte_app. Qed.
Lemma migration_last : last_byte migration_json = Some "n"%char.
Proof. unfold migration_json. by apply last_byte_app. Qed.
Lemma two_files : vps_json <> migration_json.
Proof. unfold vps_json, migration_json. by intros ?%sapp_inj_l. Qed.

Lemma CreateTemp_name pre suf w r w' :
  CreateTemp pre suf w = (Ok r, w') -> exists x, r = pre +:+ x +:+ suf.
Proof. unfold CreateTemp. cbv zeta. repeat case_match; intros [= <- _]; eauto. Qed.

(** An atomic write leaves the other files alone. *)
Lemma atomicWriteJSON_keeps base v path d :
  last_byte path = Some d -> d <> "p"%char -> dir +:+ "/" +:+ base <> path ->
  keeps path (atomicWriteJSON dir base v).
Proof.
  intros Hd Hp Hne. unfold atomicWriteJSON. cbv zeta.
  set (pre := (dir +:+ "/" +:+ base) +:+ ".").
  assert (Hrest : forall data tmp, tmp <> path ->
    keeps path (_ ← or_cleanup (WriteTo tmp data) "state: write temp: " [CloseFile tmp; Remove tmp];
      _ ← or_cleanup (Sync tmp) "state: sync temp: " [CloseFile tmp; Remove tmp];
      _ ← or_cleanup (CloseFile tmp) "state: close temp: " [Remove tmp];
      _ ← or_cleanup (Chmod tmp) "state: chmod temp: " [Remove tmp];
      or_cleanup (Rename tmp (dir +:+ "/" +:+ base))
        ("state: rename " +:+ tmp +:+ " -> " +:+ (dir +:+ "/" +:+ base) +:+ ": ") [Remove tmp]))
    by (intros data tmp Htmp; auto 20 with fs).
  apply keeps_bind; [auto with fs|intros _].
  apply keeps_bind; [apply keeps_const|intros data].
  intros w. pose proof (keeps_wrap path "state: create temp: " (CreateTemp pre ".tmp")
    (keeps_CreateTemp _ _ _ (fun r => file_tmp_ne base r path d Hd Hp)) w) as (Hf & ds & Hds & Hall).
  unfold mbind, eff_bind. destruct (wrap _ _ w) as [[tmp|e|e] w1] eqn:E; simpl in *; eauto.
  apply wrap_ok_inv, CreateTemp_name in E as [x ->].
  destruct (Hrest data _ (file_tmp_ne base x path d Hd Hp) w1) as (Hf' & ds' & Hds' & Hall').
  split; [etrans; [exact Hf'|exact Hf]|]. exists (ds ++ ds'). split.
  - etrans; [exact Hds'|]. by rewrite Hds, app_assoc.
  - apply Forall_app. split; [done|]. by rewrite <- Hf.
Qed.

Lemma SaveVPSProfile_ok p : keeps_ok (SaveVPSProfile (Ok dir) p).
Proof.
  unfold SaveVPSProfile. destruct (VPSProfile_Validate p) as [[]|e|e] eqn:Hv;
    [|split; apply keeps_safe_at, keeps_const..]. split.
  - destruct (profile_marshal p) as [e|data] eqn:Hm; [apply keeps_safe_at, unencoded_keeps|].
    eapply atomic_safe_at; [|by exists p]. intros w. by apply (atomicWriteJSON_atomic _ _ _ _ vps_last).
  - by apply keeps_safe_at, (atomicWriteJSON_keeps _ _ _ _ migration_last), two_files.
Qed.

Lemma SaveMigrationPlan_ok m : keeps_ok (SaveMigrationPlan uuid_Parse (Ok dir) m).
Proof.
  unfold SaveMigrationPlan. destruct (MigrationPlan_Validate uuid_Parse m) as [[]|e|e] eqn:Hv;
    [|split; apply keeps_safe_at, keeps_const..]. split.
  - apply keeps_safe_at, (atomicWriteJSON_keeps _ _ _ _ vps_last); [done|].
    apply not_eq_sym, two_files.
  - destruct (plan_marshal m) as [e|data] eqn:Hm; [apply keeps_safe_at, unencoded_keeps|].
    eapply atomic_safe_at; [|by exists m]. intros w.
    by apply (atomicWriteJSON_atomic _ _ _ _ migration_last).
Qed.

Lemma safe_at_wrap {A} path good pre (m : eff World A) :
  safe_at path good m -> safe_at path good (wrap pre m).
Proof. intros Hm w Hg. specialize (Hm w Hg). unfold wrap. by destruct (m w). Qed.

Lemma DeleteMigrationPlan_ok : keeps_ok (DeleteMigrationPlan (Ok dir)).
Proof.
  split; apply safe_at_wrap.
  - apply keeps_safe_at, keeps_RemoveIfExists, not_eq_sym, two_files.
  - by apply safe_at_RemoveIfExists.
Qed.

Lemma SaveVPSProfile_outcome p w :
  match SaveVPSProfile (Ok dir) p w with
  | (Ok _, w') => VPSProfile_Validate p = Ok tt /\ exists data, profile_marshal p = inr data /\ files w' !! vps_json = Some data
  | (Err _, w') => files w' !! vps_json = files w !! vps_json
  | (Panic _, _) => False
  end.
Proof.
  unfold SaveVPSProfile.
  assert (Hnp : calm (VPSProfile_Validate p)).
  { unfold VPSProfile_Validate. repeat (apply calm_bind; [|intros _]); auto with unet.
    destruct (decide _); [auto with unet|]. by destruct (decide _). }
  destruct (VPSProfile_Validate p) as [[]|e|e] eqn:Hv; [|done|by destruct (Hnp e)].
  unfold mbind, eff_bind, lift. simpl.
  destruct (profile_marshal p) as [e|data] eqn:Hm.
  - destruct (unencoded_fails "vps.json" e w) as [e' He], (unencoded_keeps "vps.json" e vps_json w) as [Hf _].
    destruct (atomicWriteJSON _ _ _ w) as [r w']. cbn in *. by subst r.
  - destruct (atomicWriteJSON_atomic "vps.json" data _ w vps_last ltac:(done)) as [Hr _].
    destruct (atomicWriteJSON _ _ _ w) as [[[]|e|e] w'] eqn:E; eauto.
Qed.

(** What a load finds; it changes no file. *)
Lemma LoadVPSProfile_spec w :
  keeps_ok (LoadVPSProfile (Ok dir)) /\
  match next_outcome w, files w !! vps_json with
  | Some e, _ => fst (LoadVPSProfile (Ok dir) w) = Err ("state: read vps.json: " +:+ f_err e)
  | None, None => fst (LoadVPSProfile (Ok dir) w) = Ok None
  | None, Some data => fst (LoadVPSProfile (Ok dir) w) =
      p ← wrap_err "state: parse vps.json: " (profile_unmarshal data); Ok (Some p)
  end.
Proof.
  assert (Hk : forall path, keeps path (LoadVPSProfile (Ok dir))).
  { intros path. apply keeps_bind; [apply keeps_const|intros p].
    apply keeps_bind; [apply keeps_ReadFile|]. intros [data| |e]; try apply keeps_const.
    apply keeps_bind; [apply keeps_const|intros; apply keeps_const]. }
  split; [split; apply keeps_safe_at, Hk|].
  unfold LoadVPSProfile, ReadFile, mbind, eff_bind. simpl. fold vps_json.
  destruct (next_outcome w); [done|]. destruct (files w !! vps_json); [|done]. simpl.
  by destruct (profile_unmarshal _).
Qed.

Lemma LoadMigrationPlan_spec w :
  keeps_ok (LoadMigrationPlan (Ok dir)) /\
  match next_outcome w, files w !! migration_json with
  | Some e, _ => fst (LoadMigrationPlan (Ok dir) w) = Err ("state: read migration.json: " +:+ f_err e)
  | None, None => fst (LoadMigrationPlan (Ok dir) w) = Ok None
  | None, Some data => fst (LoadMigrationPlan (Ok dir) w) =
      p ← wrap_err "state: parse migration.json: " (plan_unmarshal data); Ok (Some p)
  end.
Proof.
  assert (Hk : forall path, keeps path (LoadMigrationPlan (Ok dir))).
  { intros path. apply keeps_bind; [apply keeps_const|intros p].
    apply keeps_bind; [apply keeps_ReadFile|]. intros [data| |e]; try apply keeps_const.
    apply keeps_bind; [apply keeps_const|intros; apply keeps_const]. }
  split; [split; apply keeps_safe_at, Hk|].
  unfold LoadMigrationPlan, ReadFile, mbind, eff_bind. simpl. fold migration_json.
  destruct (next_outcome w); [done|]. destruct (files w !! migration_json); [|done]. simpl.
  by destruct (plan_unmarshal _).
Qed.

(** One call of the package, or a crash: the machine comes back with the disk
    of some moment. *)
Inductive state_step (w : World) : World -> Prop :=
  | st_save_profile p : state_step w (snd (SaveVPSProfile (Ok dir) p w))
  | st_load_profile : state_step w (snd (LoadVPSProfile (Ok dir) w))
  | st_save_plan m : state_step w (snd (SaveMigrationPlan uuid_Parse (Ok dir) m w))
  | st_load_plan : state_step w (snd (LoadMigrationPlan (Ok dir) w))
  | st_delete_plan : state_step w (snd (DeleteMigrationPlan (Ok dir) w))
  | st_crash d os ds : d ∈ files w :: disks w -> state_step w (reboot d os ds).

Definition world_ok (w : World) : Prop := Forall disk_ok (files w :: disks w).

Lemma keeps_ok_world {A} (m : eff World A) w : keeps_ok m -> world_ok w -> world_ok (snd (m w)).
Proof.
  intros [H1 H2] [[Hp Hm] Hds]%Forall_cons_1.
  destruct (H1 w Hp) as (Hf & ds & Hd & Hall), (H2 w Hm) as (Hf' & ds' & Hd' & Hall').
  constructor; [by split|]. rewrite Hd. apply Forall_app. split; [done|].
  assert (ds' = ds) as -> by (apply (app_inv_head (disks w)); congruence).
  rewrite !Forall_forall in *. intros d Hin. split; auto.
Qed.

Lemma state_step_ok w w' : world_ok w -> state_step w w' -> world_ok w'.
Proof.
  intros Hw Hst. destruct Hst as [p| |m| | |d os ds Hd].
  - by apply keeps_ok_world; [apply SaveVPSProfile_ok|].
  - apply keeps_ok_world; [by destruct (LoadVPSProfile_spec w)|done].
  - by apply keeps_ok_world; [apply SaveMigrationPlan_ok|].
  - apply keeps_ok_world; [by destruct (LoadMigrationPlan_spec w)|done].
  - by apply keeps_ok_world; [apply DeleteMigrationPlan_ok|].
  - constructor; [|constructor]. unfold world_ok in Hw. rewrite List.Forall_forall in Hw.
    by apply Hw, list_elem_of_In.
Qed.

Lemma world_ok_star w w' : world_ok w -> star state_step w w' -> world_ok w'.
Proof. apply star_inv_ind, state_step_ok. Qed.

(** C17: whatever the package is asked to do, whichever of its system calls
    fail (a failed write leaves a prefix) and wherever the machine stops and
    starts again, a load never finds a torn or unparsable file: it answers an
    I/O error, no record, or a record that passes validation. *)
Theorem loaded_records_valid w0 w :
  files w0 !! vps_json = None -> files w0 !! migration_json = None -> disks w0 = [] ->
  star state_step w0 w ->
  match fst (LoadVPSProfile (Ok dir) w) with
  | Ok None => True
  | Ok (Some p) => VPSProfile_Validate p = Ok tt
  | Err e => exists io, e = "state: read vps.json: " +:+ io
  | Panic _ => False
  end /\
  match fst (LoadMigrationPlan (Ok dir) w) with
  | Ok None => True
  | Ok (Some m) => MigrationPlan_Validate uuid_Parse m = Ok tt
  | Err e => exists io, e = "state: read migration.json: " +:+ io
  | Panic _ => False
  end.
Proof.
  intros H1 H2 H3 Hst. apply world_ok_star in Hst as [[Hp Hm] _]%Forall_cons_1.
  - destruct (LoadVPSProfile_spec w) as [_ Hlp], (LoadMigrationPlan_spec w) as [_ Hlm].
    unfold good_profile, good_plan in *.
    destruct (next_outcome w) as [e|]; [rewrite Hlp, Hlm; eauto|]. split.
    + destruct (files w !! vps_json) as [data|]; rewrite Hlp; [|done].
      destruct Hp as (p & Hm1 & Hp). by rewrite (profile_roundtrip _ _ Hm1).
    + destruct (files w !! migration_json) as [data|]; rewrite Hlm; [|done].
      destruct Hm as (m & Hm1 & Hm). by rewrite (plan_roundtrip _ _ Hm1).
  - unfold world_ok. rewrite H3. constructor; [|constructor]. unfold disk_ok. by rewrite H1, H2.
Qed.

(** A save that reports success is what the next load answers; a save
    that reports an error has left the stored profile as it was, and a profile
    that fails validation is never written. *)
Theorem save_then_load p w :
  let w' := snd (SaveVPSProfile (Ok dir) p w) in
  match fst (SaveVPSProfile (Ok dir) p w) with
  | Ok _ => VPSProfile_Validate p = Ok tt /\
            (next_outcome w' = None -> fst (LoadVPSProfile (Ok dir) w') = Ok (Some p))
  | Err _ => files w' !! vps_json = files w !! vps_json
  | Panic _ => False
  end.
Proof.
  pose proof (SaveVPSProfile_outcome p w) as Ho. cbv zeta.
  destruct (SaveVPSProfile (Ok dir) p w) as [[[]|e|e] w'] eqn:E; simpl in *; [|done..].
  destruct Ho as (Hv & data & Hm & Hf). split; [done|]. intros Hn.
  destruct (LoadVPSProfile_spec w') as [_ Hl]. by rewrite Hn, Hf, (profile_roundtrip _ _ Hm) in Hl.
Qed.
End Stored.

(** A host name is accepted exactly when it is an IP address, an IP
    address in brackets, or at most 253 bytes of labels between dots, each of 1
    to 63 letters, digits and dashes without a dash at either end. *)
Theorem isValidHost_labels host :
  isValidHost host = true <->
  ParseIP host <> None \/
  (exists a, host = "[" +:+ a +:+ "]" /\ ParseIP a <> None) \/
  (slen host <= 253 /\ Forall (fun w => label_ok w = true) (Split host ".")).
Proof.
  unfold isValidHost. destruct (ParseIP host) as [ip|]; [split; [by left|done]|].
  destruct (HasPrefix host "[" && HasSuffix host "]") eqn:Hb.
  - apply andb_true_iff in Hb as [(r & ->)%HasPrefix_spec [a Ha]%HasSuffix_spec].
    destruct a as [|x a]; [done|]. simpl in Ha. injection Ha as <- ->.
    assert (stake (slen ("[" +:+ a +:+ "]") - 2) (sdrop 1 ("[" +:+ a +:+ "]")) = a) as ->.
    { rewrite !slen_app. change (sdrop 1 _) with (a +:+ "]").
      replace (slen "[" + (slen a + slen "]") - 2) with (slen a) by (unfold slen; simpl; lia).
      apply stake_app. }
    split.
    + intros Hip. right. left. exists a. by destruct (ParseIP a).
    + intros [?|[(a' & [= E] & Hip)|[_ Hl]]]; [done| |].
      * apply sapp_inj_r in E as ->. by destruct (ParseIP a').
      * apply fqdnRe_spec, matches_lang, fqdnRe_head in Hl as (c & s & [= <- _] & Hc). done.
  - rewrite andb_true_iff, fqdnRe_spec, bool_decide_eq_true. split; [naive_solver|].
    intros [?|[(a & -> & _)|?]]; [done| |tauto]. exfalso.
    assert (HasSuffix ("[" +:+ a +:+ "]") "]" = true) as Hs
      by (apply HasSuffix_spec; by exists ("[" +:+ a)). by rewrite Hs in Hb.
Qed.

(** ** An instance of the interface *)

Definition profile_fields (x : VPSProfile) : list positive :=
  [encode (Host x); encode (Port x); encode (User x); encode (AuthMode x);
  encode (PrivateKeyPath x); encode (KnownGoodVersion x); encode (LastSeenAt x);
  encode (Status x); encode (ComposeHash x); encode (WGEndpoint x);
  encode (WGServerPublicKey x); encode (TunnelSubnet x); encode (LockedBy x)].
Definition profile_of_fields (l : list positive) : option VPSProfile :=
  match l with
  | [x0; x1; x2; x3; x4; x5; x6; x7; x8; x9; x10; x11; x12] =>
      x0 ← decode x0; x1 ← decode x1; x2 ← decode x2; x3 ← decode x3; x4 ← decode x4;
      x5 ← decode x5; x6 ← decode x6; x7 ← decode x7; x8 ← decode x8; x9 ← decode x9;
      x10 ← decode x10; x11 ← decode x11; x12 ← decode x12;
      Some {| Host := x0; Port := x1; User := x2; AuthMode := x3; PrivateKeyPath := x4;
              KnownGoodVersion := x5; LastSeenAt := x6; Status := x7; ComposeHash := x8;
              WGEndpoint := x9; WGServerPublicKey := x10; TunnelSubnet := x11;
              LockedBy := x12 |}
  | _ => None
  end.
#[export] Instance profile_eq_dec : EqDecision VPSProfile.
Proof. solve_decision. Defined.
#[export] Instance profile_countable : Countable VPSProfile.
Proof. apply (inj_countable profile_fields profile_of_fields). by_fields profile_fields profile_of_fields. Defined.

Definition plan_fields (x : MigrationPlan) : list positive :=
  [encode (ID x); encode (SourceVPS x); encode (TargetVPS x); encode (DNSTtlSeconds x);
  encode (CutoverAt x); encode (MStatus x); encode (SnapshotID x); encode (StartedAt x);
  encode (CompletedAt x); encode (Error x)].
Definition plan_of_fields (l : list positive) : option MigrationPlan :=
  match l with
  | [x0; x1; x2; x3; x4; x5; x6; x7; x8; x9] =>
      x0 ← decode x0; x1 ← decode x1; x2 ← decode x2; x3 ← decode x3; x4 ← decode x4;
      x5 ← decode x5; x6 ← decode x6; x7 ← decode x7; x8 ← decode x8; x9 ← decode x9;
      Some {| ID := x0; SourceVPS := x1; TargetVPS := x2; DNSTtlSeconds := x3;
              CutoverAt := x4; MStatus := x5; SnapshotID := x6; StartedAt := x7;
              CompletedAt := x8; Error := x9 |}
  | _ => None
  end.
#[export] Instance plan_eq_dec : EqDecision MigrationPlan.
Proof. solve_decision. Defined.
#[export] Instance plan_countable : Countable MigrationPlan.
Proof. apply (inj_countable plan_fields plan_of_fields). by_fields plan_fields plan_of_fields. Defined.

Definition or_bad {A} (o : option A) : result A :=
  match o with Some a => Ok a | None => Err "invalid JSON" end.

Definition count_codec : StateCodec :=
  {| profile_marshal p := inr (count_enc p); profile_unmarshal s := or_bad (count_dec s);
     plan_marshal p := inr (count_enc p); plan_unmarshal s := or_bad (count_dec s) |}.

Lemma count_codec_laws : @StateCodecLaws count_codec.
Proof.
  constructor; intros x data; cbn [profile_unmarshal profile_marshal plan_unmarshal plan_marshal count_codec];
    intros [= <-]; by rewrite count_dec_enc.
Qed.

Definition uuid_by_length (s : string) : option string :=
  if decide (slen s = 36) then None else Some "invalid UUID length".

Definition host1 : VPSProfile :=
  {| Host := "vps.example.com"; Port := 2222; User := "root"; AuthMode := "password";
     PrivateKeyPath := ""; KnownGoodVersion := "0.3.0"; LastSeenAt := ""; Status := "active";
     ComposeHash := ""; WGEndpoint := ""; WGServerPublicKey := ""; TunnelSubnet := "";
     LockedBy := "" |}.

(** The write of the second save fails after three bytes. *)
Definition torn_world : World :=
  {| files := ∅; draws := []; disks := [];
     outcomes := replicate 7 None ++ [None; None; Some {| f_err := "no space"; f_written := 3 |}] |}.

Lemma loaded_records_valid_witness :
  let save := @SaveVPSProfile count_codec (Ok "d") in
  let w := snd (save host1 (snd (save host1 torn_world))) in
  match fst (@LoadVPSProfile count_codec (Ok "d") w) with
  | Ok (Some p) => VPSProfile_Validate p = Ok tt
  | Ok None => True
  | Err e => exists io, e = "state: read vps.json: " +:+ io
  | Panic _ => False
  end.
Proof.
  intros save w.
  assert (star (state_step (H := count_codec) uuid_by_length "d") torn_world w) as Hst
    by (eapply star_snoc; [eapply star_snoc; [apply star_nil|]|]; apply st_save_profile).
  clearbody w.
  exact (proj1 (loaded_records_valid (H0 := count_codec_laws) uuid_by_length "d" torn_world w
    (lookup_empty _) (lookup_empty _) eq_refl Hst)).
Defined.

Lemma save_then_load_witness :
  let w := snd (@SaveVPSProfile count_codec (Ok "d") host1 torn_world) in
  fst (@SaveVPSProfile count_codec (Ok "d") host1 torn_world) = Ok tt /\
  fst (@LoadVPSProfile count_codec (Ok "d") w) = Ok (Some host1).
Proof.
  pose proof (save_then_load (H0 := count_codec_laws) uuid_by_length "d" host1 torn_world) as Ht.
  cbv zeta in *.
  assert (fst (@SaveVPSProfile count_codec (Ok "d") host1 torn_world) = Ok tt) as E by (vm_compute; reflexivity).
  split; [exact E|]. rewrite E in Ht. apply Ht. vm_compute. reflexivity.
Defined.
