(* ===== verification/Detect.v ===== *)
(** * lifecycle/compose and lifecycle/detect: what is installed on a host

    The compose file rendered from its embedded template, the comparison of
    versions, the probes that classify a host, and the drift check with its
    line diff.  SHA-256 is a parameter.  A probe is a command on a session of
    [SSH]; the time limits are outcomes of the commands. *)

From S2P Require Import Prelude GoLib ServerConfig SSH.

(** A command and a script on a session: the output next to the error. *)
Definition run {E} `{GoSSH E} (s : nat) (cmd : string) : eff E (string * option string) :=
  fun e => let '(r, e') := Run s cmd e in (Ok r, e').
Definition run_script {E} `{GoSSH E} (s : nat) (script : string)
  : eff E (string * string * option string) :=
  fun e => let '(r, e') := RunScript s script e in (Ok r, e').

(** ** compose/compose.go *)

Record RenderConfig := { AWGPort : Z; ManualDNS : bool; CaddyImage : string }.

Definition DefaultCaddyImage : string := "caddy:2-alpine".

(** Lines, each ended by a newline; [~] stands for a double quote. *)
Definition text_lines (l : list string) : string :=
  foldr (fun line t => line +:+ nls +:+ t) EmptyString l.
Definition quoted (s : string) : string := ReplaceAll s "~" dquote.

(** templates/docker-compose.yml.tmpl, executed. *)
Definition composeTmpl (cfg : RenderConfig) : string :=
  text_lines ["services:"; "  unet-net-pause:"; "    image: busybox:1.36-uclibc";
    "    container_name: unet-net-pause"; quoted "    command: [~sleep~, ~infinity~]";
    "    ports:"] +:+
  quoted "      - ~" +:+ Itoa (AWGPort cfg) +:+ ":" +:+ Itoa (AWGPort cfg) +:+ quoted "/udp~" +:+ nls +:+
  quoted "      - ~443:443/tcp~" +:+
  (if ManualDNS cfg then nls +:+ quoted "      - ~80:80/tcp~" else "") +:+ nls +:+
  text_lines ["    restart: unless-stopped"; ""; "  unet-amnezia-awg:"; "    build:";
    "      context: ."; "      dockerfile: Dockerfile"; "    image: unet/amnezia-awg:local";
    "    container_name: unet-amnezia-awg"; quoted "    network_mode: ~service:unet-net-pause~";
    "    depends_on:"; "      - unet-net-pause"; "    cap_add:"; "      - NET_ADMIN";
    "      - SYS_MODULE"; "    sysctls:"; "      - net.ipv4.ip_forward=1";
    "      - net.ipv6.conf.all.forwarding=1"; "    volumes:";
    "      - amnezia-awg-state:/opt/amnezia/awg"; "      - /lib/modules:/lib/modules:ro";
    "    restart: unless-stopped"; ""; "  unet-caddy:"] +:+
  "    image: " +:+ CaddyImage cfg +:+ nls +:+
  text_lines ["    container_name: unet-caddy"; quoted "    network_mode: ~service:unet-net-pause~";
    "    depends_on:"; "      - unet-net-pause"; "    volumes:"; "      - caddy-data:/data";
    "      - caddy-config:/config"; "    restart: unless-stopped"; ""; "volumes:";
    "  amnezia-awg-state:"; "  caddy-data:"; "  caddy-config:"].

Definition Render (cfg : RenderConfig) : result string :=
  if decide (AWGPort cfg <= 0 \/ 65535 < AWGPort cfg)%Z
  then Err ("compose: invalid AWGPort " +:+ Itoa (AWGPort cfg) +:+ " (must be 1..65535)")
  else
    Ok (composeTmpl (if decide (CaddyImage cfg = "")
                     then {| AWGPort := AWGPort cfg; ManualDNS := ManualDNS cfg;
                             CaddyImage := DefaultCaddyImage |}
                     else cfg)).

Record DriftResult := { Match : bool; ExpectedHash : string; ActualHash : string }.

Definition DetectDrift (expectedHash actualHash : string) : result DriftResult :=
  if decide (expectedHash = "") then Err "compose: expected hash is empty"
  else Ok {| Match := bool_decide (expectedHash = actualHash); ExpectedHash := expectedHash;
             ActualHash := actualHash |}.

(** ** detect/version.go *)

Record Semver := { Major : Z; Minor : Z; Patch : Z }.

#[export] Instance Semver_eq_dec : EqDecision Semver.
Proof. solve_decision. Defined.

(** [strconv.Atoi] with its error behind a prefix. *)
Definition atoi_or (what s part : string) : result Z :=
  match Atoi part with
  | (z, None) => Ok z
  | (_, Some e) => Err ("detect: invalid " +:+ what +:+ " version in " +:+ s +:+ ": " +:+ e)
  end.

Definition ParseSemver (s : string) : result Semver :=
  let s := TrimSpace s in
  let s := match Index s "-" with Some idx => stake idx s | None => s end in
  match Split s "." with
  | [a; b] =>
      major ← atoi_or "major" s a; minor ← atoi_or "minor" s b;
      Ok {| Major := major; Minor := minor; Patch := 0 |}
  | [a; b; c] =>
      major ← atoi_or "major" s a; minor ← atoi_or "minor" s b; patch ← atoi_or "patch" s c;
      Ok {| Major := major; Minor := minor; Patch := patch |}
  | _ => Err ("detect: invalid semver " +:+ s)
  end.

Definition Semver_String (v : Semver) : string :=
  Itoa (Major v) +:+ "." +:+ Itoa (Minor v) +:+ "." +:+ Itoa (Patch v).

(** ** detect/detect.go *)

Inductive VPSState := StateBlank | StateOld | StateCurrent | StateIncompatible.

#[export] Instance VPSState_eq_dec : EqDecision VPSState.
Proof. solve_decision. Defined.

Record ClassifyResult := {
  State : VPSState; HasDocker : bool; VPSVersion : string; DaemonVersion : string;
  ComposeHashMatch : bool; VPSComposeHash : string; CExpectedHash : string;
  HasContainers : bool; HasAWGConf : bool
}.

(** The subtraction and the negation wrap. *)
Definition abs (x : Z) : Z := if decide (x < 0)%Z then wrap64 (- x) else x.

Definition classifyState (r : ClassifyResult) : VPSState :=
  if negb (HasDocker r) && bool_decide (VPSVersion r = "") then StateBlank else
  if decide (VPSVersion r = "") then StateBlank else
  match ParseSemver (VPSVersion r) with
  | Err _ | Panic _ => StateIncompatible
  | Ok vpsVer =>
      match ParseSemver (DaemonVersion r) with
      | Err _ | Panic _ => StateCurrent
      | Ok daemonVer =>
          if decide (Major vpsVer <> Major daemonVer) then StateIncompatible else
          if decide (abs (wrap64 (Minor vpsVer - Minor daemonVer)) <= 2 /\
                     Minor vpsVer <> Minor daemonVer)%Z then StateOld else
          if decide (Minor vpsVer = Minor daemonVer /\ Patch vpsVer = Patch daemonVer /\
                     ComposeHashMatch r = true) then StateCurrent else StateOld
      end
  end.

Definition VPSState_String (s : VPSState) : string :=
  match s with
  | StateBlank => "No unet installation detected (blank VPS)"
  | StateOld => "VPS running older unet version (attachable with upgrade offer)"
  | StateCurrent => "VPS running current unet version (ready for attach)"
  | StateIncompatible => "VPS running incompatible unet version (refuse attach)"
  end.

(** The output of a probe when it succeeded. *)
Definition on_success (r : string * option string) : string :=
  match r with (out, None) => TrimSpace out | _ => "" end.

Section Probes.
Context {E : Type} `{GoSSH E}.
(** SHA-256 in hexadecimal. *)
Context (Hash : string -> string).

Definition CanonicalHash : result string :=
  data ← Render {| AWGPort := 51820; ManualDNS := false; CaddyImage := "" |}; Ok (Hash data).

Definition probe_docker : string := "command -v docker 2>/dev/null".
Definition probe_version : string := "sudo cat /opt/unet/version 2>/dev/null".
Definition probe_hash : string := "sudo cat /opt/unet/.compose-hash 2>/dev/null".
Definition probe_containers : string :=
  "sudo docker ps --filter name=unet- --format '{{.Names}}' 2>/dev/null".
Definition probe_awg : string :=
  "sudo docker exec unet-amnezia-awg test -f /opt/amnezia/awg/awg0.conf 2>/dev/null".

Definition Classify (sess : nat) (daemonVersion : string) (renderCfg : RenderConfig)
  : eff E ClassifyResult :=
  dockerOut ← run sess probe_docker;
  ver ← run sess probe_version;
  hash ← run sess probe_hash;
  let expected := match Render renderCfg with Ok data => Hash data | _ => "" end in
  let vpsHash := on_success hash in
  containerOut ← run sess probe_containers;
  awg ← run sess probe_awg;
  let result := {| State := StateBlank; HasDocker := negb (bool_decide (TrimSpace (fst dockerOut) = ""));
    VPSVersion := on_success ver; DaemonVersion := daemonVersion;
    ComposeHashMatch := negb (bool_decide (vpsHash = "")) && bool_decide (vpsHash = expected);
    VPSComposeHash := vpsHash; CExpectedHash := expected;
    HasContainers := Contains (fst containerOut) "unet-";
    HasAWGConf := bool_decide (snd awg = None) |} in
  mret {| State := classifyState result; HasDocker := HasDocker result;
          VPSVersion := VPSVersion result; DaemonVersion := daemonVersion;
          ComposeHashMatch := ComposeHashMatch result; VPSComposeHash := vpsHash;
          CExpectedHash := expected; HasContainers := HasContainers result;
          HasAWGConf := HasAWGConf result |}.

(** ** detect/drift.go *)

Inductive DriftResolution := DriftNone | DriftDetected | DriftMerged | DriftRefused.

Record DriftDetail := {
  Resolution : DriftResolution; DExpectedHash : string; VPSHash : string; Diff : string
}.

(** The lines that differ at the [i]-th place; a missing line is empty. *)
Definition diff_at (cs vs : list string) (i : nat) : string :=
  let cLine := nth i cs "" in
  let vLine := nth i vs "" in
  if decide (cLine = vLine) then "" else
  (if decide (cLine = "") then "" else "- " +:+ cLine +:+ nls) +:+
  (if decide (vLine = "") then "" else "+ " +:+ vLine +:+ nls).

Definition computeDiff (canonical vps : string) : string :=
  let canonicalLines := Split canonical nl in
  let vpsLines := Split vps nl in
  let maxLen := length canonicalLines `max` length vpsLines in
  foldl (fun diff i => diff +:+ diff_at canonicalLines vpsLines i) "" (seq 0 maxLen).

Definition cat_compose : string := "sudo cat /opt/unet/docker-compose.yml 2>/dev/null".

Definition CheckDrift (sess : nat) (cfg : RenderConfig) : eff E (option DriftDetail) :=
  canonical ← wrap "detect: render canonical: " (lift (Render cfg));
  let expectedHash := Hash canonical in
  vps ← run sess cat_compose;
  match vps with
  | (_, Some e) => throw ("detect: read VPS compose: " +:+ e)
  | (vpsCompose, None) =>
      if decide (TrimSpace vpsCompose = "") then mret None else
      let vpsHash := Hash vpsCompose in
      if decide (vpsHash = expectedHash) then mret None else
      mret (Some {| Resolution := DriftDetected; DExpectedHash := expectedHash; VPSHash := vpsHash;
                    Diff := computeDiff canonical vpsCompose |})
  end.

(** The script that writes the compose file and its hash, shared with the
    deployment. *)
Definition upload_script (compose hash : string) : string :=
  text_lines ["cat > /tmp/docker-compose.yml.unet << 'UNET_COMPOSE_EOF'"] +:+ compose +:+ nls +:+
  text_lines ["UNET_COMPOSE_EOF"; "sudo mv /tmp/docker-compose.yml.unet /opt/unet/docker-compose.yml";
    "echo '" +:+ hash +:+ "' | sudo tee /opt/unet/.compose-hash > /dev/null"].

Definition ResolveDriftMerge (sess : nat) (cfg : RenderConfig) : eff E unit :=
  canonical ← wrap "detect: render canonical: " (lift (Render cfg));
  r ← run_script sess (upload_script canonical (Hash canonical));
  match r with
  | (out, _, Some e) => throw ("detect: merge overwrite failed: " +:+ e)
  | _ => mret tt
  end.
End Probes.

(** ** Versions *)

Lemma atoi_or_Itoa what s z : (0 <= z <= int64_max)%Z -> atoi_or what s (Itoa z) = Ok z.
Proof.
  intros Hz. unfold atoi_or. rewrite Atoi_Itoa; [done|]. unfold int64_min, int64_max in *. lia.
Qed.

Lemma Index_free s c : free_of c s = true -> Index s (String c EmptyString) = None.
Proof.
  unfold free_of. induction s as [|a s IH]; [done|]. simpl. rewrite andb_true_iff.
  intros [Ha%negb_true_iff%bool_decide_eq_false Hs].
  rewrite bool_decide_false by (intros E; by apply Ha). by rewrite IH.
Qed.

Lemma Semver_String_graphic v : str_all graphic (Semver_String v) = true.
Proof. unfold Semver_String. by rewrite !str_all_app, !Itoa_graphic. Qed.

(** Printing a version and parsing it back gives the version. *)
Theorem semver_roundtrip v :
  (0 <= Major v <= int64_max)%Z -> (0 <= Minor v <= int64_max)%Z -> (0 <= Patch v <= int64_max)%Z ->
  ParseSemver (Semver_String v) = Ok v.
Proof.
  intros H1 H2 H3. unfold ParseSemver. rewrite TrimSpace_graphic by apply Semver_String_graphic.
  rewrite Index_free.
  2: { unfold Semver_String. by rewrite !free_of_app, !Itoa_free by (done || lia). }
  unfold Semver_String. change (Split _ _) with
    (Split (Itoa (Major v) +:+ String "." (Itoa (Minor v) +:+ String "." (Itoa (Patch v)))) ".").
  rewrite !Split_app_sep, Split_free by (apply Itoa_free; [lia|done]).
  rewrite !atoi_or_Itoa by done. by destruct v.
Qed.

Lemma semver_roundtrip_witness :
  ParseSemver (Semver_String {| Major := 1; Minor := 12; Patch := 3 |})
  = Ok {| Major := 1; Minor := 12; Patch := 3 |}.
Proof. apply semver_roundtrip; unfold int64_max; simpl; lia. Defined.

(** ** Classification *)

(** The state from the versions and the compose hash alone. *)
Definition state_of_versions (r : ClassifyResult) : VPSState :=
  if decide (VPSVersion r = "") then StateBlank else
  match ParseSemver (VPSVersion r), ParseSemver (DaemonVersion r) with
  | Ok v, Ok d =>
      if decide (Major v <> Major d) then StateIncompatible
      else if decide (v = d /\ ComposeHashMatch r = true) then StateCurrent else StateOld
  | Ok _, _ => StateCurrent
  | _, _ => StateIncompatible
  end.

(** The classification is a function of the two versions and the compose
    hash: the distance of the minor versions (documented as one or two for
    [StateOld]), their order and the presence of Docker play no part. *)
Theorem classifyState_versions r : classifyState r = state_of_versions r.
Proof.
  unfold classifyState, state_of_versions.
  destruct (decide (VPSVersion r = "")) as [->|Hv]; [by case_match|].
  rewrite bool_decide_false, andb_false_r by done.
  destruct (ParseSemver (VPSVersion r)) as [v|e|e]; [|done..].
  destruct (ParseSemver (DaemonVersion r)) as [d|e|e]; [|done..].
  destruct (decide (Major v <> Major d)) as [Hmaj|Hmaj]; [done|].
  destruct (decide (v = d /\ ComposeHashMatch r = true)) as [[-> Hh]|Hne].
  - rewrite decide_False by tauto. by rewrite decide_True.
  - case_decide; [done|]. rewrite decide_False; [done|]. intros (Hmin & Hp & Hh). apply Hne.
    split; [|done]. apply dec_stable in Hmaj. destruct v, d; simpl in *. congruence.
Qed.

Section OneCommand.
Context {E : Type} `{GoSSHLaws E} (Hash : string -> string).

(** What a started session answers to every further command. *)
Lemma run_again s c1 c2 e :
  exists err e2, run s c2 (snd (run s c1 e)) = (Ok ("", Some err), e2) /\ started s e2.
Proof.
  unfold run. destruct (Run s c1 e) as [r1 e1] eqn:E1. simpl.
  assert (Hst : started s e1).
  { unfold Run in E1. pose proof (started_exec s c1 EmptyString e) as Hs.
    by destruct (gs_exec s c1 EmptyString e) as [[]]; simplify_eq. }
  pose proof (started_exec s c2 EmptyString e1) as Hs2.
  destruct (started_once s c2 EmptyString e1 Hst) as [msg Hm]. unfold Run.
  destruct (gs_exec s c2 EmptyString e1) as [r e2]. simpl in *. subst r. eauto.
Qed.

Lemma run_started s c e :
  started s e -> exists err e2, run s c e = (Ok ("", Some err), e2) /\ started s e2.
Proof.
  intros Hst. pose proof (started_exec s c EmptyString e) as Hs2.
  destruct (started_once s c EmptyString e Hst) as [msg Hm]. unfold run, Run.
  destruct (gs_exec s c EmptyString e) as [r e2]. simpl in *. subst r. eauto.
Qed.

Lemma run_starts s c e : exists r e', run s c e = (Ok r, e') /\ started s e'.
Proof.
  unfold run, Run. pose proof (started_exec s c EmptyString e) as Hs.
  destruct (gs_exec s c EmptyString e) as [[r|m|m] e']; simpl in *; eauto.
Qed.

Lemma run_script_started s c e :
  started s e -> exists err e2, run_script s c e = (Ok ("", "", Some err), e2) /\ started s e2.
Proof.
  intros Hst. pose proof (started_exec s "bash -s" c e) as Hs2.
  destruct (started_once s "bash -s" c e Hst) as [msg Hm]. unfold run_script, RunScript.
  destruct (gs_exec s "bash -s" c e) as [r e2]. simpl in *. subst r. eauto.
Qed.

(** The verdict on a session that takes one command. *)
Lemma Classify_one_command s v cfg e :
  exists r e', Classify Hash s v cfg e = (Ok r, e') /\
    State r = StateBlank /\ VPSVersion r = "" /\ VPSComposeHash r = "" /\
    HasContainers r = false /\ HasAWGConf r = false.
Proof.
  unfold Classify, mbind, eff_bind.
  destruct (run_starts s probe_docker e) as ([o1 r1] & e1 & -> & Hst).
  destruct (run_started s probe_version e1 Hst) as (m2 & e2 & -> & Hst2).
  destruct (run_started s probe_hash e2 Hst2) as (m3 & e3 & -> & Hst3).
  destruct (run_started s probe_containers e3 Hst3) as (m4 & e4 & -> & Hst4).
  destruct (run_started s probe_awg e4 Hst4) as (m5 & e5 & -> & _).
  eexists _, _. split; [reflexivity|]. simpl. split; [|done].
  rewrite classifyState_versions. unfold state_of_versions. simpl. done.
Qed.
End OneCommand.

(** ** Drift *)

(** The body of a here-document with delimiter [delim]: the lines up to the
    one that is the delimiter. *)
Fixpoint heredoc (delim : string) (ls : list string) : string :=
  match ls with
  | [] => ""
  | l :: ls' => if decide (l = delim) then "" else l +:+ nls +:+ heredoc delim ls'
  end.
(** What [cat] gets in a script whose first line starts the here-document. *)
Definition heredoc_body (script delim : string) : string :=
  heredoc delim (tail (Split script nl)).

Lemma text_lines_Split s : text_lines (Split s nl) = s +:+ nls.
Proof.
  rewrite <- (Join_Split s nl) at 2. pose proof (Split_nonempty s nl) as Hne.
  induction (Split s nl) as [|l ls IH]; [done|]. destruct ls as [|l' ls]; [done|].
  change (text_lines (l :: l' :: ls)) with (l +:+ nls +:+ text_lines (l' :: ls)).
  rewrite IH by done. simpl. by rewrite !sapp_assoc.
Qed.

Lemma heredoc_until delim ls rest :
  delim ∉ ls -> heredoc delim (ls ++ delim :: rest) = text_lines ls.
Proof.
  intros Hd. induction ls as [|l ls IH]; simpl; [by rewrite decide_True|].
  rewrite decide_False by (intros ->; apply Hd; left). rewrite IH; [done|].
  intros Hin. apply Hd. by right.
Qed.

(** The file the upload script writes is the compose text and one newline. *)
Lemma uploaded_body compose hash :
  "UNET_COMPOSE_EOF" ∉ Split compose nl ->
  heredoc_body (upload_script compose hash) "UNET_COMPOSE_EOF" = compose +:+ nls.
Proof.
  intros Hd. unfold heredoc_body, upload_script.
  change (text_lines ["cat > /tmp/docker-compose.yml.unet << 'UNET_COMPOSE_EOF'"]) with
    ("cat > /tmp/docker-compose.yml.unet << 'UNET_COMPOSE_EOF'" +:+ nls).
  rewrite sapp_assoc. change (nls +:+ ?x) with (String nl x).
  rewrite Split_app_sep by (vm_compute; reflexivity). cbn [tail].
  change (nls +:+ ?x) with (String nl x). rewrite Split_app.
  set (rest := text_lines _).
  assert (rest = "UNET_COMPOSE_EOF" +:+ String nl (sdrop 17 rest)) as -> by reflexivity.
  rewrite Split_app_sep by (vm_compute; reflexivity).
  rewrite heredoc_until by done. apply text_lines_Split.
Qed.

Lemma diff_at_empty cs vs i : diff_at cs vs i = "" <-> nth i cs "" = nth i vs "".
Proof.
  unfold diff_at. destruct (decide (nth i cs "" = nth i vs "")) as [E|Hne]; [done|].
  split; [|done]. do 2 case_decide; simpl; try done. congruence.
Qed.

Lemma foldl_diff_empty (f : nat -> string) l acc :
  foldl (fun d i => d +:+ f i) acc l = "" <-> acc = "" /\ Forall (fun i => f i = "") l.
Proof.
  revert acc. induction l as [|i l IH]; intros acc; simpl; [by split; [intros ->|intros [-> _]]|].
  rewrite IH, list.Forall_cons. split.
  - intros [Ha Hl]. destruct acc; [|done]. simpl in Ha. tauto.
  - intros (-> & Hi & Hl). by rewrite Hi.
Qed.

(** The diff is empty exactly when the texts have the same lines, where
    missing lines at the end count as empty ones. *)
Lemma computeDiff_empty c v :
  computeDiff c v = "" <-> forall i, nth i (Split c nl) "" = nth i (Split v nl) "".
Proof.
  unfold computeDiff. rewrite foldl_diff_empty, List.Forall_forall. split.
  - intros [_ Hall] i. destruct (decide (i < length (Split c nl) `max` length (Split v nl))) as [Hi|Hi].
    + apply diff_at_empty, Hall, in_seq. lia.
    + rewrite !nth_overflow by lia. done.
  - intros Hall. split; [done|]. intros i _. by apply diff_at_empty.
Qed.

Lemma computeDiff_newline c : computeDiff c (c +:+ nls) = "".
Proof.
  apply computeDiff_empty. intros i. change nls with (String nl "").
  rewrite Split_app. change (Split "" nl) with [""].
  destruct (decide (i < length (Split c nl))) as [Hi|Hi].
  - by rewrite app_nth1.
  - rewrite nth_overflow by lia. rewrite app_nth2 by lia.
    by destruct (i - length (Split c nl)) as [|[|]].
Qed.

Lemma Render_not_blank cfg c : Render cfg = Ok c -> blank c = false.
Proof. unfold Render. case_decide; [done|]. intros [= <-]. reflexivity. Qed.

(** The daemon's own deployment is reported as a drift with nothing in it:
    on a host whose compose file is what the upload script wrote (the rendered
    text and one newline) the check answers that a drift was detected, with an
    empty diff, as long as the hash tells the two texts apart. *)
Theorem own_deployment_drifts {E} `{GoSSH E} (Hash : string -> string) sess cfg compose e :
  Render cfg = Ok compose -> "UNET_COMPOSE_EOF" ∉ Split compose nl ->
  Hash (compose +:+ nls) <> Hash compose ->
  fst (Run sess cat_compose e) =
    (heredoc_body (upload_script compose (Hash compose)) "UNET_COMPOSE_EOF", None) ->
  fst (CheckDrift Hash sess cfg e) =
    Ok (Some {| Resolution := DriftDetected; DExpectedHash := Hash compose;
                VPSHash := Hash (compose +:+ nls); Diff := "" |}).
Proof.
  intros Hr Hd Hh Hrun. rewrite uploaded_body in Hrun by done.
  unfold CheckDrift. rewrite Hr. unfold mbind, eff_bind, run. simpl.
  destruct (Run sess cat_compose e) as [r e']. simpl in Hrun. subst r.
  rewrite decide_False.
  2: { apply TrimSpace_nonempty. unfold blank. rewrite str_all_app.
       pose proof (Render_not_blank _ _ Hr) as Hb. unfold blank in Hb. by rewrite Hb. }
  rewrite decide_False by done. simpl. by rewrite computeDiff_newline.
Qed.

Definition cfg1 : RenderConfig := {| AWGPort := 51820; ManualDNS := false; CaddyImage := "" |}.
Definition compose1 : string := match Render cfg1 with Ok c => c | _ => "" end.

Lemma own_deployment_drifts_witness :
  let out := heredoc_body (upload_script compose1 (Itoa (Z.of_nat (slen compose1)))) "UNET_COMPOSE_EOF" in
  fst (@CheckDrift _ (echo_ssh out) (fun s => Itoa (Z.of_nat (slen s))) 0 cfg1 ∅)
  = Ok (Some {| Resolution := DriftDetected; DExpectedHash := "1010"; VPSHash := "1011"; Diff := "" |}).
Proof.
  intros out.
  rewrite (own_deployment_drifts (H := echo_ssh out) (fun s => Itoa (Z.of_nat (slen s))) 0 cfg1 compose1 ∅).
  - vm_compute. reflexivity.
  - vm_compute. reflexivity.
  - apply (bool_decide_eq_true_1 (_ ∉ _)). vm_compute. reflexivity.
  - vm_compute. discriminate.
  - reflexivity.
Defined.
