(* ===== verification/Bootstrap.v ===== *)
(** * lifecycle/bootstrap: installing the stack on a host

    The four preflight checks, the installation of Docker, the deployment of
    the compose file, the wait for healthy containers, the rollback and the
    sequence of all five on a session of the pool.  Go's pair of a result and
    an error is a pair here where both can be present.  The clock, the
    cancellation of the context and the waiting are [Waiting]; the time limits
    of single commands are outcomes of the commands. *)

From S2P Require Import Prelude GoLib ServerConfig SSH Detect.

(** [time.Now], [ctx.Err] and a [select] between [ctx.Done] and [time.After]. *)
Class Waiting (E : Type) := {
  w_now : E -> time;
  w_ctx_err : E -> option string;
  w_after : Z -> E -> option string * E
}.

(** Time passes: a wait that is not cut short takes its time, and a command
    does not turn the clock back. *)
Class WaitingLaws (E : Type) `{GoSSH E, Waiting E} : Prop := {
  w_after_time d e : fst (w_after d e) = None -> (w_now e + d <= w_now (snd (w_after d e)))%Z;
  w_exec_time s c i e : (w_now e <= w_now (snd (gs_exec s c i e)))%Z
}.

(** ** preflight.go *)

Inductive CheckStatus := CheckPass | CheckFail.
#[export] Instance CheckStatus_eq_dec : EqDecision CheckStatus.
Proof. solve_decision. Defined.

Record PreflightCheck := {
  Name : string; Status : CheckStatus; Message : string; COutput : string
}.
Record PreflightResult := { Pass : bool; Checks : list PreflightCheck }.

(** [strings.Trim] with a cutset of one byte. *)
Fixpoint drop_byte (c : ascii) (s : string) : string :=
  match s with
  | String a s' => if decide (a = c) then drop_byte c s' else s
  | EmptyString => EmptyString
  end.
Definition TrimByte (c : ascii) (s : string) : string := srev (drop_byte c (srev (drop_byte c s))).

Definition failed (name msg out : string) : PreflightCheck :=
  {| Name := name; Status := CheckFail; Message := msg; COutput := out |}.
Definition passed (name msg out : string) : PreflightCheck :=
  {| Name := name; Status := CheckPass; Message := msg; COutput := out |}.

(** One line of /etc/os-release. *)
Definition os_line (acc : string * string) (line : string) : string * string :=
  let line := TrimSpace line in
  let acc := if HasPrefix line "ID=" then (TrimByte "034" (TrimPrefix line "ID="), snd acc) else acc in
  if HasPrefix line "VERSION_ID="
  then (fst acc, TrimByte "034" (TrimPrefix line "VERSION_ID=")) else acc.

Definition minFreeGB : Z := 2.

Section Checks.
Context {E : Type} `{GoSSH E}.

Definition checkArch (sess : nat) : eff E PreflightCheck :=
  r ← run sess "uname -m";
  let out := TrimSpace (fst r) in
  match snd r with
  | Some e => mret (failed "architecture" ("Failed to detect architecture: " +:+ e) out)
  | None =>
      if decide (out = "x86_64" \/ out = "aarch64")
      then mret (passed "architecture" "Supported architecture" out)
      else mret (failed "architecture" ("Unsupported architecture: " +:+ out +:+
                   ". Only x86_64 and aarch64 are supported.") out)
  end.

Definition checkOS (sess : nat) : eff E PreflightCheck :=
  '(out, err) ← run sess "cat /etc/os-release";
  match err with
  | Some e => mret (failed "os" ("Failed to read /etc/os-release: " +:+ e) out)
  | None =>
      let '(id, versionID) := foldl os_line ("", "") (Split out nl) in
      if decide (id <> "ubuntu")
      then mret (failed "os" ("Only Ubuntu 22.04 or 24.04 is supported. Detected: " +:+ id +:+ " "
                   +:+ versionID) out)
      else if decide (versionID = "22.04" \/ versionID = "24.04")
      then mret (passed "os" "Supported OS" (id +:+ " " +:+ versionID))
      else mret (failed "os" ("Only Ubuntu 22.04 or 24.04 is supported. Detected: Ubuntu "
                   +:+ versionID) out)
  end.

Definition checkDisk (sess : nat) : eff E PreflightCheck :=
  r ← run sess "df -BG / | tail -1 | awk '{print $4}'";
  let out := TrimSpace (fst r) in
  match snd r with
  | Some e => mret (failed "disk" ("Failed to check disk space: " +:+ e) out)
  | None =>
      let out := TrimSuffix out "G" in
      match Atoi out with
      | (_, Some e) => mret (failed "disk" ("Cannot parse disk space " +:+ out +:+ ": " +:+ e) out)
      | (freeGB, None) =>
          if decide (minFreeGB <= freeGB)%Z
          then mret (passed "disk" ("Sufficient disk space: " +:+ Itoa freeGB +:+ "GB free")
                       (Itoa freeGB +:+ "GB"))
          else mret (failed "disk" ("Insufficient disk space: " +:+ Itoa freeGB
                       +:+ "GB free, need at least " +:+ Itoa minFreeGB +:+ "GB")
                       (Itoa freeGB +:+ "GB"))
      end
  end.

Definition checkSudo (sess : nat) : eff E PreflightCheck :=
  r ← run sess "sudo -n true 2>&1";
  match snd r with
  | Some _ => mret (failed "sudo"
                "Passwordless sudo is required. Configure NOPASSWD via: sudo visudo" "")
  | None => mret (passed "sudo" "Passwordless sudo available" "")
  end.

Definition RunPreflight (sess : nat) : eff E PreflightResult :=
  c1 ← checkArch sess; c2 ← checkOS sess; c3 ← checkDisk sess; c4 ← checkSudo sess;
  let checks := [c1; c2; c3; c4] in
  mret {| Pass := forallb (fun c => negb (bool_decide (Status c = CheckFail))) checks;
          Checks := checks |}.

(** ** docker.go *)

Record DockerInstallResult := {
  DockerInstalled : bool; ComposeInstalled : bool; WasAlreadyPresent : bool;
  DockerVersion : string; ComposeVersion : string
}.

(** A program whose version [probe] prints, installed by [script] when the
    probe fails or prints nothing: the version found. *)
Definition install_docker (sess : nat) : eff E string :=
  '(dockerOut, err) ← run sess "command -v docker";
  if bool_decide (err = None) && negb (bool_decide (TrimSpace dockerOut = ""))
  then verOut ← run sess "docker --version"; mret (TrimSpace (fst verOut))
  else
    '(out, _, err) ← run_script sess
        (text_lines ["set -euo pipefail"; "curl -fsSL https://get.docker.com | sh"]);
    match err with
    | Some e => throw ("bootstrap: Docker install failed: " +:+ e)
    | None => verOut ← run sess "docker --version"; mret (TrimSpace (fst verOut))
    end.

Definition install_compose (sess : nat) : eff E string :=
  '(composeOut, err) ← run sess "docker compose version";
  if bool_decide (err = None) && negb (bool_decide (TrimSpace composeOut = ""))
  then mret (TrimSpace composeOut)
  else
    '(out, _, err) ← run_script sess
        (text_lines ["set -euo pipefail"; "sudo apt-get update -qq";
                     "sudo apt-get install -y -qq docker-compose-plugin"]);
    match err with
    | Some e => throw ("bootstrap: compose plugin install failed: " +:+ e)
    | None => verOut ← run sess "docker compose version"; mret (TrimSpace (fst verOut))
    end.

(** Both flags are set by then on every path. *)
Definition EnsureDocker (sess : nat) : eff E DockerInstallResult :=
  docker ← install_docker sess;
  compose ← install_compose sess;
  mret {| DockerInstalled := true; ComposeInstalled := true; WasAlreadyPresent := true && true;
          DockerVersion := docker; ComposeVersion := compose |}.

Record DeployResult := {
  ComposeUploaded : bool; ComposeHash : string; ContainersUp : bool; Skipped : bool
}.

(** SHA-256 in hexadecimal. *)
Context (Hash : string -> string).

(** Everything after the decision to deploy. *)
Definition deploy_steps (sess : nat) (composeYAML version : string) : eff E DeployResult :=
  let expectedHash := Hash composeYAML in
  '(_, _, err) ← run_script sess (upload_script composeYAML expectedHash);
  match err with
  | Some e => throw ("bootstrap: upload compose: " +:+ e)
  | None =>
  '(_, _, err) ← run_script sess ("echo '" +:+ version +:+ "' | sudo tee /opt/unet/version > /dev/null");
  match err with
  | Some e => throw ("bootstrap: write version file: " +:+ e)
  | None =>
  '(out, err) ← run sess "cd /opt/unet && sudo docker compose pull 2>&1";
  match err with
  | Some e =>
      if Contains out "no space left on device" then
        _ ← run sess "sudo docker system prune -f 2>/dev/null";
        throw "bootstrap: disk full during image pull. Free at least 2GB and retry"
      else throw ("bootstrap: docker compose pull failed: " +:+ e)
  | None =>
  '(out, err) ← run sess "cd /opt/unet && sudo docker compose up -d 2>&1";
  match err with
  | Some e => throw ("bootstrap: docker compose up failed: " +:+ e)
  | None => mret {| ComposeUploaded := true; ComposeHash := expectedHash; ContainersUp := true;
                    Skipped := false |}
  end end end end.

Definition DeployCompose (sess : nat) (cfg : RenderConfig) (version : string) : eff E DeployResult :=
  composeYAML ← wrap "bootstrap: render compose: " (lift (Render cfg));
  let expectedHash := Hash composeYAML in
  '(_, err) ← run sess "sudo mkdir -p /opt/unet";
  match err with
  | Some e => throw ("bootstrap: create /opt/unet: " +:+ e)
  | None =>
      '(existing, _) ← run sess probe_hash;
      if decide (TrimSpace existing = expectedHash) then
        '(containerOut, _) ← run sess probe_containers;
        if Contains containerOut "unet-net-pause"
        then mret {| ComposeUploaded := false; ComposeHash := expectedHash; ContainersUp := true;
                     Skipped := true |}
        else deploy_steps sess composeYAML version
      else deploy_steps sess composeYAML version
  end.

(** ** rollback.go *)

(** The errors of both commands, in one text. *)
Definition Rollback (sess : nat) : eff E unit :=
  '(out1, err1) ← run sess "cd /opt/unet && sudo docker compose down --remove-orphans 2>&1";
  '(out2, err2) ← run sess "sudo rm -rf /opt/unet/* 2>&1";
  let part what out err := match err with
    | Some e => [what +:+ e +:+ " (output: " +:+ out +:+ ")"] | None => [] end in
  let errs := part "docker compose down: " out1 err1 ++ part "rm /opt/unet/*: " out2 err2 in
  if decide (errs = []) then mret tt
  else throw ("rollback partially failed: [" +:+ Join errs " " +:+ "]").

(** ** bootstrap.go *)

Record ConnectionParams := {
  WGEndpoint : string; WGServerPublicKey : string; TunnelSubnet : string
}.

Record BootstrapResult := {
  Preflight : option PreflightResult; Docker : option DockerInstallResult;
  Deploy : option DeployResult; HealthVerified : bool;
  ConnectionParams_ : option ConnectionParams; ZeroDiff : bool; Duration : string
}.

Record BootstrapOpts := { ComposeConfig : RenderConfig; DaemonVersion : string }.

(** A line of [docker ps] marks the containers that are up. *)
Definition up_line (acc : bool * bool * bool) (line : string) : bool * bool * bool :=
  let line := TrimSpace line in
  let up name := Contains line name && Contains line "Up" in
  let '(p, a, c) := acc in
  (p || up "unet-net-pause", a || up "unet-amnezia-awg", c || up "unet-caddy").

Definition checkContainerHealth (sess : nat) : eff E bool :=
  '(out, err) ← run sess "sudo docker ps --filter name=unet- --format '{{.Names}} {{.Status}}' 2>/dev/null";
  match err with
  | Some e => throw e
  | None => let '(p, a, c) := foldl up_line (false, false, false) (Split out nl) in mret (p && a && c)
  end.

Context `{Waiting E}.

(** One round of the loop of [verifyHealth]: a check, then five seconds, then
    [again]; [None] is running out of fuel. *)
Definition wait_then {A} (again : eff E A) : eff E A := fun e =>
  match w_after (seconds 5) e with
  | (Some err, e') => (Err err, e')
  | (None, e') => again e'
  end.
Definition verify_round (sess : nat) (again : eff E (option bool)) : eff E (option bool) :=
  healthy ← try (checkContainerHealth sess);
  match healthy with Ok true => mret (Some true) | _ => wait_then again end.

Fixpoint verify_loop (fuel : nat) (sess : nat) (deadline : time) : eff E (option bool) :=
  match fuel with
  | O => mret None
  | S f => fun e =>
      if decide (deadline <= w_now e)%Z
      then (Err "bootstrap: health verification timed out after 120s", e) else
      match w_ctx_err e with
      | Some err => (Err err, e)
      | None => verify_round sess (verify_loop f sess deadline) e
      end
  end.

Definition verify_fuel : nat := 25.
Definition verifyHealth (sess : nat) : eff E bool := fun e =>
  match verify_loop verify_fuel sess (w_now e + seconds 120)%Z e with
  | (Ok (Some b), e') => (Ok b, e')
  | (Ok None, e') => (Panic "out of fuel", e')
  | (Err m, e') => (Err m, e')
  | (Panic p, e') => (Panic p, e')
  end.

Definition param_line (p : ConnectionParams) (line : string) : ConnectionParams :=
  let line := TrimSpace line in
  let p := if HasPrefix line "ListenPort = "
           then {| WGEndpoint := "0.0.0.0:" +:+ TrimPrefix line "ListenPort = ";
                   WGServerPublicKey := WGServerPublicKey p; TunnelSubnet := TunnelSubnet p |} else p in
  let p := if HasPrefix line "PublicKey = "
           then {| WGEndpoint := WGEndpoint p; WGServerPublicKey := TrimPrefix line "PublicKey = ";
                   TunnelSubnet := TunnelSubnet p |} else p in
  if HasPrefix line "Address = " then
    let addr := TrimPrefix line "Address = " in
    if decide (length (Split addr "/") = 2)
    then {| WGEndpoint := WGEndpoint p; WGServerPublicKey := WGServerPublicKey p;
            TunnelSubnet := addr |} else p
  else p.

Definition no_params : ConnectionParams :=
  {| WGEndpoint := ""; WGServerPublicKey := ""; TunnelSubnet := "" |}.

Definition discoverConnectionParams (sess : nat) : eff E ConnectionParams :=
  '(out, err) ← run sess "sudo docker exec unet-amnezia-awg cat /opt/amnezia/awg/awg0.conf 2>/dev/null | head -20";
  match err with
  | Some e => throw ("read awg0.conf: " +:+ e)
  | None => mret (foldl param_line no_params (Split out nl))
  end.
End Checks.

(** The parts of the result a phase fills in. *)
Definition no_result : BootstrapResult :=
  {| Preflight := None; Docker := None; Deploy := None; HealthVerified := false;
     ConnectionParams_ := None; ZeroDiff := false; Duration := "" |}.
Definition with_Preflight (p : PreflightResult) (r : BootstrapResult) : BootstrapResult :=
  {| Preflight := Some p; Docker := Docker r; Deploy := Deploy r; HealthVerified := HealthVerified r;
     ConnectionParams_ := ConnectionParams_ r; ZeroDiff := ZeroDiff r; Duration := Duration r |}.
Definition with_Docker (d : DockerInstallResult) (r : BootstrapResult) : BootstrapResult :=
  {| Preflight := Preflight r; Docker := Some d; Deploy := Deploy r; HealthVerified := HealthVerified r;
     ConnectionParams_ := ConnectionParams_ r; ZeroDiff := ZeroDiff r; Duration := Duration r |}.
Definition with_Deploy (d : DeployResult) (r : BootstrapResult) : BootstrapResult :=
  {| Preflight := Preflight r; Docker := Docker r; Deploy := Some d; HealthVerified := HealthVerified r;
     ConnectionParams_ := ConnectionParams_ r; ZeroDiff := Skipped d; Duration := Duration r |}.
Definition with_health (h : bool) (r : BootstrapResult) : BootstrapResult :=
  {| Preflight := Preflight r; Docker := Docker r; Deploy := Deploy r; HealthVerified := h;
     ConnectionParams_ := ConnectionParams_ r; ZeroDiff := ZeroDiff r; Duration := Duration r |}.
Definition with_params (p : ConnectionParams) (r : BootstrapResult) : BootstrapResult :=
  {| Preflight := Preflight r; Docker := Docker r; Deploy := Deploy r; HealthVerified := HealthVerified r;
     ConnectionParams_ := Some p; ZeroDiff := ZeroDiff r; Duration := Duration r |}.
Definition with_Duration (d : string) (r : BootstrapResult) : BootstrapResult :=
  {| Preflight := Preflight r; Docker := Docker r; Deploy := Deploy r; HealthVerified := HealthVerified r;
     ConnectionParams_ := ConnectionParams_ r; ZeroDiff := ZeroDiff r; Duration := d |}.

(** [d.Round(time.Second)] in seconds: halves away from zero. *)
Definition round_seconds (d : Z) : Z :=
  if decide (d < 0)%Z then (- ((- d + ns_second / 2) / ns_second))%Z
  else ((d + ns_second / 2) / ns_second)%Z.

(** [String] of a whole number of seconds. *)
Definition seconds_string (n : Z) : string :=
  let s := Z.abs n in
  (if decide (n < 0)%Z then "-" else "") +:+
  (if decide (3600 <= s)%Z then Itoa (s / 3600) +:+ "h" else "") +:+
  (if decide (60 <= s)%Z then Itoa (s / 60 `mod` 60) +:+ "m" else "") +:+
  Itoa (s `mod` 60) +:+ "s".

Section Bootstrap.
Context {E : Type} `{GoSSH E, Waiting E} (config_dir : result string).
Context (Hash : string -> string).

(** The two results of a call. *)
Definition answer : Type := option BootstrapResult * option string.

(** A phase of the sequence: [k] on success, the handler on an error. *)
Definition phase {A} (m : eff E A) (on_err : string -> eff E answer) (k : A -> eff E answer)
  : eff E answer :=
  r ← try m;
  match r with Ok a => k a | Err e => on_err e | Panic p => panic p end.

Definition refuse (r : BootstrapResult) (msg : string) : eff E answer := mret (Some r, Some msg).
Definition rollback_then (sess : nat) (a : answer) : eff E answer :=
  _ ← try (Rollback sess); mret a.

(** The phases, on a session. *)
Definition bootstrap_phases (sess : nat) (opts : BootstrapOpts) : eff E answer :=
  phase (RunPreflight sess) (fun e => mret (None, Some ("bootstrap: preflight: " +:+ e))) (fun preflight =>
  let result := with_Preflight preflight no_result in
  if negb (Pass preflight) then refuse result "bootstrap: preflight failed" else
  phase (EnsureDocker sess) (fun e => refuse result ("bootstrap: Docker install: " +:+ e)) (fun docker =>
  let result := with_Docker docker result in
  phase (DeployCompose Hash sess (ComposeConfig opts) (DaemonVersion opts))
    (fun e => rollback_then sess (Some result, Some ("bootstrap: deploy: " +:+ e))) (fun deploy =>
  let result := with_Deploy deploy result in
  if Skipped deploy then
    phase (checkContainerHealth sess) (fun _ => mret (Some result, None))
      (fun healthy => mret (Some (with_health healthy result), None))
  else
  phase (verifyHealth sess)
    (fun e => rollback_then sess (Some result, Some ("bootstrap: health verify: " +:+ e))) (fun healthy =>
  let result := with_health healthy result in
  phase (discoverConnectionParams sess) (fun _ => mret (Some result, None))
    (fun params => mret (Some (with_params params result), None)))))).

(** The deferred assignment of [Duration]. *)
Definition stamp (start : time) (a : answer) : eff Pool answer := fun p =>
  (Ok (with_Duration (seconds_string (round_seconds (w_now (p_net p) - start))) <$> fst a, snd a), p).

Definition Bootstrap (opts : BootstrapOpts) : eff Pool answer := fun p =>
  let start := w_now (p_net p) in
  (r ← try (Session config_dir start);
   match r with
   | Err e => mret (None, Some ("bootstrap: get SSH session: " +:+ e))
   | Panic e => panic e
   | Ok sess =>
       a ← onNet (bootstrap_phases sess opts);
       _ ← Put sess;
       stamp start a
   end) p.
End Bootstrap.

(** ** Lemmas *)

Lemma no_panic_run {E} `{GoSSH E} s c : no_panic (run s c).
Proof. intros e p. unfold run. by destruct (Run s c e). Qed.
Lemma no_panic_run_script {E} `{GoSSH E} s c : no_panic (run_script s c).
Proof. intros e p. unfold run_script. by destruct (RunScript s c e). Qed.
#[export] Hint Resolve no_panic_run no_panic_run_script : unet.

(** Walks through a sequence of commands. *)
Ltac walk := repeat (first
  [ apply no_panic_ret | apply no_panic_throw | apply no_panic_run | apply no_panic_run_script
  | apply no_panic_try | apply no_panic_wrap
  | apply no_panic_bind; [|intros ?]
  | match goal with
    | |- no_panic (match ?x with _ => _ end) => destruct x
    | |- no_panic (if ?x then _ else _) => destruct x
    end ]).

Lemma succeeds_run {E} `{GoSSH E} s c : succeeds (run s c).
Proof. intros e. unfold run. destruct (Run s c e). eauto. Qed.

Ltac walk_ok := repeat (first
  [ apply succeeds_ret | apply succeeds_run | apply succeeds_bind; [|intros ?]
  | match goal with
    | |- succeeds (match ?x with _ => _ end) => destruct x
    | |- succeeds (if ?x then _ else _) => destruct x
    end ]).

Section Facts.
Context {E : Type} `{GoSSH E, Waiting E} (Hash : string -> string).

Lemma succeeds_RunPreflight sess : succeeds (RunPreflight sess).
Proof. unfold RunPreflight, checkArch, checkOS, checkDisk, checkSudo. cbv zeta. walk_ok. Qed.

Lemma no_panic_EnsureDocker sess : no_panic (EnsureDocker sess).
Proof. unfold EnsureDocker, install_docker, install_compose. walk. Qed.

Lemma no_panic_deploy_steps sess c v : no_panic (deploy_steps Hash sess c v).
Proof. unfold deploy_steps. cbv zeta. walk. Qed.

Lemma no_panic_DeployCompose sess cfg v : no_panic (DeployCompose Hash sess cfg v).
Proof.
  unfold DeployCompose. apply no_panic_bind.
  - apply no_panic_wrap, no_panic_lift. intros p. unfold Render. by case_decide.
  - intros c. cbv zeta. walk; apply no_panic_deploy_steps.
Qed.

Lemma no_panic_Rollback sess : no_panic (Rollback sess).
Proof. unfold Rollback. cbv zeta. walk. Qed.

Lemma no_panic_health sess : no_panic (checkContainerHealth sess).
Proof. unfold checkContainerHealth. walk. Qed.

Lemma no_panic_params sess : no_panic (discoverConnectionParams sess).
Proof. unfold discoverConnectionParams. walk. Qed.

(** ** The wait for healthy containers ends *)

Section Clock.
Context {HW : WaitingLaws E}.

Lemma health_time sess e : (w_now e <= w_now (snd (try (checkContainerHealth sess) e)))%Z.
Proof.
  rewrite try_snd. unfold checkContainerHealth, mbind, eff_bind, run, Run.
  pose proof (w_exec_time sess
    "sudo docker ps --filter name=unet- --format '{{.Names}} {{.Status}}' 2>/dev/null" EmptyString e) as Ht.
  destruct (gs_exec _ _ _ e) as [[r|m|m] e']; simpl in *; [|done..].
  destruct (out_err r); [done|]. by destruct (foldl _ _ _) as [[] ?].
Qed.

(** A loop that is [n] rounds short of its deadline. *)
Lemma verify_loop_ends n sess deadline e :
  (deadline <= w_now e + Z.of_nat n * seconds 5)%Z ->
  forall f f', n < f -> n < f' ->
  verify_loop f sess deadline e = verify_loop f' sess deadline e /\
  match fst (verify_loop f sess deadline e) with
  | Ok b => b = Some true | Err _ => True | Panic _ => False
  end.
Proof.
  revert e. induction n as [|n IH]; intros e Hd [|f] [|f'] Hf Hf'; try lia; simpl.
  - destruct (decide (deadline <= w_now e)%Z) as [_|Hn]; [done|].
    unfold seconds, ns_second in *; lia.
  - destruct (decide (deadline <= w_now e)%Z) as [Hx|Hx]; [done|].
    destruct (w_ctx_err e); [done|]. unfold verify_round, mbind, eff_bind.
    pose proof (health_time sess e) as Ht.
    pose proof (no_panic_try _ (no_panic_health sess) e) as Hnp.
    destruct (try (checkContainerHealth sess) e) as [[[[]|m|m]|m|m] e1]; simpl in *; try done;
      try (by destruct (Hnp m)).
    all: unfold wait_then; pose proof (w_after_time (seconds 5) e1) as Hw.
    all: destruct (w_after (seconds 5) e1) as [[m'|] e2]; simpl in *; [done|].
    all: apply IH; [specialize (Hw eq_refl); unfold seconds, ns_second in *; lia|lia..].
Qed.

(** From the start of the wait. *)
Lemma verify_loop_25 sess e fuel :
  verify_fuel <= fuel ->
  verify_loop fuel sess (w_now e + seconds 120) e =
    verify_loop verify_fuel sess (w_now e + seconds 120) e /\
  match fst (verifyHealth sess e) with
  | Ok healthy => healthy = true | Err _ => True | Panic _ => False
  end.
Proof.
  intros Hf. unfold verify_fuel in Hf.
  assert (Hd : (w_now e + seconds 120 <= w_now e + Z.of_nat 24 * seconds 5)%Z) by (unfold seconds; lia).
  destruct (verify_loop_ends 24 sess _ e Hd fuel verify_fuel) as [Heq _]; [unfold verify_fuel; lia..|].
  destruct (verify_loop_ends 24 sess _ e Hd verify_fuel verify_fuel) as [_ Hr]; [unfold verify_fuel; lia..|].
  split; [exact Heq|]. unfold verifyHealth.
  destruct (verify_loop verify_fuel _ _ e) as [[[b|]|m|m] e']; simpl in *; congruence || done.
Qed.

(** C18: the wait for healthy containers ends: the loop leaves by its own
    deadline within 25 rounds (more fuel changes nothing), whatever the host
    answers and however long each command takes, and the answer is that all
    three containers are up or an error. *)
Theorem verifyHealth_returns sess e fuel :
  verify_fuel <= fuel ->
  verify_loop fuel sess (w_now e + seconds 120) e =
    verify_loop verify_fuel sess (w_now e + seconds 120) e /\
  match fst (verifyHealth sess e) with
  | Ok healthy => healthy = true | Err _ => True | Panic _ => False
  end.
Proof. apply verify_loop_25. Qed.

Lemma no_panic_verify sess : no_panic (verifyHealth sess).
Proof.
  intros e p Hp. destruct (verify_loop_25 sess e verify_fuel (le_n _)) as [_ Hr].
  by rewrite Hp in Hr.
Qed.

Lemma verifyHealth_ok sess e b e' : verifyHealth sess e = (Ok b, e') -> b = true.
Proof.
  intros Hp. destruct (verify_loop_25 sess e verify_fuel (le_n _)) as [_ Hr]. by rewrite Hp in Hr.
Qed.

(** Once Docker is there, a failure is followed by the rollback, and a success
    has a stack that is running or was verified. *)
Definition phases_ok (sess : nat) (a : result answer * E) : Prop :=
  match a with
  | (Ok (Some r, None), _) =>
      (exists p, Preflight r = Some p /\ Pass p = true) /\ Docker r <> None /\
      exists d, Deploy r = Some d /\ ContainersUp d = true /\
                (Skipped d = ZeroDiff r) /\ (ZeroDiff r = true \/ HealthVerified r = true)
  | (Ok (Some r, Some _), e') =>
      HealthVerified r = false /\ (Docker r = None \/ exists e1, e' = snd (Rollback sess e1))
  | _ => False
  end.

Lemma phase_ok sess {A} (m : eff E A) on_err (k : A -> eff E answer) e :
  no_panic m ->
  (forall msg e', m e = (Err msg, e') -> phases_ok sess (on_err msg e')) ->
  (forall a e', m e = (Ok a, e') -> phases_ok sess (k a e')) ->
  phases_ok sess (phase m on_err k e).
Proof.
  intros Hp He Hk. specialize (Hp e). unfold phase, mbind, eff_bind, try.
  destruct (m e) as [[a|msg|p] e']; simpl in *; [by apply Hk|by apply He|by destruct (Hp p)].
Qed.

Lemma rollback_ok sess r msg e :
  HealthVerified r = false -> phases_ok sess (rollback_then sess (Some r, Some msg) e).
Proof.
  intros Hr. unfold rollback_then, mbind, eff_bind, try.
  pose proof (no_panic_Rollback sess e) as Hp. destruct (Rollback sess e) as [[a|m|m] e'] eqn:E1.
  1,2: split; [done|]; right; exists e; by rewrite E1.
  by destruct (Hp m).
Qed.

Lemma DeployCompose_up sess cfg v e d e' :
  DeployCompose Hash sess cfg v e = (Ok d, e') -> ContainersUp d = true.
Proof.
  intros Hd. unfold DeployCompose in Hd. bind_inv Hd. cbv zeta in Hd. bind_inv Hd.
  assert (Hsteps : forall c e, deploy_steps Hash sess c v e = (Ok d, e') -> ContainersUp d = true).
  { clear. intros c e Hd. unfold deploy_steps in Hd. cbv zeta in Hd.
    bind_inv Hd. destruct a as [[? ?] [?|]]; [done|].
    bind_inv Hd. destruct a as [[? ?] [?|]]; [done|].
    bind_inv Hd. destruct a as [? [?|]]; [destruct (Contains _ _); [by bind_inv Hd|done]|].
    bind_inv Hd. destruct a as [? [?|]]; [done|]. by injection Hd as <- _. }
  destruct a0 as [? [?|]]; [done|]. bind_inv Hd. destruct a0 as [ex ?].
  destruct (decide _); [|by eapply Hsteps]. bind_inv Hd. destruct a0 as [out ?].
  destruct (Contains _ _); [by injection Hd as <- _|by eapply Hsteps].
Qed.

(** What a bootstrap amounts to, on a session with any answers.  Without an
    error the preflight passed, Docker was ensured, the containers were
    brought up and either found unchanged or verified; with an error nothing is
    reported healthy, and once Docker was ensured the rollback was the last
    thing run.  It never ends otherwise. *)
Theorem bootstrap_phases_outcome sess opts e :
  phases_ok sess (bootstrap_phases Hash sess opts e).
Proof.
  unfold bootstrap_phases. apply phase_ok; [apply succeeds_no_panic, succeeds_RunPreflight| |].
  { intros msg e' Hm. destruct (succeeds_RunPreflight sess e) as (? & ? & ?); congruence. }
  intros pf e1 _. cbv zeta. destruct (Pass pf) eqn:Hpass; simpl; [|by auto].
  apply phase_ok; [apply no_panic_EnsureDocker|by intros; simpl; auto|].
  intros dk e2 _. apply phase_ok; [apply no_panic_DeployCompose|by intros; apply rollback_ok|].
  intros d e3 Hd%DeployCompose_up. destruct (Skipped d) eqn:Hsk.
  - apply phase_ok; [apply no_panic_health|intros _ e4 _|intros h e4 _];
      (split; [by exists pf|]; split; [done|]; exists d; simpl; rewrite Hsk; auto).
  - apply phase_ok; [apply no_panic_verify|by intros; apply rollback_ok|].
    intros h e4 ->%verifyHealth_ok.
    apply phase_ok; [apply no_panic_params|intros _ e5 _|intros ps e5 _];
      (split; [by exists pf|]; split; [done|]; exists d; simpl; rewrite Hsk; auto).
Qed.
End Clock.
End Facts.

(** ** On sessions that take one command *)

Section OneCommand.
Context {E : Type} `{GoSSHLaws E, Waiting E} (config_dir : result string) (Hash : string -> string).

Lemma checkArch_starts sess e :
  exists c e', checkArch sess e = (Ok c, e') /\ started sess e'.
Proof.
  unfold checkArch, mbind, eff_bind. destruct (run_starts sess "uname -m" e) as (r & e' & -> & Hst).
  cbv zeta. destruct (snd r); [by eexists _, _|]. case_decide; by eexists _, _.
Qed.

Lemma checkOS_started sess e :
  started sess e -> exists c e', checkOS sess e = (Ok c, e') /\ Status c = CheckFail.
Proof.
  intros Hst. unfold checkOS, mbind, eff_bind.
  destruct (run_started sess "cat /etc/os-release" e Hst) as (m & e' & -> & _). by eexists _, _.
Qed.

Lemma preflight_one_command sess e :
  exists r e', RunPreflight sess e = (Ok r, e') /\ Pass r = false.
Proof.
  unfold RunPreflight. destruct (checkArch_starts sess e) as (c1 & e1 & E1 & Hst).
  destruct (checkOS_started sess e1 Hst) as (c2 & e2 & E2 & H2).
  destruct (succeeds_bind (checkDisk sess) (fun _ => checkSudo sess)) with (w := e2) as (c & e4 & E4).
  { unfold checkDisk. cbv zeta. walk_ok. } { intros _. unfold checkSudo. walk_ok. }
  unfold mbind, eff_bind in *. rewrite E1, E2.
  destruct (checkDisk sess e2) as [[c3|?|?] e3]; [|done..]. rewrite E4.
  eexists _, _. split; [reflexivity|]. simpl. rewrite H2. simpl. by rewrite andb_false_r.
Qed.

(** So a bootstrap ends with the preflight or without a session. *)
Lemma Bootstrap_one_command opts p r err p' :
  Bootstrap config_dir Hash opts p = (Ok (r, err), p') -> err <> None.
Proof.
  unfold Bootstrap. unfold mbind at 1, eff_bind at 1, try.
  destruct (Session config_dir _ p) as [[sess|m|m] p1]; simpl; [|by intros [= _ <- _]|done].
  unfold mbind, eff_bind, onNet, on_part, bootstrap_phases, phase, try, mbind, eff_bind.
  destruct (preflight_one_command sess (p_net p1)) as (pf & e' & -> & Hpass).
  cbv zeta. rewrite Hpass. simpl. by intros [= _ <- _].
Qed.
End OneCommand.

(** ** A host for the witnesses: it answers commands by [ans], each takes a
    second. *)

Definition scripted (ans : string -> string) : GoSSH Z := {|
  gs_tcp _ := mret tt; gs_server_key _ := mret "ssh-ed25519 AAAA"; gs_auth _ _ _ := mret 0;
  gs_signer _ := mret "key"; gs_NewSession _ := mret 0; gs_Keepalive _ := mret tt;
  gs_exec _ c _ e := (Ok {| out_combined := ans c; out_stdout := ans c; out_stderr := "";
                            out_err := None |}, (e + ns_second)%Z);
  gs_CloseSession _ e := (None, e); gs_CloseClient _ e := (None, e)
|}.

Definition wall_clock : Waiting Z :=
  {| w_now e := e; w_ctx_err _ := None; w_after d e := (None, (e + d)%Z) |}.

Lemma scripted_time ans : @WaitingLaws Z (scripted ans) wall_clock.
Proof. constructor; intros; simpl; unfold ns_second; lia. Qed.

Definition good_host (c : string) : string :=
  if decide (c = "uname -m") then "x86_64" else
  if decide (c = "cat /etc/os-release")
  then text_lines ["ID=ubuntu"; quoted "VERSION_ID=~24.04~"] else
  if decide (c = "df -BG / | tail -1 | awk '{print $4}'") then "17G" else
  if HasPrefix c "sudo docker ps"
  then text_lines ["unet-net-pause Up 2 seconds"; "unet-caddy Up 2 seconds";
                   "unet-amnezia-awg Up 2 seconds"] else "v1".

Lemma verifyHealth_returns_witness :
  let answer := @verifyHealth Z (scripted (fun _ => "")) wall_clock 0 0%Z in
  match fst answer with Ok h => h = true | Err _ => True | Panic _ => False end.
Proof.
  exact (proj2 (@verifyHealth_returns Z (scripted (fun _ => "")) wall_clock (scripted_time _) 0 0%Z 30
    ltac:(unfold verify_fuel; lia))).
Defined.

Lemma bootstrap_phases_outcome_witness :
  let opts := {| ComposeConfig := cfg1; DaemonVersion := "0.3.0" |} in
  let a := @bootstrap_phases Z (scripted good_host) wall_clock (fun s => Itoa (Z.of_nat (slen s))) 0 opts 0%Z in
  match fst a with Ok (Some r, None) => HealthVerified r = true | _ => False end /\
  @phases_ok Z (scripted good_host) 0 a.
Proof.
  intros opts a. split; [vm_compute; reflexivity|].
  exact (@bootstrap_phases_outcome Z (scripted good_host) wall_clock _ (scripted_time _) 0 opts 0%Z).
Defined.
