(* ===== verification/Attach.v ===== *)
(** * lifecycle/attach: taking over an installed host

    Reading the host's state into a profile, and the sequence that classifies
    the host, bootstraps a blank one, looks for drift, reads the state and
    stores the profile.  It runs over the pool of [SSH], whose disk holds the
    profile of [State].  Decoding the list of peers and formatting the clock
    are parameters. *)

From S2P Require Import Prelude GoLib ServerConfig FS Regexp State SSH Detect Bootstrap.

Record SyncResult := {
  PeersSynced : Z; RoutesSynced : Z; TunnelSynced : bool; VPSSynced : bool; SWGEndpoint : string;
  WGServerKey : string; STunnelSubnet : string; SComposeHash : string
}.

Record AttachResult := {
  Classification : option ClassifyResult; Sync : option SyncResult; AZeroDiff : bool;
  Bootstrapped : bool; ADuration : string
}.

Record AttachOpts := {
  ADaemonVersion : string; AComposeConfig : RenderConfig; ABootstrapOpts : BootstrapOpts
}.

(** ** sync.go *)

(** The fields of the profile and of the result that a line of awg0.conf sets. *)
Definition set_endpoint (x : string) (s : SyncResult * VPSProfile) : SyncResult * VPSProfile :=
  let '(r, p) := s in
  ({| PeersSynced := PeersSynced r; RoutesSynced := RoutesSynced r; TunnelSynced := TunnelSynced r;
      VPSSynced := VPSSynced r; SWGEndpoint := x; WGServerKey := WGServerKey r;
      STunnelSubnet := STunnelSubnet r; SComposeHash := SComposeHash r |},
   {| State.Host := State.Host p; State.Port := State.Port p; State.User := State.User p;
      State.AuthMode := State.AuthMode p; State.PrivateKeyPath := State.PrivateKeyPath p;
      KnownGoodVersion := KnownGoodVersion p; LastSeenAt := LastSeenAt p;
      State.Status := State.Status p; State.ComposeHash := State.ComposeHash p;
      State.WGEndpoint := x; State.WGServerPublicKey := State.WGServerPublicKey p;
      State.TunnelSubnet := State.TunnelSubnet p; LockedBy := LockedBy p |}).
Definition set_server_key (x : string) (s : SyncResult * VPSProfile) : SyncResult * VPSProfile :=
  let '(r, p) := s in
  ({| PeersSynced := PeersSynced r; RoutesSynced := RoutesSynced r; TunnelSynced := TunnelSynced r;
      VPSSynced := VPSSynced r; SWGEndpoint := SWGEndpoint r; WGServerKey := x;
      STunnelSubnet := STunnelSubnet r; SComposeHash := SComposeHash r |},
   {| State.Host := State.Host p; State.Port := State.Port p; State.User := State.User p;
      State.AuthMode := State.AuthMode p; State.PrivateKeyPath := State.PrivateKeyPath p;
      KnownGoodVersion := KnownGoodVersion p; LastSeenAt := LastSeenAt p;
      State.Status := State.Status p; State.ComposeHash := State.ComposeHash p;
      State.WGEndpoint := State.WGEndpoint p; State.WGServerPublicKey := x;
      State.TunnelSubnet := State.TunnelSubnet p; LockedBy := LockedBy p |}).
Definition set_subnet (x : string) (s : SyncResult * VPSProfile) : SyncResult * VPSProfile :=
  let '(r, p) := s in
  ({| PeersSynced := PeersSynced r; RoutesSynced := RoutesSynced r; TunnelSynced := TunnelSynced r;
      VPSSynced := VPSSynced r; SWGEndpoint := SWGEndpoint r; WGServerKey := WGServerKey r;
      STunnelSubnet := x; SComposeHash := SComposeHash r |},
   {| State.Host := State.Host p; State.Port := State.Port p; State.User := State.User p;
      State.AuthMode := State.AuthMode p; State.PrivateKeyPath := State.PrivateKeyPath p;
      KnownGoodVersion := KnownGoodVersion p; LastSeenAt := LastSeenAt p;
      State.Status := State.Status p; State.ComposeHash := State.ComposeHash p;
      State.WGEndpoint := State.WGEndpoint p; State.WGServerPublicKey := State.WGServerPublicKey p;
      State.TunnelSubnet := x; LockedBy := LockedBy p |}).

Definition awg_line (s : SyncResult * VPSProfile) (line : string) : SyncResult * VPSProfile :=
  let line := TrimSpace line in
  let s := if HasPrefix line "ListenPort = "
           then set_endpoint ("0.0.0.0:" +:+ TrimPrefix line "ListenPort = ") s else s in
  let s := if HasPrefix line "PublicKey = "
           then set_server_key (TrimPrefix line "PublicKey = ") s else s in
  if HasPrefix line "Address = " then set_subnet (TrimPrefix line "Address = ") s else s.

Definition parseAWGConfig (content : string) (s : SyncResult * VPSProfile) : SyncResult * VPSProfile :=
  foldl awg_line s (Split content nl).

(** [profile.LastSeenAt = time.Now()...] *)
Definition seen_now {E} `{Waiting E} (fmt_time : time -> string) (p : VPSProfile) : eff E VPSProfile :=
  fun e =>
  (Ok {| State.Host := State.Host p; State.Port := State.Port p; State.User := State.User p;
         State.AuthMode := State.AuthMode p; State.PrivateKeyPath := State.PrivateKeyPath p;
         KnownGoodVersion := KnownGoodVersion p; LastSeenAt := fmt_time (w_now e);
         State.Status := State.Status p; State.ComposeHash := State.ComposeHash p;
         State.WGEndpoint := State.WGEndpoint p; State.WGServerPublicKey := State.WGServerPublicKey p;
         State.TunnelSubnet := State.TunnelSubnet p; LockedBy := LockedBy p |}, e).

Section Attach.
Context {E : Type} `{GoSSH E, Waiting E, StateCodec} (config_dir : result string).
(** SHA-256 in hexadecimal; the length of a decoded JSON array of objects;
    [Format(time.RFC3339Nano)] of a time in UTC. *)
Context (Hash : string -> string) (peers_unmarshal : string -> option Z) (fmt_time : time -> string).

Definition probe_conf : string :=
  "sudo docker exec unet-amnezia-awg cat /opt/amnezia/awg/awg0.conf 2>/dev/null | head -30".
Definition probe_clients : string :=
  "sudo docker exec unet-amnezia-awg cat /opt/amnezia/awg/clients.json 2>/dev/null".

(** What a successful command prints, trimmed, or the value before. *)
Definition trimmed_or (old : string) (r : string * option string) : string :=
  match r with (out, None) => TrimSpace out | _ => old end.

(** What the answers of the first four commands say. *)
Definition synced (host : string) (port : Z) (user authMode : string)
    (hash ver awg clients : string * option string) : SyncResult * VPSProfile :=
  let read := bool_decide (snd awg = None) in
  let peers := match clients with
    | (out, None) => if decide (TrimSpace out = "") then 0%Z else default 0%Z (peers_unmarshal out)
    | _ => 0%Z
    end in
  let start := ({| PeersSynced := peers; RoutesSynced := 0; TunnelSynced := read; VPSSynced := true;
                   SWGEndpoint := ""; WGServerKey := ""; STunnelSubnet := "";
                   SComposeHash := trimmed_or "" hash |},
                {| State.Host := host; State.Port := port; State.User := user;
                   State.AuthMode := authMode; State.PrivateKeyPath := "";
                   KnownGoodVersion := trimmed_or "" ver; LastSeenAt := "";
                   State.Status := VPSStatusActive; State.ComposeHash := trimmed_or "" hash;
                   State.WGEndpoint := ""; State.WGServerPublicKey := ""; State.TunnelSubnet := "";
                   LockedBy := "" |}) in
  if read then parseAWGConfig (fst awg) start else start.

Definition SyncState (sess : nat) (host : string) (port : Z) (user authMode : string)
  : eff E (SyncResult * VPSProfile) :=
  hash ← run sess probe_hash;
  ver ← run sess probe_version;
  awg ← run sess probe_conf;
  clients ← run sess probe_clients;
  let s := synced host port user authMode hash ver awg clients in
  let tunnelIP := hd "" (Split (State.TunnelSubnet (snd s)) "/") in
  _ ← run sess ("curl -s http://" +:+ ShellEscape tunnelIP
                +:+ ":2019/config/apps/http/servers/ 2>/dev/null | head -100");
  p ← seen_now fmt_time (snd s);
  mret (fst s, p).

Definition SaveSyncedProfile (profile : VPSProfile) : eff World unit :=
  wrap "attach: save VPSProfile: " (SaveVPSProfile config_dir profile).

(** ** attach.go *)

(** Go's two results. *)
Definition attached : Type := option AttachResult * option string.

Definition refuse_attach (msg : string) : eff (Pool (E := E)) attached := mret (None, Some msg).

(** [pool.Session(ctx)], an error behind [prefix] ending the call. *)
Definition with_sess (prefix : string) (k : nat -> eff (Pool (E := E)) attached) : eff (Pool (E := E)) attached := fun p =>
  (r ← try (Session config_dir (w_now (p_net p)));
   match r with
   | Ok s => k s
   | Err e => refuse_attach (prefix +:+ e)
   | Panic e => panic e
   end) p.

(** A drift is only logged, and so is a failure to look for it. *)
Definition drift_step (opts : AttachOpts) (k : eff (Pool (E := E)) attached) : eff (Pool (E := E)) attached :=
  with_sess "attach: get SSH session for drift check: " (fun sess2 =>
    r ← try (onNet (CheckDrift Hash sess2 (AComposeConfig opts)));
    _ ← Put sess2;
    match r with Panic e => panic e | _ => k end).

Definition sync_step (classification : ClassifyResult) : eff (Pool (E := E)) attached :=
  with_sess "attach: get SSH session for sync: " (fun sess3 p =>
    let cfg := p_cfg p in
    (r ← try (onNet (SyncState sess3 (cn_Host cfg) (cn_Port cfg) (cn_User cfg) (cn_AuthMode cfg)));
     _ ← Put sess3;
     match r with
     | Err e => refuse_attach ("attach: sync state: " +:+ e)
     | Panic e => panic e
     | Ok (sync, profile) =>
         saved ← try (SSH.onDisk (SaveSyncedProfile profile));
         match saved with
         | Err e => refuse_attach ("attach: save profile: " +:+ e)
         | Panic e => panic e
         | Ok _ => mret (Some {| Classification := Some classification; Sync := Some sync;
                                 AZeroDiff := bool_decide (State classification = StateCurrent);
                                 Bootstrapped := false; ADuration := "" |}, None)
         end
     end) p).

Definition route (opts : AttachOpts) (classification : ClassifyResult) : eff (Pool (E := E)) attached :=
  match State classification with
  | StateBlank =>
      '(res, err) ← Bootstrap config_dir Hash (ABootstrapOpts opts);
      match err with
      | Some e => refuse_attach ("attach: bootstrap redirect: " +:+ e)
      | None => mret (Some {| Classification := Some classification; Sync := None; AZeroDiff := false;
                              Bootstrapped := true; ADuration := "" |}, None)
      end
  | StateIncompatible =>
      mret (Some {| Classification := Some classification; Sync := None; AZeroDiff := false;
                    Bootstrapped := false; ADuration := "" |},
            Some ("attach: incompatible VPS version " +:+ VPSVersion classification +:+ " (daemon: "
                  +:+ ADaemonVersion opts +:+ "). Major version mismatch — manual remediation required"))
  | StateOld | StateCurrent => drift_step opts (sync_step classification)
  end.

(** The deferred assignment of [Duration]. *)
Definition stamp_attach (start : time) (a : attached) : eff (Pool (E := E)) attached := fun p =>
  ((Ok ((fun r => {| Classification := Classification r; Sync := Sync r; AZeroDiff := AZeroDiff r;
                     Bootstrapped := Bootstrapped r;
                     ADuration := seconds_string (round_seconds (w_now (p_net p) - start)) |}) <$> fst a,
        snd a)), p).

Definition Attach (opts : AttachOpts) : eff (Pool (E := E)) attached := fun p =>
  (a ← with_sess "attach: get SSH session: " (fun sess =>
     c ← try (onNet (Classify Hash sess (ADaemonVersion opts) (AComposeConfig opts)));
     _ ← Put sess;
     match c with
     | Err e => refuse_attach ("attach: classify: " +:+ e)
     | Panic e => panic e
     | Ok classification => route opts classification
     end);
   stamp_attach (w_now (p_net p)) a) p.
End Attach.

(** ** What an attach amounts to *)

Section Facts.
Context {E : Type} `{GoSSH E, Waiting E, StateCodec} (config_dir : result string).
Context (Hash : string -> string) (peers_unmarshal : string -> option Z) (fmt_time : time -> string).
Abbreviation P := (Pool (E := E)).

(** What the profile takes from the pool's configuration. *)
Definition coordinates (p : VPSProfile) : string * string * string :=
  (State.Host p, State.AuthMode p, State.PrivateKeyPath p).

Lemma awg_line_coordinates s line : coordinates (snd (awg_line s line)) = coordinates (snd s).
Proof.
  destruct s as [r p]. unfold awg_line. cbv zeta.
  by destruct (HasPrefix _ "ListenPort = "), (HasPrefix _ "PublicKey = "), (HasPrefix _ "Address = ").
Qed.

Lemma parse_coordinates content s :
  coordinates (snd (parseAWGConfig content s)) = coordinates (snd s).
Proof.
  unfold parseAWGConfig. revert s. induction (Split content nl) as [|l ls IH]; intros s; [done|].
  simpl. by rewrite IH, awg_line_coordinates.
Qed.

Lemma SyncState_coordinates sess host port user mode e r p e' :
  SyncState peers_unmarshal fmt_time sess host port user mode e = (Ok (r, p), e') ->
  coordinates p = (host, mode, "").
Proof.
  unfold SyncState. intros Hs. do 4 bind_inv Hs. cbv zeta in Hs.
  do 2 bind_inv Hs. injection Hs as _ <- _. injection E5 as <- _.
  unfold synced. cbv zeta. case_bool_decide; [|done].
  exact (parse_coordinates _ (_, _)).
Qed.

(** A successful call inside [with_sess], with the configuration it started from. *)
Lemma with_sess_ok prefix k (p : P) r p' :
  with_sess config_dir prefix k p = (Ok (Some r, None), p') ->
  exists s p1, p_cfg p1 = p_cfg p /\ k s p1 = (Ok (Some r, None), p').
Proof.
  unfold with_sess, mbind, eff_bind, try.
  pose proof (frame_Session config_dir p_cfg (w_now (p_net p)) ltac:(done) ltac:(done) ltac:(done)
    ltac:(done) ltac:(done) p) as Hf.
  destruct (Session config_dir _ p) as [[s|m|m] p1]; simpl in *; [|done..]. eauto.
Qed.

Lemma onNet_try_cfg {A} (m : eff E A) (p p' : P) r :
  try (onNet m) p = (Ok r, p') -> p_cfg p' = p_cfg p.
Proof.
  unfold try, onNet, on_part. destruct (m (p_net p)) as [[a|e|e] e']; by intros [= _ <-].
Qed.

Lemma Put_cfg s (p p' : P) u : Put s p = (Ok u, p') -> p_cfg p' = p_cfg p.
Proof. by intros [= _ <-]. Qed.

(** A session used for one thing and given back. *)
Lemma used_session_ok {A} prefix (m : nat -> eff E A) (k : result A -> eff P attached) (p : P) r p' :
  with_sess config_dir prefix (fun s => x ← try (onNet (m s)); _ ← Put s; k x) p = (Ok (Some r, None), p') ->
  exists x p1, p_cfg p1 = p_cfg p /\ k x p1 = (Ok (Some r, None), p').
Proof.
  intros (s & p1 & Hc & Hk)%with_sess_ok. bind_inv Hk. bind_inv Hk.
  apply onNet_try_cfg in E0. apply Put_cfg in E1. exists a, w0. split; [congruence|done].
Qed.

End Facts.

Section Outcome.
Context {E : Type} `{GoSSH E, Waiting E, StateCodec} (dir : string).
Context (Hash : string -> string) (peers_unmarshal : string -> option Z) (fmt_time : time -> string).
Abbreviation P := (Pool (E := E)).

Lemma sync_step_ok c (p : P) r p' :
  sync_step (Ok dir) peers_unmarshal fmt_time c p = (Ok (Some r, None), p') ->
  Bootstrapped r = false /\ cn_AuthMode (p_cfg p) = AuthModePassword /\
  Classification r = Some c /\
  exists prof, inr <$> files (p_disk p') !! vps_json dir = Some (profile_marshal prof) /\
               VPSProfile_Validate prof = Ok tt /\ State.Host prof = cn_Host (p_cfg p).
Proof.
  intros Hs. unfold sync_step in Hs.
  apply with_sess_ok in Hs as (s & p1 & Hcfg & Hs). cbv zeta in Hs.
  bind_inv Hs. bind_inv Hs. destruct a as [[sync prof]|e|e]; [|done..]. bind_inv Hs.
  destruct a as [[]|e|e]; [|done..]. injection Hs as <- <-. simpl.
  assert (Hco : coordinates prof = (cn_Host (p_cfg p), cn_AuthMode (p_cfg p), "")).
  { rewrite <- Hcfg. revert E0. unfold try, onNet, on_part.
    destruct (SyncState _ _ _ _ _ _ _ (p_net p1)) as [[[sy pr]|m|m] e1] eqn:ES; intros [= -> -> _].
    by eapply SyncState_coordinates. }
  revert E2. unfold try, SSH.onDisk, on_part, SaveSyncedProfile, wrap.
  pose proof (SaveVPSProfile_outcome dir prof (p_disk w0)) as Ho.
  destruct (SaveVPSProfile (Ok dir) prof (p_disk w0)) as [[[]|m|m] d]; simpl; intros [= <-]; simpl.
  destruct Ho as (Hv & data & Hd & Hf). injection Hco as Hh Hm Hk.
  split_and!; [done| |done|exists prof; by rewrite Hf, Hd].
  unfold VPSProfile_Validate in Hv. repeat (apply result_bind_ok in Hv as ([] & ? & Hv)).
  rewrite <- Hm. destruct (decide (State.AuthMode prof = AuthModeKey)) as [Hkey|Hnk]; [|
    by destruct (decide (State.AuthMode prof = AuthModePassword))].
  by rewrite Hk in *.
Qed.

Lemma drift_sync_ok opts c (p : P) r p' :
  drift_step (Ok dir) Hash opts (sync_step (Ok dir) peers_unmarshal fmt_time c) p
    = (Ok (Some r, None), p') ->
  Bootstrapped r = false /\ cn_AuthMode (p_cfg p) = AuthModePassword /\
  Classification r = Some c /\
  exists prof, inr <$> files (p_disk p') !! vps_json dir = Some (profile_marshal prof) /\
               VPSProfile_Validate prof = Ok tt /\ State.Host prof = cn_Host (p_cfg p).
Proof.
  intros (d & p2 & Hcfg & Hd)%used_session_ok. rewrite <- Hcfg.
  by destruct d; [apply sync_step_ok in Hd..|].
Qed.

(** An attach that reports success either redirected a blank host to a
    bootstrap that succeeded, or found an old or current installation, on a
    pool with password authentication, and left a valid profile of the pool's
    host in the profile file; with key authentication an existing installation
    cannot be attached, since the profile's key path is never filled in. *)
Theorem attach_success opts (p : P) r p' :
  Attach (Ok dir) Hash peers_unmarshal fmt_time opts p = (Ok (Some r, None), p') ->
  (Bootstrapped r = true /\ Sync r = None /\ State <$> Classification r = Some StateBlank) \/
  (Bootstrapped r = false /\ cn_AuthMode (p_cfg p) = AuthModePassword /\
   (State <$> Classification r = Some StateOld \/ State <$> Classification r = Some StateCurrent) /\
   exists prof, inr <$> files (p_disk p') !! vps_json dir = Some (profile_marshal prof) /\
                VPSProfile_Validate prof = Ok tt /\ State.Host prof = cn_Host (p_cfg p)).
Proof.
  unfold Attach. intros Ha. bind_inv Ha. destruct a as [res err].
  unfold stamp_attach in Ha. injection Ha as Hr -> ->. destruct res as [r0|]; [|done].
  injection Hr as <-. simpl.
  apply used_session_ok in E0 as (c & p1 & Hcfg & Hc). destruct c as [c|e|e]; [|done..].
  unfold route in Hc. destruct (State c) eqn:Hst.
  - bind_inv Hc. destruct a as [res [err|]]; [done|]. injection Hc as <- _. left. simpl. by rewrite Hst.
  - right. apply drift_sync_ok in Hc as (? & ? & -> & ?). simpl. rewrite Hst, <- Hcfg. auto.
  - right. apply drift_sync_ok in Hc as (? & ? & -> & ?). simpl. rewrite Hst, <- Hcfg. auto.
  - done.
Qed.
End Outcome.

Section OneCommand.
Context {E : Type} `{GoSSHLaws E, Waiting E, StateCodec} (config_dir : result string).
Context (Hash : string -> string) (peers_unmarshal : string -> option Z) (fmt_time : time -> string).

(** C28: on sessions that take one command, as golang.org/x/crypto/ssh has
    them, an attach never succeeds: only the first probe runs, so every host
    counts as blank, and the bootstrap it is redirected to fails its own
    preflight for the same reason. *)
Theorem attach_never_succeeds opts p r err p' :
  Attach config_dir Hash peers_unmarshal fmt_time opts p = (Ok (r, err), p') -> err <> None.
Proof.
  unfold Attach. intros Ha. bind_inv Ha. destruct a as [res e].
  unfold stamp_attach in Ha. injection Ha as _ <- _.
  unfold with_sess, mbind at 1, eff_bind at 1, try at 1 in E0.
  destruct (Session config_dir _ p) as [[s|m|m] p1]; simpl in E0; [|by injection E0 as _ <- _|done].
  bind_inv E0. bind_inv E0. unfold try, onNet, on_part in E1.
  destruct (Classify_one_command Hash s (ADaemonVersion opts) (AComposeConfig opts) (p_net p1))
    as (c & e1 & Hc & Hst & _).
  rewrite Hc in E1. injection E1 as <- <-. unfold route in E0. rewrite Hst in E0.
  bind_inv E0. destruct a as [res' err']. apply Bootstrap_one_command in E1.
  destruct err' as [msg|]; [|done]. by injection E0 as _ <- _.
Qed.
End OneCommand.

(** ** Witnesses *)

Definition old_host (c : string) : string :=
  if decide (c = probe_docker) then "/usr/bin/docker" else
  if decide (c = probe_version) then "0.2.0" else "".

Definition attach_pool : Pool (E := Z) :=
  {| p_cfg := sample_ssh; client := None; sessions := ∅; closed := false; lastUsed := 0;
     p_net := 0%Z; p_disk := empty_disk |}.
Definition attach_opts : AttachOpts :=
  {| ADaemonVersion := "0.3.0"; AComposeConfig := cfg1;
     ABootstrapOpts := {| ComposeConfig := cfg1; DaemonVersion := "0.3.0" |} |}.
Definition length_hash (s : string) : string := Itoa (Z.of_nat (slen s)).

Definition reports_success {W} (a : result attached * W) : bool :=
  match a with (Ok (Some _, None), _) => true | _ => false end.

Lemma attach_success_witness :
  let a := @Attach Z (scripted old_host) wall_clock count_codec (Ok "d") length_hash (fun _ => None) Itoa
             attach_opts attach_pool in
  match a with
  | (Ok (Some r, None), p') =>
      Bootstrapped r = true \/
      exists prof, inr <$> files (p_disk p') !! vps_json "d" = Some (@profile_marshal count_codec prof)
  | _ => False
  end.
Proof.
  intros a. assert (Hs : reports_success a = true) by (vm_compute; reflexivity).
  assert (Ha : @Attach Z (scripted old_host) wall_clock count_codec (Ok "d") length_hash (fun _ => None)
                 Itoa attach_opts attach_pool = a) by reflexivity.
  clearbody a. destruct a as [[[[r|] [e|]]|e|e] p']; try discriminate Hs.
  apply (attach_success (H1 := count_codec)) in Ha as [(? & _)|(_ & _ & _ & prof & ? & _)]; eauto.
Defined.

Lemma attach_never_succeeds_witness :
  let W := @Build_Waiting (gset nat) (fun _ => 0%Z) (fun _ => None) (fun _ e => (None, e)) in
  let p := {| p_cfg := sample_ssh; client := None; sessions := ∅; closed := false; lastUsed := 0;
              p_net := ∅; p_disk := empty_disk |} in
  let a := @Attach (gset nat) (echo_ssh "ok") W count_codec (Ok "d") length_hash (fun _ => None) Itoa
             attach_opts p in
  exists r err p', a = (Ok (r, err), p') /\ err <> None.
Proof.
  intros W p a. assert (Hs : match fst a with Ok _ => true | _ => false end = true) by (vm_compute; reflexivity).
  assert (Ha : @Attach (gset nat) (echo_ssh "ok") W count_codec (Ok "d") length_hash (fun _ => None)
                 Itoa attach_opts p = a) by reflexivity.
  clearbody a. destruct a as [[[r err]|e|e] p']; try discriminate Hs. exists r, err, p'. split; [done|].
  exact (@attach_never_succeeds (gset nat) _ (echo_ssh_laws "ok") W count_codec _ _ _ _ _ _ _ _ _ Ha).
Defined.
