(* ===== verification/Snapshot.v ===== *)
(** * lifecycle/snapshot: configuration snapshots on the host

    Creating, restoring, listing and pruning snapshots: commands on a session
    of [SSH].  The formatted clock is an argument; a snapshot's name is its
    time, so the names sort by age. *)

From stdpp Require Import sorting.
From S2P Require Import Prelude GoLib ServerConfig SSH Detect.

Definition snapshotDir : string := "/opt/unet/snapshots".
Definition maxSnapshots : nat := 5.
Definition timestampFormat : string := "20060102-150405".

Record SnapshotInfo := { ID : string; Timestamp : string; Path : string }.

Definition snapshot (id : string) : SnapshotInfo :=
  {| ID := id; Timestamp := id; Path := snapshotDir +:+ "/" +:+ id +:+ "/snapshot.tar.gz" |}.

Definition create_script (snapPath : string) : string :=
  text_lines ["set -euo pipefail"; "sudo mkdir -p " +:+ snapPath; "cd " +:+ snapPath;
    "# Collect config files (ignore missing)";
    "sudo cp /opt/unet/docker-compose.yml . 2>/dev/null || true";
    "sudo cp /opt/unet/.compose-hash ./compose.hash 2>/dev/null || true";
    "sudo cp /opt/unet/version . 2>/dev/null || true";
    "# AWG config from container (if running)";
    "sudo docker cp unet-amnezia-awg:/opt/amnezia/awg/awg0.conf ./awg0.conf 2>/dev/null || true";
    "# Create archive";
    "sudo tar czf snapshot.tar.gz -- *.conf *.yml *.hash version 2>/dev/null || true";
    "sudo rm -f *.conf *.yml *.hash version 2>/dev/null || true";
    quoted "echo ~ok~"].

Definition restore_script (snapPath : string) : string :=
  text_lines ["set -euo pipefail"; "# Verify snapshot exists";
    "if ! sudo test -f " +:+ snapPath +:+ "; then"; quoted "  echo ~ERROR: snapshot not found~ >&2";
    "  exit 1"; "fi"; "# Stop compose";
    "cd /opt/unet && sudo docker compose down --remove-orphans 2>/dev/null || true";
    "# Restore files"; "cd /opt/unet && sudo tar xzf " +:+ snapPath;
    "# Move compose hash to canonical location";
    "sudo mv /opt/unet/compose.hash /opt/unet/.compose-hash 2>/dev/null || true";
    "# Restart compose"; "cd /opt/unet && sudo docker compose up -d"; quoted "echo ~ok~"].

(** A line of the listing, unless its name has not the length of a time. *)
Definition snapshot_line (line : string) : option SnapshotInfo :=
  let line := TrimSpace line in
  if decide (line = "") then None else
  let base := TrimSuffix (TrimPrefix line (snapshotDir +:+ "/")) "/" in
  if decide (slen base <> slen timestampFormat) then None else Some (snapshot base).

(** Newer, or of the same name. *)
Definition newer (a b : SnapshotInfo) : Prop := string_ltb (ID a) (ID b) = false.
#[export] Instance newer_dec : RelDecision newer.
Proof. intros a b. unfold newer. apply _. Defined.

Definition parse_list (out : string) : list SnapshotInfo := omap snapshot_line (Split out nl).

(** Newest first. *)
Definition sorted_list (out : string) : list SnapshotInfo := merge_sort newer (parse_list out).

Section Snapshots.
Context {E : Type} `{GoSSH E}.

Definition list_command : string := "sudo ls -1d " +:+ snapshotDir +:+ "/*/ 2>/dev/null".

(** A listing that fails counts as no snapshots. *)
Definition List (sess : nat) : eff E (list SnapshotInfo) :=
  '(out, err) ← run sess list_command;
  match err with Some _ => mret [] | None => mret (sorted_list out) end.

Definition remove_command (s : SnapshotInfo) : string :=
  "sudo rm -rf " +:+ snapshotDir +:+ "/" +:+ ShellEscape (ID s).

(** A failure to remove one is only logged. *)
Fixpoint remove_all (sess : nat) (l : list SnapshotInfo) : eff E unit :=
  match l with [] => mret tt | s :: l' => _ ← run sess (remove_command s); remove_all sess l' end.

Definition Prune (sess : nat) : eff E unit :=
  snaps ← List sess;
  if decide (length snaps <= maxSnapshots) then mret tt
  else remove_all sess (drop maxSnapshots snaps).

Definition Create (sess : nat) (ts : string) : eff E SnapshotInfo :=
  let snapPath := snapshotDir +:+ "/" +:+ ts in
  '(_, _, err) ← run_script sess (create_script snapPath);
  match err with
  | Some e => throw ("snapshot: create failed: " +:+ e)
  | None => _ ← try (Prune sess); mret (snapshot ts)
  end.

Definition Restore (sess : nat) (snapshotID : string) : eff E unit :=
  '(_, _, err) ← run_script sess
    (restore_script (snapshotDir +:+ "/" +:+ snapshotID +:+ "/snapshot.tar.gz"));
  match err with Some e => throw ("snapshot: restore failed: " +:+ e) | None => mret tt end.
End Snapshots.

(** ** The order of the list *)

#[export] Instance newer_total : Total newer.
Proof.
  intros a b. unfold newer. destruct (string_ltb (ID a) (ID b)) eqn:E1; [|by left].
  right. by apply string_ltb_asym.
Qed.

#[export] Instance newer_trans : Transitive newer.
Proof.
  intros a b c Hab Hbc. unfold newer in *. destruct (string_ltb (ID a) (ID c)) eqn:Hac; [|done].
  destruct (string_ltb_cotrans _ (ID b) _ Hac); congruence.
Qed.

(** Pruning keeps the five newest: the snapshots listed are split into at
    most five that stay and the rest, for each of which one removal is run;
    whichever stays is at least as new as whichever goes, and none is lost or
    counted twice. *)
Theorem prune_keeps_newest {E} `{GoSSH E} sess e out e1 :
  run sess list_command e = (Ok (out, None), e1) ->
  exists kept removed, parse_list out ≡ₚ kept ++ removed /\ length kept <= maxSnapshots /\
    (removed <> [] -> length kept = maxSnapshots) /\
    (forall k r, k ∈ kept -> r ∈ removed -> newer k r) /\
    Prune sess e = remove_all sess removed e1.
Proof.
  intros Hrun. set (l := sorted_list out).
  exists (take maxSnapshots l), (drop maxSnapshots l). rewrite take_drop.
  assert (Hs : StronglySorted newer l) by apply (StronglySorted_merge_sort newer).
  split_and!.
  - symmetry. apply merge_sort_Permutation.
  - rewrite length_take. lia.
  - intros Hne. rewrite length_take. apply Nat.min_l.
    destruct (decide (maxSnapshots <= length l)) as [Hl|Hl]; [exact Hl|].
    destruct Hne. apply drop_ge. lia.
  - intros k r Hk Hr. rewrite <- (take_drop maxSnapshots l) in Hs.
    by eapply StronglySorted_app_1_elem_of.
  - unfold Prune, List, mbind, eff_bind. rewrite Hrun. fold l. simpl.
    case_decide; [|done]. by rewrite drop_ge by done.
Qed.

(** On a session that takes one command, [Create] uses it up: nothing is ever
    pruned. *)
Lemma create_never_prunes {E} `{GoSSHLaws E} sess ts e :
  exists e1 err e2, run sess list_command e1 = (Ok ("", Some err), e2) /\
    snd (Create sess ts e) = (if is_ok (fst (Create sess ts e)) then e2 else e1).
Proof.
  unfold Create. cbv zeta. unfold mbind, eff_bind.
  assert (Hst : started sess (snd (run_script sess (create_script (snapshotDir +:+ "/" +:+ ts)) e))).
  { unfold run_script, RunScript.
    pose proof (started_exec sess "bash -s" (create_script (snapshotDir +:+ "/" +:+ ts)) e) as Hs.
    by destruct (gs_exec _ _ _ e) as [[]]. }
  destruct (run_script sess _ e) as [[[[o1 o2] [m|]]|m|m] e1]; simpl in *.
  all: destruct (run_started sess list_command e1 Hst) as (err & e2 & Hrun & _).
  all: exists e1, err, e2; split; [done|]; try done.
  unfold try, Prune, List, mbind, eff_bind. by rewrite Hrun.
Qed.

Lemma prune_keeps_newest_witness :
  let out := text_lines (map (fun d => "/opt/unet/snapshots/2026010" +:+ Itoa (Z.of_nat d) +:+ "-120000/")
               (seq 1 7)) in
  exists kept removed, length kept = 5 /\ parse_list out ≡ₚ kept ++ removed /\
    @Prune _ (echo_ssh out) 0 ∅ = @remove_all _ (echo_ssh out) 0 removed {[0]}.
Proof.
  intros out.
  destruct (@prune_keeps_newest _ (echo_ssh out) 0 ∅ out {[0]}) as (kept & removed & Hp & Hle & Hk & _ & He).
  - vm_compute. reflexivity.
  - exists kept, removed. split_and!; [|done|done]. apply Hk. intros ->.
    apply Permutation_length in Hp.
    assert (length (parse_list out) = 7) as Hl by (vm_compute; reflexivity).
    rewrite Hl, app_nil_r in Hp. unfold maxSnapshots in Hle. lia.
Defined.
