(* ===== verification/DNS.v ===== *)
(** * dns and proxy/dns.go: DNS records at Cloudflare

    Two clients of the Cloudflare API live side by side: package [dns] (Module
    [Dns]: the client and the manager above it) and [proxy.DNSManager] (Module
    [Proxy]).  Both are written over one HTTP interface and one JSON codec;
    [CFServer] is the documented behaviour of the API on one page of records.
    DNS look-ups only reach the log and are left out. *)

From S2P Require Import Prelude GoLib Config.

(** Both packages declare this record with the same fields. *)
Record DNSRecord := {
  RecID : string; RecType : string; RecName : string; Content : string; Proxied : bool; TTL : Z
}.

#[export] Instance DNSRecord_eq_dec : EqDecision DNSRecord.
Proof. solve_decision. Defined.

Record cfAPIError := { ErrCode : Z; ErrMessage : string }.
(** [cfResponse] and [cfAPIResponse]; the result stays the raw JSON text. *)
Record cfResponse := { Success : bool; CFErrors : list cfAPIError; Result : string }.
Record TokenVerifyResponse := { VStatus : string; VID : string }.
Record zoneJSON := { ZoneID : string; ZoneName : string }.

Class CFCodec := {
  record_marshal : DNSRecord -> string;
  response_unmarshal : string -> option cfResponse;
  verify_unmarshal : string -> option TokenVerifyResponse;
  records_unmarshal : string -> option (list DNSRecord);
  zones_unmarshal : string -> option (list zoneJSON)
}.

(** [http.NewRequest], and [httpClient.Do] with the token of its
    [Authorization] header: status and the body, or why it cannot be read. *)
Class CFHTTP (E : Type) := {
  cf_request : string -> string -> option string;
  cf_do : string -> string -> string -> string -> eff E (Z * result string)
}.

(** [strings.Join(msgs, sep)] *)
Fixpoint join_with (sep : string) (l : list string) : string :=
  match l with
  | [] => EmptyString
  | [a] => a
  | a :: l' => a +:+ sep +:+ join_with sep l'
  end.

Definition cfErrors_text (es : list cfAPIError) : string :=
  join_with "; " (map (fun e => Itoa (ErrCode e) +:+ ": " +:+ ErrMessage e) es).

Definition cfAPIBase : string := "https://api.cloudflare.com/client/v4".

(** The interface of the DNS manager to the handlers that expose ports. *)
Class DNSRecords (D : Type) := {
  CreateRecord : string -> eff D unit;
  DeleteRecord : string -> eff D unit
}.

Module Dns.
Section Client.
Context {E : Type} `{CFHTTP E} `{CFCodec}.

(** A [CloudflareClient] is its token. *)
Definition doRequest (token method path body : string) : eff E (Z * result string) :=
  match cf_request method (cfAPIBase +:+ path) with
  | Some e => throw ("dns/cloudflare: create request: " +:+ e)
  | None => cf_do method (cfAPIBase +:+ path) token body
  end.

Definition handleResponse (resp : Z * result string) (operation : string) : result cfResponse :=
  let '(code, body) := resp in
  let pre := "dns/cloudflare: " +:+ operation +:+ ": " in
  body ← wrap_err (pre +:+ "read body: ") body;
  _ ← fail_if (bool_decide (code = 503)%Z) (pre +:+ "api unreachable (503)");
  match response_unmarshal body with
  | None => Err (pre +:+ "HTTP " +:+ Itoa code +:+ ": " +:+ body)
  | Some r => if Success r then Ok r else Err (pre +:+ cfErrors_text (CFErrors r))
  end.

(** A request and its handled answer. *)
Definition request (token method path body failed operation : string) : eff E cfResponse :=
  resp ← wrap failed (doRequest token method path body);
  lift (handleResponse resp operation).

Definition decoded {A} (o : option A) (what : string) : eff E A :=
  match o with Some a => mret a | None => throw ("dns/cloudflare: decode " +:+ what) end.

(** [ValidateToken] and [ValidateTokenScopes] differ in their messages only. *)
Definition verify (token failed operation : string) : eff E unit :=
  r ← request token "GET" "/user/tokens/verify" EmptyString failed operation;
  v ← decoded (verify_unmarshal (Result r)) "token verify response";
  lift (fail_if (negb (bool_decide (VStatus v = "active")))
          ("dns/cloudflare: token status " +:+ VStatus v +:+ ", expected active")).

Definition ValidateToken (token : string) : eff E unit :=
  verify token "dns/cloudflare: validate token: " "validate token".
Definition ValidateTokenScopes (token : string) : eff E unit :=
  verify token "dns/cloudflare: validate token scopes: " "validate token scopes".

Definition records_path (zoneID : string) : string := "/zones/" +:+ zoneID +:+ "/dns_records".

Definition ListRecords (token zoneID name recordType : string) : eff E (list DNSRecord) :=
  r ← request token "GET" (records_path zoneID +:+ "?type=" +:+ recordType +:+ "&name=" +:+ name)
        EmptyString "dns/cloudflare: list records: " "list records";
  decoded (records_unmarshal (Result r)) "records".

Definition a_record (name ip : string) : DNSRecord :=
  {| RecID := ""; RecType := "A"; RecName := name; Content := ip; Proxied := false; TTL := 120 |}.

Definition UpsertARecord (token zoneID name ip : string) : eff E unit :=
  existing ← wrap "dns/cloudflare: upsert: check existing: " (ListRecords token zoneID name "A");
  let payload := record_marshal (a_record name ip) in
  _ ← match existing with
      | r :: _ => request token "PUT" (records_path zoneID +:+ "/" +:+ RecID r) payload
                    "dns/cloudflare: upsert: update request: " "update record"
      | [] => request token "POST" (records_path zoneID) payload
                "dns/cloudflare: upsert: create request: " "create record"
      end;
  mret tt.

Definition DeleteRecord (token zoneID recordID : string) : eff E unit :=
  _ ← request token "DELETE" (records_path zoneID +:+ "/" +:+ recordID) EmptyString
        "dns/cloudflare: delete record: " "delete record";
  mret tt.

Definition GetZoneID (token zoneName : string) : eff E string :=
  r ← request token "GET" ("/zones?name=" +:+ zoneName) EmptyString
        "dns/cloudflare: get zone id: " "get zone id";
  zones ← decoded (zones_unmarshal (Result r)) "zones";
  match zones with
  | z :: _ => mret (ZoneID z)
  | [] => throw ("dns/cloudflare: zone " +:+ zoneName +:+ " not found")
  end.
End Client.

(** ** manager.go *)

Inductive CertStrategy := CertStrategyWildcardDNS01 | CertStrategyHTTP01.

Definition CertStrategyForMode (mode : string) : CertStrategy :=
  if decide (mode = "cloudflare") then CertStrategyWildcardDNS01 else CertStrategyHTTP01.

(** The map [CaddyTLSConfig] returns: the issuer's challenges, the provider
    with its token, the subject. *)
Record TLSConfig := {
  challenges : list string; provider : option (string * string); subject : option (list string)
}.

(** A set of the non-empty host headers. *)
Definition countExposed (ports : list ExposedPort) : nat :=
  size (list_to_set (filter (fun h => h <> EmptyString) (map HostHeader ports)) : gset string).

Definition maskToken (s : SecretString) : string := mask s.

Definition RateLimitWarning (mode : string) (exposedCount : Z) : string :=
  if decide (mode <> "cloudflare" /\ 5 < exposedCount)%Z
  then "manual DNS mode with " +:+ Itoa exposedCount +:+
       " exposed subdomains may exceed Let's Encrypt HTTP-01 rate limits (~50 certs/week). Consider switching to cloudflare mode for DNS-01 wildcard certs."
  else EmptyString.

Section Manager.
Context {C E : Type} `{ConfigManager C} `{CFHTTP E} `{CFCodec}.

Record Manager := { cfgMgr : C; cfClient : option string; net : E }.
Definition with_net (e : E) (m : Manager) : Manager :=
  {| cfgMgr := cfgMgr m; cfClient := cfClient m; net := e |}.

Definition NewManager (c : C) (e : E) : Manager := {| cfgMgr := c; cfClient := None; net := e |}.

(** The client is made once, with the token the configuration holds then. *)
Definition cf : eff Manager string := fun m =>
  match cfClient m with
  | Some token => (Ok token, m)
  | None => let token := Plain (Token (DNS (cfg_get (cfgMgr m)))) in
            (Ok token, {| cfgMgr := cfgMgr m; cfClient := Some token; net := net m |})
  end.

Definition dns_config : eff Manager DNSConfig := fun m => (Ok (DNS (cfg_get (cfgMgr m))), m).

(** An operation of the client of [cf]. *)
Definition with_cf {A} (op : string -> eff E A) : eff Manager A :=
  token ← cf; on_part net with_net (op token).

Definition CaddyTLSConfig (mode zone : string) : eff Manager TLSConfig :=
  cfg ← dns_config;
  mret (if decide (mode = "cloudflare")
        then {| challenges := ["dns-01"]; provider := Some ("cloudflare", Plain (Token cfg));
                subject := Some ["*." +:+ zone] |}
        else {| challenges := ["http-01"]; provider := None; subject := None |}).

Definition UpsertRecord (subdomain ip : string) : eff Manager unit :=
  cfg ← dns_config;
  if decide (Provider cfg = "cloudflare") then
    wrap "dns/manager: upsert: "
      (_ ← with_cf ValidateTokenScopes;
       zoneID ← with_cf (fun t => GetZoneID t (Zone cfg));
       with_cf (fun t => UpsertARecord t zoneID (subdomain +:+ "." +:+ Zone cfg) ip))
  else mret tt.

(** The loop over the records found. *)
Fixpoint delete_all (zoneID : string) (records : list DNSRecord) : eff Manager unit :=
  match records with
  | [] => mret tt
  | r :: records' =>
      _ ← wrap ("dns/manager: delete record " +:+ RecID r +:+ ": ")
            (with_cf (fun t => DeleteRecord t zoneID (RecID r)));
      delete_all zoneID records'
  end.

Definition Manager_DeleteRecord (subdomain : string) : eff Manager unit :=
  cfg ← dns_config;
  if decide (Provider cfg = "cloudflare") then
    zoneID ← wrap "dns/manager: delete: " (with_cf (fun t => GetZoneID t (Zone cfg)));
    records ← wrap "dns/manager: delete: find record: "
                (with_cf (fun t => ListRecords t zoneID (subdomain +:+ "." +:+ Zone cfg) "A"));
    delete_all zoneID records
  else mret tt.

Definition ValidateConfig : eff Manager unit :=
  cfg ← dns_config;
  if decide (Provider cfg = "cloudflare") then
    _ ← lift (fail_if (bool_decide (Token cfg = "")) "dns/manager: cloudflare mode requires a token");
    _ ← lift (fail_if (bool_decide (Zone cfg = "")) "dns/manager: cloudflare mode requires a zone");
    wrap "dns/manager: validate config: "
      (_ ← with_cf ValidateToken; _ ← with_cf ValidateTokenScopes;
       _ ← with_cf (fun t => GetZoneID t (Zone cfg)); mret tt)
  else mret tt.
End Manager.
End Dns.

Module Proxy.
Section DNSManager.
Context {C E : Type} `{ConfigManager C} `{CFHTTP E} `{CFCodec}.

Record DNSManager := { cfgMgr : C; httpClient : E }.
Definition with_httpClient (e : E) (m : DNSManager) : DNSManager :=
  {| cfgMgr := cfgMgr m; httpClient := e |}.

Definition NewDNSManager (c : C) (e : E) : DNSManager := {| cfgMgr := c; httpClient := e |}.

(** The body is decoded before the status is looked at; an answer that is not
    JSON is a success when its status is below 400. *)
Definition handleCFResponse (resp : Z * result string) (operation : string) : result unit :=
  let '(code, body) := resp in
  let pre := "proxy/dns: " +:+ operation +:+ ": " in
  match (match body with Ok b => response_unmarshal b | _ => None end) with
  | None => fail_if (bool_decide (400 <= code)%Z) (pre +:+ "HTTP " +:+ Itoa code)
  | Some r => fail_if (negb (Success r)) (pre +:+ cfErrors_text (CFErrors r))
  end.

(** A request with its own texts for a bad URL and an unreachable API. *)
Definition send (bad unreachable token method url body : string) : eff E (Z * result string) :=
  match cf_request method url with
  | Some e => throw (bad +:+ e)
  | None => wrap unreachable (cf_do method url token body)
  end.

Definition findCloudflareRecord (token zoneID name : string) : eff E (option DNSRecord) :=
  '(code, body) ← send "" "cloudflare api unreachable: " token "GET"
     (cfAPIBase +:+ "/zones/" +:+ zoneID +:+ "/dns_records?name=" +:+ name) EmptyString;
  if decide (400 <= code)%Z
  then throw ("cloudflare returned " +:+ Itoa code +:+ ": " +:+
              match body with Ok b => b | _ => EmptyString end)
  else
    match (match body with
           | Ok b => r ← response_unmarshal b; l ← records_unmarshal (Result r); Some (Success r, l)
           | _ => None
           end) with
    | None => throw "decode response"
    | Some (false, _) | Some (_, []) => mret None
    | Some (true, r :: _) => mret (Some r)
    end.

Definition auto_record (recordType name content : string) : DNSRecord :=
  {| RecID := ""; RecType := recordType; RecName := name; Content := content; Proxied := false;
     TTL := 1 |}.

Definition updateCloudflareRecord (token zoneID recordID name recordType content : string)
  : eff E unit :=
  resp ← send "create request: " "cloudflare api unreachable: " token "PUT"
           (cfAPIBase +:+ "/zones/" +:+ zoneID +:+ "/dns_records/" +:+ recordID)
           (record_marshal (auto_record recordType name content));
  lift (handleCFResponse resp "update record").

(** [subdomain.domain], unless the text already ends in the domain. *)
Definition record_name (subdomain domain : string) : string :=
  if HasSuffix subdomain domain then subdomain else subdomain +:+ "." +:+ domain.

(** The zone's name stands for its identifier. *)
Definition createCloudflareRecord (cfg : RootConfig) (subdomain : string) : eff E unit :=
  let token := Plain (Token (DNS cfg)) in
  let zoneID := Zone (DNS cfg) in
  let vpsIP := ServerIP (Tunnel cfg) in
  _ ← lift (fail_if (bool_decide (token = "")) "proxy/dns: cloudflare API token not configured");
  _ ← lift (fail_if (bool_decide (zoneID = "")) "proxy/dns: cloudflare zone not configured");
  let name := record_name subdomain zoneID in
  _ ← lift (fail_if (bool_decide (vpsIP = "")) "proxy/dns: tunnel server IP not configured");
  existing ← wrap "proxy/dns: check existing record: " (findCloudflareRecord token zoneID name);
  match existing with
  | Some r => if decide (Content r <> vpsIP)
              then updateCloudflareRecord token zoneID (RecID r) name "A" vpsIP else mret tt
  | None =>
      resp ← send "proxy/dns: create request: " "proxy/dns: cloudflare api unreachable: " token "POST"
               (cfAPIBase +:+ "/zones/" +:+ zoneID +:+ "/dns_records")
               (record_marshal (auto_record "A" name vpsIP));
      lift (handleCFResponse resp "create record")
  end.

Definition deleteCloudflareRecord (cfg : RootConfig) (subdomain : string) : eff E unit :=
  let token := Plain (Token (DNS cfg)) in
  let zoneID := Zone (DNS cfg) in
  _ ← lift (fail_if (bool_decide (token = "" \/ zoneID = ""))
              "proxy/dns: cloudflare not configured (token or zone missing)");
  existing ← wrap "proxy/dns: find record: "
               (findCloudflareRecord token zoneID (record_name subdomain zoneID));
  match existing with
  | None => mret tt
  | Some r =>
      resp ← send "proxy/dns: create delete request: " "proxy/dns: cloudflare api unreachable: "
               token "DELETE" (cfAPIBase +:+ "/zones/" +:+ zoneID +:+ "/dns_records/" +:+ RecID r)
               EmptyString;
      lift (handleCFResponse resp "delete record")
  end.

(** [validateManualDNS] only logs. *)
Definition validateManualDNS (cfg : RootConfig) (subdomain : string) : result unit := Ok tt.

(** The provider decides, in lower case. *)
Definition by_provider (cloudflare : RootConfig -> eff E unit) (manual : RootConfig -> result unit)
  : eff DNSManager unit := fun m =>
  let cfg := cfg_get (cfgMgr m) in
  let p := ToLower (Provider (DNS cfg)) in
  if decide (p = "cloudflare") then on_part httpClient with_httpClient (cloudflare cfg) m
  else if decide (p = "manual" \/ p = "") then (manual cfg, m)
  else (Err ("proxy/dns: unsupported provider " +:+ Provider (DNS cfg)), m).

Definition DNSManager_CreateRecord (subdomain : string) : eff DNSManager unit :=
  by_provider (fun cfg => createCloudflareRecord cfg subdomain)
              (fun cfg => validateManualDNS cfg subdomain).
Definition DNSManager_DeleteRecord (subdomain : string) : eff DNSManager unit :=
  by_provider (fun cfg => deleteCloudflareRecord cfg subdomain) (fun _ => Ok tt).

#[export] Instance proxy_records : DNSRecords DNSManager := {|
  CreateRecord := DNSManager_CreateRecord;
  DeleteRecord := DNSManager_DeleteRecord
|}.
End DNSManager.
End Proxy.

(** ** The API: what Cloudflare documents *)

Definition with_id (id : string) (r : DNSRecord) : DNSRecord :=
  {| RecID := id; RecType := RecType r; RecName := RecName r; Content := Content r;
     Proxied := Proxied r; TTL := TTL r |}.

(** Identifiers have no separators of a URL. *)
Definition plain_id (s : string) : bool := free_of "/" s && free_of "?" s && free_of "&" s.

Definition named (n : string) (r : DNSRecord) : Prop := RecName r = n.
Definition a_named (n : string) (r : DNSRecord) : Prop := RecType r = "A" /\ RecName r = n.
#[export] Instance named_dec n r : Decision (named n r).
Proof. unfold named. apply _. Defined.
#[export] Instance a_named_dec n r : Decision (a_named n r).
Proof. unfold a_named. apply _. Defined.

(** An answer whose envelope says success, and its result. *)
Definition accepted `{CFCodec} (resp : Z * result string) (raw : string) : Prop :=
  exists body r, snd resp = Ok body /\ response_unmarshal body = Some r /\ Success r = true /\
                 Result r = raw.

(** Zones, and the records of each by the zone's identifier.  Reading changes
    nothing; a record that is created gets an identifier; a zone nobody has is
    answered with an error status. *)
Class CFServer (E : Type) `{CFHTTP E} `{CFCodec} := {
  zones : E -> list zoneJSON;
  zone : E -> string -> list DNSRecord;
  ids_plain e : Forall (fun z => plain_id (ZoneID z) = true) (zones e);
  rec_ids_plain e z : Forall (fun r => plain_id (RecID r) = true) (zone e z);
  cf_reads url tok e r e' : cf_do "GET" url tok "" e = (r, e') ->
    zones e' = zones e /\ forall z, zone e' z = zone e z;
  cf_zones tok n e resp e' raw l :
    cf_do "GET" (cfAPIBase +:+ "/zones?name=" +:+ n) tok "" e = (Ok resp, e') ->
    accepted resp raw -> zones_unmarshal raw = Some l ->
    l = filter (fun z => ZoneName z = n) (zones e);
  cf_list tok z n e resp e' raw l : plain_id z = true ->
    cf_do "GET" (cfAPIBase +:+ Dns.records_path z +:+ "?type=A&name=" +:+ n) tok "" e = (Ok resp, e') ->
    accepted resp raw -> records_unmarshal raw = Some l -> l = filter (a_named n) (zone e z);
  cf_find tok z n e resp e' raw l : plain_id z = true ->
    cf_do "GET" (cfAPIBase +:+ "/zones/" +:+ z +:+ "/dns_records?name=" +:+ n) tok "" e = (Ok resp, e') ->
    accepted resp raw -> records_unmarshal raw = Some l -> l = filter (named n) (zone e z);
  cf_unknown tok z n e resp e' : plain_id z = true -> z ∉ map ZoneID (zones e) ->
    cf_do "GET" (cfAPIBase +:+ "/zones/" +:+ z +:+ "/dns_records?name=" +:+ n) tok "" e = (Ok resp, e') ->
    (400 <= fst resp)%Z;
  cf_create tok z r e resp e' raw : plain_id z = true ->
    cf_do "POST" (cfAPIBase +:+ Dns.records_path z) tok (record_marshal r) e = (Ok resp, e') ->
    accepted resp raw -> exists id, zone e' z = zone e z ++ [with_id id r];
  cf_update tok z id r e resp e' raw : plain_id z = true -> plain_id id = true ->
    cf_do "PUT" (cfAPIBase +:+ Dns.records_path z +:+ "/" +:+ id) tok (record_marshal r) e = (Ok resp, e') ->
    accepted resp raw ->
    zone e' z = map (fun x => if decide (RecID x = id) then with_id id r else x) (zone e z);
  cf_delete tok z id e resp e' raw : plain_id z = true -> plain_id id = true ->
    cf_do "DELETE" (cfAPIBase +:+ Dns.records_path z +:+ "/" +:+ id) tok "" e = (Ok resp, e') ->
    accepted resp raw ->
    zone e' z = filter (fun x => RecID x <> id) (zone e z) /\ zones e' = zones e
}.

Section Properties.
Context {C E : Type} `{ConfigManager C} `{CFServer E}.
Implicit Types (e : E) (m : Dns.Manager (C := C) (E := E)).

Lemma do_ok token method path body e resp e' :
  Dns.doRequest token method path body e = (Ok resp, e') ->
  cf_do method (cfAPIBase +:+ path) token body e = (Ok resp, e').
Proof. unfold Dns.doRequest. by destruct (cf_request _ _). Qed.

Lemma handled_ok resp op r : Dns.handleResponse resp op = Ok r -> accepted resp (Result r).
Proof.
  destruct resp as [code [body|?|?]]; cbn; [|done..].
  destruct (bool_decide _); cbn; [done|]. destruct (response_unmarshal body) as [r'|] eqn:Hr; [|done].
  destruct (Success r') eqn:Hs; [|done]. intros [= <-]. by exists body, r'.
Qed.

(** A request that succeeds was accepted. *)
Lemma api_request_ok token method path body f op e r e' :
  Dns.request token method path body f op e = (Ok r, e') ->
  exists resp, cf_do method (cfAPIBase +:+ path) token body e = (Ok resp, e') /\
               accepted resp (Result r).
Proof.
  unfold Dns.request. intros Hr. bind_inv Hr. apply wrap_ok_inv, do_ok in E0.
  injection Hr as Hr <-. eauto using handled_ok.
Qed.

Lemma decoded_ok {A} (o : option A) what e a e' :
  Dns.decoded o what e = (Ok a, e') -> o = Some a /\ e' = e.
Proof. destruct o; by intros [= <- <-]. Qed.

Definition same_data e e' : Prop := zones e' = zones e /\ forall z, zone e' z = zone e z.

Lemma same_data_trans e1 e2 e3 : same_data e1 e2 -> same_data e2 e3 -> same_data e1 e3.
Proof. intros [A1 B1] [A2 B2]. split; [congruence|]. intros z. by rewrite B2, B1. Qed.

Lemma list_records_ok token z n e l e' : plain_id z = true ->
  Dns.ListRecords token z n "A" e = (Ok l, e') ->
  l = filter (a_named n) (zone e z) /\ same_data e e'.
Proof.
  intros Hz Hl. unfold Dns.ListRecords in Hl. bind_inv Hl.
  apply api_request_ok in E0 as (resp & Hdo & Ha). apply decoded_ok in Hl as [Hl ->].
  split; [by eapply cf_list|by eapply cf_reads].
Qed.

Lemma zone_id_ok token n e z e' : Dns.GetZoneID token n e = (Ok z, e') ->
  same_data e e' /\
  exists j l, filter (fun z => ZoneName z = n) (zones e) = j :: l /\ z = ZoneID j.
Proof.
  intros Hl. unfold Dns.GetZoneID in Hl. bind_inv Hl. apply api_request_ok in E0 as (resp & Hdo & Ha).
  bind_inv Hl. apply decoded_ok in E0 as [Hd ->].
  pose proof (cf_zones _ _ _ _ _ _ _ Hdo Ha Hd) as Hj.
  destruct a0 as [|j l]; [done|]. injection Hl as <- <-. split; [by eapply cf_reads|]. by exists j, l.
Qed.

Lemma zone_id_plain n e j l :
  filter (fun z => ZoneName z = n) (zones e) = j :: l -> plain_id (ZoneID j) = true.
Proof.
  intros Hf. assert (j ∈ zones e) as Hj.
  { apply (proj1 (list_elem_of_filter (fun z => ZoneName z = n) (zones e) j)).
    rewrite Hf. left. }
  exact (proj1 (list.Forall_forall _ _) (ids_plain e) j Hj).
Qed.

Lemma rec_id_plain e z r : r ∈ zone e z -> plain_id (RecID r) = true.
Proof. apply (proj1 (list.Forall_forall _ _) (rec_ids_plain e z)). Qed.

Lemma filter_ext_in {A} (P Q : A -> Prop) `{forall x, Decision (P x)} `{forall x, Decision (Q x)} (l : list A) :
  (forall x, x ∈ l -> P x <-> Q x) -> filter P l = filter Q l.
Proof.
  induction l as [|x l IH]; [done|]. intros HPQ. rewrite !filter_cons.
  rewrite IH by (intros y Hy; apply HPQ; by right).
  assert (P x <-> Q x) as Hx by (apply HPQ; left).
  destruct (decide (P x)), (decide (Q x)); tauto || done.
Qed.

Lemma NoDup_map_inj {A B} (f : A -> B) l x y :
  NoDup (map f l) -> x ∈ l -> y ∈ l -> f x = f y -> x = y.
Proof.
  intros Hnd [i Hi]%list_elem_of_lookup [j Hj]%list_elem_of_lookup Hf.
  assert (i = j) as ->; [|congruence].
  eapply (NoDup_lookup (f <$> l)); [exact Hnd|..]; rewrite list_lookup_fmap.
  - by rewrite Hi.
  - rewrite Hj. cbn. by rewrite Hf.
Qed.

(** *** Upserting *)

Definition is_a (n ip : string) (r : DNSRecord) : Prop := exists id, r = with_id id (Dns.a_record n ip).

(** Replacing one of the records a filter keeps, and none of the others. *)
Lemma replace_in (P : DNSRecord -> Prop) `{forall r, Decision (P r)} (new : DNSRecord) l id r rest :
  NoDup (map RecID l) -> filter P l = r :: rest -> RecID r = id -> P new ->
  let l' := map (fun x => if decide (RecID x = id) then new else x) l in
  new ∈ l' /\ filter (fun x => ~ P x) l' = filter (fun x => ~ P x) l /\
  length (filter P l') = length (filter P l).
Proof.
  intros Hnd Hf Hid Hnew. assert (r ∈ filter P l) as Hr by (rewrite Hf; left).
  apply list_elem_of_filter in Hr as [HP Hin]. clear Hf rest. cbv zeta.
  induction l as [|x l IH]; [by apply elem_of_nil in Hin|].
  cbn [map] in *. apply list.NoDup_cons in Hnd as [Hx Hnd].
  rewrite !filter_cons. apply elem_of_cons in Hin as [<-|Hin].
  - rewrite (decide_True (P := RecID r = id)) by done.
    assert (map (fun x => if decide (RecID x = id) then new else x) l = l) as ->.
    { subst id. clear -Hx. induction l as [|y l IH]; [done|]. cbn [map] in *.
      apply not_elem_of_cons in Hx as [Hy Hx]. rewrite decide_False by congruence. by rewrite IH. }
    rewrite (decide_False (P := ~ P new)), (decide_False (P := ~ P r)) by tauto.
    rewrite (decide_True (P := P new)), (decide_True (P := P r)) by done.
    split_and!; [left|done|done].
  - rewrite (decide_False (P := RecID x = id)).
    2: { intros Hc. apply Hx. rewrite Hc, <- Hid. by apply list_elem_of_fmap_2. }
    destruct (IH Hnd Hin) as (H1 & H2 & H3). split_and!; [by right|..].
    + by destruct (decide (~ P x)); rewrite H2.
    + destruct (decide (P x)); cbn [length]; by rewrite H3.
Qed.

(** After an upsert that succeeds the zone holds an A record of the name
    with the address; every other record is as it was, and the number of A
    records of the name is what it was, or one where there was none. *)
Theorem upsert_holds token z n ip e e' :
  plain_id z = true -> NoDup (map RecID (zone e z)) ->
  Dns.UpsertARecord token z n ip e = (Ok tt, e') ->
  Exists (is_a n ip) (zone e' z) /\
  filter (fun r => ~ a_named n r) (zone e' z) = filter (fun r => ~ a_named n r) (zone e z) /\
  length (filter (a_named n) (zone e' z)) = 1 `max` length (filter (a_named n) (zone e z)).
Proof.
  intros Hz Hnd Hu. unfold Dns.UpsertARecord in Hu. bind_inv Hu.
  apply wrap_ok_inv, (list_records_ok _ _ _ _ _ _ Hz) in E0 as [-> [_ Hs]]. bind_inv Hu.
  injection Hu as <-. assert (forall id, a_named n (with_id id (Dns.a_record n ip))) as Hnew by done.
  destruct (filter (a_named n) (zone e z)) as [|r rest] eqn:Hf.
  - apply api_request_ok in E0 as (resp & Hdo & Ha). destruct (cf_create _ _ _ _ _ _ _ Hz Hdo Ha) as [id ->].
    rewrite (Hs z), !gfilter_app, Hf. rewrite !filter_cons, !filter_nil.
    rewrite decide_False, decide_True by auto. rewrite app_nil_r.
    split_and!; [|done|done]. apply Exists_app. right. left. by exists id.
  - assert (r ∈ zone e z) as Hr.
    { apply (proj1 (list_elem_of_filter (a_named n) (zone e z) r)). rewrite Hf. left. }
    apply api_request_ok in E0 as (resp & Hdo & Ha).
    rewrite (cf_update _ _ _ _ _ _ _ _ Hz (rec_id_plain _ _ _ Hr) Hdo Ha), (Hs z).
    destruct (replace_in (a_named n) _ _ (RecID r) r rest Hnd Hf eq_refl (Hnew (RecID r))) as (H1 & H2 & H3).
    rewrite H2, H3, Hf. split_and!; [|done|done].
    apply list.Exists_exists. eexists. split; [exact H1|]. by exists (RecID r).
Qed.

(** *** The manager *)

Lemma with_cf_ok {A} (op : string -> eff E A) m a m' :
  Dns.with_cf op m = (Ok a, m') ->
  exists token, op token (Dns.net m) = (Ok a, Dns.net m') /\ Dns.cfgMgr m' = Dns.cfgMgr m.
Proof.
  unfold Dns.with_cf. intros Hc. bind_inv Hc. unfold on_part in Hc.
  assert (Dns.net w = Dns.net m /\ Dns.cfgMgr w = Dns.cfgMgr m) as [Hn Hg].
  { unfold Dns.cf in E0. destruct (Dns.cfClient m); by injection E0 as _ <-. }
  rewrite Hn in Hc. destruct (op a0 (Dns.net m)) as [r e'] eqn:Ho. injection Hc as -> <-.
  exists a0. by rewrite Ho.
Qed.

Lemma delete_record_ok token z id e e' : plain_id z = true -> plain_id id = true ->
  Dns.DeleteRecord token z id e = (Ok tt, e') ->
  zone e' z = filter (fun x => RecID x <> id) (zone e z) /\ zones e' = zones e.
Proof.
  intros Hz Hi Hd. unfold Dns.DeleteRecord in Hd. bind_inv Hd. injection Hd as <-.
  apply api_request_ok in E0 as (resp & Hdo & Ha). exact (cf_delete _ _ _ _ _ _ _ Hz Hi Hdo Ha).
Qed.

Lemma delete_all_ok z recs m m' : plain_id z = true ->
  Forall (fun r => plain_id (RecID r) = true) recs ->
  Dns.delete_all z recs m = (Ok tt, m') ->
  zone (Dns.net m') z = filter (fun x => RecID x ∉ map RecID recs) (zone (Dns.net m) z).
Proof.
  intros Hz Hp. revert m. induction Hp as [|r recs Hr Hp IH]; intros m Hd.
  - injection Hd as <-. cbn [map]. symmetry. apply gfilter_all. apply list.Forall_forall.
    intros x _. apply not_elem_of_nil.
  - cbn [Dns.delete_all] in Hd. bind_inv Hd. destruct a.
    apply wrap_ok_inv, with_cf_ok in E0 as (t & Ho & _).
    apply (delete_record_ok _ _ _ _ _ Hz Hr) in Ho as [Ho _]. rewrite (IH _ Hd), Ho.
    rewrite list_filter_filter. apply list_filter_iff. intros x. cbn [map].
    rewrite not_elem_of_cons. tauto.
Qed.

(** Removing the record of a subdomain, where it reports success in
    Cloudflare mode, leaves no A record of the name in the zone the
    configuration names, and every other record as it was. *)
Theorem manager_delete_removes_all sub m m' :
  let cfg := DNS (cfg_get (Dns.cfgMgr m)) in
  let fqdn := sub +:+ "." +:+ Zone cfg in
  (forall z, NoDup (map RecID (zone (Dns.net m) z))) ->
  Provider cfg = "cloudflare" ->
  Dns.Manager_DeleteRecord sub m = (Ok tt, m') ->
  exists j l, filter (fun z => ZoneName z = Zone cfg) (zones (Dns.net m)) = j :: l /\
    zone (Dns.net m') (ZoneID j)
    = filter (fun r => ~ a_named fqdn r) (zone (Dns.net m) (ZoneID j)).
Proof.
  intros cfg fqdn Hnd Hp Hd. unfold Dns.Manager_DeleteRecord in Hd. bind_inv Hd.
  unfold Dns.dns_config in E0. injection E0 as <- <-. fold cfg in Hd.
  rewrite decide_True in Hd by done. bind_inv Hd.
  apply wrap_ok_inv, with_cf_ok in E0 as (t & Hg & _).
  apply zone_id_ok in Hg as ([Hzs Hs] & j & l & Hj & ->). exists j, l. split; [done|].
  pose proof (zone_id_plain _ _ _ _ Hj) as Hz. bind_inv Hd.
  apply wrap_ok_inv, with_cf_ok in E0 as (t' & Hl & _).
  apply (list_records_ok _ _ _ _ _ _ Hz) in Hl as [-> [_ Hs']].
  apply (delete_all_ok _ _ _ _ Hz) in Hd.
  - rewrite Hd, Hs'. rewrite Hs. specialize (Hnd (ZoneID j)).
    apply filter_ext_in. intros x Hx. split.
    + intros Hn Ha. apply Hn. apply list_elem_of_fmap_2, list_elem_of_filter. by split.
    + intros Hn (y & Hid & Hy)%list_elem_of_fmap. apply list_elem_of_filter in Hy as [Ha Hy].
      apply Hn. by rewrite (NoDup_map_inj RecID _ _ _ Hnd Hx Hy Hid).
  - apply list.Forall_forall. intros x Hx%list_elem_of_filter.
    eapply rec_id_plain. by destruct Hx.
Qed.

(** The token a manager has used once it uses for good: what the configuration
    says later changes nothing. *)
Lemma token_is_cached {A} (op : string -> eff E A) t (c : C) e :
  Dns.with_cf op {| Dns.cfgMgr := c; Dns.cfClient := Some t; Dns.net := e |}
  = (fst (op t e), {| Dns.cfgMgr := c; Dns.cfClient := Some t; Dns.net := snd (op t e) |}).
Proof. unfold Dns.with_cf, Dns.cf, on_part, mbind, eff_bind. cbn. by destruct (op t e) as [r e0]. Qed.

(** Outside Cloudflare mode the manager reports success and touches nothing. *)
Lemma manual_mode_is_idle sub ip m :
  Provider (DNS (cfg_get (Dns.cfgMgr m))) <> "cloudflare" ->
  Dns.UpsertRecord sub ip m = (Ok tt, m) /\ Dns.Manager_DeleteRecord sub m = (Ok tt, m) /\
  Dns.ValidateConfig m = (Ok tt, m).
Proof.
  intros Hp. unfold Dns.UpsertRecord, Dns.Manager_DeleteRecord, Dns.ValidateConfig, Dns.dns_config.
  unfold mbind, eff_bind. cbn. by rewrite !decide_False by done.
Qed.

(** *** proxy.DNSManager *)

Lemma find_ok token z n e o e' : plain_id z = true ->
  Proxy.findCloudflareRecord token z n e = (Ok o, e') ->
  z ∈ map ZoneID (zones e) /\ (o = None \/ o = head (filter (named n) (zone e z))) /\ same_data e e'.
Proof.
  intros Hz Hf. unfold Proxy.findCloudflareRecord in Hf. bind_inv Hf. destruct a as [code body].
  unfold Proxy.send in E0. destruct (cf_request _ _); [done|]. apply wrap_ok_inv in E0.
  case_decide as Hcode; [done|]. split.
  { destruct (decide (z ∈ map ZoneID (zones e))) as [|Hno]; [done|].
    pose proof (cf_unknown _ _ _ _ _ _ Hz Hno E0). cbn in *. lia. }
  split; [|destruct body as [b|?|?]; [|done..]; cbn in Hf;
           destruct (response_unmarshal b); [|done]; cbn in Hf;
           destruct (records_unmarshal _); [|done]; cbn in Hf;
           destruct (Success _), l; injection Hf as _ <-; by eapply cf_reads].
  destruct body as [b|?|?]; [|done..]. cbn in Hf.
  destruct (response_unmarshal b) as [r|] eqn:Hr; [|done]. cbn in Hf.
  destruct (records_unmarshal (Result r)) as [l|] eqn:Hl; [|done]. cbn in Hf.
  destruct (Success r) eqn:Hs; [|injection Hf as <- _; by left].
  assert (accepted (code, Ok b) (Result r)) as Ha by (by exists b, r).
  rewrite <- (cf_find _ _ _ _ _ _ _ _ Hz E0 Ha Hl).
  destruct l; injection Hf as <- _; [by left|by right].
Qed.

(** The record found under a name has whatever type comes first: it is the
    one an update turns into an A record, and the one a deletion removes. *)
Lemma found_has_any_type token z n e r e' : plain_id z = true ->
  Proxy.findCloudflareRecord token z n e = (Ok (Some r), e') ->
  head (filter (named n) (zone e z)) = Some r.
Proof. intros Hz Hf. by destruct (find_ok _ _ _ _ _ _ Hz Hf) as (_ & [?|<-] & _). Qed.

(** The manager of [proxy] uses the zone's name as its identifier: in
    Cloudflare mode, where the name is no identifier of a zone, creating a
    record and deleting one always report an error. *)
Theorem cloudflare_needs_zone_id sub (m : Proxy.DNSManager (C := C) (E := E)) :
  let cfg := DNS (cfg_get (Proxy.cfgMgr m)) in
  ToLower (Provider cfg) = "cloudflare" -> plain_id (Zone cfg) = true ->
  Zone cfg ∉ map ZoneID (zones (Proxy.httpClient m)) ->
  fst (Proxy.DNSManager_CreateRecord sub m) <> Ok tt /\
  fst (Proxy.DNSManager_DeleteRecord sub m) <> Ok tt.
Proof.
  intros cfg Hp Hz Hno. unfold Proxy.DNSManager_CreateRecord, Proxy.DNSManager_DeleteRecord.
  unfold Proxy.by_provider, on_part. fold cfg. rewrite !decide_True by done.
  assert (forall t n o e', Proxy.findCloudflareRecord t (Zone cfg) n (Proxy.httpClient m) <> (Ok o, e'))
    as Hfind.
  { intros t n o e' Hf. by apply (find_ok _ _ _ _ _ _ Hz) in Hf as (? & _). }
  assert (forall t n pre o e', wrap pre (Proxy.findCloudflareRecord t (Zone cfg) n)
            (Proxy.httpClient m) <> (Ok o, e')) as Hwrap.
  { intros t n pre o e' Hf%wrap_ok_inv. by eapply Hfind. }
  split; intros Hok.
  - destruct (Proxy.createCloudflareRecord _ _ _) as [r e'] eqn:Hc; cbn in Hok; subst r.
    unfold Proxy.createCloudflareRecord in Hc. bind_inv Hc. injection E0 as _ <-.
    bind_inv Hc. injection E0 as _ <-. bind_inv Hc. injection E0 as _ <-. bind_inv Hc.
    by apply Hwrap in E0.
  - destruct (Proxy.deleteCloudflareRecord _ _ _) as [r e'] eqn:Hc; cbn in Hok; subst r.
    unfold Proxy.deleteCloudflareRecord in Hc. bind_inv Hc. injection E0 as _ <-. bind_inv Hc.
    by apply Hwrap in E0.
Qed.
End Properties.

(** ** A server with one zone

    Records are numbered; an envelope is its result. *)

Definition record_tuple (r : DNSRecord) :=
  (RecID r, RecType r, RecName r, Content r, Proxied r, TTL r).
Definition tuple_record (t : string * string * string * string * bool * Z) : DNSRecord :=
  let '(i, ty, n, c, p, ttl) := t in
  {| RecID := i; RecType := ty; RecName := n; Content := c; Proxied := p; TTL := ttl |}.

Lemma tuple_record_tuple r : tuple_record (record_tuple r) = r.
Proof. by destruct r. Qed.

#[export] Instance memory_cf_codec : CFCodec := {|
  record_marshal r := count_enc (record_tuple r);
  response_unmarshal s := Some {| Success := true; CFErrors := []; Result := s |};
  verify_unmarshal s := Some {| VStatus := "active"; VID := "t" |};
  records_unmarshal s := map tuple_record <$> count_dec s;
  zones_unmarshal s := map (fun p => {| ZoneID := fst p; ZoneName := snd p |}) <$> count_dec s
|}.

Abbreviation Cloud := (list (N * DNSRecord)).
Definition cloud_zones : list zoneJSON := [{| ZoneID := "z1"; ZoneName := "example.com" |}].
Definition cloud_records (e : Cloud) : list DNSRecord :=
  map (fun p => with_id (digits_of (fst p)) (snd p)) e.
Definition fresh (e : Cloud) : N := foldr (fun p n => N.max n (fst p + 1)) 1%N e.

(** The zone and what follows it, of [/zone/rest]. *)
Definition zone_cut (s : string) : option (string * string) :=
  match s with
  | String c r => i ← IndexByte r "/"; Some (stake i r, sdrop (S i) r)
  | EmptyString => None
  end.

Definition show_records (l : list DNSRecord) : Z * result string :=
  (200%Z, Ok (count_enc (map record_tuple l))).
Definition not_found : Z * result string := (404%Z, Err "no body").

Definition cloud_get (s : string) (e : Cloud) : Z * result string :=
  if HasPrefix s "?name=" then
    (200%Z, Ok (count_enc (map (fun z => (ZoneID z, ZoneName z))
       (filter (fun z => ZoneName z = TrimPrefix s "?name=") cloud_zones))))
  else
    match zone_cut s with
    | Some (z, r) =>
        if decide (z <> "z1") then not_found
        else if HasPrefix r "dns_records?type=A&name="
        then show_records (filter (a_named (TrimPrefix r "dns_records?type=A&name=")) (cloud_records e))
        else if HasPrefix r "dns_records?name="
        then show_records (filter (named (TrimPrefix r "dns_records?name=")) (cloud_records e))
        else not_found
    | None => not_found
    end.

Definition cloud_do (method url token body : string) : eff Cloud (Z * result string) := fun e =>
  let s := TrimPrefix url (cfAPIBase +:+ "/zones") in
  if decide (url = cfAPIBase +:+ "/user/tokens/verify") then (Ok (200%Z, Ok ""), e)
  else if decide (method = "GET") then (Ok (cloud_get s e), e)
  else
    match zone_cut s with
    | Some (z, r) =>
        let id := TrimPrefix r "dns_records/" in
        if decide (z <> "z1") then (Ok not_found, e)
        else if decide (method = "POST") then
          match count_dec body with
          | Some t => (Ok (200%Z, Ok ""), e ++ [(fresh e, tuple_record t)])
          | None => (Ok (400%Z, Err "no body"), e)
          end
        else if decide (method = "PUT") then
          match count_dec body with
          | Some t => (Ok (200%Z, Ok ""),
                       map (fun p => if decide (digits_of (fst p) = id) then (fst p, tuple_record t) else p) e)
          | None => (Ok (400%Z, Err "no body"), e)
          end
        else (Ok (200%Z, Ok ""), filter (fun p => digits_of (fst p) <> id) e)
    | None => (Ok not_found, e)
    end.

#[export] Instance memory_cf : CFHTTP Cloud := {| cf_request _ _ := None; cf_do := cloud_do |}.

Lemma TrimPrefix_zones s : TrimPrefix (cfAPIBase +:+ "/zones" +:+ s) (cfAPIBase +:+ "/zones") = s.
Proof. rewrite <- sapp_assoc. apply TrimPrefix_app. Qed.

Lemma zone_cut_of z r : plain_id z = true ->
  zone_cut (String "/" (z +:+ String "/" r)) = Some (z, r).
Proof.
  unfold plain_id. intros [[Hz _]%andb_true_iff _]%andb_true_iff. cbn [zone_cut].
  rewrite IndexByte_app by done. cbn. rewrite stake_app. f_equal. f_equal.
  change (sdrop (S (slen z)) (z +:+ String "/" r) = r).
  replace (z +:+ String "/" r) with ((z +:+ "/") +:+ r) by (by rewrite sapp_assoc).
  replace (S (slen z)) with (slen (z +:+ "/")) by (rewrite slen_app; cbn; lia). apply sdrop_app.
Qed.

Lemma find_url_shape z n :
  cfAPIBase +:+ "/zones/" +:+ z +:+ "/dns_records?name=" +:+ n
  = cfAPIBase +:+ "/zones" +:+ String "/" (z +:+ String "/" ("dns_records?name=" +:+ n)).
Proof. done. Qed.

Lemma records_path_shape z r :
  cfAPIBase +:+ Dns.records_path z +:+ r
  = cfAPIBase +:+ "/zones" +:+ String "/" (z +:+ String "/" ("dns_records" +:+ r)).
Proof. unfold Dns.records_path. f_equal. cbn. by rewrite sapp_assoc. Qed.

Lemma digits_plain n : plain_id (digits_of n) = true.
Proof.
  unfold plain_id. rewrite !andb_true_iff.
  split_and!; (apply digit_free; [done|apply digits_of_digits]).
Qed.

Lemma cloud_records_plain e : Forall (fun r => plain_id (RecID r) = true) (cloud_records e).
Proof.
  apply list.Forall_forall. intros r ([n x] & -> & _)%list_elem_of_fmap. apply digits_plain.
Qed.


Definition cloud_zone (e : Cloud) (z : string) : list DNSRecord :=
  if decide (z = "z1") then cloud_records e else [].

(** What a request about a zone does. *)
Lemma cloud_get_zone z r tok body e : plain_id z = true ->
  cloud_do "GET" (cfAPIBase +:+ "/zones" +:+ String "/" (z +:+ String "/" r)) tok body e
  = (Ok (if decide (z <> "z1") then not_found
         else if HasPrefix r "dns_records?type=A&name="
         then show_records (filter (a_named (TrimPrefix r "dns_records?type=A&name=")) (cloud_records e))
         else if HasPrefix r "dns_records?name="
         then show_records (filter (named (TrimPrefix r "dns_records?name=")) (cloud_records e))
         else not_found), e).
Proof.
  intros Hz. unfold cloud_do. rewrite TrimPrefix_zones, decide_False by done.
  rewrite decide_True by done. unfold cloud_get.
  change (HasPrefix (String "/" _) "?name=") with false. by rewrite zone_cut_of.
Qed.

Lemma shown_records l raw r :
  accepted (show_records l) raw -> records_unmarshal raw = Some r -> r = l.
Proof.
  intros (body & x & [= <-] & [= <-] & _ & <-). cbn. rewrite count_dec_enc. cbn.
  intros [= <-]. rewrite map_map. rewrite (map_ext _ id) by apply tuple_record_tuple. apply map_id.
Qed.

Lemma not_found_accepted raw : ~ accepted not_found raw.
Proof. by intros (? & ? & [=] & _). Qed.

Lemma cloud_filter_map (P : DNSRecord -> Prop) `{forall r, Decision (P r)}
    (Q : N * DNSRecord -> Prop) `{forall p, Decision (Q p)} (e : Cloud) :
  (forall p, Q p <-> P (with_id (digits_of (fst p)) (snd p))) ->
  cloud_records (filter Q e) = filter P (cloud_records e).
Proof.
  intros HPQ. induction e as [|p e IH]; [done|]. rewrite filter_cons. cbn [cloud_records map].
  rewrite filter_cons. fold (cloud_records e). rewrite <- IH. specialize (HPQ p).
  destruct (decide (Q p)), (decide (P _)); tauto || done.
Qed.

Lemma cloud_write z r : plain_id z = true -> forall method tok body e resp e' raw,
  method <> "GET" ->
  cloud_do method (cfAPIBase +:+ "/zones" +:+ String "/" (z +:+ String "/" r)) tok body e
    = (Ok resp, e') -> accepted resp raw ->
  z = "z1" /\ e' = snd (cloud_do method (cfAPIBase +:+ "/zones/z1/" +:+ r) tok body e).
Proof.
  intros Hz method tok body e resp e' raw Hm Hdo Ha.
  destruct (decide (z = "z1")) as [->|Hne].
  { split; [done|]. change ("/zones/z1/" +:+ r) with ("/zones" +:+ String "/" ("z1" +:+ String "/" r)).
    by rewrite Hdo. }
  exfalso. unfold cloud_do in Hdo. rewrite TrimPrefix_zones in Hdo.
  rewrite (decide_False (P := _ = cfAPIBase +:+ "/user/tokens/verify")) in Hdo by done.
  rewrite decide_False in Hdo by done. rewrite zone_cut_of in Hdo by done.
  rewrite decide_True in Hdo by done. injection Hdo as <- _. by apply not_found_accepted in Ha.
Qed.

#[export, refine] Instance memory_cloud : CFServer Cloud := {|
  zones _ := cloud_zones; zone := cloud_zone
|}.
Proof.
  - intros _. by repeat constructor.
  - intros e z. unfold cloud_zone. case_decide; [apply cloud_records_plain|constructor].
  - intros url tok e r e'. cbn. unfold cloud_do. case_decide; by intros [= _ <-].
  - intros tok n e resp e' raw l. cbn [cf_do memory_cf]. unfold cloud_do.
    change (cfAPIBase +:+ "/zones?name=" +:+ n) with (cfAPIBase +:+ "/zones" +:+ ("?name=" +:+ n)).
    rewrite TrimPrefix_zones, decide_False, decide_True by done.
    unfold cloud_get. rewrite HasPrefix_app, TrimPrefix_app. intros [= <- _].
    intros (body & x & [= <-] & [= <-] & _ & <-). cbn. rewrite count_dec_enc. cbn. intros [= <-].
    rewrite map_map. rewrite (map_ext _ id) by (by intros []). apply map_id.
  - intros tok z n e resp e' raw l Hz. rewrite records_path_shape. cbn [cf_do memory_cf].
    change ("dns_records" +:+ "?type=A&name=" +:+ n) with ("dns_records?type=A&name=" +:+ n).
    rewrite cloud_get_zone by done. rewrite HasPrefix_app, TrimPrefix_app. unfold cloud_zone.
    destruct (decide (z <> "z1")) as [Hne|Heq]; intros [= <- _] Ha Hl; [by apply not_found_accepted in Ha|].
    rewrite decide_True by (by apply dec_stable). by eapply shown_records.
  - intros tok z n e resp e' raw l Hz. rewrite find_url_shape. cbn [cf_do memory_cf].
    rewrite cloud_get_zone by done.
    change (HasPrefix ("dns_records?name=" +:+ n) "dns_records?type=A&name=") with false.
    rewrite HasPrefix_app, TrimPrefix_app. unfold cloud_zone.
    destruct (decide (z <> "z1")) as [Hne|Heq]; intros [= <- _] Ha Hl; [by apply not_found_accepted in Ha|].
    rewrite decide_True by (by apply dec_stable). by eapply shown_records.
  - intros tok z n e resp e' Hz Hno. rewrite find_url_shape. cbn [cf_do memory_cf].
    rewrite cloud_get_zone by done. rewrite decide_True; [by intros [= <- _]|].
    intros ->. apply Hno. left.
  - intros tok z r e resp e' raw Hz. rewrite <- (sapp_nil_r (cfAPIBase +:+ Dns.records_path z)), sapp_assoc.
    rewrite records_path_shape. intros Hdo Ha.
    assert ("POST" <> "GET") as Hm by discriminate.
    destruct (cloud_write _ _ Hz _ _ _ _ _ _ _ Hm Hdo Ha) as [-> ->].
    exists (digits_of (fresh e)). unfold cloud_zone. rewrite !(decide_True (P := "z1" = "z1")) by done.
    unfold cloud_do. change (record_marshal r) with (count_enc (record_tuple r)).
    rewrite count_dec_enc, tuple_record_tuple. exact (map_app (fun p => with_id (digits_of (fst p)) (snd p)) e [(fresh e, r)]).
  - intros tok z id r e resp e' raw Hz Hi. rewrite records_path_shape. intros Hdo Ha.
    assert ("PUT" <> "GET") as Hm by discriminate.
    destruct (cloud_write _ _ Hz _ _ _ _ _ _ _ Hm Hdo Ha) as [-> ->].
    unfold cloud_zone. rewrite !(decide_True (P := "z1" = "z1")) by done.
    unfold cloud_do. change (record_marshal r) with (count_enc (record_tuple r)).
    rewrite count_dec_enc, tuple_record_tuple.
    transitivity (cloud_records (map (fun p => if decide (digits_of (fst p) = id)
                                               then (fst p, r) else p) e)); [reflexivity|].
    unfold cloud_records. rewrite !map_map. apply map_ext. intros [i x]. cbn. by destruct (decide (digits_of i = id)) as [<-|].
  - intros tok z id e resp e' raw Hz Hi. rewrite records_path_shape. intros Hdo Ha.
    assert ("DELETE" <> "GET") as Hm by discriminate.
    destruct (cloud_write _ _ Hz _ _ _ _ _ _ _ Hm Hdo Ha) as [-> ->].
    split; [|done]. unfold cloud_zone. rewrite !(decide_True (P := "z1" = "z1")) by done.
    transitivity (cloud_records (filter (fun p => digits_of (fst p) <> id) e)); [reflexivity|].
    by apply cloud_filter_map.
Defined.

(** ** Witnesses *)

Definition w_mx : DNSRecord :=
  {| RecID := ""; RecType := "MX"; RecName := "app.example.com"; Content := "mail"; Proxied := false;
     TTL := 1 |}.
Definition w_cloud : Cloud :=
  [(1%N, w_mx); (2%N, Dns.a_record "app.example.com" "1.1.1.1");
   (3%N, Dns.a_record "app.example.com" "2.2.2.2"); (4%N, Dns.a_record "b.example.com" "1.1.1.1")].
Definition w_tunnel : TunnelConfig :=
  {| InterfaceName := "awg0"; Subnet := ""; ServerIP := "9.9.9.9"; LocalIP := "10.8.1.2";
     ServerEndpoint := ""; ServerPublicKey := ""; PresharedKey := ""; PrivateKey := "";
     PublicKey := ""; MTU := 1420; PersistentKeepalive := 25; Obfuscation := zero_obfuscation;
     Status := "connected"; ConnectedAt := "" |}.
Definition w_dns (zone : string) : RootConfig :=
  let d := defaultConfig "u" in
  {| VPS := VPS d; Tunnel := w_tunnel; CaddyAPI := CaddyAPI d; ExposedPorts := [];
     DNS := {| Provider := "cloudflare"; Token := "tok"; Zone := zone |};
     Daemon := Daemon d; RemoteAPI := RemoteAPI d; ServerMirror := ""; UIToken := "u" |}.

Lemma w_cloud_ids z : NoDup (map RecID (cloud_zone w_cloud z)).
Proof.
  unfold cloud_zone. case_decide; [|constructor].
  apply (bool_decide_eq_true_1 (NoDup _)). vm_compute. reflexivity.
Qed.

(** An update reaches the first of two addresses of the name. *)
Lemma upsert_holds_witness :
  let e := w_cloud in
  let e' := [(1%N, w_mx); (2%N, Dns.a_record "app.example.com" "9.9.9.9");
             (3%N, Dns.a_record "app.example.com" "2.2.2.2");
             (4%N, Dns.a_record "b.example.com" "1.1.1.1")] in
  Exists (is_a "app.example.com" "9.9.9.9") (cloud_zone e' "z1") /\
  filter (fun r => ~ a_named "app.example.com" r) (cloud_zone e' "z1")
  = filter (fun r => ~ a_named "app.example.com" r) (cloud_zone e "z1") /\
  length (filter (a_named "app.example.com") (cloud_zone e' "z1"))
  = 1 `max` length (filter (a_named "app.example.com") (cloud_zone e "z1")).
Proof.
  apply (@upsert_holds Cloud _ _ memory_cloud "tok" "z1" "app.example.com" "9.9.9.9" w_cloud
           [(1%N, w_mx); (2%N, Dns.a_record "app.example.com" "9.9.9.9");
            (3%N, Dns.a_record "app.example.com" "2.2.2.2");
            (4%N, Dns.a_record "b.example.com" "1.1.1.1")]).
  - reflexivity.
  - apply w_cloud_ids.
  - vm_compute. reflexivity.
Defined.

Lemma manager_delete_removes_all_witness :
  exists j l, filter (fun z => ZoneName z = "example.com") cloud_zones = j :: l /\
    cloud_zone [(1%N, w_mx); (4%N, Dns.a_record "b.example.com" "1.1.1.1")] (ZoneID j)
    = filter (fun r => ~ a_named "app.example.com" r) (cloud_zone w_cloud (ZoneID j)).
Proof.
  apply (@manager_delete_removes_all RootConfig Cloud plain_config _ _ memory_cloud "app"
           (Dns.NewManager (w_dns "example.com") w_cloud)
           {| Dns.cfgMgr := w_dns "example.com"; Dns.cfClient := Some "tok";
              Dns.net := [(1%N, w_mx); (4%N, Dns.a_record "b.example.com" "1.1.1.1")] |}).
  - exact w_cloud_ids.
  - reflexivity.
  - vm_compute. reflexivity.
Defined.

(** The zone's name is refused where its identifier would do. *)
Lemma cloudflare_needs_zone_id_witness :
  let m := Proxy.NewDNSManager (w_dns "example.com") w_cloud in
  @Proxy.DNSManager_CreateRecord RootConfig Cloud plain_config _ _ "app" m
  = (Err "proxy/dns: check existing record: cloudflare returned 404: ", m) /\
  fst (@Proxy.DNSManager_CreateRecord RootConfig Cloud plain_config _ _ "app" m) <> Ok tt /\
  fst (@Proxy.DNSManager_DeleteRecord RootConfig Cloud plain_config _ _ "app" m) <> Ok tt.
Proof.
  split; [vm_compute; reflexivity|].
  apply (@cloudflare_needs_zone_id RootConfig Cloud plain_config _ _ memory_cloud "app"
           (Proxy.NewDNSManager (w_dns "example.com") w_cloud)).
  - reflexivity.
  - reflexivity.
  - apply (bool_decide_eq_true_1 (_ ∉ _)). vm_compute. reflexivity.
Defined.

(** The record an address is written over can be of another type. *)
Example found_is_mx :
  fst (Proxy.findCloudflareRecord (E := Cloud) "tok" "z1" "app.example.com" w_cloud)
  = Ok (Some (with_id "1" w_mx)).
Proof. vm_compute. reflexivity. Qed.
