(* ===== verification/Ports.v ===== *)
(** * daemon/api_ports.go, daemon/api_vps.go, tunnel/local_proxy.go: the local API

    Exposing and removing ports over the configuration manager, the routes of
    the reverse proxy, the DNS records and the local TCP proxies; the VPS
    settings with the provisioning task; the status of the daemon.  The four
    services share one world.  What a handler does before it takes the
    configuration's lock and what it does inside are separate definitions, so
    that requests can be interleaved.  UUIDs and the clock are arguments; a
    body is a JSON tree.  The copying of bytes between connections is not
    modelled. *)

From S2P Require Import Prelude GoLib Caddy Config Regexp DNS.

#[warnings="-register-all"] Inductive json :=
  | JNull | JBool (b : bool) | JNum (z : Z) | JStr (s : string)
  | JArr (l : list json) | JObj (l : list (string * json)).

Record response := { code : Z; body : json }.

Definition writeError (c : Z) (errType message : string) : response :=
  {| code := c; body := JObj [("error", JStr errType); ("message", JStr message)] |}.
Definition writeErrorWithCtx (c : Z) (errType message : string) (ctx : list (string * json)) : response :=
  {| code := c;
     body := JObj ([("error", JStr errType); ("message", JStr message)] ++
                   (if decide (length ctx = 0) then [] else [("context", JObj ctx)])) |}.

(** [omitempty] on a string *)
Definition optional (key v : string) : list (string * json) :=
  if decide (v = EmptyString) then [] else [(key, JStr v)].

(** ** tunnel/local_proxy.go *)

(** Binding [addr:0], answered with the port, and closing the listener. *)
Class Listeners (W : Type) := {
  Listen : string -> eff W Z;
  CloseListener : Z -> W -> W
}.

(** What the reverse proxy's client offers; [Caddy] has the implementation. *)
Class RouteClient (W : Type) := {
  AddRoute : string -> string -> eff W unit;
  RemoveRoute : string -> eff W unit
}.

Record LocalTCPProxy := {
  tunnelIP : string; listenPort : Z; targetAddr : string; running : bool
}.

Definition NewLocalTCPProxy (ip target : string) : LocalTCPProxy :=
  {| tunnelIP := ip; listenPort := 0; targetAddr := target; running := false |}.

Section LocalProxy.
Context {W : Type} `{Listeners W}.

(** The proxy after the call is part of the answer. *)
Definition Start (p : LocalTCPProxy) : eff W (Z * LocalTCPProxy) :=
  if running p then mret (listenPort p, p)
  else
    let addr := tunnelIP p +:+ ":0" in
    port ← wrap ("tunnel: local proxy listen on " +:+ addr +:+ ": ") (Listen addr);
    mret (port, {| tunnelIP := tunnelIP p; listenPort := port; targetAddr := targetAddr p;
                   running := true |}).

Definition Stop (p : LocalTCPProxy) : eff W LocalTCPProxy :=
  if running p
  then _ ← modify (CloseListener (listenPort p));
       mret {| tunnelIP := tunnelIP p; listenPort := listenPort p; targetAddr := targetAddr p;
               running := false |}
  else mret p.
End LocalProxy.

Definition ListenPort (p : LocalTCPProxy) : Z := listenPort p.

(** ** api_ports.go *)

Definition lower_digit (c : ascii) : bool := in_range "a" "z" c || is_digit c.

(** [^[a-z0-9]([a-z0-9-]{0,61}[a-z0-9])?$] *)
Definition subdomainLabelRe : re :=
  RCat (RCls lower_digit)
    (ROpt (RCat (RUpto 61 (RCls (fun c => lower_digit c || bool_decide (c = "-"%char))))
                (RCls lower_digit))).

(** [^[a-z0-9]([a-z0-9-.]{0,251}[a-z0-9])?$] *)
Definition subdomainFullRe : re :=
  RCat (RCls lower_digit)
    (ROpt (RCat (RUpto 251 (RCls (fun c => lower_digit c || bool_decide (c = "-"%char) ||
                                           bool_decide (c = "."%char))))
                (RCls lower_digit))).

Record createPortRequest := { LocalPort : Z; Subdomain : string; Protocol : string }.
Record portResponse := {
  PRID : string; PRLocalPort : Z; PRSubdomain : string; PRProtocol : string; PRStatus : string;
  PRCreatedAt : string
}.

Definition portResponse_json (p : portResponse) : json :=
  JObj ([("id", JStr (PRID p)); ("localPort", JNum (PRLocalPort p));
         ("subdomain", JStr (PRSubdomain p)); ("protocol", JStr (PRProtocol p));
         ("status", JStr (PRStatus p))] ++ optional "createdAt" (PRCreatedAt p)).

Definition port_of (ep : ExposedPort) : portResponse :=
  {| PRID := ID ep; PRLocalPort := Internal ep; PRSubdomain := HostHeader ep;
     PRProtocol := Config.Protocol ep; PRStatus := PortStatus ep; PRCreatedAt := CreatedAt ep |}.

(** [strings.Count(s, ".")] *)
Fixpoint count_dots (s : string) : Z :=
  match s with
  | EmptyString => 0
  | String c s' => if decide (c = "."%char) then 1 + count_dots s' else count_dots s'
  end.

(** The host Caddy matches: the zone is added unless the text already ends in it. *)
Definition full_host (zone subdomain : string) : string :=
  if negb (bool_decide (zone = "")) && negb (HasSuffix subdomain zone)
  then subdomain +:+ "." +:+ zone else subdomain.

(** The checks of the subdomain, in their order. *)
Definition check_subdomain (s : string) : option response :=
  if decide (s = "") then Some (writeError 400 "invalid_subdomain" "subdomain is required") else
  if negb (MatchFull subdomainFullRe s)
  then Some (writeError 400 "invalid_subdomain"
               "subdomain must match: *.domain.com and contain only a-z, 0-9, hyphens") else
  match List.find (fun label => negb (MatchFull subdomainLabelRe label)) (Split s ".") with
  | Some label =>
      Some (writeError 400 "invalid_subdomain"
        ("subdomain label " +:+ label +:+ " is invalid: must be 1-63 chars, lowercase letters, digits, hyphens"))
  | None => None
  end.

(** Empty is http; the rest in lower case. *)
Definition norm_protocol (p : string) : string := ToLower (if decide (p = "") then "http" else p).

Definition depth_error (subdomain zone : string) : response :=
  let labelsUnderBase := (count_dots subdomain + 1)%Z in
  let fullSubdomain := subdomain +:+ "." +:+ zone in
  writeErrorWithCtx 400 "invalid_subdomain_depth"
    ("Cloudflare mode uses a wildcard certificate (*." +:+ zone +:+
     ") which covers only single-label subdomains. '" +:+ fullSubdomain +:+ "' has " +:+
     Itoa labelsUnderBase +:+
     " labels under baseDomain — switch to manual DNS mode for multi-level subdomains, or use hyphens instead.")
    [("baseDomain", JStr zone); ("labelsUnderBase", JNum labelsUnderBase);
     ("maxAllowedInCloudflareMode", JNum 1); ("remediation", JStr "rename | switch_dns_mode");
     ("subdomain", JStr fullSubdomain)].

(** [handleCreate] up to the first effect: an answer, or the request with its
    protocol normalised. *)
Definition create_check (req : option createPortRequest) (cfg : RootConfig)
  : response + createPortRequest :=
  match req with
  | None => inl (writeError 400 "invalid_request" "request body is not valid JSON")
  | Some req =>
      if decide (LocalPort req < 1 \/ 65535 < LocalPort req)%Z
      then inl (writeError 400 "invalid_port"
                  ("localPort must be between 1 and 65535, got " +:+ Itoa (LocalPort req))) else
      match check_subdomain (Subdomain req) with
      | Some e => inl e
      | None =>
          let p := norm_protocol (Protocol req) in
          if decide (p <> "http" /\ p <> "https" /\ p <> "tcp")
          then inl (writeError 400 "invalid_protocol"
                      ("protocol must be one of http, https, tcp; got " +:+ p))
          else if decide (Status (Tunnel cfg) <> "connected")
          then inl (writeError 409 "tunnel_not_connected"
                      "Tunnel must be connected before exposing ports")
          else if decide (Provider (DNS cfg) = "cloudflare" /\ free_of "." (Subdomain req) = false)
          then inl (depth_error (Subdomain req) (Zone (DNS cfg)))
          else inr {| LocalPort := LocalPort req; Subdomain := Subdomain req; Protocol := p |}
      end
  end.

Definition taken (subdomain : string) (ps : list ExposedPort) : bool :=
  existsb (fun ep => bool_decide (HostHeader ep = subdomain)) ps.

(** The callback of [Update]: the check for a duplicate is inside the lock. *)
Definition add_port (p : ExposedPort) (c : RootConfig) : RootConfig :=
  if taken (HostHeader p) (ExposedPorts c) then c else set_ExposedPorts (ExposedPorts c ++ [p]) c.

(** The entry an identifier means: by ID, else the position of [port-N]. *)
Fixpoint find_id (id : string) (ps : list ExposedPort) : option nat :=
  match ps with
  | [] => None
  | p :: ps' => if decide (ID p = id) then Some 0 else S <$> find_id id ps'
  end.
Definition legacy_index (portID : string) (ps : list ExposedPort) : option nat :=
  if HasPrefix portID "port-" then
    match Atoi (TrimPrefix portID "port-") with
    | (n, None) => if decide (0 <= n < Z.of_nat (length ps))%Z then Some (Z.to_nat n) else None
    | _ => None
    end
  else None.
Definition find_port (portID : string) (ps : list ExposedPort) : option nat :=
  match find_id portID ps with Some i => Some i | None => legacy_index portID ps end.

(** The callback that removes: by ID, else by the position found before. *)
Definition remove_port (portID : string) (targetIdx : nat) (c : RootConfig) : RootConfig :=
  let ps := ExposedPorts c in
  match find_id portID ps with
  | Some i => set_ExposedPorts (delete i ps) c
  | None => if decide (targetIdx < length ps) then set_ExposedPorts (delete targetIdx ps) c else c
  end.

Record portInfo := {
  IID : string; ILocalPort : Z; ISubdomain : string; IProtocol : string; IStatus : string;
  ICreatedAt : string
}.
Definition portInfo_json (p : portInfo) : json :=
  JObj ([("id", JStr (IID p)); ("localPort", JNum (ILocalPort p));
         ("subdomain", JStr (ISubdomain p)); ("protocol", JStr (IProtocol p));
         ("status", JStr (IStatus p))] ++ optional "createdAt" (ICreatedAt p)).

(** Entries without an ID are left out. *)
Definition buildPortInfos (cfg : RootConfig) : list portInfo :=
  map (fun ep => {| IID := ID ep; ILocalPort := Internal ep; ISubdomain := HostHeader ep;
                    IProtocol := Config.Protocol ep; IStatus := PortStatus ep;
                    ICreatedAt := CreatedAt ep |})
    (filter (fun ep => ID ep <> EmptyString) (ExposedPorts cfg)).

Definition handleList (cfg : RootConfig) : response :=
  {| code := 200; body := JArr (map portInfo_json (buildPortInfos cfg)) |}.

Definition handleGet (portID : string) (cfg : RootConfig) : response :=
  if decide (portID = "") then writeError 400 "invalid_id" "port id is required" else
  match find_port portID (ExposedPorts cfg) ≫= (fun i => ExposedPorts cfg !! i) with
  | Some ep => {| code := 200; body := portResponse_json (port_of ep) |}
  | None => writeError 404 "not_found" ("No exposed port with id: " +:+ portID)
  end.

Section Ports.
Context {W : Type} `{ConfigManager W} `{RouteClient W} `{DNSRecords W} `{Listeners W}.

Record PortsHandler := { world : W; proxies : gmap string LocalTCPProxy }.
Definition set_world (w : W) (h : PortsHandler) : PortsHandler :=
  {| world := w; proxies := proxies h |}.
Definition set_proxies (f : gmap string LocalTCPProxy -> gmap string LocalTCPProxy)
    (h : PortsHandler) : PortsHandler :=
  {| world := world h; proxies := f (proxies h) |}.

Definition NewPortsHandler (w : W) : PortsHandler := {| world := w; proxies := ∅ |}.

Definition on_world {A} (m : eff W A) : eff PortsHandler A := on_part world set_world m.
Definition cfg_of (h : PortsHandler) : RootConfig := cfg_get (world h).
Definition ports (h : PortsHandler) : list ExposedPort := ExposedPorts (cfg_of h).

(** Whether a call succeeded; its error is only logged. *)
Definition succeeded (m : eff PortsHandler unit) : eff PortsHandler bool :=
  r ← try m; mret (is_ok r).

(** The local proxy of a new port: its port number. *)
Definition start_proxy (portID localIP target : string) : eff PortsHandler Z :=
  '(port, px) ← on_world (Start (NewLocalTCPProxy localIP target));
  _ ← modify (set_proxies (insert portID px));
  mret port.

(** The calls before the lock: whether the route was added, and whether the
    record was created. *)
Definition create_external (host subdomain upstream : string) : eff PortsHandler (bool * bool) :=
  routed ← succeeded (on_world (AddRoute host upstream));
  named ← (if (routed : bool) then succeeded (on_world (CreateRecord subdomain)) else mret false);
  mret (routed, named).

Definition rollback (host subdomain : string) (dnsRecordCreated : bool) : eff PortsHandler unit :=
  _ ← succeeded (on_world (RemoveRoute host));
  _ ← (if dnsRecordCreated then succeeded (on_world (DeleteRecord subdomain)) else mret false);
  mret tt.

(** The update and its aftermath. *)
Definition create_commit (host : string) (dnsRecordCreated : bool) (p : ExposedPort)
  : eff PortsHandler response :=
  h ← get;
  let dup := taken (HostHeader p) (ports h) in
  saved ← succeeded (on_world (cfg_update (add_port p)));
  if negb (saved : bool) then
    _ ← rollback host (HostHeader p) dnsRecordCreated;
    mret (writeError 500 "internal_error" "failed to save port configuration")
  else if dup then
    _ ← rollback host (HostHeader p) dnsRecordCreated;
    mret (writeError 409 "duplicate_subdomain"
            ("subdomain " +:+ HostHeader p +:+ " is already in use"))
  else mret {| code := if decide (PortStatus p = "error") then 502 else 201;
               body := portResponse_json (port_of p) |}.

Definition new_port (portID now : string) (req : createPortRequest) (ok : bool) : ExposedPort :=
  {| ID := portID; Config.Protocol := Protocol req; Internal := LocalPort req;
     HostHeader := Subdomain req; PortStatus := if ok then "active" else "error"; CreatedAt := now |}.

Definition handleCreate (req : option createPortRequest) (portID now : string)
  : eff PortsHandler response :=
  h ← get;
  let cfg := cfg_of h in
  match create_check req cfg with
  | inl e => mret e
  | inr req =>
      let localIP := LocalIP (Tunnel cfg) in
      started ← try (start_proxy portID localIP ("127.0.0.1:" +:+ Itoa (LocalPort req)));
      match started with
      | Ok proxyPort =>
          let host := full_host (Zone (DNS cfg)) (Subdomain req) in
          '(routed, named) ← create_external host (Subdomain req) (localIP +:+ ":" +:+ Itoa proxyPort);
          create_commit host named (new_port portID now req (routed && named))
      | _ => mret (writeError 500 "proxy_error" "failed to start local TCP proxy")
      end
  end.

(** The effects of a removal outside the configuration. *)
Definition remove_external (portID : string) (target : ExposedPort) (zone : string)
  : eff PortsHandler unit :=
  _ ← succeeded (on_world (RemoveRoute (full_host zone (HostHeader target))));
  _ ← succeeded (on_world (DeleteRecord (HostHeader target)));
  h ← get;
  match proxies h !! portID with
  | Some px => _ ← on_world (Stop px); modify (set_proxies (delete portID))
  | None => mret tt
  end.

Definition remove_commit (portID : string) (targetIdx : nat) : eff PortsHandler response :=
  saved ← succeeded (on_world (cfg_update (remove_port portID targetIdx)));
  mret (if (saved : bool)
        then {| code := 200; body := JObj [("id", JStr portID); ("status", JStr "removed")] |}
        else writeError 500 "internal_error" "failed to update configuration").

Definition handleRemove (portID : string) : eff PortsHandler response :=
  if decide (portID = "") then mret (writeError 400 "invalid_id" "port id is required") else
  h ← get;
  match find_port portID (ports h) with
  | None => mret (writeError 404 "not_found" ("No exposed port with id: " +:+ portID))
  | Some i =>
      match ports h !! i with
      | None => mret (writeError 404 "not_found" ("No exposed port with id: " +:+ portID))
      | Some target =>
          _ ← remove_external portID target (Zone (DNS (cfg_of h)));
          remove_commit portID i
      end
  end.
End Ports.

(** ** api_vps.go *)

Record VPSSettings := {
  SHost : string; SSSHPort : Z; SUsername : string; SAuthMode : string; SPrivateKeyPath : string;
  SPassword : string
}.
Record provisionTask := { TaskID : string; TaskStatus : string; TaskError : string }.

Definition set_VPS (v : VPSConfig) (c : RootConfig) : RootConfig :=
  {| VPS := v; Tunnel := Tunnel c; CaddyAPI := CaddyAPI c; ExposedPorts := ExposedPorts c;
     DNS := DNS c; Daemon := Daemon c; RemoteAPI := RemoteAPI c;
     ServerMirror := ServerMirror c; UIToken := UIToken c |}.

(** The callback of [Update]: the rest of the record stays. *)
Definition apply_settings (s : VPSSettings) (c : RootConfig) : RootConfig :=
  set_VPS {| Host := SHost s; SSHPort := SSSHPort s; Username := SUsername s;
             AuthMode := SAuthMode s; PrivateKeyPath := SPrivateKeyPath s;
             Password := SPassword s; IsProvisioned := IsProvisioned (VPS c);
             ContainerName := ContainerName (VPS c); ImageBuildHash := ImageBuildHash (VPS c) |} c.

(** The checks of [handleVPSConfigure]; [exists_] is [os.Stat] without an error. *)
Definition check_settings (exists_ : string -> bool) (req : option VPSSettings)
  : response + VPSSettings :=
  let bad m := inl (writeError 400 "invalid_credentials" m) in
  match req with
  | None => inl (writeError 400 "invalid_request" "request body is not valid JSON")
  | Some r =>
      if decide (SHost r = "") then bad "host is required" else
      let port := if decide (SSSHPort r <= 0)%Z then 22%Z else SSSHPort r in
      if decide (SUsername r = "") then bad "username is required" else
      if decide (SAuthMode r <> "key" /\ SAuthMode r <> "password")
      then bad "authMode must be 'key' or 'password'" else
      if decide (SAuthMode r = "key" /\ SPrivateKeyPath r = "")
      then bad "privateKeyPath is required when authMode is 'key'" else
      if decide (SAuthMode r = "key" /\ exists_ (SPrivateKeyPath r) = false)
      then bad ("privateKeyPath does not exist: " +:+ SPrivateKeyPath r) else
      if decide (SAuthMode r = "password" /\ SPassword r = "")
      then bad "password is required when authMode is 'password'" else
      inr {| SHost := SHost r; SSSHPort := port; SUsername := SUsername r;
             SAuthMode := SAuthMode r; SPrivateKeyPath := SPrivateKeyPath r;
             SPassword := SPassword r |}
  end.

Record vpsStatusInfo := { Configured : bool; Provisioned : bool; VHost : string }.
Record tunnelInfo := { TStatus : string; TLocalIP : string; TServerIP : string }.
Record systemStatus := {
  Privileged : bool; SVPS : vpsStatusInfo; STunnel : tunnelInfo; SPorts : list portInfo;
  DaemonPort : Z
}.

Definition systemStatus_json (s : systemStatus) : json :=
  JObj [("privileged", JBool (Privileged s));
        ("vps", JObj [("configured", JBool (Configured (SVPS s)));
                      ("provisioned", JBool (Provisioned (SVPS s)));
                      ("host", JStr (VHost (SVPS s)))]);
        ("tunnel", JObj (("status", JStr (TStatus (STunnel s))) ::
                         optional "localIp" (TLocalIP (STunnel s)) ++
                         optional "serverIp" (TServerIP (STunnel s))));
        ("ports", JArr (map portInfo_json (SPorts s)));
        ("daemonPort", JNum (DaemonPort s))].

Definition system_status (privileged : bool) (daemonPort : Z) (cfg : RootConfig) : systemStatus :=
  {| Privileged := privileged;
     SVPS := {| Configured := negb (bool_decide (Host (VPS cfg) = ""));
                Provisioned := IsProvisioned (VPS cfg); VHost := Host (VPS cfg) |};
     STunnel := {| TStatus := Status (Tunnel cfg); TLocalIP := LocalIP (Tunnel cfg);
                   TServerIP := ServerIP (Tunnel cfg) |};
     SPorts := buildPortInfos cfg; DaemonPort := daemonPort |}.

Definition handleSystemStatus (privileged : bool) (daemonPort : Z) (cfg : RootConfig) : response :=
  {| code := 200; body := systemStatus_json (system_status privileged daemonPort cfg) |}.

Section VPS.
Context {W : Type} `{ConfigManager W}.

Record VPSHandler := { mgr : W; task : option provisionTask }.
Definition set_mgr (w : W) (h : VPSHandler) : VPSHandler := {| mgr := w; task := task h |}.
Definition set_task (t : provisionTask) (h : VPSHandler) : VPSHandler :=
  {| mgr := mgr h; task := Some t |}.

Definition NewVPSHandler (w : W) : VPSHandler := {| mgr := w; task := None |}.

(** The answer, and whether the provisioning goroutine was started. *)
Definition handleVPSConfigure (exists_ : string -> bool) (req : option VPSSettings) (uuid : string)
  : eff VPSHandler (response * bool) :=
  match check_settings exists_ req with
  | inl e => mret (e, false)
  | inr s =>
      saved ← try (on_part mgr set_mgr (cfg_update (apply_settings s)));
      if negb (is_ok saved)
      then mret (writeError 500 "internal_error" "failed to save configuration", false)
      else
        let taskID := "provision-" +:+ stake 8 uuid in
        _ ← modify (set_task {| TaskID := taskID; TaskStatus := "provisioning"; TaskError := "" |});
        mret ({| code := 202; body := JObj [("taskId", JStr taskID);
                                            ("status", JStr "provisioning")] |}, true)
  end.

(** The end of [runProvision]: the outcome goes to whatever task is current. *)
Definition runProvision (taskID : string) (outcome : result unit) : eff VPSHandler unit := fun h =>
  match task h with
  | None => (Panic "nil pointer dereference", h)
  | Some t =>
      match outcome with
      | Err e => (Ok tt, set_task {| TaskID := TaskID t; TaskStatus := "failed"; TaskError := e |} h)
      | Ok _ => (Ok tt, set_task {| TaskID := TaskID t; TaskStatus := "completed";
                                    TaskError := TaskError t |} h)
      | Panic p => (Panic p, h)
      end
  end.

Definition handleVPSStatus (h : VPSHandler) : response :=
  let v := VPS (cfg_get (mgr h)) in
  {| code := 200;
     body := JObj ([("configured", JBool (negb (bool_decide (Host v = ""))));
                    ("provisioned", JBool (IsProvisioned v)); ("host", JStr (Host v));
                    ("lastProvisionAt", JNull)] ++
                   match task h with
                   | None => []
                   | Some t => ("taskStatus", JStr (TaskStatus t)) :: optional "taskError" (TaskError t)
                   end) |}.
End VPS.

(** ** Which subdomains are accepted *)

Definition label_char (c : ascii) : bool := lower_digit c || bool_decide (c = "-"%char).

(** A DNS label: at most 63 lower-case letters, digits and hyphens, no hyphen
    at either end, not empty. *)
Definition label_ok (l : string) : Prop :=
  str_all label_char l = true /\ edges lower_digit l = true /\ slen l <= 63.

Lemma label_matches l : MatchFull subdomainLabelRe l = true <-> label_ok l.
Proof.
  unfold MatchFull. rewrite matches_lang. apply (lang_edges _ _ 61).
  intros c Hc. unfold label_char. by rewrite Hc.
Qed.

Definition name_char (c : ascii) : bool := label_char c || bool_decide (c = "."%char).

Lemma full_matches s : MatchFull subdomainFullRe s = true <->
  str_all name_char s = true /\ edges lower_digit s = true /\ slen s <= 253.
Proof.
  unfold MatchFull. rewrite matches_lang. apply (lang_edges _ _ 251).
  intros c Hc. by rewrite Hc.
Qed.

Lemma edges_app f a b : edges f a = true -> edges f b = true ->
  forall c, edges f (a +:+ String c b) = true.
Proof.
  unfold edges. intros [Ha _]%andb_true_iff [_ Hb]%andb_true_iff c. apply andb_true_iff. split.
  - by destruct a.
  - rewrite srev_app, srev_cons. destruct (srev b); [done|]. by cbn in *.
Qed.

Lemma labels_joined ls : ls <> [] -> Forall label_ok ls ->
  str_all name_char (Join ls ".") = true /\ edges lower_digit (Join ls ".") = true.
Proof.
  intros Hne Hall. induction Hall as [|l ls [Hc [He Hl]] Hall IH]; [done|].
  assert (str_all name_char l = true) as Hn.
  { eapply str_all_impl; [|exact Hc]. intros c Hcc. unfold name_char. by rewrite Hcc. }
  destruct ls as [|l2 ls]; [by cbn|]. destruct IH as [IH1 IH2]; [done|].
  change (Join (l :: l2 :: ls) ".") with (l +:+ String "." (Join (l2 :: ls) ".")). split.
  - rewrite str_all_app, Hn. cbn [andb]. change (str_all name_char (Join (l2 :: ls) ".") = true). done.
  - by apply edges_app.
Qed.

Lemma find_none_all {A} (f : A -> bool) l :
  List.find (fun x => negb (f x)) l = None <-> Forall (fun x => f x = true) l.
Proof.
  induction l as [|x l IH]; cbn; [by split|]. rewrite list.Forall_cons. destruct (f x); cbn.
  - rewrite IH. tauto.
  - split; [done|]. by intros [? _].
Qed.

(** A subdomain is accepted exactly when it has at most 253 bytes and each
    of its labels is one. *)
Theorem subdomain_accepted_iff s :
  check_subdomain s = None <-> slen s <= 253 /\ Forall label_ok (Split s ".").
Proof.
  assert (Forall (fun l => MatchFull subdomainLabelRe l = true) (Split s ".") <->
          Forall label_ok (Split s ".")) as Hiff.
  { apply list.Forall_iff. apply label_matches. }
  unfold check_subdomain. case_decide as Hs.
  - subst s. split; [done|]. intros [_ Hall%list.Forall_cons]. by destruct Hall as [(_ & ? & _) _].
  - destruct (MatchFull subdomainFullRe s) eqn:Hm; cbn [negb].
    + apply full_matches in Hm as (_ & _ & Hl). rewrite <- Hiff, <- find_none_all.
      destruct (List.find _ _); split; try done; by intros [_ ?].
    + split; [done|]. intros [Hl Hall]. exfalso.
      destruct (labels_joined (Split s ".") (Split_nonempty _ _) Hall) as [H1 H2].
      rewrite Join_Split in H1, H2.
      by rewrite (proj2 (full_matches s) (conj H1 (conj H2 Hl))) in Hm.
Qed.

(** ** What the services promise

    The routes Caddy has, in order, and how the calls of its client change
    them ([Caddy.remove_route_position] is the one law of a removal); the DNS
    and the listeners keep to their own part of the world.  Of the DNS nothing
    else is asked: in manual mode its calls do nothing.  The instance for the
    code is in Exposure. *)

Class PortsWorld (W : Type) `{ConfigManager W} `{RouteClient W} `{DNSRecords W} `{Listeners W} := {
  served : W -> list caddyRouteJSON;
  add_ok host up w w' : AddRoute host up w = (Ok tt, w') -> served w' = served w ++ [route_for host up];
  remove_ok host w w' : RemoveRoute host w = (Ok tt, w') ->
    exists l1 r l2, served w = l1 ++ r :: l2 /\ Caddy.matches host r = true /\
      Forall (fun r => Caddy.matches host r = false) l1 /\
      served w' = delete (length l1 - length (List.filter hostless l1)) (l1 ++ r :: l2);
  add_frame host up : preserves cfg_get (AddRoute host up);
  remove_frame host : preserves cfg_get (RemoveRoute host);
  create_frame sub : preserves (fun w => (cfg_get w, served w)) (CreateRecord sub);
  delete_frame sub : preserves (fun w => (cfg_get w, served w)) (DeleteRecord sub);
  create_calm sub : no_panic (CreateRecord sub);
  delete_calm sub : no_panic (DeleteRecord sub);
  listen_frame a : preserves (fun w => (cfg_get w, served w)) (Listen a);
  close_frame p w : (cfg_get (CloseListener p w), served (CloseListener p w)) = (cfg_get w, served w);
  update_frame f : preserves served (cfg_update f)
}.

Lemma preserves_via {W A B C} (g : B -> C) (f : W -> B) (f' : W -> C) (m : eff W A) :
  (forall w, f' w = g (f w)) -> preserves f m -> preserves f' m.
Proof. intros Hg Hm w. by rewrite !Hg, Hm. Qed.

Section Handlers.
Context {W : Type} `{PortsWorld W} `{!ConfigManagerLaws W}.
Implicit Types (h : PortsHandler (W := W)) (w : W).

(** *** The configuration only changes inside the lock *)

Lemma on_world_preserves {A B} (f : W -> B) (m : eff W A) :
  preserves f m -> preserves (fun h => f (world h)) (on_world m).
Proof.
  intros Hm h. unfold on_world, on_part. specialize (Hm (world h)).
  by destruct (m (world h)) as [r w'].
Qed.

Definition keeps_cfg {A} (m : eff (PortsHandler (W := W)) A) : Prop := preserves cfg_of m.

Lemma keeps_on_world {A} (m : eff W A) : preserves cfg_get m -> keeps_cfg (on_world m).
Proof. apply (on_world_preserves cfg_get). Qed.

Lemma keeps_add host up : keeps_cfg (on_world (AddRoute host up)).
Proof. apply keeps_on_world, add_frame. Qed.
Lemma keeps_remove host : keeps_cfg (on_world (RemoveRoute host)).
Proof. apply keeps_on_world, remove_frame. Qed.
Lemma keeps_create sub : keeps_cfg (on_world (CreateRecord sub)).
Proof. apply keeps_on_world, (preserves_via fst _ _ _ (fun _ => eq_refl) (create_frame sub)). Qed.
Lemma keeps_delete sub : keeps_cfg (on_world (DeleteRecord sub)).
Proof. apply keeps_on_world, (preserves_via fst _ _ _ (fun _ => eq_refl) (delete_frame sub)). Qed.

Lemma keeps_succeeded (m : eff (PortsHandler (W := W)) unit) : keeps_cfg m -> keeps_cfg (succeeded m).
Proof. intros Hm. unfold succeeded, keeps_cfg. preserving. done. Qed.

Lemma keeps_modify g : keeps_cfg (modify (set_proxies g)).
Proof. by apply preserves_modify. Qed.

Lemma keeps_start p : preserves cfg_get (Start (W := W) p).
Proof.
  unfold Start. preserving.
  apply (preserves_via fst _ _ _ (fun _ => eq_refl) (listen_frame _)).
Qed.

Lemma keeps_stop p : preserves cfg_get (Stop (W := W) p).
Proof.
  unfold Stop. case_match; [|apply preserves_ret].
  apply preserves_bind; [|intros; apply preserves_ret].
  apply preserves_modify. intros w.
  apply (f_equal fst (close_frame (listenPort p) w)).
Qed.

Lemma keeps_start_proxy id ip target : keeps_cfg (start_proxy id ip target).
Proof.
  unfold start_proxy. apply preserves_bind; [apply keeps_on_world, keeps_start|intros [port px]].
  apply preserves_bind; [apply keeps_modify|intros _; apply preserves_ret].
Qed.

Lemma keeps_external host sub up : keeps_cfg (create_external host sub up).
Proof.
  unfold create_external. apply preserves_bind; [apply keeps_succeeded, keeps_add|intros routed].
  apply preserves_bind; [|intros; apply preserves_ret].
  destruct routed; [apply keeps_succeeded, keeps_create|apply preserves_ret].
Qed.

Lemma keeps_rollback host sub b : keeps_cfg (rollback host sub b).
Proof.
  unfold rollback. apply preserves_bind; [apply keeps_succeeded, keeps_remove|intros _].
  apply preserves_bind; [|intros; apply preserves_ret].
  destruct b; [apply keeps_succeeded, keeps_delete|apply preserves_ret].
Qed.

Lemma keeps_remove_external id target zone : keeps_cfg (remove_external id target zone).
Proof.
  unfold remove_external. apply preserves_bind; [apply keeps_succeeded, keeps_remove|intros _].
  apply preserves_bind; [apply keeps_succeeded, keeps_delete|intros _].
  apply preserves_bind; [apply preserves_get|intros h].
  case_match; [|apply preserves_ret].
  apply preserves_bind; [apply keeps_on_world, keeps_stop|intros; apply keeps_modify].
Qed.

Lemma succeeded_inv (m : eff (PortsHandler (W := W)) unit) h b h' :
  succeeded m h = (Ok b, h') -> exists r, m h = (r, h') /\ b = is_ok r.
Proof.
  unfold succeeded. intros Hs. bind_inv Hs. injection Hs as <- <-.
  unfold try in E. destruct (m h) as [[[]|e|p] w']; try done; injection E as <- <-; by eexists.
Qed.

(** The outcome of an update as the handlers see it. *)
Lemma updated f h b h' : succeeded (on_world (cfg_update f)) h = (Ok b, h') ->
  cfg_of h' = if b then f (cfg_of h) else cfg_of h.
Proof.
  intros (r & Hr & ->)%succeeded_inv. unfold on_world, on_part in Hr.
  destruct (cfg_update f (world h)) as [r' w'] eqn:Hu. injection Hr as <- <-.
  destruct r' as [[]|e|p]; cbn.
  - exact (cfg_update_ok _ _ _ Hu).
  - exact (cfg_update_err _ _ _ _ Hu).
  - destruct (cfg_update_total f (world h)) as (r & w & E & Hp). rewrite Hu in E.
    injection E as <- _. by destruct (Hp p).
Qed.

Lemma keeps_run {A} (m : eff (PortsHandler (W := W)) A) h r h' :
  keeps_cfg m -> m h = (r, h') -> cfg_of h' = cfg_of h.
Proof. intros Hk Hm. specialize (Hk h). by rewrite Hm in Hk. Qed.

Lemma ports_set ps c : ExposedPorts (set_ExposedPorts ps c) = ps.
Proof. done. Qed.

(** *** Creating *)

Lemma commit_outcome host b p h r h' : create_commit host b p h = (Ok r, h') ->
  (ports h' = ports h ++ [p] /\ taken (HostHeader p) (ports h) = false /\
   code r = if decide (PortStatus p = "error") then 502%Z else 201%Z) \/
  (ports h' = ports h /\ (code r = 500 \/ code r = 409 /\ taken (HostHeader p) (ports h) = true)%Z).
Proof.
  unfold create_commit. intros Hc. bind_inv Hc. injection E as <- <-. bind_inv Hc.
  apply updated in E. destruct a as [|]; cbn [negb] in Hc.
  - unfold add_port in E. fold (ports h) in E.
    destruct (taken (HostHeader p) (ports h)) eqn:Ht.
    + right. bind_inv Hc. injection Hc as <- <-. apply keeps_run in E0; [|apply keeps_rollback].
      unfold ports. rewrite E0, E. cbn. split; [done|by right].
    + left. injection Hc as <- <-. unfold ports at 1. by rewrite E.
  - right. bind_inv Hc. injection Hc as <- <-. apply keeps_run in E0; [|apply keeps_rollback].
    unfold ports. rewrite E0, E. split; [done|by left].
Qed.

Lemma start_proxy_inv id ip target h port h' : try (start_proxy id ip target) h = (Ok (Ok port), h') ->
  exists px w1, Start (NewLocalTCPProxy ip target) (world h) = (Ok (port, px), w1) /\
    h' = set_proxies (insert id px) (set_world w1 h).
Proof.
  unfold try, start_proxy, mbind, eff_bind, on_world, on_part.
  destruct (Start _ (world h)) as [[[pt px]|e|e] w1]; cbn; intros [= <- <-]. by eauto.
Qed.

Lemma check_subdomain_code s e : check_subdomain s = Some e -> code e = 400%Z.
Proof.
  unfold check_subdomain. case_decide; [by intros [= <-]|]. case_match; [by intros [= <-]|].
  case_match; by intros [= <-].
Qed.

Lemma create_check_code req cfg e : create_check req cfg = inl e -> code e = 400%Z \/ code e = 409%Z.
Proof.
  unfold create_check. destruct req as [req|]; [|intros [= <-]; by left].
  case_decide; [intros [= <-]; by left|].
  destruct (check_subdomain _) eqn:Hs; [intros [= <-]; left; by eapply check_subdomain_code|].
  repeat case_decide; intros [= <-]; cbn; auto.
Qed.

(** The calls outside, and what they say of the new port. *)
Lemma external_cases host sub up h a h' : create_external host sub up h = (Ok a, h') ->
  let '(rr, w2) := AddRoute host up (world h) in
  let '(rc, w3) := if is_ok rr then CreateRecord sub w2 else (Err EmptyString, w2) in
  fst a && snd a = is_ok rr && is_ok rc /\ h' = set_world w3 h.
Proof.
  unfold create_external. intros Hc. bind_inv Hc. apply succeeded_inv in E as (rr & Hr & ->).
  unfold on_world, on_part in Hr. destruct (AddRoute host up (world h)) as [rr' w2]. injection Hr as -> <-.
  bind_inv Hc. injection Hc as <- <-. cbn [fst snd]. destruct (is_ok rr) eqn:Hk.
  - apply succeeded_inv in E as (rc & Hr & ->). unfold on_world, on_part in Hr. cbn [world set_world] in Hr.
    destruct (CreateRecord sub w2) as [rc' w3]. by injection Hr as -> <-.
  - by injection E as <- <-.
Qed.

Lemma commit_world host b p h r h' : create_commit host b p h = (Ok r, h') ->
  (code r = 201 \/ code r = 502)%Z ->
  h' = set_world (snd (cfg_update (add_port p) (world h))) h.
Proof.
  unfold create_commit. intros Hc Hr. bind_inv Hc. injection E as <- <-. bind_inv Hc.
  apply succeeded_inv in E as (rr & Hu & ->). unfold on_world, on_part in Hu.
  destruct (cfg_update (add_port p) (world h)) as [u w']. injection Hu as -> <-.
  destruct (is_ok rr); cbn [negb] in Hc; [destruct (taken _ _)|].
  - bind_inv Hc. injection Hc as <- <-. cbn in Hr. lia.
  - by injection Hc as <- <-.
  - bind_inv Hc. injection Hc as <- <-. cbn in Hr. lia.
Qed.

(** A request that ends with a new entry: the listener, then the route, then
    the record, then the entry, each from the world the last one left. *)
Definition exposed req id now h r h' : Prop :=
  exists req' port px w1,
    create_check req (cfg_of h) = inr req' /\ taken (Subdomain req') (ports h) = false /\
    let ip := LocalIP (Tunnel (cfg_of h)) in
    Start (NewLocalTCPProxy ip ("127.0.0.1:" +:+ Itoa (LocalPort req'))) (world h) = (Ok (port, px), w1) /\
    let '(routed, w2) := AddRoute (full_host (Zone (DNS (cfg_of h))) (Subdomain req')) (ip +:+ ":" +:+ Itoa port) w1 in
    let '(named, w3) := if is_ok routed then CreateRecord (Subdomain req') w2 else (Err EmptyString, w2) in
    let p := new_port id now req' (is_ok routed && is_ok named) in
    h' = {| world := snd (cfg_update (add_port p) w3); proxies := <[id := px]> (proxies h) |} /\
    ports h' = ports h ++ [p] /\
    code r = (if is_ok routed && is_ok named then 201 else 502)%Z /\
    body r = portResponse_json (port_of p).

Lemma commit_body host b p h r h' : create_commit host b p h = (Ok r, h') ->
  (code r = 201 \/ code r = 502)%Z -> body r = portResponse_json (port_of p).
Proof.
  unfold create_commit. intros Hc Hr. bind_inv Hc. bind_inv Hc.
  destruct a0; cbn [negb] in Hc; [destruct (taken _ _)|].
  - bind_inv Hc. injection Hc as <- <-. cbn in Hr. lia.
  - by injection Hc as <- <-.
  - bind_inv Hc. injection Hc as <- <-. cbn in Hr. lia.
Qed.

Lemma create_cases req id now h r h' :
  handleCreate req id now h = (Ok r, h') ->
  exposed req id now h r h' \/
  (ports h' = ports h /\ (code r = 400 \/ code r = 409 \/ code r = 500)%Z).
Proof.
  unfold handleCreate. intros Hc. bind_inv Hc. injection E as <- <-.
  destruct (create_check req (cfg_of h)) as [e|req'] eqn:Hck.
  { right. injection Hc as <- <-. split; [done|].
    destruct (create_check_code _ _ _ Hck); auto. }
  bind_inv Hc. assert (cfg_of w = cfg_of h) as Hw.
  { eapply keeps_run; [|exact E]. apply preserves_try, keeps_start_proxy. }
  destruct a as [proxyPort|e|p]; [|right; injection Hc as <- <-; unfold ports; rewrite Hw; auto..].
  apply start_proxy_inv in E as (px & w1 & Hstart & ->).
  bind_inv Hc. destruct a as [routed named].
  assert (cfg_of w = cfg_of h) as Hw0.
  { apply keeps_run in E; [|apply keeps_external]. by rewrite E, Hw. }
  apply external_cases in E. cbn [world set_world set_proxies] in E.
  assert (ports w = ports h) as Hp by (unfold ports; by rewrite Hw0).
  pose proof Hc as Hc0. apply commit_outcome in Hc as [(H1 & H2 & H3)|[H1 H2]]; [left|right; rewrite H1; split; [done|tauto]].
  assert (Hcode : code r = 201%Z \/ code r = 502%Z) by (rewrite H3; case_decide; auto).
  pose proof (commit_world _ _ _ _ _ _ Hc0 Hcode) as Hworld. pose proof (commit_body _ _ _ _ _ _ Hc0 Hcode) as Hbody.
  exists req', proxyPort, px, w1. cbn [fst snd] in E. split; [done|]. split; [by rewrite <- Hp|]. split; [exact Hstart|].
  destruct (AddRoute _ _ w1) as [rr w2]. destruct (if is_ok rr then _ else _) as [rc w3].
  destruct E as [Hok ->]. rewrite <- Hok. cbn in Hworld. rewrite <- Hp. split_and!; [exact Hworld|exact H1| |exact Hbody].
  rewrite H3. unfold new_port. cbn. by destruct (routed && named).
Qed.

(** C9: a request to expose a port is answered 201 or 502 with exactly one
    entry appended, whose name no entry had: the listener was opened, the route
    asked for and, when that went well, the record, and the answer is 201
    exactly when both were made; the world is what these calls and the update
    leave.  Or it is answered 400, 409 or 500 and the entries are what they
    were. *)
Theorem create_outcome req id now h r h' :
  handleCreate req id now h = (Ok r, h') ->
  exposed req id now h r h' \/
  (ports h' = ports h /\ (code r = 400 \/ code r = 409 \/ code r = 500)%Z).
Proof. apply create_cases. Qed.

(** *** A duplicate *)

Lemma succeeded_ok (m : eff (PortsHandler (W := W)) unit) h h' :
  m h = (Ok tt, h') -> succeeded m h = (Ok true, h').
Proof. intros Hm. unfold succeeded, try, mbind, eff_bind. by rewrite Hm. Qed.

Lemma on_world_ok {A} (m : eff W A) h a w' :
  m (world h) = (Ok a, w') -> on_world m h = (Ok a, set_world w' h).
Proof. intros Hm. unfold on_world, on_part. by rewrite Hm. Qed.

Lemma succeeded_calm (m : eff W unit) h : no_panic m ->
  exists b, succeeded (on_world m) h = (Ok b, set_world (snd (m (world h))) h).
Proof.
  intros Hm. specialize (Hm (world h)). unfold succeeded, on_world, on_part, try, mbind, eff_bind.
  destruct (m (world h)) as [[[]|e|p] w]; cbn in *; [by eexists..|by destruct (Hm p)].
Qed.

(** The reverse proxy, the listeners and the disk answer in the worlds [up]
    picks out: a route that is there can be removed.  The calls to the DNS may
    fail. *)
Record services_up (up : W -> Prop) : Prop := {
  up_add host dial w : up w -> exists w', AddRoute host dial w = (Ok tt, w') /\ up w';
  up_listen a w : up w -> exists p w', Listen a w = (Ok p, w') /\ up w';
  up_update p w : up w -> exists w', cfg_update (add_port p) w = (Ok tt, w') /\ up w';
  up_create sub w : up w -> up (snd (CreateRecord sub w));
  up_remove host w : up w -> Exists (fun r => Caddy.matches host r = true) (served w) ->
    exists w', RemoveRoute host w = (Ok tt, w')
}.

(** The first match of a list is one. *)
Lemma first_unique {A} (f : A -> bool) l1 r l2 l1' r' l2' :
  l1 ++ r :: l2 = l1' ++ r' :: l2' -> f r = true -> f r' = true ->
  Forall (fun x => f x = false) l1 -> Forall (fun x => f x = false) l1' -> l1 = l1' /\ l2 = l2'.
Proof.
  revert l1'. induction l1 as [|x l1 IH]; intros [|x' l1']; cbn.
  - by intros [= -> ->].
  - intros [= -> _] Hr _ _ Hx%list.Forall_cons. by destruct Hx; congruence.
  - intros [= -> _] _ Hr Hx%list.Forall_cons. by destruct Hx; congruence.
  - intros [= -> Hl] Hr Hr' [_ H1]%list.Forall_cons [_ H2]%list.Forall_cons.
    by destruct (IH l1' Hl Hr Hr' H1 H2) as [-> ->].
Qed.

(** Without routes that have no host in front, the first match is removed. *)
Lemma remove_first host w w' l1 r l2 :
  RemoveRoute host w = (Ok tt, w') -> served w = l1 ++ r :: l2 -> Caddy.matches host r = true ->
  Forall (fun r => Caddy.matches host r = false) l1 -> List.filter hostless l1 = [] ->
  served w' = l1 ++ l2.
Proof.
  intros Hrm Hs Hr H1 Hno. apply remove_ok in Hrm as (k1 & r' & k2 & Hs' & Hr' & Hk1 & ->).
  rewrite Hs in Hs'. destruct (first_unique _ _ _ _ _ _ _ Hs' Hr Hr' H1 Hk1) as [-> ->].
  rewrite Hno, Nat.sub_0_r. apply delete_middle.
Qed.

(** The local proxy of the request, and the world with its port bound. *)
Lemma start_proxy_up up id ip target h : services_up up -> up (world h) ->
  exists port h', start_proxy id ip target h = (Ok port, h') /\ up (world h') /\
    cfg_of h' = cfg_of h /\ served (world h') = served (world h) /\
    proxies h' = <[id := {| tunnelIP := ip; listenPort := port; targetAddr := target;
                           running := true |}]> (proxies h).
Proof.
  intros Hup Hw. destruct (up_listen _ Hup (ip +:+ ":0") (world h) Hw) as (port & w & Hl & Hw').
  pose proof (listen_frame (ip +:+ ":0") (world h)) as Hf. rewrite Hl in Hf. injection Hf as Hc Ht.
  exists port. eexists. split.
  - unfold start_proxy, on_world, on_part, Start, NewLocalTCPProxy, wrap, mbind, eff_bind. cbn.
    rewrite Hl. reflexivity.
  - by split_and!.
Qed.

(** The calls outside: the route is made, the record made or not. *)
Lemma external_up up host sub dial h : services_up up -> up (world h) ->
  exists named h', create_external host sub dial h = (Ok (true, named), h') /\ up (world h') /\
    cfg_of h' = cfg_of h /\ proxies h' = proxies h /\
    served (world h') = served (world h) ++ [route_for host dial].
Proof.
  intros Hup Hw. destruct (up_add _ Hup host dial (world h) Hw) as (w1 & H1 & Hw1).
  destruct (succeeded_calm _ (set_world w1 h) (create_calm sub)) as [named Hn].
  exists named. eexists. split.
  - unfold create_external. rewrite (bind_ok _ _ _ _ _ (succeeded_ok _ _ _ (on_world_ok _ _ _ _ H1))).
    cbn beta iota. rewrite (bind_ok _ _ _ _ _ Hn). reflexivity.
  - pose proof (add_frame host dial (world h)) as F1. rewrite H1 in F1.
    pose proof (create_frame sub w1) as F2. cbv beta in F2. injection F2 as F2 F3.
    unfold cfg_of. cbn in *. rewrite F2, F3, (add_ok _ _ _ _ H1).
    split_and!; [by apply (up_create _ Hup)|done..].
Qed.

Lemma rollback_up up host sub b h l1 r l2 : services_up up -> up (world h) ->
  served (world h) = l1 ++ r :: l2 -> Caddy.matches host r = true ->
  Forall (fun r => Caddy.matches host r = false) l1 -> List.filter hostless l1 = [] ->
  exists h', rollback host sub b h = (Ok tt, h') /\ cfg_of h' = cfg_of h /\
    proxies h' = proxies h /\ served (world h') = l1 ++ l2.
Proof.
  intros Hup Hw Hs Hr Hl1 Hno.
  destruct (up_remove _ Hup host (world h) Hw) as (w1 & H1).
  { rewrite Hs. apply Exists_app. right. by left. }
  pose proof (remove_frame host (world h)) as F1. rewrite H1 in F1.
  pose proof (remove_first _ _ _ _ _ _ H1 Hs Hr Hl1 Hno) as Hs1.
  destruct (succeeded_calm _ (set_world w1 h) (delete_calm sub)) as [d Hd].
  pose proof (delete_frame sub w1) as F2. cbv beta in F2. injection F2 as F2 F3.
  unfold rollback. rewrite (bind_ok _ _ _ _ _ (succeeded_ok _ _ _ (on_world_ok _ _ _ _ H1))).
  destruct b.
  - eexists. split; [rewrite (bind_ok _ _ _ _ _ Hd); reflexivity|].
    unfold cfg_of in *. cbn in *. by rewrite F2, F3.
  - exists (set_world w1 h). by unfold cfg_of in *.
Qed.

(** A request for a subdomain that is in use is answered 409 and takes it
    over.  When the reverse proxy, the listeners and the disk answer, whatever
    the DNS does, the configuration is as it was, but the first route that
    matches the host, which belongs to the service that had the name, is
    removed, the route to the request's own proxy stays at the end, and that
    proxy runs on. *)
Lemma duplicate_takes_over up req req' id now h l1 r l2 :
  services_up up -> up (world h) -> create_check req (cfg_of h) = inr req' ->
  taken (Subdomain req') (ports h) = true ->
  let host := full_host (Zone (DNS (cfg_of h))) (Subdomain req') in
  served (world h) = l1 ++ r :: l2 -> Caddy.matches host r = true ->
  Forall (fun r => Caddy.matches host r = false) l1 -> List.filter hostless l1 = [] ->
  exists a h' port,
    handleCreate req id now h = (Ok a, h') /\ code a = 409%Z /\ cfg_of h' = cfg_of h /\
    served (world h') = l1 ++ l2 ++ [route_for host (LocalIP (Tunnel (cfg_of h)) +:+ ":" +:+ Itoa port)] /\
    (exists px, proxies h' !! id = Some px /\ running px = true /\ listenPort px = port).
Proof.
  intros Hup Hw Hck Ht host Hs Hr Hl1 Hno. set (ip := LocalIP (Tunnel (cfg_of h))).
  destruct (start_proxy_up up id ip ("127.0.0.1:" +:+ Itoa (LocalPort req')) h Hup Hw)
    as (port & h1 & Hstart & Hw1 & Hc1 & Ht1 & Hp1).
  destruct (external_up up host (Subdomain req') (ip +:+ ":" +:+ Itoa port) h1 Hup Hw1)
    as (named & h2 & Hext & Hw2 & Hc2 & Hp2 & Ht2).
  set (p := new_port id now req' (true && named)).
  destruct (up_update _ Hup p (world h2) Hw2) as (w3 & Hu & Hw3).
  assert (cfg_of (set_world w3 h2) = cfg_of h) as Hc3.
  { unfold cfg_of. cbn. rewrite (cfg_update_ok _ _ _ Hu). unfold add_port. fold (cfg_of h2).
    rewrite Hc2, Hc1. fold (ports h). cbn. by rewrite Ht. }
  pose proof (update_frame (add_port p) (world h2)) as Ht3. rewrite Hu in Ht3. cbn [snd] in Ht3.
  rewrite Ht2, Ht1, Hs, <- app_assoc in Ht3. cbn [app] in Ht3.
  destruct (rollback_up up host (Subdomain req') named (set_world w3 h2) l1 r _ Hup Hw3 Ht3 Hr Hl1 Hno)
    as (h4 & Hrb & Hc4 & Hp4 & Ht4).
  exists (writeError 409 "duplicate_subdomain" ("subdomain " +:+ Subdomain req' +:+ " is already in use")), h4, port.
  split.
  - unfold handleCreate. rewrite (bind_ok get _ h h h eq_refl), Hck.
    rewrite (bind_ok (try _) _ h (Ok port) h1) by (unfold try; fold ip; by rewrite Hstart).
    fold host ip. rewrite (bind_ok _ _ _ _ _ Hext). cbn beta iota.
    fold p. unfold create_commit. rewrite (bind_ok get _ h2 h2 h2 eq_refl).
    rewrite (bind_ok _ _ _ _ _ (succeeded_ok _ _ _ (on_world_ok _ _ _ _ Hu))). cbn [negb].
    unfold ports at 1. rewrite Hc2, Hc1. fold (ports h). change (HostHeader p) with (Subdomain req').
    rewrite Ht. by rewrite (bind_ok _ _ _ _ _ Hrb).
  - split_and!; [done|congruence|exact Ht4|].
    rewrite Hp4. cbn. rewrite Hp2, Hp1. eexists. by rewrite lookup_insert_eq.
Qed.

(** *** Removing *)

Lemma remove_commit_outcome id i h r h' : remove_commit id i h = (Ok r, h') ->
  cfg_of h' = cfg_of h /\ code r = 500%Z \/
  cfg_of h' = remove_port id i (cfg_of h) /\ code r = 200%Z.
Proof.
  unfold remove_commit. intros Hc. bind_inv Hc. apply updated in E. injection Hc as <- <-.
  destruct a; [by right|by left].
Qed.

Lemma find_id_spec id ps i : find_id id ps = Some i -> exists p, ps !! i = Some p /\ ID p = id.
Proof.
  revert i. induction ps as [|p ps IH]; intros i; cbn; [done|].
  case_decide as Hp; [intros [= <-]; by exists p|]. intros (j & Hj & ->)%fmap_Some. cbn. by apply IH.
Qed.

Lemma find_id_none id ps : id ∉ map ID ps -> find_id id ps = None.
Proof.
  induction ps as [|p ps IH]; cbn; [done|]. intros [Hp Hps]%not_elem_of_cons.
  rewrite decide_False by done. by rewrite IH.
Qed.

Lemma delete_NoDup {A B} (f : A -> B) i l x : NoDup (map f l) -> l !! i = Some x ->
  NoDup (map f (delete i l)) /\ f x ∉ map f (delete i l).
Proof.
  intros Hnd Hi. rewrite <- (take_drop_middle _ _ _ Hi) in Hnd |- *.
  assert (length (take i l) = i) as Hl by (apply lookup_lt_Some in Hi; rewrite length_take; lia).
  pose proof (delete_middle (take i l) (drop (S i) l) x) as Hd. rewrite Hl in Hd. rewrite Hd.
  rewrite map_app in *. cbn [map] in Hnd.
  apply list.NoDup_app in Hnd as (N1 & N2 & [N3 N4]%list.NoDup_cons). rewrite list.NoDup_app, elem_of_app.
  split; [split_and!; [done| |done]|].
  - intros y Hy Hy'. apply (N2 y Hy). by right.
  - intros [Hy|Hy]; [|done]. apply (N2 _ Hy). left.
Qed.

(** Two requests to remove one port, both past the look-up before either
    takes the lock, are both answered 200, and the second removes the entry
    that followed: a port nobody asked to remove. *)
Theorem concurrent_removals_take_neighbour id i q h r1 h1 r2 h2 :
  NoDup (map ID (ports h)) -> find_id id (ports h) = Some i -> ports h !! S i = Some q ->
  remove_commit id i h = (Ok r1, h1) -> code r1 = 200%Z ->
  remove_commit id i h1 = (Ok r2, h2) -> code r2 = 200%Z ->
  ports h2 = delete i (delete i (ports h)) /\ ID q <> id /\ ID q ∉ map ID (ports h2).
Proof.
  intros Hnd Hf Hq H1 Hr1 H2 Hr2. destruct (find_id_spec _ _ _ Hf) as (p & Hp & Hid).
  destruct (delete_NoDup ID _ _ _ Hnd Hp) as [Hnd1 Hno].
  assert (delete i (ports h) !! i = Some q) as Hq1 by (by rewrite list_lookup_delete_ge by done).
  destruct (delete_NoDup ID _ _ _ Hnd1 Hq1) as [_ Hno2].
  apply remove_commit_outcome in H1 as [[_ ?]|[H1 _]]; [congruence|].
  apply remove_commit_outcome in H2 as [[_ ?]|[H2 _]]; [congruence|].
  assert (ports h1 = delete i (ports h)) as Hp1.
  { unfold ports at 1. rewrite H1. unfold remove_port. fold (ports h). by rewrite Hf. }
  assert (ports h2 = delete i (delete i (ports h))) as Hp2.
  { unfold ports at 1. rewrite H2. unfold remove_port. fold (ports h1). rewrite Hp1.
    rewrite find_id_none by (by rewrite <- Hid). rewrite decide_True; [done|].
    by apply lookup_lt_Some in Hq1. }
  split_and!; [done| |by rewrite Hp2].
  intros Hqi. apply Hno. rewrite Hid, <- Hqi. apply list_elem_of_fmap_2.
  by apply (list_elem_of_lookup_2 _ i).
Qed.

(** *** Names stay unique, however requests interleave *)

(** A request that runs through, a call outside the lock, or a callback that
    takes the lock for a request already past its look-ups. *)
Inductive port_step : PortsHandler (W := W) -> PortsHandler (W := W) -> Prop :=
  | step_outside h h' : cfg_of h' = cfg_of h -> port_step h h'
  | step_create req id now h r h' : handleCreate req id now h = (Ok r, h') -> port_step h h'
  | step_create_commit host b p h r h' : create_commit host b p h = (Ok r, h') -> port_step h h'
  | step_remove_commit id i h r h' : remove_commit id i h = (Ok r, h') -> port_step h h'.

Definition unique_names h : Prop := NoDup (map HostHeader (ports h)).

Lemma ports_taken_false sub ps : taken sub ps = false -> sub ∉ map HostHeader ps.
Proof.
  intros Ht (ep & -> & Hep)%list_elem_of_fmap. unfold taken in Ht.
  assert (existsb (fun x => bool_decide (HostHeader x = HostHeader ep)) ps = true) as E; [|congruence].
  apply existsb_exists. exists ep. split; [by apply list_elem_of_In|by apply bool_decide_eq_true_2].
Qed.

Lemma ports_unique_snoc ps p : NoDup (map HostHeader ps) -> taken (HostHeader p) ps = false ->
  NoDup (map HostHeader (ps ++ [p])).
Proof.
  intros Hnd Ht%ports_taken_false. rewrite map_app. apply list.NoDup_app. split_and!; [done| |apply NoDup_singleton].
  by intros x Hx ->%list_elem_of_singleton.
Qed.

Lemma unique_delete i ps : NoDup (map HostHeader ps) -> NoDup (map HostHeader (delete i ps)).
Proof.
  intros Hnd. eapply sublist_NoDup; [exact Hnd|]. apply (fmap_sublist HostHeader), sublist_delete.
Qed.

(** However requests to expose and to remove ports interleave, no two
    entries of the configuration have the same name. *)
Theorem names_stay_unique h h' : star port_step h h' -> unique_names h -> unique_names h'.
Proof.
  intros Hs Hu. refine (star_inv_ind port_step unique_names _ h h' Hu Hs).
  clear h h' Hs Hu. unfold unique_names. intros h h' Hu Hs. destruct Hs as [h h' E|req id now h r h' E|host b p h r h' E|id i h r h' E].
  - unfold ports. by rewrite E.
  - apply create_cases in E as [E|[-> _]]; [|done].
    destruct E as (req' & port & px & w1 & _ & Ht & _ & E). destruct (AddRoute _ _ w1) as [rr w2].
    destruct (if is_ok rr then _ else _) as [rc w3]. destruct E as (_ & -> & _).
    by apply ports_unique_snoc.
  - apply commit_outcome in E as [(-> & Ht & _)|[-> _]]; [|done]. by apply ports_unique_snoc.
  - apply remove_commit_outcome in E as [[E _]|[E _]]; unfold ports; rewrite E; [done|].
    unfold remove_port. fold (ports h). case_match; [by apply unique_delete|].
    case_decide; [by apply unique_delete|done].
Qed.
End Handlers.

(** The task of the newest request takes the outcome of an older one. *)
Lemma older_outcome_overwrites {W} (w : W) t e :
  runProvision "provision-old" (Err e) {| mgr := w; task := Some t |}
  = (Ok tt, {| mgr := w; task := Some {| TaskID := TaskID t; TaskStatus := "failed";
                                         TaskError := e |} |}).
Proof. done. Qed.

(** An older error stays next to a newer success. *)
Lemma error_survives_completion {W} (w : W) t :
  runProvision (TaskID t) (Ok tt) {| mgr := w; task := Some t |}
  = (Ok tt, {| mgr := w; task := Some {| TaskID := TaskID t; TaskStatus := "completed";
                                         TaskError := TaskError t |} |}).
Proof. done. Qed.

(** The interface is implemented by the client of [Caddy]. *)
#[export] Instance caddy_routes {C E} `{ConfigManager C} `{HTTPClient E} `{CaddyCodec}
  : RouteClient (CaddyClient (C := C) (E := E)) := {|
  AddRoute := Caddy.AddRoute;
  RemoveRoute := Caddy.RemoveRoute
|}.

(** ** A world where every service answers

    The routes of [Caddy]'s server in memory, without its transport. *)

Record memory := {
  m_cfg : RootConfig; m_table : list caddyRouteJSON; m_records : gset string; m_next : Z
}.
Definition with_m_cfg (c : RootConfig) (w : memory) : memory :=
  {| m_cfg := c; m_table := m_table w; m_records := m_records w; m_next := m_next w |}.
Definition with_m_table (t : list caddyRouteJSON) (w : memory) : memory :=
  {| m_cfg := m_cfg w; m_table := t; m_records := m_records w; m_next := m_next w |}.
Definition with_m_records (r : gset string) (w : memory) : memory :=
  {| m_cfg := m_cfg w; m_table := m_table w; m_records := r; m_next := m_next w |}.

#[export] Instance m_config : ConfigManager memory := {|
  cfg_get := m_cfg; cfg_update f w := (Ok tt, with_m_cfg (f (m_cfg w)) w)
|}.
#[export] Instance m_config_laws : ConfigManagerLaws memory.
Proof. split; cbn; [by intros f c c' [= <-]|done|]. intros f c. eexists _, _. by split. Qed.
#[export] Instance m_client : RouteClient memory := {|
  AddRoute host up w := (Ok tt, with_m_table (m_table w ++ [route_for host up]) w);
  RemoveRoute host w :=
    match find_host host (host_routes (m_table w)) with
    | Some i => (Ok tt, with_m_table (delete i (m_table w)) w)
    | None => (Err "no route", w)
    end
|}.
#[export] Instance m_dns : DNSRecords memory := {|
  CreateRecord sub w := (Ok tt, with_m_records ({[sub]} ∪ m_records w) w);
  DeleteRecord sub w := (Ok tt, with_m_records (m_records w ∖ {[sub]}) w)
|}.
#[export] Instance m_listeners : Listeners memory := {|
  Listen a w := (Ok (m_next w), {| m_cfg := m_cfg w; m_table := m_table w;
                                   m_records := m_records w; m_next := m_next w + 1 |});
  CloseListener _ w := w
|}.

Lemma m_remove_ok host w w' : RemoveRoute host w = (Ok tt, w') ->
  exists l1 r l2, m_table w = l1 ++ r :: l2 /\ Caddy.matches host r = true /\
    Forall (fun r => Caddy.matches host r = false) l1 /\
    m_table w' = delete (length l1 - length (List.filter hostless l1)) (l1 ++ r :: l2).
Proof.
  cbn. destruct (find_host _ _) as [i|] eqn:Hf; [|done]. intros [= <-].
  apply find_host_position in Hf as (l1 & r & l2 & -> & Hr & Hl1 & ->). by exists l1, r, l2.
Qed.

#[export, refine] Instance m_world : PortsWorld memory := {| served := m_table |}.
Proof.
  - by intros host up w w' [= <-].
  - apply m_remove_ok.
  - by intros host up w.
  - intros host w. cbn. by destruct (find_host _ _).
  - by intros sub w.
  - by intros sub w.
  - by intros sub w p.
  - by intros sub w p.
  - by intros a w.
  - by intros p w.
  - by intros f w.
Defined.

(** ** Witnesses *)

Definition w_port (id name : string) : ExposedPort :=
  {| ID := id; Config.Protocol := "http"; Internal := 3000; HostHeader := name;
     PortStatus := "active"; CreatedAt := "t" |}.
Definition w_cfg (ps : list ExposedPort) : RootConfig :=
  set_ExposedPorts ps (set_Tunnel w_tunnel (w_dns "example.com")).
Definition w_memory : memory :=
  {| m_cfg := w_cfg [w_port "p1" "app"; w_port "p2" "db"];
     m_table := [route_for "app.example.com" "10.8.1.2:40000";
                  route_for "db.example.com" "10.8.1.2:40001"];
     m_records := {["app"; "db"]}; m_next := 50000 |}.
Definition w_handler : PortsHandler := NewPortsHandler w_memory.
Definition w_req (name : string) : createPortRequest :=
  {| LocalPort := 4000; Subdomain := name; Protocol := "http" |}.

(** Both requests for [p1] have looked it up; [p2] goes with it. *)
Lemma concurrent_removals_take_neighbour_witness :
  let removed id := {| code := 200; body := JObj [("id", JStr id); ("status", JStr "removed")] |} in
  let h1 := set_world (with_m_cfg (w_cfg [w_port "p2" "db"]) w_memory) w_handler in
  let h2 := set_world (with_m_cfg (w_cfg []) w_memory) w_handler in
  remove_commit "p1" 0 w_handler = (Ok (removed "p1"), h1) /\
  remove_commit "p1" 0 h1 = (Ok (removed "p1"), h2) /\
  ports h2 = delete 0 (delete 0 (ports w_handler)) /\ "p2" <> "p1" /\ ("p2" ∉ map ID (ports h2)).
Proof.
  split; [reflexivity|]. split; [reflexivity|].
  refine (concurrent_removals_take_neighbour "p1" 0 (w_port "p2" "db") w_handler
           {| code := 200; body := JObj [("id", JStr "p1"); ("status", JStr "removed")] |}
           (set_world (with_m_cfg (w_cfg [w_port "p2" "db"]) w_memory) w_handler)
           {| code := 200; body := JObj [("id", JStr "p1"); ("status", JStr "removed")] |}
           (set_world (with_m_cfg (w_cfg []) w_memory) w_handler) _ _ _ _ _ _ _); try reflexivity.
  apply (bool_decide_eq_true_1 (NoDup _)). vm_compute. reflexivity.
Defined.

(** The new entry comes with its route and its record. *)
Lemma create_outcome_witness :
  exists r h', handleCreate (Some (w_req "web")) "p3" "t" w_handler = (Ok r, h') /\
  (exposed (Some (w_req "web")) "p3" "t" w_handler r h' \/
   (ports h' = ports w_handler /\ (code r = 400 \/ code r = 409 \/ code r = 500)%Z)).
Proof.
  eexists _, _. split; [vm_compute; reflexivity|].
  apply (create_outcome (Some (w_req "web")) "p3" "t" w_handler). vm_compute. reflexivity.
Defined.

Example exposed_web :
  let h' := snd (handleCreate (Some (w_req "web")) "p3" "t" w_handler) in
  m_table (world h') = m_table w_memory ++ [route_for "web.example.com" "10.8.1.2:50000"] /\
  map HostHeader (ports h') = ["app"; "db"; "web"] /\ bool_decide ("web" ∈ m_records (world h')) = true.
Proof. vm_compute. split_and!; reflexivity. Qed.

Lemma names_stay_unique_witness :
  exists h', star port_step w_handler h' /\ h' <> w_handler /\ unique_names h'.
Proof.
  set (h' := snd (handleCreate (Some (w_req "web")) "p3" "t" w_handler)).
  assert (star port_step w_handler h') as Hs.
  { eapply star_snoc; [apply star_nil|].
    apply (step_create (Some (w_req "web")) "p3" "t" w_handler
             (match fst (handleCreate (Some (w_req "web")) "p3" "t" w_handler) with
              | Ok r => r | _ => writeError 0 "" "" end)). vm_compute. reflexivity. }
  exists h'. split; [exact Hs|]. split; [intros E; by apply (f_equal (fun h => length (ports h))) in E|].
  apply (names_stay_unique w_handler h' Hs).
  apply (bool_decide_eq_true_1 (NoDup _)). vm_compute. reflexivity.
Defined.
