(* ===== verification/Tray.v ===== *)
(** * traylogic and trayapi: the tray application

    The state behind the icon, the health and status polling, the reconnection
    after a network loss, the throttled notifications, the menu with its
    handlers, and the client of the daemon's local API.  What the application
    asks of the operating system and of the daemon is recorded as a list of
    calls; the answers and the outcomes of the waits are inputs.  Handlers are
    one step each, as the lock makes them; the text of a JSON value is the
    parameter [parse]. *)

From Stdlib Require Import SpecFloat.
From S2P Require Import Prelude GoLib Float64 Config Ports.

(** ** internal/platform: the data of the interfaces *)

Inductive IconState := IconGreen | IconYellow | IconRed.
Inductive Severity := SeverityInfo | SeverityWarning | SeverityError.
Inductive NetworkEventType :=
  | NetworkReachabilityLost | NetworkReachabilityRestored | NetworkDefaultRouteChanged.
Record MenuItem := { MenuID : string; Label : string; Disabled : bool; Checked : bool }.

#[export] Instance IconState_eq_dec : EqDecision IconState.
Proof. solve_decision. Defined.
#[export] Instance Severity_eq_dec : EqDecision Severity.
Proof. solve_decision. Defined.
#[export] Instance MenuItem_eq_dec : EqDecision MenuItem.
Proof. solve_decision. Defined.

(** ** app.go *)

Record TrayState := {
  Icon : IconState; TunnelStatus : string; DaemonAlive : bool; VPSName : string;
  ExposedCount : Z
}.

(** What the application does to the outside. *)
Inductive Call :=
  | CIcon (i : IconState) | CTooltip (s : string) | CMenu (items : list MenuItem)
  | CNotify (at_ : time) (title text : string) (sev : Severity)
  | CRequest (method url : string) | CTimer (d : Z) | CClip (s : string) | CBrowser (url : string)
  | CAutostart (on : bool) | CCancel.

#[export] Instance Call_eq_dec : EqDecision Call.
Proof. solve_decision. Defined.

(** [fails] is the counter of the health goroutine. *)
Record App := {
  version : string; baseURL : string; state : TrayState; lastSent : gmap string time;
  now : time; fails : Z; calls : list Call
}.

Definition set_state (s : TrayState) (a : App) : App :=
  {| version := version a; baseURL := baseURL a; state := s; lastSent := lastSent a; now := now a;
     fails := fails a; calls := calls a |}.
Definition set_sent (m : gmap string time) (a : App) : App :=
  {| version := version a; baseURL := baseURL a; state := state a; lastSent := m; now := now a;
     fails := fails a; calls := calls a |}.
Definition set_fails (n : Z) (a : App) : App :=
  {| version := version a; baseURL := baseURL a; state := state a; lastSent := lastSent a;
     now := now a; fails := n; calls := calls a |}.
Definition call (c : Call) (a : App) : App :=
  {| version := version a; baseURL := baseURL a; state := state a; lastSent := lastSent a;
     now := now a; fails := fails a; calls := calls a ++ [c] |}.
Definition pass_time (d : Z) (a : App) : App :=
  {| version := version a; baseURL := baseURL a; state := state a; lastSent := lastSent a;
     now := now a + d; fails := fails a; calls := calls a |}.

Definition set_icon (i : IconState) (s : TrayState) : TrayState :=
  {| Icon := i; TunnelStatus := TunnelStatus s; DaemonAlive := DaemonAlive s;
     VPSName := VPSName s; ExposedCount := ExposedCount s |}.
Definition set_alive (b : bool) (s : TrayState) : TrayState :=
  {| Icon := Icon s; TunnelStatus := TunnelStatus s; DaemonAlive := b; VPSName := VPSName s;
     ExposedCount := ExposedCount s |}.
Definition set_tunnel (t : string) (s : TrayState) : TrayState :=
  {| Icon := Icon s; TunnelStatus := t; DaemonAlive := DaemonAlive s; VPSName := VPSName s;
     ExposedCount := ExposedCount s |}.

Definition initial_state : TrayState :=
  {| Icon := IconRed; TunnelStatus := "disconnected"; DaemonAlive := false; VPSName := "";
     ExposedCount := 0 |}.

Definition NewApp (version baseURL : string) (t : time) : App :=
  {| version := version; baseURL := baseURL; state := initial_state; lastSent := ∅; now := t;
     fails := 0; calls := [] |}.

(** ** notifier.go *)

Definition cooldown : Z := seconds 60.

(** [throttledNotifier.Send]: the title is the key of the throttle. *)
Definition Send (title text : string) (sev : Severity) (a : App) : App :=
  let send := call (CNotify (now a) title text sev) (set_sent (<[title := now a]> (lastSent a)) a) in
  match lastSent a !! title with
  | Some last => if decide (now a - last < cooldown)%Z then a else send
  | None => send
  end.

(** ** state.go *)

(** [itoa2]: digits until the number is zero; 20 digits cover an [int]. *)
Fixpoint itoa2_loop (fuel : nat) (n : Z) (s : string) : string :=
  match fuel with
  | O => s
  | S f => if decide (0 < n)%Z
           then itoa2_loop f (n `quot` 10) (String (ascii_of_N (Z.to_N (48 + n `rem` 10))) s)
           else s
  end.
Definition itoa2 (n : Z) : string := if decide (n = 0)%Z then "0" else itoa2_loop 20 n "".

Definition icon_of (s : TrayState) : IconState :=
  if negb (DaemonAlive s) then IconRed
  else if decide (TunnelStatus s = "connected") then IconGreen
  else if decide (TunnelStatus s = "connecting") then IconYellow
  else IconRed.

Definition buildTooltipLocked (s : TrayState) : string :=
  if negb (DaemonAlive s) then "unet: Daemon not running"
  else if decide (TunnelStatus s = "connected") then
    "unet: Connected (" +:+ (if decide (VPSName s = "") then "unknown" else VPSName s) +:+ "), " +:+
    itoa2 (ExposedCount s) +:+ " routes"
  else if decide (TunnelStatus s = "connecting") then "unet: Connecting..."
  else "unet: Disconnected".

Definition updateStateIconLocked (a : App) : App :=
  let s := set_icon (icon_of (state a)) (state a) in
  call (CTooltip (buildTooltipLocked s)) (call (CIcon (Icon s)) (set_state s a)).

(** ** trayapi/client.go *)

(** The answer to a request: status and body, or why there is none. *)
Definition Answer := result (Z * string).

Record PortEntry := { PSubdomain : string; PFQDN : string; PLocalPort : Z; PStatus : string }.
Record DaemonStatus := {
  DTunnelStatus : string; DConnectedAt : string; DHost : string; DPorts : list PortEntry
}.

(** Decoding into a struct: the last value of a key counts, a missing key or
    null leaves the zero value, another type is an error. *)
Definition member (key : string) (j : json) : option json :=
  match j with
  | JObj l => Some (foldl (fun v kv => if decide (fst kv = key) then snd kv else v) JNull l)
  | JNull => Some JNull
  | _ => None
  end.
Definition as_str (j : json) : option string :=
  match j with JStr s => Some s | JNull => Some "" | _ => None end.
Definition as_num (j : json) : option Z :=
  match j with JNum z => Some z | JNull => Some 0%Z | _ => None end.
Definition as_arr {A} (f : json -> option A) (j : json) : option (list A) :=
  match j with JArr l => mapM f l | JNull => Some [] | _ => None end.
Definition str_member (key : string) (j : json) : option string := member key j ≫= as_str.

Definition decode_port (j : json) : option PortEntry :=
  sub ← str_member "subdomain" j; fqdn ← str_member "fqdn" j;
  port ← member "localPort" j ≫= as_num; st ← str_member "status" j;
  Some {| PSubdomain := sub; PFQDN := fqdn; PLocalPort := port; PStatus := st |}.

Definition decode_status (j : json) : option DaemonStatus :=
  tunnel ← member "tunnel" j; st ← str_member "status" tunnel; at_ ← str_member "connectedAt" tunnel;
  vps ← member "vps" j; host ← str_member "host" vps;
  ports ← member "ports" j ≫= as_arr decode_port;
  Some {| DTunnelStatus := st; DConnectedAt := at_; DHost := host; DPorts := ports |}.

(** [discoverPort]: the environment, the daemon's configuration file, 8080. *)
Definition defaultPort : Z := 8080.
Definition discoverPort (env : string) (file : option string) (file_port : string -> option Z) : Z :=
  match Atoi env with
  | (p, None) => if decide (env <> "" /\ 0 < p)%Z then p else
                   match file ≫= file_port with
                   | Some q => if decide (0 < q)%Z then q else defaultPort
                   | None => defaultPort
                   end
  | _ => match file ≫= file_port with
         | Some q => if decide (0 < q)%Z then q else defaultPort
         | None => defaultPort
         end
  end.

Definition NewClient (port : Z) : string := "http://127.0.0.1:" +:+ Itoa port.

Definition postAction (path : string) (ans : Answer) : eff App unit :=
  a ← get;
  _ ← modify (call (CRequest "POST" (baseURL a +:+ path)));
  match ans with
  | Ok (code, body) =>
      lift (fail_if (bool_decide (400 <= code)%Z)
        ("trayapi: " +:+ path +:+ " returned " +:+ Itoa code +:+ ": " +:+ body))
  | Err e => throw ("trayapi: " +:+ path +:+ ": " +:+ e)
  | Panic p => panic p
  end.

Definition Connect (ans : Answer) : eff App unit := postAction "/api/tunnel/connect" ans.
Definition Disconnect (ans : Answer) : eff App unit := postAction "/api/tunnel/disconnect" ans.

Definition get_status_url : eff App unit :=
  a ← get; modify (call (CRequest "GET" (baseURL a +:+ "/api/status"))).

Definition HealthCheck (ans : Answer) : eff App bool :=
  _ ← get_status_url;
  mret (match ans with Ok (code, _) => bool_decide (code = 200)%Z | _ => false end).

Section Client.
Context (parse : string -> option json).

Definition GetStatus (ans : Answer) : eff App DaemonStatus :=
  _ ← get_status_url;
  match ans with
  | Ok (code, body) =>
      if decide (code <> 200)%Z then throw ("trayapi: status returned " +:+ Itoa code)
      else match parse body ≫= decode_status with
           | Some s => mret s
           | None => throw "trayapi: decode status"
           end
  | Err e => throw ("trayapi: status: " +:+ e)
  | Panic p => panic p
  end.

(** The addresses of the active ports that have one. *)
Definition port_urls (s : DaemonStatus) : list string :=
  map (fun p => "https://" +:+ PFQDN p)
    (filter (fun p => PStatus p = "active" /\ PFQDN p <> "") (DPorts s)).

Definition GetPortURLs (ans : Answer) : eff App (list string) :=
  s ← GetStatus ans; mret (port_urls s).

(** ** state.go: the polling *)

Definition healthFailThreshold : Z := 3.

(** One tick of the health goroutine. *)
Definition health_tick (ans : Answer) (a : App) : App :=
  match HealthCheck ans a with
  | (Ok alive, a) =>
      let wasAlive := DaemonAlive (state a) in
      let a := set_state (set_alive alive (state a)) a in
      if alive then
        let a := set_fails 0 a in
        if negb wasAlive then Send "unet" "Daemon recovered" SeverityInfo a else a
      else
        let a := set_fails (wrap64 (fails a + 1)) a in
        if wasAlive && bool_decide (healthFailThreshold <= fails a)%Z
        then updateStateIconLocked (Send "unet" "Daemon stopped" SeverityError a)
        else a
  | (_, a) => a
  end.

Definition pollInterval (s : TrayState) : Z :=
  if decide (TunnelStatus s = "connected") then seconds 3 else seconds 10.

Definition exposed_count (s : DaemonStatus) : Z :=
  Z.of_nat (length (filter (fun p => PStatus p = "active") (DPorts s))).

Definition pollDaemonStatus (ans : Answer) (a : App) : App :=
  match GetStatus ans a with
  | (Ok status, a) =>
      updateStateIconLocked
        (set_state {| Icon := Icon (state a); TunnelStatus := DTunnelStatus status;
                      DaemonAlive := DaemonAlive (state a); VPSName := DHost status;
                      ExposedCount := exposed_count status |} a)
  | (_, a) => a
  end.

(** ** reconnect.go *)

Definition backoffInitial : Z := seconds 1.
Definition backoffCap : Z := seconds 60.

(** [time.Duration(math.Min(float64(delay)*2.0, float64(backoffCap)))]; [odd]
    is what the processor makes of a float outside the range. *)
Definition next_delay (odd : f64 -> Z) (delay : Z) : Z :=
  let d := f_mul (f_of_Z delay) (f_of_Z 2) in
  let c := f_of_Z backoffCap in
  f_to_int64 odd (if f_ltb d c then d else c).

(** How a wait ends: its timer fires, or an event comes before, after the time
    given. *)
Inductive Wake := WCanceled | WClosed | WEvent (t : NetworkEventType) (after : Z) | WTimer.

(** What one turn of the loop meets: a cancelled context, the two answers, the
    time they take, the end of the wait. *)
Record Round := {
  canceled : bool; disconnected : Answer; connected : Answer; spent : Z; wake : Wake
}.
Inductive Outcome := Reconnected | Stopped | Going (delay attempt : Z).

Definition succeeded_now (ans : Answer) : bool :=
  match ans with Ok (code, _) => negb (bool_decide (400 <= code)%Z) | _ => false end.

(** One attempt: the state shows it, the tunnel goes down and up. *)
Definition reconnect_attempt (attempt : Z) (r : Round) (a : App) : bool * App :=
  let a := updateStateIconLocked (set_state (set_tunnel "connecting" (state a)) a) in
  let a := snd (Disconnect (disconnected r) a) in
  let '(res, a) := Connect (connected r) a in
  let a := pass_time (spent r) a in
  if is_ok res then (true, Send "unet" "Tunnel connected" SeverityInfo a)
  else (false, if decide (attempt = 3)%Z
               then Send "unet" "Cannot reach VPS — check network" SeverityError a else a).

Fixpoint doReconnectBackoff (odd : f64 -> Z) (rounds : list Round) (delay attempt : Z) (a : App)
  : Outcome * App :=
  match rounds with
  | [] => (Going delay attempt, a)
  | r :: rounds =>
      if canceled r then (Stopped, a) else
      let attempt := wrap64 (attempt + 1) in
      let '(up, a) := reconnect_attempt attempt r a in
      if up then (Reconnected, a) else
      let a := call (CTimer delay) a in
      match wake r with
      | WCanceled | WClosed => (Stopped, a)
      | WEvent t after =>
          let delay := match t with NetworkReachabilityRestored => backoffInitial | _ => delay end in
          doReconnectBackoff odd rounds (next_delay odd delay) attempt (pass_time after a)
      | WTimer => doReconnectBackoff odd rounds (next_delay odd delay) attempt (pass_time delay a)
      end
  end.

(** [startReconnectLoop] on an event. *)
Definition on_network_event (odd : f64 -> Z) (t : NetworkEventType) (rounds : list Round) (a : App)
  : App :=
  match t with
  | NetworkReachabilityLost => snd (doReconnectBackoff odd rounds backoffInitial 0 a)
  | _ => a
  end.
End Client.

(** ** menu.go *)

Definition item (id label : string) : MenuItem :=
  {| MenuID := id; Label := label; Disabled := false; Checked := false |}.

Definition buildMenu (autostart : bool) (st : TrayState) : list MenuItem :=
  (if DaemonAlive st then
     if decide (TunnelStatus st = "connected") then [item "disconnect" "Disconnect"]
     else [item "connect" "Connect"]
   else []) ++
  [{| MenuID := "copy_url"; Label := "Copy public URL";
      Disabled := bool_decide (ExposedCount st = 0)%Z; Checked := false |};
   item "open_admin" "Open admin UI"; item "sep1" "";
   {| MenuID := "autostart"; Label := "Start at login"; Disabled := false; Checked := autostart |};
   item "sep2" ""] ++
  (if negb (DaemonAlive st) then [item "restart_daemon" "Restart daemon"] else []) ++
  [item "about" "About"; item "quit" "Quit"].

(** [buildVPSSubMenu] *)
Definition buildVPSSubMenu : list MenuItem := [].

(** The first calls of [Run]; an autostart entry is written again. *)
Definition Run (autostart : bool) (a : App) : App :=
  let a := if autostart then call (CAutostart true) a else a in
  call (CMenu (buildMenu autostart (state a)))
    (call (CTooltip "unet: starting...") (call (CIcon IconRed) a)).

Definition actionConnect (ans : Answer) (a : App) : App :=
  let '(res, a) := Connect ans a in
  if is_ok res then a else Send "unet" "Failed to connect tunnel" SeverityError a.
Definition actionDisconnect (ans : Answer) (a : App) : App := snd (Disconnect ans a).
Definition actionCopyURL (parse : string -> option json) (ans : Answer) (a : App) : App :=
  match GetPortURLs parse ans a with
  | (Ok (url :: _), a) => call (CClip url) a
  | (_, a) => a
  end.
Definition actionOpenAdmin (a : App) : App := call (CBrowser "http://localhost:8080") a.
(** [after]: what [IsEnabled] says when the menu is built. *)
Definition actionToggleAutostart (enabled after : bool) (a : App) : App :=
  let a := call (CAutostart (negb enabled)) a in call (CMenu (buildMenu after (state a))) a.
Definition actionRestartDaemon (a : App) : App := a.
Definition actionAbout (a : App) : App := Send "unet" ("unet v" +:+ version a) SeverityInfo a.
Definition actionQuit (a : App) : App := call CCancel a.

(** The handler of an item, with the inputs of a click. *)
Record Click := { c_answer : Answer; c_enabled : bool; c_after : bool }.
Definition on_click (parse : string -> option json) (id : string) (c : Click) (a : App) : App :=
  if decide (id = "connect") then actionConnect (c_answer c) a
  else if decide (id = "disconnect") then actionDisconnect (c_answer c) a
  else if decide (id = "copy_url") then actionCopyURL parse (c_answer c) a
  else if decide (id = "open_admin") then actionOpenAdmin a
  else if decide (id = "autostart") then actionToggleAutostart (c_enabled c) (c_after c) a
  else if decide (id = "restart_daemon") then actionRestartDaemon a
  else if decide (id = "about") then actionAbout a
  else if decide (id = "quit") then actionQuit a
  else a.

(** ** platform/network_monitor.go *)

Record Monitor := { wasReachable : bool; failCount : Z }.
Definition NewMonitor : Monitor := {| wasReachable := true; failCount := 0 |}.

(** One turn of [Watch] with the outcome of its probe: two failures in a row
    are a loss, the first success after a loss a restoration. *)
Definition watch_tick (reachable : bool) (m : Monitor) : list NetworkEventType * Monitor :=
  let n := if reachable then 0%Z else wrap64 (failCount m + 1) in
  if wasReachable m && bool_decide (2 <= n)%Z
  then ([NetworkReachabilityLost], {| wasReachable := false; failCount := n |})
  else if negb (wasReachable m) && reachable
  then ([NetworkReachabilityRestored], {| wasReachable := true; failCount := 0 |})
  else ([], {| wasReachable := wasReachable m; failCount := n |}).

(** The events of a sequence of probes. *)
Fixpoint watch (probes : list bool) (m : Monitor) : list NetworkEventType :=
  match probes with
  | [] => []
  | p :: probes => let '(evs, m) := watch_tick p m in evs ++ watch probes m
  end.

(** ** singleton_windows.go *)

Inductive MutexResult := MutexCreated | MutexExists | MutexFailed.
Definition AcquireSingletonLock (r : MutexResult) : bool :=
  match r with MutexExists => false | _ => true end.

(** ** Properties *)

Section Properties.
Context (parse : string -> option json).

(** What another goroutine, the user or the clock does next.  A click needs an
    item of the menu shown last that is not disabled. *)
Definition last_menu (cs : list Call) : list MenuItem :=
  foldl (fun m c => match c with CMenu items => items | _ => m end) [] cs.

Inductive tray_step (toggles : bool) : App -> App -> Prop :=
  | t_time d a : (0 <= d)%Z -> tray_step toggles a (pass_time d a)
  | t_health ans a : tray_step toggles a (health_tick ans a)
  | t_status ans a : tray_step toggles a (pollDaemonStatus parse ans a)
  | t_attempt n r a : (0 <= spent r)%Z -> tray_step toggles a (snd (reconnect_attempt n r a))
  | t_timer d a : tray_step toggles a (call (CTimer d) a)
  | t_click it c a : it ∈ last_menu (calls a) -> Disabled it = false ->
      (MenuID it = "autostart" -> toggles = true) ->
      tray_step toggles a (on_click parse (MenuID it) c a).

(** *** Requests leave everything but the calls alone *)

Definition only_requests (a a' : App) : Prop :=
  exists m u, a' = call (CRequest m u) a.

Lemma post_requests path ans a : only_requests a (snd (postAction path ans a)).
Proof. exists "POST", (baseURL a +:+ path). by destruct ans as [[? ?]|?|?]. Qed.

Lemma health_requests ans a : exists b, HealthCheck ans a = (Ok b, call (CRequest "GET" (baseURL a +:+ "/api/status")) a)
  /\ b = match ans with Ok (code, _) => bool_decide (code = 200)%Z | _ => false end.
Proof. eexists. by split. Qed.

Lemma status_requests ans a : snd (GetStatus parse ans a) = call (CRequest "GET" (baseURL a +:+ "/api/status")) a.
Proof.
  unfold GetStatus, get_status_url, mbind, eff_bind. cbn.
  destruct ans as [[c b]|e|p]; [|done..]. case_decide; [done|]. by repeat case_match.
Qed.

(** *** An induction for invariants

    A property of the state that time, requests, other calls, sending and the
    tray's own updates preserve holds after every step. *)
Record closed (I : App -> Prop) : Prop := {
  cl_time : forall d a, (0 <= d)%Z -> I a -> I (pass_time d a);
  cl_call : forall c a, (forall t x y s, c <> CNotify t x y s) -> (forall m, c <> CMenu m) ->
    I a -> I (call c a);
  cl_send : forall text sev a, text <> "Daemon stopped" -> I a -> I (Send "unet" text sev a);
  cl_state : forall s a, DaemonAlive s = DaemonAlive (state a) -> I a -> I (set_state s a);
  cl_health : forall (alive : bool) a, I a ->
    I (set_fails (if alive then 0%Z else wrap64 (fails a + 1)) (set_state (set_alive alive (state a)) a))
}.

Lemma icon_closed I : closed I -> forall a, I a -> I (updateStateIconLocked a).
Proof.
  intros HI a Ha. unfold updateStateIconLocked.
  repeat apply (cl_call _ HI); try done. by apply (cl_state _ HI).
Qed.

Lemma post_closed I : closed I -> forall path ans a, I a -> I (snd (postAction path ans a)).
Proof.
  intros HI path ans a Ha. destruct (post_requests path ans a) as (m & u & E).
  rewrite E. by apply (cl_call _ HI).
Qed.

Lemma attempt_closed I : closed I -> forall n r a, (0 <= spent r)%Z -> I a ->
  I (snd (reconnect_attempt n r a)).
Proof.
  intros HI n r a Hs Ha. unfold reconnect_attempt.
  assert (I (snd (Disconnect (disconnected r)
    (updateStateIconLocked (set_state (set_tunnel "connecting" (state a)) a))))) as H1.
  { refine (post_closed I HI "/api/tunnel/disconnect" (disconnected r) _ _).
    apply (icon_closed I HI). by apply (cl_state _ HI). }
  pose proof (post_closed I HI "/api/tunnel/connect" (connected r) _ H1) as H2.
  unfold Connect. destruct (postAction "/api/tunnel/connect" _ _) as [res a']. cbn in H2.
  pose proof (cl_time _ HI _ _ Hs H2) as H3. destruct (is_ok res); cbn.
  - by apply (cl_send _ HI).
  - case_decide; [by apply (cl_send _ HI)|done].
Qed.

(** The dead branch of the health tick is not reached when this holds. *)
Definition quiet (a : App) : Prop := DaemonAlive (state a) = true -> fails a = 0%Z.

Lemma health_tick_cases ans a : quiet a ->
  let alive := match ans with Ok (code, _) => bool_decide (code = 200)%Z | _ => false end in
  let a1 := call (CRequest "GET" (baseURL a +:+ "/api/status")) a in
  let a2 := set_fails (if alive then 0 else wrap64 (fails a + 1))
              (set_state (set_alive alive (state a)) a1) in
  health_tick ans a = if alive && negb (DaemonAlive (state a))
                      then Send "unet" "Daemon recovered" SeverityInfo a2 else a2.
Proof.
  intros Hq. cbv zeta. unfold health_tick.
  destruct (health_requests ans a) as (b & E1 & E2). rewrite E1, <- E2. clear E1 E2.
  cbn. destruct b; [by destruct (DaemonAlive (state a))|].
  destruct (DaemonAlive (state a)) eqn:Hd; [|done]. by rewrite (Hq Hd).
Qed.

Lemma health_closed I : closed I -> forall ans a, quiet a -> I a -> I (health_tick ans a).
Proof.
  intros HI ans a Hq Ha. rewrite health_tick_cases by done.
  set (alive := match ans with Ok (code, _) => bool_decide (code = 200)%Z | _ => false end).
  set (a1 := call _ a).
  assert (I (set_fails (if alive then 0%Z else wrap64 (fails a + 1)) (set_state (set_alive alive (state a)) a1))) as H1.
  { apply (cl_health _ HI alive a1). by apply (cl_call _ HI). }
  destruct (alive && negb _); [by apply (cl_send _ HI)|done].
Qed.

Lemma status_closed I : closed I -> forall ans a, I a -> I (pollDaemonStatus parse ans a).
Proof.
  intros HI ans a Ha. unfold pollDaemonStatus. pose proof (status_requests ans a) as Hs.
  destruct (GetStatus parse ans a) as [[s|e|p] a']; cbn in Hs; subst a'; try by apply (cl_call _ HI).
  apply icon_closed, (cl_state _ HI); [done|done|]. by apply (cl_call _ HI).
Qed.

Lemma click_closed I : closed I -> forall id c a, id <> "autostart" -> I a -> I (on_click parse id c a).
Proof.
  intros HI id c a Hid Ha. unfold on_click. repeat case_decide; try done.
  - unfold actionConnect, Connect. pose proof (post_closed I HI "/api/tunnel/connect" (c_answer c) a Ha) as H1.
    destruct (postAction _ _ a) as [res a']. cbn in H1. case_match; [done|by apply (cl_send _ HI)].
  - by refine (post_closed I HI "/api/tunnel/disconnect" (c_answer c) _ _).
  - unfold actionCopyURL, GetPortURLs, mbind, eff_bind. pose proof (status_requests (c_answer c) a) as Hs.
    destruct (GetStatus parse _ a) as [[s|e|p] a']; cbn in Hs |- *; subst a'; try by apply (cl_call _ HI).
    destruct (port_urls s); repeat apply (cl_call _ HI); done.
  - by apply (cl_call _ HI).
  - unfold actionAbout. apply (cl_send _ HI); [done|done].
  - by apply (cl_call _ HI).
Qed.

Lemma step_keeps I toggles a a' : closed I ->
  (toggles = true -> forall m a, I a -> I (call (CMenu m) a)) ->
  quiet a -> I a -> tray_step toggles a a' -> I a'.
Proof.
  intros HI Hm Hq Ha Hs. destruct Hs as [d a Hd|ans a|ans a|n r a Hr|d a|it c a Hin Hdis Ht].
  - by apply (cl_time _ HI).
  - by apply health_closed.
  - by apply status_closed.
  - by apply attempt_closed.
  - by apply (cl_call _ HI).
  - destruct (decide (MenuID it = "autostart")) as [Heq|Hne]; [|by apply click_closed].
    rewrite Heq. unfold on_click. rewrite !decide_False by done. rewrite decide_True by done.
    apply Hm; [by apply Ht|]. by apply (cl_call _ HI).
Qed.

(** What the run of a tray application reaches. *)
Definition started (autostart : bool) (version url : string) (t : time) : App :=
  Run autostart (NewApp version url t).
Definition reachable (toggles : bool) (a0 a : App) : Prop := star (tray_step toggles) a0 a.

Lemma quiet_closed : closed quiet.
Proof.
  split; unfold quiet.
  - done.
  - done.
  - intros text sev a _ Ha. unfold Send. repeat case_match; done.
  - intros s a Hs Ha. cbn. by rewrite Hs.
  - intros [] a Ha; done.
Qed.

Lemma reachable_keeps I toggles a0 a : closed I ->
  (toggles = true -> forall m a, I a -> I (call (CMenu m) a)) ->
  quiet a0 -> I a0 -> reachable toggles a0 a -> quiet a /\ I a.
Proof.
  intros HI Hm Hq0 H0 Hr.
  refine (star_inv_ind (tray_step toggles) (fun a => quiet a /\ I a) _ a0 a (conj Hq0 H0) Hr).
  intros a1 a2 [Hq H1] Hs. split; [|by eapply step_keeps].
  by eapply (step_keeps quiet toggles a1 a2 quiet_closed).
Qed.

Lemma started_quiet autostart v url t : quiet (started autostart v url t).
Proof. by destruct autostart. Qed.

(** *** A dead daemon *)

Lemma daemon_stopped_never_sent autostart v url t toggles a :
  reachable toggles (started autostart v url t) a ->
  forall at_ title sev, CNotify at_ title "Daemon stopped" sev ∉ calls a.
Proof.
  intros Hr. refine (proj2 (reachable_keeps
    (fun a => forall at_ title sev, CNotify at_ title "Daemon stopped" sev ∉ calls a)
    toggles _ a _ _ (started_quiet _ _ _ _) _ Hr)).
  - split; cbn; try done.
    + intros c a' Hc _ Ha at_ title sev [Hin|Hin%list_elem_of_singleton]%elem_of_app; [by eapply Ha|].
      by eapply Hc.
    + intros text sev' a' Ht Ha at_ title sev. unfold Send.
      assert (CNotify at_ title "Daemon stopped" sev ∉ calls a' ++ [CNotify (now a') "unet" text sev']) as Hn.
      { intros [Hin|Hin%list_elem_of_singleton]%elem_of_app; [by eapply Ha|congruence]. }
      repeat case_match; [apply Ha|exact Hn..].
  - intros _ m a' Ha at_ title sev [Hin|Hin%list_elem_of_singleton]%elem_of_app; [by eapply Ha|done].
  - intros at_ title sev Hin. destruct autostart; cbn in Hin; set_solver.
Qed.

(** What the user sees of the calls. *)
Definition seen (c : Call) : bool := match c with CRequest _ _ => false | _ => true end.
Definition shown (a : App) : list Call := List.filter seen (calls a).

(** A failed health check, a failed poll of the status. *)
Inductive dead_event := DeadHealth (ans : Answer) | DeadPoll (ans : Answer).
Definition dead_answer (ans : Answer) : Prop :=
  match ans with Ok (code, _) => code <> 200%Z | _ => True end.
Definition is_dead (e : dead_event) : Prop :=
  match e with DeadHealth ans | DeadPoll ans => dead_answer ans end.
Definition dead_step (a : App) (e : dead_event) : App :=
  match e with DeadHealth ans => health_tick ans a | DeadPoll ans => pollDaemonStatus parse ans a end.

Lemma shown_request m u a : shown (call (CRequest m u) a) = shown a.
Proof. unfold shown. cbn. by rewrite List.filter_app, app_nil_r. Qed.

Lemma dead_step_shown a e : quiet a -> is_dead e -> shown (dead_step a e) = shown a /\ quiet (dead_step a e).
Proof.
  intros Hq He. destruct e as [ans|ans]; cbn in *.
  - rewrite health_tick_cases by done.
    assert ((match ans with Ok (code, _) => bool_decide (code = 200)%Z | _ => false end) = false) as ->.
    { destruct ans as [[code b]|e|p]; [|done..]. by apply bool_decide_eq_false_2. }
    split; [apply shown_request|]. intros Hd. discriminate Hd.
  - unfold pollDaemonStatus. pose proof (status_requests ans a) as Hs.
    assert (forall s a', GetStatus parse ans a <> (Ok s, a')) as Hno.
    { intros s a'. unfold GetStatus, get_status_url, mbind, eff_bind. cbn.
      destruct ans as [[code b]|e|p]; [|done..]. by rewrite decide_True by done. }
    destruct (GetStatus parse ans a) as [[s|e|p] a']; [by destruct (Hno s a')|..];
      cbn in Hs; subst a'; (split; [apply shown_request|exact Hq]).
Qed.

(** Once the daemon is gone the user is told nothing: whatever the tray has
    reached, no run of failed health checks and failed polls changes its icon,
    its tooltip or its menu or sends a notification. *)
Theorem dead_daemon_goes_unnoticed autostart v url t toggles a evs :
  reachable toggles (started autostart v url t) a -> Forall is_dead evs ->
  shown (foldl dead_step a evs) = shown a.
Proof.
  intros Hr Hevs. assert (quiet a) as Hq.
  { apply (reachable_keeps quiet toggles _ a quiet_closed) in Hr as [? _]; [done| |apply started_quiet..].
    done. }
  clear Hr. revert a Hq. induction Hevs as [|e evs He Hevs IH]; intros a Hq; [done|]. cbn.
  destruct (dead_step_shown a e Hq He) as [Hs Hq']. by rewrite IH.
Qed.

(** *** Notifications *)

Definition notify_times (a : App) : list time :=
  omap (fun c => match c with CNotify t _ _ _ => Some t | _ => None end) (calls a).

Definition spaced (ts : list time) : Prop :=
  forall i t t', ts !! i = Some t -> ts !! S i = Some t' -> (t + cooldown <= t')%Z.

Lemma spaced_snoc ts t : spaced ts -> (forall t0, list.last ts = Some t0 -> (t0 + cooldown <= t)%Z) ->
  spaced (ts ++ [t]).
Proof.
  intros Hs Hl i x y Hx Hy. apply lookup_app_Some in Hy as [Hy|[Hge Hy]].
  - rewrite lookup_app_l in Hx by (apply lookup_lt_Some in Hy; lia). by eapply Hs.
  - apply list_lookup_singleton_Some in Hy as [Hi <-]. apply Hl. rewrite list.last_lookup.
    replace (pred (length ts)) with i by lia. by rewrite lookup_app_l in Hx by lia.
Qed.

(** The throttle remembers the last notification under the one title in use. *)
Definition throttled (a : App) : Prop :=
  spaced (notify_times a) /\ list.last (notify_times a) = lastSent a !! "unet".

Lemma throttled_closed : closed throttled.
Proof.
  split; unfold throttled; try done.
  - intros c a Hc _ Ha. unfold notify_times in *. cbn. rewrite omap_app.
    destruct c; cbn; rewrite ?app_nil_r; try done. by destruct (Hc at_ title text sev).
  - intros text sev a _ [Hs Hl]. unfold Send.
    assert (forall t0, lastSent a !! "unet" = Some t0 -> (t0 + cooldown <= now a)%Z ->
      spaced (notify_times a ++ [now a])) as Hnew.
    { intros t0 Ht Hle. apply spaced_snoc; [done|]. rewrite Hl, Ht. by intros ? [= <-]. }
    set (a' := call _ _).
    assert (notify_times a' = notify_times a ++ [now a]) as Ha' by (unfold notify_times; cbn; by rewrite omap_app).
    assert (lastSent a' !! "unet" = Some (now a)) as Hl' by apply lookup_insert_eq.
    destruct (lastSent a !! "unet") as [t0|] eqn:Ht.
    + case_decide as Hc; [by rewrite Ht|]. rewrite Ha', Hl', list.last_snoc. split; [|done].
      eapply Hnew; [done|]. unfold cooldown in *. lia.
    + rewrite Ha', Hl', list.last_snoc. split; [|done]. apply spaced_snoc; [done|]. by rewrite Hl.
Qed.

(** Whatever happens, two notifications are at least sixty seconds apart:
    the throttle is keyed by the title, and every notification has the same
    one, so an error is held back by whatever was said before it. *)
Theorem notifications_spaced autostart v url t toggles a i t1 t2 :
  reachable toggles (started autostart v url t) a ->
  notify_times a !! i = Some t1 -> notify_times a !! S i = Some t2 -> (t1 + cooldown <= t2)%Z.
Proof.
  intros Hr. assert (throttled a) as [Hs _]; [|by apply Hs].
  refine (proj2 (reachable_keeps throttled toggles _ a throttled_closed _ (started_quiet _ _ _ _) _ Hr)).
  - intros _ m a' [H1 H2]. split; unfold notify_times; cbn; by rewrite omap_app, app_nil_r.
  - by destruct autostart.
Qed.

(** *** The menu *)

Definition menus (a : App) : list (list MenuItem) :=
  omap (fun c => match c with CMenu m => Some m | _ => None end) (calls a).

(** As long as the user does not toggle the start at login, the menu is the
    one of the start: built for a dead daemon, with no item to connect or to
    disconnect and with the copying of addresses disabled, whatever the state
    has become. *)
Theorem menu_stays_initial autostart v url t a :
  reachable false (started autostart v url t) a ->
  menus a = [buildMenu autostart initial_state] /\
  Forall (fun it => MenuID it <> "connect" /\ MenuID it <> "disconnect" /\
                    (MenuID it = "copy_url" -> Disabled it = true))
    (buildMenu autostart initial_state).
Proof.
  intros Hr. split; [|destruct autostart; repeat constructor; done].
  refine (proj2 (reachable_keeps (fun a => menus a = [buildMenu autostart initial_state]) false _ a
    _ _ (started_quiet _ _ _ _) _ Hr)); [|done|by destruct autostart].
  split; try done.
  - intros c a' _ Hc Ha. unfold menus in *. cbn. rewrite omap_app, Ha.
    destruct c; try done. by destruct (Hc items).
  - intros text sev a' _ Ha. unfold Send. unfold menus in *.
    repeat case_match; [done|cbn; by rewrite omap_app, Ha..].
Qed.

(** *** The client and the daemon *)

Definition entry_of (p : portInfo) : PortEntry :=
  {| PSubdomain := ISubdomain p; PFQDN := ""; PLocalPort := ILocalPort p; PStatus := IStatus p |}.

Lemma decode_portInfo p : decode_port (portInfo_json p) = Some (entry_of p).
Proof. unfold portInfo_json, optional. by case_decide. Qed.

Lemma decode_ports ps : mapM decode_port (map portInfo_json ps) = Some (map entry_of ps).
Proof.
  apply mapM_Some_2. induction ps as [|p ps IH]; constructor; [apply decode_portInfo|done].
Qed.

(** The client reads back from the daemon's status the tunnel's state, the
    host and the ports, but never an address: the daemon's ports have no name
    in full, so there is never an address to copy. *)
Theorem status_round_trip priv port cfg :
  exists s, decode_status (body (handleSystemStatus priv port cfg)) = Some s /\
    DTunnelStatus s = Status (Tunnel cfg) /\ DHost s = Host (VPS cfg) /\
    DPorts s = map entry_of (buildPortInfos cfg) /\ port_urls s = [].
Proof.
  exists {| DTunnelStatus := Status (Tunnel cfg); DConnectedAt := ""; DHost := Host (VPS cfg);
            DPorts := map entry_of (buildPortInfos cfg) |}.
  split_and!; try done.
  - set (tj := JObj (("status", JStr (Status (Tunnel cfg))) ::
                     optional "localIp" (LocalIP (Tunnel cfg)) ++
                     optional "serverIp" (ServerIP (Tunnel cfg)))).
    assert (str_member "status" tj = Some (Status (Tunnel cfg)) /\ str_member "connectedAt" tj = Some "")
      as [E1 E2] by (unfold tj, optional; by repeat case_decide).
    transitivity (st ← str_member "status" tj; at_ ← str_member "connectedAt" tj;
                  ps ← as_arr decode_port (JArr (map portInfo_json (buildPortInfos cfg)));
                  Some {| DTunnelStatus := st; DConnectedAt := at_; DHost := Host (VPS cfg); DPorts := ps |});
      [reflexivity|].
    rewrite E1, E2. cbn [mbind option_bind as_arr]. by rewrite decode_ports.
  - unfold port_urls. cbn. induction (buildPortInfos cfg) as [|p ps IH]; [done|].
    cbn [map]. rewrite filter_cons, decide_False by (intros [_ Hn]; done). done.
Qed.

(** *** The network monitor *)

(** Losses and restorations alternate, beginning with [lost]. *)
Fixpoint alternating (lost : bool) (evs : list NetworkEventType) : Prop :=
  match evs with
  | [] => True
  | e :: evs => e = (if lost then NetworkReachabilityLost else NetworkReachabilityRestored) /\
                alternating (negb lost) evs
  end.

Lemma watch_alternates probes m : alternating (wasReachable m) (watch probes m).
Proof.
  revert m. induction probes as [|p probes IH]; intros [was n]; [done|]. cbn [watch].
  unfold watch_tick. cbn [wasReachable failCount].
  set (k := if p then 0%Z else wrap64 (n + 1)). destruct was; cbn [andb negb].
  - destruct (bool_decide (2 <= k)%Z); cbn [app]; [|apply (IH {| wasReachable := true; failCount := k |})].
    split; [done|]. apply (IH {| wasReachable := false; failCount := k |}).
  - destruct p; cbn [app]; [|apply (IH {| wasReachable := false; failCount := k |})].
    split; [done|]. apply (IH {| wasReachable := true; failCount := 0 |}).
Qed.

(** *** Reconnecting *)

Definition delays : list Z := map seconds [1; 2; 4; 8; 16; 32; 60]%Z.

Lemma next_delay_table odd : map (next_delay odd) delays = map seconds [2; 4; 8; 16; 32; 60; 60]%Z.
Proof. vm_compute. reflexivity. Qed.

Lemma next_delay_in odd d : d ∈ delays -> next_delay odd d ∈ delays.
Proof.
  intros (i & Hi)%list_elem_of_lookup.
  assert (map (next_delay odd) delays !! i = Some (next_delay odd d)) as Hn
    by (rewrite list_lookup_fmap, Hi; done).
  rewrite next_delay_table in Hn. apply list_elem_of_lookup_2 in Hn.
  unfold delays. set_solver.
Qed.

Lemma next_delay_doubles odd d : d ∈ delays -> next_delay odd d = Z.min (2 * d) (seconds 60).
Proof.
  intros (i & Hi)%list_elem_of_lookup.
  assert (map (next_delay odd) delays = map (fun d => Z.min (2 * d) (seconds 60)) delays) as Hm
    by (rewrite next_delay_table; vm_compute; reflexivity).
  apply (f_equal (.!! i)) in Hm. rewrite !list_lookup_fmap, Hi in Hm. by injection Hm.
Qed.

Lemma delay_bounds d : d ∈ delays -> (seconds 1 <= d <= seconds 60)%Z.
Proof.
  intros Hd. apply (proj1 (list.Forall_forall (fun d => (seconds 1 <= d <= seconds 60)%Z) delays)); [|done].
  repeat constructor; vm_compute; discriminate.
Qed.

Definition connect_request (a : App) : Call := CRequest "POST" (baseURL a +:+ "/api/tunnel/connect").
Definition connects (a : App) : nat := length (filter (fun c => c = connect_request a) (calls a)).
(** The timers that were armed. *)
Definition timers (a : App) : list Z :=
  omap (fun c => match c with CTimer d => Some d | _ => None end) (calls a).

(** A notification adds at most one call. *)
Definition says_at_most (a a' : App) : Prop :=
  baseURL a' = baseURL a /\
  (calls a' = calls a \/ exists t title text sev, calls a' = calls a ++ [CNotify t title text sev]).

Lemma send_says title text sev a : says_at_most a (Send title text sev a).
Proof.
  unfold Send, says_at_most. case_match; [case_decide|]; (split; [done|]);
    [by left|right; by eexists _, _, _, _..].
Qed.

(** The calls of an attempt, before it notifies. *)
Definition attempt_calls (a : App) : list Call :=
  let s := set_tunnel "connecting" (state a) in
  [CIcon (icon_of s); CTooltip (buildTooltipLocked (set_icon (icon_of s) s));
   CRequest "POST" (baseURL a +:+ "/api/tunnel/disconnect"); connect_request a].

Lemma post_effect path ans a :
  calls (snd (postAction path ans a)) = calls a ++ [CRequest "POST" (baseURL a +:+ path)] /\
  baseURL (snd (postAction path ans a)) = baseURL a /\
  is_ok (fst (postAction path ans a)) = succeeded_now ans.
Proof.
  unfold postAction, mbind, eff_bind, succeeded_now. cbn. destruct ans as [[c b]|?|?]; [|done..].
  cbn. unfold fail_if. by destruct (bool_decide (400 <= c)%Z).
Qed.

Lemma attempt_shape n r a : exists a1,
  calls a1 = calls a ++ attempt_calls a /\ baseURL a1 = baseURL a /\
  fst (reconnect_attempt n r a) = succeeded_now (connected r) /\
  says_at_most a1 (snd (reconnect_attempt n r a)).
Proof.
  unfold reconnect_attempt, Connect, Disconnect. set (a0 := updateStateIconLocked _).
  destruct (post_effect "/api/tunnel/disconnect" (disconnected r) a0) as (C1 & B1 & _).
  set (a2 := snd (postAction "/api/tunnel/disconnect" (disconnected r) a0)) in *.
  destruct (post_effect "/api/tunnel/connect" (connected r) a2) as (C2 & B2 & O2).
  destruct (postAction "/api/tunnel/connect" (connected r) a2) as [res a3]. cbn in C2, B2, O2.
  exists (pass_time (spent r) a3). rewrite O2. split_and!.
  - cbn. rewrite C2, B1, C1. cbn. by rewrite <- !app_assoc.
  - cbn. by rewrite B2, B1.
  - by destruct (succeeded_now _).
  - destruct (succeeded_now _); [apply send_says|]. cbn. case_decide; [apply send_says|].
    split; [done|by left].
Qed.

Lemma connects_says a a' : says_at_most a a' -> connects a' = connects a /\ timers a' = timers a.
Proof.
  unfold connects, timers, connect_request. intros [-> [->|(t & x & y & s & ->)]]; [done|].
  rewrite gfilter_app, omap_app, filter_cons, filter_nil, decide_False by done. cbn.
  by rewrite !app_nil_r.
Qed.

Lemma attempt_effect n r a :
  fst (reconnect_attempt n r a) = succeeded_now (connected r) /\
  baseURL (snd (reconnect_attempt n r a)) = baseURL a /\
  connects (snd (reconnect_attempt n r a)) = S (connects a) /\
  timers (snd (reconnect_attempt n r a)) = timers a.
Proof.
  destruct (attempt_shape n r a) as (a1 & Hc & Hb & Hf & Hs).
  destruct (connects_says _ _ Hs) as [-> ->]. destruct Hs as [-> _]. split_and!; [done..| |].
  - unfold connects, connect_request. rewrite Hc, Hb, gfilter_app, length_app. unfold attempt_calls.
    rewrite !filter_cons, filter_nil. rewrite 2 decide_False by done.
    rewrite decide_False; [rewrite decide_True by done; cbn; lia|].
    intros [= E%sapp_inj_l]. discriminate E.
  - unfold timers. rewrite Hc, omap_app. cbn. by rewrite app_nil_r.
Qed.

(** A round in which the tunnel cannot be brought up and the wait ends with the
    timer or an event. *)
Definition failing (r : Round) : Prop :=
  canceled r = false /\ succeeded_now (connected r) = false /\
  (wake r = WTimer \/ exists t after, wake r = WEvent t after).

Lemma wait_effect d t a :
  baseURL (pass_time t (call (CTimer d) a)) = baseURL a /\
  connects (pass_time t (call (CTimer d) a)) = connects a /\
  timers (pass_time t (call (CTimer d) a)) = timers a ++ [d].
Proof.
  split; [done|]. unfold connects, timers, connect_request. cbn.
  rewrite gfilter_app, omap_app, filter_cons, filter_nil, decide_False by done.
  by rewrite app_nil_r.
Qed.

(** The timer after the one of [d], and how long a round's wait is. *)
Definition then_delay (r : Round) (d : Z) : Z :=
  let d := match wake r with WEvent NetworkReachabilityRestored _ => seconds 1 | _ => d end in
  Z.min (2 * d) (seconds 60).
Definition waited (r : Round) (d : Z) : Z :=
  match wake r with WEvent _ after => after | WTimer => d | _ => 0 end.
Fixpoint timers_of (d : Z) (rs : list Round) : list Z :=
  match rs with [] => [] | r :: rs => d :: timers_of (then_delay r d) rs end.
Fixpoint time_of (d : Z) (rs : list Round) : Z :=
  match rs with [] => 0 | r :: rs => spent r + waited r d + time_of (then_delay r d) rs end.

Lemma send_now title text sev a : now (Send title text sev a) = now a.
Proof. unfold Send. by repeat (case_match || case_decide). Qed.
Lemma post_now path ans a : now (snd (postAction path ans a)) = now a.
Proof.
  unfold postAction, mbind, eff_bind. cbn. destruct ans as [[c b]|?|?]; [|done..].
  cbn. unfold fail_if. by destruct (bool_decide (400 <= c)%Z).
Qed.

Lemma attempt_time n r a : now (snd (reconnect_attempt n r a)) = (now a + spent r)%Z.
Proof.
  unfold reconnect_attempt, Connect, Disconnect. set (a0 := updateStateIconLocked _).
  pose proof (post_now "/api/tunnel/disconnect" (disconnected r) a0) as N1.
  set (a2 := snd (postAction "/api/tunnel/disconnect" (disconnected r) a0)) in *.
  pose proof (post_now "/api/tunnel/connect" (connected r) a2) as N2.
  destruct (postAction "/api/tunnel/connect" (connected r) a2) as [res a3]. cbn [snd] in N2.
  assert (N3 : now (pass_time (spent r) a3) = (now a + spent r)%Z) by (cbn; by rewrite N2, N1).
  destruct (is_ok res); cbn [snd]; [by rewrite send_now|]. case_decide; [by rewrite send_now|done].
Qed.

(** A failing round makes one attempt and arms its timer. *)
Lemma failing_round odd r rounds delay n a : failing r -> delay ∈ delays ->
  exists a', doReconnectBackoff odd (r :: rounds) delay n a
    = doReconnectBackoff odd rounds (then_delay r delay) (wrap64 (n + 1)) a' /\ then_delay r delay ∈ delays /\
    connects a' = S (connects a) /\ timers a' = timers a ++ [delay] /\
    now a' = (now a + spent r + waited r delay)%Z.
Proof.
  intros (Hc & Hs & Hw) Hd. destruct (attempt_effect (wrap64 (n + 1)) r a) as (E1 & E2 & E3 & E4).
  pose proof (attempt_time (wrap64 (n + 1)) r a) as E5.
  cbn [doReconnectBackoff]. rewrite Hc.
  destruct (reconnect_attempt (wrap64 (n + 1)) r a) as [up a1]. cbn in E1, E2, E3, E4, E5. subst up.
  rewrite Hs. unfold then_delay, waited.
  destruct Hw as [->|(t & after & ->)].
  - rewrite next_delay_doubles by done. eexists. split; [reflexivity|].
    destruct (wait_effect delay delay a1) as (_ & W2 & W3). rewrite W2, W3, E3, E4. cbn. rewrite E5.
    split_and!; [|done..]. rewrite <- (next_delay_doubles odd) by done. by apply next_delay_in.
  - assert (Hd' : (match t with NetworkReachabilityRestored => backoffInitial | _ => delay end) ∈ delays)
      by (destruct t; [done|left|done]).
    rewrite next_delay_doubles by done. exists (pass_time after (call (CTimer delay) a1)).
    destruct (wait_effect delay after a1) as (_ & W2 & W3). rewrite W2, W3, E3, E4. cbn. rewrite E5.
    split_and!; [by destruct t| |done..].
    rewrite <- (next_delay_doubles odd) by (by destruct t). apply next_delay_in. by destruct t.
Qed.

Lemma timers_bounds rs d : d ∈ delays -> Forall (fun d => (seconds 1 <= d <= seconds 60)%Z) (timers_of d rs).
Proof.
  revert d. induction rs as [|r rs IH]; intros d Hd; [constructor|]. cbn. constructor; [by apply delay_bounds|].
  apply IH. unfold then_delay. rewrite <- (next_delay_doubles (fun _ => 0%Z)); [apply next_delay_in|]; repeat case_match; try done; left.
Qed.

(** C27: however many attempts fail and whatever wakes the loop in between, it
    goes on: at the first attempt that gets through it ends, having tried once
    in each round.  After each failure it arms a timer of one second to one
    minute: twice the one before, up to the minute, and two seconds after the
    network was seen to come back.  A wait lasts until its timer or, when a
    network event comes first, until that event, of whatever kind. *)
Theorem reconnects_once_reachable odd rs ok rest a :
  Forall failing rs -> canceled ok = false -> succeeded_now (connected ok) = true ->
  exists a', doReconnectBackoff odd (rs ++ ok :: rest) backoffInitial 0 a = (Reconnected, a') /\
    connects a' = connects a + S (length rs) /\
    timers a' = timers a ++ timers_of (seconds 1) rs /\
    Forall (fun d => (seconds 1 <= d <= seconds 60)%Z) (timers_of (seconds 1) rs) /\
    now a' = (now a + time_of (seconds 1) rs + spent ok)%Z.
Proof.
  intros Hrs Hc Hok. assert (backoffInitial ∈ delays) as Hd by left.
  change (seconds 1) with backoffInitial.
  pose proof (timers_bounds rs _ Hd) as Hb.
  enough (forall delay n a, delay ∈ delays ->
    exists a', doReconnectBackoff odd (rs ++ ok :: rest) delay n a = (Reconnected, a') /\
      connects a' = connects a + S (length rs) /\ timers a' = timers a ++ timers_of delay rs /\
      now a' = (now a + time_of delay rs + spent ok)%Z) as Hgo.
  { destruct (Hgo backoffInitial 0%Z a Hd) as (a' & H1 & H2 & H3 & H4). exists a'. by split_and!. }
  clear Hd Hb a. induction Hrs as [|r rs Hr Hrs IH]; intros delay n a Hd.
  - destruct (attempt_effect (wrap64 (n + 1)) ok a) as (E1 & E2 & E3 & E4).
    pose proof (attempt_time (wrap64 (n + 1)) ok a) as E5.
    cbn [app doReconnectBackoff]. rewrite Hc.
    destruct (reconnect_attempt (wrap64 (n + 1)) ok a) as [up a1]. cbn in E1, E2, E3, E4, E5. subst up.
    rewrite Hok. exists a1. rewrite E3, E4, E5. cbn. rewrite app_nil_r. split_and!; [done|lia|done|lia].
  - cbn [app]. destruct (failing_round odd r (rs ++ ok :: rest) delay n a Hr Hd)
      as (a1 & -> & Hd' & C1 & S1 & N1).
    destruct (IH (then_delay r delay) (wrap64 (n + 1)) a1 Hd') as (a' & -> & C2 & S2 & N2).
    exists a'. rewrite C2, S2, N2, C1, S1, N1, <- app_assoc. cbn. split_and!; [done|lia|done|lia].
Qed.
End Properties.

(** ** Witnesses *)

Definition w_status : json :=
  JObj [("tunnel", JObj [("status", JStr "connected")]); ("vps", JObj [("host", JStr "vps1")]);
        ("ports", JArr [JObj [("id", JStr "p1"); ("localPort", JNum 3000);
                              ("subdomain", JStr "app"); ("status", JStr "active")]])].
Definition w_parse (s : string) : option json := Some w_status.
Definition w_ok : Answer := Ok (200%Z, "").
Definition w_refused : Answer := Err "connection refused".
Definition w_start : App := started true "1.0" "http://127.0.0.1:8080" 0.

(** A connected tray: the daemon answered a health check and a poll. *)
Definition w_connected : App := pollDaemonStatus w_parse w_ok (health_tick w_ok w_start).

Lemma w_connected_reachable : reachable w_parse false w_start w_connected.
Proof.
  refine (star_snoc _ _ (health_tick w_ok w_start) _ (star_snoc _ _ w_start _ (star_nil _ _) _) _).
  - exact (t_health w_parse false w_ok w_start).
  - exact (t_status w_parse false w_ok (health_tick w_ok w_start)).
Qed.

(** The icon is green, and stays so while the daemon is away. *)
Lemma dead_daemon_goes_unnoticed_witness :
  let evs := [DeadHealth w_refused; DeadPoll w_refused; DeadHealth w_refused; DeadHealth w_refused;
              DeadHealth w_refused] in
  Icon (state w_connected) = IconGreen /\
  shown (foldl (dead_step w_parse) w_connected evs) = shown w_connected.
Proof.
  split; [vm_compute; reflexivity|].
  apply (dead_daemon_goes_unnoticed w_parse true "1.0" "http://127.0.0.1:8080" 0 false).
  - exact w_connected_reachable.
  - repeat constructor.
Defined.

Lemma notifications_spaced_witness :
  let a := health_tick w_ok (health_tick w_refused (pass_time cooldown w_connected)) in
  notify_times a = [0; cooldown]%Z /\ (0 + cooldown <= cooldown)%Z.
Proof.
  split; [vm_compute; reflexivity|].
  apply (notifications_spaced w_parse true "1.0" "http://127.0.0.1:8080" 0 false
           (health_tick w_ok (health_tick w_refused (pass_time cooldown w_connected))) 0).
  - refine (star_snoc _ _ (health_tick w_refused (pass_time cooldown w_connected)) _
              (star_snoc _ _ (pass_time cooldown w_connected) _
                 (star_snoc _ _ w_connected _ w_connected_reachable _) _) _).
    + apply (t_time w_parse false cooldown w_connected). vm_compute. discriminate.
    + exact (t_health w_parse false w_refused (pass_time cooldown w_connected)).
    + exact (t_health w_parse false w_ok (health_tick w_refused (pass_time cooldown w_connected))).
  - vm_compute. reflexivity.
  - vm_compute. reflexivity.
Defined.

Lemma menu_stays_initial_witness :
  DaemonAlive (state w_connected) = true /\
  menus w_connected = [buildMenu true initial_state] /\
  Forall (fun it => MenuID it <> "connect" /\ MenuID it <> "disconnect" /\
                    (MenuID it = "copy_url" -> Disabled it = true))
    (buildMenu true initial_state).
Proof.
  split; [vm_compute; reflexivity|].
  apply (menu_stays_initial w_parse true "1.0" "http://127.0.0.1:8080" 0).
  exact w_connected_reachable.
Defined.

Definition w_round (ans : Answer) (w : Wake) : Round :=
  {| canceled := false; disconnected := w_ok; connected := ans; spent := 0; wake := w |}.

(** The timer fires after a second; the network comes back 7 ns into the
    wait of two. *)
Lemma reconnects_once_reachable_witness :
  exists a', doReconnectBackoff (fun _ => 0%Z)
    ([w_round w_refused WTimer; w_round w_refused (WEvent NetworkReachabilityRestored 7)] ++
     w_round w_ok WTimer :: []) backoffInitial 0 w_connected = (Reconnected, a') /\
    connects a' = connects w_connected + 3 /\
    timers a' = timers w_connected ++ [seconds 1; seconds 2] /\
    Forall (fun d => (seconds 1 <= d <= seconds 60)%Z) [seconds 1; seconds 2] /\
    now a' = (now w_connected + (seconds 1 + 7) + 0)%Z.
Proof.
  apply (reconnects_once_reachable (fun _ => 0%Z)
    [w_round w_refused WTimer; w_round w_refused (WEvent NetworkReachabilityRestored 7)]
    (w_round w_ok WTimer) [] w_connected).
  - constructor; [by split_and!; [..|left]|]. constructor; [|constructor].
    split_and!; [done..|]. right. by eexists _, _.
  - reflexivity.
  - reflexivity.
Defined.

(** The third failure is told, the success after it is not. *)
Example success_is_throttled :
  let rs := [w_round w_refused WTimer; w_round w_refused WTimer; w_round w_refused WTimer;
             w_round w_ok WTimer] in
  let a := snd (doReconnectBackoff (fun _ => 0%Z) rs backoffInitial 0 (pass_time cooldown w_connected)) in
  omap (fun c => match c with CNotify _ _ x _ => Some x | _ => None end) (calls a)
  = ["Daemon recovered"; "Cannot reach VPS — check network"].
Proof. vm_compute. reflexivity. Qed.
