(* ===== verification/AuditLog.v ===== *)
(** * audit: the audit log, its lifecycle twin and the reader

    Both loggers append JSON lines to a file of the failing file system of
    [FS]; the reader scans the lines as [bufio.Scanner] does, with its limit on
    a line.  The JSON codec, the parsing of times and the unstable sort are
    parameters; UUIDs and the formatted clock are arguments.  A read error in
    the middle of the file is not modelled. *)

From S2P Require Import Prelude GoLib Ring FS.

(** ** types.go, lifecycle.go: data *)

(** [Action] and [LifecycleAction] are strings. *)
Definition ActionCreatePeer : string := "create_peer".
Definition ActionDeletePeer : string := "delete_peer".
Definition ActionCreateRoute : string := "create_route".
Definition ActionDeleteRoute : string := "delete_route".
Definition ActionCreateToken : string := "create_token".
Definition ActionRevokeToken : string := "revoke_token".
Definition ActionRotateCert : string := "rotate_cert".

Inductive LifecycleAction :=
  | ActionBootstrapStart | ActionBootstrapComplete | ActionAttach | ActionDetach
  | ActionUpgradeStart | ActionUpgradeComplete | ActionUpgradeRollback | ActionSnapshotCreate
  | ActionRollback | ActionMigrateStart | ActionMigrateCutover | ActionMigrateComplete
  | ActionPartitionDetected | ActionReconnectSuccess | ActionStateExport | ActionStateImport
  | OtherAction (s : string).
Definition action_name (a : LifecycleAction) : string :=
  match a with
  | ActionBootstrapStart => "bootstrap_start" | ActionBootstrapComplete => "bootstrap_complete"
  | ActionAttach => "attach" | ActionDetach => "detach"
  | ActionUpgradeStart => "upgrade_start" | ActionUpgradeComplete => "upgrade_complete"
  | ActionUpgradeRollback => "upgrade_rollback" | ActionSnapshotCreate => "snapshot_create"
  | ActionRollback => "rollback" | ActionMigrateStart => "migrate_start"
  | ActionMigrateCutover => "migrate_cutover" | ActionMigrateComplete => "migrate_complete"
  | ActionPartitionDetected => "partition_detected" | ActionReconnectSuccess => "reconnect_success"
  | ActionStateExport => "state_export" | ActionStateImport => "state_import"
  | OtherAction s => s
  end.
Inductive LifecycleResult := ResultSuccess | ResultFailure | ResultPartial | OtherResult (s : string).

Record Entry := {
  EID : string; Timestamp : string; ActorTokenID : string; ActorTokenName : string;
  Action : string; TargetResourceID : string; SourceIP : string; UserAgent : string;
  Metadata : option (list (string * any))
}.
Record LifecycleEvent := {
  LID : string; LTimestamp : string; LActorTokenID : string; LActorTokenName : string;
  LAction : LifecycleAction; LTargetResourceID : string; LSourceIP : string;
  LUserAgent : string; LResult : LifecycleResult; LMetadata : option (list (string * any))
}.

Definition maxMetadataSize : Z := 4096.

(** An empty identifier or time is filled in. *)
Definition or_default (s d : string) : string := if decide (s = "") then d else s.
Definition complete (uuid now : string) (e : Entry) : Entry :=
  {| EID := or_default (EID e) uuid; Timestamp := or_default (Timestamp e) now;
     ActorTokenID := ActorTokenID e; ActorTokenName := ActorTokenName e; Action := Action e;
     TargetResourceID := TargetResourceID e; SourceIP := SourceIP e; UserAgent := UserAgent e;
     Metadata := Metadata e |}.
Definition complete_event (uuid now : string) (e : LifecycleEvent) : LifecycleEvent :=
  {| LID := or_default (LID e) uuid; LTimestamp := or_default (LTimestamp e) now;
     LActorTokenID := LActorTokenID e; LActorTokenName := LActorTokenName e;
     LAction := LAction e; LTargetResourceID := LTargetResourceID e; LSourceIP := LSourceIP e;
     LUserAgent := LUserAgent e; LResult := LResult e; LMetadata := LMetadata e |}.

Class AuditCodec := {
  meta_marshal : list (string * any) -> result string;
  entry_marshal : Entry -> result string;
  event_marshal : LifecycleEvent -> result string;
  entry_unmarshal : string -> option Entry
}.

(** ** logger.go, lifecycle.go: writing *)

Section Loggers.
Context `{AuditCodec}.

(** [os.OpenFile] with [O_CREATE|O_WRONLY|O_APPEND] *)
Definition OpenLog (path : string) : eff World unit :=
  syscall (fun d => match d !! path with Some _ => d | None => <[path := EmptyString]> d end) no_change.

Definition NewLogger (dir path : string) : eff World unit :=
  _ ← wrap "audit: create dir: " (MkdirAll dir); wrap "audit: open file: " (OpenLog path).
Definition NewLifecycleLogger (dir path : string) : eff World unit :=
  _ ← wrap "lifecycle-audit: create dir: " (MkdirAll dir);
  wrap "lifecycle-audit: open file: " (OpenLog path).

(** The size of the metadata. *)
Definition check_metadata (pre : string) (m : option (list (string * any))) : result unit :=
  match m with
  | None => Ok tt
  | Some m =>
      raw ← wrap_err (pre +:+ "marshal metadata: ") (meta_marshal m);
      fail_if (bool_decide (maxMetadataSize < Z.of_nat (slen raw))%Z)
        (pre +:+ "metadata exceeds " +:+ Itoa maxMetadataSize +:+ " bytes")
  end.

(** One [write] of the line with its newline, and a [Sync]. *)
Definition append_line (path line : string) : eff World unit :=
  _ ← AppendTo path (line +:+ nls); Sync path.

Definition Write (path : string) (entry : Entry) (uuid now : string) : eff World unit :=
  _ ← lift (check_metadata "audit: " (Metadata entry));
  line ← lift (wrap_err "audit: marshal entry: " (entry_marshal (complete uuid now entry)));
  append_line path line.

Definition LifecycleWrite (path : string) (entry : LifecycleEvent) (uuid now : string)
  : eff World unit :=
  _ ← lift (check_metadata "lifecycle-audit: " (LMetadata entry));
  line ← lift (wrap_err "lifecycle-audit: marshal entry: " (event_marshal (complete_event uuid now entry)));
  append_line path line.

(** ** reader.go *)

(** [bufio.Scanner] splitting at newlines: a line that does not fit the buffer
    of 64 KiB ends the scan; a carriage return before the newline is dropped. *)
Definition MaxScanTokenSize : Z := 65536.
Fixpoint take_short (ls : list string) : list string :=
  match ls with
  | [] => []
  | l :: ls => if decide (Z.of_nat (slen l) < MaxScanTokenSize)%Z then l :: take_short ls else []
  end.
Definition scan_lines (content : string) : list string :=
  map (fun l => TrimSuffix l (String cr EmptyString)) (take_short (file_lines content)).

(** The entries of a file: lines that are no entry are skipped. *)
Definition log_entries (content : string) : list Entry := omap entry_unmarshal (scan_lines content).

Record QueryParams := {
  Offset : Z; Limit : Z; Actor : string; QAction : string; From : option Z; To : option Z
}.
Record QueryResult := { Entries : list Entry; Total : Z; HasMore : bool }.

Definition clamp_limit (l : Z) : Z :=
  let l := if decide (l <= 0)%Z then 50%Z else l in if decide (200 < l)%Z then 200%Z else l.

(** [time.Parse], in nanoseconds, and [sort.Slice] by falling time stamp. *)
Context (parse_time : string -> option Z) (sort : list Entry -> list Entry).

Definition matches_params (p : QueryParams) (e : Entry) : bool :=
  (bool_decide (Actor p = "") || bool_decide (ActorTokenName e = Actor p)) &&
  (bool_decide (QAction p = "") || bool_decide (Action e = QAction p)) &&
  match From p with
  | None => true
  | Some f => match parse_time (Timestamp e) with Some ts => negb (bool_decide (ts < f)%Z) | None => false end
  end &&
  match To p with
  | None => true
  | Some t => match parse_time (Timestamp e) with Some ts => negb (bool_decide (t < ts)%Z) | None => false end
  end.

(** [entries[start:end]] *)
Definition slice {A} (l : list A) (s e : Z) : result (list A) :=
  if decide (0 <= s /\ s <= e /\ e <= Z.of_nat (length l))%Z
  then Ok (take (Z.to_nat (e - s)) (drop (Z.to_nat s) l))
  else Panic "slice bounds out of range".

Definition page (p : QueryParams) (entries : list Entry) : result QueryResult :=
  let limit := clamp_limit (Limit p) in
  let total := Z.of_nat (length entries) in
  let hasMore := bool_decide (wrap64 (Offset p + limit) < total)%Z in
  let start := if decide (total < Offset p)%Z then total else Offset p in
  let end_ := wrap64 (start + limit) in
  let end_ := if decide (total < end_)%Z then total else end_ in
  es ← slice entries start end_;
  Ok {| Entries := es; Total := total; HasMore := hasMore |}.

Definition Query (path : string) (p : QueryParams) : eff World QueryResult :=
  r ← ReadFile path;
  match r with
  | NotExist => mret {| Entries := []; Total := 0; HasMore := false |}
  | ReadError e => throw e
  | Contents c => lift (page p (sort (List.filter (matches_params p) (log_entries c))))
  end.

(** ** api/v1/handlers.go: GET /audit *)

Inductive audit_response := AuditPage (r : QueryResult) | AuditError (status : Z) (message : string).

Definition query_int (v : string) (default : Z) : Z :=
  if decide (v = "") then default else fst (Atoi v).
Definition query_time (v : string) : option Z := if decide (v = "") then None else parse_time v.

Definition GetAudit (path offset limit actor action from to : string) : eff World audit_response :=
  let p := {| Offset := query_int offset 0; Limit := query_int limit 50; Actor := actor;
              QAction := action; From := query_time from; To := query_time to |} in
  if decide (Offset p < 0)%Z then mret (AuditError 400 "offset must be >= 0")
  else if decide (Limit p <= 0 \/ 200 < Limit p)%Z
  then mret (AuditError 400 "limit must be between 1 and 200")
  else r ← try (Query path p);
       mret (match r with Ok q => AuditPage q | _ => AuditError 500 "Failed to query audit log" end).
End Loggers.

(** ** Lines of a log *)

(** A log whose last line is complete, or that is empty. *)
Definition ends_line (c : string) : Prop := c = EmptyString \/ exists c', c = c' +:+ nls.
Definition short (l : string) : Prop := (Z.of_nat (slen l) < MaxScanTokenSize)%Z.

Lemma file_lines_app c l : ends_line c -> free_of nl l = true -> l <> EmptyString ->
  file_lines (c +:+ l) = file_lines c ++ [l].
Proof.
  intros Hc Hl Hne. unfold file_lines. destruct Hc as [->|[c' ->]].
  - change ("" +:+ l) with l. rewrite Split_free by done. cbn. by destruct l.
  - rewrite sapp_assoc. change (nls +:+ l) with (String nl l).
    change (c' +:+ nls) with (c' +:+ String nl EmptyString).
    rewrite !Split_app, (Split_free l) by done. cbn [Split]. rewrite !rev_app_distr. cbn.
    destruct l; [done|]. cbn. by rewrite rev_involutive.
Qed.

Lemma file_lines_nl l : free_of nl l = true -> file_lines (l +:+ nls) = [l].
Proof.
  intros Hl. unfold file_lines. change (l +:+ nls) with (l +:+ String nl EmptyString).
  by rewrite Split_app, (Split_free l) by done.
Qed.

Lemma file_lines_concat c d : ends_line c -> file_lines (c +:+ d) = file_lines c ++ file_lines d.
Proof.
  intros [->|[c' ->]]; [done|]. unfold file_lines. rewrite sapp_assoc.
  change (nls +:+ d) with (String nl d). change (c' +:+ nls) with (c' +:+ String nl EmptyString).
  rewrite !Split_app. cbn [Split]. rewrite !rev_app_distr. cbn [rev app].
  rewrite rev_involutive.
  destruct (rev (Split d nl)) as [|[|a x] r] eqn:Hr; cbn.
  - apply (f_equal (@length _)) in Hr. rewrite length_rev in Hr.
    pose proof (Split_nonempty d nl). by destruct (Split d nl).
  - by rewrite rev_app_distr, rev_involutive.
  - rewrite <- (rev_involutive (Split d nl)), Hr. done.
Qed.

Lemma take_short_all ls : Forall short ls -> take_short ls = ls.
Proof. induction 1 as [|l ls Hl Hls IH]; [done|]. cbn. rewrite decide_True by done. by rewrite IH. Qed.

Lemma take_short_app ls ks : Forall short ls -> take_short (ls ++ ks) = ls ++ take_short ks.
Proof. induction 1 as [|l ls Hl Hls IH]; [done|]. cbn. rewrite decide_True by done. by rewrite IH. Qed.

Lemma take_short_long l ks : ~ short l -> take_short (l :: ks) = [].
Proof. intros Hl. cbn. by rewrite decide_False. Qed.

(** A log every line of which is complete and fits the scanner. *)
Definition clean (c : string) : Prop := ends_line c /\ Forall short (file_lines c).

Lemma scan_lines_app c d : clean c -> scan_lines (c +:+ d) = scan_lines c ++ scan_lines d.
Proof.
  intros [He Hs]. unfold scan_lines. rewrite file_lines_concat by done.
  rewrite take_short_app, (take_short_all (file_lines c)) by done. apply map_app.
Qed.

Section Properties.
Context `{AuditCodec} (parse_time : string -> option Z) (sort : list Entry -> list Entry).

(** *** Writing only appends *)

(** What a write leaves of a log that was there: all of it, and behind it the
    whole line or a part of it. *)
Lemma append_line_outcome path line w r w' c : files w !! path = Some c ->
  append_line path line w = (r, w') ->
  exists t, files w' !! path = Some (c +:+ t) /\
            (r = Ok tt -> t = line +:+ nls) /\ exists n, t = stake n (line +:+ nls).
Proof.
  intros Hc. unfold append_line, AppendTo, Sync, syscall, mbind, eff_bind.
  assert (forall x, append_data path x (files w) !! path = Some (c +:+ x)) as Ha.
  { intros x. unfold append_data. by rewrite lookup_insert_eq, Hc. }
  assert (exists n, line +:+ nls = stake n (line +:+ nls)) as Hall.
  { exists (slen (line +:+ nls)). rewrite <- (sapp_nil_r (line +:+ nls)) at 3. by rewrite stake_app. }
  destruct (next_outcome w) as [e|].
  - intros [= <- <-]. exists (stake (f_written e) (line +:+ nls)). cbn. rewrite Ha.
    split_and!; [done|done|by eexists].
  - set (w1 := after _ w). intros Hs. exists (line +:+ nls).
    assert (files w' = files w1) as ->.
    { destruct (next_outcome w1); by injection Hs as _ <-. }
    cbn. rewrite Ha. by split_and!.
Qed.

(** A sequence of writes, whatever becomes of each. *)
Definition write_all (path : string) (es : list (Entry * string * string)) (w : World) : World :=
  foldl (fun w e => snd (Write path (fst (fst e)) (snd (fst e)) (snd e) w)) w es.

Lemma write_outcome path e u t w r w' c : files w !! path = Some c ->
  Write path e u t w = (r, w') ->
  exists d, files w' !! path = Some (c +:+ d) /\
    (r = Ok tt -> exists line, entry_marshal (complete u t e) = Ok line /\ d = line +:+ nls) /\
    (d = EmptyString \/ exists line n, entry_marshal (complete u t e) = Ok line /\ d = stake n (line +:+ nls)).
Proof.
  intros Hc Hw. unfold Write, mbind, eff_bind, lift in Hw.
  assert (forall x, (x, w) = (r, w') -> x <> Ok tt -> exists d, files w' !! path = Some (c +:+ d) /\
    (r = Ok tt -> exists line, entry_marshal (complete u t e) = Ok line /\ d = line +:+ nls) /\
    (d = EmptyString \/ exists line n, entry_marshal (complete u t e) = Ok line /\ d = stake n (line +:+ nls)))
    as Hskip.
  { intros x [= <- <-] Hx. exists EmptyString. rewrite sapp_nil_r. split_and!; [done|done|by left]. }
  destruct (check_metadata _ _) as [[]|x|x]; [|by eapply Hskip..].
  destruct (entry_marshal (complete u t e)) as [line|x|x] eqn:Hm; cbn in Hw; [|by eapply Hskip..].
  destruct (append_line_outcome _ _ _ _ _ _ Hc Hw) as (d & H1 & H2 & n & H3). exists d.
  split_and!; [done| |].
  - intros Hr. exists line. split; [done|]. by apply H2.
  - right. by exists line, n.
Qed.

(** The log only grows: after any sequence of writes, whichever system
    call of any of them fails, what was in it is still there, at its place. *)
Theorem audit_append_only path es w c : files w !! path = Some c ->
  exists d, files (write_all path es w) !! path = Some (c +:+ d).
Proof.
  unfold write_all. revert w c. induction es as [|[[e u] t] es IH]; intros w c Hc; cbn.
  - exists EmptyString. by rewrite sapp_nil_r.
  - destruct (Write path e u t w) as [r w'] eqn:Hw.
    destruct (write_outcome _ _ _ _ _ _ _ _ Hc Hw) as (d1 & H1 & _).
    destruct (IH w' _ H1) as [d2 H2]. exists (d1 +:+ d2). by rewrite <- sapp_assoc.
Qed.

(** *** Finding what was written *)

(** What the codec promises: JSON has no raw newline or carriage return, and
    what is written is read back. *)
Record codec_ok : Prop := {
  line_flat e line : entry_marshal e = Ok line ->
    free_of nl line = true /\ free_of cr line = true /\ line <> EmptyString;
  line_back e line : entry_marshal e = Ok line -> entry_unmarshal line = Some e
}.

Lemma trim_cr l : free_of cr l = true -> TrimSuffix l (String cr EmptyString) = l.
Proof.
  intros Hl. unfold TrimSuffix. destruct (HasSuffix l (String cr EmptyString)) eqn:Hs; [|done].
  apply HasSuffix_spec in Hs as [r ->]. rewrite free_of_app in Hl. by rewrite andb_false_r in Hl.
Qed.

Lemma scan_one l : free_of nl l = true -> free_of cr l = true -> short l -> scan_lines (l +:+ nls) = [l].
Proof.
  intros H1 H2 H3. unfold scan_lines. rewrite file_lines_nl by done.
  rewrite take_short_all by (by constructor). cbn. by rewrite trim_cr.
Qed.

(** An entry whose write is reported is the next one the reader finds,
    where the log was clean and its line fits the scanner. *)
Theorem written_then_found path e u t line w w' c : codec_ok -> files w !! path = Some c -> clean c ->
  Write path e u t w = (Ok tt, w') -> entry_marshal (complete u t e) = Ok line -> short line ->
  exists c', files w' !! path = Some c' /\ clean c' /\
             log_entries c' = log_entries c ++ [complete u t e].
Proof.
  intros Hok Hc Hcl Hw Hm Hs. destruct (write_outcome _ _ _ _ _ _ _ _ Hc Hw) as (d & Hf & Hd & _).
  destruct (Hd eq_refl) as (line' & Hm' & ->). rewrite Hm in Hm'. injection Hm' as <-.
  destruct (line_flat Hok _ _ Hm) as (F1 & F2 & F3).
  exists (c +:+ line +:+ nls). split; [done|]. split; [split|].
  - right. exists (c +:+ line). by rewrite sapp_assoc.
  - destruct Hcl as [He Hall]. rewrite file_lines_concat, file_lines_nl by done.
    apply Forall_app. split; [done|by constructor].
  - unfold log_entries. rewrite scan_lines_app by done. rewrite omap_app, scan_one by done.
    cbn. by rewrite (line_back Hok _ _ Hm).
Qed.

Lemma free_stake f n s : str_all f s = true -> str_all f (stake n s) = true.
Proof.
  intros Hs. rewrite <- (stake_sdrop n s), str_all_app in Hs. by apply andb_true_iff in Hs as [? _].
Qed.

(** C39: After a write that failed with a piece of its line in the file, the
    next entry, though its write is reported, is not found: the piece and the
    line make one line, which is no entry. *)
Theorem torn_write_hides_next path e1 u1 t1 e2 u2 t2 w w1 w2 c p l2 x : codec_ok ->
  files w !! path = Some c -> clean c ->
  Write path e1 u1 t1 w = (Err x, w1) -> files w1 !! path = Some (c +:+ p) ->
  p <> EmptyString -> free_of nl p = true ->
  Write path e2 u2 t2 w1 = (Ok tt, w2) -> entry_marshal (complete u2 t2 e2) = Ok l2 ->
  entry_unmarshal (p +:+ l2) = None ->
  exists c', files w2 !! path = Some c' /\ log_entries c' = log_entries c.
Proof.
  intros Hok Hc Hcl Hw1 Hp Hne Hnl Hw2 Hm2 Hbad.
  assert (free_of cr p = true) as Hcr.
  { destruct (write_outcome _ _ _ _ _ _ _ _ Hc Hw1) as (d & Hd & _ & Hpart). rewrite Hd in Hp.
    injection Hp as ->%sapp_inj_l. destruct Hpart as [->|(l1 & n & Hm & ->)]; [done|].
    apply free_stake. change (free_of cr (l1 +:+ nls) = true). rewrite free_of_app.
    by destruct (line_flat Hok _ _ Hm) as (_ & -> & _). }
  destruct (write_outcome _ _ _ _ _ _ _ _ Hp Hw2) as (d & Hf & Hd & _).
  destruct (Hd eq_refl) as (l & Hm & ->). rewrite Hm2 in Hm. injection Hm as <-.
  destruct (line_flat Hok _ _ Hm2) as (F1 & F2 & F3).
  exists ((c +:+ p) +:+ l2 +:+ nls). split; [done|].
  rewrite sapp_assoc, <- (sapp_assoc p). unfold log_entries. rewrite scan_lines_app by done.
  rewrite omap_app. unfold scan_lines at 2. rewrite file_lines_nl by (by rewrite free_of_app, Hnl).
  cbn [take_short]. case_decide; cbn [map omap list_omap]; [|apply app_nil_r].
  rewrite trim_cr by (by rewrite free_of_app, Hcr). cbn. by rewrite Hbad, app_nil_r.
Qed.

(** An entry whose line does not fit the scanner is written and reported,
    and hides itself and every entry after it from the reader for good. *)
Theorem oversized_entry_hides_rest path e u t line es w w1 c : codec_ok ->
  files w !! path = Some c -> clean c ->
  Write path e u t w = (Ok tt, w1) -> entry_marshal (complete u t e) = Ok line -> ~ short line ->
  exists c', files (write_all path es w1) !! path = Some c' /\ log_entries c' = log_entries c.
Proof.
  intros Hok Hc Hcl Hw Hm Hlong. destruct (write_outcome _ _ _ _ _ _ _ _ Hc Hw) as (d & Hf & Hd & _).
  destruct (Hd eq_refl) as (l & Hm' & ->). rewrite Hm in Hm'. injection Hm' as <-.
  destruct (line_flat Hok _ _ Hm) as (F1 & F2 & F3).
  destruct (audit_append_only path es w1 _ Hf) as [rest Hr]. eexists. split; [exact Hr|].
  rewrite sapp_assoc. unfold log_entries. rewrite scan_lines_app by done.
  rewrite omap_app. unfold scan_lines at 2.
  rewrite file_lines_concat by (right; by eexists). rewrite file_lines_nl by done.
  cbn [app]. rewrite take_short_long by done. cbn. apply app_nil_r.
Qed.

(** *** Pages *)

Lemma clamp_range l : (1 <= clamp_limit l <= 200)%Z.
Proof. unfold clamp_limit. repeat case_decide; lia. Qed.

Lemma page_spec p es : (0 <= Offset p)%Z -> (Offset p + 200 <= int64_max)%Z ->
  (Z.of_nat (length es) + 200 <= int64_max)%Z ->
  page p es = Ok {| Entries := take (Z.to_nat (clamp_limit (Limit p))) (drop (Z.to_nat (Offset p)) es);
                    Total := Z.of_nat (length es);
                    HasMore := bool_decide (Offset p + clamp_limit (Limit p) < Z.of_nat (length es))%Z |}.
Proof.
  intros H1 H2 H3. pose proof (clamp_range (Limit p)) as Hl. unfold page.
  set (lim := clamp_limit (Limit p)) in *. unfold int64_max, int64_min in *.
  rewrite (wrap64_id (Offset p + lim)) by (unfold int64_min, int64_max; lia).
  set (start := if decide (Z.of_nat (length es) < Offset p)%Z then _ else _).
  assert (0 <= start <= Z.of_nat (length es) /\ start <= Offset p /\
          (start = Offset p \/ start = Z.of_nat (length es) /\ Z.of_nat (length es) < Offset p))%Z as Hs
    by (unfold start; case_decide; lia).
  rewrite (wrap64_id (start + lim)) by (unfold int64_min, int64_max; lia).
  set (e := if decide (Z.of_nat (length es) < start + lim)%Z then _ else _).
  assert (e = Z.min (start + lim) (Z.of_nat (length es)))%Z as He by (unfold e; case_decide; lia).
  unfold slice. rewrite decide_True by lia. cbn. f_equal. f_equal.
  destruct Hs as (Hs1 & Hs2 & [->|[-> Hgt]]).
  - destruct (decide (Offset p + lim <= Z.of_nat (length es))%Z).
    + f_equal. lia.
    + rewrite (take_ge (drop _ _) (Z.to_nat lim)) by (rewrite length_drop; lia).
      apply take_ge. rewrite length_drop. lia.
  - rewrite (drop_ge es (Z.to_nat (Offset p))) by lia. rewrite drop_ge by lia. by rewrite !take_nil.
Qed.

(** A query answers the page its parameters ask for of the matching
    entries in their order: at most 200, the number of all that match, and
    whether more follow. *)
Theorem query_is_a_page path p w c : (forall l, Permutation (sort l) l) ->
  outcomes w = [] -> files w !! path = Some c ->
  (0 <= Offset p)%Z -> (Offset p + 200 <= int64_max)%Z ->
  let found := List.filter (matches_params parse_time p) (log_entries c) in
  (Z.of_nat (length found) + 200 <= int64_max)%Z ->
  exists r, fst (Query parse_time sort path p w) = Ok r /\
    Entries r = take (Z.to_nat (clamp_limit (Limit p))) (drop (Z.to_nat (Offset p)) (sort found)) /\
    length (Entries r) <= 200 /\ Total r = Z.of_nat (length found) /\
    HasMore r = bool_decide (Offset p + clamp_limit (Limit p) < Z.of_nat (length found))%Z.
Proof.
  intros Hperm Ho Hf H1 H2 found H3. pose proof (Permutation_length (Hperm found)) as Hlen.
  rewrite <- Hlen in H3. pose proof (page_spec p (sort found) H1 H2 H3) as Hpage.
  eexists. split.
  - unfold Query, mbind, eff_bind, ReadFile, next_outcome. rewrite Ho. cbn. rewrite Hf.
    unfold lift. cbn. fold found. rewrite Hpage. reflexivity.
  - cbn. rewrite Hlen. split_and!; [done| |done..].
    rewrite length_take. pose proof (clamp_range (Limit p)). lia.
Qed.

(** The handler answers 400 before a query could panic. *)
Lemma handler_offset_checked path off lim actor action from to w :
  (query_int off 0 < 0)%Z ->
  GetAudit parse_time sort path off lim actor action from to w
  = (Ok (AuditError 400 "offset must be >= 0"), w).
Proof. intros Ho. unfold GetAudit. cbn. by rewrite decide_True. Qed.

(** An offset out of range is taken as the largest number, and the sum with
    the limit wraps: an empty page claims that more follows. *)
Lemma huge_offset_claims_more es : es <> [] ->
  (Z.of_nat (length es) + 200 <= int64_max)%Z ->
  page {| Offset := fst (Atoi "99999999999999999999"); Limit := 50; Actor := ""; QAction := "";
          From := None; To := None |} es
  = Ok {| Entries := []; Total := Z.of_nat (length es); HasMore := true |}.
Proof.
  intros Hne Hl. assert (0 < Z.of_nat (length es))%Z as Hpos by (destruct es; [done|cbn; lia]).
  change (fst (Atoi "99999999999999999999")) with int64_max. unfold page.
  change (clamp_limit (Limit _)) with 50%Z. cbn [Offset].
  change (wrap64 (int64_max + 50)) with (int64_min + 49)%Z.
  rewrite decide_True by (unfold int64_max in *; lia).
  rewrite wrap64_id by (unfold int64_max, int64_min in *; lia). rewrite decide_True by lia.
  unfold slice. rewrite decide_True by lia. rewrite Z.sub_diag. cbn.
  rewrite bool_decide_eq_true_2 by (unfold int64_min; lia). done.
Qed.

(** Times are written without trailing zeros, so that their order as strings
    is not their order in time: a fraction sorts before the whole second. *)
Lemma timestamps_missort :
  string_ltb "2026-01-01T00:00:00.5Z" "2026-01-01T00:00:00Z" = true /\
  string_ltb "2026-01-01T00:00:00.15Z" "2026-01-01T00:00:00.1Z" = true.
Proof. split; reflexivity. Qed.
End Properties.

(** ** A codec, and witnesses *)

Definition entry_tuple (e : Entry) :=
  (EID e, Timestamp e, ActorTokenID e, ActorTokenName e, Action e, TargetResourceID e, SourceIP e,
   UserAgent e).
Definition tuple_entry (t : string * string * string * string * string * string * string * string)
  : Entry :=
  let '(i, ts, ai, an, ac, r, ip, ua) := t in
  {| EID := i; Timestamp := ts; ActorTokenID := ai; ActorTokenName := an; Action := ac;
     TargetResourceID := r; SourceIP := ip; UserAgent := ua; Metadata := None |}.

(** Entries without metadata, in digits behind a brace. *)
#[export] Instance memory_codec : AuditCodec := {|
  meta_marshal m := Err "unsupported type";
  entry_marshal e := match Metadata e with
                     | None => Ok (String "{" (count_enc (entry_tuple e)))
                     | Some _ => Err "unsupported type"
                     end;
  event_marshal e := Err "unsupported type";
  entry_unmarshal s := match s with
                       | String "{" s => tuple_entry <$> count_dec s
                       | _ => None
                       end
|}.

Lemma bits_free c p : c <> "0"%char -> c <> "1"%char -> free_of c (bits_of p) = true.
Proof.
  intros H0 H1. unfold free_of. induction p as [p IH|p IH|]; [| |done]; cbn [bits_of str_all];
    (rewrite bool_decide_eq_false_2 by congruence); done.
Qed.

Lemma memory_codec_ok : codec_ok.
Proof.
  split; intros e line; unfold entry_marshal, memory_codec; destruct (Metadata e) eqn:Hm; try done;
    intros [= <-].
  - unfold free_of, count_enc. cbn [str_all]. rewrite !bool_decide_eq_false_2 by done.
    split_and!; [by apply bits_free|by apply bits_free|done].
  - cbn. rewrite count_dec_enc. cbn. destruct e. cbn in *. by subst.
Qed.

Definition w_entry (id agent : string) : Entry :=
  {| EID := id; Timestamp := "t"; ActorTokenID := ""; ActorTokenName := "ci"; Action := "create_peer";
     TargetResourceID := ""; SourceIP := ""; UserAgent := agent; Metadata := None |}.
Definition w_line (id agent : string) : string :=
  String "{" (count_enc (entry_tuple (w_entry id agent))).
Definition w_log : string := w_line "1" "" +:+ nls.
Definition w_disk (content : string) (os : list (option fault)) : World :=
  {| files := {["audit.jsonl" := content]}; outcomes := os; draws := []; disks := [] |}.

Lemma w_clean : clean w_log.
Proof.
  split; [right; by eexists|]. apply (bool_decide_eq_true_1 (Forall (fun l => _ < _)%Z _)).
  vm_compute. reflexivity.
Qed.

Lemma audit_append_only_witness :
  exists d, files (write_all "audit.jsonl" [(w_entry "2" "", "u", "t"); (w_entry "3" "", "u", "t")]
    (w_disk w_log [Some {| f_err := "disk full"; f_written := 7 |}])) !! "audit.jsonl" = Some (w_log +:+ d).
Proof. apply audit_append_only. reflexivity. Defined.

Lemma written_then_found_witness :
  exists c', files (snd (Write "audit.jsonl" (w_entry "2" "") "u" "t" (w_disk w_log []))) !! "audit.jsonl"
               = Some c' /\ clean c' /\ log_entries c' = log_entries w_log ++ [w_entry "2" ""].
Proof.
  apply (written_then_found "audit.jsonl" (w_entry "2" "") "u" "t" (w_line "2" "") (w_disk w_log [])
           _ w_log memory_codec_ok).
  - reflexivity.
  - exact w_clean.
  - vm_compute. reflexivity.
  - reflexivity.
  - vm_compute. reflexivity.
Defined.

Definition w_torn : World :=
  snd (Write "audit.jsonl" (w_entry "2" "") "u" "t"
         (w_disk w_log [Some {| f_err := "disk full"; f_written := 7 |}])).

(** Seven bytes of the second entry are enough to lose the third. *)
Lemma torn_write_hides_next_witness :
  exists c', files (snd (Write "audit.jsonl" (w_entry "3" "") "u" "t" w_torn)) !! "audit.jsonl" = Some c' /\
             log_entries c' = log_entries w_log.
Proof.
  apply (torn_write_hides_next "audit.jsonl" (w_entry "2" "") "u" "t" (w_entry "3" "") "u" "t"
           (w_disk w_log [Some {| f_err := "disk full"; f_written := 7 |}]) w_torn _ w_log
           (stake 7 (w_line "2" "")) (w_line "3" "") "disk full" memory_codec_ok).
  - reflexivity.
  - exact w_clean.
  - vm_compute. reflexivity.
  - vm_compute. reflexivity.
  - vm_compute. discriminate.
  - vm_compute. reflexivity.
  - vm_compute. reflexivity.
  - reflexivity.
  - vm_compute. reflexivity.
Defined.

(** A header of nine thousand bytes. *)
Fixpoint xs (n : nat) : string := match n with O => EmptyString | S n => String "x" (xs n) end.
Definition w_agent : string := xs (90 * 100).

Lemma oversized_entry_hides_rest_witness :
  exists c', files (write_all "audit.jsonl" [(w_entry "3" "", "u", "t")]
    (snd (Write "audit.jsonl" (w_entry "2" w_agent) "u" "t" (w_disk w_log [])))) !! "audit.jsonl" = Some c' /\
    log_entries c' = log_entries w_log.
Proof.
  apply (oversized_entry_hides_rest "audit.jsonl" (w_entry "2" w_agent) "u" "t" (w_line "2" w_agent)
           [(w_entry "3" "", "u", "t")] (w_disk w_log []) _ w_log memory_codec_ok).
  - reflexivity.
  - exact w_clean.
  - unfold Write, append_line, lift, AppendTo, Sync, syscall, mbind, eff_bind. cbn. reflexivity.
  - reflexivity.
  - unfold short. apply (bool_decide_eq_true_1 (~ _)). vm_compute. reflexivity.
Defined.

Lemma query_is_a_page_witness :
  let p := {| Offset := 0; Limit := 1; Actor := "ci"; QAction := ""; From := None; To := None |} in
  let found := List.filter (matches_params (fun _ => None) p) (log_entries (w_log +:+ w_log)) in
  length found = 2 /\
  exists r, fst (Query (fun _ => None) id "audit.jsonl" p (w_disk (w_log +:+ w_log) [])) = Ok r /\
    Entries r = take 1 (drop 0 found) /\ length (Entries r) <= 200 /\
    Total r = Z.of_nat (length found) /\ HasMore r = bool_decide (0 + 1 < Z.of_nat (length found))%Z.
Proof.
  split; [vm_compute; reflexivity|].
  apply (query_is_a_page (fun _ => None) id "audit.jsonl"
    {| Offset := 0; Limit := 1; Actor := "ci"; QAction := ""; From := None; To := None |}
    (w_disk (w_log +:+ w_log) []) (w_log +:+ w_log)); try (vm_compute; reflexivity || discriminate).
Defined.
