(* ===== verification/RemoteAPI.v ===== *)
(** * api/v1, api/remote: the remote control plane

    The handlers of api/v1 over the interfaces [PeerMutator], [RouteMutator]
    and [TunnelStatusProvider], the routing table of api/remote/routes.go, and
    the chain of authentication, scope, rate limit and audit around each
    handler.  The state is the token cache with its store, the rate limiter,
    the disk of the audit log, the entries handed to the audit goroutine, and
    the back end.  Bodies and query values are decoded by parameters, random
    draws are arguments, and a request's path is clean (the mux would redirect
    any other).  [Validate] of the token cache holds no lock while it reads
    the store, so it is also split in two steps here. *)

From S2P Require Import Prelude GoLib Base64 Regexp FS AuditLog WizardChecks Ports Auth Middleware.

(** ** errors.go *)

Definition ErrCodeNotFound : string := "not_found".
Definition ErrCodePeerNameConflict : string := "peer_name_conflict".
Definition ErrCodeRouteConflict : string := "route_conflict".
Definition ErrCodeTunnelNotConnected : string := "tunnel_not_connected".
Definition ErrCodeIPPoolExhausted : string := "ip_pool_exhausted".
Definition ErrCodeVPSUnreachable : string := "vps_unreachable".
Definition ErrCodeInternalError : string := "internal_error".
Definition ErrCodeBadRequest : string := "bad_request".

(** The body is [APIError], whose context is left out when empty. *)
Definition ErrorResponse (status : Z) (errCode message : string) (context : list (string * json))
  : response := writeErrorWithCtx status errCode message context.
Definition ok_json (status : Z) (b : json) : response := {| code := status; body := b |}.

(** ** handlers.go: views and interfaces *)

Record PeerView := {
  PVID : string; PVName : string; PublicKey : string; AllowedIP : string; CreatedVia : string;
  PVCreatedAt : string; Connected : bool; LastHandshake : string; TransferRx : Z; TransferTx : Z
}.
Record PeerDetailView := { pd_view : PeerView; ClientConfig : string }.
Record RouteView := {
  RVID : string; RVSubdomain : string; RVLocalPort : Z; RVStatus : string; FQDN : string;
  RVCreatedAt : string
}.
Record TunnelConfigView := {
  TLocalIP : string; TServerIP : string; TServerEndpoint : string; TStatus : string;
  TConnectedAt : string
}.

Definition peer_fields (p : PeerView) : list (string * json) :=
  [("id", JStr (PVID p)); ("name", JStr (PVName p)); ("publicKey", JStr (PublicKey p));
   ("allowedIp", JStr (AllowedIP p)); ("createdVia", JStr (CreatedVia p));
   ("createdAt", JStr (PVCreatedAt p)); ("connected", JBool (Connected p))] ++
  optional "lastHandshake" (LastHandshake p) ++
  [("transferRx", JNum (TransferRx p)); ("transferTx", JNum (TransferTx p))].
Definition PeerView_json (p : PeerView) : json := JObj (peer_fields p).
Definition PeerDetailView_json (p : PeerDetailView) : json :=
  JObj (peer_fields (pd_view p) ++ optional "clientConfig" (ClientConfig p)).
Definition RouteView_json (r : RouteView) : json :=
  JObj ([("id", JStr (RVID r)); ("subdomain", JStr (RVSubdomain r));
         ("localPort", JNum (RVLocalPort r)); ("status", JStr (RVStatus r))] ++
        optional "fqdn" (FQDN r) ++ [("createdAt", JStr (RVCreatedAt r))]).

(** Listing and looking up only read. *)
Class PeerMutator (B : Type) := {
  peers_List : B -> result (list PeerView);
  peers_GetByID : string -> B -> result PeerDetailView;
  peers_Create : string -> eff B PeerDetailView;
  peers_Delete : string -> eff B unit
}.
Class RouteMutator (B : Type) := {
  routes_List : B -> result (list RouteView);
  routes_Create : string -> Z -> eff B RouteView;
  routes_Delete : string -> eff B unit
}.
Class TunnelStatusProvider (B : Type) := {
  tunnel_Status : B -> string;
  tunnel_IsConnected : B -> bool;
  tunnel_GetConfig : B -> TunnelConfigView
}.

(** [json.NewDecoder(r.Body).Decode] of the three bodies; [None] is an error. *)
Class BodyCodec := {
  decode_peer : string -> option string;
  decode_route : string -> option (string * Z);
  decode_token : string -> option (string * string * option time)
}.

(** The request, its body and query values, and what is drawn for it. *)
Record APIRequest := {
  http : Request; Body : string; query : string -> string;
  random : string; uuid : string; jti : string
}.

Definition peerNameRe : re := RCat (RCls peer_char) (RUpto 63 (RCls peer_char)).

(** The messages are searched for words, in this order. *)
Definition any_of (msg : string) (words : list string) : bool := existsb (Contains (ToLower msg)) words.

Definition handlePeerError (msg : string) : response :=
  if any_of msg ["conflict"; "duplicate"] then ErrorResponse 409 ErrCodePeerNameConflict msg []
  else if any_of msg ["exhausted"; "ip"] then ErrorResponse 507 ErrCodeIPPoolExhausted msg []
  else if any_of msg ["unreachable"; "vps"] then ErrorResponse 503 ErrCodeVPSUnreachable msg []
  else ErrorResponse 500 ErrCodeInternalError msg [].
Definition handleRouteError (msg : string) : response :=
  if any_of msg ["conflict"; "duplicate"] then ErrorResponse 409 ErrCodeRouteConflict msg []
  else if any_of msg ["tunnel"; "connected"] then ErrorResponse 412 ErrCodeTunnelNotConnected msg []
  else ErrorResponse 500 ErrCodeInternalError msg [].

Definition option_list {A} (o : option A) : list A := match o with Some a => [a] | None => [] end.

(** ** The state *)

Record API {B : Type} := {
  cache : TokenCache; visitors : RateLimiter; audit_disk : World; queued : list AuditEntry; back : B
}.
Arguments API : clear implicits.

Section State.
Context {B : Type}.
Definition with_cache (c : TokenCache) (s : API B) : API B :=
  {| cache := c; visitors := visitors s; audit_disk := audit_disk s; queued := queued s; back := back s |}.
Definition with_visitors (v : RateLimiter) (s : API B) : API B :=
  {| cache := cache s; visitors := v; audit_disk := audit_disk s; queued := queued s; back := back s |}.
Definition with_audit_disk (w : World) (s : API B) : API B :=
  {| cache := cache s; visitors := visitors s; audit_disk := w; queued := queued s; back := back s |}.
Definition with_queued (q : list AuditEntry) (s : API B) : API B :=
  {| cache := cache s; visitors := visitors s; audit_disk := audit_disk s; queued := q; back := back s |}.
Definition with_back (b : B) (s : API B) : API B :=
  {| cache := cache s; visitors := visitors s; audit_disk := audit_disk s; queued := queued s; back := b |}.

Definition on_cache {A} (m : eff TokenCache A) : eff (API B) A := on_part cache with_cache m.
Definition on_store {A} (m : eff World A) : eff (API B) A := on_cache (on_part store with_store m).
Definition on_back {A} (m : eff B A) : eff (API B) A := on_part back with_back m.

(** A call whose error becomes an answer. *)
Definition answer {A} (m : eff (API B) A) (failed : string -> response) (ok : A -> eff (API B) response)
  : eff (API B) response :=
  r ← try m;
  match r with Ok a => ok a | Err e | Panic e => mret (failed e) end.
End State.

Section Handlers.
Context {B : Type} `{PeerMutator B} `{RouteMutator B} `{TunnelStatusProvider B}.
Context `{TokensCodec} `{Bcrypt} `{ClaimsCodec} `{BodyCodec} `{AuditCodec}.
(** The token store's file, the digests, the issuer, the audit log and the
    formats of times and pages. *)
Context (dir file : string) (sha256 : string -> string) (hmac : string -> string -> string).
Context (issuer : JWTIssuer) (auditPath : string) (parse_time : string -> option Z).
Context (sort : list Entry -> list Entry) (page_json : QueryResult -> json) (time_json : time -> json).

(** ** handlers.go *)

Definition GetPeers : eff (API B) response := fun s =>
  (match peers_List (back s) with
   | Ok list => Ok (ok_json 200 (JArr (map PeerView_json list)))
   | _ => Ok (ErrorResponse 500 ErrCodeInternalError "Failed to list peers" [])
   end, s).

Definition GetPeerByID (id : string) : eff (API B) response := fun s =>
  if decide (id = "") then (Ok (ErrorResponse 400 ErrCodeBadRequest "peer id is required" []), s) else
  (match peers_GetByID id (back s) with
   | Ok peer => Ok (ok_json 200 (PeerDetailView_json peer))
   | _ => Ok (ErrorResponse 404 ErrCodeNotFound "Peer not found" [("peerId", JStr id)])
   end, s).

Definition GetRoutes : eff (API B) response := fun s =>
  (match routes_List (back s) with
   | Ok list => Ok (ok_json 200 (JArr (map RouteView_json list)))
   | _ => Ok (ErrorResponse 500 ErrCodeInternalError "Failed to list routes" [])
   end, s).

Definition GetTunnelStatus : eff (API B) response := fun s =>
  let cfg := tunnel_GetConfig (back s) in
  let st := tunnel_Status (back s) in
  let st := if decide (st = "") then "disconnected" else st in
  (Ok (ok_json 200 (JObj
    ([("status", JStr st); ("localIp", JStr (TLocalIP cfg)); ("serverIp", JStr (TServerIP cfg));
      ("serverEndpoint", JStr (TServerEndpoint cfg)); ("connectedAt", JStr (TConnectedAt cfg))] ++
     (if negb (tunnel_IsConnected (back s)) && negb (bool_decide (TLocalIP cfg = ""))
      then [("stale", JBool true)] else [])))), s).

(** A store that cannot be read counts as no token. *)
Definition GetStatus : eff (API B) response :=
  tokens ← try (on_store (List_ dir file));
  let n := match tokens with Ok l => Z.of_nat (length l) | _ => 0%Z end in
  s ← get;
  mret (ok_json 200 (JObj
    [("apiVersion", JStr "2026-05-27");
     ("tunnel", JObj [("status", JStr (tunnel_Status (back s)))]); ("tokens", JObj [("count", JNum n)]);
     ("tls", JObj [("certExpiryWarning", JBool false)]);
     ("localIp", JStr (TLocalIP (tunnel_GetConfig (back s))));
     ("serverIp", JStr (TServerIP (tunnel_GetConfig (back s))))])).

Definition optional_time (key : string) (t : option time) : list (string * json) :=
  match t with Some t => [(key, time_json t)] | None => [] end.
Definition token_json (t : APIToken) : json :=
  JObj ([("id", JStr (Auth.ID t)); ("name", JStr (Name t)); ("tokenPrefix", JStr (TokenPrefix t));
         ("scope", JStr (TScope t)); ("createdBy", JStr (CreatedBy t));
         ("createdAt", time_json (Auth.CreatedAt t))] ++
        optional_time "expiresAt" (ExpiresAt t) ++ optional_time "lastUsedAt" (LastUsedAt t) ++
        [("requestCount", JNum (RequestCount t)); ("enabled", JBool (Enabled t))]).

Definition GetTokens : eff (API B) response :=
  answer (on_store (List_ dir file))
    (fun _ => ErrorResponse 500 ErrCodeInternalError "Failed to list tokens" [])
    (fun tokens => mret (ok_json 200 (JArr (map token_json tokens)))).

Definition GetAudit (q : string -> string) : eff (API B) response :=
  r ← on_part audit_disk with_audit_disk
        (AuditLog.GetAudit parse_time sort auditPath (q "offset") (q "limit") (q "actor") (q "action")
           (q "from") (q "to"));
  mret (match r with
        | AuditPage p => ok_json 200 (page_json p)
        | AuditError c m => ErrorResponse c (if decide (c = 400%Z) then ErrCodeBadRequest
                                             else ErrCodeInternalError) m []
        end).

Definition updateTokenUsage (tokenID : string) (now : time) : eff (API B) unit :=
  r ← try (on_store (GetByID dir file tokenID));
  match r with
  | Ok t =>
      _ ← try (on_store (Update dir file
            {| Auth.ID := Auth.ID t; Name := Name t; TokenHash := TokenHash t; TokenPrefix := TokenPrefix t;
               TScope := TScope t; CreatedBy := CreatedBy t; Auth.CreatedAt := Auth.CreatedAt t;
               ExpiresAt := ExpiresAt t; LastUsedAt := Some now;
               RequestCount := wrap64 (RequestCount t + 1); Enabled := Enabled t |}));
      mret tt
  | _ => mret tt
  end.

Definition Placeholder : response := ErrorResponse 501 "not_implemented" "Endpoint not yet implemented" [].
Definition NotFound : response := ErrorResponse 404 "not_found" "Endpoint not found" [].

(** ** mutations.go *)

Definition removed (what id : string) : response :=
  ok_json 200 (JObj [("id", JStr id); ("status", JStr what)]).
Definition bad_request (m : string) : response := ErrorResponse 400 ErrCodeBadRequest m [].

Definition CreatePeer (body : string) : eff (API B) response :=
  match decode_peer body with
  | None => mret (bad_request "Invalid request body")
  | Some name =>
      if negb (MatchFull peerNameRe name) then mret (bad_request "Name must be 1-64 chars, [a-zA-Z0-9_-]")
      else answer (on_back (peers_Create name)) handlePeerError
             (fun peer => mret (ok_json 201 (PeerDetailView_json peer)))
  end.

Definition DeletePeer (id : string) : eff (API B) response :=
  if decide (id = "") then mret (bad_request "peer id is required") else
  answer (on_back (peers_Delete id))
    (fun _ => ErrorResponse 404 ErrCodeNotFound "Peer not found" [("peerId", JStr id)])
    (fun _ => mret (removed "removed" id)).

Definition CreateRoute (body : string) : eff (API B) response :=
  match decode_route body with
  | None => mret (bad_request "Invalid request body")
  | Some (subdomain, port) =>
      if decide (subdomain = "") then mret (bad_request "subdomain is required") else
      if decide (port < 1 \/ 65535 < port)%Z
      then mret (bad_request ("localPort must be 1-65535, got " +:+ Itoa port))
      else answer (on_back (routes_Create subdomain port)) handleRouteError
             (fun route => mret (ok_json 201 (RouteView_json route)))
  end.

Definition DeleteRoute (id : string) : eff (API B) response :=
  if decide (id = "") then mret (bad_request "route id is required") else
  answer (on_back (routes_Delete id))
    (fun _ => ErrorResponse 404 ErrCodeNotFound "Route not found" [("routeId", JStr id)])
    (fun _ => mret (removed "removed" id)).

Definition created_by (info : option AuthInfo) : string :=
  match info with
  | Some i => if decide (ITokenID i = "localhost") then "system" else ITokenID i
  | None => "system"
  end.

Definition token_created (t : APIToken) (plain : string) : response :=
  ok_json 201 (JObj
    [("id", JStr (Auth.ID t)); ("name", JStr (Name t)); ("tokenPrefix", JStr (TokenPrefix t));
     ("scope", JStr (TScope t)); ("plainToken", JStr plain); ("createdAt", time_json (Auth.CreatedAt t))]).

Definition CreateToken (info : option AuthInfo) (r : APIRequest) (now : time) : eff (API B) response :=
  match decode_token (Body r) with
  | None => mret (bad_request "Invalid request body")
  | Some (name, scope, expiresAt) =>
      if decide (name = "") then mret (bad_request "name is required") else
      if decide (scope <> ScopeRead /\ scope <> ScopeWrite /\ scope <> ScopeAdmin)
      then mret (bad_request "scope must be one of: read, write, admin") else
      match NewAPIToken name scope (created_by info) expiresAt (random r) (uuid r) now with
      | Ok (token, plain) =>
          answer (on_store (Create dir file token))
            (fun e => if decide (e = ErrDuplicateName)
                      then ErrorResponse 409 "peer_name_conflict" "Token name already exists" []
                      else ErrorResponse 500 ErrCodeInternalError "Failed to create token" [])
            (fun _ => mret (token_created token plain))
      | Err e | Panic e => mret (bad_request e)
      end
  end.

Definition RevokeToken (id : string) : eff (API B) response :=
  if decide (id = "") then mret (bad_request "token id is required") else
  answer (on_store (GetByID dir file id))
    (fun _ => ErrorResponse 404 ErrCodeNotFound "Token not found" [])
    (fun token =>
       answer (on_store (SoftDelete dir file id))
         (fun _ => ErrorResponse 500 ErrCodeInternalError "Failed to revoke token" [])
         (fun _ => _ ← on_cache (Invalidate (TokenPrefix token)); mret (removed "revoked" id))).

Definition CreateSession (info : option AuthInfo) (jti : string) (now : time) : eff (API B) response :=
  match info with
  | Some i =>
      if decide (Source i = "jwt")
      then mret (ErrorResponse 401 ErrCodeUnauthorized "Cannot exchange JWT for JWT" [])
      else mret (ok_json 200 (JObj
             [("token", JStr (Issue hmac issuer (ITokenID i) (ITokenName i) (IScope i) jti now));
              ("expiresIn", JNum (jttl issuer / ns_second)); ("scope", JStr (IScope i))]))
  | None => mret (ErrorResponse 401 ErrCodeUnauthorized "Cannot exchange JWT for JWT" [])
  end.

(** ** remote/routes.go *)

Inductive endpoint :=
  | EStatus | EPeers | EPeer (id : string) | ECreatePeer | EDeletePeer (id : string) | ERoutes
  | ECreateRoute | EDeleteRoute (id : string) | ETunnel | ETokens | ECreateToken
  | ERevokeToken (id : string) | EAudit | ESession | ENotFound.

(** The mux: a [GET] pattern also takes [HEAD], a wildcard one segment that is
    not empty; everything else is for the pattern ["/"]. *)
Definition is_get (m : string) : bool := bool_decide (m = "GET" \/ m = "HEAD").
Definition with_id (id : string) (e : endpoint) : endpoint := if decide (id = "") then ENotFound else e.
Definition mux1 (method a : string) : endpoint :=
  if decide (a = "status") then if is_get method then EStatus else ENotFound
  else if decide (a = "peers")
  then if is_get method then EPeers else if decide (method = "POST") then ECreatePeer else ENotFound
  else if decide (a = "routes")
  then if is_get method then ERoutes else if decide (method = "POST") then ECreateRoute else ENotFound
  else if decide (a = "tokens")
  then if is_get method then ETokens else if decide (method = "POST") then ECreateToken else ENotFound
  else if decide (a = "audit") then if is_get method then EAudit else ENotFound
  else ENotFound.
Definition mux2 (method a id : string) : endpoint :=
  if decide (a = "peers")
  then if is_get method then with_id id (EPeer id)
       else if decide (method = "DELETE") then with_id id (EDeletePeer id) else ENotFound
  else if decide (a = "routes")
  then if decide (method = "DELETE") then with_id id (EDeleteRoute id) else ENotFound
  else if decide (a = "tokens")
  then if decide (method = "DELETE") then with_id id (ERevokeToken id) else ENotFound
  else if decide (a = "tunnel" /\ id = "status") then if is_get method then ETunnel else ENotFound
  else if decide (a = "auth" /\ id = "session")
  then if decide (method = "POST") then ESession else ENotFound
  else ENotFound.
Definition mux (method path : string) : endpoint :=
  match Split path "/" with
  | [root; v1; a] => if decide (root = "" /\ v1 = "v1") then mux1 method a else ENotFound
  | [root; v1; a; id] => if decide (root = "" /\ v1 = "v1") then mux2 method a id else ENotFound
  | _ => ENotFound
  end.

(** The scope [wrap] asks for; the last pattern is not wrapped. *)
Definition scope_of (e : endpoint) : option Scope :=
  match e with
  | EStatus | EPeers | EPeer _ | ERoutes | ETunnel | ESession => Some ScopeRead
  | ECreatePeer | EDeletePeer _ | ECreateRoute | EDeleteRoute _ => Some ScopeWrite
  | ETokens | ECreateToken | ERevokeToken _ | EAudit => Some ScopeAdmin
  | ENotFound => None
  end.

Definition handler (e : endpoint) (info : option AuthInfo) (r : APIRequest) (now : time)
  : eff (API B) response :=
  match e with
  | EStatus => GetStatus
  | EPeers => GetPeers
  | EPeer id => GetPeerByID id
  | ECreatePeer => CreatePeer (Body r)
  | EDeletePeer id => DeletePeer id
  | ERoutes => GetRoutes
  | ECreateRoute => CreateRoute (Body r)
  | EDeleteRoute id => DeleteRoute id
  | ETunnel => GetTunnelStatus
  | ETokens => GetTokens
  | ECreateToken => CreateToken info r now
  | ERevokeToken id => RevokeToken id
  | EAudit => GetAudit (query r)
  | ESession => CreateSession info (jti r) now
  | ENotFound => mret NotFound
  end.

(** [wrap]: scope, then rate, then the handler with its audit entry; main
    always gives it an audit logger. *)
Definition wrapped (scope : Scope) (h : eff (API B) response) (info : AuthInfo) (r : Request) (now : time)
  : eff (API B) response :=
  match RequireScope scope (Some info) with
  | Refuse st c m => mret (ErrorResponse st c m
      [("required_scope", JStr scope); ("actual_scope", JStr (IScope info))])
  | Serve _ => fun s =>
      let '(allowed, vs) := rate_limited (Some info) now (visitors s) in
      (if (allowed : bool) then
         resp ← h;
         _ ← modify (fun s => with_queued
               (queued s ++ option_list (Middleware.AuditLog true (Some info) r (code resp))) s);
         mret resp
       else mret (ErrorResponse 429 ErrCodeRateLimited "Rate limit exceeded" [("retryAfter", JNum 60)]))
      (with_visitors vs s)
  end.

(** The handler [RegisterRoutes] builds. *)
Definition serve (r : APIRequest) (now : time) : eff (API B) response :=
  o ← on_cache (AuthDispatcher dir file sha256 hmac issuer (http r) now);
  match o with
  | Refuse st c m => mret (ErrorResponse st c m [])
  | Serve info =>
      let e := mux (Method (http r)) (UrlPath (http r)) in
      match scope_of e with
      | Some scope => wrapped scope (handler e (Some info) r now) info (http r) now
      | None => handler e (Some info) r now
      end
  end.
End Handlers.

(** ** The two steps of [Validate] *)

Section Steps.
Context `{TokensCodec} `{Bcrypt} (dir file : string) (sha256 : string -> string).

(** Without a lock: the answer, and the entry to be cached under its key. *)
Definition validate_read (plainToken : string) (now : time)
  : eff TokenCache (TokenValidationResult * option (string * cacheEntry)) := fun c =>
  match cache_hit sha256 c plainToken now with
  | Some r => (Ok (r, None), c)
  | None =>
      (tokens ← on_part store with_store (List_ dir file);
       match List.find (usable plainToken now) tokens with
       | Some t => mret ({| TokenID := Auth.ID t; TokenName := Name t; VScope := TScope t |},
                         Some (TokenPrefix t, entry_of sha256 plainToken now t))
       | None => throw ErrTokenNotFound
       end) c
  end.

(** Under the lock again. *)
Definition validate_store (p : option (string * cacheEntry)) (c : TokenCache) : TokenCache :=
  match p with Some (k, e) => with_entries (<[k := e]> (entries c)) c | None => c end.

Lemma with_entries_id c : with_entries (entries c) c = c.
Proof. by destruct c. Qed.

Lemma Validate_split plainToken now c :
  Validate dir file sha256 plainToken now c =
  ('(r, p) ← validate_read plainToken now; _ ← modify (validate_store p); mret r) c.
Proof.
  unfold Validate, validate_read, mbind, eff_bind. destruct (cache_hit _ _ _ _); [done|].
  destruct (on_part store with_store (List_ dir file) c) as [[l|e|e] c1]; [|done..].
  by destruct (List.find _ l).
Qed.

(** What reading finds: a hit, or a usable token of the store. *)
Lemma validate_read_cases plainToken now c r p c' :
  validate_read plainToken now c = (Ok (r, p), c') ->
  ttl c' = ttl c /\ entries c' = entries c /\ files (store c') = files (store c) /\
  match p with
  | None => exists k e, entries c !! k = Some e /\ TokenID r = tokenID e
  | Some (k, e) => exists t l, stored dir file (store c) = Some l /\ (t ∈ l) /\ usable plainToken now t = true /\
                   k = TokenPrefix t /\ e = entry_of sha256 plainToken now t /\ TokenID r = Auth.ID t
  end.
Proof.
  unfold validate_read, cache_hit. intros Hv.
  destruct (entries c !! stake 8 plainToken) as [e|] eqn:He;
    [destruct (bool_decide _ && _ && _) eqn:Hb|].
  1: { injection Hv as <- <- <-. repeat split. by exists (stake 8 plainToken), e. }
  all: unfold mbind, eff_bind, on_part in Hv; destruct (load_spec dir file (store c)) as (Hf & _ & Hl);
    unfold List_ in Hv; destruct (load dir file (store c)) as [[l|m|m] w]; try done; cbn in Hl, Hf, Hv;
    destruct (List.find _ l) as [t|] eqn:Hfind; try done; cbn in Hv; injection Hv as <- <- <-; cbn;
    repeat (split; [done|]); apply List.find_some in Hfind as [Hin Hu]; exists t, l;
    repeat split; auto; by apply list_elem_of_In.
Qed.
End Steps.

(** ** What a request changes *)

(** The fields of a created token show one plain token. *)
Lemma plain_shown a b c d e plain v :
  ("plainToken", v) ∈ [("id", a); ("name", b); ("tokenPrefix", c); ("scope", d); ("plainToken", JStr plain);
                       ("createdAt", e)] <-> v = JStr plain.
Proof. set_solver. Qed.

Section Frame.
Context {B : Type} `{PeerMutator B} `{RouteMutator B} `{TunnelStatusProvider B}.
Context `{TokensCodec} `{Bcrypt} `{ClaimsCodec} `{BodyCodec} `{AuditCodec}.
Context (dir file : string) (sha256 : string -> string) (hmac : string -> string -> string).
Context (issuer : JWTIssuer) (auditPath : string) (parse_time : string -> option Z).
Context (sort : list Entry -> list Entry) (page_json : QueryResult -> json) (time_json : time -> json).
Abbreviation run_handler :=
  (handler (B := B) dir file hmac issuer auditPath parse_time sort page_json time_json).
Abbreviation run_serve :=
  (serve (B := B) dir file sha256 hmac issuer auditPath parse_time sort page_json time_json).

Definition tokens_of (s : API B) : option (list APIToken) := stored dir file (store (cache s)).
Definition auth_state (s : API B) : option (list APIToken) * gmap string cacheEntry :=
  (tokens_of s, entries (cache s)).

Lemma keeps_list : preserves auth_state (on_store (List_ dir file)).
Proof.
  intros s. unfold on_store, on_cache, on_part. destruct (load_spec dir file (store (cache s))) as (Hf & _).
  unfold List_, auth_state, tokens_of. destruct (load dir file (store (cache s))) as [r w]. cbn in *.
  by rewrite (stored_files dir file _ _ Hf).
Qed.

(** The endpoints that only read the tokens. *)
Definition token_mutation (e : endpoint) : bool :=
  match e with ECreateToken | ERevokeToken _ => true | _ => false end.
Definition back_mutation (e : endpoint) : bool :=
  match e with ECreatePeer | EDeletePeer _ | ECreateRoute | EDeleteRoute _ => true | _ => false end.

Lemma preserves_answer {X A} (f : API B -> X) (m : eff (API B) A) failed ok :
  preserves f m -> (forall a, preserves f (ok a)) -> preserves f (answer m failed ok).
Proof.
  intros Hm Hok. unfold answer. apply preserves_bind; [by apply preserves_try|].
  intros []; [apply Hok|apply preserves_ret..].
Qed.

Ltac framing := repeat (first
  [ apply preserves_answer; [|intros ?] | apply preserves_ret | apply preserves_get
  | apply keeps_list | apply preserves_const | apply preserves_try
  | apply preserves_bind; [|intros ?] | apply preserves_on_part; [by intros] | case_match
  | progress (unfold on_back) ]).

Lemma handler_keeps_auth e info r now :
  token_mutation e = false -> preserves auth_state (run_handler e info r now).
Proof.
  intros He. destruct e; try discriminate; cbn [handler];
    unfold GetStatus, GetPeers, GetPeerByID, GetRoutes, GetTunnelStatus, GetTokens, GetAudit, CreatePeer,
      DeletePeer, CreateRoute, DeleteRoute, CreateSession; framing.
  all: intros s; repeat case_match; done.
Qed.

Lemma handler_keeps_back e info r now :
  back_mutation e = false -> preserves back (run_handler e info r now).
Proof.
  intros He. destruct e; try discriminate; cbn [handler];
    unfold GetStatus, GetPeers, GetPeerByID, GetRoutes, GetTunnelStatus, GetTokens, GetAudit, CreateToken,
      RevokeToken, CreateSession, on_store, on_cache; framing.
  all: intros s; repeat case_match; done.
Qed.

(** *** Authentication: at most a usable token of the store is cached. *)
Definition may_cache (c1 c2 : TokenCache) (plain : string) (now : time) : Prop :=
  entries c2 = entries c1 \/
  exists t l, stored dir file (store c1) = Some l /\ (t ∈ l) /\ usable plain now t = true /\
    entries c2 = <[TokenPrefix t := entry_of sha256 plain now t]> (entries c1).

Lemma Validate_frame plain now c :
  let c' := snd (Validate dir file sha256 plain now c) in
  stored dir file (store c') = stored dir file (store c) /\ may_cache c c' plain now.
Proof.
  cbv zeta. unfold Validate, may_cache. destruct (cache_hit _ _ _ _); [by split; [|left]|].
  unfold mbind, eff_bind, on_part, List_. destruct (load_spec dir file (store c)) as (Hf & _ & Hl).
  apply (stored_files dir file) in Hf.
  destruct (load dir file (store c)) as [[l|e|e] w]; cbn in *; [|by split; [|left]..].
  destruct (List.find _ l) as [t|] eqn:Hfind; cbn; (split; [done|]); [right|by left].
  apply List.find_some in Hfind as [Hin Hu]. exists t, l. split; [by apply Hl|].
  by rewrite list_elem_of_In.
Qed.

Lemma read_frame plain now c :
  let c' := snd (validate_read dir file sha256 plain now c) in
  stored dir file (store c') = stored dir file (store c) /\ entries c' = entries c.
Proof.
  cbv zeta. unfold validate_read. destruct (cache_hit _ _ _ _); [done|].
  unfold mbind, eff_bind, on_part, List_. destruct (load_spec dir file (store c)) as (Hf & _ & _).
  apply (stored_files dir file) in Hf.
  destruct (load dir file (store c)) as [[l|e|e] w]; cbn in *; [|done..].
  by destruct (List.find _ l).
Qed.

Lemma dispatch_frame r now c :
  let c' := snd (AuthDispatcher dir file sha256 hmac issuer r now c) in
  stored dir file (store c') = stored dir file (store c) /\ exists plain, may_cache c c' plain now.
Proof.
  cbv zeta. assert (Hid : forall c', stored dir file (store c') = stored dir file (store c) ->
    entries c' = entries c ->
    stored dir file (store c') = stored dir file (store c) /\ exists plain, may_cache c c' plain now).
  { intros c' ? He. split; [done|]. exists "". by left. }
  assert (Ht : stored dir file (store (snd (handleTokenAuth dir file sha256 hmac issuer r now c))) =
      stored dir file (store c) /\
    exists plain, may_cache c (snd (handleTokenAuth dir file sha256 hmac issuer r now c)) plain now).
  { unfold handleTokenAuth. case_decide; [by apply Hid|]. cbv zeta. case_decide; [by apply Hid|].
    set (tok := TrimPrefix _ _). destruct (HasPrefix tok "unet_"); [|destruct (HasPrefix tok "eyJ"); [|by apply Hid]].
    - unfold handlePAT, mbind, eff_bind, try. pose proof (Validate_frame tok now c) as [Hs Hm].
      destruct (Validate dir file sha256 tok now c) as [[v|e|e] c']; cbn in *; eauto.
    - unfold handleJWT. destruct (jwt_Validate _ _ _ _); [|by apply Hid..].
      unfold mbind, eff_bind, try, on_part, List_. destruct (load_spec dir file (store c)) as (Hf & _).
      apply (stored_files dir file) in Hf.
      destruct (load dir file (store c)) as [[l|e|e] w]; cbn in *; by apply (Hid (with_store w c)). }
  unfold AuthDispatcher. case_decide; [done|]. destruct (isLoopback _); [by apply Hid|done].
Qed.

(** *** A request is refused, or its handler runs after authentication. *)
Lemma serve_shape r now s res s' : run_serve r now s = (res, s') ->
  let '(o, c1) := AuthDispatcher dir file sha256 hmac issuer (http r) now (cache s) in
  (back s' = back s /\ cache s' = c1 /\ queued s' = queued s) \/
  exists i vs s2, o = Ok (Serve i) /\
    let e := mux (Method (http r)) (UrlPath (http r)) in
    (forall sc, scope_of e = Some sc -> Allows (IScope i) sc = true) /\
    run_handler e (Some i) r now (with_visitors vs (with_cache c1 s)) = (res, s2) /\
    exists q, s' = with_queued q s2 /\
      forall resp, res = Ok resp -> scope_of e <> None ->
        q = queued s2 ++ option_list (Middleware.AuditLog true (Some i) (http r) (code resp)).
Proof.
  unfold serve, mbind at 1, eff_bind at 1, on_cache, on_part.
  destruct (AuthDispatcher _ _ _ _ _ _ _ _) as [[[i|st co m]|e|e] c1].
  2-4: intros [= <- <-]; by left.
  cbv zeta. set (e := mux _ _). destruct (scope_of e) as [sc|] eqn:Hsc.
  2: { intros Hr. right. exists i, (visitors s), s'. split; [done|]. split; [done|].
       replace (with_visitors (visitors s) (with_cache c1 s)) with (with_cache c1 s) by by destruct s.
       split; [done|]. exists (queued s'). split; [by destruct s'|done]. }
  unfold wrapped, RequireScope. destruct (Allows (IScope i) sc) eqn:Ha; [|intros [= <- <-]; by left].
  destruct (rate_limited _ _ _) as [[] vs]; [|intros [= <- <-]; by left].
  unfold mbind, eff_bind at 1. destruct (run_handler _ _ _ _ _) as [res2 s2] eqn:Hh.
  intros Hr. right. exists i, vs, s2. split; [done|]. split; [by intros ? [= <-]|].
  destruct res2 as [resp|m|m]; cbn in Hr; injection Hr as <- <-; (split; [done|]).
  - eexists. split; [done|]. by intros ? [= <-] _.
  - exists (queued s2). split; [by destruct s2|done].
  - exists (queued s2). split; [by destruct s2|done].
Qed.

(** ** The two endpoints that change the tokens *)

Context (roundtrip : forall l, tokens_unmarshal (tokens_marshal l) = Some l).
Context (c : ascii) (file_last : last_byte file = Some c) (c_not_p : c <> "p"%char).

(** A call on the store alone. *)
Lemma on_store_run {A} (m : eff World A) (s : API B) :
  on_store m s = (fst (m (store (cache s))), with_cache (with_store (snd (m (store (cache s)))) (cache s)) s).
Proof. unfold on_store, on_cache, on_part. by destruct (m (store (cache s))). Qed.

Lemma answer_run {A} (m : eff (API B) A) failed ok s :
  answer m failed ok s = match m s with
                         | (Ok a, s') => ok a s'
                         | (Err e, s') => (Ok (failed e), s')
                         | (Panic p, s') => (Panic p, s')
                         end.
Proof. unfold answer, mbind, eff_bind, try. by destruct (m s) as [[]]. Qed.

Lemma CreateToken_spec info r now s res s' :
  CreateToken dir file time_json info r now s = (res, s') ->
  back s' = back s /\ visitors s' = visitors s /\ queued s' = queued s /\
  entries (cache s') = entries (cache s) /\
  (tokens_of s' = tokens_of s /\ (forall resp, res = Ok resp -> code resp <> 201%Z) \/
   exists name scope expiry t plain l resp,
     decode_token (Body r) = Some (name, scope, expiry) /\
     NewAPIToken name scope (created_by info) expiry (random r) (uuid r) now = Ok (t, plain) /\
     tokens_of s = Some l /\ tokens_of s' = Some (l ++ [t]) /\ has_name name l = false /\
     res = Ok resp /\ resp = token_created time_json t plain).
Proof.
  unfold CreateToken. destruct (decode_token (Body r)) as [[[name scope] expiry]|].
  2: { intros [= <- <-]. repeat (split; [done|]). left. split; [done|]. by intros ? [= <-]. }
  repeat (case_decide; [intros [= <- <-]; repeat (split; [done|]); left; split; [done|];
                        by intros ? [= <-]|]).
  destruct (NewAPIToken _ _ _ _ _ _ _) as [[t plain]|e|e] eqn:Hnew.
  2,3: intros [= <- <-]; repeat (split; [done|]); left; split; [done|]; by intros ? [= <-].
  rewrite answer_run, on_store_run. intros Hr.
  destruct (Create_spec dir file roundtrip c file_last c_not_p t (store (cache s)))
    as [(l & Ho & Hl & Hn & Hs)|(e & He & Hs)].
  - rewrite Ho in Hr. injection Hr as <- <-. repeat (split; [done|]). right.
    assert (Name t = name) as <-.
    { unfold NewAPIToken in Hnew. case_match; [done|]. cbv zeta in Hnew.
      apply result_bind_ok in Hnew as (h & _ & [= <- _]). done. }
    by exists (Name t), scope, expiry, t, plain, l, (token_created time_json t plain).
  - rewrite He in Hr. injection Hr as <- <-. repeat (split; [done|]). left. split; [done|].
    intros resp [= <-]. by case_decide.
Qed.

Lemma RevokeToken_spec id s res s' :
  RevokeToken dir file id s = (res, s') ->
  back s' = back s /\ visitors s' = visitors s /\ queued s' = queued s /\
  ((tokens_of s' = tokens_of s /\ entries (cache s') = entries (cache s) /\
    forall resp, res = Ok resp -> code resp <> 200%Z) \/
   exists l1 t l2, tokens_of s = Some (l1 ++ t :: l2) /\ Auth.ID t = id /\
     tokens_of s' = Some (l1 ++ disable t :: l2) /\
     entries (cache s') = delete (TokenPrefix t) (entries (cache s)) /\ res = Ok (removed "revoked" id)).
Proof.
  unfold RevokeToken. case_decide as Hid.
  { intros [= <- <-]. repeat (split; [done|]). left. repeat (split; [done|]). by intros ? [= <-]. }
  rewrite answer_run, on_store_run. set (w := store (cache s)).
  destruct (GetByID_spec dir file id w) as [Hsame [(t & l & Ho & Hl & Hf)|(e & He)]].
  2: { rewrite He. intros [= <- <-]. repeat (split; [done|]). left. repeat (split; [done|]).
       by intros ? [= <-]. }
  rewrite Ho, answer_run, on_store_run. cbn [cache store with_cache with_store].
  set (w1 := snd (GetByID dir file id w)) in *. intros Hr.
  destruct (SoftDelete_spec dir file roundtrip c file_last c_not_p id w1)
    as [(l0 & l' & Hd & Hl0 & Hrep & Hs)|(e & He & Hs)].
  - rewrite Hd in Hr. injection Hr as <- <-. repeat (split; [done|]). right.
    assert (l0 = l) as -> by congruence.
    destruct (replace_first_found _ _ _ _ _ Hf Hrep) as (l1 & l2 & -> & -> & Ht).
    by exists l1, t, l2.
  - rewrite He in Hr. injection Hr as <- <-. repeat (split; [done|]). left.
    split; [by etrans; [exact Hs|]|]. split; [done|]. by intros ? [= <-].
Qed.

(** *** Who changes what *)

(** The handler with a token or the peers changed is one of its kind. *)
Lemma handler_back_changed e info r now s res s' :
  run_handler e info r now s = (res, s') -> back s' <> back s -> back_mutation e = true.
Proof.
  intros Hh Hb. destruct (back_mutation e) eqn:He; [done|]. destruct Hb.
  pose proof (handler_keeps_back e info r now He s) as Hk. by rewrite Hh in Hk.
Qed.
Lemma handler_tokens_changed e info r now s res s' :
  run_handler e info r now s = (res, s') -> tokens_of s' <> tokens_of s -> token_mutation e = true.
Proof.
  intros Hh Hb. destruct (token_mutation e) eqn:He; [done|]. destruct Hb.
  pose proof (handler_keeps_auth e info r now He s) as Hk. rewrite Hh in Hk. by injection Hk as ->.
Qed.

Lemma token_mutation_method m p : token_mutation (mux m p) = true -> m = "POST" \/ m = "DELETE".
Proof.
  unfold mux, mux1, mux2, with_id. intros Hm. repeat case_match; try discriminate; auto.
Qed.

(** A change of the tokens is answered as one. *)
Lemma handler_tokens_answer e info r now s res s' :
  run_handler e info r now s = (res, s') -> tokens_of s' <> tokens_of s ->
  token_mutation e = true /\ scope_of e = Some ScopeAdmin /\ queued s' = queued s /\
  exists resp, res = Ok resp /\ (code resp = 201 \/ code resp = 200)%Z.
Proof.
  intros Hh Hb. pose proof (handler_tokens_changed _ _ _ _ _ _ _ Hh Hb) as He.
  destruct e; try discriminate; cbn [handler] in Hh.
  - apply CreateToken_spec in Hh as (_ & _ & Hq & _ & [[Ht _]|(? & ? & ? & t & plain & l & resp & _ & _ & _ & _ & _ & -> & ->)]);
      [done|]. repeat (split; [done|]). eexists. split; [done|by left].
  - apply RevokeToken_spec in Hh as (_ & _ & Hq & [[Ht _]|(? & ? & ? & _ & _ & _ & _ & ->)]); [done|].
    repeat (split; [done|]). eexists. split; [done|by right].
Qed.

(** C1: who changes what.  When a request to the remote API changes the peers
    or the routes, its caller was let in with the write scope; when it changes
    the stored tokens, its caller was let in with the admin scope, the answer
    is a success, and, unless the caller is local, the change is handed to the
    audit log under the caller's token. *)
Theorem changes_need_scope r now s res s' :
  run_serve r now s = (res, s') ->
  (back s' <> back s ->
   exists i, let_in dir file sha256 hmac issuer ScopeWrite (http r) now (cache s) i) /\
  (tokens_of s' <> tokens_of s ->
   exists i resp, let_in dir file sha256 hmac issuer ScopeAdmin (http r) now (cache s) i /\
     res = Ok resp /\ (code resp = 201 \/ code resp = 200)%Z /\
     (Source i <> "localhost" ->
      queued s' = queued s ++
        [{| ActorTokenID := ITokenID i; ActorTokenName := ITokenName i;
            EAction := methodToAction (Method (http r)) (UrlPath (http r));
            SourceIP := RemoteAddr (http r); EUserAgent := UserAgent (http r) |}])).
Proof.
  intros Hs. apply serve_shape in Hs. revert Hs.
  pose proof (dispatch_frame (http r) now (cache s)) as [Hstored _].
  destruct (AuthDispatcher dir file sha256 hmac issuer (http r) now (cache s)) as [o c1] eqn:Hd.
  cbn [snd] in Hstored. intros [(Hb & Hc & _)|(i & vs & s2 & -> & Ha & Hh & q & -> & Hq)].
  { split; [done|]. intros Ht. destruct Ht. unfold tokens_of. by rewrite Hc. }
  assert (Hin : forall sc, scope_of (mux (Method (http r)) (UrlPath (http r))) = Some sc ->
    let_in dir file sha256 hmac issuer sc (http r) now (cache s) i).
  { intros sc Hsc. apply dispatched_let_in; [by rewrite Hd|by apply Ha]. }
  split.
  - intros Hb. apply handler_back_changed in Hh; [|done]. exists i. apply Hin.
    by destruct (mux _ _).
  - intros Ht. apply handler_tokens_answer in Hh as (Hmut & Hsc & Hqs & resp & -> & Hcode).
    2: { cbn in Ht. unfold tokens_of in *. cbn. by rewrite Hstored. }
    assert (Hm : Method (http r) = "POST" \/ Method (http r) = "DELETE").
    { by apply (token_mutation_method _ (UrlPath (http r))). }
    exists i, resp. split; [by apply Hin|]. repeat (split; [done|]). intros Hl.
    cbn [queued with_queued]. rewrite (Hq resp eq_refl), Hqs by congruence. f_equal.
    unfold Middleware.AuditLog. cbn [negb]. rewrite decide_False by done.
    rewrite decide_False by (destruct Hm as [->| ->]; intros [? ?]; done).
    by rewrite decide_False by lia.
Qed.

(** *** Revocation *)

(** The server and the validations that have read the store and not yet cached
    what they found. *)
Record Busy := { api : API B; pending : list (string * cacheEntry) }.

(** A whole request, or one of the two halves of a validation that runs beside
    others.  A new token's UUID is not one of the store. *)
Inductive busy_step (b : Busy) : Busy -> Prop :=
  | step_request r now res s' :
      (forall l, tokens_of (api b) = Some l -> uuid r ∉ map Auth.ID l) ->
      run_serve r now (api b) = (res, s') ->
      busy_step b {| api := s'; pending := pending b |}
  | step_read plain now res c' :
      validate_read dir file sha256 plain now (cache (api b)) = (res, c') ->
      busy_step b {| api := with_cache c' (api b);
                     pending := match res with Ok (_, Some p) => p :: pending b | _ => pending b end |}
  | step_cache before p after : pending b = before ++ p :: after ->
      busy_step b {| api := with_cache (validate_store (Some p) (cache (api b))) (api b);
                     pending := before ++ after |}.

(** What is cached or about to be is about a token of the store, under its
    prefix. *)
Definition about (l : list APIToken) (k : string) (e : cacheEntry) : Prop :=
  exists t, (t ∈ l) /\ Auth.ID t = tokenID e /\ TokenPrefix t = k.
Definition coherent (b : Busy) : Prop :=
  exists l, tokens_of (api b) = Some l /\ NoDup (map Auth.ID l) /\
    (forall k e, entries (cache (api b)) !! k = Some e -> about l k e) /\
    (forall k e, (k, e) ∈ pending b -> about l k e).

(** The token is known, disabled, and neither cached nor about to be. *)
Definition dead (id : string) (b : Busy) : Prop :=
  coherent b /\
  (exists l, tokens_of (api b) = Some l /\ (id ∈ map Auth.ID l) /\
     forall t, t ∈ l -> Auth.ID t = id -> Enabled t = false) /\
  (forall k e, entries (cache (api b)) !! k = Some e -> tokenID e <> id) /\
  (forall k e, (k, e) ∈ pending b -> tokenID e <> id).

(** The tokens after a request. *)
Definition evolves (l l' : list APIToken) (u : string) : Prop :=
  l' = l \/ (exists t, l' = l ++ [t] /\ Auth.ID t = u) \/
  exists l1 t l2, l = l1 ++ t :: l2 /\ l' = l1 ++ disable t :: l2.

Lemma evolves_about l l' u k e : evolves l l' u -> about l k e -> about l' k e.
Proof.
  intros [->|[(t & -> & _)|(l1 & t & l2 & -> & ->)]] (x & Hx & Hid & Hk); [by exists x|exists x; set_solver|].
  apply elem_of_app in Hx as [Hx|[->|Hx]%elem_of_cons]; [exists x; set_solver|exists (disable t); set_solver|].
  exists x. set_solver.
Qed.

Lemma evolves_ids l l' u : evolves l l' u -> (u ∉ map Auth.ID l) -> NoDup (map Auth.ID l) ->
  NoDup (map Auth.ID l') /\ forall id, id ∈ map Auth.ID l -> id ∈ map Auth.ID l'.
Proof.
  intros [->|[(t & -> & Ht)|(l1 & t & l2 & -> & ->)]] Hu Hl; [done| |].
  - rewrite map_app. cbn. split; [|set_solver]. apply list.NoDup_app. split; [done|].
    split; [set_solver|apply list.NoDup_singleton].
  - rewrite !map_app in *. by cbn in *.
Qed.

Lemma evolves_disabled l l' u id : evolves l l' u -> u <> id ->
  (forall t, t ∈ l -> Auth.ID t = id -> Enabled t = false) ->
  forall t, t ∈ l' -> Auth.ID t = id -> Enabled t = false.
Proof.
  intros [->|[(t & -> & Ht)|(l1 & t & l2 & -> & ->)]] Hu Hl x Hx Hid; [by apply Hl| |].
  - apply elem_of_app in Hx as [Hx| ->%list_elem_of_singleton]; [by apply Hl|congruence].
  - apply elem_of_app in Hx as [Hx|[->|Hx]%elem_of_cons]; [apply Hl; set_solver|done|apply Hl; set_solver].
Qed.

Lemma NewAPIToken_ok name scope by_ expiry rnd u now t plain :
  NewAPIToken name scope by_ expiry rnd u now = Ok (t, plain) ->
  Auth.ID t = u /\ Name t = name /\ TScope t = scope /\ plain = GenerateTokenString rnd /\
  TokenPrefix t = stake 8 plain /\ HashToken plain = Ok (TokenHash t) /\ Enabled t = true /\
  ExpiresAt t = expiry.
Proof.
  unfold NewAPIToken. case_match; [done|]. cbv zeta. intros Hn.
  by apply result_bind_ok in Hn as (h & Hh & [= <- <-]).
Qed.

Lemma handler_evolves e info r now s res s' l :
  run_handler e info r now s = (res, s') -> tokens_of s = Some l -> exists l', tokens_of s' = Some l' /\
    evolves l l' (uuid r) /\
    forall k x, entries (cache s') !! k = Some x -> entries (cache s) !! k = Some x.
Proof.
  intros Hh Hl. destruct (token_mutation e) eqn:He.
  2: { pose proof (handler_keeps_auth e info r now He s) as Hk. rewrite Hh in Hk. cbn in Hk.
       injection Hk as Ht Hent. exists l. rewrite Ht, Hent. repeat split; [done|by left|done]. }
  destruct e; try discriminate; cbn [handler] in Hh.
  - apply CreateToken_spec in Hh as (_ & _ & _ & -> & [[Ht _]|(n & sc & ex & t & plain & l0 & resp & _ & Hnew & Hl0 & Hl' & _)]).
    + exists l. rewrite Ht. repeat split; [done|by left|done].
    + assert (l0 = l) as -> by congruence. exists (l ++ [t]). repeat split; [done| |done].
      right. left. exists t. by apply NewAPIToken_ok in Hnew as [? _].
  - apply RevokeToken_spec in Hh as (_ & _ & _ & [(Ht & -> & _)|(l1 & t & l2 & Hl0 & _ & Hl' & -> & _)]).
    + exists l. rewrite Ht. repeat split; [done|by left|done].
    + exists (l1 ++ disable t :: l2). repeat split; [done| |].
      * do 2 right. exists l1, t, l2. split; [congruence|done].
      * by intros k x [_ ?]%lookup_delete_Some.
Qed.

(** A request's effect on tokens and cache. *)
Lemma serve_evolves r now s res s' l :
  run_serve r now s = (res, s') -> tokens_of s = Some l -> exists l', tokens_of s' = Some l' /\
    evolves l l' (uuid r) /\
    forall k e, entries (cache s') !! k = Some e -> entries (cache s) !! k = Some e \/
      exists t, (t ∈ l) /\ Enabled t = true /\ TokenPrefix t = k /\ Auth.ID t = tokenID e.
Proof.
  intros Hs Hl. apply serve_shape in Hs. revert Hs.
  pose proof (dispatch_frame (http r) now (cache s)) as [Hstored [plain Hm]].
  destruct (AuthDispatcher dir file sha256 hmac issuer (http r) now (cache s)) as [o c1].
  cbn [snd] in *. 
  assert (Hl1 : stored dir file (store c1) = Some l) by (rewrite Hstored; exact Hl).
  assert (He1 : forall k e, entries c1 !! k = Some e -> entries (cache s) !! k = Some e \/
      exists t, (t ∈ l) /\ Enabled t = true /\ TokenPrefix t = k /\ Auth.ID t = tokenID e).
  { intros k e Hk. destruct Hm as [Hm|(t & l0 & Hl0 & Hin & Hu & Hm)]; rewrite Hm in Hk; [by left|].
    assert (l0 = l) as -> by (unfold tokens_of in Hl; congruence).
    apply lookup_insert_Some in Hk as [[<- <-]|[_ Hk]]; [right|by left].
    exists t. unfold usable in Hu. rewrite !andb_true_iff in Hu. naive_solver. }
  intros [(_ & Hc & _)|(a & vs & s2 & _ & _ & Hh & q & -> & _)].
  { exists l. unfold tokens_of. rewrite Hc. repeat split; [done|by left|done]. }
  set (s1 := with_visitors vs (with_cache c1 s)) in *.
  change (tokens_of (with_queued q s2)) with (tokens_of s2).
  change (cache (with_queued q s2)) with (cache s2).
  assert (Ht1 : tokens_of s1 = Some l) by done.
  destruct (handler_evolves _ _ _ _ _ _ _ _ Hh Ht1) as (l' & Hl' & Hev & Hent).
  exists l'. repeat (split; [done|]). intros k e Hk. apply He1. by apply Hent.
Qed.

Lemma about_usable l t : t ∈ l -> forall plain now, about l (TokenPrefix t) (entry_of sha256 plain now t).
Proof. intros Ht plain now. by exists t. Qed.

Lemma coherent_step b b' : coherent b -> busy_step b b' -> coherent b'.
Proof.
  intros (l & Hl & Hnd & He & Hp). destruct 1 as [r now res s' Hfresh Hs|plain now res c' Hv|before [k e] after Hb].
  - destruct (serve_evolves _ _ _ _ _ _ Hs Hl) as (l' & Hl' & Hev & Hent).
    destruct (evolves_ids _ _ _ Hev (Hfresh l Hl) Hnd) as [Hnd' _].
    exists l'. cbn [api pending]. split_and!; [done|done| |].
    + intros k e Hk. destruct (Hent k e Hk) as [Hk'|(t & Ht & _ & <- & Hid)].
      * eapply evolves_about; [done|]. by apply He.
      * eapply evolves_about; [done|]. by exists t.
    + intros k e Hk. eapply evolves_about; [done|]. by apply Hp.
  - assert (Hc : entries c' = entries (cache (api b)) /\ stored dir file (store c') = Some l /\
      forall k e, (k, e) ∈ match res with Ok (_, Some p) => p :: pending b | _ => pending b end -> about l k e).
    { pose proof (read_frame plain now (cache (api b))) as [Hst Hen]. rewrite Hv in Hst, Hen. cbn in Hst, Hen.
      rewrite Hst, Hen. split_and!; [done|exact Hl|]. intros k e Hin.
      destruct res as [[v [p|]]|m|m]; [|by apply Hp..].
      apply elem_of_cons in Hin as [<-|Hin]; [|by apply Hp].
      apply validate_read_cases in Hv as (_ & _ & _ & t & l0 & Hl0 & Ht & _ & -> & -> & _).
      assert (l0 = l) as -> by (unfold tokens_of in Hl; congruence). by apply about_usable. }
    destruct Hc as (Hen & Hst & Hpd). exists l. cbn [api pending cache with_cache].
    split_and!; [done|done| |done]. rewrite Hen. exact He.
  - exists l. cbn [api pending cache with_cache validate_store entries with_entries]. split_and!; [done|done| |].
    + intros k' e' [[<- <-]|[_ Hk]]%lookup_insert_Some; [|by apply He]. apply Hp. rewrite Hb. set_solver.
    + intros k' e' Hk. apply Hp. rewrite Hb. set_solver.
Qed.

Lemma dead_step id b b' : dead id b -> busy_step b b' -> dead id b'.
Proof.
  intros (Hco & (l & Hl & Hin & Hdis) & He & Hp) Hstep. split; [by eapply coherent_step|].
  assert (Hnd : NoDup (map Auth.ID l)).
  { destruct Hco as (l0 & Hl0 & Hnd & _). congruence. }
  destruct Hstep as [r now res s' Hfresh Hs|plain now res c' Hv|before [k e] after Hb].
  - destruct (serve_evolves _ _ _ _ _ _ Hs Hl) as (l' & Hl' & Hev & Hent).
    destruct (evolves_ids _ _ _ Hev (Hfresh l Hl) Hnd) as [_ Hids].
    assert (Hu : uuid r <> id) by (intros Hu; specialize (Hfresh l Hl); by rewrite Hu in Hfresh).
    cbn [api pending]. split_and!; [|intros k e Hk|done].
    + exists l'. split_and!; [done|by apply Hids|]. by eapply evolves_disabled.
    + destruct (Hent k e Hk) as [Hk'|(t & Ht & Hen & _ & <-)]; [by eapply He|].
      intros Hid. rewrite (Hdis t Ht Hid) in Hen. done.
  - pose proof (read_frame plain now (cache (api b))) as [Hst Hen]. rewrite Hv in Hst, Hen. cbn in Hst, Hen.
    cbn [api pending cache with_cache]. rewrite Hen. split_and!; [|done|].
    + exists l. unfold tokens_of. cbn [cache with_cache]. rewrite Hst. done.
    + intros k e Hk. destruct res as [[v [p|]]|m|m]; [|by eapply Hp..].
      apply elem_of_cons in Hk as [<-|Hk]; [|by eapply Hp].
      apply validate_read_cases in Hv as (_ & _ & _ & t & l0 & Hl0 & Ht & Hu & _ & -> & _).
      assert (l0 = l) as -> by (unfold tokens_of in Hl; congruence). cbn. intros Hid.
      unfold usable in Hu. by rewrite (Hdis t Ht Hid) in Hu.
  - cbn [api pending cache with_cache validate_store entries with_entries]. split_and!; [by exists l| |].
    + intros k' e' [[<- <-]|[_ Hk]]%lookup_insert_Some; [|by eapply He]. eapply (Hp k). rewrite Hb. set_solver.
    + intros k' e' Hk. eapply (Hp k'). rewrite Hb. set_solver.
Qed.

Lemma only_one l1 t l2 u :
  NoDup (map Auth.ID (l1 ++ t :: l2)) -> Auth.ID u = Auth.ID t -> (u ∉ l1) /\ (u ∉ l2).
Proof.
  rewrite map_app. cbn. rewrite <- Permutation_middle, <- map_app. intros [Hnot _]%list.NoDup_cons Hid.
  split; intros Hu; apply Hnot; rewrite <- Hid; apply list_elem_of_fmap; exists u;
    (split; [done|]); apply elem_of_app; auto.
Qed.

(** A revocation without a validation of the token under way. *)
Lemma revoke_dead id b resp s' :
  coherent b -> (forall k e, (k, e) ∈ pending b -> tokenID e <> id) ->
  RevokeToken dir file id (api b) = (Ok resp, s') -> code resp = 200%Z ->
  dead id {| api := s'; pending := pending b |}.
Proof.
  intros Hco Hp Hr Hcode. pose proof Hco as (l & Hl & Hnd & He & Hpc).
  apply RevokeToken_spec in Hr as (_ & _ & _ & [(_ & _ & Hno)|(l1 & t & l2 & Hl0 & Hid & Hl' & Hent & _)]).
  { by destruct (Hno resp eq_refl). }
  assert (l = l1 ++ t :: l2) as -> by congruence.
  assert (Hev : evolves (l1 ++ t :: l2) (l1 ++ disable t :: l2) "") by (do 2 right; by exists l1, t, l2).
  assert (Hsame : map Auth.ID (l1 ++ disable t :: l2) = map Auth.ID (l1 ++ t :: l2)) by by rewrite !map_app.
  split; [|split_and!]; cbn [api pending].
  - exists (l1 ++ disable t :: l2). cbn [api pending]. rewrite Hsame, Hent. split_and!; [done|done| |].
    + intros k e [_ Hk]%lookup_delete_Some. eapply evolves_about; [done|]. by apply He.
    + intros k e Hk. eapply evolves_about; [done|]. by apply Hpc.
  - exists (l1 ++ disable t :: l2). rewrite Hsame, <- Hid. split_and!; [done|rewrite map_app; set_solver|].
    intros u Hu Huid. destruct (only_one _ _ _ _ Hnd Huid).
    by apply elem_of_app in Hu as [Hu|[->|Hu]%elem_of_cons].
  - intros k e Hk Hke. rewrite Hent in Hk. apply lookup_delete_Some in Hk as [Hne Hk].
    destruct (He k e Hk) as (u & Hu & Huid & <-). apply Hne.
    destruct (only_one _ _ _ u Hnd) as [? ?]; [congruence|].
    by apply elem_of_app in Hu as [Hu|[->|Hu]%elem_of_cons].
  - exact Hp.
Qed.

(** Nobody authenticates as a dead token. *)
Lemma dead_refused id b r now i c1 :
  dead id b -> id <> "localhost" ->
  AuthDispatcher dir file sha256 hmac issuer r now (cache (api b)) = (Ok (Serve i), c1) ->
  ITokenID i <> id.
Proof.
  intros (_ & (l & Hl & _ & Hdis) & He & _) Hid. set (tc := cache (api b)) in *.
  assert (Ht : handleTokenAuth dir file sha256 hmac issuer r now tc = (Ok (Serve i), c1) -> ITokenID i <> id).
  2: { unfold AuthDispatcher. case_decide; [done|]. destruct (isLoopback _); [|done].
       intros [= <- _]. by apply not_eq_sym. }
  unfold handleTokenAuth. case_decide; [done|]. cbv zeta. case_decide; [done|].
  set (tok := TrimPrefix _ _). destruct (HasPrefix tok "unet_"); [|destruct (HasPrefix tok "eyJ"); [|done]].
  - unfold handlePAT, mbind, eff_bind, try.
    destruct (Validate dir file sha256 tok now tc) as [[v|e|e] c2] eqn:Hv; [|done..].
    intros [= <- _]. cbn [ITokenID].
    apply Validate_cases in Hv as [(e & Hk & _ & _ & _ & ->)|(t & l0 & Hl0 & Ht & Hu & _ & _ & ->)];
      [by eapply He|]. cbn [TokenID]. intros Htid.
    destruct (load_spec dir file (store tc)) as (_ & _ & Hload). apply Hload in Hl0.
    assert (l0 = l) as -> by (unfold tokens_of in Hl; fold tc in Hl; congruence).
    unfold usable in Hu. by rewrite (Hdis t Ht Htid) in Hu.
  - unfold handleJWT. destruct (jwt_Validate _ _ _ _) as [claims|e|e]; [|done..].
    unfold mbind, eff_bind, try, on_part, List_. destruct (load_spec dir file (store tc)) as (_ & _ & Hload).
    destruct (load dir file (store tc)) as [[l0|e|e] w]; [|done..].
    cbn in Hload |- *. specialize (Hload l0 eq_refl).
    assert (l0 = l) as -> by (unfold tokens_of in Hl; fold tc in Hl; congruence).
    destruct (sub_enabled (Sub claims) l) eqn:Hsub; [|done]. intros [= <- _]. cbn. intros Hsid.
    unfold sub_enabled in Hsub. apply existsb_exists in Hsub as (t & Ht & Hb%andb_true_iff).
    rewrite bool_decide_eq_true in Hb. destruct Hb as [Htid Hen].
    rewrite (Hdis t) in Hen; [done|by apply list_elem_of_In|congruence].
Qed.

(** C7: a revocation takes effect.  Start with an empty cache and a store whose
    IDs differ; requests and validations run in any order.  Once a revocation
    of a token is answered with 200 while no validation of that token is
    between its two steps, no request authenticates as this token again,
    neither with the token itself nor with a JWT issued for it, whatever runs
    afterwards and whatever fails. *)
Theorem revocation_takes_effect b0 b id resp s' b' r now i c1 :
  entries (cache (api b0)) = ∅ -> pending b0 = [] ->
  (exists l, tokens_of (api b0) = Some l /\ NoDup (map Auth.ID l)) ->
  star busy_step b0 b -> (forall k e, (k, e) ∈ pending b -> tokenID e <> id) ->
  RevokeToken dir file id (api b) = (Ok resp, s') -> code resp = 200%Z -> id <> "localhost" ->
  star busy_step {| api := s'; pending := pending b |} b' ->
  AuthDispatcher dir file sha256 hmac issuer r now (cache (api b')) = (Ok (Serve i), c1) ->
  ITokenID i <> id.
Proof.
  intros He Hp (l & Hl & Hnd) Hs Hpid Hr Hcode Hid Hs' Hd.
  assert (Hco : coherent b).
  { eapply (star_inv_ind busy_step coherent); [apply coherent_step| |exact Hs].
    exists l. rewrite He, Hp. split_and!; [done|done|by intros ? ? ?%lookup_empty_Some|set_solver]. }
  eapply dead_refused; [|done|exact Hd].
  eapply (star_inv_ind busy_step (dead id)); [apply dead_step| |exact Hs'].
  by eapply revoke_dead.
Qed.

(** Unless the validation overlaps it.  A validation that has read the
    store before the revocation and caches after it puts the revoked token
    back: until the cache's time to live has passed, the token is let in,
    although the store says that it is disabled. *)
Theorem revocation_race s plain now v e c1 resp s2 now' :
  validate_read dir file sha256 plain now (cache s) = (Ok (v, Some (stake 8 plain, e)), c1) ->
  RevokeToken dir file (TokenID v) (with_cache c1 s) = (Ok resp, s2) -> code resp = 200%Z ->
  (now' - now < ttl (cache s2))%Z ->
  (exists t l, tokens_of s2 = Some l /\ (t ∈ l) /\ Auth.ID t = TokenID v /\ Enabled t = false) /\
  fst (handlePAT dir file sha256 plain now' (validate_store (Some (stake 8 plain, e)) (cache s2))) =
    Ok (Serve {| ITokenID := TokenID v; ITokenName := TokenName v; IScope := VScope v;
                 Source := "pat"; SessionID := "" |}).
Proof.
  intros Hv Hr Hcode Httl.
  apply RevokeToken_spec in Hr as (_ & _ & _ & [(_ & _ & Hno)|(l1 & t & l2 & _ & Hid & Hl' & _ & _)]).
  { by destruct (Hno resp eq_refl). }
  split; [exists (disable t), (l1 ++ disable t :: l2); split_and!; [done|set_solver|done|done]|].
  assert (He : exists u, Enabled u = true /\ e = entry_of sha256 plain now u /\
             v = {| TokenID := Auth.ID u; TokenName := Name u; VScope := TScope u |}).
  { unfold validate_read in Hv. destruct (cache_hit _ _ _ _); [done|].
    apply bind_ok_inv in Hv as (l & c2 & _ & Hv).
    destruct (List.find _ l) as [u|] eqn:Hf; [|done]. injection Hv as <- _ <- _.
    apply List.find_some in Hf as [_ Hu]. exists u. unfold usable in Hu.
    rewrite !andb_true_iff in Hu. naive_solver. }
  destruct He as (u & Hen & -> & ->). unfold handlePAT, Validate, cache_hit, mbind, eff_bind, try.
  cbn [validate_store entries with_entries ttl]. rewrite lookup_insert_eq.
  cbn [entry_of cachedAt enabled sha256Sum tokenID tokenName scope].
  by rewrite Hen, !bool_decide_true by done.
Qed.

(** C33: a token just created works.  An answer 201 of [CreateToken] shows one
    [plainToken], and that token authenticates over the network, under the name
    and scope asked for, as soon as the store can be read and while it has not
    expired; provided no other stored token verifies against it and nothing
    is cached under its prefix. *)
Theorem created_token_authenticates info r now s resp s' now' :
  (forall p h, HashToken p = Ok h -> VerifyToken p h = true) ->
  CreateToken dir file time_json info r now s = (Ok resp, s') -> code resp = 201%Z ->
  let plain := GenerateTokenString (random r) in
  entries (cache s) !! stake 8 plain = None ->
  (forall l t, tokens_of s = Some l -> t ∈ l -> VerifyToken plain (TokenHash t) = false) ->
  next_outcome (store (cache s')) = None ->
  exists fields name scope expiry,
    body resp = JObj fields /\ (forall v, ("plainToken", v) ∈ fields <-> v = JStr plain) /\
    decode_token (Body r) = Some (name, scope, expiry) /\
    (expired now' expiry = false ->
     fst (handlePAT dir file sha256 plain now' (cache s')) =
       Ok (Serve {| ITokenID := uuid r; ITokenName := name; IScope := scope; Source := "pat";
                    SessionID := "" |})).
Proof.
  intros Hbc Hc Hcode plain Hcold Hother Hdisk.
  apply CreateToken_spec in Hc as (_ & _ & _ & Hent & [[_ Hno]|(name & sc & ex & t & pl & l & resp' & Hdec & Hnew & Hl & Hl' & _ & Hres & ->)]).
  { by destruct (Hno resp eq_refl). }
  injection Hres as ->. eexists _, name, sc, ex. split; [reflexivity|].
  assert (Hpl : pl = plain) by exact (proj1 (proj2 (proj2 (proj2 (NewAPIToken_ok _ _ _ _ _ _ _ _ _ Hnew))))).
  split; [intros v; rewrite Hpl; apply plain_shown|].
  split; [done|]. intros Hexp.
  apply NewAPIToken_ok in Hnew as (<- & <- & <- & -> & Hpre & Hhash & Hen & <-). fold plain in Hpre, Hhash.
  unfold handlePAT, Validate, cache_hit, mbind, eff_bind, try. rewrite Hent, Hcold.
  unfold on_part, List_. destruct (load_readable dir file _ _ Hl' Hdisk) as [w1 ->].
  assert (List.find (usable plain now') (l ++ [t]) = Some t) as ->; [|done].
  assert (Hu : usable plain now' t = true) by (unfold usable; by rewrite Hen, Hexp, (Hbc _ _ Hhash)).
  assert (Hl0 : forall x, x ∈ l -> usable plain now' x = false).
  { intros x Hx. unfold usable. by rewrite (Hother l x Hl Hx), andb_false_r. }
  clear - Hu Hl0. induction l as [|x l IH]; cbn [List.find app]; [by rewrite Hu|].
  rewrite Hl0 by set_solver. apply IH. intros y Hy. apply Hl0. set_solver.
Qed.

(** A session of the local user is no use.  [CreateSession] answers a local
    caller with a JWT for the subject [localhost]; presented over the network
    it is refused, at every time and in every state whose store holds no token
    of that ID. *)
Theorem local_session_is_refused jti now s resp s' r now' c1 :
  (forall cl, claims_unmarshal (claims_marshal cl) = Some cl) ->
  CreateSession (B := B) hmac issuer (Some localhost_info) jti now s = (Ok resp, s') ->
  Authorization r = "Bearer " +:+ Issue hmac issuer "localhost" "localhost" ScopeAdmin jti now ->
  XForwardedFor r <> "" \/ isLoopback (remote_host r) = false ->
  (forall l, stored dir file (store c1) = Some l -> "localhost" ∉ map Auth.ID l) ->
  code resp = 200%Z /\
  (exists rest, body resp =
     JObj (("token", JStr (Issue hmac issuer "localhost" "localhost" ScopeAdmin jti now)) :: rest)) /\
  exists m c2, AuthDispatcher dir file sha256 hmac issuer r now' c1 = (Ok (unauthorized m), c2).
Proof.
  intros Hcodec Hs Hauth Hrem Hno. injection Hs as <- _. split; [done|]. split; [by eexists|].
  set (tok := Issue hmac issuer _ _ _ _ _) in *.
  assert (Ht : exists m c2, handleTokenAuth dir file sha256 hmac issuer r now' c1 = (Ok (unauthorized m), c2)).
  2: { unfold AuthDispatcher. case_decide; [done|]. destruct Hrem as [?| ->]; [tauto|exact Ht]. }
  unfold handleTokenAuth. rewrite Hauth, decide_False by done. cbv zeta. rewrite TrimPrefix_app.
  rewrite decide_False; [|intros He%(f_equal slen); rewrite slen_app in He; cbn in He; lia].
  assert (Hpre : exists rest, tok = url_encode jwt_header +:+ rest).
  { unfold tok, Issue. cbv zeta. rewrite !sapp_assoc. eauto. }
  destruct Hpre as [rest Htok].
  assert (HasPrefix tok "unet_" = false) as -> by by rewrite Htok.
  assert (HasPrefix tok "eyJ" = true) as -> by by rewrite Htok.
  unfold handleJWT. destruct (jwt_Validate hmac issuer tok now') as [claims|e|e] eqn:Hv; [|eauto..].
  apply issued_claims in Hv; [|done]. subst claims.
  unfold mbind, eff_bind, try, on_part, List_. destruct (load_spec dir file (store c1)) as (_ & _ & Hload).
  destruct (load dir file (store c1)) as [[l|e|e] w] eqn:Hload'; [|eauto|].
  - assert (sub_enabled "localhost" l = false) as Hsub.
    { specialize (Hno l (Hload l eq_refl)). apply not_true_iff_false. unfold sub_enabled.
      intros (t & Ht & Hb%andb_true_iff)%existsb_exists. rewrite bool_decide_eq_true in Hb.
      apply Hno. destruct Hb as [<- _]. apply list_elem_of_fmap. exists t. by rewrite list_elem_of_In. }
    cbn. rewrite Hsub. eauto.
  - by destruct (load_spec dir file (store c1)) as (_ & Hp & _); rewrite Hload' in Hp; destruct (Hp e).
Qed.
End Frame.

(** ** Witnesses *)

Section Witnesses.
#[local] Existing Instance count_tokens.
#[local] Existing Instance plain_bcrypt.
#[local] Existing Instance count_claims.

(** The names of the peers; a tunnel that is never up. *)
#[local] Instance m_peers : PeerMutator (list string) := {|
  peers_List _ := Ok [];
  peers_GetByID _ _ := Err "peer not found";
  peers_Create n b := (Err "write tcp: broken pipe", b);
  peers_Delete n b := (Ok tt, b) |}.
#[local] Instance m_routes : RouteMutator (list string) := {|
  routes_List _ := Ok [];
  routes_Create h p b := (Err "tunnel not connected", b);
  routes_Delete id b := (Ok tt, b) |}.
#[local] Instance m_tunnel : TunnelStatusProvider (list string) := {|
  tunnel_Status _ := ""; tunnel_IsConnected _ := false;
  tunnel_GetConfig _ := {| TLocalIP := ""; TServerIP := ""; TServerEndpoint := ""; TStatus := "";
                           TConnectedAt := "" |} |}.
(** Every body reads as the same requests. *)
#[local] Instance m_bodies : BodyCodec := {|
  decode_peer b := Some b; decode_route b := Some (b, 80%Z); decode_token b := Some (b, "write", None) |}.

Definition m_api : API (list string) :=
  {| cache := w_cache; visitors := ∅; audit_disk := blank; queued := []; back := [] |}.
Definition m_request (auth xff meth p b : string) : APIRequest :=
  {| http := {| XForwardedFor := xff; Authorization := auth; RemoteAddr := "127.0.0.1:5000"; Method := meth;
                UrlPath := p; UserAgent := "curl" |};
     Body := b; query _ := ""; random := "0123456789"; uuid := "new"; jti := "j" |}.
Definition m_serve : APIRequest -> time -> eff (API (list string)) response :=
  serve "d" "t.json" id short_hmac w_issuer "audit.jsonl" (fun _ => None) (fun l => l) (fun _ => JNull) JNum.
Definition m_busy : Busy -> Busy -> Prop :=
  busy_step "d" "t.json" id short_hmac w_issuer "audit.jsonl" (fun _ => None) (fun l => l)
    (fun _ => JNull) JNum.
Definition m_start : Busy := {| api := m_api; pending := [] |}.

(** The local user revokes the token [a]. *)
Lemma changes_need_scope_witness :
  exists i, let_in "d" "t.json" id short_hmac w_issuer ScopeAdmin
              (http (m_request "" "" "DELETE" "/v1/tokens/a" "")) 5%Z w_cache i.
Proof.
  destruct (@changes_need_scope (list string) m_peers m_routes m_tunnel count_tokens plain_bcrypt
    count_claims m_bodies memory_codec "d" "t.json" id short_hmac w_issuer "audit.jsonl" (fun _ => None)
    (fun l => l) (fun _ => JNull) JNum count_dec_enc "n"%char eq_refl ltac:(discriminate)
    (m_request "" "" "DELETE" "/v1/tokens/a" "") 5%Z m_api
    (fst (m_serve (m_request "" "" "DELETE" "/v1/tokens/a" "") 5%Z m_api))
    (snd (m_serve (m_request "" "" "DELETE" "/v1/tokens/a" "") 5%Z m_api))) as [_ Ht].
  - vm_compute. reflexivity.
  - destruct Ht as (i & _ & Hi & _); [vm_compute; discriminate|]. exists i. exact Hi.
Defined.

(** The token [a] is validated, its validation finishes, it is revoked; the
    local user is still let in. *)
Definition m_read := validate_read "d" "t.json" id "unet_abcdef" 5%Z w_cache.
Definition m_entry : string * cacheEntry :=
  ("unet_abc", entry_of id "unet_abcdef" 5%Z (sample_token "a")).
Definition m_during : Busy := {| api := with_cache (snd m_read) m_api; pending := [m_entry] |}.
Definition m_cached : Busy :=
  {| api := with_cache (validate_store (Some m_entry) (snd m_read)) m_api; pending := [] |}.
Definition m_revoked : API (list string) := snd (RevokeToken "d" "t.json" "a" (api m_cached)).

Lemma revocation_takes_effect_witness :
  is_ok (fst (Validate "d" "t.json" id "unet_abcdef" 6%Z (cache (api m_cached)))) = true /\
  ITokenID localhost_info <> "a".
Proof.
  split; [vm_compute; reflexivity|].
  assert (Hd : m_busy m_start m_during).
  { apply (@step_read (list string) m_peers m_routes m_tunnel count_tokens plain_bcrypt count_claims m_bodies
      memory_codec "d" "t.json" id short_hmac w_issuer "audit.jsonl" (fun _ => None) (fun l => l)
      (fun _ => JNull) JNum m_start "unet_abcdef" 5%Z (fst m_read) (snd m_read)). vm_compute. reflexivity. }
  assert (Hc : m_busy m_during m_cached).
  { apply (@step_cache (list string) m_peers m_routes m_tunnel count_tokens plain_bcrypt count_claims m_bodies
      memory_codec "d" "t.json" id short_hmac w_issuer "audit.jsonl" (fun _ => None) (fun l => l)
      (fun _ => JNull) JNum m_during [] m_entry []). reflexivity. }
  apply (@revocation_takes_effect (list string) m_peers m_routes m_tunnel count_tokens plain_bcrypt
    count_claims m_bodies memory_codec "d" "t.json" id short_hmac w_issuer "audit.jsonl" (fun _ => None)
    (fun l => l) (fun _ => JNull) JNum count_dec_enc "n"%char eq_refl ltac:(discriminate)
    m_start m_cached "a" (removed "revoked" "a") m_revoked {| api := m_revoked; pending := [] |}
    (http (m_request "" "" "GET" "/v1/peers" "")) 6%Z localhost_info (cache m_revoked)).
  - reflexivity.
  - reflexivity.
  - exists [sample_token "a"]. split; [vm_compute; reflexivity|]. apply list.NoDup_singleton.
  - exact (star_snoc _ _ _ _ (star_snoc _ _ _ _ (star_nil _ _) Hd) Hc).
  - intros k e Hk. inversion Hk.
  - vm_compute. reflexivity.
  - reflexivity.
  - discriminate.
  - apply star_nil.
  - vm_compute. reflexivity.
Defined.

(** Between the two steps, the token is revoked: a minute later it is let in. *)
Lemma revocation_race_witness :
  let s2 := snd (RevokeToken "d" "t.json" "a" (api m_during)) in
  (exists t l, tokens_of "d" "t.json" s2 = Some l /\ (t ∈ l) /\ Auth.ID t = "a" /\ Enabled t = false) /\
  fst (handlePAT "d" "t.json" id "unet_abcdef" (seconds 60)
         (validate_store (Some m_entry) (cache s2))) = Ok (Serve pat_info).
Proof.
  apply (@revocation_race (list string) count_tokens plain_bcrypt "d" "t.json" id short_hmac (fun _ => None) JNum
    count_dec_enc "n"%char eq_refl ltac:(discriminate) m_api "unet_abcdef" 5%Z
    {| TokenID := "a"; TokenName := "a"; VScope := ScopeRead |} (snd m_entry) (snd m_read)
    (removed "revoked" "a") (snd (RevokeToken "d" "t.json" "a" (api m_during))) (seconds 60));
    vm_compute; reflexivity.
Defined.

Definition m_create : APIRequest := m_request "" "" "POST" "/v1/tokens" "ci".
Definition m_created := CreateToken "d" "t.json" JNum (Some localhost_info) m_create 5%Z m_api.

Lemma created_token_authenticates_witness :
  exists fields name scope expiry,
    fst m_created = Ok {| code := 201; body := JObj fields |} /\
    (forall v, ("plainToken", v) ∈ fields <-> v = JStr (GenerateTokenString "0123456789")) /\
    decode_token (Body m_create) = Some (name, scope, expiry) /\
    (expired 9%Z expiry = false ->
     fst (handlePAT "d" "t.json" id (GenerateTokenString "0123456789") 9%Z (cache (snd m_created))) =
       Ok (Serve {| ITokenID := "new"; ITokenName := name; IScope := scope; Source := "pat";
                    SessionID := "" |})).
Proof.
  destruct (@created_token_authenticates (list string) count_tokens plain_bcrypt m_bodies "d" "t.json" id
    JNum count_dec_enc "n"%char eq_refl ltac:(discriminate) (Some localhost_info) m_create 5%Z m_api
    (match fst m_created with Ok r => r | _ => NotFound end) (snd m_created) 9%Z)
    as (fields & name & scope & expiry & H1 & H2 & H3 & H4).
  - intros p h [= <-]. by apply bool_decide_eq_true_2.
  - vm_compute. reflexivity.
  - vm_compute. reflexivity.
  - reflexivity.
  - intros l t Hl Ht. vm_compute in Hl. injection Hl as <-.
    apply list_elem_of_singleton in Ht as ->. vm_compute. reflexivity.
  - vm_compute. reflexivity.
  - exists fields, name, scope, expiry. split; [|exact (conj H2 (conj H3 H4))].
    vm_compute in H1. injection H1 as <-. vm_compute. reflexivity.
Defined.

Definition m_session : string := Issue short_hmac w_issuer "localhost" "localhost" ScopeAdmin "j" 5%Z.
Lemma local_session_is_refused_witness :
  exists m c2, AuthDispatcher "d" "t.json" id short_hmac w_issuer
    (http (m_request ("Bearer " +:+ m_session) "203.0.113.9" "GET" "/v1/peers" "")) 6%Z w_cache
    = (Ok (unauthorized m), c2).
Proof.
  apply (@local_session_is_refused (list string) count_tokens plain_bcrypt count_claims "d" "t.json" id
    short_hmac w_issuer (fun _ => None) JNum "j" 5%Z m_api
    (match fst (CreateSession short_hmac w_issuer (Some localhost_info) "j" 5%Z m_api) with
     | Ok r => r | _ => NotFound end) m_api
    (http (m_request ("Bearer " +:+ m_session) "203.0.113.9" "GET" "/v1/peers" "")) 6%Z w_cache
    count_dec_enc).
  - vm_compute. reflexivity.
  - reflexivity.
  - left. discriminate.
  - intros l Hl. vm_compute in Hl. injection Hl as <-. cbn. intros [=]%list_elem_of_singleton.
Defined.
End Witnesses.
