(* ===== verification/Exposure.v ===== *)
(** * The services behind an exposed port

    The world in which the handlers of [Ports] run in the daemon: one
    configuration manager, the client of [Caddy], the DNS manager of
    proxy/dns.go ([DNS.Proxy]) and the operating system's listeners.  The HTTP
    clients of the two, the configuration and the listeners are parameters.
    This world keeps what [PortsWorld] promises, whatever the DNS answers. *)

From S2P Require Import Prelude GoLib Config Caddy DNS Ports.

Section World.
Context {C A D O : Type} `{ConfigManager C} `{HTTPClient A} `{CaddyCodec} `{CFHTTP D} `{CFCodec} `{Listeners O}.

Record World := { cfg : C; caddyURL : string; admin : A; cloudflare : D; host_os : O }.

Definition caddy_of (w : World) : CaddyClient (C := C) (E := A) :=
  {| Caddy.cfgMgr := cfg w; baseURL := caddyURL w; net := admin w |}.
Definition set_caddy (c : CaddyClient (C := C) (E := A)) (w : World) : World :=
  {| cfg := Caddy.cfgMgr c; caddyURL := baseURL c; admin := net c; cloudflare := cloudflare w;
     host_os := host_os w |}.
Definition dns_of (w : World) : Proxy.DNSManager (C := C) (E := D) :=
  {| Proxy.cfgMgr := cfg w; Proxy.httpClient := cloudflare w |}.
Definition set_dns (d : Proxy.DNSManager (C := C) (E := D)) (w : World) : World :=
  {| cfg := Proxy.cfgMgr d; caddyURL := caddyURL w; admin := admin w;
     cloudflare := Proxy.httpClient d; host_os := host_os w |}.
Definition set_cfg (c : C) (w : World) : World :=
  {| cfg := c; caddyURL := caddyURL w; admin := admin w; cloudflare := cloudflare w;
     host_os := host_os w |}.
Definition set_os (o : O) (w : World) : World :=
  {| cfg := cfg w; caddyURL := caddyURL w; admin := admin w; cloudflare := cloudflare w;
     host_os := o |}.

#[export] Instance x_config : ConfigManager World :=
  {| cfg_get w := cfg_get (cfg w); cfg_update f := on_part cfg set_cfg (cfg_update f) |}.
#[export] Instance x_client : RouteClient World :=
  {| AddRoute host dial := on_part caddy_of set_caddy (Caddy.AddRoute host dial);
     RemoveRoute host := on_part caddy_of set_caddy (Caddy.RemoveRoute host) |}.
#[export] Instance x_dns : DNSRecords World :=
  {| CreateRecord sub := on_part dns_of set_dns (Proxy.DNSManager_CreateRecord sub);
     DeleteRecord sub := on_part dns_of set_dns (Proxy.DNSManager_DeleteRecord sub) |}.
#[export] Instance x_listeners : Listeners World :=
  {| Listen a := on_part host_os set_os (Listen a);
     CloseListener p w := set_os (CloseListener p (host_os w)) w |}.
End World.
Arguments World : clear implicits.

(** ** The laws *)

Section Laws.
Context {C A D O : Type} `{ConfigManagerLaws C} `{CaddyServer A} `{CFHTTP D} `{CFCodec} `{Listeners O}.
(** An exchange with Cloudflare ends in an answer or an error. *)
Context (cf_calm : forall method url token body, no_panic (cf_do (E := D) method url token body)).

#[local] Instance x_config_laws : ConfigManagerLaws (World C A D O).
Proof.
  split; cbn; unfold on_part.
  - intros f w w'. destruct (cfg_update f (cfg w)) as [r c] eqn:Hu. intros [= -> <-].
    exact (cfg_update_ok _ _ _ Hu).
  - intros f w e w'. destruct (cfg_update f (cfg w)) as [r c] eqn:Hu. intros [= -> <-].
    exact (cfg_update_err _ _ _ _ Hu).
  - intros f w. destruct (cfg_update_total f (cfg w)) as (r & c & -> & Hp). by exists r, (set_cfg c w).
Qed.

(** A request keeps everything of the client but the network. *)
Lemma request_keeps create on method url body :
  preserves (Caddy.cfgMgr (C := C) (E := A)) (Caddy.request create on method url body).
Proof.
  unfold request. destruct (NewRequest method url); [apply preserves_const|].
  apply preserves_bind.
  - apply preserves_wrap. intros c. unfold on_part. by destruct (Do _ _ _ _).
  - intros [code t]. case_decide; [apply preserves_const|apply preserves_ret].
Qed.

Lemma base_keeps : preserves (Caddy.cfgMgr (C := C) (E := A)) baseURLResolved.
Proof.
  assert (Hr : preserves (Caddy.cfgMgr (C := C) (E := A)) (url ← resolveBaseURL; _ ← modify (with_baseURL url); mret url)).
  { apply preserves_bind; [by intros c|intros url].
    apply preserves_bind; [by apply preserves_modify|intros _; apply preserves_ret]. }
  intros c. specialize (Hr c). unfold baseURLResolved. by destruct (decide _).
Qed.

Lemma add_keeps host dial : preserves (Caddy.cfgMgr (C := C) (E := A)) (Caddy.AddRoute host dial).
Proof.
  unfold Caddy.AddRoute. apply preserves_bind; [apply preserves_wrap, base_keeps|intros base].
  apply preserves_bind; [apply preserves_wrap, request_keeps|intros _; apply preserves_ret].
Qed.

Lemma remove_keeps host : preserves (Caddy.cfgMgr (C := C) (E := A)) (Caddy.RemoveRoute host).
Proof.
  unfold Caddy.RemoveRoute. apply preserves_bind; [apply preserves_wrap, base_keeps|intros base].
  apply preserves_bind; [apply preserves_wrap|intros idx].
  - unfold findRouteIndexLocked, listRoutesLocked. apply preserves_bind.
    + apply preserves_bind; [apply request_keeps|intros t].
      destruct (config_unmarshal t); [apply preserves_ret|apply preserves_const].
    + intros rs. destruct (find_host host rs); [apply preserves_ret|apply preserves_const].
  - apply preserves_bind; [apply preserves_wrap, request_keeps|intros _; apply preserves_ret].
Qed.

(** What the DNS manager does stays at Cloudflare. *)
Lemma by_provider_keeps f g : preserves (Proxy.cfgMgr (C := C) (E := D)) (Proxy.by_provider f g).
Proof.
  intros m. unfold Proxy.by_provider. case_decide; [|by case_decide].
  unfold on_part. by destruct (f _ _).
Qed.

Lemma by_provider_calm f g :
  (forall c, no_panic (f c)) -> (forall c p, g c <> Panic p) -> no_panic (Proxy.by_provider (C := C) (E := D) f g).
Proof.
  intros Hf Hg m p. unfold Proxy.by_provider. case_decide; [|case_decide; [by apply Hg|done]].
  unfold on_part. pose proof (Hf (cfg_get (Proxy.cfgMgr m)) (Proxy.httpClient m) p) as Hp. by destruct (f _ _).
Qed.

Lemma calm_fail b e : forall p, fail_if b e <> Panic p.
Proof. by destruct b. Qed.

Lemma send_calm bad un token method url body : no_panic (Proxy.send (E := D) bad un token method url body).
Proof.
  unfold Proxy.send. destruct (cf_request method url); [apply no_panic_throw|]. apply no_panic_wrap, cf_calm.
Qed.

Lemma answer_calm resp op : forall p, Proxy.handleCFResponse resp op <> Panic p.
Proof. destruct resp as [code body]. unfold Proxy.handleCFResponse. case_match; apply calm_fail. Qed.

Lemma find_calm token zone name : no_panic (Proxy.findCloudflareRecord (E := D) token zone name).
Proof.
  unfold Proxy.findCloudflareRecord. apply no_panic_bind; [apply send_calm|intros [code body]].
  case_decide; [apply no_panic_throw|]. repeat case_match; (apply no_panic_throw || apply no_panic_ret).
Qed.

Ltac calm := repeat first
  [ apply find_calm | apply send_calm | apply no_panic_ret | apply no_panic_throw | apply no_panic_wrap
  | apply no_panic_lift; first [apply calm_fail | apply answer_calm]
  | apply no_panic_bind; [|intros ?] | case_match ].

Lemma createRecord_calm c sub : no_panic (Proxy.createCloudflareRecord (E := D) c sub).
Proof. unfold Proxy.createCloudflareRecord, Proxy.updateCloudflareRecord. calm. Qed.
Lemma deleteRecord_calm c sub : no_panic (Proxy.deleteCloudflareRecord (E := D) c sub).
Proof. unfold Proxy.deleteCloudflareRecord. calm. Qed.

Lemma dns_calm (m : eff (Proxy.DNSManager (C := C) (E := D)) unit) :
  no_panic m -> no_panic (on_part (dns_of (A := A) (O := O)) set_dns m).
Proof. intros Hm w p. unfold on_part. specialize (Hm (dns_of w) p). by destruct (m (dns_of w)). Qed.

Definition routes_of (w : World C A D O) : list caddyRouteJSON := default [] (srv0 (admin w)).

Lemma dns_frame (m : eff (Proxy.DNSManager (C := C) (E := D)) unit) :
  preserves Proxy.cfgMgr m ->
  preserves (fun w => (cfg_get w, routes_of w)) (on_part (dns_of (A := A) (O := O)) set_dns m).
Proof.
  intros Hm w. unfold on_part. specialize (Hm (dns_of w)). destruct (m (dns_of w)) as [r d].
  cbn in *. by rewrite Hm.
Qed.

Lemma caddy_frame {B} (m : eff (CaddyClient (C := C) (E := A)) B) :
  preserves Caddy.cfgMgr m -> preserves cfg_get (on_part (caddy_of (D := D) (O := O)) set_caddy m).
Proof.
  intros Hm w. unfold on_part. specialize (Hm (caddy_of w)). destruct (m (caddy_of w)) as [r d].
  cbn in *. by rewrite Hm.
Qed.

(** The services of the daemon keep what the handlers rely on. *)
#[local, refine] Instance x_world : PortsWorld (World C A D O) := {| served := routes_of |}.
Proof.
  - intros host dial w w'. cbn. unfold on_part.
    destruct (Caddy.AddRoute host dial (caddy_of w)) as [r c] eqn:Ha. intros [= -> <-].
    exact (add_ok_routes _ _ _ _ Ha).
  - intros host w w'. cbn. unfold on_part.
    destruct (Caddy.RemoveRoute host (caddy_of w)) as [r c] eqn:Hr. intros [= -> <-].
    exact (remove_route_position _ _ _ Hr).
  - intros host dial. apply caddy_frame, add_keeps.
  - intros host. apply caddy_frame, remove_keeps.
  - intros sub. apply dns_frame, by_provider_keeps.
  - intros sub. apply dns_frame, by_provider_keeps.
  - intros sub. apply dns_calm, by_provider_calm; [intros c; apply createRecord_calm|done].
  - intros sub. apply dns_calm, by_provider_calm; [intros c; apply deleteRecord_calm|done].
  - intros a w. cbn. unfold on_part. by destruct (Listen a (host_os w)).
  - by intros p w.
  - intros f w. cbn. unfold on_part. by destruct (cfg_update f (cfg w)).
Defined.

(** ** When the services answer *)

(** The address the client of Caddy uses; empty when it has none. *)
Definition base_of (w : World C A D O) : string :=
  if decide (caddyURL w <> EmptyString) then caddyURL w
  else if decide (Address (CaddyAPI (cfg_get (cfg w))) <> EmptyString) then Address (CaddyAPI (cfg_get (cfg w)))
  else if decide (ServerIP (Tunnel (cfg_get (cfg w))) = EmptyString) then EmptyString
  else "http://" +:+ JoinHostPort (ServerIP (Tunnel (cfg_get (cfg w)))) "2019".

(** Caddy at that address answers: it shows its configuration, takes a route
    and removes one that is there. *)
Record caddy_answers (base : string) : Prop := {
  ca_new method path : NewRequest (E := A) method (base +:+ path) = None;
  ca_get (e : A) : exists code text e',
    Do "GET" (base +:+ "/config/") EmptyString e = (Ok (code, text), e') /\ (code < 400)%Z;
  ca_post r (e : A) : exists code text e',
    Do "POST" (base +:+ routesPath) (route_marshal r) e = (Ok (code, text), e') /\ (code < 400)%Z;
  ca_delete i (e : A) : i < length (default [] (srv0 e)) -> exists code text e',
    Do "DELETE" (base +:+ routesPath +:+ "/" +:+ Itoa (Z.of_nat i)) EmptyString e = (Ok (code, text), e') /\
    (code < 400)%Z
}.

Section Up.
Context (base : string) (Hbase : base <> EmptyString) (Hcaddy : caddy_answers base).
Context (Hlisten : forall a, succeeds (W := O) (Listen a)).
Context (Hdisk : forall f, succeeds (W := C) (cfg_update f)).

Lemma resolved w : base_of w = base -> exists c,
  baseURLResolved (caddy_of w) = (Ok base, c) /\ Caddy.cfgMgr c = cfg w /\ net c = admin w /\ baseURL c = base.
Proof.
  unfold base_of, baseURLResolved. cbn [baseURL caddy_of]. intros Hb.
  destruct (decide (caddyURL w <> EmptyString)) as [Hu|Hu].
  - exists (caddy_of w). cbn. by rewrite Hb.
  - unfold resolveBaseURL, modify, mbind, eff_bind. cbn [Caddy.cfgMgr caddy_of].
    repeat case_decide; try (by destruct Hbase); rewrite Hb; eexists; by split_and!.
Qed.

(** One exchange with Caddy. *)
Lemma request_up create on method path body c code text e' :
  Do method (base +:+ path) body (net c) = (Ok (code, text), e') -> (code < 400)%Z ->
  Caddy.request (C := C) create on method (base +:+ path) body c = (Ok text, with_net e' c).
Proof.
  intros Hd Hc. unfold request. rewrite (ca_new _ Hcaddy). unfold wrap, on_part, mbind, eff_bind.
  rewrite Hd. cbn [wrap_err]. by rewrite decide_False by lia.
Qed.

Lemma add_up host dial w : base_of w = base ->
  exists w', AddRoute host dial w = (Ok tt, w') /\ base_of w' = base.
Proof.
  intros (c & Hr & Hc & Hn & Hb)%resolved.
  destruct (ca_post _ Hcaddy (route_for host dial) (net c)) as (code & text & e' & Hd & Hcode).
  exists (set_caddy (with_net e' c) w). split.
  - cbn. unfold on_part, Caddy.AddRoute, wrap, mbind, eff_bind. rewrite Hr. cbn [wrap_err].
    by rewrite (request_up _ _ _ _ _ _ _ _ _ Hd Hcode).
  - unfold base_of. cbn. rewrite Hb. by rewrite decide_True.
Qed.

Lemma remove_up host w : base_of w = base -> Exists (fun r => Caddy.matches host r = true) (routes_of w) ->
  exists w', RemoveRoute host w = (Ok tt, w').
Proof.
  intros (c & Hr & Hc & Hn & Hb)%resolved Hex.
  destruct (ca_get _ Hcaddy (net c)) as (code & text & e' & Hd & Hcode).
  assert (Hl : listRoutesLocked base c = (Ok (host_routes (routes_of w)), with_net e' c)).
  { destruct (caddy_get _ _ _ _ _ Hd Hcode) as (k & Hk & Hs & _).
    unfold listRoutesLocked, mbind, eff_bind. rewrite (request_up _ _ _ _ _ _ _ _ _ Hd Hcode), Hk, Hs.
    unfold routes_of. rewrite Hn. by destruct (srv0 (admin w)). }
  destruct (find_host host (host_routes (routes_of w))) as [i|] eqn:Hf.
  2: { exfalso. rewrite find_host_none, list.Forall_forall in Hf. apply list.Exists_exists in Hex as (r & Hin & Hm).
       by rewrite (Hf _ Hin) in Hm. }
  assert (Hi : i < length (default [] (srv0 e'))).
  { destruct (caddy_get _ _ _ _ _ Hd Hcode) as (k & _ & _ & ->). rewrite Hn. fold (routes_of w).
    apply find_host_position in Hf as (l1 & r & l2 & -> & _ & _ & ->). rewrite length_app. cbn. lia. }
  destruct (ca_delete _ Hcaddy i e' Hi) as (code2 & text2 & e2 & Hd2 & Hcode2).
  eexists. cbn. unfold on_part, Caddy.RemoveRoute, findRouteIndexLocked, wrap, mbind at 1, eff_bind at 1.
  rewrite Hr. cbn [wrap_err]. unfold mbind at 1, eff_bind at 1, mbind at 1, eff_bind at 1. rewrite Hl, Hf.
  cbn [wrap_err mret eff_ret]. unfold mbind, eff_bind.
  rewrite (request_up _ _ _ (routesPath +:+ "/" +:+ Itoa (Z.of_nat i)) _ (with_net e' c) _ _ _ Hd2 Hcode2).
  cbn. reflexivity.
Qed.

Lemma daemon_up : services_up (W := World C A D O) (fun w => base_of w = base).
Proof.
  split.
  - apply add_up.
  - intros a w Hw. destruct (Hlisten a (host_os w)) as (p & o & Hl).
    exists p, (set_os o w). cbn. unfold on_part. by rewrite Hl.
  - intros p w Hw. destruct (Hdisk (add_port p) (cfg w)) as ([] & c & Hu).
    exists (set_cfg c w). cbn. unfold on_part. rewrite Hu. split; [done|].
    unfold base_of in *. cbn in *. rewrite (cfg_update_ok _ _ _ Hu). unfold add_port.
    by destruct (taken _ _).
  - intros sub w Hw. pose proof (create_frame sub w) as Hf. cbv beta in Hf. injection Hf as Hc _.
    cbn in *. unfold on_part in *. unfold base_of in *.
    destruct (Proxy.DNSManager_CreateRecord _ _) as [rc d]. cbn in *. by rewrite Hc.
  - apply remove_up.
Qed.
End Up.

(** *** What clients are served *)

(** C29: the daemon refuses a request for a subdomain that is in use with 409,
    and gives it the traffic of the service that has it.  Caddy, the listeners
    and the disk answer; the DNS, in whatever mode, answers as it likes.  The
    configuration is as it was, but at Caddy the first route that matches the
    host is gone, the route to the request's own proxy stays, last, and that
    proxy runs on.  No route without a host may stand before the first. *)
Theorem rejected_duplicate_takes_over base req req' id now
    (h : PortsHandler (W := World C A D O)) l1 r l2 :
  base <> EmptyString -> caddy_answers base -> base_of (world h) = base ->
  (forall a, succeeds (W := O) (Listen a)) -> (forall f, succeeds (W := C) (cfg_update f)) ->
  create_check req (cfg_of h) = inr req' -> taken (Subdomain req') (ports h) = true ->
  let host := full_host (Zone (DNS (cfg_of h))) (Subdomain req') in
  srv0 (admin (world h)) = Some (l1 ++ r :: l2) -> Caddy.matches host r = true ->
  Forall (fun r => Caddy.matches host r = false) l1 -> List.filter hostless l1 = [] ->
  exists a h' port,
    handleCreate req id now h = (Ok a, h') /\ code a = 409%Z /\ cfg_of h' = cfg_of h /\
    default [] (srv0 (admin (world h')))
      = l1 ++ l2 ++ [route_for host (LocalIP (Tunnel (cfg_of h)) +:+ ":" +:+ Itoa port)] /\
    (exists px, proxies h' !! id = Some px /\ running px = true /\ listenPort px = port).
Proof.
  intros Hb Hca Hw Hl Hd Hck Ht host Hs.
  apply (duplicate_takes_over _ req req' id now h l1 r l2 (daemon_up base Hb Hca Hl Hd) Hw Hck Ht).
  cbn. unfold routes_of. by rewrite Hs.
Qed.

(** A request answered 201 has its route at Caddy, behind those that were
    there. *)
Theorem created_is_routed req id now (h h' : PortsHandler (W := World C A D O)) a :
  handleCreate req id now h = (Ok a, h') -> code a = 201%Z ->
  exists req' port, create_check req (cfg_of h) = inr req' /\
    routes_of (world h') = routes_of (world h) ++
      [route_for (full_host (Zone (DNS (cfg_of h))) (Subdomain req'))
                 (LocalIP (Tunnel (cfg_of h)) +:+ ":" +:+ Itoa port)].
Proof.
  intros [E|[_ Hc]]%create_cases Ha; [|lia].
  destruct E as (req' & port & px & w1 & Hck & _ & Hst & E). exists req', port. split; [done|].
  assert (H1 : routes_of w1 = routes_of (world h)).
  { unfold Start, NewLocalTCPProxy, wrap, mbind, eff_bind in Hst. cbn [running tunnelIP] in Hst.
    pose proof (listen_frame (LocalIP (Tunnel (cfg_of h)) +:+ ":0") (world h)) as Hf.
    cbv beta in Hf. destruct (Listen _ (world h)) as [[p|e|e] w2]; try done.
    injection Hst as _ _ <-. by injection Hf. }
  destruct (AddRoute _ _ w1) as [rr w2] eqn:Hr. destruct rr as [[]|e|e]; cbn [is_ok andb] in E.
  2,3: destruct E as (_ & _ & Hc & _); rewrite Ha in Hc; lia.
  pose proof (add_ok _ _ _ _ Hr) as Hs2. pose proof (create_frame (Subdomain req') w2) as Hf. cbv beta in Hf.
  destruct (CreateRecord (Subdomain req') w2) as [rc w3]. injection Hf as _ Hs3.
  destruct E as (-> & _). transitivity (routes_of w3); [exact (update_frame _ w3)|].
  cbn in *. congruence.
Qed.
End Laws.

(** ** Witnesses: Caddy in memory, and the DNS set up by hand *)

Section Witnesses.
#[local] Existing Instances plain_config plain_config_laws m_listeners.

Lemma cloud_calm method url token body : no_panic (cf_do (E := Cloud) method url token body).
Proof.
  intros e p. cbn. unfold cloud_do. repeat case_match; done.
Qed.

(** The DNS in manual mode, two ports exposed. *)
Definition w_hand : RootConfig :=
  let c := w_cfg [w_port "p1" "app"; w_port "p2" "db"] in
  {| VPS := VPS c; Tunnel := Tunnel c; CaddyAPI := CaddyAPI c; ExposedPorts := ExposedPorts c;
     DNS := {| Provider := "manual"; Token := Token (DNS c); Zone := Zone (DNS c) |};
     Daemon := Daemon c; RemoteAPI := RemoteAPI c; ServerMirror := ServerMirror c; UIToken := UIToken c |}.
Definition w_daemon : World RootConfig (option (list caddyRouteJSON)) Cloud memory :=
  {| cfg := w_hand; caddyURL := "http://10.8.1.1:2019";
     admin := Some [route_for "db.example.com" "10.8.1.2:40001"; route_for "app.example.com" "10.8.1.2:40000"];
     cloudflare := []; host_os := w_memory |}.
Definition w_ports : PortsHandler := NewPortsHandler w_daemon.

Lemma memory_answers base : caddy_answers (A := option (list caddyRouteJSON)) base.
Proof.
  split.
  - done.
  - intros e. by eexists 200%Z, _, e.
  - intros r e. cbn. rewrite count_dec_enc. by eexists 200%Z, _, _.
  - intros i e _. cbn [Do memory_http]. rewrite !decide_False by done.
    rewrite <- (sapp_assoc base routesPath).
    change ("/" +:+ Itoa (Z.of_nat i)) with (String "/" (Itoa (Z.of_nat i))).
    rewrite last_segment_app by (apply Itoa_free_of; done). cbn [mbind option_bind].
    unfold Itoa. destruct (Z.ltb_spec (Z.of_nat i) 0); [lia|]. rewrite parse_digits_of.
    by eexists 200%Z, _, _.
Qed.

(** A second [app] is refused and gets the traffic of the first. *)
Lemma rejected_duplicate_takes_over_witness :
  exists a h' port,
    handleCreate (Some (w_req "app")) "p3" "t" w_ports = (Ok a, h') /\ code a = 409%Z /\
    cfg_of h' = w_hand /\
    default [] (admin (world h')) =
      [route_for "db.example.com" "10.8.1.2:40001"; route_for "app.example.com" ("10.8.1.2:" +:+ Itoa port)] /\
    (exists px, proxies h' !! "p3" = Some px /\ running px = true /\ listenPort px = port).
Proof.
  destruct (rejected_duplicate_takes_over cloud_calm "http://10.8.1.1:2019" (Some (w_req "app")) (w_req "app")
           "p3" "t" w_ports [route_for "db.example.com" "10.8.1.2:40001"]
           (route_for "app.example.com" "10.8.1.2:40000") []) as (a & h' & port & H1 & H2 & H3 & H4 & H5).
  - discriminate.
  - apply memory_answers.
  - reflexivity.
  - intros a w. by eexists _, _.
  - intros f w. by eexists _, _.
  - vm_compute. reflexivity.
  - vm_compute. reflexivity.
  - reflexivity.
  - vm_compute. reflexivity.
  - repeat constructor.
  - reflexivity.
  - exists a, h', port. split; [exact H1|]. split; [exact H2|]. split; [exact H3|].
    split; [exact H4|]. exact H5.
Defined.

Lemma created_is_routed_witness :
  exists req' port, create_check (Some (w_req "web")) w_hand = inr req' /\
    routes_of (world (snd (handleCreate (Some (w_req "web")) "p3" "t" w_ports))) = routes_of w_daemon ++
      [route_for (full_host "example.com" (Subdomain req')) ("10.8.1.2:" +:+ Itoa port)].
Proof.
  destruct (created_is_routed cloud_calm (Some (w_req "web")) "p3" "t" w_ports
    (snd (handleCreate (Some (w_req "web")) "p3" "t" w_ports))
    (match fst (handleCreate (Some (w_req "web")) "p3" "t" w_ports) with
     | Ok r => r | _ => writeError 0 "" "" end)) as (req' & port & H1 & H2).
  - vm_compute. reflexivity.
  - vm_compute. reflexivity.
  - exists req', port. split; [exact H1|]. exact H2.
Defined.
End Witnesses.
