(* ===== verification/Adapters.v ===== *)
(** * api/adapters: the remote API's back end

    The three adapters behind the interfaces of [RemoteAPI]: tunnel status,
    routes and peers.  They share the tunnel manager of [Tunnel], whose
    configuration manager is the world of [Ports]: the configuration, the
    reverse proxy, the DNS records and the listening sockets.  UUIDs and the
    clock are drawn from the back end's own stream. *)

From S2P Require Import Prelude GoLib Regexp ServerConfig Peer AWG Config Tunnel DNS Ports RemoteAPI.

(** ** Routes *)

Definition List_fqdn (zone host : string) : string :=
  if negb (bool_decide (zone = "")) then host +:+ "." +:+ zone else host.

Definition route_view (zone : string) (p : ExposedPort) : RouteView :=
  {| RVID := Config.ID p; RVSubdomain := HostHeader p; RVLocalPort := Internal p;
     RVStatus := PortStatus p; FQDN := List_fqdn zone (HostHeader p); RVCreatedAt := Config.CreatedAt p |}.

(** The last callback: the first entry with the ID. *)
Definition drop_id (id : string) (c : RootConfig) : RootConfig :=
  match find_id id (ExposedPorts c) with
  | Some i => set_ExposedPorts (delete i (ExposedPorts c)) c
  | None => c
  end.

Section RouteAdapter.
Context {W : Type} `{ConfigManager W} `{RouteClient W} `{DNSRecords W} `{Listeners W}.

Definition RouteAdapter_List (w : W) : result (list RouteView) :=
  Ok (map (route_view (Zone (DNS (cfg_get w)))) (ExposedPorts (cfg_get w))).

(** A call whose error is dropped. *)
Definition quietly (m : eff W unit) : eff W bool := r ← try m; mret (is_ok r).

Definition undo (host subdomain : string) (dnsCreated : bool) : eff W unit :=
  _ ← quietly (RemoveRoute host);
  _ ← (if dnsCreated then quietly (DeleteRecord subdomain) else mret false);
  mret tt.

Definition new_route (routeID now subdomain : string) (port : Z) (st : string) : ExposedPort :=
  {| Config.ID := routeID; Config.Protocol := "http"; Internal := port; HostHeader := subdomain;
     PortStatus := st; Config.CreatedAt := now |}.

(** The update under the configuration's lock, and what follows. *)
Definition route_commit (host : string) (dnsCreated : bool) (newPort : ExposedPort) (zone : string)
  : eff W RouteView := fun w =>
  let dup := taken (HostHeader newPort) (ExposedPorts (cfg_get w)) in
  (saved ← try (cfg_update (add_port newPort));
   match saved with
   | Ok _ =>
       if (dup : bool)
       then _ ← undo host (HostHeader newPort) dnsCreated;
            throw ("subdomain conflict: " +:+ HostHeader newPort +:+ " already in use")
       else mret (route_view zone newPort)
   | Err e | Panic e =>
       _ ← undo host (HostHeader newPort) dnsCreated; throw ("failed to save route: " +:+ e)
   end) w.

Definition RouteAdapter_Create (routeID now subdomain : string) (port : Z) : eff W RouteView := fun w =>
  let cfg := cfg_get w in
  (if decide (Config.Status (Config.Tunnel cfg) <> "connected") then throw "tunnel not connected" else
   if taken subdomain (ExposedPorts cfg)
   then throw ("subdomain conflict: " +:+ subdomain +:+ " already in use") else
   let localIP := LocalIP (Config.Tunnel cfg) in
   '(proxyPort, _) ← wrap "failed to start local proxy: "
      (Start (NewLocalTCPProxy localIP ("127.0.0.1:" +:+ Itoa port)));
   let zone := Zone (DNS cfg) in
   let host := full_host zone subdomain in
   routed ← quietly (AddRoute host (localIP +:+ ":" +:+ Itoa proxyPort));
   dnsCreated ← (if (routed : bool) then quietly (CreateRecord subdomain) else mret false);
   route_commit host dnsCreated
     (new_route routeID now subdomain port (if dnsCreated : bool then "active" else "error")) zone) w.

Definition RouteAdapter_Delete (id : string) : eff W unit := fun w =>
  let cfg := cfg_get w in
  match find_id id (ExposedPorts cfg) ≫= (fun i => ExposedPorts cfg !! i) with
  | None => (Err ("route not found: " +:+ id), w)
  | Some target =>
      (_ ← quietly (RemoveRoute (full_host (Zone (DNS cfg)) (HostHeader target)));
       _ ← quietly (DeleteRecord (HostHeader target));
       cfg_update (drop_id id)) w
  end.
End RouteAdapter.

(** ** Tunnel and peers *)

Section PeerAdapter.
Context {W E : Type} `{ConfigManager W} `{RouteClient W} `{DNSRecords W} `{Listeners W}.
Context `{SSHExecutor E} `{LocalHost E} `{TableCodec} `{MirrorCodec}.
Context (awg : AWGCli) (sha256_hex : string -> string).
Abbreviation M := (Tunnel.Manager (C := W) (E := E)).

Definition TunnelAdapter_GetConfig (m : M) : TunnelConfigView :=
  let t := Config.Tunnel (cfg_get (cfgMgr m)) in
  {| TLocalIP := LocalIP t; TServerIP := ServerIP t; TServerEndpoint := ServerEndpoint t;
     TStatus := Config.Status t; TConnectedAt := ConnectedAt t |}.

Definition peer_view (id name created : string) : PeerView :=
  {| PVID := id; PVName := name; PublicKey := ""; AllowedIP := ""; CreatedVia := "api";
     PVCreatedAt := created; Connected := false; LastHandshake := ""; TransferRx := 0; TransferTx := 0 |}.

(** A mirror or a table that does not parse is an empty list. *)
Definition PeerAdapter_List (m : M) : result (list PeerView) :=
  match ParseServerMirror (ServerMirror (cfg_get (cfgMgr m))) with
  | Ok mirror =>
      match ClientsTable mirror ≫= table_unmarshal with
      | Some clients =>
          Ok (map (fun c => peer_view (ClientID c) (ClientName (cUserData c)) (CreationDate (cUserData c)))
                clients)
      | None => Ok []
      end
  | _ => Ok []
  end.

Definition peer_matches (id : string) (p : PeerView) : bool :=
  bool_decide (PVID p = id) || HasPrefix (PVName p) id.
Definition PeerAdapter_GetByID (id : string) (m : M) : result PeerDetailView :=
  peers ← PeerAdapter_List m;
  match List.find (peer_matches id) peers with
  | Some p => Ok {| pd_view := p; ClientConfig := "" |}
  | None => Err ("peer not found: " +:+ id)
  end.

(** The subnet read afterwards makes no difference to the answer. *)
Definition PeerAdapter_Create (now name : string) : eff M PeerDetailView := fun m =>
  if negb (Tunnel.IsConnected m) then (Err "tunnel not connected — cannot create peer", m) else
  (pubKey ← AddPeerForRemote awg sha256_hex name;
   mret {| pd_view := peer_view pubKey name now; ClientConfig := "" |}) m.

Definition PeerAdapter_Delete (id : string) : eff M unit := fun m =>
  if negb (Tunnel.IsConnected m) then (Err "tunnel not connected — cannot delete peer", m) else
  RemovePeerByPublicKey id m.

(** The back end, with the UUIDs and time stamps to come. *)
Record Backend := { mgr : M; stamps : nat -> string * string; used : nat }.
Definition with_mgr (m : M) (b : Backend) : Backend :=
  {| mgr := m; stamps := stamps b; used := used b |}.
Definition stamp : eff Backend (string * string) := fun b =>
  (Ok (stamps b (used b)), {| mgr := mgr b; stamps := stamps b; used := S (used b) |}).
Definition on_mgr {A} (m : eff M A) : eff Backend A := on_part mgr with_mgr m.
Definition on_cfg {A} (m : eff W A) : eff Backend A := on_mgr (on_part cfgMgr with_cfg m).

#[export] Instance peer_adapter : PeerMutator Backend := {|
  peers_List b := PeerAdapter_List (mgr b);
  peers_GetByID id b := PeerAdapter_GetByID id (mgr b);
  peers_Create name := '(_, now) ← stamp; on_mgr (PeerAdapter_Create now name);
  peers_Delete id := on_mgr (PeerAdapter_Delete id) |}.
#[export] Instance route_adapter : RouteMutator Backend := {|
  routes_List b := RouteAdapter_List (cfgMgr (mgr b));
  routes_Create subdomain port := '(id, now) ← stamp; on_cfg (RouteAdapter_Create id now subdomain port);
  routes_Delete id := on_cfg (RouteAdapter_Delete id) |}.
#[export] Instance tunnel_adapter : TunnelStatusProvider Backend := {|
  tunnel_Status b := Tunnel.Status (mgr b);
  tunnel_IsConnected b := Tunnel.IsConnected (mgr b);
  tunnel_GetConfig b := TunnelAdapter_GetConfig (mgr b) |}.
End PeerAdapter.

(** ** Lemmas *)

Section Facts.
Context {W : Type} `{PortsWorld W} `{!ConfigManagerLaws W}.
Implicit Types w : W.
Abbreviation ports_of w := (ExposedPorts (cfg_get w)).

Lemma preserves_quietly {A} (f : W -> A) m : preserves f m -> preserves f (quietly m).
Proof. intros Hm. unfold quietly. apply preserves_bind; [by apply preserves_try|intros; apply preserves_ret]. Qed.

Lemma cfg_AddRoute host up : preserves cfg_get (AddRoute host up).
Proof. apply add_frame. Qed.
Lemma cfg_RemoveRoute host : preserves cfg_get (RemoveRoute host).
Proof. apply remove_frame. Qed.
Lemma cfg_CreateRecord sub : preserves cfg_get (CreateRecord sub).
Proof. apply (preserves_via fst _ _ _ (fun _ => eq_refl) (create_frame sub)). Qed.
Lemma cfg_DeleteRecord sub : preserves cfg_get (DeleteRecord sub).
Proof. apply (preserves_via fst _ _ _ (fun _ => eq_refl) (delete_frame sub)). Qed.

Lemma cfg_undo host sub b : preserves cfg_get (undo host sub b).
Proof.
  unfold undo. apply preserves_bind; [apply preserves_quietly, cfg_RemoveRoute|intros _].
  apply preserves_bind; [|intros; apply preserves_ret].
  destruct b; [apply preserves_quietly, cfg_DeleteRecord|apply preserves_ret].
Qed.

Lemma quietly_run (m : eff W unit) w :
  quietly m w = match m w with
                | (Ok _, w') => (Ok true, w') | (Err _, w') => (Ok false, w') | (Panic p, w') => (Panic p, w')
                end.
Proof. unfold quietly, try, mbind, eff_bind. by destruct (m w) as [[[]|e|p] w']. Qed.

Lemma quiet_step (m : eff W unit) w : preserves cfg_get m ->
  (exists b w', quietly m w = (Ok b, w') /\ cfg_get w' = cfg_get w /\ (b = true -> m w = (Ok tt, w'))) \/
  exists e w', quietly m w = (Panic e, w').
Proof.
  intros Hm. specialize (Hm w). unfold quietly, try, mbind, eff_bind.
  destruct (m w) as [[[]|e|p] w']; [left; by exists true, w'|left; by exists false, w'|right; by exists p, w'].
Qed.

(** An update that fails leaves the entries, one that succeeds applies the
    callback. *)
Lemma route_commit_outcome host b p zone w res w' : route_commit host b p zone w = (res, w') ->
  match res with
  | Ok v => v = route_view zone p /\ taken (HostHeader p) (ports_of w) = false /\
            w' = snd (cfg_update (add_port p) w) /\
            cfg_get w' = set_ExposedPorts (ports_of w ++ [p]) (cfg_get w)
  | Err _ => cfg_get w' = cfg_get w
  | Panic _ => True
  end.
Proof.
  unfold route_commit, try, mbind, eff_bind.
  destruct (cfg_update_total (add_port p) w) as (r & w1 & Hu & Hp). rewrite Hu in *.
  destruct r as [[]|e|m]; [| |by destruct (Hp m)].
  - apply cfg_update_ok in Hu. unfold add_port in Hu.
    destruct (taken (HostHeader p) (ports_of w)) eqn:Ht.
    + pose proof (cfg_undo host (HostHeader p) b w1) as Hk.
      destruct (undo host (HostHeader p) b w1) as [[]  w2]; intros [= <- <-]; cbn [snd] in *; (done || congruence).
    + by intros [= <- <-].
  - apply cfg_update_err in Hu. pose proof (cfg_undo host (HostHeader p) b w1) as Hk.
    destruct (undo host (HostHeader p) b w1) as [[]  w2]; intros [= <- <-]; cbn [snd] in *; (done || congruence).
Qed.

(** What creating a route over the remote API amounts to.  It succeeds
    only with the tunnel connected and the name free; then the listener was
    opened, the route asked for and, when that went well, the record, each from
    the world the last one left, the entry it shows is the one appended to the
    configuration, and it is active exactly when both were made.  When it fails,
    the configuration is as before. *)
Theorem route_create_outcome id now sub port w res w' :
  RouteAdapter_Create id now sub port w = (res, w') ->
  match res with
  | Ok v => Config.Status (Config.Tunnel (cfg_get w)) = "connected" /\ taken sub (ports_of w) = false /\
      exists proxyPort px w1,
        let ip := LocalIP (Config.Tunnel (cfg_get w)) in
        Start (NewLocalTCPProxy ip ("127.0.0.1:" +:+ Itoa port)) w = (Ok (proxyPort, px), w1) /\
        let '(routed, w2) :=
          AddRoute (full_host (Zone (DNS (cfg_get w))) sub) (ip +:+ ":" +:+ Itoa proxyPort) w1 in
        let '(named, w3) := if is_ok routed then CreateRecord sub w2 else (Err EmptyString, w2) in
        let p := new_route id now sub port (if is_ok routed && is_ok named then "active" else "error") in
        v = route_view (Zone (DNS (cfg_get w))) p /\
        w' = snd (cfg_update (add_port p) w3) /\
        cfg_get w' = set_ExposedPorts (ports_of w ++ [p]) (cfg_get w)
  | Err _ => cfg_get w' = cfg_get w
  | Panic _ => True
  end.
Proof.
  unfold RouteAdapter_Create. case_decide as Hst; [by intros [= <- <-]|].
  destruct (taken sub (ports_of w)) eqn:Ht; [by intros [= <- <-]|]. cbv zeta.
  set (px := NewLocalTCPProxy _ _). pose proof (keeps_start px w) as Hk.
  unfold wrap, mbind at 1, eff_bind at 1.
  destruct (Start px w) as [[[pp px']|e|e] w1]; [|by intros [= <- <-]..]. cbn [wrap_err snd] in *.
  set (host := full_host _ _). set (up := _ +:+ _).
  intros Hc.
  assert (Hend : forall b w3, cfg_get w3 = cfg_get w -> route_commit host b
      (new_route id now sub port (if b : bool then "active" else "error")) (Zone (DNS (cfg_get w))) w3 = (res, w') ->
    match res with
    | Ok v => v = route_view (Zone (DNS (cfg_get w))) (new_route id now sub port (if b then "active" else "error")) /\
        w' = snd (cfg_update (add_port (new_route id now sub port (if b then "active" else "error"))) w3) /\
        cfg_get w' = set_ExposedPorts (ports_of w ++ [new_route id now sub port (if b then "active" else "error")]) (cfg_get w)
    | Err _ => cfg_get w' = cfg_get w
    | Panic _ => True
    end).
  { intros b w3 Hw3 Hcm. apply route_commit_outcome in Hcm. rewrite Hw3 in Hcm.
    destruct res; [|done..]. destruct Hcm as (H1 & _ & H2 & H3). done. }
  pose proof (cfg_AddRoute host up w1) as Hk2.
  destruct (AddRoute host up w1) as [rr w2] eqn:Ea. cbn [snd] in Hk2.
  destruct rr as [[]|e|e].
  - cbv beta iota in Hc. rewrite (bind_ok _ _ _ _ _ (eq_trans (quietly_run _ _) ltac:(rewrite Ea; reflexivity))) in Hc.
    pose proof (cfg_CreateRecord sub w2) as Hk3. cbv iota in Hc.
    unfold mbind, eff_bind in Hc. rewrite quietly_run in Hc.
    destruct (CreateRecord sub w2) as [rc w3] eqn:Ec. cbn [snd] in Hk3.
    destruct rc as [[]|e|e]; [apply (Hend true w3) in Hc; [|congruence]|
                              apply (Hend false w3) in Hc; [|congruence]|by injection Hc as <- <-].
    all: destruct res as [v|e'|e']; [|done..]; repeat (split; [done|]); exists pp, px', w1;
      split; [done|]; fold host up; rewrite Ea; cbn [is_ok]; rewrite Ec; done.
  - rewrite (bind_ok _ _ _ _ _ (eq_trans (quietly_run _ _) ltac:(rewrite Ea; reflexivity))) in Hc.
    apply (Hend false w2) in Hc; [|congruence].
    destruct res as [v|e'|e']; [|done..]; repeat (split; [done|]); exists pp, px', w1;
      split; [done|]; fold host up; rewrite Ea; done.
  - unfold mbind at 1, eff_bind at 1 in Hc. rewrite quietly_run, Ea in Hc. by injection Hc as <- <-.
Qed.

Lemma drop_id_keeps id c q :
  q ∈ ExposedPorts c -> Config.ID q <> id -> q ∈ ExposedPorts (drop_id id c).
Proof.
  intros Hq Hne. unfold drop_id. destruct (find_id id (ExposedPorts c)) as [i|] eqn:Hf; [|done].
  apply find_id_spec in Hf as (p & Hp & Hid). cbn. apply list_elem_of_lookup in Hq as [k Hk].
  assert (k <> i) by congruence. apply list_elem_of_lookup.
  destruct (decide (k < i)); [exists k; by rewrite list_lookup_delete_lt|].
  exists (k - 1). rewrite list_lookup_delete_ge by lia. by replace (S (k - 1)) with k by lia.
Qed.

(** Deleting a route over the remote API.  No entry with another ID is
    ever lost, whatever the services answer; a success means that an entry had
    the ID and, the IDs being different, that none has it now; a failure leaves
    the configuration as it was. *)
Theorem route_delete_only_own id w res w' :
  RouteAdapter_Delete id w = (res, w') ->
  (forall q, q ∈ ports_of w -> Config.ID q <> id -> q ∈ ports_of w') /\
  match res with
  | Ok _ => (id ∈ map Config.ID (ports_of w)) /\
            (NoDup (map Config.ID (ports_of w)) -> id ∉ map Config.ID (ports_of w'))
  | _ => cfg_get w' = cfg_get w
  end.
Proof.
  unfold RouteAdapter_Delete. destruct (find_id id (ports_of w)) as [i|] eqn:Hf; [|by intros [= <- <-]].
  apply find_id_spec in Hf as Hp. destruct Hp as (t & Hi & Hid). cbn [mbind option_bind]. rewrite Hi.
  destruct (quiet_step _ w (cfg_RemoveRoute (full_host (Zone (DNS (cfg_get w))) (HostHeader t))))
    as [(b & w1 & E1 & Hk1 & _)|(e & w1 & E1)].
  2: { unfold mbind, eff_bind. pose proof (preserves_quietly cfg_get _ (cfg_RemoveRoute
         (full_host (Zone (DNS (cfg_get w))) (HostHeader t))) w) as Hk.
       rewrite E1 in *. cbn in Hk. intros [= <- <-]. by rewrite Hk. }
  rewrite (bind_ok _ _ _ _ _ E1).
  destruct (quiet_step _ w1 (cfg_DeleteRecord (HostHeader t))) as [(b2 & w2 & E2 & Hk2 & _)|(e & w2 & E2)].
  2: { unfold mbind, eff_bind. pose proof (preserves_quietly cfg_get _ (cfg_DeleteRecord (HostHeader t)) w1) as Hk.
       rewrite E2 in *. cbn in Hk. intros [= <- <-]. by rewrite Hk, Hk1. }
  rewrite (bind_ok _ _ _ _ _ E2). intros Hu.
  assert (Hcfg : cfg_get w2 = cfg_get w) by congruence.
  destruct (cfg_update_total (drop_id id) w2) as (r & w3 & Eu & Hnp). rewrite Hu in Eu. injection Eu as -> ->.
  destruct r as [[]|e|m]; [| |by destruct (Hnp m)].
  - apply cfg_update_ok in Hu. rewrite Hu, Hcfg. split; [intros q; apply drop_id_keeps|]. split.
    + rewrite <- Hid. apply list_elem_of_fmap. exists t. split; [done|]. by eapply list_elem_of_lookup_2.
    + intros Hnd. unfold drop_id. rewrite Hf. cbn. rewrite <- Hid. by apply (delete_NoDup Config.ID i _ t).
  - apply cfg_update_err in Hu. by rewrite Hu, Hcfg.
Qed.

(** The remote API routes any name.  With the tunnel connected and the
    reverse proxy, the listeners and the disk answering, every name that is not
    taken is exposed, also one the local API refuses as no host name; the
    reverse proxy gets it as it is. *)
Theorem any_name_is_routed up id now sub port w :
  services_up up -> up w -> Config.Status (Config.Tunnel (cfg_get w)) = "connected" ->
  taken sub (ports_of w) = false ->
  exists dial st w', RouteAdapter_Create id now sub port w =
      (Ok (route_view (Zone (DNS (cfg_get w))) (new_route id now sub port st)), w') /\
    served w' = served w ++ [Caddy.route_for (full_host (Zone (DNS (cfg_get w))) sub) dial].
Proof.
  intros Hup Hw Hst Ht. unfold RouteAdapter_Create. rewrite decide_False by (intros Hn; by apply Hn).
  rewrite Ht. cbv zeta. set (ip := LocalIP _). set (host := full_host _ _).
  destruct (up_listen _ Hup (ip +:+ ":0") w Hw) as (port' & w1 & El & Hw1).
  pose proof (listen_frame (ip +:+ ":0") w) as F1. rewrite El in F1. injection F1 as C1 T1.
  set (dial := ip +:+ ":" +:+ Itoa port'). exists dial.
  destruct (up_add _ Hup host dial w1 Hw1) as (w2 & Ea & Hw2).
  pose proof (add_frame host dial w1) as C2. rewrite Ea in C2. cbn [snd] in C2.
  apply add_ok in Ea as T2.
  pose proof (create_frame sub w2) as F3. pose proof (create_calm sub w2) as Hcalm.
  pose proof (up_create _ Hup sub w2 Hw2) as Hw3.
  destruct (CreateRecord sub w2) as [rc w3] eqn:Ec. injection F3 as C3 T3. cbn [snd fst] in *.
  set (st := if is_ok rc then "active" else "error"). exists st.
  set (p := new_route id now sub port st).
  destruct (up_update _ Hup p w3 Hw3) as (w4 & Eu & _).
  pose proof (update_frame (add_port p) w3) as T4. rewrite Eu in T4. cbn [snd] in T4.
  exists w4. split; [|congruence].
  unfold Start, NewLocalTCPProxy. cbn [running tunnelIP].
  unfold wrap, quietly, route_commit, try, mbind, eff_bind. rewrite El. cbn [wrap_err mret eff_ret].
  fold dial. rewrite Ea. cbn [is_ok mret eff_ret]. rewrite Ec.
  destruct rc as [[]|e|e]; cbn [is_ok mret eff_ret] in *; [| |by destruct (Hcalm e)].
  all: match goal with |- context [add_port ?q] => change q with p end; rewrite Eu; change (HostHeader p) with sub; by rewrite C3, C2, C1, Ht.
Qed.
End Facts.

(** *** The sockets of the routes *)

(** The listening sockets: the proxies' only, and each service minds its own. *)
Class SocketWorld (W : Type) `{PortsWorld W} := {
  sockets : W -> gset Z;
  listen_opens a w p w' : Listen a w = (Ok p, w') -> sockets w' = {[p]} ∪ sockets w;
  listen_fails a w : is_ok (fst (Listen a w)) = false -> sockets (snd (Listen a w)) = sockets w;
  add_sockets host up : preserves sockets (AddRoute host up);
  remove_sockets host : preserves sockets (RemoveRoute host);
  create_sockets sub : preserves sockets (CreateRecord sub);
  delete_sockets sub : preserves sockets (DeleteRecord sub);
  update_sockets f : preserves sockets (cfg_update f)
}.

Section Sockets.
Context {W : Type} `{SocketWorld W}.
Implicit Types w : W.

Lemma sockets_undo host sub b : preserves sockets (undo host sub b).
Proof.
  unfold undo. apply preserves_bind; [apply preserves_quietly, remove_sockets|intros _].
  apply preserves_bind; [|intros; apply preserves_ret].
  destruct b; [apply preserves_quietly, delete_sockets|apply preserves_ret].
Qed.

Lemma sockets_commit host b p zone : preserves sockets (route_commit host b p zone).
Proof.
  intros w. unfold route_commit. generalize (taken (HostHeader p) (ExposedPorts (cfg_get w))). intros dup.
  revert w. change (preserves sockets (saved ← try (cfg_update (add_port p));
    match saved with
    | Ok _ => if dup then _ ← undo host (HostHeader p) b;
                 throw ("subdomain conflict: " +:+ HostHeader p +:+ " already in use")
              else mret (route_view zone p)
    | Err e | Panic e => _ ← undo host (HostHeader p) b; throw ("failed to save route: " +:+ e)
    end)).
  apply preserves_bind; [apply preserves_try, update_sockets|intros [u|e|e]]; [destruct dup|..];
    try (apply preserves_bind; [apply sockets_undo|intros; apply preserves_const]).
  apply preserves_ret.
Qed.

Lemma sockets_Delete id : preserves sockets (RouteAdapter_Delete (W := W) id).
Proof.
  intros w. unfold RouteAdapter_Delete. destruct (_ ≫= _) as [t|]; [|done].
  generalize (full_host (Zone (DNS (cfg_get w))) (HostHeader t)). intros host. revert w.
  change (preserves sockets (_ ← quietly (RemoveRoute host); _ ← quietly (DeleteRecord (HostHeader t));
    cfg_update (drop_id id))).
  apply preserves_bind; [apply preserves_quietly, remove_sockets|intros _].
  apply preserves_bind; [apply preserves_quietly, delete_sockets|intros _]. apply update_sockets.
Qed.

Lemma sockets_Start px w r w1 : running px = false -> Start px w = (r, w1) ->
  sockets w1 = sockets w /\ is_ok r = false \/ exists p, sockets w1 = {[p]} ∪ sockets w.
Proof.
  intros Hr. unfold Start. rewrite Hr. cbv zeta. set (a := tunnelIP px +:+ ":0").
  pose proof (listen_fails a w) as Hfail. pose proof (listen_opens a w) as Hopen.
  unfold wrap, mbind, eff_bind. destruct (Listen a w) as [[p|e|e] w2]; cbn; intros [= <- <-].
  - right. exists p. by apply Hopen.
  - left. by split; [apply Hfail|].
  - left. by split; [apply Hfail|].
Qed.

Lemma sockets_Create id now sub port w res w' :
  RouteAdapter_Create id now sub port w = (res, w') ->
  sockets w' = sockets w /\ is_ok res = false \/ exists p, sockets w' = {[p]} ∪ sockets w.
Proof.
  unfold RouteAdapter_Create. case_decide; [intros [= <- <-]; by left|].
  destruct (taken _ _); [intros [= <- <-]; by left|]. cbv zeta.
  set (px := NewLocalTCPProxy _ _). unfold wrap at 1, mbind at 1, eff_bind at 1.
  destruct (Start px w) as [r w1] eqn:Es. apply sockets_Start in Es; [|done].
  destruct r as [[pp px']|e|e]; cbn [wrap_err].
  2,3: intros [= <- <-]; destruct Es as [[-> _]|?]; [by left|by right].
  destruct Es as [[_ [=]]|[q Hq]]. intros Hc. right. exists q. rewrite <- Hq.
  match type of Hc with ?m w1 = _ => assert (Hm : preserves sockets m) end.
  { apply preserves_bind; [apply preserves_quietly, add_sockets|intros routed].
    apply preserves_bind; [|intros d; apply sockets_commit].
    destruct routed; [apply preserves_quietly, create_sockets|apply preserves_ret]. }
  specialize (Hm w1). by rewrite Hc in Hm.
Qed.

(** The sockets of remote routes are never closed.  A route created over
    the remote API opens a listening socket, also when the request is then
    refused as a duplicate or not saved; deleting the route, or any other,
    leaves every socket open, for the adapter keeps no handle on the proxy it
    starts. *)
Theorem deleted_route_keeps_socket id now sub port w v w1 id' w2 r w3 :
  RouteAdapter_Create id now sub port w = (Ok v, w1) -> sockets w1 ⊆ sockets w2 ->
  RouteAdapter_Delete id' w2 = (r, w3) ->
  exists p, sockets w1 = {[p]} ∪ sockets w /\ p ∈ sockets w3.
Proof.
  intros Hc Hsub Hd. apply sockets_Create in Hc as [[_ [=]]|[p Hp]]. exists p. split; [done|].
  pose proof (sockets_Delete id' w2) as Hk. rewrite Hd in Hk. cbn in Hk. rewrite Hk. set_solver.
Qed.
End Sockets.

(** ** Through the handlers of the remote API *)

Section Handlers.
Context {W E : Type} `{ConfigManager W} `{RouteClient W} `{DNSRecords W} `{Listeners W}.
Context `{SSHExecutor E} `{LocalHost E} `{TableCodec} `{MirrorCodec} `{BodyCodec}.
Context (awg : AWGCli) (sha256_hex : string -> string).
#[local] Existing Instance peer_adapter.
Abbreviation St := (API (Backend (W := W) (E := E))).

(** While the tunnel is down, the three requests that need it are answered
    in three ways: creating a peer is an internal error, deleting one reports
    that the peer does not exist, creating a route that the tunnel is not
    connected; none changes anything but the stamps drawn. *)
Theorem tunnel_down_answers (s : St) pbody name id body sub port :
  Tunnel.IsConnected (mgr (back s)) = false ->
  Config.Status (Config.Tunnel (cfg_get (cfgMgr (mgr (back s))))) <> "connected" ->
  decode_peer pbody = Some name -> MatchFull RemoteAPI.peerNameRe name = true ->
  decode_route body = Some (sub, port) -> sub <> "" -> (1 <= port <= 65535)%Z -> id <> "" ->
  let with_used b := with_back {| mgr := mgr (back s); stamps := stamps (back s); used := b |} s in
  let n := used (back s) in
  CreatePeer (H := peer_adapter awg sha256_hex) pbody s =
    (Ok (ErrorResponse 500 ErrCodeInternalError "tunnel not connected — cannot create peer" []),
     with_used (n + 1)) /\
  DeletePeer (H := peer_adapter awg sha256_hex) id s =
    (Ok (ErrorResponse 404 ErrCodeNotFound "Peer not found" [("peerId", JStr id)]), s) /\
  CreateRoute body s =
    (Ok (ErrorResponse 412 ErrCodeTunnelNotConnected "tunnel not connected" []), with_used (n + 1)).
Proof.
  intros Hdown Hst Hn Hre Hb Hsub Hp Hid with_used n. unfold Tunnel.IsConnected in Hdown.
  unfold with_used, n. rewrite Nat.add_1_r. clear with_used n.
  destruct s as [c v ad q [m st u]]. cbn [back mgr stamps used] in *. split_and!.
  - unfold CreatePeer. rewrite Hn, Hre. cbn [negb].
    unfold answer, on_back, on_part, peers_Create, peer_adapter, stamp, on_mgr, PeerAdapter_Create,
      try, mbind, eff_bind, Tunnel.IsConnected. cbn [back mgr stamps used].
    destruct (st u) as [i t]. cbn [mgr]. unfold on_part. cbn [mgr]. rewrite Hdown. cbn.
    destruct m. done.
  - unfold DeletePeer. rewrite decide_False by done.
    unfold answer, on_back, on_part, peers_Delete, peer_adapter, on_mgr, PeerAdapter_Delete, on_part,
      try, mbind, eff_bind, Tunnel.IsConnected. cbn [back mgr stamps used]. rewrite Hdown. done.
  - unfold CreateRoute. rewrite Hb, decide_False by done. rewrite decide_False by lia.
    unfold answer, on_back, on_part, routes_Create, route_adapter, stamp, on_cfg, on_mgr,
      RouteAdapter_Create, try, mbind, eff_bind. cbn [back mgr stamps used].
    destruct (st u) as [i t]. unfold on_part. cbn [mgr cfgMgr]. rewrite decide_True by done.
    destruct m. done.
Qed.
End Handlers.

(** ** Witnesses *)

(** The memory of [Ports] with its sockets. *)
Record sock_memory := { mem : memory; socks : gset Z }.
Definition with_mem (w : memory) (s : sock_memory) : sock_memory := {| mem := w; socks := socks s |}.
Definition on_mem {A} (m : eff memory A) : eff sock_memory A := on_part mem with_mem m.

#[local] Instance s_config : ConfigManager sock_memory :=
  {| cfg_get s := cfg_get (mem s); cfg_update f := on_mem (cfg_update f) |}.
#[local] Instance s_routes : RouteClient sock_memory :=
  {| AddRoute h up := on_mem (AddRoute h up); RemoveRoute h := on_mem (RemoveRoute h) |}.
#[local] Instance s_dns : DNSRecords sock_memory :=
  {| CreateRecord n := on_mem (CreateRecord n); DeleteRecord n := on_mem (DeleteRecord n) |}.
#[local] Instance s_listeners : Listeners sock_memory := {|
  Listen a s := (Ok (m_next (mem s)),
    {| mem := snd (Listen a (mem s)); socks := {[m_next (mem s)]} ∪ socks s |});
  CloseListener p s := {| mem := mem s; socks := socks s ∖ {[p]} |}
|}.

#[local, refine] Instance s_world : PortsWorld sock_memory :=
  {| served s := m_table (mem s) |}.
Proof.
  - by intros host up w w' [= <-].
  - intros host w w'. change (RemoveRoute host) with (on_mem (RemoveRoute host)). unfold on_mem, on_part.
    destruct (RemoveRoute host (mem w)) as [r m] eqn:Hr. intros [= -> <-]. by apply m_remove_ok in Hr.
  - by intros host up w.
  - intros host w. cbn. unfold on_mem, on_part. cbn. by destruct (Caddy.find_host _ _).
  - by intros sub w.
  - by intros sub w.
  - by intros sub w p.
  - by intros sub w p.
  - by intros a w.
  - by intros p w.
  - by intros f w.
Defined.

#[local, refine] Instance s_sockets : SocketWorld sock_memory := {| sockets := socks |}.
Proof.
  - by intros a w p w' [= <- <-].
  - by intros a w.
  - by intros host up w.
  - intros host w. cbn. unfold on_mem, on_part. by destruct (Caddy.find_host _ _).
  - by intros sub w.
  - by intros sub w.
  - by intros f w.
Defined.

Definition w_created := RouteAdapter_Create "r1" "t" "My Host" 4000 w_memory.
Definition w_view : RouteView :=
  route_view "example.com" (new_route "r1" "t" "My Host" 4000 "active").

Lemma m_services_up : services_up (W := memory) (fun _ => True).
Proof.
  split; [intros; by eexists|intros; by eexists _, _|intros; by eexists|done|].
  intros host w _ Hex. cbn. destruct (Caddy.find_host host _) eqn:Hf; [by eexists|].
  exfalso. rewrite Caddy.find_host_none in Hf. apply Exists_exists in Hex as (r & Hr & Hm).
  rewrite list.Forall_forall in Hf. by rewrite (Hf _ (proj2 (list_elem_of_In _ _) Hr)) in Hm.
Qed.

(** A name with a space and capitals: the local API refuses it. *)
Lemma any_name_is_routed_witness :
  check_subdomain "My Host" <> None /\
  exists dial st w', w_created = (Ok (route_view "example.com" (new_route "r1" "t" "My Host" 4000 st)), w') /\
    m_table w' = m_table w_memory ++ [Caddy.route_for "My Host.example.com" dial].
Proof.
  split; [vm_compute; discriminate|].
  apply (any_name_is_routed _ "r1" "t" "My Host" 4000 w_memory m_services_up I); vm_compute; reflexivity.
Defined.

Lemma route_create_outcome_witness : exists port px w1,
  Start (NewLocalTCPProxy "10.8.1.2" "127.0.0.1:4000") w_memory = (Ok (port, px), w1) /\
  let '(routed, w2) := AddRoute "My Host.example.com" ("10.8.1.2:" +:+ Itoa port) w1 in
  let '(named, w3) := if is_ok routed then CreateRecord "My Host" w2 else (Err EmptyString, w2) in
  let p := new_route "r1" "t" "My Host" 4000 (if is_ok routed && is_ok named then "active" else "error") in
  w_view = route_view "example.com" p /\
  snd w_created = snd (cfg_update (add_port p) w3) /\
  cfg_get (snd w_created) = set_ExposedPorts (ExposedPorts (m_cfg w_memory) ++ [p]) (m_cfg w_memory).
Proof.
  destruct (route_create_outcome "r1" "t" "My Host" 4000 w_memory (Ok w_view) (snd w_created))
    as (_ & _ & He); [vm_compute; reflexivity|]. exact He.
Defined.

Lemma route_delete_only_own_witness :
  ("p1" ∈ map Config.ID (ExposedPorts (m_cfg w_memory))) /\
  (NoDup (map Config.ID (ExposedPorts (m_cfg w_memory))) ->
   "p1" ∉ map Config.ID (ExposedPorts (cfg_get (snd (RouteAdapter_Delete "p1" w_memory))))).
Proof.
  destruct (route_delete_only_own "p1" w_memory (Ok tt) (snd (RouteAdapter_Delete "p1" w_memory)))
    as [_ Hok]; [vm_compute; reflexivity|]. exact Hok.
Defined.

Definition w_sockets : sock_memory := {| mem := w_memory; socks := ∅ |}.
Definition s_created := RouteAdapter_Create "r1" "t" "app2" 4000 w_sockets.
Lemma deleted_route_keeps_socket_witness : exists p,
  sockets (snd s_created) = {[p]} ∪ sockets w_sockets /\
  p ∈ sockets (snd (RouteAdapter_Delete "r1" (snd s_created))).
Proof.
  apply (deleted_route_keeps_socket "r1" "t" "app2" 4000 w_sockets
    (route_view "example.com" (new_route "r1" "t" "app2" 4000 "active")) (snd s_created)
    "r1" (snd s_created) (Ok tt) (snd (RouteAdapter_Delete "r1" (snd s_created)))).
  - vm_compute. reflexivity.
  - reflexivity.
  - vm_compute. reflexivity.
Defined.

Section DownWitness.
#[local] Existing Instance echo_server.
#[local] Existing Instance line_table.
#[local] Existing Instance table_mirror.
#[local] Existing Instance key_host.
#[local] Existing Instance m_bodies.
Definition w_down : API (Backend (W := memory) (E := unit)) :=
  {| cache := Auth.w_cache; visitors := ∅; audit_disk := Auth.blank; queued := [];
     back := {| mgr := NewManager (with_m_cfg (set_Tunnel zero_tunnel (m_cfg w_memory)) w_memory) tt;
                stamps _ := ("id", "t"); used := 0 |} |}.

Lemma tunnel_down_answers_witness :
  fst (CreatePeer (H := peer_adapter awg_cli id) "laptop" w_down) =
    Ok (ErrorResponse 500 ErrCodeInternalError "tunnel not connected — cannot create peer" []) /\
  fst (DeletePeer (H := peer_adapter awg_cli id) "k" w_down) =
    Ok (ErrorResponse 404 ErrCodeNotFound "Peer not found" [("peerId", JStr "k")]) /\
  fst (CreateRoute "app3" w_down) =
    Ok (ErrorResponse 412 ErrCodeTunnelNotConnected "tunnel not connected" []).
Proof.
  destruct (tunnel_down_answers awg_cli id w_down "laptop" "laptop" "k" "app3" "app3" 80%Z)
    as (H1 & H2 & H3).
  - reflexivity.
  - discriminate.
  - reflexivity.
  - vm_compute. reflexivity.
  - reflexivity.
  - discriminate.
  - lia.
  - discriminate.
  - split; [by rewrite H1|]. split; [by rewrite H2|by rewrite H3].
Defined.
End DownWitness.
