(* ===== verification/ProvSSH.v ===== *)
(** * provisioner/ssh.go: the provisioner's own SSH client

    The line scanner, the alias lookup in ~/.ssh/config, the host-key file and
    the client that keeps one connection and dials again when a session cannot
    be had.  [GoSSH] of [SSH] is the library below it; a cancelled context and
    an expired timeout are outcomes of its calls.  Paths are Unix paths; text
    the code quotes into an error is left out. *)

From Stdlib Require Import DecimalString DecimalN.
From S2P Require Import Prelude GoLib FS Config ServerConfig SSH.

(** ** path/filepath *)

(** One element of a path against the elements kept so far, the last first. *)
Definition clean_step (rooted : bool) (acc : list string) (p : string) : list string :=
  if decide (p = EmptyString \/ p = ".") then acc
  else if decide (p = "..") then
    match acc with
    | q :: acc' => if decide (q = "..") then ".." :: acc else acc'
    | [] => if rooted then [] else [".."]
    end
  else p :: acc.

Definition Clean (path : string) : string :=
  let rooted := HasPrefix path "/" in
  let parts := rev (foldl (clean_step rooted) [] (Split path "/")) in
  if rooted then "/" +:+ Join parts "/"
  else if decide (parts = []) then "." else Join parts "/".

(** [filepath.Join] of two elements: empty ones are ignored. *)
Definition JoinPath (a b : string) : string :=
  if decide (a = EmptyString) then (if decide (b = EmptyString) then EmptyString else Clean b)
  else if decide (b = EmptyString) then Clean a else Clean (a +:+ "/" +:+ b).

(** ** The line scanner

    A reader is the list of its answers to [Read]: the bytes, and whether an
    error (the end of the file, too) comes with them.  Past the list, and past
    an error without bytes, it has nothing more. *)

Record lineScanner := { reader : list (string * bool); buf : string; line : string }.

(** The end of the reader: what is buffered is the last line. *)
Definition scan_end (buf line : string) : bool * lineScanner :=
  if decide (buf <> EmptyString)
  then (true, {| reader := []; buf := EmptyString; line := buf |})
  else (false, {| reader := []; buf := buf; line := line |}).

Fixpoint scan_loop (reads : list (string * bool)) (buf line : string) : bool * lineScanner :=
  match IndexByte buf nl with
  | Some i => (true, {| reader := reads; buf := sdrop (S i) buf; line := stake i buf |})
  | None =>
      match reads with
      | [] => scan_end buf line
      | (chunk, err) :: reads' =>
          if decide (chunk <> EmptyString) then scan_loop reads' (buf +:+ chunk) line
          else if err : bool then scan_end buf line
          else scan_loop reads' buf line
      end
  end.

Definition scan (ls : lineScanner) : bool * lineScanner :=
  scan_loop (reader ls) (buf ls) (line ls).
Definition text (ls : lineScanner) : string := line ls.
Definition new_scanner (reads : list (string * bool)) : lineScanner :=
  {| reader := reads; buf := EmptyString; line := EmptyString |}.

(** [for scanner.scan() { ... scanner.text() ... }]: the texts in order. *)
Fixpoint scan_lines (fuel : nat) (ls : lineScanner) : list string :=
  match fuel with
  | O => []
  | S f => let '(more, ls') := scan ls in
           if more : bool then text ls' :: scan_lines f ls' else []
  end.

(** As many turns as the reader has bytes, and one more. *)
Definition read_lines (reads : list (string * bool)) : list string :=
  scan_lines (S (slen (foldr (fun r s => fst r +:+ s) EmptyString reads))) (new_scanner reads).

(** A file as a reader: chunks of 4096 bytes, then the end. *)
Fixpoint chunks (fuel : nat) (data : string) : list (string * bool) :=
  match fuel with
  | O => []
  | S f => if decide (data = EmptyString) then [] 
           else (stake 4096 data, false) :: chunks f (sdrop 4096 data)
  end.
Definition file_reader (data : string) : list (string * bool) := chunks (S (slen data)) data.

(** ** ~/.ssh/config *)

(** [resolved]'s fields that the directives change. *)
Definition set_host (h : string) (v : VPSConfig) : VPSConfig :=
  {| Host := h; SSHPort := SSHPort v; Username := Username v; AuthMode := AuthMode v;
     PrivateKeyPath := PrivateKeyPath v; Password := Password v; IsProvisioned := IsProvisioned v;
     ContainerName := ContainerName v; ImageBuildHash := ImageBuildHash v |}.
Definition set_user (u : string) (v : VPSConfig) : VPSConfig :=
  {| Host := Host v; SSHPort := SSHPort v; Username := u; AuthMode := AuthMode v;
     PrivateKeyPath := PrivateKeyPath v; Password := Password v; IsProvisioned := IsProvisioned v;
     ContainerName := ContainerName v; ImageBuildHash := ImageBuildHash v |}.
Definition set_port (p : Z) (v : VPSConfig) : VPSConfig :=
  {| Host := Host v; SSHPort := p; Username := Username v; AuthMode := AuthMode v;
     PrivateKeyPath := PrivateKeyPath v; Password := Password v; IsProvisioned := IsProvisioned v;
     ContainerName := ContainerName v; ImageBuildHash := ImageBuildHash v |}.
Definition set_key (k : string) (v : VPSConfig) : VPSConfig :=
  {| Host := Host v; SSHPort := SSHPort v; Username := Username v; AuthMode := AuthMode v;
     PrivateKeyPath := k; Password := Password v; IsProvisioned := IsProvisioned v;
     ContainerName := ContainerName v; ImageBuildHash := ImageBuildHash v |}.

(** The leading digits, in a 64-bit integer that wraps around. *)
Fixpoint port_digits (s : string) (n : Z) : Z :=
  match s with
  | EmptyString => n
  | String c s' =>
      if is_digit c
      then port_digits s' (wrap64 (wrap64 (n * 10) + Z.of_N (N_of_ascii c - 48)))
      else n
  end.

Definition directive (home key value : string) (v : VPSConfig) : VPSConfig :=
  if decide (key = "hostname") then set_host value v
  else if decide (key = "user") then
    if decide (Username v = EmptyString \/ Username v = "root") then set_user value v else v
  else if decide (key = "port") then
    if decide (SSHPort v = 0 \/ SSHPort v = 22)%Z then
      let n := port_digits value 0 in if decide (0 < n)%Z then set_port n v else v
    else v
  else if decide (key = "identityfile") then
    if decide (PrivateKeyPath v = EmptyString)
    then set_key (if HasPrefix value "~/" then JoinPath home (sdrop 2 value) else value) v
    else v
  else v.

(** A line as a directive: blank lines, comments and single words are none. *)
Definition parse_directive (l : string) : option (string * string) :=
  let l := TrimSpace l in
  if decide (l = EmptyString) then None
  else if HasPrefix l "#" then None
  else match Fields l with
       | key :: value :: _ => Some (ToLower key, value)
       | _ => None
       end.

Fixpoint resolve_lines (home alias : string) (ls : list string) (inTarget : bool) (resolved : VPSConfig)
  : bool * VPSConfig :=
  match ls with
  | [] => (inTarget, resolved)
  | l :: ls' =>
      match parse_directive l with
      | None => resolve_lines home alias ls' inTarget resolved
      | Some (key, value) =>
          if decide (key = "host") then
            if inTarget then (inTarget, resolved)
            else resolve_lines home alias ls' (bool_decide (value = alias)) resolved
          else if inTarget then resolve_lines home alias ls' inTarget (directive home key value resolved)
          else resolve_lines home alias ls' inTarget resolved
      end
  end.

(** [os.Open]; the answer tells a missing file from another error only by its text. *)
Definition OpenRead (name : string) : eff World unit := fun w =>
  match next_outcome w, files w !! name with
  | None, Some _ => (Ok tt, after (files w) w)
  | None, None => (Err "open: no such file or directory", after (files w) w)
  | Some e, _ => (Err (f_err e), after (files w) w)
  end.

(** The lines the scanner makes of an opened file: a read error ends it like
    the end of the file does, after the bytes read so far. *)
Definition ScanFile (name : string) : eff World (list string) := fun w =>
  let data := default EmptyString (files w !! name) in
  match next_outcome w with
  | None => (Ok (read_lines (file_reader data)), after (files w) w)
  | Some e => (Ok (read_lines (file_reader (stake (f_written e) data) ++ [(EmptyString, true)])),
               after (files w) w)
  end.

Section Alias.
(** [os.UserHomeDir()] *)
Context (home_dir : result string).

Definition resolveSSHAlias (vps : VPSConfig) : eff World VPSConfig :=
  home ← lift home_dir;
  let configPath := JoinPath home ".ssh/config" in
  _ ← OpenRead configPath;
  ls ← ScanFile configPath;
  let '(inTarget, resolved) := resolve_lines home (Host vps) ls false vps in
  if inTarget : bool then mret resolved
  else throw ("ssh: alias not found in " +:+ configPath).

Definition validateHost (host : string) : result unit :=
  if str_all (fun c => negb (host_metachar c)) host then Ok tt else Err ErrInvalidHost.

(** [NewClient] up to the client it builds: the settings it will use. *)
Definition NewClient_cfg (vps : VPSConfig) : eff World VPSConfig :=
  _ ← lift (validateHost (Host vps));
  r ← try (resolveSSHAlias vps);
  match r with
  | Ok resolved => mret resolved
  | Err _ => mret vps
  | Panic p => panic p
  end.
End Alias.

Section Client.
Context {E : Type} `{GoSSH E} (config_dir home_dir : result string).

(** ** Host keys *)

Definition knownHostsPath : result string :=
  dir ← config_dir; Ok (JoinPath dir "ssh_known_hosts").

(** What [hostKeyCallback] does before it returns the callback: the path. *)
Definition hostKeyCallback : eff World string :=
  khPath ← wrap "ssh: resolve known_hosts path: " (lift knownHostsPath);
  _ ← wrap "ssh: create known_hosts dir: " (MkdirAll (TrimSuffix khPath "/ssh_known_hosts"));
  missing ← not_exist khPath;
  _ ← (if missing : bool then wrap "ssh: create known_hosts: " (WriteTo khPath EmptyString)
       else mret tt);
  mret khPath.

(** The callback; [key] is the marshalled authorized key. *)
Definition check_host_key (khPath hostname key : string) : eff World unit :=
  _ ← wrap "ssh: open known_hosts: " (OpenRead khPath);
  let line := hostname +:+ " " +:+ TrimSpace key in
  ls ← ScanFile khPath;
  if decide (line ∈ ls) then mret tt else
  _ ← wrap "ssh: open known_hosts for append: " (OpenAppend khPath);
  wrap "ssh: write known_hosts: " (AppendTo khPath (line +:+ nls)).

(** ** The client *)

Record Client := { cfg : VPSConfig; client : option nat; c_net : E; c_disk : World }.

Definition with_net (e : E) (c : Client) : Client :=
  {| cfg := cfg c; client := client c; c_net := e; c_disk := c_disk c |}.
Definition with_disk (w : World) (c : Client) : Client :=
  {| cfg := cfg c; client := client c; c_net := c_net c; c_disk := w |}.
Definition with_client (cl : option nat) (c : Client) : Client :=
  {| cfg := cfg c; client := cl; c_net := c_net c; c_disk := c_disk c |}.
Definition with_cfg (v : VPSConfig) (c : Client) : Client :=
  {| cfg := v; client := client c; c_net := c_net c; c_disk := c_disk c |}.

Definition onNet {A} (m : eff E A) : eff Client A := on_part c_net with_net m.
Definition onDisk {A} (m : eff World A) : eff Client A := on_part c_disk with_disk m.

Definition NewClient (vps : VPSConfig) (e : E) (w : World) : result Client :=
  let '(r, w') := NewClient_cfg home_dir vps w in
  v ← r; Ok {| cfg := v; client := None; c_net := e; c_disk := w' |}.

Definition publicKeyAuth (path : string) : eff E string :=
  wrap ("ssh: read private key " +:+ path +:+ ": ") (gs_signer path).

Definition connect : eff Client nat :=
  c ← get;
  _ ← (if decide (SSHPort (cfg c) = 0)%Z then modify (with_cfg (set_port 22 (cfg c))) else mret tt);
  c ← get;
  let v := cfg c in
  let addr := Host v +:+ ":" +:+ Itoa (SSHPort v) in
  khPath ← onDisk hostKeyCallback;
  cred ← (if decide (AuthMode v = "key") then onNet (publicKeyAuth (PrivateKeyPath v))
          else if decide (AuthMode v = "password") then mret (Plain (Password v))
          else throw ("ssh: unsupported auth mode " +:+ AuthMode v));
  _ ← wrap ("ssh: dial " +:+ addr +:+ ": ") (onNet (gs_tcp addr));
  wrap ("ssh: handshake " +:+ addr +:+ ": ")
    (key ← onNet (gs_server_key addr);
     _ ← onDisk (check_host_key khPath addr key);
     onNet (gs_auth addr (Username v) cred)).

(** A call whose error is dropped. *)
Definition ignoring {A} (f : E -> A * E) : eff Client unit := fun c =>
  (Ok tt, with_net (snd (f (c_net c))) c).

Definition dial_session : eff Client nat :=
  cl ← connect;
  _ ← modify (with_client (Some cl));
  r ← try (onNet (gs_NewSession cl));
  match r with
  | Ok s => mret s
  | Err e => _ ← ignoring (gs_CloseClient cl);
             _ ← modify (with_client None);
             throw ("ssh: new session: " +:+ e)
  | Panic p => panic p
  end.

Definition getSession : eff Client nat :=
  c ← get;
  match client c with
  | Some cl =>
      r ← try (onNet (gs_NewSession cl));
      match r with
      | Ok s => mret s
      | Err _ => _ ← ignoring (gs_CloseClient cl);
                 _ ← modify (with_client None);
                 dial_session
      | Panic p => panic p
      end
  | None => dial_session
  end.

(** A command on a fresh session, which is closed in any case: the two
    buffers and the error. *)
Definition on_session (what cmd stdin : string) (c : Client)
  : (string * string * option string) * Client :=
  match getSession c with
  | (Ok s, c1) =>
      let '(r, e2) := gs_exec s cmd stdin (c_net c1) in
      (match r with
       | Ok o => (out_stdout o, out_stderr o, out_err o)
       | Err m => (EmptyString, EmptyString, Some (what +:+ m))
       | Panic m => (EmptyString, EmptyString, Some m)
       end, with_net (snd (gs_CloseSession s e2)) c1)
  | (Err e, c1) => ((EmptyString, EmptyString, Some e), c1)
  | (Panic e, c1) => ((EmptyString, EmptyString, Some e), c1)
  end.

Definition ExecuteCommand (cmd : string) : Client -> (string * string * option string) * Client :=
  on_session ("ssh: start " +:+ cmd +:+ ": ") cmd EmptyString.

Definition ExecuteScript (script : string) : Client -> (string * string * option string) * Client :=
  on_session "ssh: start bash script: " "bash -s" script.

Definition shellEscape (s : string) : string :=
  String sq EmptyString +:+ ReplaceAll s sq sq_escaped +:+ String sq EmptyString.

Definition ddCmd (remotePath : string) : string :=
  "dd of=" +:+ shellEscape remotePath +:+ " bs=4096 2>/dev/null && chmod 0600 " +:+
  shellEscape remotePath.

Definition UploadFile (remotePath content : string) (c : Client) : option string * Client :=
  match getSession c with
  | (Ok s, c1) =>
      let '(r, e2) := gs_exec s (ddCmd remotePath) content (c_net c1) in
      (match r with
       | Ok o => (fun e => "ssh: upload dd: " +:+ e) <$> out_err o
       | Err m => Some ("ssh: upload start: " +:+ m)
       | Panic m => Some m
       end, with_net (snd (gs_CloseSession s e2)) c1)
  | (Err e, c1) => (Some e, c1)
  | (Panic e, c1) => (Some e, c1)
  end.

Definition Close : eff Client unit := fun c =>
  match client c with
  | Some cl => let '(r, c') := onNet (reporting (gs_CloseClient cl)) c in (r, with_client None c')
  | None => (Ok tt, c)
  end.

(** The client satisfies the interface the tunnel and the proxy use. *)
#[export] Instance Client_executor : SSHExecutor Client := {|
  ServerConfig.ExecuteCommand := ExecuteCommand;
  ServerConfig.ExecuteScript := ExecuteScript
|}.
End Client.

(** ** Lemmas: the scanner *)

(** The bytes a reader delivers. *)
Fixpoint content (reads : list (string * bool)) : string :=
  match reads with
  | [] => EmptyString
  | (chunk, err) :: reads' =>
      if decide (chunk <> EmptyString) then chunk +:+ content reads'
      else if err : bool then EmptyString else content reads'
  end.

Lemma file_lines_cons a b : free_of nl a = true ->
  file_lines (a +:+ String nl b) = a :: file_lines b.
Proof.
  intros Ha. unfold file_lines. rewrite Split_app_sep by done. simpl.
  pose proof (Split_nonempty b nl) as Hb.
  destruct (rev (Split b nl)) as [|x r] eqn:E; simpl.
  - by apply (f_equal (@rev string)) in E; rewrite rev_involutive in E.
  - destruct x; simpl; [by rewrite rev_app_distr|done].
Qed.

Lemma file_lines_last a : free_of nl a = true -> a <> EmptyString -> file_lines a = [a].
Proof. intros Ha Hn. unfold file_lines. rewrite Split_free by done. simpl. by destruct a. Qed.

(** What one call of [scan] does with [left], the bytes not yet handed out:
    the first line of them, and the rest is left. *)
Definition scanned (left : string) (r : bool * lineScanner) : Prop :=
  let rest := buf (snd r) +:+ content (reader (snd r)) in
  (left = EmptyString -> fst r = false) /\
  (left <> EmptyString -> fst r = true /\ slen rest < slen left /\
     file_lines left = text (snd r) :: file_lines rest).

Lemma scanned_cut b c i reads : IndexByte b nl = Some i ->
  content reads = c ->
  scanned (b +:+ c) (true, {| reader := reads; buf := sdrop (S i) b; line := stake i b |}).
Proof.
  intros E <-. pose proof (IndexByte_cut _ _ _ E) as Hc.
  pose proof (IndexByte_before _ _ _ E) as Hf.
  split; cbn [fst snd buf reader text line]; [by rewrite Hc; destruct (stake i b)|].
  intros _. split; [done|]. rewrite Hc at 2 3. rewrite !sapp_assoc.
  split; [rewrite !slen_app, ?slen_String, ?slen_app; lia|].
  by apply file_lines_cons.
Qed.

Lemma scanned_end b l : IndexByte b nl = None -> scanned b (scan_end b l).
Proof.
  intros E. unfold scan_end. case_decide as Hb; (split; [done|]); [|tauto].
  intros _. split; [done|]. cbn. rewrite file_lines_last by auto using IndexByte_free.
  split; [destruct b; [done|unfold slen; simpl; lia]|done].
Qed.

Lemma scan_loop_spec reads : forall b l, scanned (b +:+ content reads) (scan_loop reads b l).
Proof.
  induction reads as [|[chunk err] reads IH]; intros b l; simpl;
    (destruct (IndexByte b nl) as [i|] eqn:E; [by apply scanned_cut|]).
  - rewrite sapp_nil_r. by apply scanned_end.
  - case_decide.
    + rewrite <- sapp_assoc. apply IH.
    + destruct err; [|apply IH]. rewrite sapp_nil_r. by apply scanned_end.
Qed.

Lemma scan_lines_spec f : forall ls, slen (buf ls +:+ content (reader ls)) < f ->
  scan_lines f ls = file_lines (buf ls +:+ content (reader ls)).
Proof.
  induction f as [|f IH]; intros [reads b l] Hf; [lia|]. simpl. unfold scan. simpl in *.
  pose proof (scan_loop_spec reads b l) as [He Hn].
  destruct (scan_loop reads b l) as [more ls']. simpl in *.
  destruct (decide (b +:+ content reads = EmptyString)) as [Hl|Hl].
  - rewrite He, Hl by done. done.
  - destruct (Hn Hl) as (-> & Hlt & ->). f_equal. apply IH. lia.
Qed.

Lemma content_length reads :
  slen (content reads) <= slen (foldr (fun r s => fst r +:+ s) EmptyString reads).
Proof.
  induction reads as [|[c e] reads IH]; simpl; [done|].
  case_decide; rewrite ?slen_app; [lia|]. destruct e; simpl; [unfold slen at 1; simpl|]; lia.
Qed.

Lemma content_chunks f tl : forall data, slen data < f ->
  content (chunks f data ++ tl) = data +:+ content tl.
Proof.
  induction f as [|f IH]; intros data Hf; [lia|]. cbn [chunks]. case_decide as Hd; [by subst|].
  cbn [app content fst snd].
  rewrite decide_True by (destruct data; [done|discriminate]).
  rewrite IH, <- sapp_assoc; [by rewrite stake_sdrop|].
  destruct data as [|a data]; [done|]. rewrite slen_String in Hf.
  pose proof (f_equal slen (stake_sdrop 4095 data)) as Hl. rewrite slen_app in Hl.
  change (sdrop 4096 (String a data)) with (sdrop 4095 data). lia.
Qed.

Lemma content_file data : content (file_reader data) = data.
Proof.
  rewrite <- (sapp_nil_r data) at 2. rewrite <- (app_nil_r (file_reader data)).
  apply content_chunks. lia.
Qed.

(** ** Lemmas: the alias lookup *)

(** The directives after the first [Host alias], and those of one block. *)
Fixpoint after_host (alias : string) (ds : list (string * string)) : option (list (string * string)) :=
  match ds with
  | [] => None
  | d :: ds' => if decide (d = ("host", alias)) then Some ds' else after_host alias ds'
  end.
Fixpoint one_block (ds : list (string * string)) : list (string * string) :=
  match ds with
  | [] => []
  | d :: ds' => if decide (fst d = "host") then [] else d :: one_block ds'
  end.
Definition apply_block (home : string) (ds : list (string * string)) (v : VPSConfig) : VPSConfig :=
  foldl (fun v d => directive home (fst d) (snd d) v) v ds.

Lemma resolve_in_target home alias ls : forall v,
  resolve_lines home alias ls true v =
  (true, apply_block home (one_block (omap parse_directive ls)) v).
Proof.
  induction ls as [|l ls IH]; intros v; [done|]. cbn [resolve_lines omap list_omap].
  destruct (parse_directive l) as [[key value]|]; [|by rewrite IH].
  cbn [one_block fst snd]. case_decide; [done|]. by rewrite IH.
Qed.

Lemma resolve_not_in_target home alias ls v :
  resolve_lines home alias ls false v =
  match after_host alias (omap parse_directive ls) with
  | None => (false, v)
  | Some ds => (true, apply_block home (one_block ds) v)
  end.
Proof.
  induction ls as [|l ls IH]; [done|]. cbn [resolve_lines omap list_omap].
  destruct (parse_directive l) as [[key value]|]; [|done]. cbn [after_host].
  destruct (decide (key = "host")) as [->|Hk].
  - case_bool_decide as Hv; [subst; rewrite decide_True by done; apply resolve_in_target|].
    rewrite decide_False by congruence. apply IH.
  - rewrite decide_False by congruence. apply IH.
Qed.

Lemma directive_keeps home k x v :
  AuthMode (directive home k x v) = AuthMode v /\ Password (directive home k x v) = Password v /\
  IsProvisioned (directive home k x v) = IsProvisioned v /\
  ContainerName (directive home k x v) = ContainerName v /\
  (Username v <> "" -> Username v <> "root" -> Username (directive home k x v) = Username v) /\
  (SSHPort v <> 0 -> SSHPort v <> 22 -> SSHPort (directive home k x v) = SSHPort v)%Z /\
  (PrivateKeyPath v <> "" -> PrivateKeyPath (directive home k x v) = PrivateKeyPath v).
Proof.
  unfold directive. repeat case_decide; simpl; intuition (try congruence; try done).
Qed.

Lemma apply_block_keeps home ds : forall v,
  AuthMode (apply_block home ds v) = AuthMode v /\ Password (apply_block home ds v) = Password v /\
  IsProvisioned (apply_block home ds v) = IsProvisioned v /\
  ContainerName (apply_block home ds v) = ContainerName v /\
  (Username v <> "" -> Username v <> "root" -> Username (apply_block home ds v) = Username v) /\
  (SSHPort v <> 0 -> SSHPort v <> 22 -> SSHPort (apply_block home ds v) = SSHPort v)%Z /\
  (PrivateKeyPath v <> "" -> PrivateKeyPath (apply_block home ds v) = PrivateKeyPath v).
Proof.
  induction ds as [|[k x] ds IH]; intros v; [tauto|].
  pose proof (directive_keeps home k x v) as (A & B & C & D & F & G & K).
  destruct (IH (directive home k x v)) as (A' & B' & C' & D' & F' & G' & K').
  unfold apply_block in *. cbn [foldl fst snd].
  rewrite A', B', C', D', A, B, C, D. repeat split; try done; intros.
  - rewrite F'; rewrite F; auto.
  - rewrite G'; rewrite G; auto.
  - rewrite K'; rewrite K; auto.
Qed.

(** The digits of a number, read on top of what was read before. *)
Lemma wrap64_mod a b : (a `mod` 2 ^ 64 = b `mod` 2 ^ 64)%Z -> wrap64 a = wrap64 b.
Proof. intros H. unfold wrap64. by rewrite <- (Zplus_mod_idemp_l a), <- (Zplus_mod_idemp_l b), H. Qed.

Lemma wrap64_mod_id a : (wrap64 a `mod` 2 ^ 64 = a `mod` 2 ^ 64)%Z.
Proof.
  unfold wrap64. rewrite <- Zminus_mod_idemp_l, Zmod_mod, Zminus_mod_idemp_l. f_equal. lia.
Qed.

Lemma wrap64_idem a : wrap64 (wrap64 a) = wrap64 a.
Proof. apply wrap64_mod, wrap64_mod_id. Qed.

(** The digits read into an unbounded number. *)
Fixpoint read_digits (s : string) (n : Z) : Z :=
  match s with
  | EmptyString => n
  | String c s' => read_digits s' (n * 10 + Z.of_N (N_of_ascii c - 48))
  end.

Lemma port_digits_read s : forall a, str_all is_digit s = true ->
  port_digits s (wrap64 a) = wrap64 (read_digits s a).
Proof.
  induction s as [|c s IH]; intros a Hs; [done|]. simpl in *.
  apply andb_prop in Hs as [-> Hs]. rewrite <- IH by done. f_equal.
  apply wrap64_mod. rewrite <- Zplus_mod_idemp_l, wrap64_mod_id, <- Zmult_mod_idemp_l, wrap64_mod_id.
  by rewrite Zmult_mod_idemp_l, Zplus_mod_idemp_l.
Qed.

Lemma read_digits_acc d : forall acc,
  read_digits (NilEmpty.string_of_uint d) (Zpos acc) = Zpos (Pos.of_uint_acc d acc).
Proof.
  induction d as [|d IH|d IH|d IH|d IH|d IH|d IH|d IH|d IH|d IH|d IH]; intros acc; [done|..];
    cbn [NilEmpty.string_of_uint read_digits Pos.of_uint_acc]; rewrite <- IH; f_equal; simpl; lia.
Qed.

Lemma read_digits_of d : read_digits (NilEmpty.string_of_uint d) 0 = Z.of_N (N.of_uint d).
Proof.
  induction d as [|d IH|d IH|d IH|d IH|d IH|d IH|d IH|d IH|d IH|d IH]; [done|..];
    cbn [NilEmpty.string_of_uint read_digits]; [exact IH|..];
    unfold N.of_uint; simpl Pos.of_uint; simpl Z.of_N; by rewrite <- read_digits_acc.
Qed.

Lemma resolve_found home alias ls : forall b v u,
  resolve_lines home alias ls b v = (true, u) -> exists ds, u = apply_block home ds v.
Proof.
  induction ls as [|l ls IH]; intros b v u; [intros [= _ <-]; by exists []|].
  cbn [resolve_lines]. destruct (parse_directive l) as [[key value]|]; [|apply IH].
  case_decide.
  - destruct b; [intros [= <-]; by exists []|apply IH].
  - destruct b; [|apply IH]. intros (ds & ->)%IH. by exists ((key, value) :: ds).
Qed.

Lemma resolveSSHAlias_ok home_dir vps w u w' : resolveSSHAlias home_dir vps w = (Ok u, w') ->
  exists home ds, u = apply_block home ds vps.
Proof.
  unfold resolveSSHAlias. intros Hr. bind_inv Hr. bind_inv Hr. bind_inv Hr.
  destruct (resolve_lines _ _ _ _ _) as [[] r] eqn:Er; [|done].
  injection Hr as <- _. apply resolve_found in Er as [ds ->]. eauto.
Qed.

(** C20: The scanner hands out exactly the lines of the file, however the bytes
    arrive: cut into chunks of any sizes, with reads that deliver nothing, and
    with or without a newline at the end. *)
Theorem scanner_reads_lines reads : read_lines reads = file_lines (content reads).
Proof.
  unfold read_lines. rewrite scan_lines_spec; [done|].
  simpl. pose proof (content_length reads). lia.
Qed.

(** The lookup of an alias is what ssh_config(5) calls the first matching
    block: it finds a block exactly if some [Host] line names the alias first,
    and applies the directives from there to the next [Host] line, in order;
    all others are without effect. *)
Theorem resolve_lines_first_block home alias ls v :
  resolve_lines home alias ls false v =
  match after_host alias (omap parse_directive ls) with
  | None => (false, v)
  | Some ds => (true, apply_block home (one_block ds) v)
  end.
Proof. apply resolve_not_in_target. Qed.

(** Whatever ~/.ssh/config says, the client keeps the authentication mode and
    the password it was given, and a user other than root, a port other than 22
    and a key path that were set; and it is only built for a host without
    shell metacharacters. *)
Theorem client_keeps_credentials home vps w v w' :
  NewClient_cfg home vps w = (Ok v, w') ->
  validateHost (Host vps) = Ok tt /\
  AuthMode v = AuthMode vps /\ Password v = Password vps /\
  (Username vps <> "" -> Username vps <> "root" -> Username v = Username vps) /\
  (SSHPort vps <> 0 -> SSHPort vps <> 22 -> SSHPort v = SSHPort vps)%Z /\
  (PrivateKeyPath vps <> "" -> PrivateKeyPath v = PrivateKeyPath vps).
Proof.
  unfold NewClient_cfg. intros Hn. bind_inv Hn. bind_inv Hn.
  unfold lift in E. injection E as E <-. rewrite E. destruct a. split; [done|].
  unfold try in E0. destruct (resolveSSHAlias _ _ _) as [[u|e|p] w2] eqn:Er.
  3: done.
  all: injection E0 as <- <-.
  2: by injection Hn as <- _.
  injection Hn as <- _. apply resolveSSHAlias_ok in Er as (h & ds & ->).
  pose proof (apply_block_keeps h ds vps). tauto.
Qed.

(** A port is read modulo 2^64, so one that no connection can have becomes
    another one: the digits of [n] give [n] as a wrapped 64-bit integer. *)
Theorem port_digits_wrap n : port_digits (digits_of n) 0 = wrap64 (Z.of_N n).
Proof.
  rewrite <- (wrap64_id 0) at 1 by (unfold int64_min, int64_max; lia).
  rewrite port_digits_read by apply digits_of_digits.
  unfold digits_of. rewrite read_digits_of. do 2 f_equal. apply DecimalN.Unsigned.of_to.
Qed.

Lemma read_torn data err : read_lines (file_reader data ++ [(EmptyString, err)]) = file_lines data.
Proof.
  unfold read_lines. rewrite scan_lines_spec; simpl.
  - unfold file_reader. rewrite content_chunks by lia. simpl. destruct err; by rewrite sapp_nil_r.
  - pose proof (content_length (file_reader data ++ [(EmptyString, err)])). lia.
Qed.

(** A program only adds to the end of a file. *)
Definition grows {A} (path : string) (m : eff World A) : Prop := forall w data,
  files w !! path = Some data ->
  exists more, files (snd (m w)) !! path = Some (data +:+ more).

Lemma grows_files {A} path (m : eff World A) : preserves files m -> grows path m.
Proof. intros Hm w data Hd. rewrite Hm. exists EmptyString. by rewrite sapp_nil_r. Qed.

Lemma grows_bind {A B} path (m : eff World A) (k : A -> eff World B) :
  grows path m -> (forall a, grows path (k a)) -> grows path (a ← m; k a).
Proof.
  intros Hm Hk w data Hd. unfold mbind, eff_bind. destruct (Hm w data Hd) as [x Hx].
  destruct (m w) as [[a|e|p] w1]; [|by eauto..]. simpl in Hx.
  destruct (Hk a w1 _ Hx) as [y Hy]. exists (x +:+ y). by rewrite <- sapp_assoc.
Qed.

Lemma grows_wrap {A} path pre (m : eff World A) : grows path m -> grows path (wrap pre m).
Proof. intros Hm w data Hd. unfold wrap. specialize (Hm w data Hd). by destruct (m w). Qed.

Lemma grows_AppendTo path data : grows path (AppendTo path data).
Proof.
  intros w d Hd. unfold AppendTo, syscall, append_data. destruct (next_outcome w) as [f|]; simpl;
    rewrite lookup_insert, Hd; simpl; rewrite decide_True by done; eauto.
Qed.

Lemma files_OpenRead name : preserves files (OpenRead name).
Proof. intros w. unfold OpenRead. by destruct (next_outcome w), (files w !! name). Qed.
Lemma files_OpenAppend name : preserves files (OpenAppend name).
Proof. intros w. unfold OpenAppend. by destruct (next_outcome w), (files w !! name). Qed.
Lemma files_ScanFile name : preserves files (ScanFile name).
Proof. intros w. unfold ScanFile. by destruct (next_outcome w). Qed.

(** The lines of known_hosts are never lost, also when the disk fails during
    the check: what the file held stays in front of what is appended. *)
Theorem known_hosts_grows khPath hostname key : grows khPath (check_host_key khPath hostname key).
Proof.
  apply grows_bind; [apply grows_wrap, grows_files, files_OpenRead|]. intros _.
  apply grows_bind; [apply grows_files, files_ScanFile|]. intros ls.
  case_decide; [by apply grows_files|].
  apply grows_bind; [apply grows_wrap, grows_files, files_OpenAppend|]. intros _.
  apply grows_wrap, grows_AppendTo.
Qed.

(** A key is accepted without a word when its file could be opened but not
    read: the first read error counts as the end of the file, so a recorded
    key, and one that contradicts it, are both appended. *)
Theorem unread_key_accepted khPath hostname key data n e w :
  files w !! khPath = Some data -> 
  outcomes w = [None; Some {| f_err := e; f_written := n |}] ->
  (hostname +:+ " " +:+ TrimSpace key) ∉ file_lines (stake n data) ->
  fst (check_host_key khPath hostname key w) = Ok tt /\
  files (snd (check_host_key khPath hostname key w)) !! khPath =
    Some (data +:+ hostname +:+ " " +:+ TrimSpace key +:+ nls).
Proof.
  intros Hd Ho Hn. unfold check_host_key, mbind, eff_bind, wrap, OpenRead, next_outcome. rewrite Ho, Hd.
  cbn [head default id]. unfold ScanFile, next_outcome. cbn [after files outcomes]. rewrite Ho, Hd.
  cbn -[read_lines file_reader String.append]. rewrite read_torn, decide_False by done.
  unfold OpenAppend, AppendTo, syscall, append_data, next_outcome, after. cbn -[String.append].
  rewrite ?Ho, ?Hd. cbn -[String.append]. rewrite ?Ho, ?Hd. cbn -[String.append].
  rewrite ?lookup_insert, ?decide_True, ?Hd by done. cbn -[String.append]. by rewrite sapp_assoc.
Qed.

Section ClientProofs.
Context {E : Type} `{GoSSH E} (config_dir home_dir : result string).

(** ** Connections *)

(** Which connections the library has open: a handshake opens the one it
    returns, closing one removes it, and nothing else changes them. *)
Class ClientLaws := {
  opened : E -> gset nat;
  opened_auth a u k e : opened (snd (gs_auth a u k e)) =
    match fst (gs_auth a u k e) with Ok cl => {[cl]} ∪ opened e | _ => opened e end;
  opened_close cl e : opened (snd (gs_CloseClient cl e)) = opened e ∖ {[cl]};
  opened_tcp a : preserves opened (gs_tcp a);
  opened_key a : preserves opened (gs_server_key a);
  opened_signer p : preserves opened (gs_signer p);
  opened_session cl : preserves opened (gs_NewSession cl);
  opened_exec s c i e : opened (snd (gs_exec s c i e)) = opened e;
  opened_close_session s e : opened (snd (gs_CloseSession s e)) = opened e
}.
Context `{!ClientLaws}.

(** The connections of a client are the one it remembers. *)
Definition one_connection (c : Client) : Prop :=
  opened (c_net c) = match client c with Some cl => {[cl]} | None => ∅ end.

(** A step that touches neither the connections nor which one is remembered. *)
Definition conn (c : Client) : gset nat * option nat := (opened (c_net c), client c).

Lemma conn_onNet {A} (m : eff E A) : preserves opened m -> preserves conn (onNet m).
Proof.
  intros Hm c. unfold onNet, on_part, conn. specialize (Hm (c_net c)).
  destruct (m (c_net c)) as [r e]. simpl in *. by rewrite Hm.
Qed.

Lemma conn_onDisk {A} (m : eff World A) : preserves conn (onDisk m).
Proof. intros c. unfold onDisk, on_part. by destruct (m (c_disk c)). Qed.

(** A program that opens the connection it returns, and no other. *)
Definition dials (m : eff Client nat) : Prop := forall c, let '(r, c') := m c in
  client c' = client c /\
  opened (c_net c') = match r with Ok cl => {[cl]} ∪ opened (c_net c) | _ => opened (c_net c) end.

Lemma dials_bind {A} (m : eff Client A) (k : A -> eff Client nat) :
  preserves conn m -> (forall a, dials (k a)) -> dials (a ← m; k a).
Proof.
  intros Hm Hk c. specialize (Hm c). unfold mbind, eff_bind, conn in *.
  destruct (m c) as [[a|e|p] c1]; injection Hm as Ho Hc; [|by rewrite Hc, Ho..].
  specialize (Hk a c1). destruct (k a c1) as [r c2]. by rewrite <- Ho, <- Hc.
Qed.

Lemma dials_wrap pre (m : eff Client nat) : dials m -> dials (wrap pre m).
Proof. intros Hm c. specialize (Hm c). unfold wrap. by destruct (m c) as [[]]. Qed.

Lemma dials_auth a u k : dials (onNet (gs_auth a u k)).
Proof.
  intros c. unfold onNet, on_part. pose proof (opened_auth a u k (c_net c)) as Ha.
  by destruct (gs_auth a u k (c_net c)) as [[]].
Qed.

Lemma dials_throw e : dials (throw e).
Proof. by intros c. Qed.

Lemma dials_connect : dials (connect config_dir).
Proof.
  unfold connect. apply dials_bind; [apply preserves_get|]. intros c0.
  apply dials_bind; [case_decide; [by apply preserves_modify|apply preserves_ret]|]. intros _.
  apply dials_bind; [apply preserves_get|]. intros c1. cbv zeta.
  apply dials_bind; [apply conn_onDisk|]. intros kh.
  apply dials_bind.
  { repeat case_decide; [|apply preserves_ret|apply preserves_const].
    apply conn_onNet, preserves_wrap, opened_signer. }
  intros cred. apply dials_bind; [apply preserves_wrap, conn_onNet, opened_tcp|]. intros _.
  apply dials_wrap. apply dials_bind; [apply conn_onNet, opened_key|]. intros key.
  apply dials_bind; [apply conn_onDisk|]. intros _. apply dials_auth.
Qed.

(** A program that keeps [one_connection]. *)
Definition keeps_one {A} (m : eff Client A) : Prop := forall c,
  one_connection c -> one_connection (snd (m c)).

Lemma keeps_conn {A} (m : eff Client A) : preserves conn m -> keeps_one m.
Proof.
  intros Hm c Hc. specialize (Hm c). unfold conn, one_connection in *. injection Hm as Ho Hl.
  by rewrite Ho, Hl.
Qed.

Lemma drop_connection cl c e : client c = Some cl -> one_connection c ->
  opened e = opened (c_net c) -> 
  opened (snd (gs_CloseClient cl e)) = ∅.
Proof. unfold one_connection. intros -> Hc He. rewrite opened_close, He, Hc. set_solver. Qed.

Lemma dial_session_one c : client c = None -> one_connection c ->
  one_connection (snd (dial_session config_dir c)).
Proof.
  intros Hn Hc. unfold dial_session, mbind at 1, eff_bind at 1.
  pose proof (dials_connect c) as Hd. unfold one_connection in Hc. rewrite Hn in Hc.
  destruct (connect config_dir c) as [[cl|e|p] c1]; destruct Hd as [Hl Ho];
    [|by unfold one_connection; simpl; rewrite Hl, Ho, Hc, Hn..].
  rewrite Hc, (right_id_L ∅ (∪)) in Ho.
  set (c2 := with_client (Some cl) c1).
  assert (H2 : one_connection c2) by done.
  pose proof (conn_onNet _ (opened_session cl) c2) as Hs.
  unfold modify, mbind, eff_bind, try. fold c2.
  destruct (onNet (gs_NewSession cl) c2) as [[s|e|p] c3]; simpl in Hs; injection Hs as Hs1 Hs2; simpl.
  - unfold one_connection. by rewrite Hs1, Hs2.
  - unfold one_connection. simpl. rewrite opened_close, Hs1, Ho. set_solver.
  - unfold one_connection. by rewrite Hs1, Hs2.
Qed.

Lemma getSession_one : keeps_one (getSession config_dir).
Proof.
  intros c Hc. unfold getSession, mbind at 1, eff_bind at 1, get.
  destruct (client c) as [cl|] eqn:Hl; [|by apply dial_session_one].
  pose proof (conn_onNet _ (opened_session cl) c) as Hs.
  unfold mbind at 1, eff_bind at 1, try.
  destruct (onNet (gs_NewSession cl) c) as [[s|e|p] c1]; simpl in Hs; injection Hs as Hs1 Hs2; simpl.
  - unfold one_connection. by rewrite Hs1, Hs2.
  - apply dial_session_one; [done|]. unfold one_connection. simpl. 
    eapply drop_connection; eauto.
  - unfold one_connection. by rewrite Hs1, Hs2.
Qed.

Lemma client_Close c : client (snd (Close c)) = None.
Proof.
  unfold Close. destruct (client c) as [cl|] eqn:Hl; [|done]. by destruct (onNet _ _) as [r c2].
Qed.

Inductive client_step (c : Client) : Client -> Prop :=
  | step_command what cmd i : client_step c (snd (on_session config_dir what cmd i c))
  | step_upload path data : client_step c (snd (UploadFile config_dir path data c))
  | step_close : client_step c (snd (Close c)).

Lemma step_one c c' : one_connection c -> client_step c c' -> one_connection c'.
Proof.
  intros Hc [what cmd i|path data|].
  - unfold on_session. pose proof (getSession_one c Hc) as Hg.
    destruct (getSession config_dir c) as [[s|e|p] c1]; simpl in Hg; [|done..].
    pose proof (opened_exec s cmd i (c_net c1)) as He.
    destruct (gs_exec s cmd i (c_net c1)) as [r e2]. unfold one_connection. simpl in *.
    by rewrite opened_close_session, He.
  - unfold UploadFile. pose proof (getSession_one c Hc) as Hg.
    destruct (getSession config_dir c) as [[s|e|p] c1]; simpl in Hg; [|done..].
    pose proof (opened_exec s (ddCmd path) data (c_net c1)) as He.
    destruct (gs_exec s (ddCmd path) data (c_net c1)) as [r e2]. unfold one_connection. simpl in *.
    by rewrite opened_close_session, He.
  - unfold Close. destruct (client c) as [cl|] eqn:Hl; [|done].
    unfold onNet, on_part, reporting.
    pose proof (drop_connection cl c (c_net c) Hl Hc eq_refl) as Hd.
    destruct (gs_CloseClient cl (c_net c)) as [[r|] e]; by unfold one_connection.
Qed.

(** Whatever is run on a client, and however often its connection breaks, no
    connection is left behind: the open ones are the one it holds, and after
    [Close] there is none. *)
Theorem client_leaks_no_connection c c' :
  one_connection c -> star client_step c c' ->
  opened (c_net c') ⊆ from_option singleton ∅ (client c') /\ opened (c_net (snd (Close c'))) = ∅.
Proof.
  intros Hc Hs. assert (H1 : one_connection c') by (eapply star_inv_ind; eauto using step_one).
  assert (H2 : one_connection (snd (Close c'))) by (eapply step_one; [done|constructor]).
  split; [by rewrite H1; destruct (client c')|]. by rewrite H2, client_Close.
Qed.
End ClientProofs.

(** ** A reference implementation, for the witnesses: connections are numbered,
    and the next sessions fail as the state says. *)

Record flaky := { f_open : gset nat; f_next : nat; f_fails : list bool }.

Definition flaky_ssh : GoSSH flaky := {|
  gs_tcp _ := mret tt; gs_server_key _ := mret "ssh-ed25519 AAAA";
  gs_auth _ _ _ := fun e =>
    (Ok (f_next e), {| f_open := {[f_next e]} ∪ f_open e; f_next := S (f_next e); f_fails := f_fails e |});
  gs_signer _ := mret "key";
  gs_NewSession _ := fun e =>
    (if default false (head (f_fails e)) : bool then Err "EOF" else Ok 0,
     {| f_open := f_open e; f_next := f_next e; f_fails := tail (f_fails e) |});
  gs_Keepalive _ := mret tt;
  gs_exec _ _ _ e := (Ok {| out_combined := "ok"; out_stdout := "ok"; out_stderr := ""; out_err := None |}, e);
  gs_CloseSession _ e := (None, e);
  gs_CloseClient cl e :=
    (None, {| f_open := f_open e ∖ {[cl]}; f_next := f_next e; f_fails := f_fails e |})
|}.

Definition flaky_laws : @ClientLaws flaky flaky_ssh.
Proof. by refine {| opened := f_open |}. Defined.

Section Witnesses.
#[local] Instance w_ssh : GoSSH flaky := flaky_ssh.
#[local] Instance w_laws : ClientLaws := flaky_laws.

Definition sample_vps : VPSConfig :=
  {| Host := "my-vps"; SSHPort := 0; Username := "root"; AuthMode := "password";
     PrivateKeyPath := ""; Password := "pw"; IsProvisioned := false; ContainerName := "";
     ImageBuildHash := "" |}.

Definition sample_config : string :=
  "Host other" +:+ nls +:+ "  Port 1" +:+ nls +:+ "Host my-vps" +:+ nls +:+ "  HostName $(id).example" +:+ nls +:+
  "  Port 2222" +:+ nls +:+ "  IdentityFile ~/keys/../id" +:+ nls +:+ "Host *" +:+ nls +:+ "  User x".

Definition sample_disk : World :=
  {| files := {["/home/u/.ssh/config" := sample_config; "/c/ssh_known_hosts" := ""]};
     outcomes := []; draws := []; disks := [] |}.

Definition w_client (fails : list bool) : Client :=
  {| cfg := sample_vps; client := None;
     c_net := {| f_open := ∅; f_next := 7; f_fails := fails |}; c_disk := sample_disk |}.

(** An alias is resolved past the check of the host: the name from the file
    holds what [validateHost] refuses. *)
Example alias_host_unchecked :
  let r := fst (NewClient_cfg (Ok "/home/u") sample_vps sample_disk) in
  r = Ok (set_key "/home/u/id" (set_port 2222 (set_host "$(id).example" sample_vps))) /\
  validateHost "$(id).example" = Err ErrInvalidHost.
Proof. split; vm_compute; reflexivity. Qed.

Lemma client_keeps_credentials_witness :
  exists v, AuthMode v = "password" /\ SSHPort v = 2222%Z /\ Password v = Password sample_vps.
Proof.
  eexists. split; [|split; [|
    refine (proj1 (proj2 (proj2 (client_keeps_credentials (Ok "/home/u") sample_vps sample_disk _ _ _))));
    vm_compute; reflexivity]]; reflexivity.
Defined.

Lemma unread_key_accepted_witness :
  let w := {| files := {["/k" := "h:22 old" +:+ nls]};
              outcomes := [None; Some {| f_err := "EIO"; f_written := 0 |}]; draws := []; disks := [] |} in
  fst (check_host_key "/k" "h:22" "old" w) = Ok tt.
Proof.
  refine (proj1 (unread_key_accepted "/k" "h:22" "old" ("h:22 old" +:+ nls) 0 "EIO" _ _ _ _)).
  - vm_compute. reflexivity.
  - reflexivity.
  - apply (bool_decide_unpack _). vm_compute. exact I.
Defined.

(** Two commands, the second over a connection that has broken: it is closed
    and replaced. *)
Lemma client_leaks_no_connection_witness :
  let c1 := snd (ExecuteCommand (Ok "/c") "uptime" (w_client [false; true; false])) in
  let c2 := snd (ExecuteScript (Ok "/c") "ls" c1) in
  client c1 = Some 7 /\ client c2 = Some 8 /\
  opened (c_net c2) ⊆ from_option singleton ∅ (client c2) /\ opened (c_net (snd (Close c2))) = ∅.
Proof.
  split; [vm_compute; reflexivity|]. split; [vm_compute; reflexivity|].
  apply (client_leaks_no_connection (Ok "/c") (w_client [false; true; false])); [reflexivity|].
  refine (star_snoc _ _ _ _ (star_snoc _ _ _ _ (star_nil _ _) _) _).
  - exact (step_command (Ok "/c") _ ("ssh: start " +:+ "uptime" +:+ ": ") "uptime" "").
  - exact (step_command (Ok "/c") _ "ssh: start bash script: " "bash -s" "ls").
Defined.
End Witnesses.
