(* ===== verification/Templates.v ===== *)
(** * provisioner/{compose,dockerfile,firewall}.go: the files and the firewall

    The texts the provisioner uploads, as the lines of their templates with the
    fields in place, and the rules for the host's firewall. *)

From S2P Require Import Prelude GoLib.

(** The lines of a text whose last line ends in a newline, too. *)
Definition text_of (ls : list string) : string := Join ls nl +:+ nls.

(** ** compose.go *)

Record ComposeConfig := { AWGPort : Z; ManualDNS : bool; CaddyImage : string }.

Definition compose_head (port : Z) : list string := [
  "services:";
  "  unet-net-pause:";
  "    image: busybox:1.36-uclibc";
  "    container_name: unet-net-pause";
  "    command: [" +:+ dquote +:+ "sleep" +:+ dquote +:+ ", " +:+ dquote +:+ "infinity" +:+ dquote +:+ "]";
  "    ports:";
  "      - " +:+ dquote +:+ Itoa port +:+ ":" +:+ Itoa port +:+ "/udp" +:+ dquote;
  "      - " +:+ dquote +:+ "443:443/tcp" +:+ dquote].

(** With [.ManualDNS] only. *)
Definition compose_http : list string := [
  "      - " +:+ dquote +:+ "80:80/tcp" +:+ dquote].

Definition compose_tail (image : string) : list string := [
  "    restart: unless-stopped";
  "";
  "  unet-amnezia-awg:";
  "    build:";
  "      context: .";
  "      dockerfile: Dockerfile";
  "    image: unet/amnezia-awg:local";
  "    container_name: unet-amnezia-awg";
  "    network_mode: " +:+ dquote +:+ "service:unet-net-pause" +:+ dquote;
  "    depends_on:";
  "      - unet-net-pause";
  "    cap_add:";
  "      - NET_ADMIN";
  "      - SYS_MODULE";
  "    sysctls:";
  "      - net.ipv4.ip_forward=1";
  "      - net.ipv6.conf.all.forwarding=1";
  "    volumes:";
  "      - amnezia-awg-state:/opt/amnezia/awg";
  "      - /lib/modules:/lib/modules:ro";
  "    restart: unless-stopped";
  "";
  "  unet-caddy:";
  "    image: " +:+ image;
  "    container_name: unet-caddy";
  "    network_mode: " +:+ dquote +:+ "service:unet-net-pause" +:+ dquote;
  "    depends_on:";
  "      - unet-net-pause";
  "    volumes:";
  "      - caddy-data:/data";
  "      - caddy-config:/config";
  "    restart: unless-stopped";
  "";
  "volumes:";
  "  amnezia-awg-state:";
  "  caddy-data:";
  "  caddy-config:"].

Definition compose_text (cfg : ComposeConfig) : string :=
  text_of (compose_head (AWGPort cfg) ++ (if ManualDNS cfg then compose_http else []) ++
           compose_tail (CaddyImage cfg)).

Definition GenerateCompose (cfg : ComposeConfig) : result string :=
  if decide (AWGPort cfg <= 0 \/ 65535 < AWGPort cfg)%Z
  then Err ("provisioner: invalid AWGPort " +:+ Itoa (AWGPort cfg) +:+ " (must be 1..65535)") else
  Ok (compose_text {| AWGPort := AWGPort cfg; ManualDNS := ManualDNS cfg;
        CaddyImage := if decide (CaddyImage cfg = EmptyString) then "caddy:2-alpine"
                      else CaddyImage cfg |}).

(** ** dockerfile.go *)

Record DockerfileConfig := { Subnet : string; AWGToolsRelease : string; AWGGoRelease : string }.

Definition dockerfile_lines (goRelease toolsRelease : string) : list string := [
  "FROM golang:1.24.4-alpine AS awg-builder";
  "RUN apk add --no-cache git gcc musl-dev";
  "RUN git clone --depth 1 --branch " +:+ goRelease +:+ " https://github.com/amnezia-vpn/amneziawg-go.git /awg";
  "WORKDIR /awg";
  "RUN go mod download && \";
  "    go mod verify && \";
  "    go build -ldflags '-linkmode external -extldflags " +:+ dquote +:+ "-fno-PIC -static" +:+ dquote +:+ "' -v -o /usr/bin/amneziawg-go";
  "";
  "FROM alpine:3.19";
  "";
  "RUN apk add --no-cache bash curl dumb-init unzip wget && \";
  "    apk --update upgrade --no-cache && \";
  "    mkdir -p /opt/amnezia";
  "";
  "RUN echo -e " +:+ dquote +:+ " \n\";
  "  fs.file-max = 51200 \n\";
  "  net.core.rmem_max = 67108864 \n\";
  "  net.core.wmem_max = 67108864 \n\";
  "  net.core.netdev_max_backlog = 250000 \n\";
  "  net.core.somaxconn = 4096 \n\";
  "  net.ipv4.tcp_syncookies = 1 \n\";
  "  net.ipv4.tcp_tw_reuse = 1 \n\";
  "  net.ipv4.tcp_fin_timeout = 30 \n\";
  "  net.ipv4.tcp_keepalive_time = 1200 \n\";
  "  net.ipv4.ip_local_port_range = 10000 65000 \n\";
  "  net.ipv4.tcp_max_syn_backlog = 8192 \n\";
  "  net.ipv4.tcp_max_tw_buckets = 5000 \n\";
  "  net.ipv4.tcp_fastopen = 3 \n\";
  "  net.ipv4.tcp_mem = 25600 51200 102400 \n\";
  "  net.ipv4.tcp_rmem = 4096 87380 67108864 \n\";
  "  net.ipv4.tcp_wmem = 4096 65536 67108864 \n\";
  "  net.ipv4.tcp_mtu_probing = 1 \n\";
  "  net.ipv4.tcp_congestion_control = hybla \n\";
  "  " +:+ dquote +:+ " | sed -e 's/^\s\+//g' | tee -a /etc/sysctl.conf && \";
  "    mkdir -p /etc/security && \";
  "    echo -e " +:+ dquote +:+ " * soft nofile 51200 \n * hard nofile 51200" +:+ dquote +:+ " | tee -a /etc/security/limits.conf";
  "";
  "ARG AWGTOOLS_RELEASE=" +:+ toolsRelease;
  "RUN apk --no-cache add iproute2 iptables && \";
  "    cd /usr/bin/ && \";
  "    wget https://github.com/amnezia-vpn/amneziawg-tools/releases/download/v${AWGTOOLS_RELEASE}/alpine-3.19-amneziawg-tools.zip && \";
  "    unzip -j alpine-3.19-amneziawg-tools.zip && \";
  "    chmod +x /usr/bin/awg /usr/bin/awg-quick && \";
  "    ln -s /usr/bin/awg /usr/bin/wg && \";
  "    ln -s /usr/bin/awg-quick /usr/bin/wg-quick";
  "";
  "COPY --from=awg-builder /usr/bin/amneziawg-go /usr/bin/amneziawg-go";
  "";
  "COPY start.sh /opt/amnezia/start.sh";
  "RUN chmod +x /opt/amnezia/start.sh";
  "";
  "LABEL maintainer=" +:+ dquote +:+ "unet/amneziaawg" +:+ dquote;
  "";
  "ENTRYPOINT [" +:+ dquote +:+ "dumb-init" +:+ dquote +:+ ", " +:+ dquote +:+ "/opt/amnezia/start.sh" +:+ dquote +:+ "]"].

Definition start_lines (subnet : string) : list string := [
  "#!/bin/bash";
  "# /opt/amnezia/start.sh — provisioned by unet daemon via SSH on initial setup";
  "";
  "set -e";
  "CONF=/opt/amnezia/awg/awg0.conf";
  "SUBNET=" +:+ dquote +:+ subnet +:+ dquote;
  "";
  "# Clean shutdown of any prior interface";
  "awg-quick down " +:+ dquote +:+ "$CONF" +:+ dquote +:+ " 2>/dev/null || true";
  "";
  "# Bring up the interface (relies on awg0.conf populated by provisioner)";
  "if [ -f " +:+ dquote +:+ "$CONF" +:+ dquote +:+ " ]; then";
  "    awg-quick up " +:+ dquote +:+ "$CONF" +:+ dquote;
  "fi";
  "";
  "# Forwarding firewall rules — bound to the AmneziaWG interface";
  "iptables -A INPUT   -i awg0 -j ACCEPT";
  "iptables -A FORWARD -i awg0 -j ACCEPT";
  "iptables -A OUTPUT  -o awg0 -j ACCEPT";
  "iptables -A FORWARD -i awg0 -o eth0 -s " +:+ dquote +:+ "$SUBNET" +:+ dquote +:+ " -j ACCEPT";
  "iptables -A FORWARD -i awg0 -o eth1 -s " +:+ dquote +:+ "$SUBNET" +:+ dquote +:+ " -j ACCEPT 2>/dev/null || true";
  "iptables -A FORWARD -m state --state ESTABLISHED,RELATED -j ACCEPT";
  "";
  "# Outbound MASQUERADE — clients reach the public internet through eth0/eth1";
  "iptables -t nat -A POSTROUTING -s " +:+ dquote +:+ "$SUBNET" +:+ dquote +:+ " -o eth0 -j MASQUERADE";
  "iptables -t nat -A POSTROUTING -s " +:+ dquote +:+ "$SUBNET" +:+ dquote +:+ " -o eth1 -j MASQUERADE 2>/dev/null || true";
  "";
  "# Keep the container alive";
  "exec tail -f /dev/null"].

Definition GenerateDockerfile (cfg : DockerfileConfig) : result string :=
  let tools := if decide (AWGToolsRelease cfg = EmptyString) then "1.0.20250901" else AWGToolsRelease cfg in
  let go := if decide (AWGGoRelease cfg = EmptyString) then "v0.2.13" else AWGGoRelease cfg in
  Ok (text_of (dockerfile_lines go tools)).

Definition GenerateStartSh (cfg : DockerfileConfig) : result string :=
  if decide (Subnet cfg = EmptyString)
  then Err "provisioner: Subnet is required for start.sh generation"
  else Ok (text_of (start_lines (Subnet cfg))).

(** ** firewall.go *)

Record FirewallConfig := { FWPort : Z; FWManualDNS : bool }.
Record UFWRule := { Port : Z; Protocol : string; Comment : string }.

Definition UFWRules (cfg : FirewallConfig) : list UFWRule :=
  [{| Port := FWPort cfg; Protocol := "udp"; Comment := "unet AmneziaWG" |};
   {| Port := 443; Protocol := "tcp"; Comment := "unet Caddy HTTPS" |}] ++
  (if FWManualDNS cfg
   then [{| Port := 80; Protocol := "tcp"; Comment := "unet Caddy ACME HTTP-01" |}] else []).

Definition UFWAllowCommand (r : UFWRule) : string :=
  "ufw allow " +:+ Itoa (Port r) +:+ "/" +:+ Protocol r +:+ " comment '" +:+ Comment r +:+ "'".

Definition UFWAllowScript (cfg : FirewallConfig) : string :=
  Join ("#!/bin/bash" :: "set -e" :: map UFWAllowCommand (UFWRules cfg)) nl.

Definition DetectUFWCommands : string * string := ("command -v ufw", "ufw status").

Definition IsUFWActive (ufwStatusOutput : string) : bool :=
  Contains ufwStatusOutput "Status: active".

(** ** Reading a compose file back *)

(** One entry of a [ports:] list: the published port and the protocol, when
    it is published under its own number. *)
Definition port_entry (l : string) : option (string * string) :=
  if HasPrefix l ("      - " +:+ dquote) && HasSuffix l dquote then
    match Split (TrimSuffix (TrimPrefix l ("      - " +:+ dquote)) dquote) ":" with
    | [host; rest] =>
        match Split rest "/" with
        | [inner; proto] => if decide (inner = host) then Some (host, proto) else None
        | _ => None
        end
    | _ => None
    end
  else None.

Fixpoint entries (ls : list string) : list (string * string) :=
  match ls with
  | [] => []
  | l :: ls' => match port_entry l with Some e => e :: entries ls' | None => [] end
  end.

(** The entries under the first [ports:]. *)
Fixpoint published (ls : list string) : list (string * string) :=
  match ls with
  | [] => []
  | l :: ls' => if decide (l = "    ports:") then entries ls' else published ls'
  end.

(** ** Lemmas *)

Lemma Split_text ls : Forall (fun l => free_of nl l = true) ls -> ls <> [] ->
  Split (text_of ls) nl = ls ++ [""].
Proof.
  intros Hf Hn. unfold text_of, nls. rewrite Split_app, Split_Join; [done|done|].
  by destruct ls.
Qed.

Lemma port_entry_own p proto : (0 <= p)%Z -> free_of "/" proto = true -> free_of ":" proto = true ->
  port_entry ("      - " +:+ dquote +:+ Itoa p +:+ ":" +:+ Itoa p +:+ "/" +:+ proto +:+ dquote) =
  Some (Itoa p, proto).
Proof.
  intros Hp Hs Hc. unfold port_entry.
  set (pre := "      - " +:+ dquote).
  set (m := Itoa p +:+ ":" +:+ Itoa p +:+ "/" +:+ proto).
  replace ("      - " +:+ _) with (pre +:+ m +:+ dquote) by (subst pre m; by rewrite !sapp_assoc).
  rewrite HasPrefix_app, TrimPrefix_app, TrimSuffix_app.
  assert (HasSuffix (pre +:+ m +:+ dquote) dquote = true) as ->
    by (apply HasSuffix_spec; exists (pre +:+ m); by rewrite sapp_assoc).
  cbn [andb]. subst m.
  change (Itoa p +:+ ":" +:+ ?x) with (Itoa p +:+ String ":" x).
  change (Itoa p +:+ "/" +:+ ?x) with (Itoa p +:+ String "/" x).
  rewrite Split_app_sep by (by apply Itoa_free).
  rewrite (Split_free (Itoa p +:+ _)).
  - rewrite Split_app_sep by (by apply Itoa_free). rewrite Split_free by done.
    by rewrite decide_True.
  - rewrite free_of_app, Itoa_free by done. cbn. exact Hc.
Qed.

Lemma Join_app l1 l2 c : l1 <> [] -> l2 <> [] ->
  Join (l1 ++ l2) c = Join l1 c +:+ String c (Join l2 c).
Proof.
  intros H1 H2. induction l1 as [|x l1 IH]; [done|].
  destruct l1 as [|y l1]; [by destruct l2|].
  change (Join ((x :: y :: l1) ++ l2) c) with (x +:+ String c (Join ((y :: l1) ++ l2) c)).
  rewrite IH by done. change (Join (x :: y :: l1) c) with (x +:+ String c (Join (y :: l1) c)).
  by rewrite sapp_assoc.
Qed.

(** The lines of a text that starts with lines of its own. *)
Lemma Split_text_app l1 l2 : l1 <> [] -> l2 <> [] -> Forall (fun l => free_of nl l = true) l1 ->
  Split (text_of (l1 ++ l2)) nl = l1 ++ Split (text_of l2) nl.
Proof.
  intros H1 H2 Hf. unfold text_of. rewrite Join_app, sapp_assoc by done.
  change (String nl (Join l2 nl) +:+ nls) with (String nl (Join l2 nl +:+ nls)).
  by rewrite Split_app, Split_Join.
Qed.

Lemma entries_app l1 l2 : Forall (fun l => is_Some (port_entry l)) l1 ->
  entries (l1 ++ l2) = omap port_entry l1 ++ entries l2.
Proof. induction 1 as [|l l1 [e He] _ IH]; [done|]. cbn. rewrite He. cbn. by rewrite IH. Qed.

Lemma compose_head_free port : (0 <= port)%Z ->
  Forall (fun l => free_of nl l = true) (compose_head port).
Proof.
  intros Hp. unfold compose_head. repeat (apply list.Forall_cons; split; [try reflexivity|]); [|done].
  rewrite !free_of_app, !Itoa_free by done. reflexivity.
Qed.

Lemma entries_tail image : entries (Split (text_of (compose_tail image)) nl) = [].
Proof. reflexivity. Qed.

(** A text without the first letter of a word does not contain the word. *)
Lemma Contains_free s c p : free_of c s = true -> Contains s (String c p) = false.
Proof.
  unfold Contains. intros H. enough (Index s (String c p) = None) as -> by done.
  unfold free_of in H. induction s as [|a s IH]; [done|]. cbn in *.
  apply andb_prop in H as [Ha Hs]. rewrite IH by done.
  rewrite negb_true_iff, bool_decide_eq_false in Ha. by rewrite bool_decide_eq_false_2 by congruence.
Qed.

(** ** Properties *)

(** C19: The firewall rules and the compose file belong together: the rules open
    the ports that the generated file publishes, with their protocols, in the
    same order, and no others; port 80 only without a DNS provider. *)
Theorem firewall_opens_what_is_published cfg text :
  GenerateCompose cfg = Ok text ->
  published (Split text nl) =
  map (fun r => (Itoa (Port r), Protocol r))
      (UFWRules {| FWPort := AWGPort cfg; FWManualDNS := ManualDNS cfg |}).
Proof.
  unfold GenerateCompose. case_decide as Hp; [done|]. intros [= <-].
  unfold compose_text. cbn [AWGPort ManualDNS CaddyImage].
  set (image := if decide _ then _ else _). rewrite Split_text_app; [|done|by destruct (ManualDNS cfg)|].
  2: { apply compose_head_free. lia. }
  assert (Hpub : forall rest, published (compose_head (AWGPort cfg) ++ rest) =
    (Itoa (AWGPort cfg), "udp") :: ("443", "tcp") :: entries rest).
  { intros rest. transitivity (entries (drop 6 (compose_head (AWGPort cfg)) ++ rest)); [reflexivity|].
    unfold compose_head. cbn [drop app entries].
    change ("/udp" +:+ dquote) with ("/" +:+ "udp" +:+ dquote).
    rewrite port_entry_own by (lia || done). reflexivity. }
  rewrite Hpub. cbn [map UFWRules app Port Protocol FWPort]. do 2 f_equal.
  destruct (ManualDNS cfg); cbn [app FWManualDNS map].
  - rewrite Split_text_app by (done || (repeat constructor; reflexivity)).
    unfold compose_http. cbn [app entries].
    change ("      - " +:+ dquote +:+ "80:80/tcp" +:+ dquote)
      with ("      - " +:+ dquote +:+ Itoa 80 +:+ ":" +:+ Itoa 80 +:+ "/" +:+ "tcp" +:+ dquote).
    rewrite port_entry_own by (lia || done). by rewrite entries_tail.
  - by rewrite entries_tail.
Qed.

Lemma firewall_opens_what_is_published_witness :
  published (Split (compose_text {| AWGPort := 40000; ManualDNS := true; CaddyImage := "caddy:2-alpine" |}) nl) =
  [("40000", "udp"); ("443", "tcp"); ("80", "tcp")].
Proof.
  apply (firewall_opens_what_is_published
           {| AWGPort := 40000; ManualDNS := true; CaddyImage := "" |}).
  vm_compute. reflexivity.
Defined.

(** ** Health checks *)

(** Docker has a health status for a container only if the compose file or
    the image's Dockerfile asks for one. *)
Definition asks_for_health (compose dockerfile : string) : bool :=
  existsb (fun l => Contains l "healthcheck") (Split compose nl) ||
  existsb (fun l => HasPrefix (TrimSpace l) "HEALTHCHECK") (Split dockerfile nl).

(** No generated compose file asks for it, unless the name of the image does. *)
Lemma compose_no_health cfg text : GenerateCompose cfg = Ok text ->
  free_of nl (CaddyImage cfg) = true -> Contains ("    image: " +:+ CaddyImage cfg) "healthcheck" = false ->
  existsb (fun l => Contains l "healthcheck") (Split text nl) = false.
Proof.
  unfold GenerateCompose. case_decide as Hp; [done|]. intros [= <-] Hnl Him.
  unfold compose_text. cbn [AWGPort ManualDNS CaddyImage].
  set (image := if decide _ then _ else _).
  assert (Hi : free_of nl image = true /\ Contains ("    image: " +:+ image) "healthcheck" = false)
    by (subst image; case_decide; done).
  destruct Hi as [Hi1 Hi2]. clearbody image. clear Hnl Him.
  rewrite Split_text; [| |by destruct (ManualDNS cfg)].
  - rewrite !existsb_app. apply orb_false_intro; [apply orb_false_intro|reflexivity].
    + unfold compose_head. cbn [existsb].
      match goal with |- context [Itoa ?p] => set (n := Itoa p) end.
      assert (Hn : free_of "h" n = true) by (apply Itoa_free; [lia|done]). clearbody n.
      match goal with |- context [Contains (_ +:+ dquote +:+ n +:+ ?t) _] =>
        rewrite (Contains_free ("      - " +:+ dquote +:+ n +:+ t) "h" "ealthcheck") end; [reflexivity|].
      rewrite !free_of_app, Hn. reflexivity.
    + apply orb_false_intro; [by destruct (ManualDNS cfg)|].
      unfold compose_tail. cbn [existsb]. rewrite Hi2. reflexivity.
  - rewrite !list.Forall_app. repeat split; [apply compose_head_free; lia| |].
    + destruct (ManualDNS cfg); repeat constructor; reflexivity.
    + unfold compose_tail. repeat (apply list.Forall_cons; split; [try reflexivity|]); [|done].
      by rewrite free_of_app, Hi1.
Qed.
