(* ===== verification/Provision.v ===== *)
(** * provisioner/{awg_init,setup}.go: the server's first configuration

    The random draws behind the AmneziaWG parameters, and the sequence that
    installs the server: connect, generate, upload, start, wait, write the
    configuration, record the result.  The host and the machine's clock and
    randomness are [ProvHost]; [ProvSSH.Client] is the connection.  Captured
    output appended to an error for diagnosis is left out. *)

From stdpp Require Import sorting.
From S2P Require Import Prelude GoLib FS Base64 Config ServerConfig SSH ProvSSH Templates Ports.

(** [crypto/rand] and X25519: n random bytes, a number below a bound, and the
    public key of a private one. *)
Class Random (K : Type) := {
  rand_Read : nat -> eff K string;
  rand_Int : Z -> eff K Z;
  X25519_base : string -> result string
}.
Class RandomLaws (K : Type) `{Random K} : Prop := {
  rand_Read_len n k s k' : rand_Read n k = (Ok s, k') -> slen s = n;
  rand_Int_range m k v k' : rand_Int m k = (Ok v, k') -> (0 <= v < m)%Z
}.

(** ** awg_init.go *)

Record AWGInitConfig := {
  ServerPrivateKey : string; AServerPublicKey : string; APresharedKey : string;
  AListenPort : Z; ASubnet : string; AObfuscation : ObfuscationConfig
}.

Section Generate.
Context {K : Type} `{Random K}.

(** [priv[0] &= 248; priv[31] = (priv[31] & 127) | 64] *)
Definition clamp (priv : string) : string :=
  of_bytes (alter (fun b => Z.lor (Z.land b 127) 64) 31
              (alter (fun b => Z.land b 248) 0 (bytes_of priv))).

Definition generateKeyPair : eff K (string * string) :=
  raw ← wrap "read random bytes: " (rand_Read 32);
  let priv := clamp raw in
  pub ← wrap "X25519 scalar mult: " (lift (X25519_base priv));
  mret (std_encode priv, std_encode pub).

Definition generatePSK : eff K string :=
  psk ← wrap "read random bytes: " (rand_Read 32);
  mret (std_encode psk).

Definition randInt (min max : Z) : eff K Z :=
  n ← rand_Int (max - min + 1);
  mret (n + min)%Z.

Definition pickSubnet : eff K string :=
  x ← randInt 0 16383;
  let byte1 := (64 + Z.shiftr x 8)%Z in
  let byte2 := Z.land x 255 in
  mret ("100." +:+ Itoa byte1 +:+ "." +:+ Itoa byte2 +:+ ".0/24").

(** A loop that has not ended yet. *)
Definition running : string := "still running".

Fixpoint distinct_loop (fuel : nat) (n : nat) (min max : Z) (seen : gset Z) (result : list Z)
  : eff K (list Z) :=
  match fuel with
  | O => panic running
  | S f =>
      if decide (n <= length result) then mret result else
      v ← randInt min max;
      if decide (v ∈ seen) then distinct_loop f n min max seen result
      else distinct_loop f n min max ({[v]} ∪ seen) (result ++ [v])
  end.

Definition randomDistinct (fuel : nat) (n : nat) (min max : Z) : eff K (list Z) :=
  if decide (max - min + 1 < Z.of_nat n)%Z
  then throw ("range too small for " +:+ Itoa (Z.of_nat n) +:+ " distinct values") else
  r ← distinct_loop fuel n min max ∅ [];
  mret (merge_sort Z.le r).

Definition generateObfuscation (fuel : nat) : eff K ObfuscationConfig :=
  s ← randomDistinct fuel 4 0 255;
  h ← randomDistinct fuel 4 1 2147483647;
  match s, h with
  | [s1; s2; s3; s4], [h1; h2; h3; h4] =>
      mret {| Jc := 4; Jmin := 10; Jmax := 50; S1 := s1; S2 := s2; S3 := s3; S4 := s4;
              H1 := h1; H2 := h2; H3 := h3; H4 := h4; I1 := 0; I2 := 0; I3 := 0; I4 := 0; I5 := 0 |}
  | _, _ => panic "index out of range"
  end.

Definition GenerateAWGConfig (fuel : nat) : eff K AWGInitConfig :=
  '(priv, pub) ← wrap "provisioner: generate keypair: " generateKeyPair;
  psk ← wrap "provisioner: generate PSK: " generatePSK;
  port ← wrap "provisioner: pick port: " (randInt 30000 60000);
  subnet ← wrap "provisioner: pick subnet: " pickSubnet;
  obf ← wrap "provisioner: generate obfuscation: " (generateObfuscation fuel);
  mret {| ServerPrivateKey := priv; AServerPublicKey := pub; APresharedKey := psk;
          AListenPort := port; ASubnet := subnet; AObfuscation := obf |}.
End Generate.

(** ** setup.go *)

(** The host behind the connection, and the clock: uploading a file, the
    time, the context's error, and a sleep. *)
Class ProvHost (K : Type) `{SSHExecutor K} := {
  new_client : VPSConfig -> eff K unit;
  close_client : K -> K;
  UploadFile : string -> string -> K -> option string * K;
  h_now : K -> time;
  h_ctx_err : K -> option string;
  h_sleep : Z -> K -> K
}.

Definition serverIPFromSubnet (subnet : string) : string := TrimSuffix subnet ".0/24" +:+ ".1".

Definition caddyImage (cfg : RootConfig) : string :=
  if decide (Provider (DNS cfg) = "cloudflare") then "unet/caddy-cloudflare:local"
  else "caddy:2-alpine".

Definition awg_conf (cfg : AWGInitConfig) : string :=
  let o := AObfuscation cfg in
  text_of ["[Interface]";
    "PrivateKey = " +:+ ServerPrivateKey cfg;
    "Address = " +:+ serverIPFromSubnet (ASubnet cfg) +:+ "/24";
    "ListenPort = " +:+ Itoa (AListenPort cfg);
    "";
    "Jc = " +:+ Itoa (Jc o); "Jmin = " +:+ Itoa (Jmin o); "Jmax = " +:+ Itoa (Jmax o);
    "S1 = " +:+ Itoa (S1 o); "S2 = " +:+ Itoa (S2 o); "S3 = " +:+ Itoa (S3 o); "S4 = " +:+ Itoa (S4 o);
    "H1 = " +:+ Itoa (H1 o); "H2 = " +:+ Itoa (H2 o); "H3 = " +:+ Itoa (H3 o); "H4 = " +:+ Itoa (H4 o)].

(** The result: the container, and the configuration when one was generated. *)
Record ProvisionResult := { ContainerID : string; AWGConfig : option AWGInitConfig }.

Section Setup.
Context {C K : Type} `{ConfigManager C} `{Random K} `{ProvHost K}.

(** The configuration manager and the outside world. *)
Record PWorld := { mgr : C; host : K }.
Definition with_mgr (c : C) (w : PWorld) : PWorld := {| mgr := c; host := host w |}.
Definition with_host (k : K) (w : PWorld) : PWorld := {| mgr := mgr w; host := k |}.
Definition onHost {A} (m : eff K A) : eff PWorld A := on_part host with_host m.

(** A remote command or script: its standard output, or its error. *)
Definition command (cmd : string) : eff K string := stdout_of (ServerConfig.ExecuteCommand cmd).
Definition script (text : string) : eff K string := stdout_of (ServerConfig.ExecuteScript text).
Definition upload (path data : string) : eff K unit := reporting (UploadFile path data).

Definition remoteDir : string := "/opt/unet".
Definition containerName : string := "unet-amnezia-awg".
Definition interval : Z := seconds 3.
Definition timeout : Z := seconds 120.

Definition inspect_cmd (name : string) : string :=
  "docker inspect --format='{{.State.Health.Status}}' " +:+ name +:+ " 2>/dev/null || echo 'not_found'".

Fixpoint wait_loop (fuel : nat) (name : string) (deadline : time) : eff K unit := fun k =>
  match fuel with
  | O => (Panic running, k)
  | S f =>
      if decide (h_now k < deadline)%Z then
        match h_ctx_err k with
        | Some e => (Err e, k)
        | None =>
            ((stdout ← wrap "docker inspect: " (command (inspect_cmd name));
             if decide (TrimSpace stdout = "healthy") then mret tt
             else fun k => wait_loop f name deadline (h_sleep interval k)) : eff K unit) k
        end
      else (Err ("container " +:+ name +:+ " did not become healthy within 2m0s"), k)
  end.

(** The loop ends after at most 40 turns: [wait_ends]. *)
Definition waitForContainerHealthy (name : string) : eff K unit := fun k =>
  wait_loop 41 name (h_now k + timeout)%Z k.

Definition conf_script (container : string) (cfg : AWGInitConfig) : string :=
  "docker exec " +:+ container +:+ " mkdir -p /opt/amnezia/awg && cat <<'AWGEOF' | docker exec -i " +:+
  container +:+ " tee /opt/amnezia/awg/awg0.conf > /dev/null" +:+ nls +:+ awg_conf cfg +:+ nls +:+ "AWGEOF".

Definition writeAWGConfigToContainer (container : string) (cfg : AWGInitConfig) : eff K unit :=
  _ ← wrap "write awg0.conf: " (script (conf_script container cfg));
  mret tt.

(** The three uploads, in the order the map of files is walked. *)
Fixpoint upload_all (fs : list (string * string)) : eff K unit :=
  match fs with
  | [] => mret tt
  | (name, content) :: fs' =>
      _ ← wrap ("provisioner: upload " +:+ name +:+ ": ") (upload (remoteDir +:+ "/" +:+ name) content);
      upload_all fs'
  end.

(** The callback of the final [Update]. *)
Definition record_result (awgCfg : AWGInitConfig) (c : RootConfig) : RootConfig :=
  let v := VPS c in let t := Tunnel c in
  set_Tunnel
    {| InterfaceName := "awg0"; Config.Subnet := ASubnet awgCfg;
       ServerIP := serverIPFromSubnet (ASubnet awgCfg); LocalIP := LocalIP t;
       ServerEndpoint := Host v +:+ ":" +:+ Itoa (AListenPort awgCfg);
       ServerPublicKey := AServerPublicKey awgCfg; PresharedKey := APresharedKey awgCfg;
       PrivateKey := PrivateKey t; PublicKey := PublicKey t; MTU := MTU t;
       PersistentKeepalive := PersistentKeepalive t; Obfuscation := AObfuscation awgCfg;
       Status := "provisioned"; ConnectedAt := ConnectedAt t |}
    (set_VPS
      {| Host := Host v; SSHPort := SSHPort v; Username := Username v; AuthMode := AuthMode v;
         PrivateKeyPath := PrivateKeyPath v; Password := Password v; IsProvisioned := true;
         ContainerName := containerName; ImageBuildHash := ImageBuildHash v |} c).

Definition manual_dns (cfg : RootConfig) : bool :=
  bool_decide (Provider (DNS cfg) = EmptyString \/ Provider (DNS cfg) = "manual").

(** The files to upload for a configuration. *)
Definition render (cfg : RootConfig) (awgCfg : AWGInitConfig) : result (list (string * string)) :=
  let dfCfg := {| Templates.Subnet := ASubnet awgCfg; AWGToolsRelease := "1.0.20250901";
                  AWGGoRelease := "v0.2.13" |} in
  dockerfile ← wrap_err "provisioner: generate Dockerfile: " (GenerateDockerfile dfCfg);
  startSh ← wrap_err "provisioner: generate start.sh: " (GenerateStartSh dfCfg);
  composeYML ← wrap_err "provisioner: generate compose: " (GenerateCompose
     {| AWGPort := AListenPort awgCfg; ManualDNS := manual_dns cfg; CaddyImage := caddyImage cfg |});
  Ok [("Dockerfile", dockerfile); ("start.sh", startSh); ("compose.yml", composeYML)].

(** Steps 2 to 8, on the host alone. *)
Definition install (fuel : nat) (order : list (string * string) -> list (string * string))
    (cfg : RootConfig) : eff K AWGInitConfig :=
  awgCfg ← wrap "provisioner: generate AWG config: " (GenerateAWGConfig fuel);
  fs ← lift (render cfg awgCfg);
  _ ← wrap ("provisioner: mkdir " +:+ remoteDir +:+ ": ") (command ("mkdir -p " +:+ remoteDir));
  _ ← upload_all (order fs);
  _ ← wrap "provisioner: docker compose up: "
        (command ("cd " +:+ remoteDir +:+ " && docker compose up -d --build"));
  _ ← wrap "provisioner: container healthy: " (waitForContainerHealthy containerName);
  _ ← wrap "provisioner: write AWG config to container: "
        (writeAWGConfigToContainer containerName awgCfg);
  _ ← wrap "provisioner: awg-quick up: "
        (command ("docker exec " +:+ containerName +:+ " awg-quick up awg0"));
  mret awgCfg.

(** [defer client.Close()] *)
Definition deferring {A} (m : eff PWorld A) : eff PWorld A := fun w =>
  let '(r, w') := m w in (r, with_host (close_client (host w')) w').

Definition Provision (fuel : nat) (order : list (string * string) -> list (string * string))
  : eff PWorld ProvisionResult := fun w =>
  let cfg := cfg_get (mgr w) in
  if bool_decide (IsProvisioned (VPS cfg) = true /\ ContainerName (VPS cfg) <> EmptyString)
  then (Ok {| ContainerID := ContainerName (VPS cfg); AWGConfig := None |}, w)
  else
    (_ ← wrap "provisioner: create SSH client: " (onHost (new_client (VPS cfg)));
     deferring
       (awgCfg ← onHost (install fuel order cfg);
        _ ← wrap "provisioner: update config: "
              (on_part mgr with_mgr (cfg_update (record_result awgCfg)));
        mret {| ContainerID := containerName; AWGConfig := Some awgCfg |})) w.
End Setup.

(** The provisioner's own client as the host: every operation goes to its
    connection, and [new_client] replaces it. *)
Section ClientHost.
Context {E : Type} `{GoSSH E} `{Random E} (config_dir home_dir : result string).
Context (clock : E -> time) (ctx_err : E -> option string) (sleep : Z -> E -> E).

#[export] Instance client_random : Random (Client (E := E)) := {|
  rand_Read n := ProvSSH.onNet (rand_Read n);
  rand_Int m := ProvSSH.onNet (rand_Int m);
  X25519_base := X25519_base (K := E)
|}.

#[export] Instance client_host : @ProvHost Client (Client_executor config_dir) := {|
  new_client vps := fun c =>
    match NewClient home_dir vps (c_net c) (c_disk c) with
    | Ok c' => (Ok tt, c')
    | Err e => (Err e, c)
    | Panic p => (Panic p, c)
    end;
  close_client c := snd (ProvSSH.Close c);
  UploadFile path data := ProvSSH.UploadFile config_dir path data;
  h_now c := clock (c_net c);
  h_ctx_err c := ctx_err (c_net c);
  h_sleep d c := ProvSSH.with_net (sleep d (c_net c)) c
|}.
End ClientHost.

(** ** Lemmas: random draws *)

Section RandomProofs.
Context {K : Type} `{RandomLaws K}.

Lemma randInt_range min max k v k' : (min <= max)%Z ->
  randInt min max k = (Ok v, k') -> (min <= v <= max)%Z.
Proof.
  intros Hm Hr. unfold randInt in Hr. bind_inv Hr. injection Hr as <- _.
  apply rand_Int_range in E. lia.
Qed.

Lemma distinct_loop_spec f n min max : (min <= max)%Z -> forall seen acc k r k',
  (forall v, v ∈ seen <-> v ∈ acc) -> NoDup acc -> length acc <= n ->
  Forall (fun v => min <= v <= max)%Z acc ->
  distinct_loop f n min max seen acc k = (Ok r, k') ->
  NoDup r /\ length r = n /\ Forall (fun v => min <= v <= max)%Z r.
Proof.
  intros Hm. induction f as [|f IH]; intros seen acc k r k' Hs Hn Hl Hr; [done|].
  cbn [distinct_loop]. case_decide; [intros [= <- _]; repeat split; [done|lia|done]|].
  intros Hd. bind_inv Hd. case_decide as Hv; [by eapply IH in Hd|].
  apply randInt_range in E; [|done]. eapply IH in Hd; [done|..].
  - intros v. rewrite elem_of_union, elem_of_singleton, elem_of_app, list_elem_of_singleton, Hs. tauto.
  - apply list.NoDup_app. split; [done|]. split; [|apply NoDup_singleton].
    intros x Hx ->%list_elem_of_singleton. by apply Hv, Hs.
  - rewrite length_app. simpl. lia.
  - apply list.Forall_app. split; [done|]. by apply list.Forall_singleton.
Qed.

End RandomProofs.

Section RandomEnds.
Context {K : Type} `{Random K}.

(** The first [m] draws, when none of them fails. *)
Fixpoint drawn (m : nat) (min max : Z) (k : K) : option (list Z) :=
  match m with
  | O => Some []
  | S m' => match randInt min max k with
            | (Ok v, k') => cons v <$> drawn m' min max k'
            | _ => None
            end
  end.

Lemma distinct_loop_ends m n min max : forall f seen acc k vs,
  drawn m min max k = Some vs -> size seen = length acc -> 
  n <= size (seen ∪ list_to_set vs : gset Z) -> m < f ->
  exists r k', distinct_loop f n min max seen acc k = (Ok r, k').
Proof.
  induction m as [|m IH]; intros [|f] seen acc k vs Hd Hs Hn Hf; try lia;
    cbn [drawn distinct_loop] in *; (case_decide as Hle; [by eauto|]).
  - injection Hd as <-. simpl in Hn. rewrite (right_id_L ∅ (∪)) in Hn. lia.
  - unfold mbind, eff_bind. destruct (randInt min max k) as [[v|e|p] k1]; [|done..].
    destruct (drawn m min max k1) as [vs'|] eqn:Ev; [|done]. injection Hd as <-. simpl in Hn.
    case_decide as Hv.
    + apply (IH f seen acc k1 vs'); [done..| |lia].
      etransitivity; [exact Hn|]. apply subseteq_size. set_solver.
    + apply (IH f _ _ k1 vs'); [done| | |lia].
      * rewrite size_union, size_singleton, length_app by set_solver. simpl. lia.
      * etransitivity; [exact Hn|]. apply subseteq_size. set_solver.
Qed.
End RandomEnds.

Lemma strictly_sorted (l : list Z) : StronglySorted Z.le l -> NoDup l -> StronglySorted Z.lt l.
Proof.
  induction 1 as [|x l Hs IH Hx]; intros Hn; [constructor|].
  apply list.NoDup_cons in Hn as [Hx' Hn]. constructor; [auto|].
  apply list.Forall_forall. intros y Hy. rewrite list.Forall_forall in Hx.
  specialize (Hx y Hy). destruct (decide (x = y)) as [->|]; [done|lia].
Qed.

(** ** Properties: random draws *)

(** [randomDistinct] returns exactly [n] different numbers of the range, in
    increasing order. *)
Theorem randomDistinct_sorted {K} `{RandomLaws K} fuel n min max k r k' :
  randomDistinct fuel n min max k = (Ok r, k') ->
  length r = n /\ StronglySorted Z.lt r /\ Forall (fun v => min <= v <= max)%Z r.
Proof.
  unfold randomDistinct. case_decide as Hr; [done|]. intros Hd. bind_inv Hd. injection Hd as <- _.
  destruct (decide (n = 0)) as [->|Hn].
  { destruct fuel; [done|]. injection E as <- _. repeat constructor. }
  apply distinct_loop_spec in E as (Hnd & Hl & Hf); [|lia|set_solver|constructor|simpl; lia|constructor].
  pose proof (merge_sort_Permutation Z.le a) as Hp. split; [by rewrite Hp|]. split; [|by rewrite Hp].
  apply strictly_sorted; [apply (StronglySorted_merge_sort Z.le)|by rewrite Hp].
Qed.

(** Its loop ends as soon as [n] different numbers have come up: with one turn
    more than there were draws, it returns. *)
Theorem randomDistinct_ends {K} `{Random K} m fuel n min max k vs :
  (Z.of_nat n <= max - min + 1)%Z ->
  drawn m min max k = Some vs -> n <= size (list_to_set vs : gset Z) -> m < fuel ->
  exists r k', randomDistinct fuel n min max k = (Ok r, k').
Proof.
  intros Hr Hd Hn Hf. unfold randomDistinct. rewrite decide_False by lia.
  destruct (distinct_loop_ends m n min max fuel ∅ [] k vs) as (r & k' & E); [done|done| |done|].
  - by rewrite (left_id_L ∅ (∪)).
  - rewrite (bind_ok _ _ _ _ _ E). eauto.
Qed.

Lemma land_255 z : octet z -> Z.land z 255 = z.
Proof.
  intros Hz. change 255%Z with (Z.ones 8). rewrite Z.land_ones by lia. by apply Z.mod_small.
Qed.

Lemma land_192 z : (64 <= z < 128)%Z -> Z.land z 192 = 64%Z.
Proof.
  intros Hz. apply (bool_decide_eq_true_1 _).
  apply (check_range (fun z => bool_decide (Z.land z 192 = 64%Z)) 64 64 z); [vm_compute; reflexivity|lia].
Qed.

(** C36: The tunnel's subnet is one of the /24 networks of 100.64.0.0/10, the
    carrier-grade NAT range, read back as such by [net.ParseCIDR], and the
    server's address is its first. *)
Theorem pickSubnet_cgnat {K} `{RandomLaws K} k s k' :
  pickSubnet k = (Ok s, k') ->
  exists a b, (64 <= a <= 127)%Z /\ octet b /\
    ParseCIDR s = Some (v4in6 [100; a; b; 0], v4in6 [100; a; b; 0])%Z /\
    apply_mask [100; a; b; 0]%Z 10 = [100; 64; 0; 0]%Z /\
    ParseIP (serverIPFromSubnet s) = Some (v4in6 [100; a; b; 1]%Z).
Proof.
  unfold pickSubnet. intros Hp. bind_inv Hp. apply randInt_range in E; [|lia].
  injection Hp as <- _. set (x := (64 + Z.shiftr a 8)%Z). set (y := Z.land a 255).
  assert (Hx : (64 <= x <= 127)%Z).
  { subst x. rewrite Z.shiftr_div_pow2 by lia.
    pose proof (Z.div_pos a (2 ^ 8)). pose proof (Z.div_lt_upper_bound a (2 ^ 8) 64). lia. }
  assert (Hy : octet y).
  { subst y. unfold octet. change 255%Z with (Z.ones 8). rewrite Z.land_ones by lia.
    pose proof (Z.mod_pos_bound a (2 ^ 8)). lia. }
  exists x, y. split; [done|]. split; [done|].
  assert (Ho : octet 100 /\ octet x /\ octet 0 /\ octet 1) by (unfold octet; lia). destruct Ho as (H1 & H2 & H3 & H4).
  set (s := Itoa 100 +:+ "." +:+ Itoa x +:+ "." +:+ Itoa y +:+ ".0/24").
  match goal with |- context [ParseCIDR ?t] => change t with s end.
  assert (Hs : s = dot4 100 x y 0 +:+ String "/" (Itoa 24)) by (unfold dot4; by rewrite !sapp_assoc).
  assert (Hi : serverIPFromSubnet s = dot4 100 x y 1).
  { unfold serverIPFromSubnet.
    replace s with ((Itoa 100 +:+ "." +:+ Itoa x +:+ "." +:+ Itoa y) +:+ ".0/24")
      by (subst s; by rewrite !sapp_assoc).
    rewrite TrimSuffix_app. unfold dot4. by rewrite !sapp_assoc. }
  rewrite Hi, ParseIP_dot4, Hs, ParseCIDR_dot4 by (done || lia). split; [|split; [|done]].
  - do 2 f_equal. change (v4in6 (map (fun z => Z.land z 255) [100; x; y]%Z ++ [0%Z]) =
                          v4in6 [100; x; y; 0]%Z).
    cbn [map]. by rewrite !land_255.
  - change (apply_mask [100; x; y; 0]%Z 10) with [100; Z.land x 192; Z.land y 0; 0]%Z.
    rewrite Z.land_0_r. do 2 f_equal. apply land_192. lia.
Qed.

Definition clamp_lo (b : Z) : Z := Z.land b 248.
Definition clamp_hi (b : Z) : Z := Z.lor (Z.land b 127) 64.

Definition clamp_ok (b : Z) : bool :=
  ((0 <=? clamp_lo b) && (clamp_lo b <? 256) && (Z.land (clamp_lo b) 7 =? 0) &&
   ((0 <=? clamp_hi b) && (clamp_hi b <? 256) && (Z.land (clamp_hi b) 192 =? 64)))%Z.

Lemma clamp_bits b : byte b ->
  (byte (clamp_lo b) /\ Z.land (clamp_lo b) 7 = 0 /\
   byte (clamp_hi b) /\ Z.land (clamp_hi b) 192 = 64)%Z.
Proof.
  intros Hb.
  assert (H : clamp_ok b = true) by (apply (check_range clamp_ok 0 256); [vm_compute; reflexivity|exact Hb]).
  unfold clamp_ok in H. rewrite !andb_true_iff in H. unfold byte. lia.
Qed.

Lemma clamp_bytes s : bytes_of (clamp s) = alter clamp_hi 31 (alter clamp_lo 0 (bytes_of s)).
Proof.
  unfold clamp. apply bytes_of_bytes.
  apply Forall_alter; [apply Forall_alter; [apply bytes_of_range|]|]; intros z _ Hz; by apply clamp_bits.
Qed.

Lemma slen_bytes s : length (bytes_of s) = slen s.
Proof. unfold bytes_of, slen. rewrite length_map. induction s as [|c s IH]; simpl; by rewrite ?IH. Qed.

(** The keys of a generated pair: both decode; the private one has 32 bytes
    with the bits a Curve25519 scalar must have (the lowest three clear, the
    highest clear and the next one set); the public one belongs to it. *)
Theorem generateKeyPair_clamped {K} `{RandomLaws K} k priv64 pub64 k' :
  generateKeyPair k = (Ok (priv64, pub64), k') ->
  exists priv pub b0 b31,
    std_decode priv64 = Some priv /\ slen priv = 32 /\
    X25519_base priv = Ok pub /\ std_decode pub64 = Some pub /\
    bytes_of priv !! 0 = Some b0 /\ Z.land b0 7 = 0%Z /\
    bytes_of priv !! 31 = Some b31 /\ Z.land b31 192 = 64%Z.
Proof.
  unfold generateKeyPair. intros Hg. bind_inv Hg. apply wrap_ok_inv in E. bind_inv Hg.
  apply wrap_ok_inv in E0. unfold lift in E0. injection E0 as E0 <-. injection Hg as <- <- _.
  apply rand_Read_len in E. pose proof (slen_bytes a) as Hl. rewrite E in Hl.
  pose proof (bytes_of_range a) as Hb. rewrite list.Forall_forall in Hb.
  destruct (lookup_lt_is_Some_2 (bytes_of a) 0) as [b0 Hb0]; [lia|].
  destruct (lookup_lt_is_Some_2 (bytes_of a) 31) as [b31 Hb31]; [lia|].
  exists (clamp a), a0, (clamp_lo b0), (clamp_hi b31).
  rewrite !std_decode_encode, <- slen_bytes, clamp_bytes, !length_alter.
  rewrite list_lookup_alter_ne, list_lookup_alter, Hb0 by done.
  rewrite list_lookup_alter, list_lookup_alter_ne, Hb31 by done.
  pose proof (clamp_bits b0 (Hb _ (list_elem_of_lookup_2 _ _ _ Hb0))).
  pose proof (clamp_bits b31 (Hb _ (list_elem_of_lookup_2 _ _ _ Hb31))).
  repeat split; (done || tauto).
Qed.

(** ** Lemmas: the sequence *)

(** Time passes on the host: a sleep takes its time, a command does not turn
    the clock back. *)
Class HostClock (K : Type) `{ProvHost K} : Prop := {
  sleep_time d k : (h_now k + d <= h_now (h_sleep d k))%Z;
  command_time c k : (h_now k <= h_now (snd (ServerConfig.ExecuteCommand c k)))%Z
}.

(** Docker's documented behaviour: a container has a health status only if
    its compose file or its image asks for one; without one the template of
    the inspection fails, and the command prints what follows it. *)
Class DockerHost (K : Type) `{ProvHost K} := {
  uploaded : K -> gmap string string;
  uploaded_file p d k k' : UploadFile p d k = (None, k') -> uploaded k' = <[p := d]> (uploaded k);
  uploaded_command c k : uploaded (snd (ServerConfig.ExecuteCommand c k)) = uploaded k;
  uploaded_sleep d k : uploaded (h_sleep d k) = uploaded k;
  no_health_status k compose dockerfile :
    uploaded k !! "/opt/unet/compose.yml" = Some compose ->
    uploaded k !! "/opt/unet/Dockerfile" = Some dockerfile ->
    asks_for_health compose dockerfile = false ->
    TrimSpace (fst (fst (fst (ServerConfig.ExecuteCommand (inspect_cmd containerName) k)))) <> "healthy"
}.

Section SetupProofs.
Context {C K : Type} `{ConfigManagerLaws C} `{Random K} `{ProvHost K}.

Lemma command_no_panic c k p : fst (command (K := K) c k) <> Panic p.
Proof. unfold command, stdout_of. by destruct (ServerConfig.ExecuteCommand c k) as [[[o e] [x|]] k1]. Qed.

Lemma command_world c (k : K) : snd (command c k) = snd (ServerConfig.ExecuteCommand c k).
Proof. unfold command, stdout_of. by destruct (ServerConfig.ExecuteCommand c k) as [[[o e] [x|]] k1]. Qed.

Lemma wait_loop_ends `{!HostClock K} name deadline f : forall k p,
  (deadline <= h_now k + interval * Z.of_nat f)%Z ->
  fst (wait_loop (S f) name deadline k) <> Panic p.
Proof.
  induction f as [|f IH]; intros k p Hd; cbn [wait_loop];
    (case_decide as Hlt; [|done]); [lia|].
  destruct (h_ctx_err k); [done|]. unfold mbind, eff_bind, wrap.
  pose proof (command_no_panic (inspect_cmd name) k) as Hp.
  pose proof (command_world (inspect_cmd name) k) as Hw.
  pose proof (command_time (inspect_cmd name) k) as Ht.
  destruct (command (inspect_cmd name) k) as [[out|e|q] k1]; cbn [fst snd wrap_err] in *; [|done|by destruct (Hp q)].
  case_decide; [done|]. subst k1. apply IH.
  pose proof (sleep_time interval (snd (ServerConfig.ExecuteCommand (inspect_cmd name) k))). lia.
Qed.

(** What [install] leaves alone, and what the update does. *)
Lemma install_config fuel order w : preserves (fun w => cfg_get (mgr w))
  (onHost (C := C) (install (K := K) fuel order w)).
Proof. apply preserves_on_part. reflexivity. Qed.

(** What is uploaded. *)
Section Docker.
Context `{!DockerHost K}.

Lemma upload_all_uploaded fs : forall k r k', NoDup fs.*1 ->
  upload_all fs k = (Ok r, k') ->
  forall name data, (name, data) ∈ fs -> uploaded k' !! (remoteDir +:+ "/" +:+ name) = Some data.
Proof.
  assert (Hkeep : forall fs k r k' q, upload_all fs k = (Ok r, k') ->
    (forall name, name ∈ fs.*1 -> remoteDir +:+ "/" +:+ name <> q) -> uploaded k' !! q = uploaded k !! q).
  { clear fs. intros fs. induction fs as [|[n d] fs IH]; intros k r k' q; [by intros [= <- <-]|].
    cbn [upload_all]. intros Hu Hq. bind_inv Hu. apply wrap_ok_inv in E.
    rewrite (IH _ _ _ q Hu) by (intros; apply Hq; rewrite fmap_cons; by right).
    unfold upload, reporting in E. destruct (UploadFile _ _ k) as [[e|] k1] eqn:Eu; [done|].
    injection E as <- <-. rewrite (uploaded_file _ _ _ _ Eu), lookup_insert_ne; [done|].
    apply Hq. rewrite fmap_cons. by left. }
  induction fs as [|[n d] fs IH]; intros k r k' Hn Hu name data Hin; [by apply not_elem_of_nil in Hin|].
  cbn [upload_all] in Hu. bind_inv Hu. rewrite fmap_cons, list.NoDup_cons in Hn. destruct Hn as [Hn1 Hn2].
  apply elem_of_cons in Hin as [Hin|Hin]; [|by eapply IH]. injection Hin as -> ->.
  rewrite (Hkeep _ _ _ _ _ Hu).
  - apply wrap_ok_inv in E. unfold upload, reporting in E.
    destruct (UploadFile _ _ k) as [[e|] k1] eqn:Eu; [done|]. injection E as <- <-.
    rewrite (uploaded_file _ _ _ _ Eu). cbn [fst]. by rewrite lookup_insert, decide_True.
  - intros x Hx Hq%sapp_inj_l%sapp_inj_l. by subst.
Qed.

Lemma wait_not_healthy f deadline compose dockerfile : forall k,
  uploaded k !! "/opt/unet/compose.yml" = Some compose ->
  uploaded k !! "/opt/unet/Dockerfile" = Some dockerfile ->
  asks_for_health compose dockerfile = false ->
  is_ok (fst (wait_loop f containerName deadline k)) = false.
Proof.
  induction f as [|f IH]; intros k Hc Hd Ha; [done|]. cbn [wait_loop]. case_decide; [|done].
  destruct (h_ctx_err k); [done|]. unfold mbind, eff_bind, wrap, command, stdout_of.
  pose proof (no_health_status k _ _ Hc Hd Ha) as Hn.
  pose proof (uploaded_command (inspect_cmd containerName) k) as Hu.
  destruct (ServerConfig.ExecuteCommand (inspect_cmd containerName) k) as [[[out err] [e|]] k1]; [done|].
  cbn [fst snd wrap_err] in *. rewrite decide_False by done. apply IH; [by rewrite uploaded_sleep, Hu..|done].
Qed.
End Docker.
End SetupProofs.

(** ** Properties: the sequence *)

(** The wait for a healthy container ends, whatever the host answers: after at
    most forty inspections the deadline has passed. *)
Theorem wait_for_health_ends {K} `{ProvHost K} `{!HostClock K} name k p :
  fst (waitForContainerHealthy name k) <> Panic p.
Proof.
  unfold waitForContainerHealthy. apply wait_loop_ends. unfold timeout, interval, seconds, ns_second. lia.
Qed.

Section Provisioning.
Context {C K : Type} `{ConfigManagerLaws C} `{Random K} `{ProvHost K}.

(** What a run can end in: on success the configuration
    is the old one with the generated server's settings in it (and only those),
    on any failure it is unchanged; on a host already provisioned the call
    changes nothing and reports the container's name alone. *)
Lemma provision_outcome fuel order w :
  let cfg := cfg_get (mgr w) in
  match Provision (C := C) (K := K) fuel order w with
  | (Ok r, w') =>
      ((IsProvisioned (VPS cfg) = true /\ ContainerName (VPS cfg) <> EmptyString) /\ w' = w /\
         r = {| ContainerID := ContainerName (VPS cfg); AWGConfig := None |}) \/
      exists a, r = {| ContainerID := containerName; AWGConfig := Some a |} /\
                cfg_get (mgr w') = record_result a cfg
  | (_, w') => cfg_get (mgr w') = cfg
  end.
Proof.
  cbv zeta. unfold Provision. case_bool_decide as Hp; [left; tauto|].
  unfold mbind at 1, eff_bind at 1, wrap at 1, onHost at 1, on_part at 1.
  destruct (new_client _ _) as [[[]|e|p] k1]; cbn [wrap_err]; [|done..].
  unfold deferring. set (w1 := with_host k1 w).
  pose proof (install_config fuel order (cfg_get (mgr w)) w1) as Hi.
  unfold mbind at 1, eff_bind at 1.
  destruct (onHost _ w1) as [[a|e|p] w2]; cbn [fst snd] in Hi; [|exact Hi..].
  unfold mbind, eff_bind, wrap, on_part.
  destruct (cfg_update_total (record_result a) (mgr w2)) as (r & c & Eu & Hr).
  rewrite Eu. destruct r as [[]|e|p]; [| |by destruct (Hr p)]; cbn [wrap_err].
  - right. exists a. split; [done|]. apply cfg_update_ok in Eu. cbn. rewrite Eu. by rewrite Hi.
  - apply cfg_update_err in Eu. cbn. by rewrite Eu.
Qed.

Lemma render_no_health cfg a fs : render cfg a = Ok fs ->
  exists d s c, fs = [("Dockerfile", d); ("start.sh", s); ("compose.yml", c)] /\
    asks_for_health c d = false.
Proof.
  unfold render. intros Hr. 
  apply result_bind_ok in Hr as (d & Hd & Hr). apply result_bind_ok in Hr as (s & Hs & Hr).
  apply result_bind_ok in Hr as (c & Hc & Hr). injection Hr as <-.
  exists d, s, c. split; [done|]. unfold asks_for_health.
  injection Hd as <-. destruct (GenerateCompose _) as [c'|e|p] eqn:Ec; [|done..]. injection Hc as <-.
  apply compose_no_health in Ec as ->;
    [vm_compute; reflexivity|cbn; unfold caddyImage; by case_decide..].
Qed.

Lemma command_uploads `{!DockerHost K} pre c k r k' :
  wrap pre (command (K := K) c) k = (Ok r, k') -> uploaded k' = uploaded k.
Proof.
  intros E%wrap_ok_inv. rewrite <- (uploaded_command c k), <- command_world. by rewrite E.
Qed.

Lemma install_fails `{!DockerHost K} fuel order cfg k :
  (forall fs, Permutation (order fs) fs) ->
  is_ok (fst (install (K := K) fuel order cfg k)) = false.
Proof.
  intros Ho. destruct (install fuel order cfg k) as [[a|e|p] k'] eqn:Hi; [exfalso|done..].
  unfold install in Hi. bind_inv Hi. bind_inv Hi. unfold lift in E0. injection E0 as E0 <-.
  bind_inv Hi. bind_inv Hi. bind_inv Hi. bind_inv Hi.
  apply render_no_health in E0 as (d & s & c & -> & Ha).
  assert (Hu : forall name data,
    (name, data) ∈ [("Dockerfile", d); ("start.sh", s); ("compose.yml", c)] ->
    uploaded w2 !! (remoteDir +:+ "/" +:+ name) = Some data).
  { intros name data Hin. rewrite (command_uploads _ _ _ _ _ E3).
    eapply upload_all_uploaded; [|exact E2|by rewrite Ho].
    rewrite (Permutation_map fst (Ho _)). apply (bool_decide_unpack _). vm_compute. exact I. }
  apply wrap_ok_inv in E4. unfold waitForContainerHealthy in E4.
  pose proof (wait_not_healthy 41 (h_now w2 + timeout)%Z c d w2) as Hw.
  rewrite E4 in Hw. discriminate Hw; [| |exact Ha].
  - apply (Hu "compose.yml"). rewrite !elem_of_cons. auto.
  - apply (Hu "Dockerfile"). rewrite !elem_of_cons. auto.
Qed.

(** C6: Provisioning twice is provisioning once.  After a success the settings are
    recorded, and a second call, whatever it would draw, leaves the
    configuration and the host as they are and names the same container; after
    a failure the configuration is as before, so that the next call starts
    again from the beginning. *)
Theorem provision_idempotent fuel order fuel' order' w :
  match Provision (C := C) (K := K) fuel order w with
  | (Ok r, w') =>
      IsProvisioned (VPS (cfg_get (mgr w'))) = true /\
      Provision fuel' order' w' = (Ok {| ContainerID := ContainerID r; AWGConfig := None |}, w') /\
      (forall a, AWGConfig r = Some a -> cfg_get (mgr w') = record_result a (cfg_get (mgr w)))
  | (_, w') => cfg_get (mgr w') = cfg_get (mgr w)
  end.
Proof.
  pose proof (provision_outcome fuel order w) as Ho. cbv zeta in Ho.
  destruct (Provision fuel order w) as [[r|e|p] w'] eqn:E; [|exact Ho..].
  destruct Ho as [(Hp & -> & ->)|(a & -> & Hc)].
  - split; [tauto|]. split; [|done]. unfold Provision. by rewrite bool_decide_eq_true_2.
  - rewrite Hc. split; [done|]. split; [|intros a0 Ha; by injection Ha as ->].
    unfold Provision. rewrite Hc. by rewrite bool_decide_eq_true_2.
Qed.

(** On a Docker host the provisioning of a new server never succeeds, in
    whatever order the files are uploaded: it waits for the container to report
    a health status, and none of the files it generates asks for a health
    check, so that no such status exists. *)
Theorem provision_never_succeeds `{!DockerHost K} fuel order w :
  (forall fs, Permutation (order fs) fs) ->
  IsProvisioned (VPS (cfg_get (mgr w))) = false ->
  is_ok (fst (Provision (C := C) (K := K) fuel order w)) = false.
Proof.
  intros Ho Hp. unfold Provision. rewrite bool_decide_eq_false_2 by (rewrite Hp; by intros [? _]).
  unfold mbind at 1, eff_bind at 1, wrap at 1, onHost at 1, on_part at 1.
  destruct (new_client _ _) as [[[]|e|p] k1]; cbn [wrap_err]; [|done..].
  unfold deferring, mbind at 1, eff_bind at 1, onHost, on_part at 1.
  pose proof (install_fails fuel order (cfg_get (mgr w)) k1 Ho) as Hi. cbn [host with_host].
  by destruct (install _ _ _ k1) as [[a|e|p] k2].
Qed.
End Provisioning.

(** ** A sample host, for the witnesses: it remembers what is uploaded, has a
    clock, and answers every command with one line. *)

Record shost := { s_up : gmap string string; s_time : time; s_next : Z }.

Definition sample_random : Random shost := {|
  rand_Read n := mret (of_bytes (replicate n 255%Z));
  rand_Int m := fun k =>
    (if decide (0 < m)%Z then Ok (s_next k `mod` m)%Z else Err "argument",
     {| s_up := s_up k; s_time := s_time k; s_next := s_next k + 257 |});
  X25519_base s := Ok s
|}.

Definition sample_executor (answer : string) : SSHExecutor shost := {|
  ServerConfig.ExecuteCommand _ k := ((answer, EmptyString, None), k);
  ServerConfig.ExecuteScript _ k := ((answer, EmptyString, None), k)
|}.

Definition sample_host answer : @ProvHost shost (sample_executor answer) :=
  @Build_ProvHost shost (sample_executor answer)
    (fun _ => mret tt) id
    (fun p d k => (None, {| s_up := <[p := d]> (s_up k); s_time := s_time k; s_next := s_next k |}))
    s_time (fun _ => None)
    (fun d k => {| s_up := s_up k; s_time := s_time k + d; s_next := s_next k |}).

Lemma slen_replicate n z : slen (of_bytes (replicate n z)) = n.
Proof. unfold of_bytes, slen. induction n as [|n IH]; simpl; by rewrite ?IH. Qed.

Definition sample_random_laws : @RandomLaws shost sample_random.
Proof.
  split.
  - intros n k s k' [= <- _]. apply slen_replicate.
  - intros m k v k'. simpl. case_decide; [|done]. intros [= <- _]. by apply Z.mod_pos_bound.
Qed.

Definition sample_clock answer : @HostClock shost (sample_executor answer) (sample_host answer).
Proof. split; simpl; [lia|done]. Qed.

Definition sample_docker answer : TrimSpace answer <> "healthy" ->
  @DockerHost shost (sample_executor answer) (sample_host answer).
Proof.
  intros Ha. refine {| uploaded := s_up : shost -> _ |}; [by intros p d k k' [= <-]|done..].
Defined.

Definition new_host : shost := {| s_up := ∅; s_time := 0; s_next := 5 |}.

Definition sample_world : PWorld (C := RootConfig) (K := shost) :=
  {| mgr := set_VPS sample_vps (defaultConfig "u"); host := new_host |}.

Section Witnesses.
#[local] Instance w_config : ConfigManager RootConfig := plain_config.
#[local] Instance w_config_laws : ConfigManagerLaws RootConfig := plain_config_laws.
#[local] Instance w_random : Random shost := sample_random.
#[local] Instance w_random_laws : RandomLaws shost := sample_random_laws.

Lemma randomDistinct_sorted_witness :
  exists k', randomDistinct 9 4 0 255 new_host = (Ok [5; 6; 7; 8]%Z, k') /\ StronglySorted Z.lt [5; 6; 7; 8]%Z.
Proof.
  eexists. split; [vm_compute; reflexivity|].
  refine (proj1 (proj2 (randomDistinct_sorted 9 4 0 255 new_host _ _ _))). vm_compute. reflexivity.
Defined.

Lemma randomDistinct_ends_witness : exists r k', randomDistinct 5 4 0 255 new_host = (Ok r, k').
Proof.
  refine (randomDistinct_ends 4 5 4 0 255 new_host [5; 6; 7; 8]%Z _ _ _ _);
    [lia|vm_compute; reflexivity|apply (bool_decide_unpack _); vm_compute; exact I|lia].
Defined.

Lemma pickSubnet_cgnat_witness : exists a b, (64 <= a <= 127)%Z /\ octet b /\
  ParseIP "100.64.5.1" = Some (v4in6 [100; a; b; 1]%Z).
Proof.
  destruct (pickSubnet_cgnat new_host "100.64.5.0/24"
    {| s_up := ∅; s_time := 0; s_next := 262 |}) as (a & b & Ha & Hb & _ & _ & Hp).
  - vm_compute. reflexivity.
  - exists a, b. split; [exact Ha|]. split; [exact Hb|]. exact Hp.
Defined.

Lemma generateKeyPair_clamped_witness : exists priv b31,
  slen priv = 32 /\ bytes_of priv !! 31 = Some b31 /\ Z.land b31 192 = 64%Z.
Proof.
  destruct (generateKeyPair_clamped new_host (std_encode (clamp (of_bytes (replicate 32 255%Z))))
    (std_encode (clamp (of_bytes (replicate 32 255%Z)))) new_host)
    as (priv & pub & b0 & b31 & _ & Hl & _ & _ & _ & _ & Hb & Hv).
  - vm_compute. reflexivity.
  - exists priv, b31. split; [exact Hl|]. split; [exact Hb|exact Hv].
Defined.

Lemma wait_for_health_ends_witness :
  let r := fst (@waitForContainerHealthy shost (sample_executor "starting") (sample_host "starting")
                  "c" new_host) in
  r = Err "container c did not become healthy within 2m0s" /\ r <> Panic running.
Proof.
  split; [vm_compute; reflexivity|].
  apply (@wait_for_health_ends shost _ (sample_host "starting") (sample_clock "starting")).
Defined.

Lemma provision_idempotent_witness :
  let p := @Provision RootConfig shost w_config w_random (sample_executor "healthy")
             (sample_host "healthy") 9 (@rev _) in
  let w' := snd (p sample_world) in
  is_ok (fst (p sample_world)) = true /\
  ServerEndpoint (Tunnel (cfg_get (mgr w'))) = "my-vps:30005" /\
  p w' = (Ok {| ContainerID := "unet-amnezia-awg"; AWGConfig := None |}, w').
Proof.
  split; [vm_compute; reflexivity|]. split; [vm_compute; reflexivity|].
  pose proof (@provision_idempotent RootConfig shost w_config w_config_laws w_random
    (sample_executor "healthy") (sample_host "healthy") 9 (@rev _) 9 (@rev _) sample_world) as Hp.
  destruct (Provision 9 (@rev _) sample_world) as [[r|e|p] w'] eqn:E;
    [|vm_compute in E; discriminate E..].
  destruct Hp as (_ & Hp & _). cbn [snd]. rewrite Hp. vm_compute in E. injection E as <- _. reflexivity.
Defined.

Lemma provision_never_succeeds_witness :
  is_ok (fst (@Provision RootConfig shost w_config w_random (sample_executor "not_found")
    (sample_host "not_found") 9 id sample_world)) = false.
Proof.
  refine (@provision_never_succeeds RootConfig shost w_config w_random
    (sample_executor "not_found") (sample_host "not_found") (sample_docker "not_found" _) 9 id sample_world _ _).
  - vm_compute. discriminate.
  - reflexivity.
  - reflexivity.
Defined.
End Witnesses.
