(* ===== verification/CaddyMTLS.v ===== *)
(** * proxy/caddy_mtls.go: client certificates for Caddy's admin API

    A JSON object is the list of its members, each key once; [jset] replaces a
    member or adds one.  [encoding/json], X.509 and the generation of keys are
    parameters; PEM and base64 are the definitions here and in [Base64].
    Captured output appended to an error for diagnosis is left out. *)

From S2P Require Import Prelude GoLib Config ServerConfig Base64 Ports.

Abbreviation object := (list (string * json)).

Fixpoint jget (k : string) (o : object) : option json :=
  match o with
  | [] => None
  | (k', v) :: o' => if decide (k' = k) then Some v else jget k o'
  end.

Fixpoint jset (k : string) (v : json) (o : object) : object :=
  match o with
  | [] => [(k, v)]
  | (k', v') :: o' => if decide (k' = k) then (k, v) :: o' else (k', v') :: jset k v o'
  end.

(** [v.(map[string]interface{})], [v.([]interface{})] and [v.(string)] of a
    member that may be missing. *)
Definition as_object (v : option json) : option object :=
  match v with Some (JObj o) => Some o | _ => None end.
Definition as_array (v : option json) : option (list json) :=
  match v with Some (JArr l) => Some l | _ => None end.

(** ** PEM *)

(** [pem.EncodeToMemory]: base64 in lines of 64 characters. *)
Fixpoint pem_lines (fuel : nat) (s : string) : string :=
  match fuel with
  | O => EmptyString
  | S f => if decide (s = EmptyString) then EmptyString
           else stake 64 s +:+ nls +:+ pem_lines f (sdrop 64 s)
  end.

Definition begin_marker (type : string) : string := "-----BEGIN " +:+ type +:+ "-----".
Definition end_marker (type : string) : string := "-----END " +:+ type +:+ "-----".

Definition pem_encode (type der : string) : string :=
  let b64 := std_encode der in
  begin_marker type +:+ nls +:+ pem_lines (S (slen b64)) b64 +:+ end_marker type +:+ nls.

(** [s[lo:hi]], which panics when the bounds are out of order. *)
Definition slice (s : string) (lo hi : nat) : result string :=
  if decide (lo <= hi <= slen s) then Ok (stake (hi - lo) (sdrop lo s))
  else Panic "slice bounds out of range".

Definition remove_char (c : ascii) (s : string) : string := ReplaceAll s c EmptyString.

Definition pemDecode (pemStr : string) : result string :=
  match Index pemStr (begin_marker "CERTIFICATE"), Index pemStr (end_marker "CERTIFICATE") with
  | Some beginIdx, Some endIdx =>
      body ← slice pemStr (beginIdx + slen (begin_marker "CERTIFICATE")) endIdx;
      let b64 := TrimSpace body in
      let b64 := remove_char " " (remove_char cr (remove_char nl b64)) in
      match std_decode b64 with
      | Some der => Ok der
      | None => Err "illegal base64 data"
      end
  | _, _ => Err "no PEM certificate block found"
  end.

(** ** The configuration of Caddy *)

Definition is_string (s : string) (v : json) : bool :=
  match v with JStr t => bool_decide (t = s) | _ => false end.

Definition has_key (pk : string) (entry : json) : bool :=
  match entry with
  | JObj ac => match jget "public_keys" ac with
               | Some (JArr pks) => existsb (is_string pk) pks
               | _ => false
               end
  | _ => false
  end.

Definition new_entry (pk : string) : json :=
  JObj [("public_keys", JArr [JStr pk]);
        ("permissions", JArr [JObj [("paths", JArr [JStr "/config/*"]);
          ("methods", JArr [JStr "GET"; JStr "POST"; JStr "DELETE"; JStr "PATCH"; JStr "PUT"])]])].

(** The list under [admin.remote.access_control], empty when it is missing or
    something else. *)
Definition admin_of (o : object) : object := default [] (as_object (jget "admin" o)).
Definition remote_of (o : object) : object := default [] (as_object (jget "remote" (admin_of o))).
Definition access_control (o : object) : list json :=
  default [] (as_array (jget "access_control" (remote_of o))).

(** [injectMTLSPublicKey] on the decoded file; [None] is the nil map that the
    text [null] decodes to, in which nothing can be stored. *)
Definition injectMTLSPublicKey (caddyConfig : option object) (pubKeyB64 : string) : result object :=
  match caddyConfig with
  | None => Panic "assignment to entry in nil map"
  | Some o =>
      let put remote := jset "admin" (JObj (jset "remote" (JObj remote) (admin_of o))) o in
      let acList := access_control o in
      if existsb (has_key pubKeyB64) acList then Ok (put (remote_of o))
      else match acList with
      | JObj acMap :: rest =>
          let pks := default [] (as_array (jget "public_keys" acMap)) in
          let acMap' := jset "public_keys" (JArr (pks ++ [JStr pubKeyB64])) acMap in
          Ok (put (jset "access_control" (JArr (JObj acMap' :: rest)) (remote_of o)))
      | _ :: _ => Ok (put (remote_of o))
      | [] => Ok (put (jset "access_control" (JArr [new_entry pubKeyB64]) (remote_of o)))
      end
  end.

Definition hasTLSListener (o : object) : bool :=
  match as_object (jget "admin" o) with
  | None => false
  | Some admin =>
      match jget "listen" admin with
      | Some (JStr v) => HasPrefix v "https://"
      | Some (JArr l) => existsb (fun item => match item with JStr s => HasPrefix s "https://" | _ => false end) l
      | _ => false
      end
  end.

Definition shellArgCaddy (s : string) : string :=
  String sq EmptyString +:+ ReplaceAll s sq sq_escaped +:+ String sq EmptyString.

(** ** The client *)

(** [encoding/json] on an object, with [None] for the nil map; X.509: a fresh
    certificate and key, the public key of a certificate, and whether a
    certificate and a key belong together. *)
Class MTLSCodec := {
  object_unmarshal : string -> option (option object);
  object_marshal : object -> string;
  spki : string -> result string;
  X509KeyPair : string -> string -> option string
}.
Class CertMaker (K : Type) := { make_cert : eff K (string * string) }.

Inductive http_client := IpOnly | WithCert (certPEM keyPEM : string).

Section MTLS.
Context {C K : Type} `{ConfigManager C} `{SSHExecutor K} `{CertMaker K} `{MTLSCodec}.

(** The part of the client these operations use, with the outside world. *)
Record MClient := { cfgMgr : C; sshClient : bool; httpClient : http_client; outside : K }.
Definition with_cfg (c : C) (m : MClient) : MClient :=
  {| cfgMgr := c; sshClient := sshClient m; httpClient := httpClient m; outside := outside m |}.
Definition with_outside (k : K) (m : MClient) : MClient :=
  {| cfgMgr := cfgMgr m; sshClient := sshClient m; httpClient := httpClient m; outside := k |}.
Definition SetHTTPClient (h : http_client) (m : MClient) : MClient :=
  {| cfgMgr := cfgMgr m; sshClient := sshClient m; httpClient := h; outside := outside m |}.
Definition onCfg {A} (f : eff C A) : eff MClient A := on_part cfgMgr with_cfg f.
Definition onOutside {A} (f : eff K A) : eff MClient A := on_part outside with_outside f.

Definition set_client_cert (cert key : string) (c : RootConfig) : RootConfig :=
  let a := CaddyAPI c in
  {| VPS := VPS c; Tunnel := Tunnel c;
     CaddyAPI := {| Address := Address a; TLSCert := TLSCert a; TLSKey := TLSKey a;
                    ClientCert := cert; ClientKey := key |};
     ExposedPorts := ExposedPorts c; DNS := DNS c; Daemon := Daemon c; RemoteAPI := RemoteAPI c;
     ServerMirror := ServerMirror c; UIToken := UIToken c |}.

(** The pair, also when saving it fails, which is only logged. *)
Definition GenerateClientCert : eff MClient (string * string) :=
  '(certDER, keyDER) ← wrap "proxy: create certificate: " (onOutside make_cert);
  let certPEM := pem_encode "CERTIFICATE" certDER in
  let keyPEM := pem_encode "EC PRIVATE KEY" keyDER in
  _ ← try (onCfg (cfg_update (set_client_cert certPEM keyPEM)));
  mret (certPEM, keyPEM).

Definition extractPublicKeyDER (certPEM : string) : result string :=
  block ← pemDecode certPEM; spki block.

Definition container : string := "unet-caddy".
Definition readCmd : string :=
  "docker exec " +:+ shellArgCaddy container +:+ " cat /config/caddy/autosave.json".
Definition writeScript : string :=
  "docker exec -i " +:+ shellArgCaddy container +:+ " sh -c 'cat > /config/caddy/autosave.json'".
Definition fullScript (updatedJSON : string) : string :=
  writeScript +:+ " <<'UNETFENCE'" +:+ nls +:+ updatedJSON +:+ nls +:+ "UNETFENCE".
Definition reloadCmd : string :=
  "docker exec " +:+ shellArgCaddy container +:+
  " caddy reload --config /config/caddy/autosave.json --adapter json".

(** Steps 3 to 6, on the host. *)
Definition register (pubKeyB64 : string) : eff K unit :=
  stdout ← wrap "proxy: bootstrap mTLS: read caddy config: " (stdout_of (ExecuteCommand readCmd));
  caddyConfig ← (match object_unmarshal stdout with
                 | Some c => mret c
                 | None => throw "proxy: bootstrap mTLS: parse caddy config: invalid JSON"
                 end);
  updated ← lift (injectMTLSPublicKey caddyConfig pubKeyB64);
  _ ← wrap "proxy: bootstrap mTLS: write config: "
        (stdout_of (ExecuteScript (fullScript (object_marshal updated))));
  _ ← wrap "proxy: bootstrap mTLS: caddy reload: " (stdout_of (ExecuteCommand reloadCmd));
  mret tt.

Definition BootstrapMTLS : eff MClient unit :=
  m ← get;
  let a := CaddyAPI (cfg_get (cfgMgr m)) in
  certPEM ← (if decide (ClientCert a = EmptyString \/ Plain (ClientKey a) = EmptyString)
             then '(c, _) ← wrap "proxy: bootstrap mTLS: generate cert: " GenerateClientCert; mret c
             else mret (ClientCert a));
  pubKeyDER ← wrap "proxy: bootstrap mTLS: extract public key: " (lift (extractPublicKeyDER certPEM));
  m ← get;
  if sshClient m then onOutside (register (std_encode pubKeyDER))
  else throw "proxy: bootstrap mTLS: SSH client not configured (required for secure mTLS provisioning)".

Definition CreateTLSClient : eff MClient http_client := fun m =>
  let a := CaddyAPI (cfg_get (cfgMgr m)) in
  let certPEM := ClientCert a in let keyPEM := Plain (ClientKey a) in
  if decide (certPEM = EmptyString \/ keyPEM = EmptyString)
  then (Err "proxy: no client certificate configured, run BootstrapMTLS first", m)
  else match X509KeyPair certPEM keyPEM with
       | Some e => (Err ("proxy: load client cert: " +:+ e), m)
       | None => (Ok (WithCert certPEM keyPEM), m)
       end.

Definition ToggleMTLS (enabled : bool) : eff MClient unit :=
  if enabled then
    tls ← wrap "proxy: toggle mTLS on: " CreateTLSClient;
    modify (SetHTTPClient tls)
  else modify (SetHTTPClient IpOnly).
End MTLS.

(** ** Lemmas: JSON objects *)

Lemma jget_jset k v o : jget k (jset k v o) = Some v.
Proof.
  induction o as [|[k' v'] o IH]; cbn; [by rewrite decide_True|].
  case_decide; cbn; [by rewrite decide_True|by rewrite decide_False].
Qed.

Lemma jget_jset_ne k k' v o : k <> k' -> jget k (jset k' v o) = jget k o.
Proof.
  intros Hk. induction o as [|[k'' v'] o IH]; cbn; [by rewrite decide_False|].
  case_decide; cbn; [subst; by rewrite !decide_False|]. by rewrite IH.
Qed.

Lemma jset_same k v o : jget k o = Some v -> jset k v o = o.
Proof.
  induction o as [|[k' v'] o IH]; [done|]. cbn. case_decide; [by intros [= ->]; subst|].
  intros Hg. by rewrite IH.
Qed.

Lemma jset_jset k v v' o : jset k v (jset k v' o) = jset k v o.
Proof.
  induction o as [|[k' w] o IH]; cbn; [by rewrite decide_True|].
  case_decide; cbn; [by rewrite decide_True|]. by rewrite decide_False, IH.
Qed.

(** ** Lemmas: the access control list *)

Definition put (remote o : object) : object :=
  jset "admin" (JObj (jset "remote" (JObj remote) (admin_of o))) o.

Lemma admin_put r o : admin_of (put r o) = jset "remote" (JObj r) (admin_of o).
Proof. unfold put, admin_of. by rewrite jget_jset. Qed.

Lemma remote_put r o : remote_of (put r o) = r.
Proof. unfold remote_of at 1. by rewrite admin_put, jget_jset. Qed.

Lemma access_put l o : access_control (put (jset "access_control" (JArr l) (remote_of o)) o) = l.
Proof. unfold access_control. by rewrite remote_put, jget_jset. Qed.

(** What is there already is not built anew. *)
Lemma put_same o : access_control o <> [] -> put (remote_of o) o = o.
Proof.
  unfold access_control, put. intros Ha.
  destruct (jget "remote" (admin_of o)) as [rv|] eqn:Er; cycle 1.
  { unfold remote_of in Ha. by rewrite Er in Ha. }
  destruct (as_object (Some rv)) as [r|] eqn:Eo; cycle 1.
  { unfold remote_of in Ha. by rewrite Er, Eo in Ha. }
  assert (Hr : remote_of o = r) by (unfold remote_of; by rewrite Er, Eo).
  destruct rv; try done. injection Eo as ->. rewrite Hr, (jset_same "remote") by done.
  apply jset_same. unfold admin_of in *.
  destruct (jget "admin" o) as [[]|]; try done.
Qed.

Lemma put_put r r' o : put r (put r' o) = put r o.
Proof. unfold put at 1. rewrite admin_put, jset_jset. unfold put. by rewrite jset_jset. Qed.

(** Where a key can be added: to the first entry, or to a list still empty. *)
Definition can_register (o : object) : bool :=
  match access_control o with [] | JObj _ :: _ => true | _ => false end.
Definition registered (pk : string) (o : object) : bool := existsb (has_key pk) (access_control o).

Lemma has_key_added q pks ac :
  has_key q (JObj (jset "public_keys" (JArr pks) ac)) = existsb (is_string q) pks.
Proof. unfold has_key. by rewrite jget_jset. Qed.

Lemma has_key_pks q ac :
  has_key q (JObj ac) = existsb (is_string q) (default [] (as_array (jget "public_keys" ac))).
Proof. unfold has_key. by destruct (jget "public_keys" ac) as [[]|]. Qed.

Lemma has_key_new q pk : has_key q (new_entry pk) = bool_decide (pk = q).
Proof.
  unfold has_key, new_entry. cbn [jget]. rewrite decide_True by done. cbn. by rewrite orb_false_r.
Qed.

(** The list after a registration. *)
Lemma inject_access o pk o' : injectMTLSPublicKey (Some o) pk = Ok o' ->
  forall q, registered q o' = registered q o || (bool_decide (pk = q) && can_register o).
Proof.
  unfold injectMTLSPublicKey. fold (registered pk o). intros Hi q.
  assert (Hb : forall l, existsb (is_string q) (l ++ [JStr pk]) = existsb (is_string q) l || bool_decide (pk = q)).
  { intros l. rewrite existsb_app. cbn. by rewrite orb_false_r. }
  destruct (registered pk o) eqn:Hr.
  { injection Hi as <-. unfold registered in *. fold (put (remote_of o) o).
    rewrite put_same by (intros E; by rewrite E in Hr).
    case_bool_decide; [subst; by rewrite Hr|]. by rewrite orb_false_r. }
  unfold can_register. destruct (access_control o) as [|v rest] eqn:Ha.
  - injection Hi as <-. unfold registered. 
    match goal with |- context [jset "admin" ?x o] => change (jset "admin" x o) with
      (put (jset "access_control" (JArr [new_entry pk]) (remote_of o)) o) end.
    rewrite access_put, Ha. cbn [existsb]. by rewrite has_key_new, andb_true_r, orb_false_r.
  - assert (Hsame : existsb (has_key q) (access_control (put (remote_of o) o)) = registered q o)
      by (unfold registered; by rewrite put_same, ?Ha by (by rewrite Ha)).
    destruct v as [| | | | |acMap]; injection Hi as <-; 
      try (fold (put (remote_of o) o); unfold registered at 1; rewrite Hsame; by rewrite andb_false_r, orb_false_r).
    match goal with |- context [jset "admin" ?x o] => change (jset "admin" x o) with
      (put (jset "access_control" (JArr (JObj (jset "public_keys"
         (JArr (default [] (as_array (jget "public_keys" acMap)) ++ [JStr pk])) acMap) :: rest)) (remote_of o)) o) end.
    unfold registered. rewrite access_put, Ha. cbn [existsb].
    rewrite has_key_added, Hb, has_key_pks, andb_true_r.
    by destruct (existsb (is_string q) _), (bool_decide (pk = q)), (existsb (has_key q) rest).
Qed.

(** A key that is there is not added again. *)
Lemma inject_registered pk o : registered pk o = true -> injectMTLSPublicKey (Some o) pk = Ok o.
Proof.
  intros Hr. unfold injectMTLSPublicKey. fold (registered pk o). rewrite Hr.
  fold (put (remote_of o) o). rewrite put_same; [done|].
  intros E. unfold registered in Hr. by rewrite E in Hr.
Qed.

(** Nothing else of Caddy's configuration changes: the other members of the
    file and of its [admin] part stay, and so does whether the admin API
    listens with TLS. *)
Lemma inject_only_admin o pk o' :
  injectMTLSPublicKey (Some o) pk = Ok o' ->
  (forall k, k <> "admin" -> jget k o' = jget k o) /\
  (forall k, k <> "remote" -> jget k (admin_of o') = jget k (admin_of o)) /\
  hasTLSListener o' = hasTLSListener o.
Proof.
  intros Hi. assert (exists r, o' = put r o) as [r ->].
  { unfold injectMTLSPublicKey in Hi. destruct (existsb _ _); [injection Hi as <-; by eexists|].
    destruct (access_control o) as [|[] rest]; injection Hi as <-; by eexists. }
  split; [intros k Hk; by apply jget_jset_ne|].
  assert (Ha : forall k, k <> "remote" -> jget k (admin_of (put r o)) = jget k (admin_of o))
    by (intros k Hk; rewrite admin_put; by apply jget_jset_ne).
  split; [done|]. specialize (Ha "listen" ltac:(done)).
  assert (Hl : forall x, hasTLSListener x = match jget "listen" (admin_of x) with
      | Some (JStr v) => HasPrefix v "https://"
      | Some (JArr l) => existsb (fun item => match item with JStr s => HasPrefix s "https://" | _ => false end) l
      | _ => false end) by (intros x; unfold hasTLSListener, admin_of; by destruct (as_object _)).
  by rewrite !Hl, Ha.
Qed.

(** ** Lemmas: PEM *)

(** The characters that are to be seen. *)
Fixpoint sfilter (f : ascii -> bool) (s : string) : string :=
  match s with
  | EmptyString => EmptyString
  | String a s' => if f a then String a (sfilter f s') else sfilter f s'
  end.

Lemma sfilter_app f a b : sfilter f (a +:+ b) = sfilter f a +:+ sfilter f b.
Proof. induction a as [|c a IH]; [done|]. cbn. rewrite IH. by destruct (f c). Qed.

Lemma sfilter_all f s : str_all f s = true -> sfilter f s = s.
Proof. induction s as [|c s IH]; [done|]. cbn. intros [-> Hs]%andb_prop. by rewrite IH. Qed.

Lemma sfilter_blank s : blank s = true -> sfilter graphic s = EmptyString.
Proof.
  induction s as [|c s IH]; [done|]. cbn. intros [Hc Hs]%andb_prop. apply negb_true_iff in Hc.
  rewrite Hc. by apply IH.
Qed.

Lemma sfilter_srev f s : sfilter f (srev s) = srev (sfilter f s).
Proof.
  induction s as [|c s IH]; [done|]. rewrite srev_cons, sfilter_app, IH. cbn [sfilter].
  destruct (f c); [by rewrite srev_cons|by rewrite sapp_nil_r].
Qed.

(** Trimming drops nothing that is to be seen, and adds nothing. *)
Lemma trim_left_keeps f sps P s : forallb blank sps = true ->
  sfilter graphic (trim_left_with f sps s) = sfilter graphic s /\
  (str_all P s = true -> str_all P (trim_left_with f sps s) = true).
Proof.
  intros Hsps. revert s. induction f as [|f IH]; intros s; [by split|]. cbn [trim_left_with].
  destruct (first_space sps s) as [n|] eqn:E; [|by split].
  destruct (first_space_blank _ _ _ Hsps E) as (p & r & -> & <- & Hp).
  destruct (IH r) as [IH1 IH2]. rewrite sdrop_app, sfilter_app, (sfilter_blank p) by done. split; [exact IH1|].
  rewrite str_all_app. intros [_ Hr]%andb_prop. by apply IH2.
Qed.

Lemma TrimSpace_keeps P s :
  sfilter graphic (TrimSpace s) = sfilter graphic s /\
  (str_all P s = true -> str_all P (TrimSpace s) = true).
Proof.
  unfold TrimSpace, TrimRightSpace, TrimLeftSpace. set (l := trim_left_with _ spaces s).
  destruct (trim_left_keeps (slen s) spaces P s) as [H1 H2]; [by vm_compute|].
  destruct (trim_left_keeps (slen l) (map srev spaces) P (srev l)) as [H3 H4]; [by vm_compute|].
  split.
  - by rewrite sfilter_srev, H3, sfilter_srev, srev_involutive.
  - intros Hs. rewrite str_all_srev. apply H4. rewrite str_all_srev. by apply H2.
Qed.

Definition pem_char (c : ascii) : bool := graphic c || bool_decide (c = nl).

Lemma remove_blanks s : str_all pem_char s = true ->
  remove_char " " (remove_char cr (remove_char nl s)) = sfilter graphic s.
Proof.
  induction s as [|c s IH]; [done|]. cbn. unfold pem_char at 1. intros [Hc Hs]%andb_prop.
  specialize (IH Hs). unfold remove_char in *. destruct (decide (c = nl)) as [->|Hn]; [exact IH|].
  rewrite bool_decide_eq_false_2, orb_false_r in Hc by done. rewrite Hc.
  assert (c <> cr /\ c <> " "%char) as [H1 H2] by (split; intros ->; discriminate Hc).
  cbn. rewrite decide_False by done. cbn. rewrite decide_False by done. by rewrite IH.
Qed.

Lemma str_all_forallb f s : str_all f s = forallb f (String.list_ascii_of_string s).
Proof. induction s as [|c s IH]; [done|]. cbn. by rewrite IH. Qed.

(** Base64 text: graphic, and no dash. *)
Definition b64_char (c : ascii) : bool := graphic c && negb (bool_decide (c = "-"%char)).

Lemma std_encode_b64 s : str_all b64_char (std_encode s) = true.
Proof.
  rewrite str_all_forallb. destruct (std_encode_chars s) as (pad & -> & Hp & _).
  rewrite forallb_app. apply andb_true_intro. split.
  - apply forallb_forall. intros c (v & <- & Hv)%in_map_iff.
    pose proof (sextets_range _ (bytes_of_range s)) as Hr. rewrite List.Forall_forall in Hr.
    apply (check_range (fun v => b64_char (alphabet "+" "/" v)) 0 64); [vm_compute; reflexivity|].
    specialize (Hr v Hv). lia.
  - unfold paddings in Hp. rewrite !elem_of_cons in Hp.
    by destruct Hp as [->|[->|[->|[]%not_elem_of_nil]]].
Qed.

Lemma Index_skip c p a s : free_of c a = true ->
  Index (a +:+ s) (String c p) = (fun i => slen a + i) <$> Index s (String c p).
Proof.
  unfold free_of. induction a as [|x a IH]; intros Ha; [cbn; by destruct (Index s _)|].
  cbn in Ha. apply andb_prop in Ha as [Hx Ha]. rewrite negb_true_iff, bool_decide_eq_false in Hx.
  change (Index (String x (a +:+ s)) (String c p) = (fun i => S (slen a) + i) <$> Index s (String c p)).
  rewrite Index_not_at. cbn [HasPrefix]. rewrite bool_decide_eq_false_2 by congruence. cbn [andb].
  rewrite IH by done. by destruct (Index s _).
Qed.

Lemma str_all_stake f n s : str_all f s = true -> str_all f (stake n s) = true.
Proof. rewrite <- (stake_sdrop n s) at 1. rewrite str_all_app. by intros [? _]%andb_prop. Qed.
Lemma str_all_sdrop f n s : str_all f s = true -> str_all f (sdrop n s) = true.
Proof. rewrite <- (stake_sdrop n s) at 1. rewrite str_all_app. by intros [_ ?]%andb_prop. Qed.

Lemma pem_lines_spec f : forall s, slen s < f -> str_all b64_char s = true ->
  sfilter graphic (pem_lines f s) = s /\ str_all (fun c => pem_char c && negb (bool_decide (c = "-"%char))) (pem_lines f s) = true.
Proof.
  induction f as [|f IH]; intros s Hf Hs; [lia|]. cbn [pem_lines]. case_decide as Hn; [by subst|].
  assert (Hd : slen (sdrop 64 s) < f).
  { destruct s as [|c s]; [done|]. pose proof (f_equal slen (stake_sdrop 63 s)) as Hl. rewrite slen_app in Hl.
    change (sdrop 64 (String c s)) with (sdrop 63 s). change (slen (String c s)) with (S (slen s)) in Hf. lia. }
  destruct (IH (sdrop 64 s) Hd (str_all_sdrop _ 64 _ Hs)) as [IH1 IH2].
  rewrite !sfilter_app, !str_all_app, IH1, IH2. split.
  - rewrite (sfilter_all graphic (stake 64 s)); [apply stake_sdrop|].
    apply (str_all_impl b64_char); [|by apply str_all_stake].
    unfold b64_char. by intros c [? _]%andb_prop.
  - rewrite andb_true_r. apply (str_all_impl b64_char); [|by apply str_all_stake].
    unfold b64_char, pem_char. by intros c [-> ->]%andb_prop.
Qed.

Lemma pem_body der : let b64 := std_encode der in
  let body := nls +:+ pem_lines (S (slen b64)) b64 in
  free_of "-" body = true /\
  remove_char " " (remove_char cr (remove_char nl (TrimSpace body))) = b64.
Proof.
  cbv zeta. set (b := std_encode der).
  destruct (pem_lines_spec (S (slen b)) b) as [H1 H2]; [lia|apply std_encode_b64|].
  split.
  - unfold free_of. rewrite str_all_app. cbn.
    revert H2. apply str_all_impl. by intros c [_ ?]%andb_prop.
  - rewrite remove_blanks.
    + rewrite (proj1 (TrimSpace_keeps pem_char _)), sfilter_app, H1. reflexivity.
    + apply TrimSpace_keeps. rewrite str_all_app. cbn. revert H2. apply str_all_impl. 
      by intros c [? _]%andb_prop.
Qed.

Lemma Index_prefix p s : p <> EmptyString -> Index (p +:+ s) p = Some 0.
Proof.
  intros Hp. pose proof (HasPrefix_app p s) as Hh. destruct p as [|c p]; [done|].
  change (Index (String c (p +:+ s)) (String c p) = Some 0). rewrite Index_not_at.
  change (HasPrefix (String c (p +:+ s)) (String c p) = true) in Hh. by rewrite Hh.
Qed.

(** A text before a word that no place in it can begin. *)
Fixpoint differs (a p : string) : bool :=
  match a, p with
  | String x a', String y p' => bool_decide (x <> y) || differs a' p'
  | _, _ => false
  end.
Fixpoint all_differ (a p : string) : bool :=
  match a with
  | EmptyString => true
  | String _ a' => differs a p && all_differ a' p
  end.

Lemma differs_prefix a : forall p s, differs a p = true -> HasPrefix (a +:+ s) p = false.
Proof.
  induction a as [|x a IH]; intros [|y p] s; try done. cbn [differs].
  change (String x a +:+ s) with (String x (a +:+ s)). cbn [HasPrefix].
  rewrite orb_true_iff, bool_decide_eq_true. intros [Hne|Hd].
  - by rewrite bool_decide_eq_false_2 by congruence.
  - rewrite IH by done. apply andb_false_r.
Qed.

Lemma Index_over a p s : all_differ a p = true -> p <> EmptyString ->
  Index (a +:+ s) p = (fun i => slen a + i) <$> Index s p.
Proof.
  intros Ha Hp. induction a as [|x a IH]; [change (Index s p = (fun i => i) <$> Index s p); by destruct (Index s p)|].
  cbn [all_differ] in Ha. apply andb_prop in Ha as [Hd Ha]. apply differs_prefix with (s := s) in Hd.
  change (String x a +:+ s) with (String x (a +:+ s)) in *. rewrite Index_not_at, Hd, IH by done.
  by destruct (Index s p).
Qed.

Lemma sdrop_add a b s : sdrop (slen a + slen b) (a +:+ b +:+ s) = s.
Proof. rewrite <- slen_app, <- sapp_assoc. apply sdrop_app. Qed.

(** ** Properties *)

(** C32: A certificate written as PEM is read back: whatever its bytes, the code's
    own decoder returns them. *)
Theorem pem_roundtrip der : pemDecode (pem_encode "CERTIFICATE" der) = Ok der.
Proof.
  destruct (pem_body der) as [Hf Hr]. cbv zeta in Hf, Hr.
  set (b := std_encode der) in *. set (body := nls +:+ pem_lines (S (slen b)) b) in *.
  set (Bm := begin_marker "CERTIFICATE"). set (Em := end_marker "CERTIFICATE").
  assert (Ht : pem_encode "CERTIFICATE" der = Bm +:+ body +:+ Em +:+ nls)
    by (unfold pem_encode; subst body; by rewrite !sapp_assoc).
  assert (Hi : Index (Bm +:+ body +:+ Em +:+ nls) Em = Some (slen Bm + slen body)).
  { replace (Bm +:+ body +:+ Em +:+ nls) with ((Bm +:+ nls) +:+ pem_lines (S (slen b)) b +:+ Em +:+ nls)
      by (subst body; by rewrite !sapp_assoc).
    rewrite Index_over by (vm_compute; reflexivity || discriminate).
    assert (Hp : free_of "-" (pem_lines (S (slen b)) b) = true)
      by (subst body; rewrite free_of_app in Hf; by apply andb_prop in Hf as [_ ?]).
    change Em with (String "-" (sdrop 1 Em)) at 2. rewrite Index_skip by done.
    change (String "-" (sdrop 1 Em)) with Em. rewrite Index_prefix by done.
    subst body. cbn [fmap option_fmap option_map]. rewrite !slen_app. f_equal. lia. }
  unfold pemDecode. rewrite Ht. fold Bm Em. rewrite Index_prefix, Hi by done. unfold slice.
  rewrite decide_True by (rewrite !slen_app; lia). cbn [Nat.add].
  replace (slen Bm + slen body - slen Bm) with (slen body) by lia.
  rewrite sdrop_app, stake_app. cbn [mbind result_bind]. rewrite Hr. subst b. by rewrite std_decode_encode.
Qed.

(** The decoder panics on a text in which the end comes before the beginning. *)
Theorem pem_reversed_panics rest :
  pemDecode (end_marker "CERTIFICATE" +:+ nls +:+ begin_marker "CERTIFICATE" +:+ rest) =
  Panic "slice bounds out of range".
Proof.
  unfold pemDecode. rewrite (Index_prefix (end_marker "CERTIFICATE")) by done.
  rewrite <- sapp_assoc, Index_over by (vm_compute; reflexivity || discriminate).
  rewrite Index_prefix by done. reflexivity.
Qed.

(** Registering twice is registering once. *)
Theorem inject_twice o pk o' :
  injectMTLSPublicKey (Some o) pk = Ok o' -> injectMTLSPublicKey (Some o') pk = Ok o'.
Proof.
  intros Hi. pose proof (inject_access _ _ _ Hi pk) as Hr.
  rewrite bool_decide_eq_true_2 in Hr by done. cbn [andb] in Hr.
  destruct (registered pk o || can_register o) eqn:E; [by apply inject_registered|].
  apply orb_false_elim in E as [E1 E2]. unfold can_register in E2.
  unfold injectMTLSPublicKey in *. fold (registered pk o) in Hi. rewrite E1 in Hi.
  destruct (access_control o) as [|v rest] eqn:Ea; [done|].
  assert (Hs : put (remote_of o) o = o) by (apply put_same; by rewrite Ea).
  assert (o' = o) as -> by (destruct v; injection Hi as <-; done).
  fold (registered pk o). rewrite E1, Ea. exact Hi.
Qed.

(** ** The host that runs Caddy *)

(** [encoding/json]: the text of an object is one line that starts with a
    brace, and decodes to an object with the same members (their order is not
    kept), hence with the same registered keys and the same listener. *)
Class MTLSCodecLaws `{MTLSCodec} : Prop := {
  marshal_line o : free_of nl (object_marshal o) = true /\ HasPrefix (object_marshal o) "{" = true;
  marshal_back o : exists o', object_unmarshal (object_marshal o +:+ nls) = Some (Some o') /\
    (forall q, registered q o' = registered q o) /\ hasTLSListener o' = hasTLSListener o
}.

(** The file behind the three commands: reading it, replacing it by the body of
    a here-document (which ends before the first line that is the delimiter),
    and the reload, after which Caddy keeps the configuration it was given. *)
Class CaddyFile (K : Type) `{SSHExecutor K} `{MTLSCodec} `{CertMaker K} := {
  autosave : K -> string;
  read_autosave k out err k' : ExecuteCommand readCmd k = ((out, err, None), k') ->
    out = autosave k /\ autosave k' = autosave k;
  write_autosave body k out err k' :
    free_of nl body = true -> body <> "UNETFENCE" ->
    ExecuteScript (fullScript body) k = ((out, err, None), k') -> autosave k' = body +:+ nls;
  reload_autosave k out err k' : ExecuteCommand reloadCmd k = ((out, err, None), k') ->
    object_unmarshal (autosave k') = object_unmarshal (autosave k);
  cert_autosave k : autosave (snd (make_cert k)) = autosave k
}.

Section Bootstrap.
Context {C K : Type} `{ConfigManagerLaws C} `{MTLSCodecLaws} `{SSHExecutor K} `{CertMaker K} `{!CaddyFile K}.

Lemma stdout_of_ok (f : K -> (string * string * option string) * K) k out k' :
  stdout_of f k = (Ok out, k') -> exists err, f k = ((out, err, None), k').
Proof. unfold stdout_of. destruct (f k) as [[[o e] [x|]] k1]; [done|]. intros [= <- <-]. eauto. Qed.

Lemma generate_autosave m r m' : GenerateClientCert (C := C) (K := K) m = (Ok r, m') ->
  autosave (outside m') = autosave (outside m).
Proof.
  unfold GenerateClientCert. intros Hg. bind_inv Hg. apply wrap_ok_inv in E.
  unfold onOutside, on_part in E. pose proof (cert_autosave (outside m)) as Hc.
  destruct (make_cert (outside m)) as [r1 k1]. injection E as -> <-. destruct a as [c d].
  bind_inv Hg. injection Hg as _ <-. rewrite <- Hc.
  assert (Hp : preserves outside (try (onCfg (C := C) (K := K) (cfg_update
    (set_client_cert (pem_encode "CERTIFICATE" c) (pem_encode "EC PRIVATE KEY" d)))))) by preserving.
  specialize (Hp (with_outside k1 m)). rewrite E in Hp. cbn in *. by rewrite Hp.
Qed.

Lemma register_ok pk k k' : register pk k = (Ok tt, k') ->
  exists o o', object_unmarshal (autosave k) = Some (Some o) /\
    object_unmarshal (autosave k') = Some (Some o') /\
    (forall q, registered q o' = registered q o || (bool_decide (pk = q) && can_register o)) /\
    hasTLSListener o' = hasTLSListener o.
Proof.
  unfold register. intros Hr.
  bind_inv Hr. apply wrap_ok_inv, stdout_of_ok in E as [e1 [-> Hw]%read_autosave].
  bind_inv Hr. destruct (object_unmarshal (autosave k)) as [c|] eqn:Eu; [|done].
  injection E as <- <-. bind_inv Hr. unfold lift in E. injection E as Ei <-.
  destruct c as [o|]; [|done].
  bind_inv Hr. apply wrap_ok_inv, stdout_of_ok in E as [e2 Ew].
  bind_inv Hr. apply wrap_ok_inv, stdout_of_ok in E as [e3 Er]. injection Hr as <-.
  destruct (marshal_line a) as [Hl Hb].
  apply write_autosave in Ew; [|done|intros Hf; by rewrite Hf in Hb].
  apply reload_autosave in Er. rewrite Ew in Er.
  destruct (marshal_back a) as (o' & Ho & Hq & Ht).
  exists o, o'. split; [done|]. split; [by rewrite Er|].
  split; [intros q; rewrite Hq; by apply inject_access|].
  rewrite Ht. by destruct (inject_only_admin _ _ _ Ei) as (_ & _ & ->).
Qed.

(** The certificate a bootstrap uses: the one of the configuration, or else
    the one generated first thing, which is saved if it can be. *)
Definition bootstrap_cert (m m' : MClient (C := C) (K := K)) (certPEM : string) : Prop :=
  let a := CaddyAPI (cfg_get (cfgMgr m)) in
  if decide (ClientCert a = EmptyString \/ Plain (ClientKey a) = EmptyString) then
    exists certDER keyDER k, make_cert (outside m) = (Ok (certDER, keyDER), k) /\
      certPEM = pem_encode "CERTIFICATE" certDER /\
      cfgMgr m' = snd (cfg_update (set_client_cert certPEM (pem_encode "EC PRIVATE KEY" keyDER)) (cfgMgr m))
  else certPEM = ClientCert a /\ cfgMgr m' = cfgMgr m.

Lemma generate_ok (m m' : MClient (C := C) (K := K)) c k : GenerateClientCert m = (Ok (c, k), m') ->
  exists certDER keyDER o, make_cert (outside m) = (Ok (certDER, keyDER), o) /\
    c = pem_encode "CERTIFICATE" certDER /\
    cfgMgr m' = snd (cfg_update (set_client_cert c (pem_encode "EC PRIVATE KEY" keyDER)) (cfgMgr m)).
Proof.
  unfold GenerateClientCert. intros Hg. bind_inv Hg. apply wrap_ok_inv in E.
  unfold onOutside, on_part in E. destruct (make_cert (outside m)) as [r o] eqn:Em. injection E as -> <-.
  destruct a as [certDER keyDER]. bind_inv Hg. injection Hg as <- <- <-.
  unfold try, onCfg, on_part in E. cbn [cfgMgr with_outside] in E.
  exists certDER, keyDER, o. split; [done|]. split; [done|].
  destruct (cfg_update _ (cfgMgr m)) as [[[]|e|e] c']; [injection E as _ <-|injection E as _ <-|]; done.
Qed.

(** C25: a bootstrap that reports success has left Caddy's file with exactly the
    keys it had and the key of the client's certificate: the one of the
    configuration or, when that has none, the one it had made, whose pair is
    what it tried to save.  The key is added unless the first entry of the
    access list is not an object ([can_register]); the admin listener is never
    switched to TLS, also not for the first client. *)
Theorem bootstrap_registers m m' :
  BootstrapMTLS (C := C) (K := K) m = (Ok tt, m') ->
  exists certPEM der o o',
    bootstrap_cert m m' certPEM /\ extractPublicKeyDER certPEM = Ok der /\
    object_unmarshal (autosave (outside m)) = Some (Some o) /\
    object_unmarshal (autosave (outside m')) = Some (Some o') /\
    (forall q, registered q o' = registered q o || (bool_decide (std_encode der = q) && can_register o)) /\
    hasTLSListener o' = hasTLSListener o.
Proof.
  unfold BootstrapMTLS. intros Hb. bind_inv Hb. injection E as <- <-.
  bind_inv Hb. bind_inv Hb. apply wrap_ok_inv in E0. unfold lift in E0. injection E0 as E0 <-.
  bind_inv Hb. injection E1 as <- <-. destruct (sshClient w); [|done].
  unfold onOutside, on_part in Hb. destruct (register _ _) as [r k'] eqn:Er. injection Hb as -> <-.
  apply register_ok in Er as (o & o' & Ho & Ho' & Hq & Ht).
  exists a, a0, o, o'. cbn [outside with_outside].
  assert (Hw : autosave (outside w) = autosave (outside m) /\ bootstrap_cert m (with_outside k' w) a).
  { unfold bootstrap_cert. case_decide as Hd; [|by injection E as <- <-].
    bind_inv E. destruct a1 as [c1 k1]. injection E as <- <-. apply wrap_ok_inv in E1.
    split; [by apply generate_autosave in E1|]. by apply generate_ok in E1. }
  destruct Hw as [Hw Hc]. rewrite <- Hw. auto 10.
Qed.
End Bootstrap.

(** A certificate that could not be saved is registered all the same: the
    bootstrap reports success, and the client still has none to use. *)
Theorem unsaved_certificate_registered {C K} `{ConfigManagerLaws C} `{SSHExecutor K} `{CertMaker K}
    `{MTLSCodec} m m' :
  ClientCert (CaddyAPI (cfg_get (cfgMgr m))) = EmptyString ->
  (forall f c, exists e c', cfg_update f c = (Err e, c')) ->
  BootstrapMTLS (C := C) (K := K) m = (Ok tt, m') ->
  fst (ToggleMTLS true m') =
  Err "proxy: toggle mTLS on: proxy: no client certificate configured, run BootstrapMTLS first".
Proof.
  intros Hc Hu Hb.
  assert (Hk : preserves (fun m => cfg_get (cfgMgr m)) (BootstrapMTLS (C := C) (K := K))).
  { unfold BootstrapMTLS, GenerateClientCert. preserving. all: try apply preserves_get.
    intros w. unfold onCfg, on_part. destruct (Hu (set_client_cert (pem_encode "CERTIFICATE" s)
      (pem_encode "EC PRIVATE KEY" s0)) (cfgMgr w)) as (e & c' & E). rewrite E. cbn.
    by apply cfg_update_err in E. }
  specialize (Hk m). rewrite Hb in Hk. cbn in Hk.
  unfold ToggleMTLS, CreateTLSClient, mbind, eff_bind, wrap. rewrite Hk, Hc.
  rewrite decide_True by (by left). done.
Qed.

(** ** A sample codec and host, for the witnesses: an object is written as the
    keys registered in it and whether it listens with TLS. *)

Definition strings_of (l : list json) : list string :=
  omap (fun v => match v with JStr s => Some s | _ => None end) l.
Definition keys_of (o : object) : list string :=
  flat_map (fun e => match e with
    | JObj ac => strings_of (default [] (as_array (jget "public_keys" ac))) | _ => [] end) (access_control o).

Definition plain_object (keys : list string) (tls : bool) : object :=
  [("admin", JObj [("listen", JStr (if tls then "https://:2019" else ":2019"));
     ("remote", JObj [("access_control", JArr [JObj [("public_keys", JArr (map JStr keys))]])])])].

Definition sample_marshal (o : object) : string := "{" +:+ count_enc (keys_of o, hasTLSListener o).
Definition sample_unmarshal (s : string) : option (option object) :=
  '(keys, tls) ← count_dec (A := list string * bool) (TrimSuffix (sdrop 1 s) nls);
  Some (Some (plain_object keys tls)).

Definition sample_codec : MTLSCodec := {|
  object_unmarshal := sample_unmarshal; object_marshal := sample_marshal;
  spki := Ok; X509KeyPair _ _ := None
|}.

Lemma is_string_strings q l : existsb (is_string q) l = bool_decide (q ∈ strings_of l).
Proof.
  induction l as [|v l IH]; [done|]. cbn [existsb]. rewrite IH.
  destruct v; try done. cbn [is_string]. rewrite <- bool_decide_or. apply bool_decide_ext.
  change (strings_of (JStr s :: l)) with (s :: strings_of l). rewrite elem_of_cons. naive_solver.
Qed.

Lemma registered_keys q o : registered q o = bool_decide (q ∈ keys_of o).
Proof.
  unfold registered, keys_of. induction (access_control o) as [|e l IH]; [done|].
  cbn [existsb flat_map]. rewrite IH.
  assert (Happ : forall a b : list string, bool_decide (q ∈ a ++ b) = bool_decide (q ∈ a) || bool_decide (q ∈ b)).
  { intros a b. rewrite <- bool_decide_or. apply bool_decide_ext, elem_of_app. }
  rewrite Happ. f_equal. destruct e; try done. rewrite has_key_pks. apply is_string_strings.
Qed.

Lemma keys_plain keys tls : keys_of (plain_object keys tls) = keys.
Proof.
  transitivity (strings_of (map JStr keys) ++ []); [reflexivity|]. rewrite app_nil_r.
  induction keys as [|k keys IH]; [done|]. change (k :: strings_of (map JStr keys) = k :: keys). by rewrite IH.
Qed.

Lemma pem_bits_free p : free_of nl (bits_of p) = true.
Proof. induction p as [p IH|p IH|]; done. Qed.

Definition sample_codec_laws : @MTLSCodecLaws sample_codec.
Proof.
  split.
  - intros o. split; [|done]. cbn. apply pem_bits_free.
  - intros o. exists (plain_object (keys_of o) (hasTLSListener o)). split; [|split].
    + change (sample_unmarshal (sample_marshal o +:+ nls) = Some (Some (plain_object (keys_of o) (hasTLSListener o)))).
      unfold sample_unmarshal, sample_marshal. rewrite sapp_assoc.
      change (sdrop 1 ("{" +:+ ?x)) with x. 
      by rewrite TrimSuffix_app, count_dec_enc.
    + intros q. by rewrite !registered_keys, keys_plain.
    + by destruct (hasTLSListener o).
Qed.

(** The state is the file; a script that is a here-document replaces it. *)
Definition heredoc_body (s : string) : string :=
  let head := writeScript +:+ " <<'UNETFENCE'" +:+ nls in
  TrimSuffix (TrimPrefix s head) (nls +:+ "UNETFENCE").

Definition sample_caddy : SSHExecutor string := {|
  ExecuteCommand c k := (((if decide (c = readCmd) then k else EmptyString), EmptyString, None), k);
  ExecuteScript s k := ((EmptyString, EmptyString, None), heredoc_body s +:+ nls)
|}.
Definition sample_cert : CertMaker string := {| make_cert := mret ("der", "key") |}.

Lemma heredoc_fullScript body : heredoc_body (fullScript body) = body.
Proof.
  unfold heredoc_body. set (head := writeScript +:+ " <<'UNETFENCE'" +:+ nls).
  assert (fullScript body = head +:+ (body +:+ (nls +:+ "UNETFENCE"))) as ->
    by (unfold fullScript; subst head; by rewrite !sapp_assoc).
  by rewrite TrimPrefix_app, TrimSuffix_app.
Qed.

Definition sample_file : @CaddyFile string sample_caddy sample_codec sample_cert.
Proof.
  refine {| autosave := fun k : string => k |}.
  - intros k out err k' Hr. cbn in Hr. rewrite decide_True in Hr by done. by injection Hr as <- _ <-.
  - intros body k out err k' _ _ Hw. injection Hw as _ _ <-. by rewrite heredoc_fullScript.
  - intros k out err k' Hr. by injection Hr as _ _ <-.
  - done.
Defined.

Section Witnesses.
#[local] Instance w_codec : MTLSCodec := sample_codec.
#[local] Instance w_codec_laws : MTLSCodecLaws := sample_codec_laws.
#[local] Instance w_caddy : SSHExecutor string := sample_caddy.
#[local] Instance w_cert : CertMaker string := sample_cert.
#[local] Instance w_file : CaddyFile string := sample_file.

Definition w_client : MClient (C := RootConfig) (K := string) :=
  {| cfgMgr := defaultConfig "u"; sshClient := true; httpClient := IpOnly;
     outside := sample_marshal (plain_object ["other"] false) +:+ nls |}.

(** Two keys after the bootstrap of a second client, and still no TLS. *)
Lemma bootstrap_registers_witness : exists o',
  object_unmarshal (autosave (outside (snd (@BootstrapMTLS RootConfig string plain_config w_caddy w_cert w_codec w_client))))
    = Some (Some o') /\
  registered "other" o' = true /\ hasTLSListener o' = false.
Proof.
  destruct (@bootstrap_registers RootConfig string plain_config w_codec w_codec_laws w_caddy w_cert w_file w_client
    (snd (@BootstrapMTLS RootConfig string plain_config w_caddy w_cert w_codec w_client)))
    as (c & der & o & o' & _ & _ & Ho & Ho' & Hq & Ht).
  - vm_compute. reflexivity.
  - exists o'. split; [exact Ho'|]. vm_compute in Ho. injection Ho as <-.
    rewrite Hq, Ht. split; vm_compute; reflexivity.
Defined.

Lemma inject_twice_witness : exists o',
  injectMTLSPublicKey (Some (plain_object ["a"] false)) "b" = Ok o' /\
  injectMTLSPublicKey (Some o') "b" = Ok o'.
Proof.
  eexists. split; [vm_compute; reflexivity|].
  apply (inject_twice (plain_object ["a"] false) "b"). vm_compute. reflexivity.
Defined.

(** A configuration that cannot be saved. *)
Definition full_disk : ConfigManager RootConfig := {|
  cfg_get c := c; cfg_update f c := (Err "no space left on device", c) |}.
Definition full_disk_laws : @ConfigManagerLaws RootConfig full_disk.
Proof. split; simpl; [done|by intros f c e c' [= _ <-]|eauto]. Qed.

Lemma unsaved_certificate_registered_witness :
  let m' := snd (@BootstrapMTLS RootConfig string full_disk w_caddy w_cert w_codec w_client) in
  is_ok (fst (@BootstrapMTLS RootConfig string full_disk w_caddy w_cert w_codec w_client)) = true /\
  is_ok (fst (@ToggleMTLS RootConfig string full_disk w_codec true m')) = false.
Proof.
  split; [vm_compute; reflexivity|].
  rewrite (@unsaved_certificate_registered RootConfig string full_disk full_disk_laws w_caddy w_cert w_codec
    w_client); [reflexivity|reflexivity|by intros f c; do 2 eexists|vm_compute; reflexivity].
Defined.
End Witnesses.
