(* ===== verification/LogTail.v ===== *)
(** * loguicapi/{file,container}_aggregator.go: following files and containers

    The polling reader of a growing file and the reader of a container's
    output.  A file is an inode's bytes and a path names an inode, so that
    rotation can be told from truncation.  What is logged is the list of the
    calls to [slog]; [json.Unmarshal] and the verb v of [fmt] are parameters,
    the goroutines are the functions that their loops run. *)

From S2P Require Import Prelude GoLib Ports Regexp.

(** A call of [slog.Info] or [slog.Warn]: level, message, attributes. *)
Record entry := { e_level : string; e_msg : string; e_attrs : list (string * json) }.

(** ** file_aggregator.go *)

Definition drop_last (c : ascii) (s : string) : string :=
  if HasSuffix s (String c EmptyString) then stake (slen s - 1) s else s.

Definition trimNewline (s : string) : string := drop_last cr (drop_last nl s).

Record disk := { at_path : option nat; bytes_at : gmap nat string }.
Definition content (d : disk) (i : nat) : string := default EmptyString (bytes_at d !! i).

(** The open file, the position its reader has come to, and [lastSize].
    Between two polls nothing is buffered: a poll reads to the end. *)
Record tail_state := { ino : nat; offset : nat; lastSize : nat }.

(** [reader.ReadString('\n')] until its error: the lines, and what came with
    the error, which the loop drops. *)
Fixpoint read_lines (fuel : nat) (s : string) : list string :=
  match fuel with
  | O => []
  | S f => match IndexByte s nl with
           | Some i => stake (S i) s :: read_lines f (sdrop (S i) s)
           | None => []
           end
  end.

(** The lines handed to [emitLine]. *)
Definition lines_to_emit (s : string) : list string :=
  filter (fun l => l <> EmptyString) (map trimNewline (read_lines (S (slen s)) s)).

(** Opening the file and seeking to its end; [None] when it cannot be opened. *)
Definition open_tail (d : disk) : option tail_state :=
  i ← at_path d;
  Some {| ino := i; offset := slen (content d i); lastSize := slen (content d i) |}.

(** One poll: the state, or [None] when the goroutine returns, and the lines.
    [reopens] is whether opening a rotated file succeeds. *)
Definition poll (reopens : bool) (d : disk) (t : tail_state) : option tail_state * list string :=
  let read t :=
    let s := content d (ino t) in
    (Some {| ino := ino t; offset := slen s; lastSize := lastSize t |},
     lines_to_emit (sdrop (offset t) s)) in
  match at_path d with
  | Some i =>
      if decide (i <> ino t) then
        (if reopens then Some {| ino := i; offset := 0; lastSize := 0 |} else None, [])
      else if decide (slen (content d i) < lastSize t) then
        (Some {| ino := i; offset := 0; lastSize := 0 |}, [])
      else read {| ino := ino t; offset := offset t; lastSize := slen (content d i) |}
  | None => read t
  end.

(** The polls of a run, each on the disk as it is then. *)
Fixpoint polls (ds : list disk) (t : tail_state) : list string :=
  match ds with
  | [] => []
  | d :: ds' => let '(t', ls) := poll true d t in
                ls ++ match t' with Some t' => polls ds' t' | None => [] end
  end.

Section Emit.
(** [json.Unmarshal] into a map, its members in the order the map is walked,
    and [fmt.Sprintf] with the verb v. *)
Context (object_unmarshal : string -> option (list (string * json))) (sprint : json -> string).

Definition member (k : string) (raw : list (string * json)) : option json :=
  snd <$> find (fun kv => bool_decide (fst kv = k)) raw.

Definition skipped_keys : list string := ["ts"; "time"; "timestamp"; "msg"; "message"; "level"].

Definition emitLine (source line : string) : entry :=
  match object_unmarshal line with
  | None => {| e_level := "info"; e_msg := line;
               e_attrs := [("source", JStr source); ("component", JStr source)] |}
  | Some raw =>
      let msg := match member "msg" raw with Some m => sprint m | None => EmptyString end in
      let msg := if decide (msg = EmptyString)
                 then match member "message" raw with Some m => sprint m | None => msg end else msg in
      let msg := if decide (msg = EmptyString) then line else msg in
      {| e_level := "info"; e_msg := msg;
         e_attrs := [("source", JStr source); ("component", JStr source)] ++
                    filter (fun kv => fst kv ∉ skipped_keys) raw |}
  end.
End Emit.

(** ** container_aggregator.go *)

Record container := { c_ID : string; c_Names : list string }.

(** The first container, in the order of the answer, one of whose names is the
    wanted one without the slash Docker puts in front. *)
Definition resolveContainer (containers : result (list container)) (name : string) : result string :=
  cs ← wrap_err "list containers: " containers;
  match find (fun c => existsb (fun n => bool_decide (TrimPrefix n "/" = name)) (c_Names c)) cs with
  | Some c => Ok (c_ID c)
  | None => Err ("container " +:+ name +:+ " not found")
  end.

(** *** The time stamp in front of a line *)

(** [\s] *)
Definition re_space (c : ascii) : bool :=
  bool_decide (c ∈ [tab; nl; "012"%char; cr; " "%char]).

(** The group of [^(\d{4}-\d{2}-\d{2}[T ]\d{2}:\d{2}:\d{2}[.\d]*(Z|[+-]\d{2}:?\d{2})?)\s] *)
Definition dockerTSRe : re :=
  let d n := RRep n (RCls is_digit) in
  let one x y := RCls (fun c => bool_decide (c = x) || bool_decide (c = y)) in
  RCat (d 4) (RCat (RLit "-") (RCat (d 2) (RCat (RLit "-") (RCat (d 2) (RCat (one "T"%char " "%char)
 (RCat (d 2) (RCat (RLit ":") (RCat (d 2) (RCat (RLit ":") (RCat (d 2)
 (RCat (RStar (RCls (fun c => bool_decide (c = "."%char) || is_digit c)))
       (ROpt (RAlt (RLit "Z")
                   (RCat (one "+"%char "-"%char) (RCat (d 2) (RCat (ROpt (RLit ":")) (d 2))))))))))))))))).

(** The group of a match at the start of the line: a beginning that the
    expression matches, in front of white space.  There is one at most
    ([stamp_unique]), so the preferences of the matcher do not matter. *)
Definition extractContainerTS (line : string) : string :=
  match List.find (fun n => MatchFull dockerTSRe (stake n line) &&
                            match sdrop n line with String c _ => re_space c | EmptyString => false end)
                  (seq 0 (slen line)) with
  | Some n => stake n line
  | None => EmptyString
  end.

(** *** The lines of a stream *)

Definition maxLine : nat := 1024 * 1024.

(** [bufio.Scanner] with [ScanLines]: lines without their newline and without
    one carriage return before it; it stops for good at a line that does not
    fit its buffer, once that is full.  The second part says how many bytes it
    had taken from its pipe when it stopped that way. *)
Fixpoint scan_stream (fuel limit : nat) (s : string) : list string * option nat :=
  match fuel with
  | O => ([], None)
  | S f =>
      if decide (s = EmptyString) then ([], None) else
      match IndexByte s nl with
      | Some i =>
          if decide (limit <= i) then ([], Some limit) else
          let '(ls, long) := scan_stream f limit (sdrop (S i) s) in
          (drop_last cr (stake i s) :: ls, Nat.add (S i) <$> long)
      | None => if decide (limit <= slen s) then ([], Some limit) else ([drop_last cr s], None)
      end
  end.
(** Where the reader of a stream with this text has stopped, if it has. *)
Definition reader_stops (limit : nat) (text : string) : option nat :=
  snd (scan_stream (S (slen text)) limit text).

Definition container_entry (containerName stream line : string) : entry :=
  let ts := extractContainerTS line in
  {| e_level := if decide (stream = "stderr") then "warn" else "info"; e_msg := line;
     e_attrs := [("source", JStr "container"); ("component", JStr ("container." +:+ containerName));
                 ("container", JStr containerName); ("stream", JStr stream)] ++
                (if decide (ts <> EmptyString) then [("container_ts", JStr ts)] else []) |}.

(** What a stream is logged as, when the context is not cancelled. *)
Definition processLines (limit : nat) (containerName stream text : string) : list entry :=
  map (container_entry containerName stream)
      (filter (fun l => l <> EmptyString) (fst (scan_stream (S (slen text)) limit text))).

(** The frames of the multiplexed stream, each flagged when it is of standard
    error, written into the two pipes one by one: a write returns when the
    reader has taken all of it, and fails when the reader has stopped before,
    then or in an earlier write.  That ends the copy, and with it the capture of
    both streams.  The result says so. *)
Fixpoint demux (limit : nat) (frames : list (bool * string)) (out err : string)
  : string * string * bool :=
  match frames with
  | [] => (out, err, false)
  | (is_err, data) :: fs =>
      let text := if is_err : bool then err else out in
      match reader_stops limit text with
      | Some _ => (out, err, true)
      | None =>
          let text' := text +:+ data in
          let out' := if is_err then out else text' in
          let err' := if is_err then text' else err in
          match reader_stops limit text' with
          | Some n => if decide (n < slen text') then (out', err', true) else demux limit fs out' err'
          | None => demux limit fs out' err'
          end
      end
  end.

Definition captureContainer (limit : nat) (containerName : string) (frames : list (bool * string))
  : list entry * list entry :=
  let '(out, err, _) := demux limit frames EmptyString EmptyString in
  (processLines limit containerName "stdout" out, processLines limit containerName "stderr" err).

(** ** Lemmas: following a file *)

Lemma read_lines_app f a b : free_of nl a = true -> slen a < f ->
  read_lines (S f) (a +:+ String nl b) = (a +:+ nls) :: read_lines f b.
Proof.
  intros Ha Hf. cbn [read_lines]. rewrite IndexByte_app by done.
  assert (Hs : forall a b, stake (S (slen a)) (a +:+ String nl b) = a +:+ nls)
    by (clear; induction a as [|c a IH]; intros b; [done|]; cbn in *; by rewrite IH).
  rewrite Hs, sdrop_S_app. done.
Qed.

Lemma read_lines_none f a : free_of nl a = true -> read_lines f a = [].
Proof. intros Ha. destruct f; [done|]. cbn. by rewrite IndexByte_None. Qed.

(** With fuel to spare, only the text matters. *)
Lemma read_lines_fuel f : forall g s, slen s < f -> slen s < g -> read_lines f s = read_lines g s.
Proof.
  induction f as [|f IH]; intros [|g] s Hf Hg; try lia. cbn [read_lines].
  destruct (IndexByte s nl) as [i|] eqn:E; [|done]. f_equal. apply IndexByte_cut in E.
  pose proof (f_equal slen E) as Hl. rewrite slen_app in Hl.
  change (slen (String nl (sdrop (S i) s))) with (S (slen (sdrop (S i) s))) in Hl.
  apply IH; lia.
Qed.

(** Complete lines, in front of anything. *)
Lemma lines_to_emit_cons a b : free_of nl a = true ->
  lines_to_emit (a +:+ String nl b) =
  filter (fun l => l <> EmptyString) [trimNewline (a +:+ nls)] ++ lines_to_emit b.
Proof.
  intros Ha. unfold lines_to_emit. rewrite slen_app, slen_String.
  rewrite read_lines_app by (done || lia). cbn [map].
  rewrite <- gfilter_app. cbn [app]. do 3 f_equal. apply read_lines_fuel; lia.
Qed.

Lemma lines_to_emit_rest a : free_of nl a = true -> lines_to_emit a = [].
Proof. intros Ha. unfold lines_to_emit. by rewrite read_lines_none. Qed.

(** One poll of a file that has only grown. *)
Lemma poll_grown r d t more :
  at_path d = Some (ino t) -> slen (content d (ino t)) = offset t + slen more -> lastSize t <= offset t ->
  sdrop (offset t) (content d (ino t)) = more ->
  poll r d t = (Some {| ino := ino t; offset := offset t + slen more; lastSize := offset t + slen more |},
                lines_to_emit more).
Proof.
  intros Hp Hl Hs Hm. unfold poll. rewrite Hp, decide_False by (intros H; by apply H).
  rewrite decide_False by lia. cbn [ino offset lastSize]. by rewrite Hm, Hl.
Qed.

(** The disks that a file goes through while it is only appended to. *)
Fixpoint growing (i : nat) (sofar : string) (chunks : list string) : list disk :=
  match chunks with
  | [] => []
  | c :: cs => {| at_path := Some i; bytes_at := {[i := sofar +:+ c]} |} :: growing i (sofar +:+ c) cs
  end.

(** Each poll logs the complete lines of what was added since the last one,
    taken by itself. *)
Lemma polls_are_chunkwise i sofar chunks t :
  ino t = i -> offset t = slen sofar -> lastSize t <= offset t ->
  polls (growing i sofar chunks) t = concat (map lines_to_emit chunks).
Proof.
  revert sofar t. induction chunks as [|c cs IH]; intros sofar t Hi Ho Hl; [done|].
  cbn [growing polls map concat].
  rewrite (poll_grown true _ t c).
  - f_equal. apply IH; cbn; [done|rewrite slen_app; lia|lia].
  - by rewrite Hi.
  - unfold content. cbn. rewrite Hi, lookup_singleton_eq. cbn. rewrite slen_app. lia.
  - done.
  - unfold content. cbn. rewrite Hi, lookup_singleton_eq. cbn. by rewrite Ho, sdrop_app.
Qed.

Lemma drop_last_app c s : drop_last c (s +:+ String c EmptyString) = s.
Proof.
  unfold drop_last. assert (HasSuffix (s +:+ String c "") (String c "") = true) as -> by (apply HasSuffix_spec; eauto).
  rewrite slen_app. cbn [slen]. replace (slen s + slen (String c "") - 1) with (slen s) by (unfold slen; simpl; lia).
  apply stake_app.
Qed.

(** Lines as they are written: each with its newline. *)
Definition written (ls : list string) : string := foldr (fun l s => l +:+ String nl s) EmptyString ls.

Lemma lines_to_emit_written ls rest : Forall (fun l => free_of nl l = true) ls ->
  lines_to_emit (written ls +:+ rest) =
  filter (fun l => l <> EmptyString) (map (drop_last cr) ls) ++ lines_to_emit rest.
Proof.
  induction 1 as [|l ls Hl _ IH]; [done|]. cbn [written foldr map].
  rewrite sapp_assoc. change (String nl (foldr _ _ ls) +:+ rest) with (String nl (written ls +:+ rest)).
  rewrite lines_to_emit_cons, IH by done. unfold trimNewline, nls. rewrite drop_last_app.
  rewrite app_assoc, <- gfilter_app. done.
Qed.

(** ** Properties: following a file *)

(** Lines that are written whole, some at a time, are all logged, once and in
    the order of the file, however the polls fall between the writes: without
    their line ends, and without the empty ones. *)
Theorem whole_lines_logged_once i sofar chunks t :
  ino t = i -> offset t = slen sofar -> lastSize t <= offset t ->
  Forall (Forall (fun l => free_of nl l = true)) chunks ->
  polls (growing i sofar (map written chunks)) t =
  filter (fun l => l <> EmptyString) (map (drop_last cr) (concat chunks)).
Proof.
  intros Hi Ho Hl Hc. rewrite polls_are_chunkwise by done. clear -Hc.
  induction Hc as [|ls chunks Hls _ IH]; [done|]. cbn [map concat].
  rewrite IH, map_app, gfilter_app. f_equal. rewrite <- (sapp_nil_r (written ls)).
  rewrite lines_to_emit_written by done. apply app_nil_r.
Qed.

(** A line that reaches the disk in two pieces, with a poll between them, is
    logged without its beginning. *)
Theorem split_line_loses_its_head i sofar a b t :
  ino t = i -> offset t = slen sofar -> lastSize t <= offset t ->
  free_of nl a = true -> free_of nl b = true -> drop_last cr b <> EmptyString ->
  polls (growing i sofar [a; b +:+ nls]) t = [drop_last cr b].
Proof.
  intros Hi Ho Hl Ha Hb Hn. rewrite polls_are_chunkwise by done. cbn [map concat].
  rewrite lines_to_emit_rest by done.
  change (b +:+ nls) with (written [b]). rewrite <- (sapp_nil_r (written [b])).
  rewrite lines_to_emit_written by (by repeat constructor).
  cbn [map]. by rewrite filter_cons_True.
Qed.

(** What is written between the last poll and a rotation is never logged: the
    poll after it turns to the new file, and the rest of the old one is not
    read again. *)
Theorem rotation_loses_the_rest d t j ds :
  at_path d = Some j -> j <> ino t ->
  poll true d t = (Some {| ino := j; offset := 0; lastSize := 0 |}, []) /\
  forall old, polls (d :: ds) t =
    polls ({| at_path := at_path d; bytes_at := <[ino t := old]> (bytes_at d) |} :: ds) t.
Proof.
  intros Hp Hj. assert (Ht : forall d', at_path d' = Some j ->
    poll true d' t = (Some {| ino := j; offset := 0; lastSize := 0 |}, []))
    by (intros d' Hd'; unfold poll; by rewrite Hd', decide_True).
  split; [by apply Ht|]. intros old. cbn [polls]. by rewrite !Ht.
Qed.

(** ** Lemmas: the lines of a stream *)

Lemma IndexByte_skip a b c : free_of c a = true ->
  IndexByte (a +:+ b) c = (fun i => slen a + i) <$> IndexByte b c.
Proof.
  unfold free_of. induction a as [|x a IH]; [intros _; change ("" +:+ b) with b; by destruct (IndexByte b c)|].
  cbn [str_all]. rewrite andb_true_iff, negb_true_iff, bool_decide_eq_false. intros [Hx Ha].
  change (String x a +:+ b) with (String x (a +:+ b)). cbn [IndexByte].
  rewrite decide_False, IH by done. by destruct (IndexByte b c).
Qed.

Lemma scan_long f limit long post : 0 < f -> 0 < limit -> free_of nl long = true -> limit <= slen long ->
  scan_stream f limit (long +:+ post) = ([], Some limit).
Proof.
  intros Hf Hlim Hl Hn. destruct f as [|f]; [lia|]. cbn [scan_stream].
  rewrite decide_False by (destruct long; [unfold slen in Hn; simpl in Hn; lia|done]).
  rewrite IndexByte_skip by done.
  destruct (IndexByte post nl) as [i|]; cbn [fmap option_fmap option_map]; rewrite decide_True; try done;
    rewrite ?slen_app; lia.
Qed.

Lemma scan_cons f limit l s : free_of nl l = true -> slen l < limit -> 
  scan_stream (S f) limit (l +:+ String nl s) =
  (drop_last cr l :: fst (scan_stream f limit s), Nat.add (S (slen l)) <$> snd (scan_stream f limit s)).
Proof.
  intros Hl Hn. cbn [scan_stream]. rewrite decide_False by (by destruct l).
  rewrite IndexByte_app, decide_False by (done || lia). rewrite sdrop_S_app, stake_app.
  by destruct (scan_stream f limit s).
Qed.

Lemma IndexByte_len s c i : IndexByte s c = Some i -> slen (stake i s) = i.
Proof.
  revert i. induction s as [|x s IH]; intros i; cbn; [done|]. case_decide; [by intros [= <-]|].
  destruct (IndexByte s c) as [k|]; [|done]. intros [= <-].
  change (S (slen (stake k s)) = S k). by rewrite IH.
Qed.

Definition short (limit : nat) (l : string) : Prop := free_of nl l = true /\ slen l < limit.

Lemma written_length ls : length ls <= slen (written ls).
Proof.
  induction ls as [|l ls IH]; [cbn; lia|]. cbn [written foldr length]. fold (written ls).
  rewrite slen_app, slen_String. lia.
Qed.

Lemma scan_written limit ls s : Forall (short limit) ls -> forall f, length ls <= f ->
  scan_stream f limit (written ls +:+ s) =
  (map (drop_last cr) ls ++ fst (scan_stream (f - length ls) limit s),
   Nat.add (slen (written ls)) <$> snd (scan_stream (f - length ls) limit s)).
Proof.
  induction 1 as [|l ls [Hl Hn] _ IH]; intros f Hf.
  - cbn. rewrite Nat.sub_0_r. by destruct (scan_stream f limit s) as [? []].
  - destruct f as [|f]; [simpl in Hf; lia|]. cbn [written foldr length map]. fold (written ls).
    rewrite sapp_assoc. change (String nl (written ls) +:+ s) with (String nl (written ls +:+ s)).
    rewrite scan_cons, IH by (done || simpl in Hf; lia). cbn [fst snd]. f_equal.
    cbn [Nat.sub].
    destruct (snd (scan_stream (f - length ls) limit s)); [|done]. cbn. f_equal.
    rewrite slen_app, slen_String. lia.
Qed.

(** Whether a piece between newlines is too long. *)
Definition fits (limit : nat) (s : string) : Prop := Forall (fun p => slen p < limit) (Split s nl).

Lemma scan_fits f : forall limit s, 0 < limit -> slen s < f ->
  snd (scan_stream f limit s) = None <-> fits limit s.
Proof.
  unfold fits. induction f as [|f IH]; intros limit s Hlim Hf; [lia|]. cbn [scan_stream].
  case_decide as Hs; [subst; split; [intros _; repeat constructor; cbn; lia|done]|].
  destruct (IndexByte s nl) as [i|] eqn:E.
  - pose proof (IndexByte_before _ _ _ E) as Hb. pose proof (IndexByte_cut _ _ _ E) as Hc.
    pose proof (f_equal slen Hc) as Hl. rewrite slen_app, slen_String in Hl.
    pose proof (IndexByte_len _ _ _ E) as Hi.
    assert (HS : Split s nl = stake i s :: Split (sdrop (S i) s) nl)
      by (rewrite Hc at 1; by rewrite Split_app_sep).
    rewrite HS, list.Forall_cons, <- IH, Hi by lia.
    case_decide; [split; [done|lia]|]. destruct (scan_stream f limit (sdrop (S i) s)). cbn. 
    rewrite fmap_None. split; [intros ->; split; [lia|done]|tauto].
  - apply IndexByte_free in E. rewrite Split_free by done. rewrite list.Forall_singleton.
    case_decide; cbn; split; (done || lia).
Qed.

(** The pieces of the beginning of a text are no longer than those of the text. *)
Lemma fits_prefix limit a b : fits limit (a +:+ b) -> fits limit a.
Proof.
  unfold fits.
  enough (Hd : exists h t h' t', Split a nl = h :: t /\ Split (a +:+ b) nl = h' :: t' /\
    slen h <= slen h' /\ (Forall (fun p => slen p < limit) t' -> Forall (fun p => slen p < limit) t)).
  { destruct Hd as (h & t & h' & t' & -> & -> & Hh & Ht). rewrite !list.Forall_cons.
    intros [H1 H2]. split; [lia|auto]. }
  induction a as [|x a (h & t & h' & t' & E & E' & Hh & Ht)].
  - change ("" +:+ b) with b. pose proof (Split_nonempty b nl) as Hb.
    destruct (Split b nl) as [|h' t']; [done|]. exists "", [], h', t'. split; [done|].
    split; [done|]. split; [unfold slen; simpl; lia|constructor].
  - change (String x a +:+ b) with (String x (a +:+ b)). cbn [Split]. rewrite E, E'.
    case_decide.
    + exists "", (h :: t), "", (h' :: t'). rewrite !list.Forall_cons.
      split; [done|]. split; [done|]. split; [lia|]. intros [H1 H2]. split; [lia|auto].
    + exists (String x h), t, (String x h'), t'. rewrite !slen_String.
      split; [done|]. split; [done|]. split; [lia|done].
Qed.

(** The bytes of one of the two streams. *)
Fixpoint stream_of (err : bool) (frames : list (bool * string)) : string :=
  match frames with
  | [] => EmptyString
  | (e, data) :: fs => if Bool.eqb e err then data +:+ stream_of err fs else stream_of err fs
  end.

Lemma reader_fits limit s : 0 < limit -> reader_stops limit s = None <-> fits limit s.
Proof. intros Hl. apply scan_fits; [done|lia]. Qed.

Lemma demux_fits limit : 0 < limit -> forall frames out err,
  fits limit (out +:+ stream_of false frames) -> fits limit (err +:+ stream_of true frames) ->
  demux limit frames out err = (out +:+ stream_of false frames, err +:+ stream_of true frames, false).
Proof.
  intros Hlim. induction frames as [|[[] data] fs IH]; intros out err Ho He;
    cbn [stream_of demux Bool.eqb] in *; [by rewrite !sapp_nil_r| |].
  - rewrite <- sapp_assoc in He. rewrite (proj2 (reader_fits limit err Hlim)) by (by do 2 eapply fits_prefix).
    rewrite (proj2 (reader_fits limit (err +:+ data) Hlim)) by (by eapply fits_prefix).
    rewrite IH by done. by rewrite sapp_assoc.
  - rewrite <- sapp_assoc in Ho. rewrite (proj2 (reader_fits limit out Hlim)) by (by do 2 eapply fits_prefix).
    rewrite (proj2 (reader_fits limit (out +:+ data) Hlim)) by (by eapply fits_prefix).
    rewrite IH by done. by rewrite sapp_assoc.
Qed.

(** *** The time stamp *)

Definition digits (n : nat) (s : string) : Prop := str_all is_digit s = true /\ slen s = n.

(** A time zone: [Z], or a sign, two digits, perhaps a colon, two digits. *)
Definition is_zone (z : string) : Prop :=
  z = "Z" \/ exists sign hh colon mm, z = sign +:+ hh +:+ colon +:+ mm /\
    (sign = "+" \/ sign = "-") /\ digits 2 hh /\ (colon = "" \/ colon = ":") /\ digits 2 mm.

(** A date, a T or a blank, a time, any digits and points, perhaps a zone. *)
Definition is_stamp (ts : string) : Prop :=
  exists y mo d sep h mi sec frac zone,
    ts = (y +:+ "-" +:+ mo +:+ "-" +:+ d +:+ sep +:+ h +:+ ":" +:+ mi +:+ ":" +:+ sec) +:+ frac +:+ zone /\
    digits 4 y /\ digits 2 mo /\ digits 2 d /\ (sep = "T" \/ sep = " ") /\
    digits 2 h /\ digits 2 mi /\ digits 2 sec /\
    str_all (fun c => bool_decide (c = "."%char) || is_digit c) frac = true /\ (zone = "" \/ is_zone zone).

Lemma lang_star_cls f s : lang (RStar (RCls f)) s <-> str_all f s = true.
Proof.
  split.
  - intros Hl. remember (RStar (RCls f)) as r eqn:Hr. induction Hl as [| | | | |a|a s t Hs _ Ht IH]; try done.
    injection Hr as ->. apply lang_cls_inv in Hs as (c & -> & Hc).
    change (f c && str_all f t = true). rewrite Hc. by apply IH.
  - induction s as [|c s IH]; [constructor|]. intros [Hc Hs]%andb_prop.
    apply (lang_star_cons _ (String c "")); [by constructor|by apply IH].
Qed.

Lemma lang_one x y s : lang (RCls (fun c => bool_decide (c = x) || bool_decide (c = y))) s <->
  s = String x EmptyString \/ s = String y EmptyString.
Proof.
  rewrite lang_cls_inv. split.
  - intros (c & -> & [->%bool_decide_eq_true| ->%bool_decide_eq_true]%orb_true_iff); auto.
  - intros [->| ->]; eexists; (split; [reflexivity|]); rewrite orb_true_iff, !bool_decide_eq_true; auto.
Qed.

Lemma lang_zone z : lang (RAlt (RLit "Z") (RCat (RCls (fun c => bool_decide (c = "+"%char) || bool_decide (c = "-"%char)))
    (RCat (RRep 2 (RCls is_digit)) (RCat (ROpt (RLit ":")) (RRep 2 (RCls is_digit)))))) z <-> is_zone z.
Proof.
  rewrite lang_alt_inv, lang_lit. unfold is_zone. apply or_iff_compat_l. split.
  - intros (sign & r & -> & Hs%lang_one & Hr)%lang_cat_inv.
    apply lang_cat_inv in Hr as (hh & r2 & -> & Hh%lang_rep_cls & Hr).
    apply lang_cat_inv in Hr as (co & mm & -> & Hc%lang_opt & Hm%lang_rep_cls). rewrite lang_lit in Hc.
    exists sign, hh, co, mm. split_and!; try done. tauto.
  - intros (sign & hh & co & mm & -> & Hs & Hh & Hc & Hm).
    apply lang_cat; [by apply lang_one|]. apply lang_cat; [by apply lang_rep_cls|].
    apply lang_cat; [|by apply lang_rep_cls]. apply lang_opt. rewrite lang_lit. tauto.
Qed.

Lemma lang_dockerTSRe ts : lang dockerTSRe ts <-> is_stamp ts.
Proof.
  unfold dockerTSRe, is_stamp. cbv zeta. split.
  - intros (y & r & -> & Hy%lang_rep_cls & Hr)%lang_cat_inv.
    apply lang_cat_inv in Hr as (x1 & r1 & -> & ->%lang_lit & Hr).
    apply lang_cat_inv in Hr as (mo & r2 & -> & Hmo%lang_rep_cls & Hr).
    apply lang_cat_inv in Hr as (x2 & r3 & -> & ->%lang_lit & Hr).
    apply lang_cat_inv in Hr as (d & r4 & -> & Hd%lang_rep_cls & Hr).
    apply lang_cat_inv in Hr as (sep & r5 & -> & Hsep%lang_one & Hr).
    apply lang_cat_inv in Hr as (h & r6 & -> & Hh%lang_rep_cls & Hr).
    apply lang_cat_inv in Hr as (x3 & r7 & -> & ->%lang_lit & Hr).
    apply lang_cat_inv in Hr as (mi & r8 & -> & Hmi%lang_rep_cls & Hr).
    apply lang_cat_inv in Hr as (x4 & r9 & -> & ->%lang_lit & Hr).
    apply lang_cat_inv in Hr as (sec & r10 & -> & Hsec%lang_rep_cls & Hr).
    apply lang_cat_inv in Hr as (frac & zone & -> & Hf%lang_star_cls & Hz%lang_opt). rewrite lang_zone in Hz.
    exists y, mo, d, sep, h, mi, sec, frac, zone. split; [by rewrite !sapp_assoc|].
    split_and!; try done. tauto.
  - intros (y & mo & d & sep & h & mi & sec & frac & zone & -> & Hy & Hmo & Hd & Hsep & Hh & Hmi & Hsec & Hf & Hz).
    rewrite !sapp_assoc.
    repeat (apply lang_cat; [first [by apply lang_rep_cls|by apply lang_lit|by apply lang_one|by apply lang_star_cls]|]).
    apply lang_opt. rewrite lang_zone. tauto.
Qed.

Lemma digit_no_space c : is_digit c = true -> negb (re_space c) = true.
Proof.
  intros Hc. unfold re_space. rewrite negb_true_iff, bool_decide_eq_false. intros Hin.
  repeat (apply elem_of_cons in Hin as [->|Hin]; [discriminate Hc|]). by apply not_elem_of_nil in Hin.
Qed.

(** Behind its first 19 bytes a stamp has no white space. *)
Lemma stamp_tail ts : is_stamp ts -> exists a b, ts = a +:+ b /\ slen a = 19 /\
  str_all (fun c => negb (re_space c)) b = true.
Proof.
  intros (y & mo & d & sep & h & mi & sec & frac & zone & -> & [_ Hy] & [_ Hmo] & [_ Hd] & Hsep & [_ Hh] & [_ Hmi] & [_ Hsec] & Hf & Hz).
  eexists _, _. split; [reflexivity|]. split.
  - rewrite !slen_app, Hy, Hmo, Hd, Hh, Hmi, Hsec. by destruct Hsep as [->| ->].
  - assert (Hdig : forall n s, digits n s -> str_all (fun c => negb (re_space c)) s = true).
    { intros n s [Hs _]. eapply str_all_impl; [|exact Hs]. apply digit_no_space. }
    rewrite str_all_app. apply andb_true_iff. split.
    + eapply str_all_impl; [|exact Hf]. intros c [->%bool_decide_eq_true|Hc]%orb_true_iff; [done|by apply digit_no_space].
    + destruct Hz as [->|[->|(sign & hh & co & mm & -> & Hs & Hhh & Hc & Hmm)]]; [done|done|].
      rewrite !str_all_app, (Hdig _ _ Hhh), (Hdig _ _ Hmm).
      destruct Hs as [->| ->], Hc as [->| ->]; done.
Qed.

(** A line has one beginning at most that is a stamp in front of white space. *)
Lemma stamp_unique a b c d r r' : is_stamp a -> is_stamp b -> re_space c = true -> re_space d = true ->
  a +:+ String c r = b +:+ String d r' -> a = b.
Proof.
  intros Ha Hb Hc Hd.
  enough (Hgo : forall a b c d r r', is_stamp a -> is_stamp b -> re_space c = true ->
    a +:+ String c r = b +:+ String d r' -> ~ slen a < slen b).
  { intros E. pose proof (Hgo a b c d r r' Ha Hb Hc E). pose proof (Hgo b a d c r' r Hb Ha Hd (eq_sym E)).
    assert (Hl : slen a = slen b) by lia. apply (f_equal (stake (slen a))) in E.
    rewrite stake_app in E. by rewrite Hl, stake_app in E. }
  clear. intros a b c d r r' Ha Hb Hc E Hlt.
  apply stamp_tail in Ha as (a1 & a2 & -> & Hla & _). apply stamp_tail in Hb as (b1 & b2 & -> & Hlb & Hb).
  rewrite !sapp_assoc in E. assert (Hab : a1 = b1).
  { apply (f_equal (stake (slen a1))) in E. rewrite stake_app in E. by rewrite Hla, <- Hlb, stake_app in E. }
  subst b1. apply sapp_inj_l in E. rewrite !slen_app in Hlt.
  assert (Hlt2 : slen a2 < slen b2) by lia. clear - Hc E Hb Hlt2.
  revert a2 E Hlt2. induction b2 as [|x b2 IH]; intros [|y a2] E Hlt2; cbn in Hb; try (unfold slen in Hlt2; simpl in Hlt2; lia).
  - apply andb_prop in Hb as [Hx _]. change (String c r = String x (b2 +:+ String d r')) in E.
    injection E as -> _. by rewrite Hc in Hx.
  - apply andb_prop in Hb as [_ Hb]. rewrite !slen_String in Hlt2.
    apply (IH Hb a2); [by injection E|lia].
Qed.

(** ** Properties: containers *)


(** A container none of whose lines is that long is logged completely: every
    line of each stream that is not empty, in order, however Docker cuts the
    streams into frames; standard error as warnings. *)
Theorem capture_complete limit name frames :
  0 < limit -> fits limit (stream_of false frames) -> fits limit (stream_of true frames) ->
  captureContainer limit name frames =
  (processLines limit name "stdout" (stream_of false frames),
   processLines limit name "stderr" (stream_of true frames)).
Proof.
  intros Hlim Ho He. unfold captureContainer. by rewrite (demux_fits limit Hlim frames "" "").
Qed.

(** C35: the time stamp taken from a container's line is a date and a time with
    digits, points and a zone behind them, in front of the first white space
    that follows; a line that does not begin so gives none.  What the regular
    expression matches is spelled out by [is_stamp]. *)
Theorem extractContainerTS_regexp line ts :
  ts <> EmptyString ->
  extractContainerTS line = ts <->
  exists c rest, line = ts +:+ String c rest /\ re_space c = true /\ is_stamp ts.
Proof.
  intros Hts. unfold extractContainerTS. set (ok := fun n => _).
  assert (Hok : forall n, ok n = true <-> exists c rest, line = stake n line +:+ String c rest /\
            re_space c = true /\ is_stamp (stake n line)).
  { intros n. unfold ok, MatchFull. rewrite andb_true_iff, matches_lang, lang_dockerTSRe.
    pose proof (stake_sdrop n line) as Hcut. destruct (sdrop n line) as [|c rest].
    - split; [by intros [_ ?]|]. intros (c & rest & E & _). rewrite sapp_nil_r in Hcut.
      rewrite <- Hcut in E at 1. apply (f_equal slen) in E. rewrite slen_app, slen_String in E. lia.
    - split; [intros [H1 H2]; by exists c, rest|]. intros (c' & rest' & E & H1 & H2). split; [done|].
      rewrite <- Hcut in E at 1. apply sapp_inj_l in E. by injection E as -> _. }
  split.
  - destruct (List.find ok _) as [n|] eqn:Hf; [|by intros <-]. intros <-.
    apply List.find_some in Hf as [_ Hn]. by apply Hok.
  - intros (c & rest & Hline & Hc & Hst).
    assert (Hn : ok (slen ts) = true).
    { apply Hok. exists c, rest. rewrite Hline at 2 3. by rewrite stake_app. }
    destruct (List.find ok _) as [n|] eqn:Hf.
    + apply List.find_some in Hf as [_ Hn']. apply Hok in Hn' as (c' & rest' & E & Hc' & Hst').
      rewrite Hline in E at 1. by rewrite (stamp_unique _ _ _ _ _ _ Hst Hst' Hc Hc' E).
    + exfalso. eapply List.find_none in Hf; [|apply in_seq; split; [lia|]]; [by rewrite Hn in Hf|].
      rewrite Hline, slen_app, slen_String. lia.
Qed.

Lemma whole_lines_logged_once_witness :
  polls (growing 3 "old" [written ["a"; ""]; written ["b"]]) {| ino := 3; offset := 3; lastSize := 3 |} = ["a"; "b"].
Proof.
  rewrite (whole_lines_logged_once 3 "old" [["a"; ""]; ["b"]]); [reflexivity|reflexivity|reflexivity|cbn; lia|].
  repeat constructor.
Defined.

Lemma split_line_loses_its_head_witness :
  polls (growing 3 "" ["{level:"; "error}" +:+ nls]) {| ino := 3; offset := 0; lastSize := 0 |} = ["error}"].
Proof.
  apply (split_line_loses_its_head 3 "" "{level:" "error}");
    [reflexivity|reflexivity|cbn; lia|reflexivity|reflexivity|discriminate].
Defined.

Definition rotated : disk :=
  {| at_path := Some 4; bytes_at := {[3 := "unread" +:+ nls; 4 := "new" +:+ nls]} |}.

Lemma rotation_loses_the_rest_witness :
  polls [rotated; rotated] {| ino := 3; offset := 0; lastSize := 0 |} = ["new"].
Proof.
  rewrite (proj2 (rotation_loses_the_rest rotated {| ino := 3; offset := 0; lastSize := 0 |} 4
    [rotated] eq_refl ltac:(discriminate)) "").
  vm_compute. reflexivity.
Defined.


Lemma capture_complete_witness :
  captureContainer 9 "db" [(false, "o"); (true, "e" +:+ nls); (false, "k" +:+ nls)] =
  ([container_entry "db" "stdout" "ok"], [container_entry "db" "stderr" "e"]).
Proof.
  rewrite (capture_complete 9 "db"); [reflexivity|lia|repeat constructor; cbn; lia..].
Defined.

Lemma extractContainerTS_regexp_witness :
  exists c rest, "2024-05-01T10:20:30.5+02:00 started" = "2024-05-01T10:20:30.5+02:00" +:+ String c rest /\
    re_space c = true /\ is_stamp "2024-05-01T10:20:30.5+02:00".
Proof.
  apply (extractContainerTS_regexp "2024-05-01T10:20:30.5+02:00 started" "2024-05-01T10:20:30.5+02:00");
    [discriminate|vm_compute; reflexivity].
Defined.
