(* ===== verification/LogViews.v ===== *)
(** * loguicapi/export.go, logstream/sse_handler.go: the ways out of the log

    The export of the ring to a file, and the streaming of the hub to a
    browser, by the log viewer and by [wizard/bootstrap.go].  [json.Marshal],
    the compressors and the decoding of an event are parameters.  A connection
    is what its goroutine has written so far; the writer, the event loop of the
    hub and the connections interleave at the operations of [Hub], each in one
    piece, and the turns of the connections' loops; what comes between the
    parts of such an operation is in HubThreads.  [sse_parse] is the reference reader of an event
    stream, as the HTML standard has it. *)

From S2P Require Import Prelude GoLib FS Ring Hub.

(** ** export.go *)

(** The formats that are declared; any other string would be written as JSONL. *)
Inductive ExportFormat := ExportJSONL | ExportGZIP | ExportZIP | ExportCSV.
#[export] Instance ExportFormat_eq_dec : EqDecision ExportFormat.
Proof. solve_decision. Defined.

Definition format_name (f : ExportFormat) : string :=
  match f with ExportJSONL => "jsonl" | ExportGZIP => "gz" | ExportZIP => "zip" | ExportCSV => "csv" end.

Record ExportOptions := {
  Format : ExportFormat; StartTime : time; EndTime : time;
  OLevel : string; OComponent : string; OSource : string; Limit : Z
}.
Record ExportResult := { EPath : string; ERecords : nat; ESize : nat }.

Definition passes (opts : ExportOptions) (rec : LogRecord) : bool :=
  if decide (OLevel opts <> EmptyString /\ Level rec <> OLevel opts) then false
  else if decide (OComponent opts <> EmptyString /\ Component rec <> OComponent opts) then false
  else if decide (OSource opts <> EmptyString /\ Source rec <> OSource opts) then false
  else true.

Definition filterRecords (records : list LogRecord) (opts : ExportOptions) : list LogRecord :=
  filter (fun rec => passes opts rec = true) records.

(** The byte of a quote. *)
Definition dq : ascii := "034"%char.

Definition csv_header : string := "ts,level,component,source,msg,seq" +:+ nls.
Definition csv_line (rec : LogRecord) : string :=
  TS rec +:+ "," +:+ Level rec +:+ "," +:+ Component rec +:+ "," +:+ Source rec +:+ "," +:+
  dquote +:+ ReplaceAll (Msg rec) dq (dquote +:+ dquote) +:+ dquote +:+ "," +:+ Itoa (Seq rec) +:+ nls.

Section Exporting.
Context (marshal : LogRecord -> option string).
(** A compressor: what writing a piece sends on to the file, after the pieces
    before, and what closing sends after them all. *)
Context (comp_step : ExportFormat -> list string -> string -> string)
        (comp_end : ExportFormat -> list string -> string).
(** [os.TempDir()] *)
Context (tmp_dir : string).

Definition pieces (f : ExportFormat) (records : list LogRecord) : list string :=
  match f with
  | ExportCSV => map csv_line records
  | _ => omap (fun rec => (fun line => line +:+ nls) <$> marshal rec) records
  end.

(** [Write] on the file, or on the compressor in front of it. *)
Definition sink (path : string) (f : ExportFormat) (prev : list string) (p : string) : eff World unit :=
  match f with
  | ExportJSONL | ExportCSV => AppendTo path p
  | ExportGZIP | ExportZIP =>
      let out := comp_step f prev p in
      if decide (out = EmptyString) then mret tt else AppendTo path out
  end.

(** One [Write] per piece: how many succeeded. *)
Fixpoint write_pieces (path what : string) (f : ExportFormat) (prev ps : list string) (count : nat)
  : eff World nat :=
  match ps with
  | [] => mret count
  | p :: ps' => _ ← wrap what (sink path f prev p);
                write_pieces path what f (prev ++ [p]) ps' (S count)
  end.

Definition writeRecords (path : string) (f : ExportFormat) (records : list LogRecord) : eff World nat :=
  match f with
  | ExportCSV =>
      _ ← try (sink path f [] csv_header);
      write_pieces path "write csv: " f [] (pieces f records) 0
  | _ => write_pieces path "write jsonl: " f [] (pieces f records) 0
  end.

(** Closing the compressor; its error is dropped. *)
Definition close_writer (path : string) (f : ExportFormat) (records : list LogRecord) : eff World unit :=
  match f with
  | ExportGZIP | ExportZIP => _ ← try (AppendTo path (comp_end f (pieces f records))); mret tt
  | _ => mret tt
  end.

Definition file_size (path : string) : eff World nat := fun w =>
  (Ok (match next_outcome w with
       | None => slen (default EmptyString (files w !! path))
       | Some _ => 0
       end), after (files w) w).

Definition selected (records : list LogRecord) (opts : ExportOptions) : list LogRecord :=
  let filtered := filterRecords records opts in
  if decide (0 < Limit opts /\ Limit opts < Z.of_nat (length filtered))%Z
  then take (Z.to_nat (Limit opts)) filtered else filtered.

Definition ExportRing (r : Ring) (opts : ExportOptions) : eff World ExportResult :=
  let records := selected (Snapshot r) opts in
  let f := Format opts in
  tmpPath ← wrap "create temp file: " (CreateTemp (tmp_dir +:+ "/unet-export-") ("." +:+ format_name f));
  c ← try (writeRecords tmpPath f records);
  match c with
  | Ok count =>
      _ ← close_writer tmpPath f records;
      _ ← try (CloseFile tmpPath);
      size ← file_size tmpPath;
      mret {| EPath := tmpPath; ERecords := count; ESize := size |}
  | Err e => _ ← try (Remove tmpPath); throw ("write records: " +:+ e)
  | Panic p => panic p
  end.
End Exporting.

(** The last element of a path. *)
Definition Base (path : string) : string :=
  match rev (filter (fun p => p <> EmptyString) (Split path "/")) with
  | p :: _ => p
  | [] => if decide (path = EmptyString) then "." else "/"
  end.

Definition CleanupExport (path : string) : eff World unit :=
  if decide (path <> EmptyString) then
    if HasPrefix (Base path) "unet-export-" then (_ ← try (Remove path); mret tt) else mret tt
  else mret tt.

(** ** sse_handler.go *)

Definition parseFilterSet (s : string) : gmap string bool :=
  if decide (s = EmptyString) then ∅
  else list_to_map (map (fun p => (ToLower p, true))
         (filter (fun p => p <> EmptyString) (map TrimSpace (Split s ",")))).

(** [writeSSE] of data already encoded. *)
Definition writeSSE (eventType dataJSON : string) : string :=
  "event: " +:+ eventType +:+ nls +:+ "data: " +:+ dataJSON +:+ nls +:+ nls.

Record request := {
  r_Method : string; r_Accept : string; r_LastEventID : string;
  r_level : string; r_component : string; r_source : string; r_flusher : bool
}.

Definition quoted (s : string) : string := dquote +:+ s +:+ dquote.

Definition filter_of (r : request) : SubFilter :=
  {| Levels := parseFilterSet (r_level r); Components := parseFilterSet (r_component r);
     Sources := parseFilterSet (r_source r) |}.

Definition connected_event (id : Z) (buffer_size : Z) : string :=
  writeSSE "system" ("{" +:+ quoted "buffer_size" +:+ ":" +:+ Itoa buffer_size +:+ "," +:+
    quoted "subscriber" +:+ ":" +:+ Itoa id +:+ "," +:+ quoted "type" +:+ ":" +:+ quoted "connected" +:+ "}").
Definition heartbeat_event (ts : string) : string :=
  writeSSE "system" ("{" +:+ quoted "ts" +:+ ":" +:+ quoted ts +:+ "," +:+
    quoted "type" +:+ ":" +:+ quoted "heartbeat" +:+ "}").

(** ** wizard/bootstrap.go: what its stream adds *)

Definition wizard_filter : SubFilter :=
  {| Levels := ∅; Components := <["wizard" := true]> {["bootstrap" := true]}; Sources := ∅ |}.
Definition wizard_connected (session : string) : string :=
  writeSSE "system" ("{" +:+ quoted "type" +:+ ":" +:+ quoted "connected" +:+ "," +:+
    quoted "session_id" +:+ ":" +:+ quoted session +:+ "}").
Definition wizard_heartbeat (ts : string) : string :=
  writeSSE "heartbeat" ("{" +:+ quoted "ts" +:+ ":" +:+ quoted ts +:+ "}").

(** ** The connections that are served *)

Inductive Viewer := LogView | WizardView.
Record conn := { viewer : Viewer; out : string; live : bool }.
Record server := { hub : Hub; conns : gmap Z conn }.

Definition say (data : string) (c : conn) : conn :=
  {| viewer := viewer c; out := out c +:+ data; live := live c |}.
Definition hang_up (c : conn) : conn := {| viewer := viewer c; out := out c; live := false |}.

(** Returning from a handler runs its deferred [Unsubscribe]. *)
Definition leave (id : Z) (s : server) : server :=
  {| hub := Unsubscribe id (hub s); conns := alter hang_up id (conns s) |}.

(** [<-sub.Channel()] *)
Definition take_event (id : Z) (h : Hub) : Hub :=
  {| ring := ring h; objs := alter receive id (objs h); subscribers := subscribers h;
     nextID := nextID h; stopped := stopped h; notifyCh := notifyCh h |}.

Section SSE.
Context (marshal_event marshal_map : LogRecord -> option string).
(** A received event: its name, when it has one that is a string, and the
    encoding of its data; [None] when it is not an object. *)
Context (decode_event : string -> option (option string * string)).

(** The handler up to its event loop: a refusal with its status, or the
    subscription, the replay and what is written first. *)
Definition ServeHTTP_start (r : request) (h : Hub) : (Z + Z * string) * Hub :=
  if decide (r_Method r <> "GET") then (inl 405%Z, h)
  else if decide (r_Accept r <> EmptyString /\ Contains (r_Accept r) "text/event-stream" = false /\
                  Contains (r_Accept r) "*/*" = false) then (inl 415%Z, h)
  else if r_flusher r then
    let '((id, _), h1) := Subscribe (filter_of r) h in
    let h2 := if decide (r_LastEventID r <> EmptyString)
              then match Atoi (r_LastEventID r) with
                   | (afterSeq, None) => Replay marshal_map id afterSeq h1
                   | _ => h1
                   end
              else h1 in
    (inr (id, connected_event id (Cap (ring h2))), h2)
  else (inl 500%Z, h).

Definition ServeHTTP (r : request) (s : server) : Z + server :=
  match ServeHTTP_start r (hub s) with
  | (inl code, _) => inl code
  | (inr (id, first), h) =>
      inr {| hub := h; conns := <[id := {| viewer := LogView; out := first; live := true |}]> (conns s) |}
  end.

(** [loaded] is the session of the saved state, if there is one; [attached]
    says that the handler has a hub. *)
Definition handleSSEEvents (loaded : option string) (id : string) (attached flusher : bool) (s : server)
  : Z + server :=
  if decide (loaded <> Some id) then inl 404%Z
  else if negb attached then inl 500%Z
  else if flusher then
    let '((sid, _), h1) := Subscribe wizard_filter (hub s) in
    inr {| hub := h1;
           conns := <[sid := {| viewer := WizardView; out := wizard_connected id; live := true |}]> (conns s) |}
  else inl 500%Z.

(** What one event from the channel adds to the response. *)
Definition relay (data : string) : option string :=
  '(name, payload) ← decode_event data; Some (writeSSE (default "log" name) payload).

(** A turn of the loop that takes from the channel: it writes the event, or
    returns when the channel is closed and empty.  The wizard's loop then
    looks at the saved state: [finished] is its status, once it is final. *)
Definition turn_receive (finished : option string) (id : Z) (s : server) : option server :=
  c ← conns s !! id;
  sub ← objs (hub s) !! id;
  if live c then
    match ch sub with
    | [] => if closed sub then Some (leave id s) else None
    | data :: _ =>
        let s1 data := {| hub := take_event id (hub s); conns := <[id := say data c]> (conns s) |} in
        match relay data, viewer c, finished with
        | None, _, _ => Some (s1 EmptyString)
        | Some frame, WizardView, Some status => Some (leave id (s1 (frame +:+ writeSSE "done" status)))
        | Some frame, _, _ => Some (s1 frame)
        end
    end
  else None.

(** A turn that takes the ticker. *)
Definition turn_heartbeat (ts : string) (id : Z) (s : server) : option server :=
  c ← conns s !! id;
  if live c then
    Some {| hub := hub s;
            conns := <[id := say (match viewer c with LogView => heartbeat_event ts
                                  | WizardView => wizard_heartbeat ts end) c]> (conns s) |}
  else None.

(** A turn that finds the client gone. *)
Definition turn_done (id : Z) (s : server) : option server :=
  c ← conns s !! id; if live c then Some (leave id s) else None.

(** A text of one line. *)
Definition unbroken (s : string) : bool := free_of nl s && free_of "013" s.

(** Every goroutine's steps.  Timestamps, statuses and session identifiers
    are texts of one line, as the formats they are printed with are. *)
Inductive server_step : server -> server -> Prop :=
  | sv_write rec s : server_step s {| hub := write_notify rec (hub s); conns := conns s |}
  | sv_run s h : run_notified marshal_event (hub s) = Some h ->
      server_step s {| hub := h; conns := conns s |}
  | sv_stop s h : Stop (hub s) = (Ok tt, h) -> server_step s {| hub := h; conns := conns s |}
  | sv_connect r s s' : (nextID (hub s) < int64_max)%Z -> ServeHTTP r s = inr s' -> server_step s s'
  | sv_wizard loaded id att fl s s' : (nextID (hub s) < int64_max)%Z -> unbroken id = true ->
      handleSSEEvents loaded id att fl s = inr s' -> server_step s s'
  | sv_receive fin id s s' : match fin with Some st => unbroken st = true | None => True end ->
      turn_receive fin id s = Some s' -> server_step s s'
  | sv_heartbeat ts id s s' : unbroken ts = true -> turn_heartbeat ts id s = Some s' -> server_step s s'
  | sv_done id s s' : turn_done id s = Some s' -> server_step s s'.

Definition start (r : Ring) : server := {| hub := NewHub r; conns := ∅ |}.
End SSE.

(** ** The reference readers *)

(** RFC 4180: fields separated by commas, a field in quotes may hold commas
    and line breaks, and a quote as two. *)
Inductive cstate := Plain | Quoted | Closing.
#[export] Instance cstate_eq_dec : EqDecision cstate.
Proof. solve_decision. Defined.
Fixpoint csv_parse (s : string) (st : cstate) (fld : string) (row : list string) : list (list string) :=
  match s with
  | EmptyString => if decide (st = Plain /\ fld = EmptyString /\ row = []) then [] else [row ++ [fld]]
  | String c s' =>
      match st with
      | Quoted => if decide (c = dq) then csv_parse s' Closing fld row
                  else csv_parse s' Quoted (fld +:+ String c EmptyString) row
      | _ =>
          if decide (c = ","%char) then csv_parse s' Plain EmptyString (row ++ [fld])
          else if decide (c = nl) then (row ++ [fld]) :: csv_parse s' Plain EmptyString []
          else if decide (c = dq /\ (st = Closing \/ fld = EmptyString))
          then csv_parse s' Quoted (match st with Closing => fld +:+ String dq EmptyString | _ => fld end) row
          else csv_parse s' st (fld +:+ String c EmptyString) row
      end
  end.

(** The event stream format: a message is dispatched at an empty line, with
    the last [id] the stream has set. *)
Record message := { m_type : string; m_data : string; m_id : string }.
Record buffers := { b_type : string; b_data : string; b_id : string }.

Definition line_field (l : string) : string * string :=
  match IndexByte l ":" with
  | Some i => let v := sdrop (S i) l in (stake i l, if HasPrefix v " " then sdrop 1 v else v)
  | None => (l, EmptyString)
  end.
Definition take_line (l : string) (b : buffers) : buffers :=
  let '(name, value) := line_field l in
  if decide (name = "event") then {| b_type := value; b_data := b_data b; b_id := b_id b |}
  else if decide (name = "data") then {| b_type := b_type b; b_data := b_data b +:+ value +:+ nls; b_id := b_id b |}
  else if decide (name = "id") then {| b_type := b_type b; b_data := b_data b; b_id := value |}
  else b.
Fixpoint sse_lines (ls : list string) (b : buffers) : list message * string :=
  match ls with
  | [] => ([], b_id b)
  | EmptyString :: ls' =>
      let '(ms, last) := sse_lines ls' {| b_type := EmptyString; b_data := EmptyString; b_id := b_id b |} in
      (if decide (b_data b = EmptyString) then ms
       else {| m_type := if decide (b_type b = EmptyString) then "message" else b_type b;
               m_data := TrimSuffix (b_data b) nls; m_id := b_id b |} :: ms, last)
  | l :: ls' => sse_lines ls' (take_line l b)
  end.
(** Of a stream without carriage returns; what follows the last line break is
    not read yet. *)
Definition sse_parse (stream : string) : list message * string :=
  sse_lines (removelast (Split stream nl)) {| b_type := EmptyString; b_data := EmptyString; b_id := EmptyString |}.

(** ** Lemmas: CSV *)

Definition plain (s : string) : bool := free_of "," s && free_of nl s && free_of dq s.

Lemma plain_cons c s : plain (String c s) = true ->
  c <> ","%char /\ c <> nl /\ c <> dq /\ plain s = true.
Proof.
  unfold plain, free_of. cbn [str_all]. rewrite !andb_true_iff, !negb_true_iff, !bool_decide_eq_false.
  intros [[[? ?] [? ?]] [? ?]]. repeat split; done.
Qed.

Lemma csv_parse_plain s rest fld row : plain s = true ->
  csv_parse (s +:+ rest) Plain fld row = csv_parse rest Plain (fld +:+ s) row.
Proof.
  revert fld. induction s as [|c s IH]; intros fld Hp; [by rewrite sapp_nil_r|].
  apply plain_cons in Hp as (H1 & H2 & H3 & Hp).
  change (String c s +:+ rest) with (String c (s +:+ rest)). cbn [csv_parse].
  rewrite !decide_False by naive_solver. rewrite IH by done. by rewrite sapp_assoc.
Qed.

Lemma csv_parse_quoted m rest fld row :
  csv_parse (ReplaceAll m dq (dquote +:+ dquote) +:+ rest) Quoted fld row =
  csv_parse rest Quoted (fld +:+ m) row.
Proof.
  revert fld. induction m as [|c m IH]; intros fld; [by rewrite sapp_nil_r|].
  cbn [ReplaceAll]. case_decide as Hc.
  - subst c. rewrite sapp_assoc.
    change ((dquote +:+ dquote) +:+ ?r) with (String dq (String dq r)). cbn [csv_parse].
    rewrite (decide_True (P := dq = dq)) by done.
    rewrite !decide_False by done. rewrite decide_True by auto. rewrite IH. by rewrite sapp_assoc.
  - change (String c ?a +:+ ?r) with (String c (a +:+ r)). cbn [csv_parse].
    rewrite decide_False by done. rewrite IH. by rewrite sapp_assoc.
Qed.

Definition csv_row (rec : LogRecord) : list string :=
  [TS rec; Level rec; Component rec; Source rec; Msg rec; Itoa (Seq rec)].

Definition plain_labels (rec : LogRecord) : bool :=
  plain (TS rec) && plain (Level rec) && plain (Component rec) && plain (Source rec).

Lemma csv_comma fld row rest :
  csv_parse ("," +:+ rest) Plain fld row = csv_parse rest Plain EmptyString (row ++ [fld]).
Proof. done. Qed.

Lemma csv_field s row rest : plain s = true ->
  csv_parse (s +:+ "," +:+ rest) Plain EmptyString row = csv_parse rest Plain EmptyString (row ++ [s]).
Proof. intros Hs. by rewrite csv_parse_plain, csv_comma. Qed.

Lemma csv_parse_line rec rest : plain_labels rec = true ->
  csv_parse (csv_line rec +:+ rest) Plain EmptyString [] =
  csv_row rec :: csv_parse rest Plain EmptyString [].
Proof.
  unfold plain_labels. rewrite !andb_true_iff. intros [[[H1 H2] H3] H4].
  unfold csv_line. rewrite !sapp_assoc, !csv_field by done.
  change (dquote +:+ ?r) with (String dq r). cbn [csv_parse app].
  rewrite !decide_False by done. rewrite decide_True by auto.
  rewrite csv_parse_quoted.
  change (dquote +:+ "," +:+ ?r) with (String dq (String ","%char r)). cbn [csv_parse].
  rewrite !decide_True by done. cbn [app].
  rewrite csv_parse_plain by (unfold plain; by rewrite !Itoa_free_of). done.
Qed.

Definition csv_file (recs : list LogRecord) : string :=
  csv_header +:+ foldr (fun rec s => csv_line rec +:+ s) EmptyString recs.

(** ** Lemmas: event streams *)

Definition frames (evs : list (string * string)) : string :=
  foldr (fun '(n, d) s => writeSSE n d +:+ s) EmptyString evs.

Lemma frames_app a b : frames (a ++ b) = frames a +:+ frames b.
Proof. induction a as [|[n d] a IH]; [done|]. simpl. by rewrite IH, !sapp_assoc. Qed.

Lemma frames_one n d : frames [(n, d)] = writeSSE n d.
Proof. apply sapp_nil_r. Qed.

Lemma nls_app r : nls +:+ r = String nl r.
Proof. done. Qed.

Lemma Split_frame n d rest : unbroken n = true -> unbroken d = true ->
  Split (writeSSE n d +:+ rest) nl =
  ("event: " +:+ n) :: ("data: " +:+ d) :: EmptyString :: Split rest nl.
Proof.
  unfold unbroken. rewrite !andb_true_iff. intros [Hn _] [Hd _].
  unfold writeSSE. rewrite !sapp_assoc, !nls_app. rewrite <- (sapp_assoc "event: " n).
  rewrite Split_app_sep by (by rewrite free_of_app, Hn).
  rewrite <- (sapp_assoc "data: " d). rewrite Split_app_sep by (by rewrite free_of_app, Hd).
  done.
Qed.

Lemma take_line_event n b :
  take_line ("event: " +:+ n) b = {| b_type := n; b_data := b_data b; b_id := b_id b |}.
Proof.
  unfold take_line. assert (line_field ("event: " +:+ n) = ("event", n)) as ->; [|done].
  unfold line_field. cbn. by destruct n.
Qed.

Lemma take_line_data d b :
  take_line ("data: " +:+ d) b = {| b_type := b_type b; b_data := b_data b +:+ d +:+ nls; b_id := b_id b |}.
Proof.
  unfold take_line. assert (line_field ("data: " +:+ d) = ("data", d)) as ->; [|done].
  unfold line_field. cbn. by destruct d.
Qed.

Lemma sse_lines_frame n d ls id : n <> EmptyString ->
  sse_lines (("event: " +:+ n) :: ("data: " +:+ d) :: EmptyString :: ls)
    {| b_type := EmptyString; b_data := EmptyString; b_id := id |} =
  let '(ms, last) := sse_lines ls {| b_type := EmptyString; b_data := EmptyString; b_id := id |} in
  ({| m_type := n; m_data := d; m_id := id |} :: ms, last).
Proof.
  intros Hn. cbn [sse_lines]. change ("event: " +:+ n) with (String "e" ("vent: " +:+ n)).
  change ("data: " +:+ d) with (String "d" ("ata: " +:+ d)). cbn iota beta.
  change (String "e" ("vent: " +:+ n)) with ("event: " +:+ n).
  change (String "d" ("ata: " +:+ d)) with ("data: " +:+ d).
  rewrite take_line_event, take_line_data. cbn [b_type b_data b_id].
  change (EmptyString +:+ d +:+ nls) with (d +:+ nls).
  destruct (sse_lines ls _) as [ms last]. rewrite !decide_False by (by destruct d).
  unfold nls. by rewrite TrimSuffix_app.
Qed.

Definition frame_ok (ev : string * string) : Prop :=
  ev.1 <> EmptyString /\ unbroken ev.1 = true /\ unbroken ev.2 = true.

Definition message_of (ev : string * string) : message :=
  {| m_type := ev.1; m_data := ev.2; m_id := EmptyString |}.

Lemma sse_parse_frames evs : Forall frame_ok evs ->
  sse_parse (frames evs) = (map message_of evs, EmptyString).
Proof.
  unfold sse_parse. induction 1 as [|[n d] evs (Hn & Hun & Hud) _ IH]; [done|].
  cbn [fst snd] in *. change (frames ((n, d) :: evs)) with (writeSSE n d +:+ frames evs).
  rewrite Split_frame by done.
  change (?a :: ?b :: ?c :: Split ?s nl) with ([a; b; c] ++ Split s nl).
  rewrite removelast_app by apply Split_nonempty. cbn [app].
  rewrite sse_lines_frame, IH by done. done.
Qed.

(** ** Lemmas: filters *)

Lemma lower_char_idem c : lower_char (lower_char c) = lower_char c.
Proof. destruct c as [[] [] [] [] [] [] [] []]; vm_compute; reflexivity. Qed.

Lemma ToLower_idem s : ToLower (ToLower s) = ToLower s.
Proof. induction s as [|c s IH]; simpl; [done|]. by rewrite lower_char_idem, IH. Qed.

(** The words of a filter, as they are compared. *)
Definition filter_words (s : string) : list string :=
  map ToLower (filter (fun p => p <> EmptyString) (map TrimSpace (Split s ","))).

Lemma parseFilterSet_lookup s k :
  parseFilterSet s !! k = if decide (k ∈ filter_words s) then Some true else None.
Proof.
  assert (Hall : forall ps : list string, (list_to_map (map (fun p => (ToLower p, true)) ps) : gmap string bool) !! k =
    if decide (k ∈ map ToLower ps) then Some true else None).
  { induction ps as [|p ps IH]; simpl; [done|]. destruct (decide (k = ToLower p)) as [->|Hne].
    - rewrite lookup_insert_eq, decide_True by set_solver. done.
    - rewrite lookup_insert_ne, IH by done. apply decide_ext. set_solver. }
  unfold parseFilterSet. case_decide as Hs; [|apply Hall].
  subst. by rewrite lookup_empty.
Qed.

Lemma filtered_out_words s k :
  filtered_out (parseFilterSet s) k = true <-> filter_words s <> [] /\ k ∉ filter_words s.
Proof.
  unfold filtered_out. rewrite andb_true_iff, !negb_true_iff, bool_decide_eq_false.
  rewrite parseFilterSet_lookup. split.
  - intros [Hne Hk]. case_decide as H; [done|]. split; [|done]. intros Hnil. apply Hne.
    apply map_eq. intros i. rewrite parseFilterSet_lookup, Hnil, lookup_empty. by rewrite decide_False by set_solver.
  - intros [Hne Hk]. rewrite decide_False by done. split; [|done].
    intros Hm. destruct (filter_words s) as [|w ws] eqn:E; [done|].
    pose proof (parseFilterSet_lookup s w) as H. rewrite Hm, lookup_empty, E, decide_True in H by set_solver. done.
Qed.

(** ** Lemmas: the server's invariant *)

Section Invariant.
Context (marshal_event marshal_map : LogRecord -> option string)
        (decode_event : string -> option (option string * string)).

(** An encoding of a record, by either of the two encoders. *)
Definition encodes (data : string) : Prop :=
  exists rec, marshal_event rec = Some data \/ marshal_map rec = Some data.

(** What the hub sends is decoded again: an event named [log] whose data is
    encoded on one line. *)
Hypothesis decoded : forall data, encodes data ->
  exists payload, decode_event data = Some (Some "log", payload) /\ unbroken payload = true.

Definition queues_encode (h : Hub) : Prop :=
  forall id sub, objs h !! id = Some sub -> Forall encodes (ch sub).

Record server_inv (s : server) : Prop := {
  si_hub : hub_inv (hub s);
  si_owned : forall id, id ∈ subscribers (hub s) -> exists c, conns s !! id = Some c /\ live c = true;
  si_served : stopped (hub s) = false -> forall id c,
    conns s !! id = Some c -> live c = true -> id ∈ subscribers (hub s);
  si_known : forall id c, conns s !! id = Some c -> is_Some (objs (hub s) !! id);
  si_queues : queues_encode (hub s);
  si_out : forall id c, conns s !! id = Some c ->
    exists evs, out c = frames evs /\ Forall frame_ok evs
}.

(** What the hub may do between the connections' turns. *)
Record quiet (h h' : Hub) : Prop := {
  q_inv : hub_inv h';
  q_subs : subscribers h' ⊆ subscribers h;
  q_all : stopped h' = false -> stopped h = false /\ subscribers h' = subscribers h;
  q_known : forall id, is_Some (objs h !! id) -> is_Some (objs h' !! id);
  q_queues : queues_encode h'
}.

Lemma quiet_server s h : server_inv s -> quiet (hub s) h -> server_inv {| hub := h; conns := conns s |}.
Proof.
  intros [Hh Ho Hs Hk Hq Hout] [Qi Qs Qa Qk Qq]. split; simpl; eauto.
  intros Hst id c. destruct (Qa Hst) as [Hst' ->]. eauto.
Qed.

Lemma send_encodes data s : Forall encodes (ch s) -> encodes data -> Forall encodes (ch (snd (send data s))).
Proof.
  intros Hc Hd. unfold send. destruct (closed s); [done|].
  assert (forall l, Forall encodes l -> Forall encodes (l ++ [data])).
  { intros l Hl. apply Forall_app. auto. }
  case_decide; simpl; auto. destruct (ch s) eqn:E; simpl.
  - case_decide; simpl; rewrite ?E; auto.
  - apply list.Forall_cons in Hc as [_ Hc]. case_decide; simpl; auto.
Qed.

Lemma send_records_encodes enc recs s :
  (forall rec data, enc rec = Some data -> encodes data) ->
  Forall encodes (ch s) -> Forall encodes (ch (send_records enc recs s)).
Proof.
  intros He. revert s. induction recs as [|rec recs IH]; intros s Hs; [done|].
  rewrite send_records_cons. apply IH. unfold send_encoded.
  destruct (enc rec) eqn:E; [|done]. destruct (Matches s rec); eauto using send_encodes.
Qed.

Lemma event_encodes rec data : marshal_event rec = Some data -> encodes data.
Proof. exists rec. auto. Qed.
Lemma map_encodes rec data : marshal_map rec = Some data -> encodes data.
Proof. exists rec. auto. Qed.

Lemma quiet_write rec h : hub_inv h -> queues_encode h -> quiet h (write_notify rec h).
Proof.
  intros Hh Hq. split; [|unfold write_notify, Notify; simpl; by case_decide..].
  eapply (hub_step_inv marshal_event marshal_map); [exact Hh|constructor].
Qed.

Lemma quiet_run h h' : hub_inv h -> queues_encode h -> run_notified marshal_event h = Some h' -> quiet h h'.
Proof.
  intros Hh Hq Hr. assert (Hi : hub_inv h') by (eapply (hub_step_inv marshal_event marshal_map); [exact Hh|by constructor]).
  unfold run_notified in Hr. destruct (notifyCh h); [done|]. injection Hr as <-.
  split; simpl; try done.
  - intros id [s Hs]. rewrite map_lookup_imap, Hs. simpl. eauto.
  - intros id sub. simpl. rewrite map_lookup_imap. destruct (objs h !! id) as [s|] eqn:E; simpl; [|done].
    intros [= <-]. case_decide; [|by eapply Hq]. apply send_records_encodes; [apply event_encodes|by eapply Hq].
Qed.

Lemma Close_ch s : ch (Close s) = ch s.
Proof. unfold Close. by case_match. Qed.

Lemma quiet_stop h h' : hub_inv h -> queues_encode h -> Stop h = (Ok tt, h') -> quiet h h'.
Proof.
  intros Hh Hq Hs. pose proof (Stop_inv _ _ Hh Hs) as Hi. unfold Stop in Hs.
  destruct (stopped h) eqn:Hst; [done|]. injection Hs as <-. split; simpl; try done.
  - intros id [s Hs]. rewrite map_lookup_imap, Hs. simpl. eauto.
  - intros id sub. simpl. rewrite map_lookup_imap. destruct (objs h !! id) as [s|] eqn:E; simpl; [|done].
    intros [= <-]. case_decide; rewrite ?Close_ch; by eapply Hq.
Qed.

Lemma quiet_replay id k h : hub_inv h -> queues_encode h -> quiet h (Replay marshal_map id k h).
Proof.
  intros Hh Hq. split; simpl; try done.
  - eapply (hub_step_inv marshal_event marshal_map); [exact Hh|apply step_replay].
  - intros i [s Hs]. rewrite lookup_alter. case_decide; subst; rewrite Hs; simpl; eauto.
  - intros i sub. simpl. rewrite lookup_alter. case_decide; [|by eauto].
    subst. intros [s [Hs ->]]%fmap_Some. apply send_records_encodes; [apply map_encodes|by eapply Hq].
Qed.

Lemma quiet_take id h : hub_inv h -> queues_encode h -> quiet h (take_event id h).
Proof.
  intros Hh Hq. split; simpl; try done.
  - eapply (hub_step_inv marshal_event marshal_map _ (take_event id h)); [exact Hh|apply step_receive].
  - intros i [s Hs]. rewrite lookup_alter. case_decide; subst; rewrite Hs; simpl; eauto.
  - intros i sub. simpl. rewrite lookup_alter. case_decide; [|by eauto].
    subst. intros [s [Hs ->]]%fmap_Some. simpl. apply Hq in Hs. by destruct Hs.
Qed.

(** A new connection: subscribed, with what it wrote first. *)
Lemma subscribe_server f v s :
  (nextID (hub s) < int64_max)%Z -> server_inv s ->
  let '((id, _), h) := Subscribe f (hub s) in
  forall first, (exists evs, first = frames evs /\ Forall frame_ok evs) ->
  server_inv {| hub := h; conns := <[id := {| viewer := v; out := first; live := true |}]> (conns s) |}.
Proof.
  intros Hlt [Hh Ho Hs Hk Hq Hout]. pose proof (Subscribe_inv f _ Hlt Hh) as Hi.
  unfold Subscribe in *. simpl in Hi. destruct Hh as [_ _ _ [Hn Hids] _].
  assert (Hw : wrap64 (nextID (hub s) + 1) = (nextID (hub s) + 1)%Z)
    by (apply wrap64_id; unfold int64_min, int64_max in *; lia).
  rewrite Hw in *. set (id := (nextID (hub s) + 1)%Z) in *.
  assert (Hfresh : objs (hub s) !! id = None).
  { destruct (objs (hub s) !! id) eqn:E; [|done]. apply Hids in E. lia. }
  intros first Hf. split; simpl; [exact Hi| | | | |].
  - intros i. destruct (decide (i = id)) as [->|Hne]; [rewrite lookup_insert_eq; eauto|].
    rewrite lookup_insert_ne by done. intros Hi'. apply Ho. set_solver.
  - intros Hst i c. destruct (decide (i = id)) as [->|Hne]; [set_solver|].
    rewrite lookup_insert_ne by done. intros Hc Hl. apply elem_of_union_r. eauto.
  - intros i c. destruct (decide (i = id)) as [->|Hne]; [rewrite !lookup_insert_eq; eauto|].
    rewrite !lookup_insert_ne by done. eauto.
  - intros i sub. simpl. destruct (decide (i = id)) as [->|Hne].
    + rewrite lookup_insert_eq. intros [= <-]. constructor.
    + rewrite lookup_insert_ne by done. eauto.
  - intros i c. destruct (decide (i = id)) as [->|Hne]; [rewrite lookup_insert_eq; intros [= <-]; done|].
    rewrite lookup_insert_ne by done. eauto.
Qed.

Lemma leave_server id s : server_inv s -> server_inv (leave id s).
Proof.
  intros [Hh Ho Hs Hk Hq Hout].
  assert (Hin : forall i, i ∈ subscribers (Unsubscribe id (hub s)) <-> i ∈ subscribers (hub s) /\ i <> id).
  { intros i. unfold Unsubscribe. case_decide; simpl; [set_solver|naive_solver]. }
  assert (Hobj : forall i sub, objs (Unsubscribe id (hub s)) !! i = Some sub ->
    exists sub0, objs (hub s) !! i = Some sub0 /\ ch sub = ch sub0).
  { intros i sub. unfold Unsubscribe. case_decide; simpl; [|eauto].
    rewrite lookup_alter. case_decide; [|eauto]. subst. intros [s0 [Hs0 ->]]%fmap_Some.
    exists s0. by rewrite Close_ch. }
  assert (Hconn : forall i c, alter hang_up id (conns s) !! i = Some c ->
    exists c0, conns s !! i = Some c0 /\ out c = out c0 /\ (live c = true -> i <> id /\ c = c0)).
  { intros i c. rewrite lookup_alter. case_decide; [|eauto 6].
    subst. intros [c0 [Hc0 ->]]%fmap_Some. by exists c0. }
  split; simpl.
  - by apply Unsubscribe_inv.
  - intros i [Hi Hne]%Hin. rewrite lookup_alter_ne by done. eauto.
  - intros Hst i c (c0 & Hc0 & _ & Hl)%Hconn Hlive. apply Hin. destruct (Hl Hlive) as [Hne ->].
    split; [|done]. eapply Hs; eauto. unfold Unsubscribe in Hst. by case_decide.
  - intros i c (c0 & Hc0 & _)%Hconn. apply Hk in Hc0 as [o Hob].
    unfold Unsubscribe. case_decide; simpl; [|eauto]. rewrite lookup_alter. case_decide; subst; rewrite Hob; simpl; eauto.
  - intros i sub (s0 & Hs0 & ->)%Hobj. by eapply Hq.
  - intros i c (c0 & Hc0 & -> & _)%Hconn. eauto.
Qed.

Lemma say_server id c evs s : server_inv s -> conns s !! id = Some c -> Forall frame_ok evs ->
  server_inv {| hub := hub s; conns := <[id := say (frames evs) c]> (conns s) |}.
Proof.
  intros [Hh Ho Hs Hk Hq Hout] Hc He. split; simpl; [done| | | |done|].
  - intros i Hi. destruct (Ho i Hi) as (c0 & Hc0 & Hl). destruct (decide (i = id)) as [->|Hne].
    + rewrite lookup_insert_eq. simplify_eq. eauto.
    + rewrite lookup_insert_ne by done. eauto.
  - intros Hst i c0. destruct (decide (i = id)) as [->|Hne].
    + rewrite lookup_insert_eq. intros [= <-]. simpl. eauto.
    + rewrite lookup_insert_ne by done. eauto.
  - intros i c0. destruct (decide (i = id)) as [->|Hne]; [by eauto|].
    rewrite lookup_insert_ne by done. eauto.
  - intros i c0. destruct (decide (i = id)) as [->|Hne].
    + rewrite lookup_insert_eq. intros [= <-]. simpl. destruct (Hout id c Hc) as (evs0 & -> & Hok).
      exists (evs0 ++ evs). rewrite frames_app, Forall_app. done.
    + rewrite lookup_insert_ne by done. eauto.
Qed.

Lemma unbroken_app a b : unbroken (a +:+ b) = unbroken a && unbroken b.
Proof. unfold unbroken. rewrite !free_of_app. by destruct (free_of nl a), (free_of nl b), (free_of _ a). Qed.

Lemma Itoa_unbroken z : unbroken (Itoa z) = true.
Proof. unfold unbroken. by rewrite !Itoa_free_of. Qed.

Lemma connected_frame id n : exists evs, connected_event id n = frames evs /\ Forall frame_ok evs.
Proof.
  unfold connected_event. eexists [_]. rewrite frames_one. split; [done|].
  constructor; [|done]. split; [done|]. split; [done|]. cbn [snd].
  by rewrite !unbroken_app, !Itoa_unbroken.
Qed.

Lemma wizard_frame id : unbroken id = true -> exists evs, wizard_connected id = frames evs /\ Forall frame_ok evs.
Proof.
  intros Hid. unfold wizard_connected. eexists [_]. rewrite frames_one. split; [done|].
  constructor; [|done]. split; [done|]. split; [done|]. cbn [snd]. unfold quoted.
  by rewrite !unbroken_app, Hid.
Qed.

Lemma heartbeat_frame v ts : unbroken ts = true -> exists evs,
  (match v with LogView => heartbeat_event ts | WizardView => wizard_heartbeat ts end) = frames evs /\
  Forall frame_ok evs.
Proof.
  intros Hts. destruct v; [unfold heartbeat_event|unfold wizard_heartbeat]; (eexists [_]; rewrite frames_one;
    split; [done|]; constructor; [|done]; split; [done|]; split; [done|]; cbn [snd]; unfold quoted;
    by rewrite !unbroken_app, Hts).
Qed.

Lemma relay_encoded data : encodes data -> exists payload,
  relay decode_event data = Some (writeSSE "log" payload) /\ unbroken payload = true.
Proof.
  intros Hd. destruct (decoded _ Hd) as (payload & Hp & Hu). exists payload.
  unfold relay. rewrite Hp. done.
Qed.

Lemma receive_server fin id s s' :
  match fin with Some st => unbroken st = true | None => True end ->
  server_inv s -> turn_receive decode_event fin id s = Some s' -> server_inv s'.
Proof.
  intros Hfin Hs. unfold turn_receive. destruct (conns s !! id) as [c|] eqn:Hc; [|done].
  destruct (objs (hub s) !! id) as [sub|] eqn:Hsub; [|done]. cbn [mbind option_bind].
  destruct (live c); [|done]. destruct (ch sub) as [|data q] eqn:Hq.
  { destruct (closed sub); [|done]. intros [= <-]. by apply leave_server. }
  pose proof (si_queues _ Hs _ _ Hsub) as Henc. rewrite Hq in Henc. apply list.Forall_cons in Henc as [Henc _].
  destruct (relay_encoded _ Henc) as (payload & -> & Hu).
  assert (Htake : server_inv {| hub := take_event id (hub s); conns := conns s |})
    by (apply quiet_server; [done|]; apply quiet_take; apply Hs).
  assert (Hsay : forall evs, Forall frame_ok evs ->
    server_inv {| hub := take_event id (hub s); conns := <[id := say (frames evs) c]> (conns s) |})
    by (intros evs He; by apply (say_server id c evs _ Htake)).
  assert (Hlog : frame_ok ("log", payload)) by done.
  destruct (viewer c), fin as [st|]; intros [= <-].
  - rewrite <- frames_one. apply Hsay. auto.
  - rewrite <- frames_one. apply Hsay. auto.
  - apply leave_server. assert (Hboth : Forall frame_ok [("log", payload); ("done", st)]) by (repeat constructor; done).
    apply Hsay in Hboth. change (frames _) with (writeSSE "log" payload +:+ frames [("done", st)]) in Hboth.
    rewrite frames_one in Hboth. exact Hboth.
  - rewrite <- frames_one. apply Hsay. auto.
Qed.

Lemma step_server s s' :
  server_inv s -> server_step marshal_event marshal_map decode_event s s' -> server_inv s'.
Proof.
  intros Hs. destruct 1 as [rec s|s h Hr|s h Hst|r s s' Hlt Hc|loaded id att fl s s' Hlt Hid Hc
    |fin id s s' Hfin Hr|ts id s s' Hts Hr|id s s' Hr].
  - apply quiet_server; [done|]. apply quiet_write; apply Hs.
  - apply quiet_server; [done|]. eapply quiet_run; [apply Hs..|done].
  - apply quiet_server; [done|]. eapply quiet_stop; [apply Hs..|done].
  - unfold ServeHTTP, ServeHTTP_start in Hc. do 2 (case_decide; [done|]).
    destruct (r_flusher r); [|done].
    pose proof (subscribe_server (filter_of r) LogView s Hlt Hs) as Hsub.
    destruct (Subscribe (filter_of r) (hub s)) as [[id k] h1]. simpl in Hc.
    set (h2 := if decide _ then _ else _) in Hc. injection Hc as <-.
    specialize (Hsub _ (connected_frame id (Cap (ring h2)))).
    apply (quiet_server _ h2 Hsub). unfold h2. destruct Hsub. simpl in *.
    case_decide; [|by split].
    destruct (Atoi _) as [k' [e|]]; [by split|]. by apply quiet_replay.
  - unfold handleSSEEvents in Hc. case_decide; [done|]. destruct att, fl; try done.
    pose proof (subscribe_server wizard_filter WizardView s Hlt Hs) as Hsub.
    destruct (Subscribe wizard_filter (hub s)) as [[sid k] h1]. injection Hc as <-.
    by apply Hsub, wizard_frame.
  - by eapply receive_server.
  - unfold turn_heartbeat in Hr. destruct (conns s !! id) as [c|] eqn:Hc; [|done]. simpl in Hr.
    destruct (live c); [|done]. injection Hr as <-.
    destruct (heartbeat_frame (viewer c) ts Hts) as (evs & -> & He). by apply say_server.
  - unfold turn_done in Hr. destruct (conns s !! id) as [c|] eqn:Hc; [|done]. simpl in Hr.
    destruct (live c); [|done]. injection Hr as <-. by apply leave_server.
Qed.

Lemma start_server r : server_inv (start r).
Proof. split; simpl; try done; apply hub_inv_new. Qed.

Lemma reachable_server r s :
  star (server_step marshal_event marshal_map decode_event) (start r) s -> server_inv s.
Proof. apply star_inv_ind; [intros; eauto using step_server|apply start_server]. Qed.

(** [n] turns that take from the channel. *)
Fixpoint drain (n : nat) (id : Z) (s : server) : option server :=
  match n with 0 => Some s | S n' => turn_receive decode_event None id s ≫= drain n' id end.

Definition log_frames (payloads : list string) : string := frames (map (pair "log") payloads).

Lemma drain_queue q : forall id s c sub,
  server_inv s -> conns s !! id = Some c -> live c = true ->
  objs (hub s) !! id = Some sub -> ch sub = q ->
  exists s' payloads,
    drain (length q) id s = Some s' /\ server_inv s' /\
    Forall2 (fun data p => decode_event data = Some (Some "log", p) /\ unbroken p = true) q payloads /\
    conns s' !! id = Some (say (log_frames payloads) c) /\
    exists sub', objs (hub s') !! id = Some sub' /\ ch sub' = [] /\ closed sub' = closed sub.
Proof.
  induction q as [|data q IH]; intros id s c sub Hs Hc Hl Hsub Hq; cbn [length drain].
  - exists s, []. split; [done|]. split; [done|]. split; [constructor|].
    split; [|eauto]. rewrite Hc. unfold say. rewrite sapp_nil_r. by destruct c.
  - pose proof (si_queues _ Hs _ _ Hsub) as Henc. rewrite Hq in Henc.
    apply list.Forall_cons in Henc as [Henc _]. destruct (decoded _ Henc) as (p & Hp & Hu).
    assert (Ht : turn_receive decode_event None id s =
      Some {| hub := take_event id (hub s); conns := <[id := say (writeSSE "log" p) c]> (conns s) |}).
    { unfold turn_receive, relay. rewrite Hc, Hsub. cbn [mbind option_bind]. rewrite Hl, Hq, Hp.
      by destruct (viewer c). }
    pose proof (receive_server None id s _ I Hs Ht) as Hs1. rewrite Ht. cbn [mbind option_bind].
    destruct (IH id _ (say (writeSSE "log" p) c) (receive sub) Hs1) as (s' & ps & Hd & Hi & Hps & Hc' & Hsub').
    + simpl. by rewrite lookup_insert_eq.
    + done.
    + simpl. by rewrite lookup_alter_eq, Hsub.
    + simpl. by rewrite Hq.
    + exists s', (p :: ps). split; [done|]. split; [done|]. split; [by constructor|]. split; [|exact Hsub'].
      rewrite Hc'. unfold say, log_frames. cbn [out viewer live map]. do 2 f_equal. by rewrite sapp_assoc.
Qed.

(** ** Theorems: the streams *)

(** C5: no interleaving of the writer, the hub's loop, the connections' turns,
    heartbeats, disconnections and the shutdown leaks a subscriber: every
    registered one belongs to a connection whose handler is still running, and
    while the hub runs every running handler has one. *)
Theorem no_subscriber_leaks r s :
  star (server_step marshal_event marshal_map decode_event) (start r) s ->
  (forall id, id ∈ subscribers (hub s) -> exists c, conns s !! id = Some c /\ live c = true) /\
  (stopped (hub s) = false -> forall id c, conns s !! id = Some c -> live c = true -> id ∈ subscribers (hub s)).
Proof. intros Hs%reachable_server. split; apply Hs. Qed.

(** Whatever a connection has written reads back, by the event-stream
    format, as the sequence of its events; none of them carries an [id], so
    the browser that reconnects sends no [Last-Event-ID] and the handler
    replays nothing: it only subscribes. *)
Theorem reconnection_replays_nothing r s id c req :
  star (server_step marshal_event marshal_map decode_event) (start r) s ->
  conns s !! id = Some c -> r_LastEventID req = snd (sse_parse (out c)) ->
  (exists evs, out c = frames evs /\ fst (sse_parse (out c)) = map message_of evs) /\
  forall k h' h, ServeHTTP_start marshal_map req h = (inr k, h') -> h' = snd (Subscribe (filter_of req) h).
Proof.
  intros Hs%reachable_server Hc Hlast. destruct (si_out _ Hs _ _ Hc) as (evs & Ho & Hok).
  pose proof (sse_parse_frames evs Hok) as Hp. rewrite <- Ho in Hp. rewrite Hp in *. simpl in Hlast.
  split; [eauto|]. intros k h' h. unfold ServeHTTP_start. do 2 (case_decide; [done|]).
  destruct (r_flusher req); [|done]. destruct (Subscribe (filter_of req) h) as [[i j] h1].
  rewrite (decide_False (P := r_LastEventID req <> "")) by (rewrite Hlast; tauto).
  by intros [= _ <-].
Qed.

(** C11: a record reaches the browser.  The loop of the hub handles the
    notification of record [k+1], and the connection, which had nothing
    waiting, takes what its channel got: the browser then reads, after what it
    had read, exactly the events of the records after the [k]-th that pass the
    connection's filters, in order (provided they fit in the channel). *)
Theorem logged_records_reach_browser r s k n l rest id c sub :
  star (server_step marshal_event marshal_map decode_event) (start r) s ->
  ring (hub s) = write_all l (NewRing (Z.of_nat n)) ->
  0 < n -> (Z.of_nat n < 2 ^ 63)%Z -> (Z.of_nat (length l) < 2 ^ 63)%Z ->
  length l <= k + n -> (Z.of_nat k < int64_max)%Z ->
  notifyCh (hub s) = (Z.of_nat k + 1)%Z :: rest -> id ∈ subscribers (hub s) ->
  conns s !! id = Some c -> objs (hub s) !! id = Some sub -> ch sub = [] ->
  let due := encoded marshal_event sub (drop k (numbered l)) in
  length due <= ch_cap sub ->
  exists h s' c' payloads,
    run_notified marshal_event (hub s) = Some h /\
    drain (length due) id {| hub := h; conns := conns s |} = Some s' /\
    conns s' !! id = Some c' /\
    Forall2 (fun data p => decode_event data = Some (Some "log", p)) due payloads /\
    fst (sse_parse (out c')) =
      fst (sse_parse (out c)) ++ map (fun p => message_of ("log", p)) payloads.
Proof.
  intros Hs%reachable_server Hr Hn Hnb Hl Hlen Hk Hno Hin Hc Hsub Hq due Hfit.
  set (h := fanout marshal_event (Z.of_nat k + 1)
    {| ring := ring (hub s); objs := objs (hub s); subscribers := subscribers (hub s);
       nextID := nextID (hub s); stopped := stopped (hub s); notifyCh := rest |}).
  assert (Hrun : run_notified marshal_event (hub s) = Some h) by (unfold run_notified; by rewrite Hno).
  pose proof (quiet_run _ _ (si_hub _ Hs) (si_queues _ Hs) Hrun) as Hquiet.
  pose proof (quiet_server _ _ Hs Hquiet) as Hs1.
  destruct (fanout_sub marshal_event k {| ring := ring (hub s); objs := objs (hub s);
    subscribers := subscribers (hub s); nextID := nextID (hub s); stopped := stopped (hub s);
    notifyCh := rest |} n l id sub) as (sub1 & Hsub1 & _ & _ & Hch); try done.
  { pose proof (si_hub _ Hs) as Hh. pose proof (hub_notify _ Hh) as Hnn. rewrite Hno in Hnn. simpl in Hnn.
    apply (set_notify_inv rest) in Hh; [exact Hh|lia]. }
  rewrite Hq in Hch. cbn [app] in Hch. rewrite lastn_all in Hch by done. fold due in Hch.
  destruct (si_owned _ Hs _ Hin) as (c0 & Hc0 & Hlive). rewrite Hc in Hc0. injection Hc0 as <-.
  destruct (drain_queue due id {| hub := h; conns := conns s |} c sub1 Hs1 Hc Hlive Hsub1 Hch)
    as (s' & ps & Hd & Hs' & Hps & Hc' & _).
  exists h, s', (say (log_frames ps) c), ps. do 3 (split; [done|]). split.
  - eapply list.Forall2_impl; [exact Hps|]. by intros ? ? [? ?].
  - destruct (si_out _ Hs _ _ Hc) as (evs & Ho & Hok). cbn [out say]. unfold log_frames. rewrite Ho.
    assert (Hok' : Forall frame_ok (map (pair "log") ps)).
    { clear -Hps. induction Hps as [|? ? ? ? [_ Hu] _ IH]; constructor; [|done]. done. }
    rewrite <- frames_app, !sse_parse_frames by (try apply Forall_app; done).
    cbn [fst]. by rewrite map_app, map_map.
Qed.

(** After the shutdown every stream ends: a handler whose client is still
    there delivers what is left in its channel and then returns. *)
Theorem stop_ends_streams r s h id c :
  star (server_step marshal_event marshal_map decode_event) (start r) s ->
  Stop (hub s) = (Ok tt, h) -> conns s !! id = Some c -> live c = true ->
  exists n s' c', drain n id {| hub := h; conns := conns s |} = Some s' /\
    conns s' !! id = Some c' /\ live c' = false.
Proof.
  intros Hs%reachable_server Hst Hc Hl.
  pose proof (quiet_stop _ _ (si_hub _ Hs) (si_queues _ Hs) Hst) as Hquiet.
  pose proof (quiet_server _ _ Hs Hquiet) as Hs1.
  destruct (si_known _ Hs1 _ _ Hc) as [sub Hsub]. simpl in Hsub.
  assert (Hcl : closed sub = true).
  { eapply hub_unregistered; [apply (q_inv _ _ Hquiet)|exact Hsub|].
    unfold Stop in Hst. case_match; [done|]. injection Hst as <-. simpl. set_solver. }
  destruct (drain_queue (ch sub) id {| hub := h; conns := conns s |} c sub Hs1 Hc Hl Hsub eq_refl)
    as (s' & ps & Hd & Hs' & _ & Hc' & sub' & Hsub' & Hq' & Hcl').
  assert (Hend : turn_receive decode_event None id s' = Some (leave id s')).
  { unfold turn_receive. rewrite Hc', Hsub'. cbn [mbind option_bind say live]. by rewrite Hl, Hq', Hcl', Hcl. }
  exists (length (ch sub) + 1), (leave id s'). eexists. split; [|split; [simpl; by rewrite lookup_alter_eq, Hc'|done]].
  revert Hd. generalize (length (ch sub)) {| hub := h; conns := conns s |}. clear -Hend.
  intros n. induction n as [|n IH]; intros t; cbn [drain Nat.add].
  - intros [= ->]. by rewrite Hend.
  - destruct (turn_receive decode_event None id t); [apply IH|done].
Qed.
End Invariant.

(** ** Theorems: the filters *)

(** A subscription made from the query parameters passes a record exactly
    when, for each of the three parameters, no word is given or the record's
    value is one of the words, blanks around them removed and in lower case. *)
Theorem filter_of_query req cap q cl rec :
  Matches {| ch := q; ch_cap := cap; filters := filter_of req; closed := cl |} rec = true <->
  (filter_words (r_level req) = [] \/ Level rec ∈ filter_words (r_level req)) /\
  (filter_words (r_component req) = [] \/ Component rec ∈ filter_words (r_component req)) /\
  (filter_words (r_source req) = [] \/ Source rec ∈ filter_words (r_source req)).
Proof.
  assert (H : forall s k, filtered_out (parseFilterSet s) k = false <-> filter_words s = [] \/ k ∈ filter_words s).
  { intros s k. rewrite <- not_true_iff_false, filtered_out_words.
    destruct (decide (filter_words s = [])), (decide (k ∈ filter_words s)); tauto. }
  rewrite <- !H. unfold Matches. cbn [filters filter_of Levels Components Sources].
  repeat case_match; naive_solver.
Qed.

(** A component whose name has a capital letter passes no component
    filter: the words are lowered, the record's name is compared as it is. *)
Theorem capitals_never_pass req cap q cl rec :
  filter_words (r_component req) <> [] -> ToLower (Component rec) <> Component rec ->
  Matches {| ch := q; ch_cap := cap; filters := filter_of req; closed := cl |} rec = false.
Proof.
  intros Hne Hup. assert (Hf : filtered_out (parseFilterSet (r_component req)) (Component rec) = true).
  { apply filtered_out_words. split; [done|]. unfold filter_words.
    intros (p & Hp & _)%list_elem_of_fmap. apply Hup. by rewrite Hp, ToLower_idem. }
  unfold Matches. cbn [filters filter_of Levels Components Sources]. rewrite Hf. by case_match.
Qed.

(** ** Theorems: the export *)

(** C31: The CSV file reads back, by RFC 4180, as the header and one row per
    record, whatever the messages hold: commas, quotes, line breaks.  The
    other texts are written as they are and must not need quoting. *)
Theorem csv_reads_back recs : Forall (fun rec => plain_labels rec = true) recs ->
  csv_parse (csv_file recs) Plain EmptyString [] =
  ["ts"; "level"; "component"; "source"; "msg"; "seq"] :: map csv_row recs.
Proof.
  intros Hr. unfold csv_file.
  assert (Hh : forall s, csv_parse (csv_header +:+ s) Plain EmptyString [] =
    ["ts"; "level"; "component"; "source"; "msg"; "seq"] :: csv_parse s Plain EmptyString []) by done.
  rewrite Hh. f_equal. induction Hr as [|rec recs Hrec _ IH]; [done|].
  cbn [foldr map]. by rewrite csv_parse_line, IH.
Qed.

Section ExportProofs.
Context (marshal : LogRecord -> option string)
        (comp_step : ExportFormat -> list string -> string -> string)
        (comp_end : ExportFormat -> list string -> string) (tmp_dir : string).

Definition raw (f : ExportFormat) : Prop := f = ExportJSONL \/ f = ExportCSV.

Definition texts (ps : list string) : string := foldr String.append EmptyString ps.

Lemma AppendTo_inv path data w w' : AppendTo path data w = (Ok tt, w') ->
  files w' !! path = Some (default EmptyString (files w !! path) +:+ data).
Proof.
  unfold AppendTo, syscall. destruct (next_outcome w); intros [= <-]. simpl.
  unfold append_data. by rewrite lookup_insert_eq.
Qed.

Lemma write_pieces_inv path what f ps : raw f -> forall prev count n old w w',
  files w !! path = Some old ->
  write_pieces comp_step path what f prev ps count w = (Ok n, w') ->
  files w' !! path = Some (old +:+ texts ps) /\ n = count + length ps.
Proof.
  intros Hf. induction ps as [|p ps IH]; intros prev count n old w w' Hold; cbn [write_pieces].
  - intros [= <- <-]. cbn. rewrite sapp_nil_r. split; [done|lia].
  - intros H. apply bind_ok_inv in H as ([] & w1 & H1 & H2). apply wrap_ok_inv in H1.
    assert (H1' : AppendTo path p w = (Ok tt, w1)) by (destruct Hf; subst f; exact H1).
    apply AppendTo_inv in H1'. rewrite Hold in H1'. cbn in H1'.
    destruct (IH _ _ _ _ _ _ H1' H2) as [-> ->]. cbn [texts foldr length]. rewrite sapp_assoc.
    split; [done|lia].
Qed.

(** Running on from where [w] is, without touching the file. *)
Lemma keeps_files_run {A} path (m : eff World A) w : keeps path m -> files (snd (m w)) !! path = files w !! path.
Proof. intros Hk. apply Hk. Qed.

Lemma keeps_file_size path p : keeps path (file_size p).
Proof. intros w. split; [done|]. eexists [_]. split; [done|]. by repeat constructor. Qed.

(** An export that reports success to a plain file has written it whole:
    the report names the file, which holds one line per record selected, in
    the ring's order, and the number of lines is the number of records
    reported. *)
Theorem jsonl_export_whole r opts w res w' :
  Format opts = ExportJSONL ->
  ExportRing marshal comp_step comp_end tmp_dir r opts w = (Ok res, w') ->
  let lines := pieces marshal ExportJSONL (selected (Snapshot r) opts) in
  files w' !! EPath res = Some (texts lines) /\ ERecords res = length lines.
Proof.
  intros Hf H lines. unfold ExportRing in H. rewrite Hf in H.
  apply bind_ok_inv in H as (path & w1 & H1 & H). apply wrap_ok_inv in H1.
  assert (Hnew : files w1 !! path = Some EmptyString).
  { unfold CreateTemp in H1. cbv zeta in H1. destruct (next_outcome w); [discriminate H1|].
    case_match; [discriminate H1|]. injection H1 as <- <-. simpl. by rewrite lookup_insert_eq. }
  apply bind_ok_inv in H as (c & w2 & H2 & H). unfold try in H2.
  destruct (writeRecords _ _ _ _ _ w1) as [[count|e|p] w2'] eqn:Hw; simplify_eq; cbn beta iota in H.
  - assert (Hraw : raw ExportJSONL) by (left; done).
    destruct (write_pieces_inv _ _ _ _ Hraw _ _ _ _ _ _ Hnew Hw) as [Hfile Hcount].
    apply bind_ok_inv in H as ([] & w3 & H3 & H). injection H3 as <-.
    apply bind_ok_inv in H as (u & w4 & H4 & H).
    pose proof (keeps_files_run path (try (CloseFile path)) w2) as Hclose. rewrite H4 in Hclose.
    apply bind_ok_inv in H as (size & w5 & H5 & H).
    pose proof (keeps_files_run path (file_size path) w4 (keeps_file_size _ _)) as Hsize. rewrite H5 in Hsize.
    injection H as <- <-. cbn [EPath ERecords snd] in *. split; [|exact Hcount].
    rewrite Hsize, Hclose, Hfile by auto with fs. done.
  - apply bind_ok_inv in H as (u & w3 & H3 & H). done.
Qed.
End ExportProofs.

(** A compressor that keeps everything until it is closed. *)
Definition hold_back (f : ExportFormat) (prev : list string) (p : string) : string := EmptyString.
Definition at_once (f : ExportFormat) (ps : list string) : string := texts ps.

Definition one_record : Ring := snd (Write (sample "a") (NewRing 4)).
Definition export_options (f : ExportFormat) : ExportOptions :=
  {| Format := f; StartTime := 0; EndTime := 0; OLevel := EmptyString; OComponent := EmptyString;
     OSource := EmptyString; Limit := 0 |}.

(** An archive that could not be written is reported as an export.  The
    disk fills up while the compressor is closed; the error is dropped, and
    the report counts the records although the file has none of them. *)
Theorem lost_archive_is_reported :
  let full := {| f_err := "no space left on device"; f_written := 0 |} in
  let w := {| files := ∅; outcomes := [None; Some full]; draws := ["1"]; disks := [] |} in
  let '(res, w') := ExportRing (fun rec => Some (Msg rec)) hold_back at_once "/tmp" one_record
                      (export_options ExportGZIP) w in
  res = Ok {| EPath := "/tmp/unet-export-1.gz"; ERecords := 1; ESize := 0 |} /\
  files w' !! "/tmp/unet-export-1.gz" = Some EmptyString.
Proof. vm_compute. done. Qed.

(** ** Witnesses *)

(** A viewer of the encodings of one hub. *)
Definition shown (rec : LogRecord) : option string := Some (Itoa (Seq rec)).
Definition reread (data : string) : option (option string * string) := Some (Some "log", data).

Definition viewer_request : request :=
  {| r_Method := "GET"; r_Accept := "text/event-stream"; r_LastEventID := EmptyString;
     r_level := EmptyString; r_component := EmptyString; r_source := EmptyString; r_flusher := true |}.

Lemma shown_reread : forall data, encodes shown shown data ->
  exists payload, reread data = Some (Some "log", payload) /\ unbroken payload = true.
Proof.
  intros data (rec & [[= <-]|[= <-]]); eexists; (split; [reflexivity|apply Itoa_unbroken]).
Qed.

(** One viewer, and then one record. *)
Definition served : server :=
  {| hub := write_notify (sample "a") (snd (Subscribe (filter_of viewer_request) (NewHub (NewRing 4))));
     conns := {[1%Z := {| viewer := LogView; out := connected_event 1 4; live := true |}]} |}.

Lemma served_reachable : star (server_step shown shown reread) (start (NewRing 4)) served.
Proof.
  eapply star_snoc; [eapply star_snoc; [apply star_nil|]|].
  - apply (sv_connect shown shown reread viewer_request); [reflexivity|]. vm_compute. reflexivity.
  - exact (sv_write shown shown reread (sample "a") _).
Qed.

Lemma no_subscriber_leaks_witness :
  exists c, conns served !! 1%Z = Some c /\ live c = true.
Proof.
  apply (no_subscriber_leaks shown shown reread shown_reread (NewRing 4) served served_reachable).
  vm_compute. reflexivity.
Defined.

Lemma reconnection_replays_nothing_witness :
  forall k h' h, ServeHTTP_start shown viewer_request h = (inr k, h') ->
  h' = snd (Subscribe (filter_of viewer_request) h).
Proof.
  refine (proj2 (reconnection_replays_nothing shown shown reread shown_reread (NewRing 4) served 1
    {| viewer := LogView; out := connected_event 1 4; live := true |} viewer_request served_reachable _ _)).
  - reflexivity.
  - vm_compute. reflexivity.
Defined.

Lemma logged_records_reach_browser_witness :
  exists h s' c' payloads,
    run_notified shown (hub served) = Some h /\
    drain reread 1 1 {| hub := h; conns := conns served |} = Some s' /\
    conns s' !! 1%Z = Some c' /\
    Forall2 (fun data p => reread data = Some (Some "log", p)) ["1"] payloads /\
    fst (sse_parse (out c')) =
      fst (sse_parse (connected_event 1 4)) ++ map (fun p => message_of ("log", p)) payloads.
Proof.
  apply (logged_records_reach_browser shown shown reread shown_reread (NewRing 4) served 0 4 [sample "a"] [] 1
    {| viewer := LogView; out := connected_event 1 4; live := true |}
    (NewSubscriber 1000 (filter_of viewer_request)) served_reachable);
    try reflexivity; vm_compute; lia.
Defined.

Lemma stop_ends_streams_witness :
  let h := snd (Stop (hub served)) in
  exists n s' c', drain reread n 1 {| hub := h; conns := conns served |} = Some s' /\
    conns s' !! 1%Z = Some c' /\ live c' = false.
Proof.
  apply (stop_ends_streams shown shown reread shown_reread (NewRing 4) served _ 1
    {| viewer := LogView; out := connected_event 1 4; live := true |} served_reachable); reflexivity.
Defined.

Lemma capitals_never_pass_witness :
  let req := {| r_Method := "GET"; r_Accept := EmptyString; r_LastEventID := EmptyString;
    r_level := EmptyString; r_component := "Proxy"; r_source := EmptyString; r_flusher := true |} in
  let rec := {| TS := EmptyString; Level := "info"; Component := "Proxy"; Source := "daemon";
    Msg := "m"; Seq := 1; Fields := Fields (sample "m") |} in
  Matches {| ch := []; ch_cap := 1; filters := filter_of req; closed := false |} rec = false.
Proof.
  intros req rec. apply (capitals_never_pass req 1 [] false rec); vm_compute; discriminate.
Defined.

Lemma csv_reads_back_witness :
  let rec := {| TS := "t"; Level := "info"; Component := "proxy"; Source := "daemon";
    Msg := "a, " +:+ dquote +:+ nls; Seq := 1; Fields := Fields (sample "m") |} in
  csv_parse (csv_file [rec]) Plain EmptyString [] =
  ["ts"; "level"; "component"; "source"; "msg"; "seq"] :: [csv_row rec].
Proof. apply csv_reads_back. repeat constructor. Defined.

Lemma jsonl_export_whole_witness :
  let w := {| files := ∅; outcomes := []; draws := ["1"]; disks := [] |} in
  let run := ExportRing (fun rec => Some (Msg rec)) hold_back at_once "/tmp" one_record
               (export_options ExportJSONL) w in
  files (snd run) !! "/tmp/unet-export-1.jsonl" = Some ("a" +:+ nls).
Proof.
  apply (jsonl_export_whole (fun rec => Some (Msg rec)) hold_back at_once "/tmp" one_record
    (export_options ExportJSONL) {| files := ∅; outcomes := []; draws := ["1"]; disks := [] |}
    {| EPath := "/tmp/unet-export-1.jsonl"; ERecords := 1; ESize := 2 |}); vm_compute; reflexivity.
Defined.
