(* ===== verification/LocalAPI.v ===== *)
(** * daemon/server.go and the smaller handlers of the local API

    The table of routes and who serves a request (server.go, static.go); the
    ring of lifecycle events (api_events.go); the hosts of ~/.ssh/config
    (api_ssh.go); tunnel, DNS, autostart and the exit marker (api_tunnel.go,
    api_dns.go, api_autostart.go, api_status.go).  The clock, the privileges
    and the platform's autostart are parameters; a request body is [None] when
    it does not decode. *)

From S2P Require Import Prelude GoLib FS Config ServerConfig AWG Peer Tunnel Ports ProvSSH AuditLog.

(** ** api_events.go *)

Record LifecycleEvent := {
  ev_ID : string; ev_Type : string; ev_Timestamp : string; ev_Message : string; ev_Details : string
}.
Record EventRing := { events : list LifecycleEvent; max : Z; ev_seq : Z }.

(** The digits of a positive number, from the last one; nothing of a negative
    one.  A 64-bit integer has at most 19. *)
Fixpoint itoa3_loop (fuel : nat) (n : Z) (s : string) : string :=
  match fuel with
  | 0 => s
  | S f => if (0 <? n)%Z
           then itoa3_loop f (n / 10) (String (ascii_of_N (48 + Z.to_N (n mod 10))) s)
           else s
  end.
Definition itoa3 (n : Z) : string := if decide (n = 0)%Z then "0" else itoa3_loop 19 n EmptyString.

(** Any byte that is no digit gives 0 and no error. *)
Fixpoint atoi2_loop (s : string) (n : Z) : Z :=
  match s with
  | EmptyString => n
  | String c s' => if is_digit c
                   then atoi2_loop s' (wrap64 (wrap64 (n * 10) + Z.of_N (N_of_ascii c - 48)))
                   else 0%Z
  end.
Definition atoi2 (s : string) : Z := atoi2_loop s 0.

Definition NewEventRing (max : Z) : EventRing := {| events := []; max := max; ev_seq := 0 |}.

Definition Add (eventType message details now : string) (r : EventRing) : result (LifecycleEvent * EventRing) :=
  let n := wrap64 (ev_seq r + 1) in
  let evt := {| ev_ID := itoa3 n; ev_Type := eventType; ev_Timestamp := now;
                ev_Message := message; ev_Details := details |} in
  let put evs := Ok (evt, {| events := evs ++ [evt]; max := max r; ev_seq := n |}) in
  if decide (max r <= Z.of_nat (length (events r)))%Z then
    match events r with
    | [] => Panic "index out of range [0] with length 0"
    | _ :: evs => put evs
    end
  else put (events r).

(** The index after the event with this identifier, 0 if there is none. *)
Fixpoint after_cursor (after : string) (evs : list LifecycleEvent) (i : nat) : nat :=
  match evs with
  | [] => 0
  | e :: evs' => if decide (ev_ID e = after) then S i else after_cursor after evs' (S i)
  end.

Definition page_size (limit : Z) : Z := if decide (limit <= 0 \/ 1000 < limit)%Z then 100%Z else limit.

Definition List (after : string) (limit : Z) (r : EventRing) : list LifecycleEvent :=
  let start := if decide (after <> EmptyString) then after_cursor after (events r) 0 else 0 in
  take (Z.to_nat (page_size limit)) (drop start (events r)).

Definition handleEvents (after limit : string) (r : EventRing) : list LifecycleEvent :=
  let limit := if decide (limit <> EmptyString /\ 0 < atoi2 limit)%Z then atoi2 limit else 100%Z in
  List after limit r.

(** ** api_ssh.go *)

Record sshHostEntry := {
  h_Host : string; h_HostName : string; h_User : string; h_Port : Z; h_IdentityFile : string
}.
Definition new_host (h : string) : sshHostEntry :=
  {| h_Host := h; h_HostName := EmptyString; h_User := EmptyString; h_Port := 0; h_IdentityFile := EmptyString |}.

(** A directive of the current block. *)
Definition host_directive (home key value : string) (e : sshHostEntry) : sshHostEntry :=
  if decide (key = "hostname") then
    {| h_Host := h_Host e; h_HostName := value; h_User := h_User e; h_Port := h_Port e; h_IdentityFile := h_IdentityFile e |}
  else if decide (key = "user") then
    {| h_Host := h_Host e; h_HostName := h_HostName e; h_User := value; h_Port := h_Port e; h_IdentityFile := h_IdentityFile e |}
  else if decide (key = "port") then
    {| h_Host := h_Host e; h_HostName := h_HostName e; h_User := h_User e; h_Port := port_digits value 0;
       h_IdentityFile := h_IdentityFile e |}
  else if decide (key = "identityfile") then
    {| h_Host := h_Host e; h_HostName := h_HostName e; h_User := h_User e; h_Port := h_Port e;
       h_IdentityFile := if HasPrefix value "~/" then JoinPath home (sdrop 2 value) else value |}
  else e.

Definition is_pattern (h : string) : bool := Contains h "*" || Contains h "?".

Definition flush (current : option sshHostEntry) : list sshHostEntry :=
  match current with Some e => [e] | None => [] end.

(** The entries in their order; [current] is the open block, if it is listed. *)
Fixpoint parse_hosts (home : string) (ls : list string) (current : option sshHostEntry) : list sshHostEntry :=
  match ls with
  | [] => flush current
  | l :: ls' =>
      match parse_directive l with
      | None => parse_hosts home ls' current
      | Some (key, value) =>
          if decide (key = "host") then
            flush current ++ parse_hosts home ls' (if is_pattern value then None else Some (new_host value))
          else parse_hosts home ls' (host_directive home key value <$> current)
      end
  end.

(** The lines before the first that does not fit the scanner's buffer. *)
Definition fits_scanner (l : string) : bool := (Z.of_nat (slen l) <? MaxScanTokenSize)%Z.

(** [content] is the file, when it could be opened and read. *)
Definition parseSSHConfig (home content : string) : list sshHostEntry * option string :=
  (parse_hosts home (scan_lines content) None,
   if forallb fits_scanner (file_lines content) then None else Some "bufio.Scanner: token too long").

(** What opening the file gives. *)
Inductive opened := NoFile | OpenError (e : string) | File (content : string).

(** The home directory, if it is known.  [None] is the nil slice of a file
    without hosts, which is printed as [null]. *)
Definition HandleSSHHosts (home : option string) (f : opened) : Z + option (list sshHostEntry) :=
  match home with
  | None => inl 500%Z
  | Some home =>
      match f with
      | NoFile => inr (Some [])
      | OpenError _ => inl 500%Z
      | File content => match parseSSHConfig home content with
                        | ([], None) => inr None
                        | (entries, None) => inr (Some entries)
                        | (_, Some _) => inl 500%Z
                        end
      end
  end.

(** ** api_autostart.go *)

Class AutoStart (A : Type) := {
  Enable : eff A unit;
  Disable : eff A unit;
  IsEnabled : A -> bool
}.

Definition autostart_body (enabled : bool) : response := {| code := 200; body := JObj [("enabled", JBool enabled)] |}.

Definition handleAutostart `{AutoStart A} (req : option bool) (a : A) : response * A :=
  match req with
  | None => (writeError 400 "bad_request" "Invalid JSON body", a)
  | Some enabled =>
      match (if enabled then Enable else Disable) a with
      | (Err e, a') => (writeError 500 "autostart_error" e, a')
      | (_, a') => (autostart_body (IsEnabled a'), a')
      end
  end.
Definition handleAutostartGet `{AutoStart A} (a : A) : response := autostart_body (IsEnabled a).

(** ** api_tunnel.go *)

Section TunnelHandlers.
Context {C E : Type} `{ConfigManager C} `{SSHExecutor E} `{LocalHost E}.
Context (awg : AWGCli).

(** The answer, and whether a goroutine that calls [Connect] was started. *)
Definition handleConnect (isPrivileged : bool) (s : Tunnel.Manager (C := C) (E := E)) : response * bool :=
  if negb isPrivileged then
    (writeError 503 "not_privileged" "Administrator/root privileges required to manage network interfaces", false)
  else if decide (Tunnel.Status s = "connected" \/ Tunnel.Status s = "connecting") then
    (writeError 409 "already_connected" "Tunnel is already in connected state", false)
  else ({| code := 202; body := JObj [("status", JStr "connecting")] |}, true).

Definition handleDisconnect : eff (Tunnel.Manager (C := C) (E := E)) response := fun s =>
  match Disconnect awg s with
  | (Ok _, s') => (Ok {| code := 200; body := JObj [("status", JStr "disconnected")] |}, s')
  | (Err _, s') => (Ok (writeError 500 "disconnect_error" "Failed to disconnect tunnel"), s')
  | (Panic p, s') => (Panic p, s')
  end.

Definition handleTunnelStatus (s : Tunnel.Manager (C := C) (E := E)) : response :=
  let t := Config.Tunnel (cfg_get (Tunnel.cfgMgr s)) in
  {| code := 200;
     body := JObj ([("status", JStr (Tunnel.Status s))] ++ optional "localIp" (LocalIP t) ++
                   optional "serverIp" (ServerIP t) ++ optional "serverEndpoint" (ServerEndpoint t) ++
                   optional "connectedAt" (ConnectedAt t)) |}.
End TunnelHandlers.

(** ** api_dns.go *)

Record dnsConfigureRequest := { q_Mode : string; q_CloudflareToken : string; q_Zone : string }.

Definition set_dns (req : dnsConfigureRequest) (c : RootConfig) : RootConfig :=
  {| VPS := VPS c; Tunnel := Config.Tunnel c; CaddyAPI := CaddyAPI c; ExposedPorts := ExposedPorts c;
     DNS := {| Provider := q_Mode req;
               Token := if decide (q_Mode req = "cloudflare") then q_CloudflareToken req else Token (DNS c);
               Zone := q_Zone req |};
     Daemon := Daemon c; RemoteAPI := RemoteAPI c; ServerMirror := ServerMirror c; UIToken := UIToken c |}.

Definition handleConfigure `{ConfigManager C} (b : option dnsConfigureRequest) (c : C) : response * C :=
  match b with
  | None => (writeError 400 "bad_request" "invalid JSON body", c)
  | Some req =>
      if decide (q_Mode req <> "cloudflare" /\ q_Mode req <> "manual") then
        (writeError 400 "bad_request" "mode must be 'cloudflare' or 'manual'", c)
      else if decide (q_Mode req = "cloudflare" /\ q_CloudflareToken req = EmptyString) then
        (writeError 400 "bad_request" "cloudflare token is required for cloudflare mode", c)
      else match cfg_update (set_dns req) c with
           | (Err _, c') => (writeError 500 "internal_error" "failed to save DNS configuration", c')
           | (_, c') => ({| code := 200; body := JObj [("status", JStr "configured"); ("mode", JStr (q_Mode req))] |}, c')
           end
  end.

(** ** api_status.go: the exit marker *)

(** [config.ConfigDir], with the file's name joined. *)
Definition GracefulExitPath (dir : result string) : result string :=
  d ← dir; Ok (JoinPath d ".graceful_exit").

Definition WriteGracefulExit (dir : result string) (now : string) : eff World unit :=
  match GracefulExitPath dir with
  | Ok path => _ ← try (WriteTo path now); mret tt
  | _ => mret tt
  end.
Definition CheckGracefulExit (dir : result string) : eff World bool :=
  match GracefulExitPath dir with
  | Ok path =>
      r ← ReadFile path;
      match r with
      | Contents data => _ ← try (Remove path); mret (bool_decide (0 < slen data))
      | _ => mret false
      end
  | _ => mret false
  end.
Definition DeleteGracefulExit (dir : result string) : eff World unit :=
  match GracefulExitPath dir with
  | Ok path => _ ← try (Remove path); mret tt
  | _ => mret tt
  end.

(** [StatusHandler] *)
Definition handleStatus (tunnelStatusFn : option string) (cfg : RootConfig) : response :=
  {| code := 200;
     body := JObj [("tunnel", JObj [("status", JStr (default EmptyString tunnelStatusFn))]);
                   ("vps", JObj [("host", JStr (Host (VPS cfg)))]); ("ports", JArr [])] |}.

(** ** server.go: the routes *)

(** [http.ServeMux]: a pattern is a method and segments, of which a segment in
    braces stands for any one. *)
Record pattern := { p_method : string; p_segs : list string }.

Definition parse_pattern (s : string) : pattern :=
  match Split s " " with
  | [m; p] => {| p_method := m; p_segs := tail (Split p "/") |}
  | _ => {| p_method := EmptyString; p_segs := tail (Split s "/") |}
  end.
Definition wildcard (seg : string) : bool := HasPrefix seg "{".

Fixpoint segs_match (ps ss : list string) : bool :=
  match ps, ss with
  | [], [] => true
  | p :: ps', s :: ss' =>
      (if wildcard p then bool_decide (s <> EmptyString) else bool_decide (p = s)) && segs_match ps' ss'
  | _, _ => false
  end.
(** A pattern for GET also takes HEAD. *)
Definition method_match (m r : string) : bool :=
  bool_decide (m = r) || (bool_decide (m = "GET") && bool_decide (r = "HEAD")).

Definition matches (m : string) (path : string) (p : pattern) : bool :=
  method_match (p_method p) m && segs_match (p_segs p) (tail (Split path "/")).

Inductive served := ByHandler (p : pattern) | MethodNotAllowed | NotFound | Static.

(** [apiMux.ServeHTTP], of a path in the form the mux does not redirect. *)
Definition mux_serve (ps : list pattern) (m path : string) : served :=
  match filter (fun p => matches m path p = true) ps with
  | p :: _ => ByHandler p
  | [] => if existsb (fun p => segs_match (p_segs p) (tail (Split path "/"))) ps
          then MethodNotAllowed else NotFound
  end.

(** [rootHandler] *)
Definition root_serve (ps : list pattern) (m path : string) : served :=
  if HasPrefix path "/api/" then mux_serve ps m path else Static.

(** Two patterns of which neither is more specific, so that registering both
    panics; for patterns of equal length, those that some request matches. *)
Fixpoint segs_overlap (ps qs : list string) : bool :=
  match ps, qs with
  | [], [] => true
  | p :: ps', q :: qs' => (wildcard p || wildcard q || bool_decide (p = q)) && segs_overlap ps' qs'
  | _, _ => false
  end.
Definition overlap (p q : pattern) : bool :=
  (method_match (p_method p) (p_method q) || method_match (p_method q) (p_method p)) &&
  segs_overlap (p_segs p) (p_segs q).

(** The patterns of the handlers, in [RegisterRoutes]. *)
Definition vps_patterns := map parse_pattern ["POST /api/vps/configure"; "GET /api/vps/status"; "GET /api/status"].
Definition tunnel_patterns := map parse_pattern
  ["POST /api/tunnel/connect"; "POST /api/tunnel/disconnect"; "GET /api/tunnel/status"].
Definition dns_patterns := map parse_pattern ["POST /api/dns/configure"].
Definition ports_patterns := map parse_pattern
  ["POST /api/ports"; "DELETE /api/ports/{id}"; "GET /api/ports"; "GET /api/ports/{id}"].
Definition events_patterns := map parse_pattern ["GET /api/v1/events"].
Definition status_patterns := map parse_pattern ["GET /api/status"].
Definition autostart_patterns := map parse_pattern
  ["POST /api/v1/settings/autostart"; "GET /api/v1/settings/autostart"].
Definition wizard_patterns := map parse_pattern
  ["POST /v1/wizard/sessions"; "GET /v1/wizard/sessions/{id}"; "DELETE /v1/wizard/sessions/{id}";
   "POST /v1/wizard/sessions/{id}/steps/{step}"; "POST /v1/wizard/sessions/{id}/preflight";
   "POST /v1/wizard/sessions/{id}/commit"; "GET /v1/wizard/sessions/{id}/events"].
Definition qr_patterns := map parse_pattern ["POST /v1/peers/{peerId}/qr"].
Definition invite_patterns := map parse_pattern
  ["POST /v1/peers/{peerId}/invite"; "GET /invite/{peerId}"; "GET /invite/{peerId}/download"].
Definition expose_patterns := map parse_pattern ["POST /v1/routes/expose"].

(** What [main] registers, and what [RegisterWizardRoutes] would add. *)
Definition main_patterns : list pattern :=
  vps_patterns ++ tunnel_patterns ++ dns_patterns ++ ports_patterns ++ [parse_pattern "GET /api/ssh/hosts"].
Definition RegisterWizardRoutes : list pattern :=
  wizard_patterns ++ qr_patterns ++ invite_patterns ++ expose_patterns.

Definition NewServer (port : Z) : Z := if decide (port <= 0)%Z then 8080%Z else port.

(** ** static.go *)

(** The segments of [path.Clean]. *)
Definition clean_segs (p : string) : list string :=
  rev (foldl (clean_step (HasPrefix p "/")) [] (Split p "/")).

Inductive page := Asset (name : string) | Index.

Section Static.
(** Whether a name of the embedded file system is a regular file. *)
Context (regular : string -> bool).

Definition fileExists (filePath : string) : bool :=
  let name := TrimPrefix filePath "/" in
  if decide (name = EmptyString) then false else regular name.

(** A file that exists, with its lasting cache header, or the index page. *)
Definition static_ServeHTTP (path : string) : page :=
  let cleanPath := Clean path in
  if decide (cleanPath <> "/" /\ cleanPath <> "/index.html") then
    if fileExists cleanPath then Asset (TrimPrefix cleanPath "/") else Index
  else Index.
End Static.

(** ** Lemmas: events *)

Lemma atoi2_loop_itoa3 f : forall n s, (0 <= n <= int64_max)%Z -> (n < 10 ^ Z.of_nat f)%Z ->
  atoi2_loop (itoa3_loop f n s) 0 = atoi2_loop s n.
Proof.
  induction f as [|f IH]; intros n s Hn Hf; cbn [itoa3_loop].
  - change (10 ^ Z.of_nat 0)%Z with 1%Z in Hf. by replace n with 0%Z by lia.
  - destruct (Z.ltb_spec 0 n); [|by replace n with 0%Z by lia].
    pose proof (Z.div_mod n 10 ltac:(lia)) as Hd. pose proof (Z.mod_pos_bound n 10 ltac:(lia)) as Hm.
    rewrite IH; [|unfold int64_max in *; lia|rewrite Nat2Z.inj_succ, Z.pow_succ_r in Hf by lia; lia].
    set (d := Z.to_N (n mod 10)). cbn [atoi2_loop].
    assert (Hc : is_digit (ascii_of_N (48 + d)) = true /\ Z.of_N (N_of_ascii (ascii_of_N (48 + d)) - 48) = (n mod 10)%Z).
    { rewrite N_ascii_embedding by (unfold d; lia). unfold is_digit, in_range.
      rewrite N_ascii_embedding by (unfold d; lia). change (N_of_ascii "0") with 48%N. change (N_of_ascii "9") with 57%N.
      split; [|unfold d; lia]. apply andb_true_intro. rewrite !N.leb_le. unfold d. lia. }
    destruct Hc as [-> Hv]. rewrite Hv, !wrap64_id by (rewrite ?wrap64_id; unfold int64_min, int64_max in *; lia).
    f_equal. lia.
Qed.

Lemma itoa3_read_back n : (0 <= n <= int64_max)%Z -> atoi2 (itoa3 n) = n.
Proof.
  intros Hn. unfold itoa3. case_decide as H0; [by subst|]. unfold atoi2.
  rewrite atoi2_loop_itoa3; [done|done|]. unfold int64_max in Hn.
  change (10 ^ Z.of_nat 19)%Z with 10000000000000000000%Z. lia.
Qed.

(** What is added: a type, a message, details and the time. *)
Record event_args := { a_type : string; a_message : string; a_details : string; a_now : string }.

Definition numbered_event (n : Z) (a : event_args) : LifecycleEvent :=
  {| ev_ID := itoa3 n; ev_Type := a_type a; ev_Timestamp := a_now a; ev_Message := a_message a;
     ev_Details := a_details a |}.
Definition numbered_events (h : list event_args) : list LifecycleEvent :=
  imap (fun i a => numbered_event (Z.of_nat (S i)) a) h.

Fixpoint add_all (h : list event_args) (r : EventRing) : result EventRing :=
  match h with
  | [] => Ok r
  | a :: h' => '(_, r') ← Add (a_type a) (a_message a) (a_details a) (a_now a) r; add_all h' r'
  end.

Record ring_ok (m : nat) (h : list event_args) (r : EventRing) : Prop := {
  ro_events : events r = lastn m (numbered_events h);
  ro_max : max r = Z.of_nat m;
  ro_seq : ev_seq r = Z.of_nat (length h)
}.

Lemma numbered_events_snoc h a :
  numbered_events (h ++ [a]) = numbered_events h ++ [numbered_event (Z.of_nat (S (length h))) a].
Proof. unfold numbered_events. rewrite imap_app. cbn. by rewrite Nat.add_0_r. Qed.

Lemma lastn_snoc_full {A} m (l : list A) x : 0 < m -> m <= length (lastn m l) ->
  tail (lastn m l) ++ [x] = lastn m (l ++ [x]).
Proof.
  intros Hm Hl. rewrite lastn_length in Hl. unfold lastn. rewrite length_app. cbn.
  rewrite drop_app_le by lia. f_equal.
  replace (length l + 1 - m) with (S (length l - m)) by lia.
  destruct (drop (length l - m) l) as [|y t] eqn:E.
  - apply (f_equal length) in E. rewrite length_drop in E. cbn in E. lia.
  - rewrite <- Nat.add_1_r, <- drop_drop, E. done.
Qed.

Lemma lastn_snoc_room {A} m (l : list A) x : length (lastn m l) < m ->
  lastn m l ++ [x] = lastn m (l ++ [x]).
Proof.
  intros Hl. rewrite lastn_length in Hl. unfold lastn. rewrite length_app. cbn.
  replace (length l - m) with 0 by lia. replace (length l + 1 - m) with 0 by lia. done.
Qed.

Lemma Add_ok m h r a : 0 < m -> (Z.of_nat (S (length h)) <= int64_max)%Z -> ring_ok m h r ->
  exists r', Add (a_type a) (a_message a) (a_details a) (a_now a) r =
    Ok (numbered_event (Z.of_nat (S (length h))) a, r') /\ ring_ok m (h ++ [a]) r'.
Proof.
  intros Hm Hlen [He Hmax Hseq]. unfold Add.
  assert (Hw : wrap64 (ev_seq r + 1) = Z.of_nat (S (length h)))
    by (rewrite Hseq, wrap64_id; unfold int64_min, int64_max in *; lia).
  rewrite Hw, Hmax. set (evt := {| ev_ID := _ |}).
  assert (Hput : forall evs, evs ++ [evt] = lastn m (numbered_events (h ++ [a])) ->
    exists r', Ok (evt, {| events := evs ++ [evt]; max := Z.of_nat m; ev_seq := Z.of_nat (S (length h)) |}) =
      Ok (evt, r') /\ ring_ok m (h ++ [a]) r').
  { intros evs Hevs. eexists. split; [done|]. split; cbn; [done|done|]. rewrite length_app. cbn. lia. }
  rewrite He. case_decide as Hfull.
  - pose proof (lastn_snoc_full m (numbered_events h) evt Hm ltac:(lia)) as Hs.
    destruct (lastn m (numbered_events h)); [cbn in Hfull; lia|]. apply Hput.
    rewrite numbered_events_snoc. exact Hs.
  - apply Hput. rewrite numbered_events_snoc. apply lastn_snoc_room. lia.
Qed.

Lemma add_all_ok m l : 0 < m -> forall h r, ring_ok m h r -> (Z.of_nat (length h + length l) <= int64_max)%Z ->
  exists r', add_all l r = Ok r' /\ ring_ok m (h ++ l) r'.
Proof.
  intros Hm. induction l as [|a l IH]; intros h r Hr Hl; cbn [add_all length] in *.
  - exists r. by rewrite app_nil_r.
  - destruct (Add_ok m h r a Hm ltac:(lia) Hr) as (r' & -> & Hr'). cbn.
    destruct (IH _ _ Hr') as (r'' & Hadd & Hr''); [rewrite length_app; cbn; lia|].
    exists r''. by rewrite <- app_assoc in Hr''.
Qed.

Lemma length_numbered_events h : length (numbered_events h) = length h.
Proof. apply length_imap. Qed.

Lemma numbered_lookup h i e : numbered_events h !! i = Some e -> exists a, e = numbered_event (Z.of_nat (S i)) a.
Proof. unfold numbered_events. rewrite list_lookup_imap. intros [a [_ ->]]%fmap_Some. eauto. Qed.

Lemma numbered_event_ids h i j e e' : (Z.of_nat (length h) <= int64_max)%Z ->
  numbered_events h !! i = Some e -> numbered_events h !! j = Some e' -> ev_ID e = ev_ID e' -> i = j.
Proof.
  intros Hl Hi Hj. pose proof (lookup_lt_Some _ _ _ Hi) as Li. pose proof (lookup_lt_Some _ _ _ Hj) as Lj.
  unfold numbered_events in Li, Lj. rewrite length_imap in Li, Lj.
  destruct (numbered_lookup _ _ _ Hi) as [a ->], (numbered_lookup _ _ _ Hj) as [b ->]. cbn [ev_ID numbered_event].
  intros Hid. apply (f_equal atoi2) in Hid. rewrite !itoa3_read_back in Hid by lia. lia.
Qed.

Lemma after_cursor_at evs : forall i e k, evs !! i = Some e ->
  (forall j e', j < i -> evs !! j = Some e' -> ev_ID e' <> ev_ID e) ->
  after_cursor (ev_ID e) evs k = S (k + i).
Proof.
  induction evs as [|e0 evs IH]; intros i e k Hi Hne; [done|]. cbn [after_cursor].
  destruct i as [|i].
  - injection Hi as ->. rewrite decide_True by done. lia.
  - rewrite decide_False by (apply (Hne 0); [lia|done]). rewrite (IH i) by
      (done || intros j e' Hj; apply (Hne (S j)); lia). lia.
Qed.

Lemma ring_ids m h r i j e e' : ring_ok m h r -> (Z.of_nat (length h) <= int64_max)%Z ->
  events r !! i = Some e -> events r !! j = Some e' -> ev_ID e = ev_ID e' -> i = j.
Proof.
  intros [-> _ _] Hl Hi Hj Hid. unfold lastn in Hi, Hj. rewrite !lookup_drop in Hi, Hj.
  pose proof (numbered_event_ids h _ _ _ _ Hl Hi Hj Hid). lia.
Qed.

Lemma ring_id_nonempty m h r i e : ring_ok m h r -> (Z.of_nat (length h) <= int64_max)%Z ->
  events r !! i = Some e -> ev_ID e <> EmptyString.
Proof.
  intros [-> _ _] Hl Hi. unfold lastn in Hi. rewrite lookup_drop in Hi.
  pose proof (lookup_lt_Some _ _ _ Hi) as Li. rewrite length_numbered_events in Hi, Li.
  destruct (numbered_lookup _ _ _ Hi) as [a ->]. cbn. intros Hid. apply (f_equal atoi2) in Hid.
  rewrite itoa3_read_back in Hid by lia. cbn in Hid. lia.
Qed.

(** A cursor and where the page after it starts. *)
Definition cursor_at (r : EventRing) (after : string) (s : nat) : Prop :=
  (after = EmptyString /\ s = 0) \/ exists i e, events r !! i = Some e /\ after = ev_ID e /\ s = S i.

Lemma List_from m h r after s limit : ring_ok m h r -> (Z.of_nat (length h) <= int64_max)%Z ->
  cursor_at r after s -> List after limit r = take (Z.to_nat (page_size limit)) (drop s (events r)).
Proof.
  intros Hr Hl [[-> ->]|(i & e & Hi & -> & ->)]; unfold List; [done|].
  rewrite decide_True by (by eapply ring_id_nonempty).
  rewrite (after_cursor_at _ i); [done|done|]. intros j e' Hj He' Hid.
  pose proof (ring_ids m h r j i e' e Hr Hl He' Hi Hid). lia.
Qed.

Lemma page_size_pos limit : 0 < Z.to_nat (page_size limit).
Proof. unfold page_size. case_decide; lia. Qed.

(** A client that asks page after page, with the last identifier it saw. *)
Fixpoint read_pages (fuel : nat) (after : string) (limit : Z) (r : EventRing) : list LifecycleEvent :=
  match fuel with
  | 0 => []
  | S f => let page := List after limit r in
           match page !! pred (length page) with
           | None => []
           | Some e => page ++ read_pages f (ev_ID e) limit r
           end
  end.

Lemma read_pages_from m h r limit : ring_ok m h r -> (Z.of_nat (length h) <= int64_max)%Z ->
  forall fuel after s, cursor_at r after s -> length (events r) < fuel + s ->
  read_pages fuel after limit r = drop s (events r).
Proof.
  intros Hr Hl. induction fuel as [|f IH]; intros after s Hs Hf; cbn [read_pages].
  - by rewrite drop_ge by lia.
  - rewrite (List_from m h r after s) by done. set (k := Z.to_nat (page_size limit)).
    assert (Hk : 0 < k) by apply page_size_pos. set (rest := drop s (events r)).
    cbv zeta. rewrite length_take. set (n := k `min` length rest) in *.
    destruct (take k rest !! pred n) as [e|] eqn:E.
    + assert (Hn : 0 < n).
      { destruct n eqn:En; [|lia]. cbn in E. apply lookup_lt_Some in E. rewrite length_take in E. lia. }
      rewrite lookup_take_lt in E by lia. unfold rest in E. rewrite lookup_drop in E.
      rewrite (IH (ev_ID e) (S (s + pred n))); [|right; eauto|lia].
      replace (S (s + pred n)) with (s + n) by lia. rewrite <- drop_drop. fold rest.
      destruct (decide (k <= length rest)).
      * replace n with k by lia. apply take_drop.
      * replace n with (length rest) by lia. rewrite take_ge by lia. by rewrite drop_all, app_nil_r.
    + apply lookup_ge_None in E. rewrite length_take in E. destruct rest; [done|cbn in *; lia].
Qed.

(** ** Theorems: events *)

(** The ring holds the newest events, at most its capacity, each under the
    number it was added with; adding never panics. *)
Theorem event_ring_holds_newest m h : 0 < m -> (Z.of_nat (length h) <= int64_max)%Z ->
  exists r, add_all h (NewEventRing (Z.of_nat m)) = Ok r /\ events r = lastn m (numbered_events h).
Proof.
  intros Hm Hl. destruct (add_all_ok m h Hm [] (NewEventRing (Z.of_nat m))) as (r & Hr & Hok); [|done|].
  - by split.
  - exists r. split; [done|]. apply Hok.
Qed.

(** C26: a client that asks page after page, each time with the last identifier
    it saw and with any limit, reads every event of the ring once and in
    order: all of them without a cursor, those after its event with one. *)
Theorem pages_are_complete m h r limit : 0 < m -> (Z.of_nat (length h) <= int64_max)%Z ->
  add_all h (NewEventRing (Z.of_nat m)) = Ok r ->
  read_pages (S (length (events r))) EmptyString limit r = events r /\
  forall i e, events r !! i = Some e ->
    read_pages (S (length (events r))) (ev_ID e) limit r = drop (S i) (events r).
Proof.
  intros Hm Hl Hadd.
  destruct (add_all_ok m h Hm [] (NewEventRing (Z.of_nat m))) as (r' & Hr & Hok); [|done|].
  { by split. }
  rewrite Hadd in Hr. injection Hr as <-. cbn [app] in Hok. split.
  - rewrite (read_pages_from m h r limit Hok Hl _ _ 0); [done|by left|lia].
  - intros i e Hi. apply (read_pages_from m h r limit Hok Hl); [right; eauto|lia].
Qed.

(** A limit is read as the number it was printed from, but past 1000 it is
    the default of 100, not the largest page. *)
Theorem large_limit_is_default after n r : (0 < n <= int64_max)%Z ->
  handleEvents after (itoa3 n) r = handleEvents after (if decide (1000 < n)%Z then "100" else itoa3 n) r /\
  length (handleEvents after (itoa3 n) r) <= Z.to_nat (if decide (1000 < n)%Z then 100 else n).
Proof.
  intros Hn.
  assert (Hne : itoa3 n <> EmptyString).
  { intros H. apply (f_equal atoi2) in H. rewrite itoa3_read_back in H by lia. cbn in H. lia. }
  assert (Hh : handleEvents after (itoa3 n) r = List after n r).
  { unfold handleEvents. rewrite itoa3_read_back by lia. by rewrite decide_True by (split; [done|lia]). }
  case_decide as Hbig.
  - assert (Hl : List after n r = List after 100 r).
    { unfold List, page_size. by rewrite decide_True by lia. }
    rewrite Hh, Hl. split; [done|]. unfold List. rewrite length_take.
    change (page_size 100) with 100%Z. lia.
  - split; [done|]. rewrite Hh. unfold List. rewrite length_take.
    assert (page_size n = n) as -> by (unfold page_size; rewrite decide_False; lia). lia.
Qed.

(** ** The hosts of ~/.ssh/config *)

(** The blocks in order: each [Host] line that names no pattern, with what
    follows up to the next one. *)
Fixpoint host_blocks (home : string) (ds : list (string * string)) : list sshHostEntry :=
  match ds with
  | [] => []
  | (k, v) :: ds' =>
      (if decide (k = "host" /\ is_pattern v = false)
       then [foldl (fun e d => host_directive home (fst d) (snd d) e) (new_host v) (one_block ds')]
       else []) ++ host_blocks home ds'
  end.

Lemma parse_hosts_open home ls : forall cur,
  parse_hosts home ls cur =
  flush ((fun e => foldl (fun e d => host_directive home (fst d) (snd d) e) e (one_block (omap parse_directive ls))) <$> cur)
  ++ host_blocks home (omap parse_directive ls).
Proof.
  induction ls as [|l ls IH]; intros cur; cbn [parse_hosts omap list_omap].
  - destruct cur; cbn; by rewrite ?app_nil_r.
  - destruct (parse_directive l) as [[key value]|]; [|apply IH]. cbn [one_block host_blocks fst].
    destruct (decide (key = "host")) as [->|Hk].
    + rewrite IH. destruct (is_pattern value).
      * rewrite decide_False by naive_solver. by destruct cur.
      * rewrite decide_True by done. by destruct cur.
    + rewrite decide_False by naive_solver. rewrite IH. by destruct cur.
Qed.

Lemma host_directive_name home k v e : h_Host (host_directive home k v e) = h_Host e.
Proof. unfold host_directive. by repeat case_decide. Qed.

Lemma host_directives_name home ds : forall e,
  h_Host (foldl (fun e d => host_directive home (fst d) (snd d) e) e ds) = h_Host e.
Proof. induction ds as [|d ds IH]; intros e; [done|]. cbn. by rewrite IH, host_directive_name. Qed.

(** The block that names [alias] first, as an entry, and its directives. *)
Lemma host_blocks_first home alias ds e rest :
  filter (fun e => h_Host e = alias) (host_blocks home ds) = e :: rest -> is_pattern alias = false ->
  exists ds', after_host alias ds = Some ds' /\
    e = foldl (fun e d => host_directive home (fst d) (snd d) e) (new_host alias) (one_block ds').
Proof.
  intros Hf Hp. induction ds as [|[k v] ds IH]; [done|]. cbn [host_blocks after_host] in *.
  rewrite gfilter_app in Hf. destruct (decide ((k, v) = ("host", alias))) as [[= -> ->]|Hne].
  - rewrite (decide_True (P := "host" = "host" /\ is_pattern alias = false)) in Hf by done.
    rewrite filter_cons_True in Hf by apply host_directives_name. injection Hf as <- _. eauto.
  - apply IH. case_decide as Hk; [|exact Hf]. destruct Hk as [-> _].
    rewrite filter_cons_False in Hf; [exact Hf|]. rewrite host_directives_name. cbn. congruence.
Qed.

Lemma hostname_agrees home ds : forall e v,
  let e' := foldl (fun e d => host_directive home (fst d) (snd d) e) e ds in
  (h_HostName e = EmptyString \/ Host v = h_HostName e) ->
  Host (apply_block home ds v) = h_HostName e' \/
  (h_HostName e = EmptyString /\ h_HostName e' = EmptyString /\ Host (apply_block home ds v) = Host v).
Proof.
  induction ds as [|[k x] ds IH]; intros e v e' He; [cbn in *; intuition congruence|].
  unfold apply_block, e' in *. cbn [foldl fst snd].
  assert (Hs : (Host (directive home k x v) = x /\ h_HostName (host_directive home k x e) = x) \/
               (Host (directive home k x v) = Host v /\ h_HostName (host_directive home k x e) = h_HostName e)).
  { unfold directive, host_directive. repeat case_decide; cbn; auto. }
  destruct (IH (host_directive home k x e) (directive home k x v)) as [IH1|(H1 & H2 & H3)].
  - destruct Hs as [[-> ->]|[-> ->]]; auto.
  - by left.
  - destruct Hs as [[Ha Hb]|[Ha Hb]].
    + left. rewrite H2, H3, Ha. congruence.
    + rewrite H3, Ha, H2. rewrite Hb in H1. auto.
Qed.

(** C34: The hosts offered to the user are the blocks of the file without a
    pattern, in order; and the SSH client of the provisioner, given one of
    their names, finds it and connects to the host name that was shown. *)
Theorem offered_host_resolves home ls alias e rest v :
  filter (fun e => h_Host e = alias) (parse_hosts home ls None) = e :: rest ->
  parse_hosts home ls None = host_blocks home (omap parse_directive ls) /\
  exists r, resolve_lines home alias ls false v = (true, r) /\
    (Host r = h_HostName e \/ (h_HostName e = EmptyString /\ Host r = Host v)).
Proof.
  intros Hf. pose proof (parse_hosts_open home ls None) as Hp. cbn in Hp. split; [exact Hp|].
  rewrite Hp in Hf.
  assert (Hal : is_pattern alias = false).
  { assert (Hin : e ∈ filter (fun e => h_Host e = alias) (host_blocks home (omap parse_directive ls)))
      by (rewrite Hf; left). apply list_elem_of_filter in Hin as [Ha Hin]. clear -Ha Hin.
    induction (omap parse_directive ls) as [|[k x] ds IH]; [by apply elem_of_nil in Hin|].
    cbn [host_blocks] in Hin. apply elem_of_app in Hin as [Hin|Hin]; [|auto].
    case_decide as Hk; [|by apply elem_of_nil in Hin]. apply list_elem_of_singleton in Hin. subst e.
    rewrite host_directives_name in Ha. cbn in Ha. subst. apply Hk. }
  destruct (host_blocks_first _ _ _ _ _ Hf Hal) as (ds' & Ha & ->).
  rewrite resolve_not_in_target, Ha. eexists. split; [done|].
  destruct (hostname_agrees home (one_block ds') (new_host alias) v) as [H|(_ & H1 & H2)]; [by left|auto|auto].
Qed.

(** ** Theorems: settings and the exit marker *)

(** A DNS configuration that is accepted is what the request says, with the
    old token kept in manual mode, and changes nothing else; one that is
    refused or cannot be saved changes nothing. *)
Theorem dns_configure_outcome `{ConfigManagerLaws C} b (c : C) :
  let '(r, c') := handleConfigure b c in
  (code r = 200%Z /\ exists req, b = Some req /\ cfg_get c' = set_dns req (cfg_get c) /\
     (q_Mode req = "manual" \/ (q_Mode req = "cloudflare" /\ q_CloudflareToken req <> EmptyString))) \/
  ((code r = 400 \/ code r = 500)%Z /\ cfg_get c' = cfg_get c).
Proof.
  unfold handleConfigure. destruct b as [req|]; [|right; cbn; auto].
  case_decide as H1; [right; cbn; auto|]. case_decide as H2; [right; cbn; auto|].
  destruct (cfg_update_total (set_dns req) c) as ([[]|e|p] & c' & E & Hp); rewrite E.
  - left. split; [done|]. exists req. split; [done|]. split; [by apply cfg_update_ok|].
    destruct (decide (q_Mode req = "cloudflare")); [right|left]; [split; [done|]; tauto|].
    destruct (decide (q_Mode req = "manual")); tauto.
  - right. split; [cbn; auto|]. by eapply cfg_update_err.
  - by destruct (Hp p).
Qed.

(** The marker of a clean exit is seen by the next start, and by that one
    only. *)
Theorem exit_marker_read_once d now fs dr ds : now <> EmptyString ->
  let w0 := {| files := fs; outcomes := []; draws := dr; disks := ds |} in
  let w1 := snd (WriteGracefulExit (Ok d) now w0) in
  let '(first, w2) := CheckGracefulExit (Ok d) w1 in
  first = Ok true /\ fst (CheckGracefulExit (Ok d) w2) = Ok false.
Proof.
  intros Hn w0 w1. unfold CheckGracefulExit, w1, WriteGracefulExit, w0. cbn [GracefulExitPath mbind result_bind].
  set (path := JoinPath d ".graceful_exit"). unfold WriteTo, Remove, ReadFile, syscall, next_outcome.
  unfold mbind, eff_bind, try, mret, eff_ret. cbn. rewrite lookup_insert_eq. cbn. rewrite lookup_delete_eq.
  split; [|done].
  do 2 f_equal. apply bool_decide_eq_true. destruct now; [done|]. rewrite slen_String. lia.
Qed.

(** ** Theorems: the tunnel *)

Section TunnelTheorems.
Context {C E : Type} `{ConfigManagerLaws C} `{SSHExecutor E} `{LocalHostLaws E} `{TableCodec} `{MirrorCodec}.
Context (GOOS : goos) (awg : AWGCli) (sha256_hex : string -> string).

(** The request to disconnect is always answered with success.  A running
    tunnel is then down, with its watchdog cancelled; but while a connection
    is still being set up the request does nothing at all, and the connection
    comes up after the answer. *)
Theorem disconnect_answer (s : Tunnel.Manager (C := C) (E := E)) :
  let '(r, s') := handleDisconnect awg s in
  (exists resp, r = Ok resp /\ code resp = 200%Z) /\
  if Tunnel.running s
  then Tunnel.Status s' = "disconnected" /\ Tunnel.IsConnected s' = false /\
       live s' = filter (fun i => Some i <> wd s) (live s)
  else s' = s.
Proof.
  unfold handleDisconnect. destruct (Tunnel.running s) eqn:Hr.
  - destruct (disconnect_spec awg s Hr) as (c & e & -> & _). split; [eauto|]. done.
  - unfold Disconnect. rewrite Hr. cbn. split; [eauto|done].
Qed.

(** A tunnel that its watchdog found broken cannot be connected again: the
    request is accepted, and the connection it starts is refused because the
    session counts as running. *)
Theorem broken_tunnel_stays_down (s : Tunnel.Manager (C := C) (E := E)) :
  Tunnel.running s = true -> Tunnel.Status s = "error" ->
  handleConnect true s = ({| code := 202; body := JObj [("status", JStr "connecting")] |}, true) /\
  Connect GOOS awg sha256_hex s = (Err "tunnel: already connected or connecting", s).
Proof.
  intros Hr Hs. unfold handleConnect, Connect, connect_begin, mbind, eff_bind. rewrite Hr, Hs. done.
Qed.
End TunnelTheorems.

(** ** Theorems: the routes *)

#[export] Instance pattern_eq_dec : EqDecision pattern.
Proof. solve_decision. Defined.

Lemma segs_overlap_sound ps : forall qs ss,
  segs_match ps ss = true -> segs_match qs ss = true -> segs_overlap ps qs = true.
Proof.
  induction ps as [|p ps IH]; intros [|q qs] [|s ss]; try done; cbn [segs_match segs_overlap].
  rewrite !andb_true_iff. intros [Hp1 Hp2] [Hq1 Hq2]. split; [|by eapply IH].
  destruct (wildcard p); [done|]. destruct (wildcard q); [done|]. cbn [orb].
  rewrite bool_decide_eq_true in *. congruence.
Qed.

Lemma overlap_sound m path p q : matches m path p = true -> matches m path q = true -> overlap p q = true.
Proof.
  unfold matches, overlap. rewrite !andb_true_iff. intros [Hm Hp] [Hm' Hq].
  split; [|by eapply segs_overlap_sound]. unfold method_match in *.
  rewrite !orb_true_iff, !andb_true_iff, !bool_decide_eq_true in *.
  destruct Hm as [->|[-> ->]], Hm' as [->|[-> Hm']]; rewrite ?Hm'; auto.
Qed.

(** The daemon's table has one handler for every request: no two patterns
    that it registers match the same method and path. *)
Theorem routes_unambiguous m path p q : p ∈ main_patterns -> q ∈ main_patterns ->
  matches m path p = true -> matches m path q = true -> p = q.
Proof.
  intros Hp Hq Hmp Hmq. pose proof (overlap_sound _ _ _ _ Hmp Hmq) as Ho.
  assert (Hall : forallb (fun p => forallb (fun q => bool_decide (p = q) || negb (overlap p q)) main_patterns)
    main_patterns = true) by (vm_compute; reflexivity).
  rewrite forallb_forall in Hall. specialize (Hall p ltac:(by apply list_elem_of_In)).
  rewrite forallb_forall in Hall. specialize (Hall q ltac:(by apply list_elem_of_In)).
  rewrite Ho, orb_false_r, bool_decide_eq_true in Hall. done.
Qed.

(** The calls of the tray and of the web interface. *)
Definition client_calls : list (string * string) :=
  [("GET", "/api/status"); ("POST", "/api/tunnel/connect"); ("POST", "/api/tunnel/disconnect");
   ("GET", "/api/tunnel/status"); ("POST", "/api/dns/configure"); ("GET", "/api/ports"); ("POST", "/api/ports");
   ("GET", "/api/ssh/hosts"); ("POST", "/api/vps/configure"); ("GET", "/api/vps/status")].

(** Every call of the tray and of the web interface reaches a handler, and
    so does the removal of a port under any identifier. *)
Theorem client_calls_served :
  Forall (fun '(m, path) => exists p, root_serve main_patterns m path = ByHandler p) client_calls /\
  forall id, id <> EmptyString -> free_of "/" id = true ->
    root_serve main_patterns "DELETE" ("/api/ports/" +:+ id) = ByHandler (parse_pattern "DELETE /api/ports/{id}").
Proof.
  split; [repeat constructor; eexists; vm_compute; reflexivity|].
  intros id Hne Hfree. unfold root_serve, mux_serve.
  assert (HasPrefix ("/api/ports/" +:+ id) "/api/" = true) as -> by reflexivity.
  assert (Hs : Split ("/api/ports/" +:+ id) "/" = ["" ; "api"; "ports"; id]).
  { change ("/api/ports/" +:+ id) with ("" +:+ String "/" ("api" +:+ String "/" ("ports" +:+ String "/" id))).
    rewrite !Split_app_sep by done. by rewrite Split_free. }
  assert (Hm : forall p, matches "DELETE" ("/api/ports/" +:+ id) p =
    method_match (p_method p) "DELETE" && segs_match (p_segs p) ["api"; "ports"; id]) by (intros p; unfold matches; by rewrite Hs).
  assert (filter (fun p => matches "DELETE" ("/api/ports/" +:+ id) p = true) main_patterns =
    filter (fun p => method_match (p_method p) "DELETE" && segs_match (p_segs p) ["api"; "ports"; id] = true) main_patterns) as ->.
  { apply list_filter_iff. intros p. by rewrite Hm. }
  destruct id; [done|]. reflexivity.
Qed.

(** C14: the wizard, the QR codes, the invitations and the exposing of routes
    would be registered with paths that the server never gives to the table of
    the API: a request that their patterns match is answered with the page of
    the web interface, whatever else is registered. *)
Theorem wizard_routes_unreachable ps m path p : p ∈ RegisterWizardRoutes -> matches m path p = true ->
  root_serve ps m path = Static.
Proof.
  intros Hp Hm. unfold root_serve. destruct (HasPrefix path "/api/") eqn:Hpre; [exfalso|done].
  apply HasPrefix_spec in Hpre as [r ->].
  assert (Hs : tail (Split ("/api/" +:+ r) "/") = "api" :: Split r "/").
  { change ("/api/" +:+ r) with ("" +:+ String "/" ("api" +:+ String "/" r)). by rewrite !Split_app_sep. }
  unfold matches in Hm. rewrite Hs in Hm. apply andb_true_iff in Hm as [_ Hm].
  assert (Hall : forallb (fun p => negb (segs_overlap (firstn 1 (p_segs p)) ["api"])) RegisterWizardRoutes = true)
    by (vm_compute; reflexivity).
  rewrite forallb_forall in Hall. specialize (Hall p ltac:(by apply list_elem_of_In)).
  destruct (p_segs p) as [|seg segs]; [done|]. cbn [segs_match firstn segs_overlap] in Hm, Hall. apply andb_true_iff in Hm as [Hseg _].
  destruct (wildcard seg); [done|]. apply bool_decide_eq_true in Hseg. by subst.
Qed.

(** ** Theorems: the static files *)

Lemma clean_step_ok acc seg : free_of "/" seg = true ->
  Forall (fun s => s <> "" /\ s <> "." /\ s <> ".." /\ free_of "/" s = true) acc ->
  Forall (fun s => s <> "" /\ s <> "." /\ s <> ".." /\ free_of "/" s = true) (clean_step true acc seg).
Proof.
  intros Hs Ha. unfold clean_step. case_decide as H1; [done|]. case_decide as H2.
  - destruct acc as [|x acc]; [done|]. apply list.Forall_cons in Ha as [(_ & _ & Hx & _) Ha].
    by rewrite decide_False.
  - constructor; [|done]. tauto.
Qed.

Lemma clean_segs_ok path : HasPrefix path "/" = true ->
  Forall (fun s => s <> "" /\ s <> "." /\ s <> ".." /\ free_of "/" s = true) (clean_segs path).
Proof.
  intros Hr. unfold clean_segs. rewrite Hr. apply Forall_rev.
  pose proof (Split_pieces path "/") as Hp. revert Hp. generalize (Split path "/").
  assert (H : forall l acc, Forall (fun w => free_of "/" w = true) l ->
    Forall (fun s => s <> "" /\ s <> "." /\ s <> ".." /\ free_of "/" s = true) acc ->
    Forall (fun s => s <> "" /\ s <> "." /\ s <> ".." /\ free_of "/" s = true) (foldl (clean_step true) acc l)).
  { induction l as [|x l IH]; intros acc Hl Ha; [done|]. apply list.Forall_cons in Hl as [Hx Hl].
    apply IH; [done|]. by apply clean_step_ok. }
  intros l Hl. apply H; [done|constructor].
Qed.

Lemma Clean_rooted path : HasPrefix path "/" = true -> Clean path = "/" +:+ Join (clean_segs path) "/".
Proof. intros Hr. unfold Clean, clean_segs. by rewrite Hr. Qed.

(** Whatever path is asked for, a file that is served has a name made of
    proper segments: nothing above the directory of the web interface can be
    named; and the start page is never served with the lasting cache header. *)
Theorem static_stays_inside regular path name : HasPrefix path "/" = true ->
  static_ServeHTTP regular path = Asset name ->
  regular name = true /\ name <> "index.html" /\
  Forall (fun s => s <> "" /\ s <> "." /\ s <> "..") (Split name "/").
Proof.
  intros Hr. unfold static_ServeHTTP, fileExists. rewrite (Clean_rooted path Hr).
  pose proof (clean_segs_ok path Hr) as Hs. set (segs := clean_segs path) in *.
  rewrite TrimPrefix_app. case_decide as Hpage; [|done]. case_decide as Hempty; [done|].
  destruct (regular (Join segs "/")) eqn:Hreg; [|done]. intros [= <-].
  split; [done|]. split; [intros Heq; apply (proj2 Hpage); by rewrite Heq|].
  rewrite Split_Join.
  - eapply Forall_impl; [|exact Hs]. tauto.
  - intros Hn. by rewrite Hn in Hempty.
  - eapply Forall_impl; [|exact Hs]. tauto.
Qed.

(** ** Witnesses *)

Definition an_event (m : string) : event_args :=
  {| a_type := "tunnel"; a_message := m; a_details := EmptyString; a_now := "now" |}.
Definition three_events : list event_args := [an_event "a"; an_event "b"; an_event "c"].
Definition two_slots : EventRing :=
  {| events := [numbered_event 2 (an_event "b"); numbered_event 3 (an_event "c")]; max := 2; ev_seq := 3 |}.

Lemma event_ring_holds_newest_witness :
  exists r, add_all three_events (NewEventRing 2) = Ok r /\ events r = events two_slots.
Proof. apply (event_ring_holds_newest 2 three_events); vm_compute; [lia|discriminate]. Defined.

Lemma pages_are_complete_witness :
  read_pages 3 EmptyString 1 two_slots = events two_slots /\
  read_pages 3 "2" 1 two_slots = [numbered_event 3 (an_event "c")].
Proof.
  destruct (pages_are_complete 2 three_events two_slots 1) as [H1 H2];
    [vm_compute; lia|vm_compute; discriminate|vm_compute; reflexivity|].
  split; [exact H1|]. exact (H2 0 (numbered_event 2 (an_event "b")) eq_refl).
Defined.

Lemma large_limit_is_default_witness :
  handleEvents EmptyString "2000" two_slots = handleEvents EmptyString "100" two_slots.
Proof. apply (large_limit_is_default EmptyString 2000 two_slots). vm_compute. split; [reflexivity|discriminate]. Defined.

Lemma offered_host_resolves_witness :
  let ls := ["Host *.lan"; "User x"; "Host vps"; "  HostName 203.0.113.9"; "Port 2222"] in
  exists r, resolve_lines "/root" "vps" ls false (VPS (defaultConfig EmptyString)) = (true, r) /\
    (Host r = "203.0.113.9" \/ ("203.0.113.9" = EmptyString /\ Host r = Host (VPS (defaultConfig EmptyString)))).
Proof.
  intros ls.
  apply (offered_host_resolves "/root" ls "vps"
    {| h_Host := "vps"; h_HostName := "203.0.113.9"; h_User := EmptyString; h_Port := 2222; h_IdentityFile := EmptyString |} []).
  vm_compute. reflexivity.
Defined.

Lemma dns_configure_outcome_witness :
  let req := {| q_Mode := "manual"; q_CloudflareToken := EmptyString; q_Zone := "example.org" |} in
  let '(r, c') := @handleConfigure _ plain_config (Some req) (defaultConfig EmptyString) in
  (code r = 200%Z /\ exists req', Some req = Some req' /\ c' = set_dns req' (defaultConfig EmptyString) /\
     (q_Mode req' = "manual" \/ (q_Mode req' = "cloudflare" /\ q_CloudflareToken req' <> EmptyString))) \/
  ((code r = 400 \/ code r = 500)%Z /\ c' = defaultConfig EmptyString).
Proof.
  intros req. exact (@dns_configure_outcome _ plain_config plain_config_laws (Some req) (defaultConfig EmptyString)).
Defined.

Lemma exit_marker_read_once_witness :
  let w1 := snd (WriteGracefulExit (Ok "/cfg") "t" {| files := ∅; outcomes := []; draws := []; disks := [] |}) in
  let '(first, w2) := CheckGracefulExit (Ok "/cfg") w1 in
  first = Ok true /\ fst (CheckGracefulExit (Ok "/cfg") w2) = Ok false.
Proof. apply exit_marker_read_once. discriminate. Defined.

Lemma routes_unambiguous_witness :
  parse_pattern "GET /api/status" = parse_pattern "GET /api/status".
Proof. apply (routes_unambiguous "HEAD" "/api/status"); vm_compute; first [reflexivity|repeat constructor]. Defined.

Lemma client_calls_served_witness :
  root_serve main_patterns "DELETE" "/api/ports/42" = ByHandler (parse_pattern "DELETE /api/ports/{id}").
Proof. apply (proj2 client_calls_served "42"); vm_compute; [discriminate|reflexivity]. Defined.

Lemma wizard_routes_unreachable_witness :
  root_serve (main_patterns ++ RegisterWizardRoutes) "POST" "/v1/wizard/sessions" = Static.
Proof.
  apply (wizard_routes_unreachable _ "POST" "/v1/wizard/sessions" (parse_pattern "POST /v1/wizard/sessions"));
    vm_compute; first [reflexivity|repeat constructor].
Defined.

Lemma static_stays_inside_witness :
  "app.js" <> "index.html" /\ Forall (fun s => s <> "" /\ s <> "." /\ s <> "..") (Split "app.js" "/").
Proof.
  apply (static_stays_inside (fun n => bool_decide (n = "app.js")) "/../x/../app.js"); vm_compute; reflexivity.
Defined.

Section TunnelWitnesses.
#[local] Existing Instance plain_config.
#[local] Existing Instance plain_config_laws.
#[local] Existing Instance echo_server.
#[local] Existing Instance line_table.
#[local] Existing Instance table_mirror.
#[local] Instance w_host : LocalHost unit := quiet_host "K".
#[local] Instance w_host_laws : LocalHostLaws unit := quiet_host_laws "K".

Lemma disconnect_answer_witness :
  let s := snd (connect_begin ready) in
  snd (handleDisconnect awg_cli s) = s /\ Tunnel.Status s = "connecting".
Proof.
  intros s. pose proof (disconnect_answer (C := RootConfig) (E := unit) awg_cli s) as Hd.
  destruct (handleDisconnect awg_cli s) as [r s'] eqn:E. destruct Hd as [_ Hd].
  split; [exact Hd|vm_compute; reflexivity].
Defined.

Lemma broken_tunnel_stays_down_witness :
  let s := Tunnel.with_status "error" (Tunnel.with_running true ready) in
  fst (Connect linux awg_cli id s) = Err "tunnel: already connected or connecting".
Proof.
  intros s.
  destruct (broken_tunnel_stays_down (C := RootConfig) (E := unit) linux awg_cli id s) as [_ ->]; reflexivity.
Defined.
End TunnelWitnesses.
