(* ===== verification/Startup.v ===== *)
(** * cmd/unet, api/remote/server.go and tls.go: starting and stopping

    The lock of the single instance, the reconciliation of the tunnel's state,
    the SSH client that is built on first use, the set-up of the remote API
    with its key and certificates, and the phases of [main] up to its end.
    Which processes are alive, key generation and the listeners are
    parameters.  [os.Exit] is the error of a step: it ends the process without
    the deferred functions. *)

From S2P Require Import Prelude GoLib FS Config ServerConfig AWG Peer Tunnel SSH ProvSSH Base64 Auth CaddyMTLS Middleware AuditLog.

(** ** startup.go: the pid file *)

Section Lock.
(** [os.UserHomeDir()] *)
Context (home_dir : result string).

Definition lockDir (home : string) : string := JoinPath home ".unet".
Definition pidFile (home : string) : string := JoinPath (lockDir home) "unet.pid".

(** The check: [alive] answers signal 0. *)
Definition check_lock (alive : Z -> bool) : eff World string :=
  home ← lift home_dir;
  _ ← MkdirAll (lockDir home);
  r ← ReadFile (pidFile home);
  match r with
  | Contents data =>
      match Atoi data with
      | (existingPID, None) =>
          if alive existingPID then throw ("unet is already running (pid " +:+ Itoa existingPID +:+ ")")
          else mret (pidFile home)
      | _ => mret (pidFile home)
      end
  | _ => mret (pidFile home)
  end.

(** The write that follows it. *)
Definition write_pid (path : string) (pid : Z) : eff World unit := WriteTo path (Itoa pid).

Definition acquireLockPIDFile (alive : Z -> bool) (pid : Z) : eff World string :=
  path ← check_lock alive;
  _ ← write_pid path pid;
  mret path.

(** The function it returns. *)
Definition release (path : string) : eff World unit := _ ← try (Remove path); mret tt.
End Lock.

(** ** startup.go: the state of the tunnel *)

Section Reconcile.
Context {C E : Type} `{ConfigManager C} `{LocalHost E}.

(** The configuration and the machine after it; errors of saving are only
    logged. *)
Definition ReconcileStartupState (awg : AWGCli) (c : C) (e : E) : C * E :=
  let t := Config.Tunnel (cfg_get c) in
  if decide (Config.Status t <> "connected" \/ InterfaceName t = EmptyString) then (c, e)
  else match InterfaceExists awg (InterfaceName t) e with
       | (Ok true, e') => (c, e')
       | (_, e') => (snd (cfg_update set_disconnected c), e')
       end.
End Reconcile.

(** ** main.go: the SSH client *)

Section LazySSH.
Context {C E : Type} `{ConfigManager C} `{GoSSH E} (config_dir home_dir : result string).

(** The client carries the network and the disk once it exists. *)
Record lazySSHClient := { l_cfgMgr : C; l_client : option (ProvSSH.Client (E := E)); l_net : E; l_disk : World }.

Definition with_built (c : ProvSSH.Client) (l : lazySSHClient) : lazySSHClient :=
  {| l_cfgMgr := l_cfgMgr l; l_client := Some c; l_net := l_net l; l_disk := l_disk l |}.

Definition ensureClient : eff lazySSHClient ProvSSH.Client := fun l =>
  match l_client l with
  | Some c => (Ok c, l)
  | None =>
      let vps := VPS (cfg_get (l_cfgMgr l)) in
      if decide (Host vps = EmptyString) then (Err "ssh: VPS not configured", l)
      else match NewClient home_dir vps (l_net l) (l_disk l) with
           | Ok c => (Ok c, with_built c l)
           | Err e => (Err ("ssh: create client: " +:+ e), l)
           | Panic p => (Panic p, l)
           end
  end.

Definition lazy_call (f : ProvSSH.Client -> (string * string * option string) * ProvSSH.Client) (l : lazySSHClient)
  : (string * string * option string) * lazySSHClient :=
  match ensureClient l with
  | (Ok c, l1) => let '(out, c') := f c in (out, with_built c' l1)
  | (Err e, l1) => ((EmptyString, EmptyString, Some e), l1)
  | (Panic e, l1) => ((EmptyString, EmptyString, Some e), l1)
  end.
Definition lazy_ExecuteCommand (cmd : string) := lazy_call (ProvSSH.ExecuteCommand config_dir cmd).
Definition lazy_ExecuteScript (script : string) := lazy_call (ProvSSH.ExecuteScript config_dir script).

#[export] Instance lazy_executor : SSHExecutor lazySSHClient := {|
  ServerConfig.ExecuteCommand := lazy_ExecuteCommand;
  ServerConfig.ExecuteScript := lazy_ExecuteScript
|}.
End LazySSH.

(** ** api/remote/tls.go *)

(** [filepath.Dir] of a clean path *)
Definition Dir (path : string) : string :=
  match rev (Split path "/") with
  | _ :: init => let d := Join (rev init) "/" in
                 if decide (d = EmptyString) then (if HasPrefix path "/" then "/" else ".") else d
  | [] => "."
  end.

(** [os.Create], and [os.OpenFile] with [O_WRONLY|O_CREATE|O_TRUNC] *)
Definition CreateFile (name : string) : eff World unit := syscall (<[name := EmptyString]>) no_change.

(** A file made, and written by an encoder; a failure leaves a prefix. *)
Definition write_pem (path type der : string) : eff World unit :=
  _ ← CreateFile path; AppendTo path (pem_encode type der).

Section TLS.
(** A fresh certificate and key, in DER. *)
Context (generate : result (string * string)).

Definition GenerateSelfSignedCert (certPath keyPath : string) : eff World unit :=
  '(derBytes, privBytes) ← lift generate;
  _ ← MkdirAll (Dir certPath);
  _ ← write_pem certPath "CERTIFICATE" derBytes;
  write_pem keyPath "EC PRIVATE KEY" privBytes.

(** [os.Stat]: whether the file is there, or an error that is not its absence. *)
Inductive stat_result := Present | Absent | StatError (e : string).
Definition Stat (name : string) : eff World stat_result := fun w =>
  (Ok (match next_outcome w with
       | Some e => StatError (f_err e)
       | None => if decide (files w !! name = None) then Absent else Present
       end), after (files w) w).

Definition EnsureTLS (certPath keyPath : string) : eff World unit :=
  cert ← Stat certPath;
  key ← Stat keyPath;
  match cert, key with
  | Absent, _ | _, Absent => GenerateSelfSignedCert certPath keyPath
  | StatError e, _ => throw ("failed to stat cert: " +:+ e)
  | _, StatError e => throw ("failed to stat key: " +:+ e)
  | Present, Present => mret tt
  end.

Definition DefaultTLSCertPaths (config_dir : result string) : result (string * string) :=
  dir ← config_dir; Ok (JoinPath dir "cert.pem", JoinPath dir "key.pem").

(** ** api/remote/server.go *)

Definition isLoopbackAddress (addr : string) : bool :=
  let host := match SplitHostPort addr with Some (h, _) => h | None => addr end in
  bool_decide (host = "127.0.0.1") || bool_decide (host = "::1") || bool_decide (host = "localhost") ||
  HasPrefix host "127.".

(** [Start] up to the call of [ListenAndServeTLS], which returns only when the
    listener fails or is shut down: the address and the two paths, or nothing
    when the API is disabled. *)
Definition Start_listening (config_dir : result string) (cfg : RemoteAPIConfig)
  : eff World (option (string * string * string)) :=
  if negb (Config.Enabled cfg) then mret None
  else
    let listenAddr := if decide (ListenAddr cfg = EmptyString) then "0.0.0.0:8443" else ListenAddr cfg in
    '(certPath, keyPath) ←
      (if decide (RTLSCert cfg = EmptyString \/ RTLSKey cfg = EmptyString) then
         '(defCert, defKey) ← wrap "failed to get default TLS paths: " (lift (DefaultTLSCertPaths config_dir));
         mret (if decide (RTLSCert cfg = EmptyString) then defCert else RTLSCert cfg,
               if decide (RTLSKey cfg = EmptyString) then defKey else RTLSKey cfg)
       else mret (RTLSCert cfg, RTLSKey cfg));
    _ ← wrap "failed to ensure TLS certificates: " (EnsureTLS certPath keyPath);
    mret (Some (listenAddr, certPath, keyPath)).
End TLS.

(** ** main.go: the remote API *)

Section RemoteSetup.
Context {C : Type} `{ConfigManager C}.

Definition set_jwt_key (key : string) (c : RootConfig) : RootConfig :=
  {| VPS := VPS c; Tunnel := Config.Tunnel c; CaddyAPI := CaddyAPI c; ExposedPorts := ExposedPorts c;
     DNS := DNS c;
     Daemon := {| LogLevel := LogLevel (Daemon c); PidFile := PidFile (Daemon c);
                  AutoStart := AutoStart (Daemon c); JWTSigningKey := key |};
     RemoteAPI := RemoteAPI c; ServerMirror := ServerMirror c; UIToken := UIToken c |}.

(** The configuration and the disk. *)
Record setup := { s_cfg : C; s_disk : World }.
Definition onSetupCfg {A} (m : eff C A) : eff setup A :=
  on_part s_cfg (fun c s => {| s_cfg := c; s_disk := s_disk s |}) m.
Definition onSetupDisk {A} (m : eff World A) : eff setup A :=
  on_part s_disk (fun w s => {| s_cfg := s_cfg s; s_disk := w |}) m.

(** What the server is built from. *)
Record remote_deps := { d_tokens : string; d_issuer : JWTIssuer; d_audit : string }.

(** [random]: the bytes of a new key, or why there are none. *)
Definition setupRemoteAPI_run (config_dir random : result string) : eff setup (option remote_deps) :=
  s ← get;
  let cfg := cfg_get (s_cfg s) in
  if negb (Config.Enabled (RemoteAPI cfg)) then mret None
  else
    configDir ← lift config_dir;
    jwtKey ← (if decide (JWTSigningKey (Daemon cfg) = EmptyString) then
                bytes ← lift random;
                let key := GenerateJWTSigningKey bytes in
                _ ← onSetupCfg (cfg_update (set_jwt_key key));
                mret key
              else mret (JWTSigningKey (Daemon cfg)));
    issuer ← lift (NewJWTIssuer jwtKey);
    let auditPath := JoinPath configDir "audit.jsonl" in
    _ ← onSetupDisk (NewLogger (Dir auditPath) auditPath);
    mret (Some {| d_tokens := JoinPath configDir "tokens.json"; d_issuer := issuer; d_audit := auditPath |}).

(** Every error is logged and means that there is no remote API. *)
Definition setupRemoteAPI (config_dir random : result string) (s : setup) : option remote_deps * setup :=
  match setupRemoteAPI_run config_dir random s with
  | (Ok d, s') => (d, s')
  | (_, s') => (None, s')
  end.
End RemoteSetup.

(** ** main.go: the process

    The statements of [main] in their order, from the privilege check on, and a
    machine that runs them.  A statement that ends in [os.Exit] ends the process
    without the deferred calls; a return runs them, last first. *)

Inductive deferred := CleanupLock | CancelContext.
Inductive stmt :=
  | DoCheckPrivileges      (* with CheckAwgPath *)
  | DoAcquireLock
  | Defer (d : deferred)
  | DoNewManager           (* config.NewManager *)
  | DoNewAWGCli            (* tunnel.NewAWGCli *)
  | DoReconcile
  | DoSetupRemote
  | DoStartServer          (* srv.Start: the listener opens or does not, and a goroutine serves it *)
  | DoStartRemote          (* remoteSrv.Start, in the goroutine of main *)
  | DoNotify               (* signal.Notify *)
  | DoReceive              (* <-sig *)
  | DoStopRemote
  | DoCancel.

Definition main_body : list stmt :=
  [DoCheckPrivileges; DoAcquireLock; Defer CleanupLock; DoNewManager; DoNewAWGCli; DoReconcile; DoSetupRemote;
   Defer CancelContext; DoStartServer; DoStartRemote; DoNotify; DoReceive; DoStopRemote; DoCancel].

(** Killed by a signal's default action; [os.Exit]; the return of [main]. *)
Inductive ending := Killed | Exits | Returned.

(** What else happens: [main] gets to run, a signal to end arrives, the remote
    listener is closed or fails. *)
Inductive event := Runs | Signal | ServeEnds.
#[export] Instance event_eq_dec : EqDecision event.
Proof. solve_decision. Defined.

Section Main.
Context {C E : Type} `{ConfigManager C} `{LocalHost E}.

(** What the process finds: the outcomes of the calls that are not modelled
    here are booleans. *)
Record surroundings := {
  checks_pass : bool; home : result string; is_alive : Z -> bool; own_pid : Z; config_ok : bool;
  awg : option AWGCli; config_dir : result string; key_bytes : result string; listen_ok : bool;
  new_cert : result (string * string)
}.

Record process := {
  todo : list stmt; defers : list deferred; lock : option string; part : setup (C := C); host : E;
  remoteSrv : option remote_deps;
  serving : bool;      (* the call of ListenAndServeTLS has not returned *)
  notified : bool; sig : bool;   (* the channel holds one signal *)
  ctx_done : bool; ended : option ending
}.
Definition with_todo t p := {| todo := t; defers := defers p; lock := lock p; part := part p; host := host p; remoteSrv := remoteSrv p; serving := serving p; notified := notified p; sig := sig p; ctx_done := ctx_done p; ended := ended p |}.
Definition push d p := {| todo := todo p; defers := d :: defers p; lock := lock p; part := part p; host := host p; remoteSrv := remoteSrv p; serving := serving p; notified := notified p; sig := sig p; ctx_done := ctx_done p; ended := ended p |}.
Definition locked l p := {| todo := todo p; defers := defers p; lock := Some l; part := part p; host := host p; remoteSrv := remoteSrv p; serving := serving p; notified := notified p; sig := sig p; ctx_done := ctx_done p; ended := ended p |}.
Definition with_part s h p := {| todo := todo p; defers := defers p; lock := lock p; part := s; host := h; remoteSrv := remoteSrv p; serving := serving p; notified := notified p; sig := sig p; ctx_done := ctx_done p; ended := ended p |}.
Definition with_remote r p := {| todo := todo p; defers := defers p; lock := lock p; part := part p; host := host p; remoteSrv := r; serving := serving p; notified := notified p; sig := sig p; ctx_done := ctx_done p; ended := ended p |}.
Definition with_serving b p := {| todo := todo p; defers := defers p; lock := lock p; part := part p; host := host p; remoteSrv := remoteSrv p; serving := b; notified := notified p; sig := sig p; ctx_done := ctx_done p; ended := ended p |}.
Definition with_notified p := {| todo := todo p; defers := defers p; lock := lock p; part := part p; host := host p; remoteSrv := remoteSrv p; serving := serving p; notified := true; sig := sig p; ctx_done := ctx_done p; ended := ended p |}.
Definition with_sig b p := {| todo := todo p; defers := defers p; lock := lock p; part := part p; host := host p; remoteSrv := remoteSrv p; serving := serving p; notified := notified p; sig := b; ctx_done := ctx_done p; ended := ended p |}.
Definition cancel p := {| todo := todo p; defers := defers p; lock := lock p; part := part p; host := host p; remoteSrv := remoteSrv p; serving := serving p; notified := notified p; sig := sig p; ctx_done := true; ended := ended p |}.
Definition ends e p := {| todo := todo p; defers := defers p; lock := lock p; part := part p; host := host p; remoteSrv := remoteSrv p; serving := serving p; notified := notified p; sig := sig p; ctx_done := ctx_done p; ended := Some e |}.

Definition disk (p : process) : World := s_disk (part p).
Definition with_disk (w : World) (p : process) : process :=
  with_part {| s_cfg := s_cfg (part p); s_disk := w |} (host p) p.

Context (en : surroundings).

Definition exec (st : stmt) (p : process) : process :=
  match st with
  | DoCheckPrivileges => if checks_pass en then p else ends Exits p
  | DoAcquireLock =>
      match acquireLockPIDFile (home en) (is_alive en) (own_pid en) (disk p) with
      | (Ok path, w) => locked path (with_disk w p)
      | (_, w) => ends Exits (with_disk w p)
      end
  | Defer d => push d p
  | DoNewManager => if config_ok en then p else ends Exits p
  | DoNewAWGCli => match awg en with Some _ => p | None => ends Exits p end
  | DoReconcile =>
      match awg en with
      | Some cli => let '(c, e) := ReconcileStartupState cli (s_cfg (part p)) (host p) in
                    with_part {| s_cfg := c; s_disk := disk p |} e p
      | None => p
      end
  | DoSetupRemote => let '(r, s) := setupRemoteAPI (config_dir en) (key_bytes en) (part p) in
                     with_remote r (with_part s (host p) p)
  | DoStartServer => if listen_ok en then p else ends Exits p
  | DoStartRemote =>
      match remoteSrv p with
      | None => p
      | Some _ =>
          match Start_listening (new_cert en) (config_dir en) (RemoteAPI (cfg_get (s_cfg (part p)))) (disk p) with
          | (Ok (Some _), w) => with_serving true (with_disk w p)
          | (_, w) => with_disk w p
          end
      end
  | DoNotify => with_notified p
  | DoReceive => with_sig false p
  | DoStopRemote => match remoteSrv p with Some _ => with_serving false p | None => p end
  | DoCancel => cancel p
  end.

Definition run_deferred (d : deferred) (p : process) : process :=
  match d with
  | CleanupLock => match lock p with
                   | Some path => with_disk (snd (release path (disk p))) p
                   | None => p
                   end
  | CancelContext => cancel p
  end.
Definition returns (p : process) : process := ends Returned (foldl (fun p d => run_deferred d p) p (defers p)).

(** [main] waits in [remoteSrv.Start] while it serves, and for the signal. *)
Definition blocked (p : process) : bool :=
  serving p || match todo p with DoReceive :: _ => negb (sig p) | _ => false end.

Definition main_step (ev : event) (p : process) : process :=
  match ended p with
  | Some _ => p
  | None =>
      match ev with
      | Runs => if blocked p then p
                else match todo p with [] => returns p | st :: rest => exec st (with_todo rest p) end
      | Signal => if notified p then with_sig true p else ends Killed p
      | ServeEnds => with_serving false p
      end
  end.

Definition main_run (evs : list event) (p : process) : process := foldl (fun p ev => main_step ev p) p evs.

Definition boot (c : C) (w : World) (e : E) : process :=
  {| todo := main_body; defers := []; lock := None; part := {| s_cfg := c; s_disk := w |}; host := e;
     remoteSrv := None; serving := false; notified := false; sig := false; ctx_done := false; ended := None |}.
End Main.

(** [context.WithTimeout(context.Background(), 5)]: nanoseconds. *)
Definition shutdown_timeout : Z := 5.

(** ** Lemmas: the lock *)

Section LockProofs.
Context (home : string).

Definition no_faults (w : World) : Prop := outcomes w = [].

Lemma check_lock_quiet alive w : no_faults w ->
  let blocked := match files w !! pidFile home with
                 | Some data => match Atoi data with (n, None) => alive n | _ => false end
                 | None => false
                 end in
  exists w', check_lock (Ok home) alive w =
    (if blocked then Err ("unet is already running (pid " +:+
                          Itoa (fst (Atoi (default EmptyString (files w !! pidFile home)))) +:+ ")")
     else Ok (pidFile home), w') /\ files w' = files w /\ no_faults w'.
Proof.
  destruct w as [fs os dr ds]. unfold no_faults. cbn. intros ->. unfold check_lock, MkdirAll, ReadFile, syscall, next_outcome.
  unfold mbind, eff_bind, lift, mret, eff_ret, throw. cbn.
  destruct (fs !! pidFile home) as [data|]; cbn; [|eauto].
  destruct (Atoi data) as [n [e|]]; cbn; [eauto|]. destruct (alive n); eauto.
Qed.

Lemma write_pid_quiet path pid w : no_faults w -> exists w', write_pid path pid w = (Ok tt, w') /\
  files w' = <[path := Itoa pid]> (files w) /\ no_faults w'.
Proof. destruct w. unfold no_faults. cbn. intros ->. eexists. split; [reflexivity|done]. Qed.

Lemma release_quiet path w : no_faults w -> exists w', release path w = (Ok tt, w') /\
  files w' = delete path (files w) /\ no_faults w'.
Proof. destruct w. unfold no_faults. cbn. intros ->. eexists. split; [reflexivity|done]. Qed.

(** The daemons that run, and the disk. *)
Record machine := { daemons : gset Z; m_disk : World }.

(** Starts that do not overlap, clean ends and kills; [others] are the other
    processes of the machine. *)
Inductive lock_step (others : gset Z) : machine -> machine -> Prop :=
  | lk_start pid m path w : pid ∉ daemons m -> pid ∉ others -> (0 < pid <= int64_max)%Z ->
      acquireLockPIDFile (Ok home) (fun p => bool_decide (p ∈ daemons m ∪ others)) pid (m_disk m) = (Ok path, w) ->
      lock_step others m {| daemons := {[pid]} ∪ daemons m; m_disk := w |}
  | lk_exit pid m w : pid ∈ daemons m -> release (pidFile home) (m_disk m) = (Ok tt, w) ->
      lock_step others m {| daemons := daemons m ∖ {[pid]}; m_disk := w |}
  | lk_kill pid m : pid ∈ daemons m ->
      lock_step others m {| daemons := daemons m ∖ {[pid]}; m_disk := m_disk m |}.

Definition lock_inv (m : machine) : Prop :=
  no_faults (m_disk m) /\
  forall p, p ∈ daemons m -> daemons m = {[p]} /\ (0 < p <= int64_max)%Z /\
                             files (m_disk m) !! pidFile home = Some (Itoa p).

Lemma lock_step_inv others m m' : lock_inv m -> lock_step others m m' -> lock_inv m'.
Proof.
  intros [Hn Hi]. destruct 1 as [pid m path w Hp Ho Hr Ha|pid m w Hp Hr|pid m Hp].
  - unfold acquireLockPIDFile in Ha. apply bind_ok_inv in Ha as (path' & w1 & Hc & Ha).
    apply bind_ok_inv in Ha as ([] & w2 & Hw & Ha). injection Ha as <- <-.
    destruct (check_lock_quiet (fun p => bool_decide (p ∈ daemons m ∪ others)) (m_disk m) Hn) as (w1' & Hc' & Hf & Hn1).
    rewrite Hc in Hc'. case_match eqn:Hb; [discriminate Hc'|]. injection Hc' as -> <-.
    destruct (write_pid_quiet (pidFile home) pid w1 Hn1) as (w2' & Hw' & Hf2 & Hn2).
    rewrite Hw in Hw'. injection Hw' as <-.
    assert (Hempty : daemons m = ∅).
    { apply set_eq. intros p. split; [|set_solver]. intros Hin.
      destruct (Hi p Hin) as (_ & Hpr & Hfile). rewrite Hfile in Hb.
      rewrite Atoi_Itoa in Hb by (unfold int64_min in *; lia). rewrite bool_decide_eq_false in Hb. set_solver. }
    split; [exact Hn2|]. cbn. rewrite Hempty. intros p Hin.
    assert (p = pid) as -> by set_solver. split; [set_solver|]. split; [done|].
    rewrite Hf2. by rewrite lookup_insert_eq.
  - destruct (release_quiet (pidFile home) (m_disk m) Hn) as (w' & Hr' & Hf & Hn').
    rewrite Hr in Hr'. injection Hr' as <-. split; [exact Hn'|]. cbn. intros p Hin.
    destruct (Hi pid Hp) as (Hd & _). set_solver.
  - split; [exact Hn|]. cbn. intros p Hin. destruct (Hi pid Hp) as (Hd & _). set_solver.
Qed.

(** When starts do not overlap, one daemon runs at a time: whatever ends
    and kills there are, two running daemons are the same, and the pid file
    names it. *)
Theorem one_instance_at_a_time others m p q :
  star (lock_step others) {| daemons := ∅; m_disk := {| files := ∅; outcomes := []; draws := []; disks := [] |} |} m ->
  p ∈ daemons m -> q ∈ daemons m -> p = q /\ files (m_disk m) !! pidFile home = Some (Itoa p).
Proof.
  intros Hs. assert (Hi : lock_inv m).
  { revert Hs. apply star_inv_ind; [intros s s'; apply lock_step_inv|]. split; [done|]. cbn. set_solver. }
  intros Hp Hq. destruct Hi as [_ Hi]. destruct (Hi p Hp) as (Hd & _ & Hf). split; [set_solver|exact Hf].
Qed.

(** The check and the write are not one step.  Two daemons that start at
    the same time on a machine without a pid file, or with one of a process
    that is gone, both pass the check and both run; the one that ends first
    removes the other's file, and a third one starts next to it. *)
Theorem overlapping_starts_both_run alive p1 p2 p3 w : no_faults w ->
  match files w !! pidFile home with
  | Some data => forall n, Atoi data = (n, None) -> alive n = false
  | None => True
  end ->
  let check := check_lock (Ok home) alive in
  exists w1 w2 w3 w4 w5 w6 w7,
    check w = (Ok (pidFile home), w1) /\ check w1 = (Ok (pidFile home), w2) /\
    write_pid (pidFile home) p1 w2 = (Ok tt, w3) /\ write_pid (pidFile home) p2 w3 = (Ok tt, w4) /\
    release (pidFile home) w4 = (Ok tt, w5) /\
    check_lock (Ok home) (fun p => bool_decide (p = p2) || alive p) w5 = (Ok (pidFile home), w6) /\
    write_pid (pidFile home) p3 w6 = (Ok tt, w7).
Proof.
  intros Hn Hfile check. unfold check.
  destruct (check_lock_quiet alive w Hn) as (w1 & Hc1 & Hf1 & Hn1).
  assert (Hfree : (match files w !! pidFile home with
                 | Some data => match Atoi data with (n, None) => alive n | _ => false end
                 | None => false end) = false).
  { destruct (files w !! pidFile home) as [data|]; [|done].
    destruct (Atoi data) as [n [e|]] eqn:E; [done|]. by apply Hfile. }
  rewrite Hfree in Hc1.
  destruct (check_lock_quiet alive w1 Hn1) as (w2 & Hc2 & Hf2 & Hn2). rewrite Hf1, Hfree in Hc2.
  destruct (write_pid_quiet (pidFile home) p1 w2 Hn2) as (w3 & Hw3 & Hf3 & Hn3).
  destruct (write_pid_quiet (pidFile home) p2 w3 Hn3) as (w4 & Hw4 & Hf4 & Hn4).
  destruct (release_quiet (pidFile home) w4 Hn4) as (w5 & Hr5 & Hf5 & Hn5).
  destruct (check_lock_quiet (fun p => bool_decide (p = p2) || alive p) w5 Hn5) as (w6 & Hc6 & Hf6 & Hn6).
  rewrite Hf5, lookup_delete_eq in Hc6.
  destruct (write_pid_quiet (pidFile home) p3 w6 Hn6) as (w7 & Hw7 & _).
  exists w1, w2, w3, w4, w5, w6, w7. auto 10.
Qed.
End LockProofs.

(** ** Theorems: the tunnel after a restart *)

Section ReconcileProofs.
Context {C E : Type} `{ConfigManagerLaws C} `{SSHExecutor E} `{LocalHost E}.

(** A configuration that still says [connected] after the reconciliation
    has an interface that exists, none at all, or could not be saved; nothing
    but the status changes.  The manager that is made next does not know of
    the connection: it says [disconnected], and disconnecting does nothing, so
    the interface stays up. *)
Theorem restart_forgets_tunnel awg (c : C) (e : E) :
  let '(c', e') := ReconcileStartupState awg c e in
  let t := Config.Tunnel (cfg_get c) in
  (cfg_get c' = cfg_get c \/ cfg_get c' = set_disconnected (cfg_get c)) /\
  (Config.Status (Config.Tunnel (cfg_get c')) = "connected" ->
   InterfaceName t = EmptyString \/ fst (InterfaceExists awg (InterfaceName t) e) = Ok true \/
   is_ok (fst (cfg_update set_disconnected c)) = false) /\
  let s := Tunnel.NewManager c' e' in
  Tunnel.Status s = "disconnected" /\ Disconnect awg s = (Ok tt, s).
Proof.
  unfold ReconcileStartupState. case_decide as Ht.
  - repeat split; auto. intros Hs. destruct Ht as [Ht|Ht]; [by destruct (Ht Hs)|auto].
  - destruct (InterfaceExists awg (InterfaceName (Config.Tunnel (cfg_get c))) e) as [[[]|m|m] e'] eqn:E0;
      [repeat split; cbn; auto|..];
      (split; [destruct (cfg_update_cases set_disconnected c); auto|]; split; [|done]; intros Hs; right; right;
       destruct (cfg_update_total set_disconnected c) as ([[]|msg|p] & c' & Eu & Hp); rewrite Eu in *; try done;
       apply cfg_update_ok in Eu; cbn [snd] in Hs; rewrite Eu in Hs; discriminate Hs).
Qed.
End ReconcileProofs.

(** ** Theorems: the SSH client *)

Section LazyProofs.
Context {C E : Type} `{ConfigManager C} `{GoSSH E} (config_dir home_dir : result string).

(** Whom the client connects to, and with what. *)
Definition target (c : ProvSSH.Client (E := E)) : string * string * string * string * string :=
  let v := ProvSSH.cfg c in (Host v, Username v, AuthMode v, Password v, PrivateKeyPath v).

Lemma target_onNet {A} (m : eff E A) : preserves target (onNet m).
Proof. apply preserves_on_part. done. Qed.
Lemma target_onDisk {A} (m : eff World A) : preserves target (onDisk m).
Proof. apply preserves_on_part. done. Qed.
Lemma target_ignoring {A} (f : E -> A * E) : preserves target (ignoring f).
Proof. by intros c. Qed.

Lemma target_connect : preserves target (connect config_dir).
Proof.
  intros c. unfold connect. rewrite bind_ok with (a := c) (w' := c) by done.
  set (c1 := if decide (SSHPort (ProvSSH.cfg c) = 0)%Z then ProvSSH.with_cfg (set_port 22 (ProvSSH.cfg c)) c else c).
  rewrite bind_ok with (a := tt) (w' := c1) by (unfold c1; by case_decide).
  transitivity (target c1); [|unfold c1; by case_decide].
  set (m := mbind _ _). assert (Hm : preserves target m); [|apply Hm]. unfold m.
  repeat (first [apply target_onNet | apply target_onDisk | apply preserves_get | apply preserves_wrap
    | apply preserves_const | apply preserves_bind; [|intros ?] | case_decide]).
Qed.

Lemma target_getSession : preserves target (getSession config_dir).
Proof.
  unfold getSession, dial_session. apply preserves_bind; [apply preserves_get|]. intros c.
  repeat (first [apply target_connect | apply target_onNet | apply target_ignoring | apply preserves_try
    | apply preserves_const | apply preserves_modify; done | apply preserves_bind; [|intros ?] | case_match]).
Qed.

Lemma target_on_session what cmd stdin c : target (snd (on_session config_dir what cmd stdin c)) = target c.
Proof.
  unfold on_session. pose proof (target_getSession c) as Hg.
  destruct (getSession config_dir c) as [[s|e|p] c1]; cbn in Hg; [|exact Hg..].
  destruct (gs_exec s cmd stdin (c_net c1)) as [r e2]. rewrite <- Hg. done.
Qed.

(** Commands, scripts, and whatever is done to the configuration. *)
Inductive lazy_step : lazySSHClient (C := C) (E := E) -> lazySSHClient (C := C) (E := E) -> Prop :=
  | lz_command cmd l : lazy_step l (snd (lazy_ExecuteCommand config_dir home_dir cmd l))
  | lz_script script l : lazy_step l (snd (lazy_ExecuteScript config_dir home_dir script l))
  | lz_config c l : lazy_step l {| l_cfgMgr := c; l_client := l_client l; l_net := l_net l; l_disk := l_disk l |}.

(** Once the client is built, no change of the VPS settings reaches it:
    every later command goes to the host, and as the user, it was built with. *)
Theorem ssh_settings_are_pinned l l' c : l_client l = Some c -> star lazy_step l l' ->
  exists c', l_client l' = Some c' /\ target c' = target c.
Proof.
  intros Hc Hs. revert Hs. refine (star_inv_ind lazy_step (fun l => exists c', l_client l = Some c' /\ target c' = target c) _ l l' _); [|eauto].
  intros s s' (c1 & Hc1 & Ht) Hstep. rewrite <- Ht. destruct Hstep as [cmd s|script s|cm s]; [..|by eauto].
  all: unfold lazy_ExecuteCommand, lazy_ExecuteScript, lazy_call, ensureClient; rewrite Hc1.
  - pose proof (target_on_session ("ssh: start " +:+ cmd +:+ ": ") cmd EmptyString c1) as Hx.
    unfold ExecuteCommand. destruct (on_session _ _ _ _ c1) as [out c2]. cbn in *. eauto.
  - pose proof (target_on_session "ssh: start bash script: " "bash -s" script c1) as Hx.
    unfold ExecuteScript. destruct (on_session _ _ _ _ c1) as [out c2]. cbn in *. eauto.
Qed.
End LazyProofs.

(** ** Theorems: certificates *)

Lemma CreateFile_inv name w w' : CreateFile name w = (Ok tt, w') -> files w' = <[name := EmptyString]> (files w).
Proof. unfold CreateFile, syscall. destruct (next_outcome w); by intros [= <-]. Qed.

Lemma write_pem_inv path type der w w' : write_pem path type der w = (Ok tt, w') ->
  files w' = <[path := pem_encode type der]> (files w).
Proof.
  unfold write_pem. intros H. apply bind_ok_inv in H as ([] & w1 & Hc & Ha). apply CreateFile_inv in Hc.
  unfold AppendTo, syscall in Ha. destruct (next_outcome w1); [done|]. injection Ha as <-.
  cbn. unfold append_data. rewrite Hc, lookup_insert_eq. cbn. by rewrite insert_insert_eq.
Qed.

Lemma Stat_inv name w s w' : Stat name w = (Ok s, w') -> files w' = files w /\
  (s = Present -> is_Some (files w !! name)) /\ (s = Absent -> files w !! name = None).
Proof.
  unfold Stat. intros [= <- <-]. split; [done|]. destruct (next_outcome w); [done|].
  case_decide as Hn; [done|]. split; [|done]. intros _. destruct (files w !! name); [eauto|done].
Qed.

(** After a successful check of the certificates either both files were
    there and have not been touched, or one was missing and both are new: a
    missing key also replaces the certificate that was there. *)
Theorem ensure_tls_outcome generate certPath keyPath w w' :
  certPath <> keyPath -> EnsureTLS generate certPath keyPath w = (Ok tt, w') ->
  (files w' = files w /\ is_Some (files w !! certPath) /\ is_Some (files w !! keyPath)) \/
  ((files w !! certPath = None \/ files w !! keyPath = None) /\
   exists der key, generate = Ok (der, key) /\
     files w' !! certPath = Some (pem_encode "CERTIFICATE" der) /\
     files w' !! keyPath = Some (pem_encode "EC PRIVATE KEY" key)).
Proof.
  intros Hne H. unfold EnsureTLS in H.
  apply bind_ok_inv in H as (cert & w1 & Hc & H). apply Stat_inv in Hc as (Hf1 & Hc1 & Hc2).
  apply bind_ok_inv in H as (key & w2 & Hk & H). apply Stat_inv in Hk as (Hf2 & Hk1 & Hk2).
  rewrite Hf1 in *.
  assert (Hgen : GenerateSelfSignedCert generate certPath keyPath w2 = (Ok tt, w') ->
    exists der key, generate = Ok (der, key) /\
     files w' !! certPath = Some (pem_encode "CERTIFICATE" der) /\
     files w' !! keyPath = Some (pem_encode "EC PRIVATE KEY" key)).
  { clear -Hne. intros H. unfold GenerateSelfSignedCert in H.
    apply bind_ok_inv in H as ([der k] & w3 & Hg & H). unfold lift in Hg. injection Hg as Hg <-.
    apply bind_ok_inv in H as ([] & w4 & _ & H). apply bind_ok_inv in H as ([] & w5 & Hcert & H).
    apply write_pem_inv in Hcert. apply write_pem_inv in H. exists der, k. split; [done|].
    rewrite H, Hcert. by rewrite lookup_insert_ne, !lookup_insert_eq. }
  assert (Hnew : files w !! certPath = None \/ files w !! keyPath = None ->
    GenerateSelfSignedCert generate certPath keyPath w2 = (Ok tt, w') ->
    (files w !! certPath = None \/ files w !! keyPath = None) /\ exists der key, generate = Ok (der, key) /\
     files w' !! certPath = Some (pem_encode "CERTIFICATE" der) /\
     files w' !! keyPath = Some (pem_encode "EC PRIVATE KEY" key)) by auto.
  destruct cert; [destruct key; [|right; auto|discriminate H]|right; auto|destruct key; [discriminate H|right; auto|discriminate H]].
  injection H as <-. left. rewrite Hf2. auto.
Qed.

Lemma Stat_quiet name w o os : outcomes w = o :: os ->
  Stat name w = (Ok (match o with Some e => StatError (f_err e)
                     | None => if decide (files w !! name = None) then Absent else Present end), after (files w) w).
Proof. intros Ho. unfold Stat, next_outcome. by rewrite Ho. Qed.

Lemma quiet_call f g w os : outcomes w = None :: os -> syscall f g w = (Ok tt, after (f (files w)) w).
Proof. intros Ho. unfold syscall, next_outcome. by rewrite Ho. Qed.

Lemma failing_call f g w e os : outcomes w = Some e :: os ->
  syscall f g w = (Err (f_err e), after (g (f_written e) (files w)) w).
Proof. intros Ho. unfold syscall, next_outcome. by rewrite Ho. Qed.

Lemma two_calls f g f' g' w os : outcomes w = None :: None :: os ->
  (_ ← syscall f g; syscall f' g') w = (Ok tt, after (f' (f (files w))) (after (f (files w)) w)).
Proof.
  intros Ho. rewrite (bind_ok _ _ _ _ _ (quiet_call _ _ _ _ Ho)). apply quiet_call with (os := os). cbn. by rewrite Ho.
Qed.

(** A key file that could only be written in part is kept for good: the
    first start fails, every later one finds both files and uses them. *)
Theorem torn_key_is_kept certPath keyPath der key e n fs :
  certPath <> keyPath -> fs !! certPath = None -> fs !! keyPath = None ->
  let fault := {| f_err := e; f_written := n |} in
  let w := {| files := fs; outcomes := [None; None; None; None; None; None; Some fault]; draws := []; disks := [] |} in
  let '(r, w1) := EnsureTLS (Ok (der, key)) certPath keyPath w in
  r = Err e /\ files w1 !! keyPath = Some (stake n (pem_encode "EC PRIVATE KEY" key)) /\
  forall gen, exists w2, EnsureTLS gen certPath keyPath w1 = (Ok tt, w2) /\ files w2 = files w1.
Proof.
  intros Hne Hc Hk fault w.
  set (pc := pem_encode "CERTIFICATE" der). set (pk := pem_encode "EC PRIVATE KEY" key).
  assert (Hgen : exists d, snd (EnsureTLS (Ok (der, key)) certPath keyPath w) = d /\
    fst (EnsureTLS (Ok (der, key)) certPath keyPath w) = Err e /\ outcomes d = [] /\
    files d = <[keyPath := stake n pk]> (<[certPath := pc]> fs)).
  { eexists. split; [reflexivity|]. unfold EnsureTLS.
    erewrite bind_ok; [|eapply Stat_quiet; reflexivity]. cbn [files w]. rewrite decide_True by done.
    erewrite bind_ok; [|eapply Stat_quiet; reflexivity].
    cbn [files after].
    unfold GenerateSelfSignedCert. erewrite bind_ok; [|reflexivity]. cbv beta iota.
    unfold MkdirAll, write_pem, CreateFile, AppendTo. fold pc pk.
    erewrite bind_ok; [|eapply quiet_call; reflexivity].
    erewrite bind_ok; [|eapply two_calls; reflexivity].
    erewrite bind_ok; [|eapply quiet_call; reflexivity].
    erewrite failing_call; [|reflexivity]. cbn [fst snd outcomes files after w fault f_written f_err tail id].
    split; [done|]. split; [done|]. unfold append_data.
    rewrite !lookup_insert_eq. cbn [default]. by rewrite !insert_insert_eq. }
  destruct (EnsureTLS (Ok (der, key)) certPath keyPath w) as [r w1]. cbn [fst snd] in Hgen.
  destruct Hgen as (d & <- & -> & Ho & Hf). assert (Hkey : files w1 !! keyPath = Some (stake n pk)) by (by rewrite Hf, lookup_insert_eq).
  split; [done|]. split; [done|]. intros gen. unfold EnsureTLS, Stat, next_outcome, mbind, eff_bind.
  destruct w1 as [f1 o1 dr1 ds1]. cbn in Ho, Hf, Hkey |- *. subst o1 f1. cbn.
  rewrite Hkey, lookup_insert_ne, lookup_insert_eq by done. rewrite !decide_False by done.
  eexists. split; [reflexivity|]. done.
Qed.

(** ** Theorems: the remote API *)

Section SetupProofs.
Context {C : Type} `{ConfigManagerLaws C}.

Lemma setup_key cd rnd (s s' : setup (C := C)) d : setupRemoteAPI cd rnd s = (Some d, s') ->
  NewJWTIssuer (JWTSigningKey (Daemon (cfg_get (s_cfg s')))) = Ok (d_issuer d) /\
  Config.Enabled (RemoteAPI (cfg_get (s_cfg s'))) = true.
Proof.
  unfold setupRemoteAPI. destruct (setupRemoteAPI_run cd rnd s) as [[od|e|p] s1] eqn:E; [|done..].
  intros [= -> ->]. unfold setupRemoteAPI_run in E. rewrite bind_ok with (a := s) (w' := s) in E by done.
  cbv zeta in E. destruct (Config.Enabled (RemoteAPI (cfg_get (s_cfg s)))) eqn:Hen; [|discriminate E]. cbn [negb] in E.
  apply bind_ok_inv in E as (dir & s1 & Hdir & E). unfold lift in Hdir. injection Hdir as _ <-.
  apply bind_ok_inv in E as (key & s2 & Hkey & E).
  apply bind_ok_inv in E as (iss & s3 & Hiss & E). unfold lift in Hiss. injection Hiss as Hiss <-.
  apply bind_ok_inv in E as ([] & s4 & Hlog & E). injection E as <- <-. cbn [d_issuer].
  assert (Hcfg : s_cfg s4 = s_cfg s2).
  { unfold onSetupDisk, on_part in Hlog. destruct (NewLogger _ _ _) as [? ?]. by injection Hlog as _ <-. }
  rewrite Hcfg.
  case_decide as Hempty.
  - apply bind_ok_inv in Hkey as (bytes & s5 & Hb & Hkey). unfold lift in Hb. injection Hb as _ <-.
    apply bind_ok_inv in Hkey as ([] & s6 & Hu & Hkey). injection Hkey as <- <-.
    unfold onSetupCfg, on_part in Hu. destruct (cfg_update _ (s_cfg s)) as [r c'] eqn:Eu. injection Hu as -> <-.
    apply cfg_update_ok in Eu. cbn [s_cfg]. rewrite Eu. cbn. split; [exact Hiss|exact Hen].
  - injection Hkey as <- <-. split; [exact Hiss|exact Hen].
Qed.

(** The key that signs the sessions is the one in the configuration: when
    the remote API is set up, by a fresh key or a saved one, every later
    set-up that succeeds signs and checks with the same key, whatever random
    bytes it has, so that sessions outlive a restart. *)
Theorem jwt_key_survives_restart cd rnd rnd' (s s' s'' : setup (C := C)) d d' w :
  setupRemoteAPI cd rnd s = (Some d, s') ->
  setupRemoteAPI cd rnd' {| s_cfg := s_cfg s'; s_disk := w |} = (Some d', s'') ->
  d_issuer d' = d_issuer d /\ s_cfg s'' = s_cfg s'.
Proof.
  intros H1 H2. apply setup_key in H1 as [Hk Hen].
  assert (Hsame : s_cfg s'' = s_cfg s').
  { unfold setupRemoteAPI in H2. destruct (setupRemoteAPI_run cd rnd' _) as [[od|e|p] s1] eqn:E; [|done..].
    injection H2 as -> ->. unfold setupRemoteAPI_run in E.
    rewrite bind_ok with (a := {| s_cfg := s_cfg s'; s_disk := w |}) (w' := {| s_cfg := s_cfg s'; s_disk := w |}) in E by done.
    cbv zeta in E. cbn [s_cfg] in E. rewrite Hen in E. cbn [negb] in E.
    assert (Hne : JWTSigningKey (Daemon (cfg_get (s_cfg s'))) <> EmptyString).
    { intros He. rewrite He in Hk. vm_compute in Hk. discriminate Hk. }
    rewrite decide_False in E by done.
    apply bind_ok_inv in E as (dir & s2 & Hdir & E). injection Hdir as _ <-.
    apply bind_ok_inv in E as (key & s3 & Hkey & E). injection Hkey as <- <-.
    apply bind_ok_inv in E as (iss & s4 & Hiss & E). injection Hiss as _ <-.
    apply bind_ok_inv in E as ([] & s5 & Hlog & E). injection E as <- <-.
    unfold onSetupDisk, on_part in Hlog. destruct (NewLogger _ _ _) as [? ?]. by injection Hlog as _ <-. }
  split; [|exact Hsame]. apply setup_key in H2 as [Hk' _]. rewrite Hsame, Hk in Hk'. congruence.
Qed.
End SetupProofs.

(** ** Theorems: the end of the process *)

Section MainProofs.
Context {C E : Type} `{ConfigManager C} `{LocalHost E} (en : surroundings).
Implicit Types p : process (C := C) (E := E).

Lemma main_run_app e1 e2 p : main_run en (e1 ++ e2) p = main_run en e2 (main_run en e1 p).
Proof. apply foldl_app. Qed.

Lemma main_run_cons ev evs p : main_run en (ev :: evs) p = main_run en evs (main_step en ev p).
Proof. done. Qed.

Lemma main_run_ended evs p e : ended p = Some e -> main_run en evs p = p.
Proof.
  intros He. induction evs as [|ev evs IH]; [done|]. cbn. unfold main_step at 2. by rewrite He.
Qed.

(** While the remote API is served, [main] does not get on, and a signal is
    not caught. *)
Lemma killed_while_serving evs p : serving p = true -> notified p = false -> ended p = None ->
  ServeEnds ∉ evs -> Signal ∈ evs -> main_run en evs p = ends Killed p.
Proof.
  intros Hs Hn He Hno Hin. induction evs as [|ev evs IH]; [by apply elem_of_nil in Hin|].
  apply not_elem_of_cons in Hno as [Hev Hno]. rewrite main_run_cons. unfold main_step. rewrite He. destruct ev; [|by rewrite Hn; apply (main_run_ended _ _ Killed)|done].
  unfold blocked. rewrite Hs. cbn [orb]. apply IH; [done|]. by apply elem_of_cons in Hin as [|].
Qed.

(** How often [main] gets to run. *)
Fixpoint turns (evs : list event) : nat :=
  match evs with [] => 0 | Runs :: evs' => S (turns evs') | _ :: evs' => turns evs' end.

(** Where [main] stands after [signal.Notify], [k] statements after it. *)
Record past_notify (k : nat) path d p : Prop := {
  pn_todo : todo p = drop k [DoReceive; DoStopRemote; DoCancel];
  pn_sig : k = 0 -> sig p = true;
  pn_serving : serving p = false;
  pn_notified : notified p = true;
  pn_ended : ended p = None;
  pn_defers : defers p = [CancelContext; CleanupLock];
  pn_lock : lock p = Some path;
  pn_disk : disk p = d
}.

Lemma past_notify_runs k path d p : k < 3 -> past_notify k path d p ->
  past_notify (S k) path d (main_step en Runs p).
Proof.
  intros Hk [Ht Hg Hs Hn He Hd Hl Hw]. unfold main_step, blocked. rewrite He, Hs, Ht. cbn [orb].
  destruct k as [|[|[|k]]]; [| | |lia]; cbn [drop].
  - rewrite (Hg eq_refl). by constructor.
  - cbn. destruct (remoteSrv p) eqn:Hr; by constructor.
  - by constructor.
Qed.

Lemma returns_after_signal path d evs k p : past_notify k path d p -> k <= 3 -> 4 <= k + turns evs ->
  ended (main_run en evs p) = Some Returned /\ disk (main_run en evs p) = snd (release path d).
Proof.
  revert k p. induction evs as [|ev evs IH]; intros k p Hp Hk Hlen; [cbn in Hlen; lia|].
  destruct ev; cbn [turns] in Hlen; rewrite main_run_cons.
  - destruct (decide (k = 3)) as [->|Hne].
    + destruct Hp as [Ht Hg Hs Hn He Hd Hl Hw]. unfold main_step, blocked.
      rewrite He, Hs, Ht. cbn [orb drop]. unfold returns. rewrite Hd. cbn [foldl run_deferred].
      cbn [lock cancel]. rewrite Hl. rewrite (main_run_ended evs _ Returned) by done. cbn. by rewrite <- Hw.
    + apply (IH (S k)); [apply past_notify_runs; [lia|done]|lia|lia].
  - destruct Hp as [Ht Hg Hs Hn He Hd Hl Hw]. unfold main_step. rewrite He, Hn.
    apply (IH k); [by constructor|lia|lia].
  - destruct Hp as [Ht Hg Hs Hn He Hd Hl Hw]. unfold main_step. rewrite He.
    apply (IH k); [by constructor|lia|lia].
Qed.

Lemma main_stays n p : main_step en Runs p = p -> main_run en (replicate n Runs) p = p.
Proof. intros Hp. induction n as [|n IH]; [done|]. cbn. by rewrite Hp. Qed.

(** Whether the remote API is up after the start: it was set up, and its
    [Start] got as far as serving. *)
Definition serves (r : option remote_deps) (s : setup (C := C)) : bool :=
  match r with
  | None => false
  | Some _ => match Start_listening (new_cert en) (config_dir en) (RemoteAPI (cfg_get (s_cfg s))) (s_disk s) with
              | (Ok (Some _), _) => true
              | _ => false
              end
  end.
Definition after_start (r : option remote_deps) (s : setup (C := C)) : World :=
  match r with
  | None => s_disk s
  | Some _ => snd (Start_listening (new_cert en) (config_dir en) (RemoteAPI (cfg_get (s_cfg s))) (s_disk s))
  end.

(** [main] runs its next statement. *)
#[local] Ltac turn := rewrite main_run_cons; unfold main_step at 1; cbn [ended todo blocked serving orb with_todo push locked with_part with_disk with_remote].

(** The start of a daemon that nothing stops, up to the call of
    [remoteSrv.Start] and through it. *)
Lemma main_starts c w e cli path w1 :
  checks_pass en = true -> acquireLockPIDFile (home en) (is_alive en) (own_pid en) w = (Ok path, w1) ->
  config_ok en = true -> awg en = Some cli -> listen_ok en = true ->
  let '(c1, e1) := ReconcileStartupState cli c e in
  let '(r, s) := setupRemoteAPI (config_dir en) (key_bytes en) {| s_cfg := c1; s_disk := w1 |} in
  main_run en (replicate 10 Runs) (boot c w e) =
    {| todo := [DoNotify; DoReceive; DoStopRemote; DoCancel]; defers := [CancelContext; CleanupLock];
       lock := Some path; part := {| s_cfg := s_cfg s; s_disk := after_start r s |}; host := e1; remoteSrv := r;
       serving := serves r s; notified := false; sig := false; ctx_done := false; ended := None |}.
Proof.
  intros Hc Hl Hm Ha Hs.
  destruct (ReconcileStartupState cli c e) as [c1 e1] eqn:Hr.
  destruct (setupRemoteAPI _ _ _) as [r s] eqn:Hset.
  unfold boot, main_body. cbn [replicate].
  turn. unfold exec at 1. rewrite Hc.
  turn. unfold exec at 1. unfold disk. cbn [part with_todo s_disk]. rewrite Hl.
  turn. cbn [exec].
  turn. unfold exec at 1. rewrite Hm.
  turn. unfold exec at 1. rewrite Ha.
  turn. unfold exec at 1. rewrite Ha. cbn [part with_todo with_disk with_part push locked s_cfg host]. rewrite Hr.
  turn. unfold exec at 1. cbn [part with_todo with_disk with_part push locked s_cfg host disk s_disk]. rewrite Hset.
  turn. cbn [exec].
  turn. unfold exec at 1. rewrite Hs.
  turn. unfold exec, disk. cbn. unfold serves, after_start.
  destruct r as [deps|]; [|by destruct s].
  by destruct (Start_listening _ _ _ _) as [[[u|]|x|x] w2].
Qed.

(** C13: the daemon that has started ends in order on a signal, and its pid file
    is removed, only without a remote API.  [main] is run statement by
    statement: with one that is up it stands in the call that serves it, where
    the signal, which it has not asked for yet, kills the process: no deferred
    call runs, and the disk stays as it is, with the pid file.  Without one, or
    when it does not come up, [main] returns and the cleanup runs, whatever
    other signals arrive. *)
Theorem remote_api_prevents_clean_exit c w e cli path w1 n evs :
  checks_pass en = true -> acquireLockPIDFile (home en) (is_alive en) (own_pid en) w = (Ok path, w1) ->
  config_ok en = true -> awg en = Some cli -> listen_ok en = true ->
  11 <= n -> ServeEnds ∉ evs -> 4 <= turns evs ->
  let '(c1, _) := ReconcileStartupState cli c e in
  let '(r, s) := setupRemoteAPI (config_dir en) (key_bytes en) {| s_cfg := c1; s_disk := w1 |} in
  let p := main_run en (replicate n Runs ++ Signal :: evs) (boot c w e) in
  if serves r s then ended p = Some Killed /\ disk p = after_start r s
  else ended p = Some Returned /\ disk p = snd (release path (after_start r s)).
Proof.
  intros Hc Hl Hm Ha Hs Hn Hno Hev. pose proof (main_starts c w e cli path w1 Hc Hl Hm Ha Hs) as Hst.
  destruct (ReconcileStartupState cli c e) as [c1 e1].
  destruct (setupRemoteAPI _ _ _) as [r s].
  replace n with (10 + (1 + (n - 11))) by lia. rewrite replicate_add, replicate_add, <- !app_assoc.
  rewrite main_run_app, Hst. clear Hst. destruct (serves r s).
  - rewrite app_assoc, <- replicate_add, main_run_app, main_stays by done.
    rewrite killed_while_serving; [done..|set_solver|set_solver].
  - rewrite main_run_app. cbn [replicate main_run foldl]. rewrite main_run_app, main_stays by done.
    rewrite main_run_cons. by apply (returns_after_signal path (after_start r s) evs 0); [constructor|lia|].
Qed.
End MainProofs.
(** ** Witnesses *)

Definition empty_disk : World := {| files := ∅; outcomes := []; draws := []; disks := [] |}.

Lemma one_instance_at_a_time_witness :
  exists w, files w !! pidFile "/root" = Some "42" /\ (42%Z = 42%Z).
Proof.
  set (r := acquireLockPIDFile (Ok "/root") (fun p => bool_decide (p ∈ (∅ ∪ ∅ : gset Z))) 42 empty_disk).
  exists (snd r).
  destruct (one_instance_at_a_time "/root" ∅ {| daemons := {[42%Z]} ∪ ∅; m_disk := snd r |} 42 42) as [H1 H2].
  - eapply star_snoc; [apply star_nil|]. refine (lk_start "/root" ∅ 42 {| daemons := ∅; m_disk := empty_disk |} (pidFile "/root") (snd r) _ _ _ _);
      cbn [daemons m_disk].
    + set_solver.
    + set_solver.
    + unfold int64_max. lia.
    + vm_compute. reflexivity.
  - cbn. set_solver.
  - cbn. set_solver.
  - split; [exact H2|exact H1].
Defined.

Lemma overlapping_starts_both_run_witness :
  let check := check_lock (Ok "/root") (fun _ => false) in
  exists w1 w2 w3 w4 w5 w6 w7,
    check empty_disk = (Ok (pidFile "/root"), w1) /\ check w1 = (Ok (pidFile "/root"), w2) /\
    write_pid (pidFile "/root") 1 w2 = (Ok tt, w3) /\ write_pid (pidFile "/root") 2 w3 = (Ok tt, w4) /\
    release (pidFile "/root") w4 = (Ok tt, w5) /\
    check_lock (Ok "/root") (fun p => bool_decide (p = 2%Z) || false) w5 = (Ok (pidFile "/root"), w6) /\
    write_pid (pidFile "/root") 3 w6 = (Ok tt, w7).
Proof. apply (overlapping_starts_both_run "/root" (fun _ => false) 1 2 3 empty_disk); done. Defined.

Lemma ensure_tls_outcome_witness :
  let r := EnsureTLS (Ok ("D", "K")) "/c/cert.pem" "/c/key.pem" empty_disk in
  (files (snd r) = ∅ /\ is_Some (files empty_disk !! "/c/cert.pem") /\ is_Some (files empty_disk !! "/c/key.pem")) \/
  ((files empty_disk !! "/c/cert.pem" = None \/ files empty_disk !! "/c/key.pem" = None) /\
   exists der key, Ok ("D", "K") = Ok (der, key) /\
     files (snd r) !! "/c/cert.pem" = Some (pem_encode "CERTIFICATE" der) /\
     files (snd r) !! "/c/key.pem" = Some (pem_encode "EC PRIVATE KEY" key)).
Proof.
  intros r. apply (ensure_tls_outcome (Ok ("D", "K")) "/c/cert.pem" "/c/key.pem" empty_disk (snd r));
    [discriminate|vm_compute; reflexivity].
Defined.

Lemma torn_key_is_kept_witness :
  let fault := {| f_err := "ENOSPC"; f_written := 0 |} in
  let w := {| files := ∅; outcomes := [None; None; None; None; None; None; Some fault]; draws := []; disks := [] |} in
  let '(r, w1) := EnsureTLS (Ok ("D", "K")) "/c/cert.pem" "/c/key.pem" w in
  r = Err "ENOSPC" /\ files w1 !! "/c/key.pem" = Some (stake 0 (pem_encode "EC PRIVATE KEY" "K")) /\
  forall gen, exists w2, EnsureTLS gen "/c/cert.pem" "/c/key.pem" w1 = (Ok tt, w2) /\ files w2 = files w1.
Proof. apply (torn_key_is_kept "/c/cert.pem" "/c/key.pem" "D" "K" "ENOSPC" 0 ∅); [discriminate|done..]. Defined.

Section InstanceWitnesses.
#[local] Existing Instance plain_config.
#[local] Existing Instance plain_config_laws.
#[local] Existing Instance echo_server.
#[local] Instance a_host : LocalHost unit := quiet_host "K".
#[local] Instance a_ssh : GoSSH (gset nat) := echo_ssh "ok".

Lemma restart_forgets_tunnel_witness :
  let c := set_Tunnel (set_status "connected" "t" (Config.Tunnel ready_config)) ready_config in
  let '(c', e') := ReconcileStartupState (E := unit) awg_cli c tt in
  Tunnel.Status (Tunnel.NewManager (C := RootConfig) (E := unit) c' e') = "disconnected".
Proof.
  intros c. pose proof (restart_forgets_tunnel (C := RootConfig) (E := unit) awg_cli c tt) as H.
  destruct (ReconcileStartupState awg_cli c tt) as [c' e']. apply H.
Defined.

Lemma ssh_settings_are_pinned_witness :
  let cl := {| ProvSSH.cfg := VPS ready_config; ProvSSH.client := None; c_net := ∅; c_disk := empty_disk |} in
  let l := {| l_cfgMgr := ready_config; l_client := Some cl; l_net := ∅; l_disk := empty_disk |} in
  let l' := {| l_cfgMgr := defaultConfig EmptyString; l_client := Some cl; l_net := ∅; l_disk := empty_disk |} in
  exists c', l_client (snd (lazy_ExecuteCommand (C := RootConfig) (E := gset nat) (Ok "/c") (Ok "/h") "uptime" l')) = Some c' /\
    target c' = target cl.
Proof.
  intros cl l l'.
  apply (ssh_settings_are_pinned (C := RootConfig) (E := gset nat) (Ok "/c") (Ok "/h") l); [reflexivity|].
  eapply star_snoc; [eapply star_snoc; [apply star_nil|exact (lz_config (Ok "/c") (Ok "/h") (defaultConfig EmptyString) l)]|].
  apply lz_command.
Defined.

Definition remote_config : RootConfig :=
  set_jwt_key EmptyString
    {| VPS := VPS ready_config; Config.Tunnel := Config.Tunnel ready_config; CaddyAPI := CaddyAPI ready_config;
       ExposedPorts := []; DNS := DNS ready_config; Daemon := Daemon ready_config;
       RemoteAPI := {| Config.Enabled := true; ListenAddr := EmptyString; RTLSCert := EmptyString; RTLSKey := EmptyString |};
       ServerMirror := EmptyString; UIToken := EmptyString |}.

Definition key_a : string := "0123456789abcdef0123456789abcdef".
Definition key_b : string := "fedcba9876543210fedcba9876543210".

Lemma jwt_key_survives_restart_witness :
  let s := {| s_cfg := remote_config; s_disk := empty_disk |} in
  let r1 := setupRemoteAPI (C := RootConfig) (Ok "/c") (Ok key_a) s in
  let r2 := setupRemoteAPI (C := RootConfig) (Ok "/c") (Ok key_b) {| s_cfg := s_cfg (snd r1); s_disk := empty_disk |} in
  exists d d', fst r1 = Some d /\ fst r2 = Some d' /\ d_issuer d' = d_issuer d.
Proof.
  intros s r1 r2.
  set (d := {| d_tokens := "/c/tokens.json"; d_issuer := {| signingKey := key_a; jttl := defaultJWTTTL |};
               d_audit := "/c/audit.jsonl" |}).
  exists d, d. split; [vm_compute; reflexivity|]. split; [vm_compute; reflexivity|].
  apply (jwt_key_survives_restart (C := RootConfig) (Ok "/c") (Ok key_a) (Ok key_b) s (snd r1) (snd r2) d d empty_disk);
    vm_compute; reflexivity.
Defined.

Definition w_surroundings : surroundings :=
  {| checks_pass := true; home := Ok "/root"; is_alive := fun _ => false; own_pid := 42; config_ok := true;
     awg := Some awg_cli; config_dir := Ok "/c"; key_bytes := Ok key_a; listen_ok := true;
     new_cert := Ok ("D", "K") |}.
Definition w_run (c : RootConfig) : process (C := RootConfig) (E := unit) :=
  main_run w_surroundings (replicate 12 Runs ++ Signal :: replicate 5 Runs) (boot c empty_disk tt).

(** With the remote API the pid file stays behind, without it is gone. *)
Lemma remote_api_prevents_clean_exit_witness :
  (ended (w_run remote_config) = Some Killed /\
   files (disk (w_run remote_config)) !! "/root/.unet/unet.pid" = Some "42") /\
  (ended (w_run ready_config) = Some Returned /\
   files (disk (w_run ready_config)) !! "/root/.unet/unet.pid" = None).
Proof.
  set (w1 := snd (acquireLockPIDFile (Ok "/root") (fun _ => false) 42 empty_disk)).
  split.
  - destruct (remote_api_prevents_clean_exit w_surroundings remote_config empty_disk tt awg_cli
      "/root/.unet/unet.pid" w1 12 (replicate 5 Runs)) as [H1 H2]; try reflexivity; [lia|set_solver|cbn; lia|].
    split; [exact H1|]. etrans; [exact (f_equal (fun w => files w !! "/root/.unet/unet.pid") H2)|]. vm_compute. reflexivity.
  - destruct (remote_api_prevents_clean_exit w_surroundings ready_config empty_disk tt awg_cli
      "/root/.unet/unet.pid" w1 12 (replicate 5 Runs)) as [H1 H2]; try reflexivity; [lia|set_solver|cbn; lia|].
    split; [exact H1|]. etrans; [exact (f_equal (fun w => files w !! "/root/.unet/unet.pid") H2)|]. vm_compute. reflexivity.
Defined.
End InstanceWitnesses.
