(* ===== verification/Sockets.v ===== *)
(** * tunnel/local_proxy.go, the dial of proxy/caddy.go, the probes of
      lifecycle/health and platform/network_monitor.go: TCP connections

    [Ports] has the proxy's [Start] and [Stop]; here are the goroutines they
    start and end: the accept loop and, for each connection, the two copies
    between the client and the local service.  A connection is two streams of
    bytes; what the peers send, what the copies move and how they end are
    events, in any order the program allows.  The second part is what the
    program dials and what it makes of the answer. *)

From S2P Require Import Prelude GoLib Config Middleware Health Caddy Ports.

(** ** One connection: [handleConn] *)
Module Relay.

(** Bytes one peer has sent and that no copy has read, whether it has ended its
    side, what was written to the other peer, and whether that peer was told
    that nothing follows ([CloseWrite]). *)
Record stream := { waiting : string; ended : bool; passed : string; shut : bool }.

Inductive phase := Dialling | Copying | Closed.

(** [up] runs from the client to the service, [down] back.  [cancelled] is the
    context of the accept loop that took the connection. *)
Record conn := { up : stream; down : stream; at_ : phase; cancelled : bool }.

Definition silent : stream := {| waiting := ""; ended := false; passed := ""; shut := false |}.
Definition accepted : conn := {| up := silent; down := silent; at_ := Dialling; cancelled := false |}.

Definition sends (b : string) (s : stream) : option stream :=
  if ended s then None
  else Some {| waiting := waiting s +:+ b; ended := false; passed := passed s; shut := shut s |}.
Definition ends (s : stream) : stream :=
  {| waiting := waiting s; ended := true; passed := passed s; shut := shut s |}.
Definition close_write (s : stream) : stream :=
  {| waiting := waiting s; ended := ended s; passed := passed s; shut := true |}.

(** One round of [io.Copy]: up to [S n] bytes are read and written; at the end
    of the source it returns and [CloseWrite] follows.  It blocks ([None])
    while there is nothing to read. *)
Definition copy (n : nat) (s : stream) : option stream :=
  if shut s then None
  else if decide (waiting s = EmptyString) then if ended s then Some (close_write s) else None
  else Some {| waiting := sdrop (S n) (waiting s); ended := ended s;
               passed := passed s +:+ stake (S n) (waiting s); shut := false |}.

(** [io.Copy] returns with an error, after [n] more bytes. *)
Definition copy_fails (n : nat) (s : stream) : option stream :=
  if shut s then None
  else Some {| waiting := sdrop n (waiting s); ended := ended s;
               passed := passed s +:+ stake n (waiting s); shut := true |}.

Inductive event :=
  | ClientSends (b : string) | ClientEnds
  | ServiceSends (b : string) | ServiceEnds
  | Dialled (ok : bool)
  | CopyUp (n : nat) | CopyDown (n : nat)
  | UpFails (n : nat) | DownFails (n : nat).

Definition with_up (s : stream) (c : conn) : conn :=
  {| up := s; down := down c; at_ := at_ c; cancelled := cancelled c |}.
Definition with_down (s : stream) (c : conn) : conn :=
  {| up := up c; down := s; at_ := at_ c; cancelled := cancelled c |}.
Definition in_phase (p : phase) (c : conn) : conn :=
  {| up := up c; down := down c; at_ := p; cancelled := cancelled c |}.

(** The handler itself runs the copy to the client; when that returns, the
    deferred calls close both connections. *)
Definition after_down (s : stream) (c : conn) : conn :=
  in_phase (if shut s then Closed else at_ c) (with_down s c).

Definition copying (c : conn) : option unit :=
  match at_ c with Copying => Some tt | _ => None end.
Definition alive (c : conn) : option unit :=
  match at_ c with Closed => None | _ => Some tt end.

Definition handle (e : event) (c : conn) : option conn :=
  match e with
  | Dialled ok =>
      match at_ c with
      | Dialling => if ok && cancelled c then None
                    else Some (in_phase (if ok then Copying else Closed) c)
      | _ => None
      end
  | ClientSends b => _ ← alive c; s ← sends b (up c); Some (with_up s c)
  | ClientEnds => _ ← alive c; Some (with_up (ends (up c)) c)
  | ServiceSends b => _ ← copying c; s ← sends b (down c); Some (with_down s c)
  | ServiceEnds => _ ← copying c; Some (with_down (ends (down c)) c)
  | CopyUp n => _ ← copying c; s ← copy n (up c); Some (with_up s c)
  | UpFails n => _ ← copying c; s ← copy_fails n (up c); Some (with_up s c)
  | CopyDown n => _ ← copying c; s ← copy n (down c); Some (after_down s c)
  | DownFails n => _ ← copying c; s ← copy_fails n (down c); Some (after_down s c)
  end.

Fixpoint handle_all (es : list event) (c : conn) : option conn :=
  match es with
  | [] => Some c
  | e :: es => c' ← handle e c; handle_all es c'
  end.

(** What the peers have sent in a run. *)
Fixpoint client_bytes (es : list event) : string :=
  match es with
  | ClientSends b :: es => b +:+ client_bytes es
  | _ :: es => client_bytes es
  | [] => EmptyString
  end.
Fixpoint service_bytes (es : list event) : string :=
  match es with
  | ServiceSends b :: es => b +:+ service_bytes es
  | _ :: es => service_bytes es
  | [] => EmptyString
  end.

(** Copies to the client in rounds of [S n] bytes until it blocks. *)
Fixpoint drain (fuel n : nat) (c : conn) : conn :=
  match fuel with
  | O => c
  | S fuel => match handle (CopyDown n) c with Some c' => drain fuel n c' | None => c end
  end.
End Relay.

(** ** The accept loop, between [Start] and [Stop] *)
Module Loop.
Import Relay.

(** The sockets of this process: the open listeners and the next free port. *)
Record world := { listening : gset Z; free_port : Z }.

#[global] Instance world_listeners : Listeners world := {|
  Listen addr w := (Ok (free_port w),
    {| listening := {[free_port w]} ∪ listening w; free_port := (free_port w + 1)%Z |});
  CloseListener p w := {| listening := listening w ∖ {[p]}; free_port := free_port w |}
|}.

(** [goroutines] counts the accept loops that run, [stopping] is a [Stop] that
    holds the lock and waits for [done], [ctx_done] the cancelled context. *)
Record proxy := {
  px : LocalTCPProxy; sockets : world; goroutines : nat; ctx_done : bool; stopping : bool;
  conns : gmap nat conn; taken : nat; warnings : nat
}.

Definition idle (tunnel_ip target : string) (w : world) : proxy :=
  {| px := NewLocalTCPProxy tunnel_ip target; sockets := w; goroutines := 0; ctx_done := false;
     stopping := false; conns := ∅; taken := 0; warnings := 0 |}.

Definition cancel (c : conn) : conn :=
  {| up := up c; down := down c; at_ := at_ c; cancelled := true |}.

Inductive loop_event :=
  | StartCall | StopCall | StopReturns
  | Incoming | AcceptFails
  | OnConn (i : nat) (e : event).

(** The listener of the loop is open. *)
Definition open (p : proxy) : bool := bool_decide (listenPort (px p) ∈ listening (sockets p)).

(** [Start] and [Stop] of [Ports], with the goroutine and the context. *)
Definition start_call (p : proxy) : option proxy :=
  if stopping p then None
  else match Start (px p) (sockets p) with
       | (Ok (_, px'), w) =>
           Some {| px := px'; sockets := w; stopping := false; taken := taken p;
                   goroutines := if running (px p) then goroutines p else S (goroutines p);
                   ctx_done := if running (px p) then ctx_done p else false;
                   conns := conns p; warnings := warnings p |}
       | (_, w) => Some {| px := px p; sockets := w; stopping := false; taken := taken p;
                           goroutines := goroutines p; ctx_done := ctx_done p;
                           conns := conns p; warnings := warnings p |}
       end.

Definition stop_call (p : proxy) : option proxy :=
  if stopping p then None
  else match Stop (px p) (sockets p) with
       | (Ok px', w) =>
           Some {| px := px'; sockets := w; stopping := running (px p); taken := taken p;
                   goroutines := goroutines p;
                   ctx_done := if running (px p) then true else ctx_done p;
                   conns := if running (px p) then cancel <$> conns p else conns p;
                   warnings := warnings p |}
       | _ => None
       end.

Definition loop_step (e : loop_event) (p : proxy) : option proxy :=
  match e with
  | StartCall => start_call p
  | StopCall => stop_call p
  | StopReturns =>
      if stopping p && bool_decide (goroutines p = 0)
      then Some {| px := px p; sockets := sockets p; goroutines := 0; ctx_done := ctx_done p;
                   stopping := false; conns := conns p; taken := taken p; warnings := warnings p |}
      else None
  | Incoming =>
      if bool_decide (0 < goroutines p) && open p
      then Some {| px := px p; sockets := sockets p; goroutines := goroutines p;
                   ctx_done := ctx_done p; stopping := stopping p;
                   conns := <[taken p := if ctx_done p then cancel accepted else accepted]> (conns p);
                   taken := S (taken p); warnings := warnings p |}
      else None
  | AcceptFails =>
      if bool_decide (0 < goroutines p)
      then Some {| px := px p; sockets := sockets p;
                   goroutines := if ctx_done p then pred (goroutines p) else goroutines p;
                   ctx_done := ctx_done p; stopping := stopping p; conns := conns p;
                   taken := taken p;
                   warnings := if ctx_done p then warnings p else S (warnings p) |}
      else None
  | OnConn i e =>
      c ← conns p !! i; c' ← handle e c;
      Some {| px := px p; sockets := sockets p; goroutines := goroutines p; ctx_done := ctx_done p;
              stopping := stopping p; conns := <[i := c']> (conns p); taken := taken p;
              warnings := warnings p |}
  end.

Fixpoint loop_run (es : list loop_event) (p : proxy) : option proxy :=
  match es with
  | [] => Some p
  | e :: es => p' ← loop_step e p; loop_run es p'
  end.
End Loop.

(** ** What the program dials, and what it makes of the answer *)
Module Dial.

(** A call of [net.Dialer]: the source address asked for ([None]: any), the
    network, the address and the timeout. *)
Record request := { from : option (list Z); network : string; address : string; timeout : Z }.

(** The network outside: a dial that succeeds gives a connection, and a GET
    gives a status. *)
Class Network (E : Type) := {
  DialContext : request -> eff E unit;
  NewRequest : string -> result unit;
  Do : string -> Z -> eff E Z
}.

Section Dial.
Context {E : Type} `{Network E}.

Definition five_seconds : Z := 5 * 1000000000.
Definition three_seconds : Z := 3 * 1000000000.

(** [dialThroughTunnel]: the dial it asks for. *)
Definition tunnel_request (cfg : RootConfig) (net addr : string) : result request :=
  let localIP := LocalIP (Config.Tunnel cfg) in
  if decide (localIP = EmptyString) then Err "proxy: tunnel local IP not configured"
  else match SplitHostPort addr with
       | None => Err ("proxy: invalid address " +:+ addr)
       | Some (host, port) =>
           Ok {| from := ParseIP localIP; network := net; address := JoinHostPort host port;
                 timeout := five_seconds |}
       end.

Definition dialThroughTunnel (cfg : RootConfig) (net addr : string) : eff E unit :=
  r ← lift (tunnel_request cfg net addr); DialContext r.

(** [p.Timeout] after the first call. *)
Definition icmp_timeout (t : Z) : Z := if decide (t = 0%Z) then three_seconds else t.

Definition ICMPPing_Probe (t : Z) (target : string) : eff E unit :=
  let host := match SplitHostPort target with Some (h, _) => h | None => target end in
  wrap "ICMP ping failed: "
    (DialContext {| from := None; network := "ip4:icmp"; address := host; timeout := icmp_timeout t |}).

Definition HTTPCheck_Probe (client_timeout : option Z) (target : string) : eff E unit :=
  let t := default five_seconds client_timeout in
  let url := probe_url target in
  _ ← lift (wrap_err "HTTP probe: " (NewRequest url));
  status ← wrap "HTTP probe failed: " (Do url t);
  if decide (500 <= status)%Z then throw ("HTTP probe: server error " +:+ Itoa status) else mret tt.

(** [Prober.probe]: the ping first, the GET only when it fails. *)
Definition error_of (r : result unit) : option string :=
  match r with Ok _ => None | Err e => Some e | Panic p => Some p end.

Definition probe_cycle (t : Z) (client : option Z) (cfg : ProberConfig) (start stop : time) (w : E)
    : HealthSnapshot * E :=
  let '(icmp, w1) := ICMPPing_Probe t (ICMPTarget cfg) w in
  match error_of icmp with
  | None => (probe None None start stop, w1)
  | Some e =>
      let '(http, w2) := HTTPCheck_Probe client (HTTPTarget cfg) w1 in
      (probe (Some e) (error_of http) start stop, w2)
  end.

(** The prober's loop: a cycle per tick of the clock; [ticks] are the times
    before and after. *)
Fixpoint probe_loop (t : Z) (client : option Z) (ticks : list (time * time)) (p : Prober) (w : E)
    : Prober * E :=
  match ticks with
  | [] => (p, w)
  | (start, stop) :: ticks =>
      let '(snap, w1) := probe_cycle t client (Health.cfg p) start stop w in
      probe_loop t client ticks (processSnapshot snap p) w1
  end.

Definition probeReachability (target : string) (w : E) : bool * E :=
  let '(r, w') := DialContext {| from := None; network := "tcp"; address := target;
                                 timeout := three_seconds |} w in
  (is_ok r, w').
End Dial.
End Dial.

Import Relay Loop.

(** ** A connection carries what was sent, in order *)

Lemma sends_moved b s s' : sends b s = Some s' ->
  passed s' = passed s /\ waiting s' = waiting s +:+ b /\ ended s = false /\ ended s' = false /\
  shut s' = shut s.
Proof. unfold sends. destruct (ended s); [done|]. by intros [= <-]. Qed.

Lemma copy_moved n s s' : copy n s = Some s' ->
  passed s' +:+ waiting s' = passed s +:+ waiting s /\ ended s' = ended s /\ shut s = false /\
  (shut s' = true -> waiting s' = EmptyString /\ ended s' = true).
Proof.
  unfold copy. generalize (S n) as k. intros k. destruct (shut s); [done|]. case_decide as Hw.
  - destruct (ended s) eqn:He; [|done]. intros [= <-]. cbn. by rewrite Hw.
  - intros [= <-]. cbn [passed waiting ended shut]. by rewrite sapp_assoc, stake_sdrop.
Qed.

Lemma copy_fails_moved n s s' : copy_fails n s = Some s' ->
  passed s' +:+ waiting s' = passed s +:+ waiting s /\ ended s' = ended s /\ shut s' = true.
Proof.
  unfold copy_fails. destruct (shut s); [done|]. intros [= <-].
  cbn [passed waiting ended shut]. by rewrite sapp_assoc, stake_sdrop.
Qed.

Ltac open_step H :=
  repeat match type of H with
  | (?m ≫= _) = Some _ => apply bind_Some in H as (? & ? & H)
  | Some _ = Some _ => injection H as <-
  end.

Definition total (s : stream) : string := passed s +:+ waiting s.

Lemma handle_total e c c' : handle e c = Some c' ->
  total (up c') = total (up c) +:+ client_bytes [e] /\
  total (down c') = total (down c) +:+ service_bytes [e].
Proof.
  unfold total. destruct e; cbn [handle client_bytes service_bytes]; intros H; rewrite ?sapp_nil_r.
  5: { destruct (at_ c); try done. destruct (ok && cancelled c); [done|]. by injection H as <-. }
  all: open_step H; cbn; rewrite ?sapp_nil_r; try done.
  all: match goal with
       | Hs : sends _ _ = Some _ |- _ => apply sends_moved in Hs as (-> & -> & _); by rewrite sapp_assoc
       | Hs : copy _ _ = Some _ |- _ => apply copy_moved in Hs as (-> & _); by split
       | Hs : copy_fails _ _ = Some _ |- _ => apply copy_fails_moved in Hs as (-> & _); by split
       end.
Qed.

Lemma bytes_app es es' : client_bytes (es ++ es') = client_bytes es +:+ client_bytes es' /\
  service_bytes (es ++ es') = service_bytes es +:+ service_bytes es'.
Proof.
  induction es as [|[] es [IH1 IH2]]; cbn; rewrite ?sapp_assoc, <- ?IH1, <- ?IH2; done.
Qed.

(** What holds of a connection after the events [es]: nothing is lost or
    reordered, and while no copy fails an end is announced only after
    everything before it was passed on. *)
Record relayed (es : list event) (c : conn) : Prop := {
  rl_up : total (up c) = client_bytes es;
  rl_down : total (down c) = service_bytes es;
  rl_up_end : (forall n, ~ UpFails n ∈ es) -> shut (up c) = true ->
    waiting (up c) = EmptyString /\ ended (up c) = true;
  rl_down_end : (forall n, ~ DownFails n ∈ es) -> shut (down c) = true ->
    waiting (down c) = EmptyString /\ ended (down c) = true;
  rl_closed : Dialled false ∉ es -> at_ c = Closed -> shut (down c) = true
}.

Lemma relayed_accepted (b : bool) : relayed [] (if b then cancel accepted else accepted).
Proof. by destruct b; split. Qed.

Lemma relayed_cancel es c : relayed es c -> relayed es (cancel c).
Proof. by intros []; split. Qed.

Lemma not_in_app {A} (x : A) l e : x ∉ l ++ [e] -> (x ∉ l) /\ x <> e.
Proof. rewrite elem_of_app, list_elem_of_singleton. tauto. Qed.

Definition end_announced (s : stream) : Prop := waiting s = EmptyString /\ ended s = true.

(** A step keeps the end of a stream announced properly. *)
Lemma handle_ends e c c' : handle e c = Some c' ->
  ((forall n, e <> UpFails n) -> (shut (up c) = true -> end_announced (up c)) ->
   shut (up c') = true -> end_announced (up c')) /\
  ((forall n, e <> DownFails n) -> (shut (down c) = true -> end_announced (down c)) ->
   shut (down c') = true -> end_announced (down c')) /\
  (e <> Dialled false -> at_ c' = Closed -> shut (down c') = true).
Proof.
  unfold end_announced. destruct e; cbn [handle]; intros H.
  5: { destruct (at_ c); try done. destruct (ok && cancelled c); [done|].
       injection H as <-. cbn. by destruct ok. }
  all: open_step H; unfold alive, copying in *.
  all: match goal with
       | Hs : sends _ _ = Some _ |- _ => apply sends_moved in Hs as (? & ? & ? & ? & Hsh)
       | Hs : copy _ _ = Some _ |- _ => apply copy_moved in Hs as (_ & ? & _ & ?)
       | Hs : copy_fails _ _ = Some _ |- _ => apply copy_fails_moved in Hs as (_ & ? & Hsh)
       | _ => idtac
       end; cbn; destruct (at_ c) eqn:Hat; try done; split_and!.
  all: first
    [ done
    | by intros _ IH E; apply IH
    | intros Hn; by destruct (Hn _ eq_refl)
    | intros _ IH E; rewrite Hsh in E; destruct (IH E); congruence
    | intros _ IH E; by destruct (IH E)
    | intros _ IH E; by auto
    | by rewrite Hsh
    | by destruct (shut _) ].
Qed.

Lemma relayed_step es e c c' : relayed es c -> handle e c = Some c' -> relayed (es ++ [e]) c'.
Proof.
  intros [Hu Hd Hue Hde Hc] H. destruct (handle_total _ _ _ H) as [Hu' Hd'].
  destruct (handle_ends _ _ _ H) as (He1 & He2 & He3). destruct (bytes_app es [e]) as [Hb1 Hb2].
  split.
  - by rewrite Hu', Hu, Hb1.
  - by rewrite Hd', Hd, Hb2.
  - intros Hn. apply He1; [intros n ->; apply (Hn n); set_solver|]. apply Hue.
    intros n Hi. apply (Hn n). set_solver.
  - intros Hn. apply He2; [intros n ->; apply (Hn n); set_solver|]. apply Hde.
    intros n Hi. apply (Hn n). set_solver.
  - intros [_ Hn]%not_in_app. by apply He3.
Qed.

(** ** How a connection ends *)

Lemma copy_waiting n s : shut s = false -> waiting s <> EmptyString ->
  copy n s = Some {| waiting := sdrop (S n) (waiting s); ended := ended s;
                     passed := passed s +:+ stake (S n) (waiting s); shut := false |}.
Proof. intros Hs Hw. unfold copy. rewrite Hs. by rewrite decide_False. Qed.

Lemma copy_at_end n s : shut s = false -> waiting s = EmptyString -> ended s = true ->
  copy n s = Some (close_write s).
Proof. intros Hs Hw He. unfold copy. rewrite Hs, He. by rewrite decide_True. Qed.

Lemma slen_sdrop_S n s : s <> EmptyString -> slen (sdrop (S n) s) < slen s.
Proof.
  destruct s as [|a s]; [done|]. intros _. unfold slen. cbn. revert n.
  induction s as [|b s IH]; intros [|n]; cbn; try lia. specialize (IH n). lia.
Qed.

Lemma drain_closes fuel n c : at_ c = Copying -> shut (down c) = false -> ended (down c) = true ->
  slen (waiting (down c)) < fuel ->
  at_ (drain fuel n c) = Closed /\ up (drain fuel n c) = up c /\
  passed (down (drain fuel n c)) = total (down c).
Proof.
  revert c. induction fuel as [|fuel IH]; intros c Ha Hs He Hf; [lia|].
  cbn [drain handle]. unfold copying. rewrite Ha. cbn [mbind option_bind].
  destruct (decide (waiting (down c) = EmptyString)) as [Hw|Hw].
  - rewrite copy_at_end by done. cbn [mbind option_bind]. unfold total.
    destruct fuel as [|fuel]; [cbn; by rewrite Hw, sapp_nil_r|].
    cbn. by rewrite Hw, sapp_nil_r.
  - rewrite copy_waiting by done. cbn [mbind option_bind]. pose proof (slen_sdrop_S n _ Hw).
    set (c1 := after_down _ c). destruct (IH c1) as (H1 & H2 & H3); [done..|cbn [c1 after_down with_down in_phase down waiting]; lia|].
    rewrite H1, H2, H3. split_and!; try done. unfold total.
    cbn [c1 after_down with_down in_phase down passed waiting]. by rewrite sapp_assoc, stake_sdrop.
Qed.

(** A client that has ended its side still gets the whole answer: whatever
    the state of the other direction, when the service sends its last bytes
    and ends, the rounds of the copy pass on all of them, and the handler
    returns. *)
Theorem half_closed_client_is_answered n b c : at_ c = Copying -> shut (down c) = false ->
  ended (down c) = false ->
  exists c', handle_all [ServiceSends b; ServiceEnds] c = Some c' /\
    let c'' := drain (S (slen (waiting (down c')))) n c' in
    at_ c'' = Closed /\ passed (down c'') = total (down c) +:+ b.
Proof.
  intros Ha Hs He. eexists. split.
  { cbn [handle_all handle]. unfold copying, sends. rewrite Ha, He. cbn. rewrite Ha. done. }
  cbv zeta. match goal with |- at_ (drain ?f _ ?c') = _ /\ _ =>
    destruct (drain_closes f n c') as (H1 & _ & H3); [done..|lia|] end.
  split; [exact H1|]. rewrite H3. unfold total. cbn [down passed waiting with_down ends].
  by rewrite sapp_assoc.
Qed.

Lemma closed_is_final es c c' : at_ c = Closed -> handle_all es c = Some c' -> c' = c.
Proof.
  intros Ha. destruct es as [|e es]; cbn; [by intros [= <-]|].
  destruct e; cbn [handle]; unfold alive, copying; by rewrite Ha.
Qed.

(** The other way round it is not so.  When the service has ended its
    side, the handler closes both connections: what the client has sent and no
    copy has read never reaches the service, and nothing the client sends
    later does. *)
Theorem service_end_cuts_client es n c c' : at_ c = Copying -> shut (down c) = false ->
  ended (down c) = true -> waiting (down c) = EmptyString ->
  (handle (CopyDown n) c ≫= handle_all es) = Some c' ->
  at_ c' = Closed /\ passed (up c') = passed (up c) /\ waiting (up c') = waiting (up c).
Proof.
  intros Ha Hs He Hw. cbn [handle]. unfold copying. rewrite Ha. cbn [mbind option_bind].
  rewrite copy_at_end by done. cbn [mbind option_bind]. intros H.
  apply closed_is_final in H as ->; done.
Qed.

(** ** The accept loop *)

(** The events of one connection. *)
Definition events_of (i : nat) (es : list loop_event) : list event :=
  omap (fun e => match e with OnConn j e => if decide (i = j) then Some e else None | _ => None end) es.

Lemma events_of_snoc i es e : events_of i (es ++ [e]) =
  events_of i es ++ match e with OnConn j e => if decide (i = j) then [e] else [] | _ => [] end.
Proof.
  unfold events_of. rewrite omap_app. cbn. f_equal. destruct e; cbn; try done. by case_decide.
Qed.

Lemma loop_run_snoc es e p : loop_run (es ++ [e]) p = p' ← loop_run es p; loop_step e p'.
Proof.
  revert p. induction es as [|x es IH]; intros p; cbn.
  - by destruct (loop_step e p).
  - by destruct (loop_step x p) as [p'|]; cbn.
Qed.

(** The ports other parts of the process listen on. *)
Definition fresh_world (w : world) : Prop :=
  (0 < free_port w)%Z /\ (forall q, q ∈ listening w -> 0 < q < free_port w)%Z.

(** One accept loop at most; the listener is open exactly while the proxy
    runs, a cancelled context belongs to a loop that was told to end. *)
Record loop_inv (w0 : world) (es : list loop_event) (p : proxy) : Prop := {
  li_port : ~ listenPort (px p) ∈ listening w0;
  li_sockets : listening (sockets p) =
    listening w0 ∪ (if running (px p) then {[listenPort (px p)]} else ∅);
  li_above : (free_port w0 <= free_port (sockets p))%Z;
  li_running : running (px p) = true -> goroutines p = 1 /\ ctx_done p = false /\ stopping p = false;
  li_stopping : stopping p = true -> ctx_done p = true /\ goroutines p <= 1;
  li_idle : running (px p) = false -> stopping p = false -> goroutines p = 0;
  li_conns : forall i c, conns p !! i = Some c -> relayed (events_of i es) c /\ i < taken p;
  li_fresh : forall i, taken p <= i -> events_of i es = []
}.

Lemma loop_inv_idle ip target w : fresh_world w -> loop_inv w [] (idle ip target w).
Proof.
  intros [Hp Hw]. split; cbn; try done; [intros [? ?]%Hw; lia|set_solver].
Qed.

Lemma relayed_off es e i : match e with OnConn j _ => i <> j | _ => True end ->
  events_of i (es ++ [e]) = events_of i es.
Proof.
  intros Hi. rewrite events_of_snoc. destruct e; rewrite ?app_nil_r; try done.
  rewrite decide_False by done. by rewrite app_nil_r.
Qed.

Lemma inv_start w0 es p p' : loop_inv w0 es p -> fresh_world w0 -> start_call p = Some p' ->
  loop_inv w0 (es ++ [StartCall]) p'.
Proof.
  intros [Hp Hs Ha Hr Ht Hi Hc Hf] [Hw0 Hw]. unfold start_call, Start.
  destruct (stopping p) eqn:Hst; [done|].
  assert (Hev : forall i, events_of i (es ++ [StartCall]) = events_of i es)
    by (intros i; rewrite events_of_snoc; apply app_nil_r).
  destruct (running (px p)) eqn:Hrun; cbn; intros [= <-]; split; cbn; rewrite ?Hrun; try done;
    try (by intros; rewrite Hev; auto); try (by rewrite Hi); try lia.
  - intros [? ?]%Hw. lia.
  - rewrite Hs. set_solver.
Qed.

Lemma inv_stop w0 es p p' : loop_inv w0 es p -> stop_call p = Some p' ->
  loop_inv w0 (es ++ [StopCall]) p'.
Proof.
  intros [Hp Hs Ha Hr Ht Hi Hc Hf]. unfold stop_call, Stop.
  destruct (stopping p) eqn:Hst; [done|].
  assert (Hev : forall i, events_of i (es ++ [StopCall]) = events_of i es)
    by (intros i; rewrite events_of_snoc; apply app_nil_r).
  destruct (running (px p)) eqn:Hrun; cbn; intros [= <-]; split; cbn; rewrite ?Hrun; try done;
    try (by intros; rewrite Hev; auto); try (by rewrite Hi); try lia.
  - rewrite Hs. set_solver.
  - intros i c. rewrite lookup_fmap_Some, Hev. intros (c0 & <- & H). apply Hc in H as [H ?].
    by split; [apply relayed_cancel|].
Qed.

Lemma inv_step w0 es e p p' : loop_inv w0 es p -> fresh_world w0 -> loop_step e p = Some p' ->
  loop_inv w0 (es ++ [e]) p'.
Proof.
  intros HI Hw. pose proof HI as [Hp Hs Ha Hr Ht Hi Hc Hf].
  destruct e as [ | | | | |k e]; cbn [loop_step]; intros H.
  - by eapply inv_start.
  - by eapply inv_stop.
  - destruct (stopping p && _) eqn:E; [|done]. apply andb_prop in E as [Hst _]. injection H as <-.
    split; cbn; try done; try (by intros; rewrite relayed_off; auto).
    intros Hrun. destruct (Hr Hrun) as (_ & _ & ?). congruence.
  - destruct (_ && open p) eqn:E; [|done]. injection H as <-.
    split; cbn; try done.
    + intros i c. rewrite relayed_off by done. rewrite lookup_insert_Some.
      intros [[<- <-]|[Hne H]]; [|destruct (Hc _ _ H); split; [done|lia]].
      split; [|lia]. rewrite (Hf (taken p)) by lia.
      apply (relayed_accepted (ctx_done p)).
    + intros i Hle. rewrite relayed_off by done. apply Hf. lia.
  - destruct (bool_decide _) eqn:E; [|done]. injection H as <-.
    split; cbn; try done; try (by intros; rewrite relayed_off; auto).
    + intros Hrun. by destruct (Hr Hrun) as (-> & -> & ->).
    + intros Hst. destruct (Ht Hst) as [-> ?]. split; [done|lia].
    + intros Hrun Hst. rewrite (Hi Hrun Hst). by destruct (ctx_done p).
  - apply bind_Some in H as (c & Hk & H). apply bind_Some in H as (c' & He & H). injection H as <-.
    destruct (Hc _ _ Hk) as [Hrel Hlt]. split; cbn; try done.
    + intros i d. rewrite lookup_insert_Some. intros [[<- <-]|[Hne Hd]].
      * split; [|done]. rewrite events_of_snoc, decide_True by done. by eapply relayed_step.
      * rewrite relayed_off by done. by apply Hc.
    + intros i Hle. rewrite relayed_off by lia. by apply Hf.
Qed.

Lemma loop_reaches w es ip target p : fresh_world w ->
  loop_run es (idle ip target w) = Some p -> loop_inv w es p.
Proof.
  intros Hw. revert p. induction es as [|e es IH] using rev_ind; intros p.
  - intros [= <-]. by apply loop_inv_idle.
  - rewrite loop_run_snoc. intros (p0 & H0 & H)%bind_Some. eapply inv_step; eauto.
Qed.

Lemma inv_open w0 es p : loop_inv w0 es p -> open p = running (px p).
Proof.
  intros [Hp Hs _ _ _ _ _ _]. unfold open. rewrite Hs.
  destruct (running (px p)); [apply bool_decide_eq_true|apply bool_decide_eq_false]; set_solver.
Qed.

(** C8: In every run of a proxy with any number of connections, each
    connection carries exactly the bytes its own peers sent, in order and
    without loss: what was passed on and what still waits is what was sent;
    and unless a copy fails, the service is told of the end of the client only
    after all its bytes, and a closed connection has given the client all of
    the answer. *)
Theorem connections_relay_in_order w es ip target p i c : fresh_world w ->
  loop_run es (idle ip target w) = Some p -> conns p !! i = Some c ->
  let mine := events_of i es in
  passed (up c) +:+ waiting (up c) = client_bytes mine /\
  passed (down c) +:+ waiting (down c) = service_bytes mine /\
  ((forall n, ~ UpFails n ∈ mine) -> shut (up c) = true -> passed (up c) = client_bytes mine) /\
  ((forall n, ~ DownFails n ∈ mine) -> Dialled false ∉ mine -> at_ c = Closed ->
   passed (down c) = service_bytes mine).
Proof.
  intros Hw Hrun Hc. destruct (loop_reaches _ _ _ _ _ Hw Hrun) as [_ _ _ _ _ _ Hcs _].
  destruct (Hcs _ _ Hc) as [[Hu Hd Hue Hde Hcl] _]. unfold total in *. cbv zeta.
  rewrite <- Hu, <- Hd. split_and!; try done.
  - intros Hn Hs. destruct (Hue Hn Hs) as [-> _]. by rewrite sapp_nil_r.
  - intros Hn Hdial Ha. destruct (Hde Hn (Hcl Hdial Ha)) as [-> _]. by rewrite sapp_nil_r.
Qed.

(** There is never more than one accept loop; the proxy's listener is
    open exactly while it runs, connections are taken only then, and the other
    listeners of the process are left alone. *)
Theorem one_accept_loop w es ip target p : fresh_world w ->
  loop_run es (idle ip target w) = Some p ->
  goroutines p <= 1 /\ (open p = true <-> running (px p) = true) /\
  listening (sockets p) ∖ {[listenPort (px p)]} = listening w /\
  (is_Some (loop_step Incoming p) <-> running (px p) = true).
Proof.
  intros Hw Hrun. pose proof (loop_reaches _ _ _ _ _ Hw Hrun) as HI.
  pose proof (inv_open _ _ _ HI) as Ho. destruct HI as [Hp Hs _ Hr Ht Hi _ _].
  cbn [loop_step]. rewrite Ho. destruct (running (px p)).
  - destruct Hr as (-> & _); [done|]. rewrite Hs. split_and!; [lia|done|set_solver|].
    split; [done|]. cbn. by eexists.
  - rewrite andb_false_r. split_and!; [|done|rewrite Hs; set_solver|split; [by intros []|done]].
    destruct (stopping p); [by apply Ht|]. rewrite Hi by done. lia.
Qed.

(** [Stop] returns.  From the call on no connection is taken and no
    second loop starts; the failing [Accept] of the closed listener finds the
    context cancelled, so the loop ends without a warning, and [Stop] returns
    with the proxy stopped. *)
Theorem stop_returns w es ip target p : fresh_world w ->
  loop_run es (idle ip target w) = Some p -> running (px p) = true ->
  exists p1 p2, loop_step StopCall p = Some p1 /\
    loop_step Incoming p1 = None /\ loop_step StartCall p1 = None /\ loop_step StopCall p1 = None /\
    loop_run [AcceptFails; StopReturns] p1 = Some p2 /\
    running (px p2) = false /\ goroutines p2 = 0 /\ stopping p2 = false /\ open p2 = false /\
    warnings p2 = warnings p.
Proof.
  intros Hw Hrun Hon. pose proof (loop_reaches _ _ _ _ _ Hw Hrun) as HI.
  pose proof HI as [_ _ _ Hr _ _ _ _]. destruct (Hr Hon) as (Hg & Hd & Hst).
  assert (exists p1, loop_step StopCall p = Some p1) as [p1 H1].
  { cbn [loop_step]. unfold stop_call, Stop. rewrite Hst, Hon. by eexists. }
  pose proof (inv_open _ _ _ (inv_step _ _ _ _ _ HI Hw H1)) as Ho1. exists p1.
  cbn [loop_step] in H1. unfold stop_call, Stop in H1. rewrite Hst, Hon in H1.
  injection H1 as <-. cbn [running px] in Ho1. eexists.
  cbn [loop_step loop_run]. rewrite Ho1, andb_false_r. unfold start_call, stop_call, Stop.
  rewrite Hst, Hon. cbn. rewrite Hg. split_and!; try reflexivity. unfold open in *. cbn in *. exact Ho1.
Qed.

Lemma handle_cancel e c : at_ c <> Dialling -> handle e (cancel c) = cancel <$> handle e c.
Proof.
  intros Ha. destruct e; cbn [handle]; unfold alive, copying; cbn [cancel at_ up down];
    destruct (at_ c) eqn:E; try done; cbn;
    repeat (match goal with |- context [sends ?b ?s] => destruct (sends b s)
            | |- context [copy ?b ?s] => destruct (copy b s)
            | |- context [copy_fails ?b ?s] => destruct (copy_fails b s) end; cbn); try done;
    unfold after_down, in_phase, with_down, cancel; cbn; by rewrite E.
Qed.

Lemma handle_past_dial e c c' : at_ c <> Dialling -> handle e c = Some c' -> at_ c' <> Dialling.
Proof.
  intros Ha H. destruct e; cbn [handle] in H.
  5: by destruct (at_ c).
  all: open_step H; unfold after_down, alive, copying in *; cbn; try done; by destruct (shut _).
Qed.

Lemma handle_all_cancel es c : at_ c <> Dialling ->
  handle_all es (cancel c) = cancel <$> handle_all es c.
Proof.
  revert c. induction es as [|e es IH]; intros c Ha; cbn; [done|].
  rewrite handle_cancel by done. destruct (handle e c) as [c'|] eqn:E; [|done]. cbn.
  apply IH. by eapply handle_past_dial.
Qed.

(** Stopping the proxy does not end the connections it carries.  A
    connection that is being copied goes on exactly as before, with any
    events, for as long as its peers like. *)
Theorem stop_keeps_relays w es ip target p p1 i c later : fresh_world w ->
  loop_run es (idle ip target w) = Some p ->
  loop_run [StopCall; AcceptFails; StopReturns] p = Some p1 ->
  conns p !! i = Some c -> at_ c = Copying ->
  exists c1, conns p1 !! i = Some c1 /\ at_ c1 = Copying /\
    (forall e, is_Some (handle e c) -> is_Some (loop_step (OnConn i e) p1)) /\
    handle_all later c1 = cancel <$> handle_all later c.
Proof.
  intros Hw Hrun Hstop Hc Ha. cbn [loop_run] in Hstop.
  apply bind_Some in Hstop as (q & Hq & Hstop). apply bind_Some in Hstop as (q2 & Hq2 & Hstop).
  apply bind_Some in Hstop as (q3 & Hq3 & [= <-]).
  assert (Hcs : conns q3 = conns q).
  { cbn [loop_step] in *. destruct (bool_decide _); [|done]. injection Hq2 as <-.
    destruct (_ && _); [|done]. by injection Hq3 as <-. }
  assert (conns q = cancel <$> conns p) as Hq'.
  { cbn [loop_step] in *. unfold stop_call, Stop in Hq. destruct (stopping p); [done|].
    destruct (running (px p)) eqn:Hr; cbn in Hq; injection Hq as <-; cbn; [done|].
    cbn [stopping] in Hq2, Hq3. destruct (bool_decide (0 < _)); [|done]. injection Hq2 as <-.
    cbn in Hq3. by rewrite ?Hr in Hq3. }
  exists (cancel c). rewrite Hcs, Hq', lookup_fmap, Hc. cbn.
  split_and!; [done..| |apply handle_all_cancel; by rewrite Ha].
  intros e [c' He]. rewrite Hcs, Hq', lookup_fmap, Hc. cbn [fmap option_fmap option_map mbind option_bind].
  rewrite handle_cancel by by rewrite Ha. rewrite He. by eexists.
Qed.

(** An [Accept] that keeps failing while the proxy runs (no file
    descriptors left) is tried again at once: any number of failures changes
    nothing but the number of warnings. *)
Theorem accept_errors_spin w es ip target p n : fresh_world w ->
  loop_run es (idle ip target w) = Some p -> running (px p) = true ->
  exists p', loop_run (replicate n AcceptFails) p = Some p' /\
    warnings p' = warnings p + n /\ px p' = px p /\ sockets p' = sockets p /\ conns p' = conns p /\
    goroutines p' = goroutines p.
Proof.
  intros Hw Hrun Hon. destruct (loop_reaches _ _ _ _ _ Hw Hrun) as [_ _ _ Hr _ _ _ _].
  destruct (Hr Hon) as (Hg & Hd & _). clear Hr Hrun Hon. revert p Hg Hd.
  induction n as [|n IH]; intros p Hg Hd.
  - exists p. cbn. split_and!; try done.
  - cbn [replicate loop_run loop_step]. rewrite Hg, Hd. cbn [mbind option_bind bool_decide decide_rel].
    change (bool_decide (0 < 1)) with true. cbn [mbind option_bind].
    match goal with |- context [loop_run _ ?q] =>
      destruct (IH q eq_refl eq_refl) as (p' & H & Hn & Hs) end.
    exists p'. cbn in Hn, Hs. rewrite Hn. split; [exact H|split; [lia|exact Hs]].
Qed.

(** ** Dials *)

Lemma last_colon_split s i : last_colon s = Some i -> s = stake i s +:+ String ":" (sdrop (S i) s).
Proof.
  revert i. induction s as [|a s IH]; intros i; cbn [last_colon]; [done|].
  destruct (last_colon s) as [j|].
  - intros [= <-]. cbn [stake sdrop]. rewrite (IH j eq_refl) at 1. done.
  - case_decide as Ha; [|done]. intros [= <-]. by rewrite Ha.
Qed.

Lemma IndexByte_stake s c i : IndexByte s c = Some i -> stake (S i) s = stake i s +:+ String c "".
Proof.
  revert i. induction s as [|a s IH]; intros i; cbn [IndexByte]; [done|].
  case_decide as Ha; [intros [= <-]; by rewrite Ha|].
  destruct (IndexByte s c) as [j|]; [|done]. intros [= <-]. specialize (IH j eq_refl).
  change (String a (stake (S j) s) = String a (stake j s +:+ String c "")). by rewrite IH.
Qed.

Lemma SplitHostPort_shape addr host port : SplitHostPort addr = Some (host, port) ->
  (free_of ":" host = true /\ HasPrefix addr "[" = false /\ addr = host +:+ ":" +:+ port) \/
  (HasPrefix addr "[" = true /\ addr = "[" +:+ host +:+ "]:" +:+ port).
Proof.
  unfold SplitHostPort. destruct (last_colon addr) as [i|] eqn:Hi; cbn [mbind option_bind]; [|done].
  apply last_colon_split in Hi as Hs. destruct (HasPrefix addr "[") eqn:Hb.
  - destruct (IndexByte addr "]") as [e|] eqn:He; cbn [mbind option_bind]; [|done].
    destruct (bool_decide (S e = i) && _ && _) eqn:E; [|done].
    apply andb_prop in E as [[E%bool_decide_eq_true _]%andb_prop _]. intros [= <- <-].
    right. split; [done|]. apply IndexByte_stake in He. subst i.
    apply HasPrefix_spec in Hb as [r ->]. rewrite He in Hs. destruct e as [|e]; [done|].
    cbn [Nat.sub]. rewrite Nat.sub_0_r. rewrite Hs at 1.
    change (stake (S e) ("[" +:+ r)) with ("[" +:+ stake e r).
    rewrite !sapp_assoc. done.
  - destruct (free_of ":" _ && _ && _) eqn:E; [|done].
    apply andb_prop in E as [[E _]%andb_prop _]. intros [= <- <-]. left.
    split; [exact E|split; [done|exact Hs]].
Qed.

Import Dial.

(** A dial to the admin API keeps the address it was given and asks for
    the tunnel's own address as source; but a configured address that does not
    parse (one with its mask, say) is no error: the dial is then bound to no
    address at all, and goes out by whatever route the host has. *)
Theorem tunnel_dial_is_bound cfg net addr r : tunnel_request cfg net addr = Ok r ->
  LocalIP (Config.Tunnel cfg) <> EmptyString /\ network r = net /\
  from r = ParseIP (LocalIP (Config.Tunnel cfg)) /\
  (HasPrefix addr "[" = false \/ (exists host port, SplitHostPort addr = Some (host, port) /\
     free_of ":" host = false) -> address r = addr).
Proof.
  unfold tunnel_request. case_decide as Hl; [done|].
  destruct (SplitHostPort addr) as [[host port]|] eqn:E; [|done]. intros [= <-]. cbn [network from address].
  split_and!; try done. apply SplitHostPort_shape in E as [(Hf & Hb & ->)|[Hb Ha]]; unfold JoinHostPort.
  - intros _. by rewrite Hf.
  - rewrite Hb. intros [?|(h & p & [= <- <-] & ->)]; [done|]. by rewrite <- Ha.
Qed.

Section Probes.
Context {E : Type} `{Network E}.

Lemma icmp_answer t target w : fst (ICMPPing_Probe t target w) = Ok tt <->
  exists u, fst (DialContext {| from := None; network := "ip4:icmp";
    address := match SplitHostPort target with Some (h, _) => h | None => target end;
    timeout := icmp_timeout t |} w) = Ok u.
Proof.
  unfold ICMPPing_Probe, wrap. destruct (DialContext _ w) as [[[]|e|e] w']; cbn; naive_solver.
Qed.

(** What a GET of the prober says.  Every answer below 500 counts as a
    reachable host, refusals and missing pages too. *)
Theorem http_probe_verdict client target w :
  fst (HTTPCheck_Probe client target w) = Ok tt <->
  exists status, NewRequest (probe_url target) = Ok tt /\
    fst (Do (probe_url target) (default five_seconds client) w) = Ok status /\ (status < 500)%Z.
Proof.
  unfold HTTPCheck_Probe, mbind, eff_bind, lift, wrap.
  destruct (NewRequest _) as [[]|e|e]; cbn; [|split; [done|naive_solver]..].
  destruct (Do _ _ w) as [[status|e|e] w']; cbn; [|split; [done|naive_solver]..].
  destruct (decide (500 <= status)%Z); cbn; split; try done.
  - intros (s & _ & [= ->] & ?). lia.
  - intros _. exists status. split_and!; [done..|lia].
Qed.

(** The first dial decides a cycle.  When the dial of [ip4:icmp] goes
    through, which takes the right to raw sockets and nothing from the host,
    the cycle reports the host reachable and the tunnel up, and the HTTP check
    is not tried. *)
Theorem raw_dial_decides t client c start stop w w' :
  DialContext {| from := None; network := "ip4:icmp";
    address := match SplitHostPort (ICMPTarget c) with Some (h, _) => h | None => ICMPTarget c end;
    timeout := icmp_timeout t |} w = (Ok tt, w') ->
  exists snap, probe_cycle t client c start stop w = (snap, w') /\
    VPSReachable snap = true /\ WGTunnelUp snap = true /\ Health.Errors snap = [].
Proof.
  intros Hd. exists (probe None None start stop). split; [|done].
  unfold probe_cycle, ICMPPing_Probe, wrap. by rewrite Hd.
Qed.
End Probes.

(** ** Witnesses *)

Definition half_closed : conn :=
  {| up := {| waiting := ""; ended := true; passed := "ping"; shut := true |}; down := silent;
     at_ := Copying; cancelled := false |}.

Lemma half_closed_client_is_answered_witness :
  handle_all [Dialled true; ClientSends "ping"; ClientEnds; CopyUp 9; CopyUp 0] accepted = Some half_closed /\
  exists c', handle_all [ServiceSends "pong"; ServiceEnds] half_closed = Some c' /\
    let c'' := drain (S (slen (waiting (down c')))) 1 c' in
    at_ c'' = Closed /\ passed (down c'') = total (down half_closed) +:+ "pong".
Proof.
  split; [vm_compute; reflexivity|].
  apply (half_closed_client_is_answered 1 "pong" half_closed); reflexivity.
Defined.

Definition uploading : conn :=
  {| up := {| waiting := "rest"; ended := false; passed := "first "; shut := false |};
     down := {| waiting := ""; ended := true; passed := "ok"; shut := false |};
     at_ := Copying; cancelled := false |}.

Lemma service_end_cuts_client_witness : exists c',
  handle_all [Dialled true; ClientSends "first "; CopyUp 9; ClientSends "rest"; ServiceSends "ok";
    ServiceEnds; CopyDown 9] accepted = Some uploading /\
  (handle (CopyDown 0) uploading ≫= handle_all []) = Some c' /\
  at_ c' = Closed /\ passed (up c') = "first " /\ waiting (up c') = "rest".
Proof.
  eexists. split; [vm_compute; reflexivity|]. split; [vm_compute; reflexivity|].
  eapply (service_end_cuts_client [] 0 uploading); vm_compute; reflexivity.
Defined.

Definition quiet_world : world := {| listening := {[443%Z]}; free_port := 40000%Z |}.
Definition sample_events : list loop_event :=
  [StartCall; Incoming; OnConn 0 (ClientSends "hello"); OnConn 0 (Dialled true);
   Incoming; OnConn 1 (Dialled false); OnConn 0 (CopyUp 1); OnConn 0 (ServiceSends "hi")].
Definition sample_proxy : option proxy :=
  Eval vm_compute in loop_run sample_events (idle "10.8.1.2" "127.0.0.1:3000" quiet_world).
Definition the_proxy : proxy := default (idle "10.8.1.2" "127.0.0.1:3000" quiet_world) sample_proxy.

Lemma fresh_quiet : fresh_world quiet_world.
Proof. split; [reflexivity|]. intros q. cbn. intros ->%elem_of_singleton. lia. Qed.

Lemma connections_relay_in_order_witness : exists p c,
  loop_run sample_events (idle "10.8.1.2" "127.0.0.1:3000" quiet_world) = Some p /\
  conns p !! 0 = Some c /\
  passed (up c) = "he" /\ waiting (up c) = "llo" /\
  passed (up c) +:+ waiting (up c) = client_bytes (events_of 0 sample_events).
Proof.
  exists the_proxy, {| up := {| waiting := "llo"; ended := false; passed := "he"; shut := false |};
    down := {| waiting := "hi"; ended := false; passed := ""; shut := false |};
    at_ := Copying; cancelled := false |}.
  split; [vm_compute; reflexivity|]. split; [vm_compute; reflexivity|].
  split; [reflexivity|]. split; [reflexivity|].
  eapply (connections_relay_in_order quiet_world sample_events "10.8.1.2" "127.0.0.1:3000" the_proxy 0);
    [exact fresh_quiet|vm_compute; reflexivity..].
Defined.

Lemma one_accept_loop_witness :
  goroutines the_proxy <= 1 /\ (open the_proxy = true <-> running (px the_proxy) = true) /\
  listening (sockets the_proxy) ∖ {[listenPort (px the_proxy)]} = listening quiet_world /\
  (is_Some (loop_step Incoming the_proxy) <-> running (px the_proxy) = true).
Proof.
  apply (one_accept_loop quiet_world sample_events "10.8.1.2" "127.0.0.1:3000");
    [exact fresh_quiet|vm_compute; reflexivity].
Defined.

Lemma stop_returns_witness : exists p1 p2, loop_step StopCall the_proxy = Some p1 /\
  loop_step Incoming p1 = None /\ loop_step StartCall p1 = None /\ loop_step StopCall p1 = None /\
  loop_run [AcceptFails; StopReturns] p1 = Some p2 /\
  running (px p2) = false /\ goroutines p2 = 0 /\ stopping p2 = false /\ open p2 = false /\
  warnings p2 = warnings the_proxy.
Proof.
  apply (stop_returns quiet_world sample_events "10.8.1.2" "127.0.0.1:3000");
    [exact fresh_quiet|vm_compute; reflexivity..].
Defined.

Definition stopped_proxy : proxy :=
  Eval vm_compute in default the_proxy (loop_run [StopCall; AcceptFails; StopReturns] the_proxy).

Lemma stop_keeps_relays_witness : exists c c1, conns the_proxy !! 0 = Some c /\
  conns stopped_proxy !! 0 = Some c1 /\ at_ c1 = Copying /\
  (forall e, is_Some (handle e c) -> is_Some (loop_step (OnConn 0 e) stopped_proxy)) /\
  handle_all [CopyUp 9; CopyDown 9] c1 = cancel <$> handle_all [CopyUp 9; CopyDown 9] c.
Proof.
  set (c := {| up := {| waiting := "llo"; ended := false; passed := "he"; shut := false |};
    down := {| waiting := "hi"; ended := false; passed := ""; shut := false |};
    at_ := Copying; cancelled := false |}).
  exists c, (cancel c). split; [vm_compute; reflexivity|].
  destruct (stop_keeps_relays quiet_world sample_events "10.8.1.2" "127.0.0.1:3000" the_proxy
    stopped_proxy 0 c [CopyUp 9; CopyDown 9] fresh_quiet) as (c1 & Hc1 & H);
    [vm_compute; reflexivity..|].
  assert (cancel c = c1) as <- by (vm_compute in Hc1; by injection Hc1).
  exact (conj Hc1 H).
Defined.

Lemma accept_errors_spin_witness : exists p', loop_run (replicate 5 AcceptFails) the_proxy = Some p' /\
  warnings p' = warnings the_proxy + 5 /\ px p' = px the_proxy /\ sockets p' = sockets the_proxy /\
  conns p' = conns the_proxy /\ goroutines p' = goroutines the_proxy.
Proof.
  apply (accept_errors_spin quiet_world sample_events "10.8.1.2" "127.0.0.1:3000");
    [exact fresh_quiet|vm_compute; reflexivity..].
Defined.

(** A network where only raw sockets work, and the admin API answers 503. *)
#[local] Instance dead_network : Network unit := {|
  DialContext r w := (if decide (network r = "ip4:icmp") then Ok tt else Err "no route to host", w);
  NewRequest _ := Ok tt;
  Do _ _ w := (Ok 503%Z, w)
|}.

Definition dead_config : ProberConfig :=
  {| Interval := 0; FailureThreshold := 0; ICMPTarget := "203.0.113.7:51820";
     HTTPTarget := "10.8.1.1:2019/config/" |}.

Lemma raw_dial_decides_witness : exists snap,
  probe_cycle (E := unit) 0 None dead_config 0 1 tt = (snap, tt) /\
  VPSReachable snap = true /\ WGTunnelUp snap = true /\ Health.Errors snap = [].
Proof. apply (raw_dial_decides (E := unit) 0 None dead_config 0 1 tt tt). vm_compute. reflexivity. Defined.

Definition masked_config : RootConfig :=
  set_Tunnel {| InterfaceName := "unet0"; Subnet := "10.8.1.0/24"; ServerIP := "10.8.1.1";
    LocalIP := "10.8.1.2/24"; ServerEndpoint := ""; ServerPublicKey := ""; PresharedKey := "";
    PrivateKey := ""; PublicKey := ""; MTU := 0; PersistentKeepalive := 0;
    Obfuscation := Config.Obfuscation (Config.Tunnel (defaultConfig "u")); Status := ""; ConnectedAt := "" |}
    (defaultConfig "u").

Definition unbound : request :=
  {| from := None; network := "tcp"; address := "10.8.1.1:2019"; timeout := five_seconds |}.

Lemma tunnel_dial_is_bound_witness :
  tunnel_request masked_config "tcp" "10.8.1.1:2019" = Ok unbound /\ address unbound = "10.8.1.1:2019" /\
  from unbound = ParseIP "10.8.1.2/24".
Proof.
  split; [vm_compute; reflexivity|].
  destruct (tunnel_dial_is_bound masked_config "tcp" "10.8.1.1:2019" unbound) as (_ & _ & Hf & Ha);
    [vm_compute; reflexivity|].
  split; [apply Ha; left; reflexivity|exact Hf].
Defined.
