(* ===== verification/Wiring.v ===== *)
(** * metrics/registry.go, qr, daemon/api_wizard.go: the glue

    The metrics and their HTTP server over the Prometheus library, the QR code
    and import link of a peer, and what the daemon plugs into the wizard, the
    invitations and the exposing of ports. *)

From S2P Require Import Prelude GoLib FS Base64 Config Invite Expose Wizard.

(** ** metrics/registry.go *)
Module Metrics.

Inductive collector_kind := CounterVec | Gauge | HistogramVec.
Record collector := { Name : string; Kind : collector_kind; Labels : list string }.

(** The registry of the library.  Asking for a child of a vector panics when
    the number of values is not that of its labels, or a value is not text. *)
Class Prometheus (P : Type) := {
  NewPrometheus : P;
  MustRegister : list collector -> P -> result P;
  Inc : collector -> list string -> P -> result P;
  Observe : collector -> list string -> string -> P -> result P;
  SetGauge : collector -> Z -> P -> result P
}.

Definition HealthChecksTotal : collector :=
  {| Name := "unet_health_checks_total"; Kind := CounterVec; Labels := ["target"; "result"] |}.
Definition VPSOpsTotal : collector :=
  {| Name := "unet_vps_operations_total"; Kind := CounterVec;
     Labels := ["operation"; "provider"; "result"] |}.
Definition LogEventsTotal : collector :=
  {| Name := "unet_log_events_total"; Kind := CounterVec;
     Labels := ["level"; "component"; "source"] |}.
Definition ActiveConns : collector :=
  {| Name := "unet_active_connections"; Kind := Gauge; Labels := [] |}.
Definition Uptime : collector := {| Name := "unet_uptime_seconds"; Kind := Gauge; Labels := [] |}.
Definition SSEReaders : collector := {| Name := "unet_sse_readers"; Kind := Gauge; Labels := [] |}.
Definition VPSOpDuration : collector :=
  {| Name := "unet_vps_operation_duration_seconds"; Kind := HistogramVec;
     Labels := ["operation"; "provider"] |}.

Definition collectors : list collector :=
  [HealthChecksTotal; VPSOpsTotal; LogEventsTotal; ActiveConns; Uptime; SSEReaders; VPSOpDuration].

Section Registry.
Context {P : Type} `{Prometheus P}.

Definition NewRegistry : result P := MustRegister collectors NewPrometheus.

Definition RecordHealthCheck (target res : string) : P -> result P :=
  Inc HealthChecksTotal [target; res].
Definition RecordVPSOp (operation provider res : string) : P -> result P :=
  Inc VPSOpsTotal [operation; provider; res].
Definition RecordLogEvent (level component source : string) : P -> result P :=
  Inc LogEventsTotal [level; component; source].
Definition ObserveVPSOpDuration (operation provider seconds : string) : P -> result P :=
  Observe VPSOpDuration [operation; provider] seconds.
Definition SetSSEReaders (count : Z) : P -> result P := SetGauge SSEReaders count.

(** What the program records. *)
Inductive sample :=
  | HealthCheck (target res : string)
  | VPSOp (operation provider res : string)
  | LogEvent (level component source : string)
  | OpDuration (operation provider seconds : string)
  | Readers (count : Z).

Definition record (s : sample) : P -> result P :=
  match s with
  | HealthCheck t r => RecordHealthCheck t r
  | VPSOp o p r => RecordVPSOp o p r
  | LogEvent l c s => RecordLogEvent l c s
  | OpDuration o p s => ObserveVPSOpDuration o p s
  | Readers n => SetSSEReaders n
  end.

Fixpoint record_all (l : list sample) (p : P) : result P :=
  match l with
  | [] => Ok p
  | s :: l => p' ← record s p; record_all l p'
  end.
End Registry.

Record Exposer := { listenAddr : string; bearerToken : string }.

Inductive answer := Exposition | HealthOK | HTTPError (status : Z) (text : string).

(** [bearerAuth] around [next]; [auth] is the request's header. *)
Definition bearerAuth (e : Exposer) (next : answer) (auth : string) : answer :=
  if decide (auth = EmptyString) then HTTPError 401 "unauthorized"
  else if bool_decide (slen auth < 7) || negb (bool_decide (stake 7 auth = "Bearer "))
  then HTTPError 401 "unauthorized"
  else if decide (sdrop 7 auth = bearerToken e) then next
  else HTTPError 403 "forbidden".

(** The table [Start] serves; a path is clean. *)
Definition serve (e : Exposer) (path auth : string) : answer :=
  if decide (path = "/metrics") then
    if decide (bearerToken e <> EmptyString) then bearerAuth e Exposition auth else Exposition
  else if decide (path = "/health") then HealthOK
  else HTTPError 404 "404 page not found".
End Metrics.

(** ** qr *)
Module QR.

Definition link_prefix : string := "wireguard://import?config=".

Definition BuildDeeplink (configText : string) : result string :=
  if decide (configText = EmptyString) then Err "config text must not be empty"
  else Ok (link_prefix +:+ url_encode configText).

Record QRResult := { PNG : string; DeeplinkURI : string; ConfigText : string }.

(** What the application that opens the link does. *)
Definition import (link : string) : option string :=
  if HasPrefix link link_prefix then url_decode (TrimPrefix link link_prefix) else None.

(** The stub of the handler's configuration. *)
Definition stubConfig (peerID : string) : string :=
  "[Interface]" +:+ nls +:+ "PrivateKey = (stub)" +:+ nls +:+ "Address = 10.0.0." +:+ peerID +:+
  "/24" +:+ nls +:+ "DNS = 1.1.1.1" +:+ nls +:+ nls +:+ "[Peer]" +:+ nls +:+
  "PublicKey = (stub)" +:+ nls +:+ "Endpoint = (stub):51820" +:+ nls +:+ "AllowedIPs = 0.0.0.0/0".

Inductive qr_answer :=
  | Refused (status : Z) (code message : string)
  | Generated (peer_id png_base64 deeplink config generated_at : string).

Section QR.
(** [qrcode.Encode] at medium recovery: text and size. *)
Context (encode_png : string -> Z -> result string).

Definition Generate (configText : string) (size : Z) : result QRResult :=
  if decide (configText = EmptyString) then Err "config text must not be empty"
  else
    let size := if decide (size <= 0)%Z then 512%Z else size in
    png ← wrap_err "qr encode: " (encode_png configText size);
    deeplink ← wrap_err "deeplink: " (BuildDeeplink configText);
    Ok {| PNG := png; DeeplinkURI := deeplink; ConfigText := configText |}.

Definition HandleGenerate (peerID now : string) : qr_answer :=
  if decide (peerID = EmptyString) then Refused 400 "bad_request" "peerId is required"
  else match Generate (stubConfig peerID) 512 with
       | Ok r => Generated peerID (std_encode (PNG r)) (DeeplinkURI r) (ConfigText r) now
       | Err _ | Panic _ => Refused 500 "internal_error" "failed to generate QR code"
       end.
End QR.
End QR.

(** ** daemon/api_wizard.go *)
Module Daemon.

Definition not_implemented : string :=
  "wizard SSH pool: not yet implemented — use existing ssh.Pool".

(** [daemonSSHPool.Connect] *)
Definition pool_Connect {E S : Type} (cfg : SSHInput) : eff E S := throw not_implemented.

(** [dnsAdapter] writes a line to the log. *)
Definition dnsAdapter (E : Type) : DNSCreator E := {| UpsertRecord subdomain ip := mret tt |}.

(** [tunnelAdapter] over the manager, if there is one. *)
Definition tunnel_IsConnected {M : Type} (connected : M -> bool) (mgr : option M) : bool :=
  match mgr with None => false | Some m => connected m end.

Definition daemonSecret (cfg : RootConfig) : string :=
  if decide (UIToken cfg = EmptyString) then "default-daemon-secret" else UIToken cfg.

(** [resolveVPSPublicIP] over the resolver. *)
Definition resolveVPSPublicIP (LookupHost : string -> result (list string)) (host : string) : string :=
  match LookupHost host with Ok (a :: _) => a | _ => EmptyString end.

Definition wired_vps_ip (LookupHost : string -> result (list string)) (cfg : RootConfig) : string :=
  if decide (Config.Host (VPS cfg) <> EmptyString)
  then resolveVPSPublicIP LookupHost (Config.Host (VPS cfg)) else EmptyString.

(** What the wizard is given: the pool above, the resolver, and no bootstrapper,
    peer creator or route exposer: their fields stay nil. *)
Definition no_receiver {E A : Type} : eff E A := panic "nil pointer dereference".
Definition wired_deps {E : Type} (lookup : string -> eff E lookups) : WizardDeps E := {|
  RunPreflight ssh := pool_Connect ssh; Lookup := lookup;
  Bootstrap s := no_receiver; CreatePeer name s := no_receiver;
  Wizard.ExposeRoute port sub s := no_receiver
|}.
End Daemon.

(** ** Metrics *)
Section MetricsLaws.
Import Metrics.
Context {P : Type} `{Prometheus P}.

(** The library's documented behaviour: collectors with names of their own
    register, and a registered vector takes as many values as it has labels,
    all of them text.  [text] is the check for UTF-8, [has] what is registered. *)
Context (text : string -> bool) (has : P -> collector -> Prop).
Context (register_ok : forall cs, NoDup (map Name cs) ->
  exists p, MustRegister cs NewPrometheus = Ok p /\ forall c, In c cs -> has p c).
Context (inc_ok : forall c vs p, has p c -> length vs = length (Labels c) ->
  forallb text vs = true -> exists p', Inc c vs p = Ok p' /\ forall d, has p d -> has p' d).
Context (observe_ok : forall c vs x p, has p c -> length vs = length (Labels c) ->
  forallb text vs = true -> exists p', Observe c vs x p = Ok p' /\ forall d, has p d -> has p' d).
Context (set_ok : forall c x p, has p c -> Kind c = Gauge ->
  exists p', SetGauge c x p = Ok p' /\ forall d, has p d -> has p' d).

Definition readable (s : sample) : bool :=
  match s with
  | HealthCheck t r => text t && text r
  | VPSOp o p r => text o && text p && text r
  | LogEvent l c s => text l && text c && text s
  | OpDuration o p _ => text o && text p
  | Readers _ => true
  end.

Definition complete (p : P) : Prop := forall c, In c collectors -> has p c.

Lemma record_complete s p : complete p -> readable s = true ->
  exists p', record s p = Ok p' /\ complete p'.
Proof.
  intros Hc Hr. assert (forall m, (exists p', m = Ok p' /\ forall d, has p d -> has p' d) ->
    exists p', m = Ok p' /\ complete p') as Hk.
  { intros m (p' & -> & Hd). exists p'. split; [done|]. intros c Hi. apply Hd, Hc, Hi. }
  destruct s; cbn [record readable] in *; apply Hk;
    [apply inc_ok|apply inc_ok|apply inc_ok|apply observe_ok|apply set_ok]; try done;
    try (apply Hc; cbn; tauto); cbn; rewrite ?andb_true_r, ?andb_assoc; done.
Qed.

(** The registry registers, and no call that records panics, in any order
    and number: every collector has a name of its own and every call gives as
    many values as the collector has labels, provided the values are text. *)
Theorem recording_never_panics l : forallb readable l = true ->
  exists p p', NewRegistry = Ok p /\ record_all l p = Ok p'.
Proof.
  intros Hl. destruct (register_ok collectors) as (p & Hp & Hc).
  { apply (bool_decide_unpack _). vm_compute. exact I. }
  exists p. change (complete p) in Hc.
  assert (exists p', record_all l p = Ok p') as [p' Hr]; [|by exists p'].
  clear Hp. revert p Hc. induction l as [|s l IH]; intros p Hc; [by exists p|].
  cbn in Hl. apply andb_prop in Hl as [Hs Hl]. destruct (record_complete s p Hc Hs) as (p' & E & Hc').
  cbn [record_all]. rewrite E. by apply IH.
Qed.
End MetricsLaws.

Import Metrics.

(** With a bearer token the metrics go exactly to the requests that carry
    it; without one to everybody.  The health page is open in both cases. *)
Theorem metrics_need_token e path auth :
  (serve e path auth = Exposition <->
    path = "/metrics" /\ (bearerToken e = EmptyString \/ auth = "Bearer " +:+ bearerToken e)) /\
  (serve e path auth = HealthOK <-> path = "/health").
Proof.
  unfold serve. case_decide as Hp.
  - subst path. case_decide as Ht.
    + unfold bearerAuth. case_decide as Ha; [subst auth; naive_solver|].
      destruct (bool_decide _ || _) eqn:Hb.
      * split; [|naive_solver]. split; [done|]. intros [_ [?| ->]]; [done|]. exfalso.
        change (slen ("Bearer " +:+ bearerToken e)) with (7 + slen (bearerToken e)) in Hb.
        rewrite bool_decide_false in Hb by lia. by vm_compute in Hb.
      * apply orb_false_elim in Hb as [_ Hb]. apply negb_false_iff, bool_decide_eq_true in Hb.
        case_decide as Hs; [split; [|naive_solver]; split; [|done]|split; [|naive_solver]; split; [done|]].
        -- intros _. split; [done|]. right. rewrite <- Hs, <- Hb. symmetry. apply stake_sdrop.
        -- intros [_ [?| ->]]; [done|]. by destruct Hs.
    + split; [|naive_solver]. split; [|done]. intros _. split; [done|]. by left.
  - case_decide; naive_solver.
Qed.

(** ** QR codes *)

Definition url_safe (c : ascii) : bool :=
  in_range "a" "z" c || in_range "A" "Z" c || is_digit c || bool_decide (c = "-"%char) ||
  bool_decide (c = "_"%char).

Lemma url_encode_safe s : str_all url_safe (url_encode s) = true.
Proof.
  unfold url_encode, encode_with. pose proof (sextets_range _ (bytes_of_range s)) as Hr.
  induction Hr as [|v l Hv Hl IH]; [done|]. simpl. rewrite IH, andb_true_r.
  apply (check_range (fun v => url_safe (alphabet "-" "_" v)) 0 64); [vm_compute; reflexivity|lia].
Qed.

Lemma import_link text : QR.import (QR.link_prefix +:+ url_encode text) = Some text.
Proof. unfold QR.import, TrimPrefix. rewrite HasPrefix_app, sdrop_app. apply url_decode_encode. Qed.

(** The import link gives the configuration back, byte for byte, is made of
    characters that need no escaping in a query, and exists for every
    configuration but the empty one. *)
Theorem deeplink_round_trip text :
  match QR.BuildDeeplink text with
  | Ok link => text <> EmptyString /\ QR.import link = Some text /\
      exists data, link = QR.link_prefix +:+ data /\ str_all url_safe data = true
  | Err e => text = EmptyString
  | Panic _ => False
  end.
Proof.
  unfold QR.BuildDeeplink. case_decide as Ht; [done|]. split; [done|]. split.
  - apply import_link.
  - exists (url_encode text). split; [done|apply url_encode_safe].
Qed.

(** The code the handler generates holds no configuration of the peer.
    For every peer, whatever the encoder does, the answer that is not a refusal
    carries the same text but for the name of the peer, its link decodes to that
    text, and the keys in it are no keys: they do not decode. *)
Theorem generated_code_has_no_keys encode_png peerID now answer :
  QR.HandleGenerate encode_png peerID now = answer ->
  match answer with
  | QR.Refused status _ _ => status = 400%Z /\ peerID = EmptyString \/
      status = 500%Z /\ is_ok (encode_png (QR.stubConfig peerID) 512%Z) = false
  | QR.Generated peer png link config at_ => peer = peerID /\
      config = QR.stubConfig peerID /\ QR.import link = Some config /\
      (exists rest, config = "[Interface]" +:+ nls +:+ "PrivateKey = (stub)" +:+ nls +:+ rest) /\
      std_decode "(stub)" = None
  end.
Proof.
  unfold QR.HandleGenerate, QR.Generate. intros <-. case_decide as Hp; [by left|].
  rewrite decide_False by done. change (if decide (512 <= 0)%Z then 512%Z else 512%Z) with 512%Z.
  destruct (encode_png _ _) as [png|e|e]; cbn [wrap_err mbind result_bind is_ok]; [|by right..].
  unfold QR.BuildDeeplink. rewrite decide_False by done. cbn [wrap_err mbind result_bind].
  cbn [QR.PNG QR.DeeplinkURI QR.ConfigText].
  split_and!; [done|done|apply import_link|by eexists|by vm_compute].
Qed.

(** ** What the daemon plugs in *)

Section Wired.
Context {E : Type} `{WizardCodec} (dir vpsIP : string) (lookup : string -> eff E lookups).
#[local] Instance wired : WizardDeps E := Daemon.wired_deps lookup.

(** With the parts the daemon gives it the wizard gets no further than the
    check of the host.  That check answers with a failure to connect, whatever
    the host, and leaves the session on disk as it was, so it never holds the
    result that the next steps ask for; and a commit, if a session file says it
    is due, ends in a panic of its goroutine. *)
Theorem wired_wizard_stops_at_preflight id now s (v : Server (E := E)) :
  (forall status pr, fst (handlePreflight dir id now v) <> Ok (PreflightReply status pr)) /\
  files (disk (snd (handlePreflight dir id now v))) = files (disk v) /\
  (forall st w, LoadState dir (disk v) = (Ok (Some st), w) -> SessionID st = id ->
    CurrentStep st = StepPreflight -> SSH (Inputs st) <> None ->
    fst (handlePreflight dir id now v) =
      Ok (Fail 502 "ssh_connect_failed" ("SSH connection failed: " +:+ Daemon.not_implemented))) /\
  fst (runBootstrap dir s now v) = Panic "nil pointer dereference".
Proof.
  unfold handlePreflight, with_session, or_reply, try, onDisk, on_part.
  pose proof (LoadState_spec dir (disk v)) as [Hf _].
  assert (fst (runBootstrap dir s now v) = Panic "nil pointer dereference") as Hb by done.
  unfold mbind, eff_bind.
  destruct (LoadState dir (disk v)) as [[[st|]|e|p] w] eqn:Hl; cbn in *; try by split_and!.
  case_decide as Hid; [by split_and!; [done..| |done]; intros ? ? [= <- <-]|].
  case_decide as Hs; [by split_and!; [done..| |done]; intros ? ? [= <- <-]|].
  destruct (SSH (Inputs st)) as [ssh|] eqn:Hssh.
  - cbn. by split_and!.
  - cbn. split_and!; [done..| |done]. intros ? ? [= <- <-]. congruence.
Qed.
End Wired.

Section WiredExpose.
Context {C E : Type} `{ConfigManagerLaws C} (vpsPublicIP : string) (connected : E -> bool).
#[local] Instance wired_dns : DNSCreator E := Daemon.dnsAdapter E.

(** Exposing a port with the daemon's adapter never makes a DNS record.
    Nothing outside the configuration is touched by any request, a request is
    never refused for its record, and one that passes the checks and is saved
    is answered as created, with its name under the configured zone when the
    host has no public address. *)
Theorem exposed_without_record req picks draws i now (h : Handler (C := C) (E := E)) r h' :
  HandleExpose vpsPublicIP connected req picks draws i now h = (r, h') ->
  ext h' = ext h /\
  (forall m sugg, r <> Ok (Error 500 "internal_error" ("DNS record creation failed: " +:+ m) sugg)) /\
  (forall pl, expose_check vpsPublicIP connected req picks draws i now h = inr pl ->
    (r = Ok (created pl) /\ ports h' = ports h ++ [newPort pl]) \/
    (r = Ok (Error 500 "internal_error" "failed to save route" []) /\ ports h' = ports h)).
Proof.
  unfold HandleExpose. destruct (expose_check _ _ _ _ _ _ _ h) as [e|pl] eqn:Hc.
  - intros [= <- <-]. split_and!; [done| |done]. intros m sugg [= ->]. revert Hc.
    unfold expose_check. by repeat case_match.
  - unfold expose_commit, try, update, on_part, mbind, eff_bind.
    destruct (cfg_update_total (add_port (newPort pl)) (cfgMgr h)) as (u & c' & Hu & Hnp). rewrite Hu.
    destruct u as [[]|e|p]; [| |by destruct (Hnp p)]; cbn; intros [= <- <-]; split_and!; try done.
    + intros pl' [= <-]. left. split; [done|]. unfold ports. cbn [cfgMgr with_ext with_cfg].
      apply check_plan in Hc as (q & _ & _ & _ & _ & _ & _ & Ht & _).
      rewrite (cfg_update_ok _ _ _ Hu). by apply add_port_new.
    + intros pl' [= <-]. right. split; [done|]. unfold ports. cbn [cfgMgr with_ext with_cfg].
      by rewrite (cfg_update_err _ _ _ _ Hu).
Qed.
End WiredExpose.

(** ** Witnesses *)

#[local] Instance list_registry : Prometheus (list collector) := {|
  NewPrometheus := [];
  MustRegister cs p := if decide (NoDup (map Name cs)) then Ok cs else Panic "duplicate metrics collector";
  Inc c vs p := if existsb (fun d => bool_decide (Name d = Name c)) p &&
                   bool_decide (length vs = length (Labels c)) then Ok p
                else Panic "inconsistent label cardinality";
  Observe c vs x p := if existsb (fun d => bool_decide (Name d = Name c)) p &&
                         bool_decide (length vs = length (Labels c)) then Ok p
                      else Panic "inconsistent label cardinality";
  SetGauge c x p := Ok p
|}.

Lemma listed c p : In c p -> existsb (fun d => bool_decide (Name d = Name c)) p = true.
Proof. intros Hi. apply existsb_exists. exists c. split; [done|]. by apply bool_decide_eq_true. Qed.

Lemma recording_never_panics_witness : exists p p', NewRegistry (P := list collector) = Ok p /\
  record_all [HealthCheck "vps" "ok"; VPSOp "attach" "hetzner" "ok"; LogEvent "info" "tunnel" "daemon";
    OpDuration "attach" "hetzner" "1.5"; Readers 2] p = Ok p'.
Proof.
  apply (recording_never_panics (P := list collector) (fun _ => true) (fun p c => In c p)).
  - intros cs Hn. exists cs. split; [cbn; by rewrite decide_True|done].
  - intros c vs p Hi Hl _. exists p. split; [|done]. cbn. by rewrite listed, bool_decide_true.
  - intros c vs x p Hi Hl _. exists p. split; [|done]. cbn. by rewrite listed, bool_decide_true.
  - intros c x p _ _. by exists p.
  - reflexivity.
Defined.

Definition sample_png (text : string) (size : Z) : result string := Ok "PNG".

Lemma generated_code_has_no_keys_witness :
  QR.import (QR.link_prefix +:+ url_encode (QR.stubConfig "7")) = Some (QR.stubConfig "7") /\
  std_decode "(stub)" = None.
Proof.
  destruct (generated_code_has_no_keys sample_png "7" "now"
    (QR.Generated "7" (std_encode "PNG") (QR.link_prefix +:+ url_encode (QR.stubConfig "7"))
       (QR.stubConfig "7") "now")) as (_ & _ & Hi & _ & Hd); [vm_compute; reflexivity|].
  exact (conj Hi Hd).
Defined.

Definition wired_lookup (d : string) : eff unit lookups :=
  fun e => (Ok {| l_host := Ok ["1.2.3.4"]; l_ns := Ok [] |}, e).
Definition to_preflight : WizardState :=
  {| SessionID := u1; CurrentStep := StepPreflight; Wizard.Status := StatusInProgress;
     Inputs := set_ssh {| Wizard.Host := "h"; Wizard.Port := 22; User := "root"; AuthType := "key";
                          KeyPath := ""; Wizard.Password := "" |} (Inputs (NewState u1 "t"));
     PreflightResult_ := None; DomainCheckResult_ := None; ProgressPct := 25; StartedAt := "t";
     LastSavedAt := "t"; CommittedAt := Wizard.CommittedAt (NewState u1 "t"); ErrorMessage := "" |}.
Definition wired_server : Server (E := unit) :=
  {| disk := {| files := {[StateFilePath "d" := state_marshal to_preflight]}; outcomes := [];
                draws := []; disks := [] |}; deps := tt; started := [] |}.

Lemma wired_wizard_stops_at_preflight_witness :
  fst (handlePreflight (H := Daemon.wired_deps wired_lookup) "d" u1 "t" wired_server) =
    Ok (Fail 502 "ssh_connect_failed" ("SSH connection failed: " +:+ Daemon.not_implemented)).
Proof.
  destruct (wired_wizard_stops_at_preflight "d" wired_lookup u1 "t" to_preflight wired_server)
    as (_ & _ & H & _).
  eapply H; [vm_compute; reflexivity|reflexivity..|discriminate].
Defined.

Definition with_zone : RootConfig :=
  {| VPS := zero_vps; Config.Tunnel := zero_tunnel; CaddyAPI := CaddyAPI (defaultConfig "u");
     ExposedPorts := []; DNS := {| Provider := "cloudflare"; Token := "t"; Zone := "example.org" |};
     Daemon := Config.Daemon (defaultConfig "u"); RemoteAPI := RemoteAPI (defaultConfig "u");
     ServerMirror := ""; UIToken := "u" |}.
Definition zone_handler : Handler (C := RootConfig) (E := list string) :=
  {| cfgMgr := with_zone; ext := [] |}.
Definition exposed_app : result response * Handler (C := RootConfig) (E := list string) :=
  @HandleExpose RootConfig (list string) plain_config (Daemon.dnsAdapter (list string)) ""
    (fun _ => true) (Some {| Expose.LocalPort := 3000; Expose.Subdomain := "app" |}) [] [] "1" "now" zone_handler.

Lemma exposed_without_record_witness :
  (exists route, fst exposed_app = Ok (Created route "https://app.example.org")) /\
  ext (snd exposed_app) = [] /\
  forall m sugg, fst exposed_app <>
    Ok (Error 500 "internal_error" ("DNS record creation failed: " +:+ m) sugg).
Proof.
  split; [eexists; vm_compute; reflexivity|].
  destruct (@exposed_without_record RootConfig (list string) plain_config plain_config_laws "" (fun _ => true)
    (Some {| Expose.LocalPort := 3000; Expose.Subdomain := "app" |}) [] [] "1" "now" zone_handler
    (fst exposed_app) (snd exposed_app)) as (He & Hm & _); [vm_compute; reflexivity|].
  exact (conj He Hm).
Defined.
