(* ===== verification/Workers.v ===== *)
(** * logger/retention.go, loguicapi/file_aggregator.go, container_aggregator.go:
      the goroutines behind Start and Stop

    The sweeper closes two channels, the aggregators keep the last cancel
    function and a wait group.  What the goroutines do is in [Logger] ([sweep])
    and [LogTail]; here is when they run and how they end. *)

From stdpp Require Import sorting.
From S2P Require Import Prelude GoLib Logger.

(** ** The retention sweeper *)
Module Sweeper.

(** [loops] counts the calls of [Start] that run, [stops] the calls of [Stop]
    that wait. *)
Record sweeper := {
  days : Z; stop_closed : bool; done_closed : bool; loops : nat; stops : nat; disk : Disk
}.

Inductive event :=
  | StartCall (now : time) | Tick (now : time) | LoopStops
  | StopCall | StopReturns | SetDays (d : Z).

Section Sweeper.
Context (fmt_date : time -> string) (parse_date : string -> option time).

Definition new (retentionDays : Z) (d : Disk) : sweeper :=
  {| days := NewRetentionSweeper retentionDays; stop_closed := false; done_closed := false;
     loops := 0; stops := 0; disk := d |}.

(** A sweep, with [n] loops running. *)
Definition swept (now : time) (n : nat) (s : sweeper) : sweeper :=
  {| days := days s; stop_closed := stop_closed s; done_closed := done_closed s; loops := n;
     stops := stops s; disk := snd (sweep fmt_date parse_date (days s) now (disk s)) |}.

Definition closed_channel {A} : result A := Panic "close of closed channel".

(** [None]: the call or the goroutine blocks. *)
Definition step (e : event) (s : sweeper) : option (result sweeper) :=
  match e with
  | StartCall now => Some (Ok (swept now (S (loops s)) s))
  | Tick now => if bool_decide (0 < loops s) then Some (Ok (swept now (loops s) s)) else None
  | LoopStops =>
      if bool_decide (0 < loops s) && stop_closed s
      then Some (if done_closed s then closed_channel
                 else Ok {| days := days s; stop_closed := true; done_closed := true;
                            loops := pred (loops s); stops := stops s; disk := disk s |})
      else None
  | StopCall =>
      Some (if stop_closed s then closed_channel
            else Ok {| days := days s; stop_closed := true; done_closed := done_closed s;
                       loops := loops s; stops := S (stops s); disk := disk s |})
  | StopReturns =>
      if bool_decide (0 < stops s) && done_closed s
      then Some (Ok {| days := days s; stop_closed := stop_closed s; done_closed := true;
                       loops := loops s; stops := pred (stops s); disk := disk s |})
      else None
  | SetDays d =>
      Some (Ok {| days := SetRetentionDays d; stop_closed := stop_closed s;
                  done_closed := done_closed s; loops := loops s; stops := stops s; disk := disk s |})
  end.

Fixpoint run (es : list event) (s : sweeper) : option (result sweeper) :=
  match es with
  | [] => Some (Ok s)
  | e :: es => match step e s with Some (Ok s') => run es s' | r => r end
  end.
End Sweeper.
End Sweeper.

(** ** The aggregators *)
Module Group.

(** Every [Start] makes a context of its own; [cancel] is the one the last
    [Start] stored, [workers] maps a goroutine to its context. *)
Record group := {
  contexts : nat; cancel : option nat; cancelled : gset nat; parent_done : bool;
  workers : gmap nat nat; next : nat; waiting : nat
}.

Definition empty : group :=
  {| contexts := 0; cancel := None; cancelled := ∅; parent_done := false; workers := ∅; next := 0;
     waiting := 0 |}.

Inductive event :=
  | StartCall (sources : nat) | StopCall | ParentEnds
  | WorkerExits (i : nat) | StopDone | StopTimesOut (waited : Z).

Section Aggregator.
(** How long [Stop] waits. *)
Context (timeout : Z).

(** The goroutines of one [Start]. *)
Fixpoint spawn (n ctx first : nat) (w : gmap nat nat) : gmap nat nat :=
  match n with O => w | S n => <[first := ctx]> (spawn n ctx (S first) w) end.

Definition step (e : event) (g : group) : option group :=
  match e with
  | StartCall n =>
      Some {| contexts := S (contexts g); cancel := Some (contexts g); cancelled := cancelled g;
              parent_done := parent_done g; workers := spawn n (contexts g) (next g) (workers g);
              next := next g + n; waiting := waiting g |}
  | StopCall =>
      Some {| contexts := contexts g; cancel := cancel g;
              cancelled := match cancel g with Some c => {[c]} ∪ cancelled g | None => cancelled g end;
              parent_done := parent_done g; workers := workers g; next := next g;
              waiting := S (waiting g) |}
  | ParentEnds =>
      Some {| contexts := contexts g; cancel := cancel g; cancelled := cancelled g;
              parent_done := true; workers := workers g; next := next g; waiting := waiting g |}
  | WorkerExits i =>
      c ← workers g !! i;
      if bool_decide (c ∈ cancelled g) || parent_done g
      then Some {| contexts := contexts g; cancel := cancel g; cancelled := cancelled g;
                   parent_done := parent_done g; workers := delete i (workers g); next := next g;
                   waiting := waiting g |}
      else None
  | StopDone =>
      if bool_decide (0 < waiting g) && bool_decide (workers g = ∅)
      then Some {| contexts := contexts g; cancel := cancel g; cancelled := cancelled g;
                   parent_done := parent_done g; workers := workers g; next := next g;
                   waiting := pred (waiting g) |}
      else None
  | StopTimesOut waited =>
      if bool_decide (0 < waiting g) && bool_decide (timeout <= waited)%Z
      then Some {| contexts := contexts g; cancel := cancel g; cancelled := cancelled g;
                   parent_done := parent_done g; workers := workers g; next := next g;
                   waiting := pred (waiting g) |}
      else None
  end.

Fixpoint run (es : list event) (g : group) : option group :=
  match es with
  | [] => Some g
  | e :: es => g' ← step e g; run es g'
  end.
End Aggregator.

Definition FileAggregator_run : list event -> group -> option group := run (2 * ns_second).
Definition ContainerAggregator_run : list event -> group -> option group := run (5 * ns_second).
End Group.

(** ** The sweeper's protocol *)
Section SweeperProofs.
Import Sweeper.
Context (fmt_date : time -> string) (parse_date : string -> option time).
Abbreviation run := (Sweeper.run fmt_date parse_date).
Abbreviation step := (Sweeper.step fmt_date parse_date).

Fixpoint last_days (d : Z) (es : list event) : Z :=
  match es with
  | [] => d
  | SetDays d' :: es => last_days d' es
  | _ :: es => last_days d es
  end.

Fixpoint starts (es : list event) : nat :=
  match es with
  | [] => 0
  | StartCall _ :: es => S (starts es)
  | _ :: es => starts es
  end.

Lemma run_inv (I : list event -> sweeper -> Prop) s0 :
  I [] s0 ->
  (forall es e s s', I es s -> step e s = Some (Ok s') -> I (es ++ [e]) s') ->
  forall es s, run es s0 = Some (Ok s) -> I es s.
Proof.
  intros H0 Hs es s Hr.
  enough (forall pre s1, I pre s1 -> run es s1 = Some (Ok s) -> I (pre ++ es) s) as Hall
    by exact (Hall [] s0 H0 Hr).
  clear s0 H0 Hr. induction es as [|e es IH]; intros pre s0 H0 Hr; cbn in Hr.
  - injection Hr as <-. by rewrite app_nil_r.
  - destruct (step e s0) as [[s1| |]|] eqn:E; try done.
    replace (pre ++ e :: es) with ((pre ++ [e]) ++ es) by by rewrite <- app_assoc.
    eapply IH; [by eapply Hs|exact Hr].
Qed.

Lemma last_days_snoc d0 es e :
  last_days d0 (es ++ [e]) = match e with SetDays d => d | _ => last_days d0 es end.
Proof. revert d0. induction es as [|x es IH]; intros d0; cbn; [by destruct e|by destruct x]. Qed.

Lemma starts_snoc es e :
  starts (es ++ [e]) = starts es + match e with StartCall _ => 1 | _ => 0 end.
Proof. induction es as [|x es IH]; cbn; [by destruct e|]. destruct x; cbn; rewrite ?IH; lia. Qed.

(** The state of the two channels in a run. *)
Record protocol (d0 : Z) (es : list event) (s : sweeper) : Prop := {
  pr_days : days s = last_days (NewRetentionSweeper d0) es;
  pr_stop : StopCall ∈ es <-> stop_closed s = true;
  pr_loops : loops s + (if done_closed s then 1 else 0) = starts es;
  pr_returned : StopReturns ∈ es -> done_closed s = true;
  pr_done : done_closed s = true -> stop_closed s = true
}.

Definition one_if (b : bool) : nat := if b then 1 else 0.

(** What a step does to the fields. *)
Lemma step_fields e s s' : step e s = Some (Ok s') ->
  days s' = match e with SetDays d => d | _ => days s end /\
  stop_closed s' = match e with StopCall => true | _ => stop_closed s end /\
  done_closed s' = match e with LoopStops => true | _ => done_closed s end /\
  loops s' + one_if (done_closed s') =
    loops s + one_if (done_closed s) + match e with StartCall _ => 1 | _ => 0 end /\
  match e with StopReturns => done_closed s = true | LoopStops => stop_closed s = true | _ => True end.
Proof.
  destruct e; cbn [Sweeper.step]; intros H.
  - injection H as <-. cbn. split_and!; try done; try lia.
  - case_match; [|done]. injection H as <-. cbn. split_and!; try done; try lia.
  - destruct (bool_decide _) eqn:Hl; [|done]. apply bool_decide_eq_true in Hl. cbn in H.
    destruct (stop_closed s) eqn:Hst; [|done]. destruct (done_closed s) eqn:Hd; [done|].
    injection H as <-. cbn. split_and!; try done; try lia.
  - destruct (stop_closed s); [done|]. injection H as <-. cbn. split_and!; try done; try lia.
  - destruct (bool_decide _); [|done]. cbn in H. destruct (done_closed s) eqn:Hd; [|done].
    injection H as <-. cbn. split_and!; try done; try lia.
  - injection H as <-. cbn. split_and!; try done; try lia.
Qed.

Lemma elem_of_snoc {A} (x y : A) l : x ∈ l ++ [y] <-> x ∈ l \/ x = y.
Proof. by rewrite elem_of_app, list_elem_of_singleton. Qed.

Lemma protocol_run d0 d es s : run es (new d0 d) = Some (Ok s) -> protocol d0 es s.
Proof.
  apply run_inv.
  - split; try done; [|intros H; by apply elem_of_nil in H].
    split; [intros H; by apply elem_of_nil in H|done].
  - clear es s. intros es e s s' [Hd Hst Hl Hret Hdn] H.
    destruct (step_fields _ _ _ H) as (E1 & E2 & E3 & E4 & E5). unfold one_if in E4. split.
    + rewrite last_days_snoc, E1, Hd. by destruct e.
    + rewrite elem_of_snoc, Hst, E2. destruct e; naive_solver.
    + rewrite starts_snoc, E4, Hl. done.
    + rewrite elem_of_snoc, E3. intros [Hr|<-]; [rewrite Hret by done; by destruct e|done].
    + rewrite E3, E2. destruct e; auto.
Qed.

(** In every run the sweeper works with the number of days set last, and a
    sweep on a working disk leaves no expired archive and every other file. *)
Theorem sweeps_leave_nothing_expired d0 d es s now s' n :
  run es (new d0 d) = Some (Ok s) -> step (Tick now) s = Some (Ok s') -> faults (disk s) = [] ->
  days s = last_days (NewRetentionSweeper d0) es /\
  dir (disk s') !! n =
    if expired fmt_date parse_date (days s) now n then None else dir (disk s) !! n.
Proof.
  intros Hr Hs Hf. apply protocol_run in Hr as []. split; [done|].
  cbn [Sweeper.step] in Hs. destruct (bool_decide _); [|done]. injection Hs as <-.
  apply (proj2 (sweep_removes_expired fmt_date parse_date (days s) now (disk s) n) Hf).
Qed.

(** Started once, the sweeper ends.  A loop that was told to stop can leave
    and then [Stop] returns; once [Stop] has returned there is no sweep any
    more, whatever is called but [Start]. *)
Theorem stop_ends_sweeping d0 d es s : run es (new d0 d) = Some (Ok s) -> starts es = 1 ->
  (StopCall ∈ es -> 0 < stops s ->
   exists rest s', run rest s = Some (Ok s') /\ loops s' = 0 /\ stops s' < stops s) /\
  (StopReturns ∈ es -> forall now, step (Tick now) s = None).
Proof.
  intros Hr Hone. apply protocol_run in Hr as [_ Hst Hl Hret Hdn]. rewrite Hone in Hl. split.
  - intros Hstop Hw. apply Hst in Hstop. destruct (done_closed s) eqn:Hd.
    + exists [StopReturns]. cbn. rewrite Hd, bool_decide_true by done. cbn.
      eexists. split; [done|]. cbn. lia.
    + assert (loops s = 1) as Hl1 by lia. exists [LoopStops; StopReturns]. cbn.
      rewrite Hl1, Hstop, Hd. change (bool_decide (0 < 1)) with true. cbn.
      rewrite (bool_decide_true (0 < stops s)) by done. cbn. eexists. split; [done|]. cbn. lia.
  - intros Hr now. rewrite (Hret Hr) in Hl. cbn [Sweeper.step].
    assert (loops s = 0) as -> by lia. done.
Qed.

(** The channels make other orders fatal: [Stop] without [Start] never
    returns, a second [Stop] panics, and so does the loop of a second [Start]
    once the first has left. *)
Theorem sweeper_misuse d0 d es s : run es (new d0 d) = Some (Ok s) ->
  (starts es = 0 -> step StopReturns s = None) /\
  (StopCall ∈ es -> step StopCall s = Some closed_channel) /\
  (done_closed s = true -> 0 < loops s -> step LoopStops s = Some closed_channel).
Proof.
  intros Hr. apply protocol_run in Hr as [_ Hst Hl Hret Hdn]. split_and!.
  - intros H0. rewrite H0 in Hl. cbn [Sweeper.step]. destruct (done_closed s); [lia|].
    by rewrite andb_false_r.
  - intros Hs. apply Hst in Hs. cbn [Sweeper.step]. by rewrite Hs.
  - intros Hd Hl0. cbn [Sweeper.step]. by rewrite (Hdn Hd), Hd, bool_decide_true.
Qed.
End SweeperProofs.

(** ** The aggregators' protocol *)
Section GroupProofs.
Import Group.
Context (timeout : Z).
Abbreviation grun := (Group.run timeout).
Abbreviation gstep := (Group.step timeout).

Lemma run_app es es' g : grun (es ++ es') g = g' ← grun es g; grun es' g'.
Proof. revert g. induction es as [|e es IH]; intros g; cbn; [done|]. destruct (gstep e g); cbn; [apply IH|done]. Qed.

Lemma lookup_spawn n ctx first w i :
  spawn n ctx first w !! i = if decide (first <= i < first + n) then Some ctx else w !! i.
Proof.
  revert first. induction n as [|n IH]; intros first; cbn.
  - by rewrite decide_False by lia.
  - destruct (decide (first = i)) as [<-|Hi].
    { by rewrite lookup_insert_eq, decide_True by lia. }
    rewrite lookup_insert_ne, IH by done. repeat case_decide; try done; lia.
Qed.

(** The goroutines of a context that is not cancelled stay. *)
Definition keeps (ctx i : nat) (g : group) : Prop :=
  workers g !! i = Some ctx /\ ctx < contexts g /\ i < next g /\ ~ ctx ∈ cancelled g /\
  parent_done g = false /\ cancel g <> Some ctx.

Lemma keeps_step ctx i e g g' : e <> ParentEnds -> keeps ctx i g -> gstep e g = Some g' ->
  keeps ctx i g'.
Proof.
  intros He (Hw & Hc & Hi & Hn & Hp & Hcan) H. unfold keeps.
  destruct e as [n| | |j| |]; cbn [Group.step] in H; try done.
  - injection H as <-. cbn. rewrite lookup_spawn, decide_False by lia.
    split_and!; try done; try lia. intros [= E]. lia.
  - injection H as <-. cbn. split_and!; try done. destruct (cancel g) as [c|]; [|done].
    rewrite elem_of_union, elem_of_singleton. intros [->|?]; done.
  - apply bind_Some in H as (c & Hj & H). destruct (_ || _) eqn:E; [|done]. injection H as <-. cbn.
    rewrite Hp, orb_false_r in E. apply bool_decide_eq_true in E.
    split_and!; try done. rewrite lookup_delete_ne; [done|]. intros ->. congruence.
  - destruct (_ && _); [|done]. by injection H as <-.
  - destruct (_ && _); [|done]. by injection H as <-.
Qed.

Lemma worker_keeps_run ctx i es g g' : ~ ParentEnds ∈ es -> keeps ctx i g -> grun es g = Some g' ->
  keeps ctx i g'.
Proof.
  revert g. induction es as [|e es IH]; intros g Hn Hk; cbn; [by intros [= <-]|].
  intros (g1 & H1 & H)%bind_Some. eapply IH; [set_solver| |exact H].
  eapply keeps_step; [|exact Hk|exact H1]. intros ->. set_solver.
Qed.

(** A second [Start] forgets the cancel function of the first.  From then on,
    as long as the caller's context lives, the goroutines of the first [Start]
    go on whatever is called, and every [Stop] ends by its timeout. *)
Theorem second_start_orphans n m es g : 0 < n -> ~ ParentEnds ∈ es ->
  grun ([StartCall n; StartCall m] ++ es) empty = Some g ->
  (forall i, i < n -> workers g !! i = Some 0) /\ gstep StopDone g = None.
Proof.
  intros Hpos Hn Hr. rewrite run_app in Hr. apply bind_Some in Hr as (g0 & H0 & Hr).
  assert (forall i, i < n -> workers g !! i = Some 0) as Hall.
  { intros i Hi. eapply (worker_keeps_run 0 i es g0 g Hn); [|exact Hr].
    cbn in H0. injection H0 as <-. unfold keeps. cbn.
    rewrite lookup_spawn, decide_False by lia. rewrite lookup_spawn, decide_True by lia.
    split_and!; try done; lia. }
  split; [done|]. cbn [Group.step]. rewrite (bool_decide_false (workers g = ∅)); [by rewrite andb_false_r|].
  intros E. specialize (Hall 0 Hpos). by rewrite E in Hall.
Qed.

(** Started once, the group ends: after [Stop] every goroutine may leave at
    any moment, in any order, and when the last has left [Stop] returns without
    waiting for the timeout. *)
Theorem stopped_group_drains n g : grun [StartCall n; StopCall] empty = Some g ->
  forall order, order ≡ₚ seq 0 n ->
  exists g', grun (map WorkerExits order ++ [StopDone]) g = Some g' /\ workers g' = ∅ /\ waiting g' = 0.
Proof.
  intros H order Ho. cbn in H. injection H as <-.
  set (g0 := {| contexts := 1; cancel := Some 0; cancelled := {[0]} ∪ ∅; parent_done := false;
                workers := spawn n 0 0 ∅; next := 0 + n; waiting := 1 |}).
  assert (Hgen : forall l w, NoDup l -> (forall i, is_Some (w !! i) <-> i ∈ l) ->
    (forall i c, w !! i = Some c -> c = 0) ->
    exists g', grun (map WorkerExits l ++ [StopDone])
      {| contexts := 1; cancel := Some 0; cancelled := {[0]} ∪ ∅; parent_done := false;
         workers := w; next := 0 + n; waiting := 1 |} = Some g' /\ workers g' = ∅ /\ waiting g' = 0).
  { induction l as [|i l IH]; intros w Hnd Hdom Hz.
    - assert (w = ∅) as ->.
      { apply map_empty. intros i. apply eq_None_not_Some. rewrite Hdom. apply not_elem_of_nil. }
      cbn. eexists. done.
    - apply list.NoDup_cons in Hnd as [Hi Hnd].
      destruct (proj2 (Hdom i)) as [c Hc]; [set_solver|]. pose proof (Hz _ _ Hc) as ->.
      cbn [map app Group.run Group.step]. cbn [workers]. rewrite Hc. cbn [mbind option_bind].
      rewrite bool_decide_true by set_solver. cbn [orb mbind option_bind]. apply IH; [done| |].
      + intros j. destruct (decide (j = i)) as [->|Hne].
        * rewrite lookup_delete_eq. split; [by intros []|done].
        * rewrite lookup_delete_ne by done. rewrite Hdom, elem_of_cons. naive_solver.
      + intros j c. rewrite lookup_delete_Some. intros [_ Hj]. by eapply Hz. }
  apply (Hgen order (spawn n 0 0 ∅)).
  - rewrite Ho. apply NoDup_ListNoDup, seq_NoDup.
  - intros i. rewrite Ho, lookup_spawn, elem_of_seq. case_decide; [split; [lia|by eexists]|].
    rewrite lookup_empty. split; [by intros []|lia].
  - intros i c. rewrite lookup_spawn. case_decide; [by intros [= <-]|by rewrite lookup_empty].
Qed.
End GroupProofs.

(** ** Witnesses *)
Section Witnesses.
Import Sweeper.

Definition swept_once : sweeper := swept day_of day_at (20 * ns_day) 1 (new 0 log_disk).
Definition told_to_stop : sweeper :=
  {| days := 7; stop_closed := true; done_closed := false; loops := 1; stops := 1;
     disk := disk swept_once |}.

Lemma sweeps_leave_nothing_expired_witness :
  exists s', Sweeper.step day_of day_at (Tick (40 * ns_day)) swept_once = Some (Ok s') /\
    days swept_once = 30%Z /\ dir (disk s') !! "daemon-5.jsonl" = None.
Proof.
  eexists. split; [vm_compute; reflexivity|]. split; [vm_compute; reflexivity|].
  edestruct (sweeps_leave_nothing_expired day_of day_at 0 log_disk [StartCall (20 * ns_day)] swept_once
    (40 * ns_day)%Z) as [_ H]; [reflexivity|vm_compute; reflexivity|vm_compute; reflexivity|].
  etrans; [exact H|vm_compute; reflexivity].
Defined.

Lemma stop_ends_sweeping_witness : exists rest s',
  Sweeper.run day_of day_at rest told_to_stop = Some (Ok s') /\ loops s' = 0 /\ stops s' < stops told_to_stop.
Proof.
  apply (stop_ends_sweeping day_of day_at 0 log_disk [StartCall (20 * ns_day); SetDays 7; StopCall]);
    [reflexivity|reflexivity|right; right; left|vm_compute; lia].
Defined.

Lemma sweeper_misuse_witness :
  Sweeper.step day_of day_at StopCall told_to_stop = Some closed_channel.
Proof.
  apply (sweeper_misuse day_of day_at 0 log_disk [StartCall (20 * ns_day); SetDays 7; StopCall]);
    [reflexivity|right; right; left].
Defined.
End Witnesses.

Definition group_of (es : list Group.event) : Group.group :=
  default Group.empty (Group.FileAggregator_run es Group.empty).

Lemma second_start_orphans_witness :
  Group.workers (group_of [Group.StartCall 2; Group.StartCall 2; Group.StopCall; Group.WorkerExits 2;
    Group.WorkerExits 3]) !! 1 = Some 0.
Proof.
  apply (second_start_orphans (2 * ns_second) 2 2 [Group.StopCall; Group.WorkerExits 2; Group.WorkerExits 3]);
    [lia| |vm_compute; reflexivity|lia].
  intros H. repeat (apply elem_of_cons in H as [H|H]; [discriminate|]). by apply elem_of_nil in H.
Defined.

Lemma stopped_group_drains_witness : exists g',
  Group.FileAggregator_run [Group.WorkerExits 2; Group.WorkerExits 0; Group.WorkerExits 1; Group.StopDone]
    (group_of [Group.StartCall 3; Group.StopCall]) = Some g' /\
  Group.workers g' = ∅ /\ Group.waiting g' = 0.
Proof.
  apply (stopped_group_drains (2 * ns_second) 3 (group_of [Group.StartCall 3; Group.StopCall]) eq_refl [2; 0; 1]).
  vm_compute. etrans; [apply perm_swap|]. apply perm_skip, perm_swap.
Defined.
