(* ===== verification/Platform.v ===== *)
(** * internal/platform on Windows, the stubs, and cmd/unet-tray

    The tray menu over fyne.io/systray, the start at login over the Run key of
    the registry, the stubs of the other systems, and the process of the tray
    application.  [Tray] has the application's logic, which calls these, and
    [LocalAPI] the interface of the start at login. *)

From S2P Require Import Prelude GoLib Caddy Ports LocalAPI Tray.

(** ** tray_windows.go *)
Module Menu.

(** An entry of the library's menu. *)
Record entry := { title : string; greyed : bool; ticked : bool; parent : option nat }.

(** fyne.io/systray: every call makes or changes one entry, named by a handle. *)
Class Systray (S : Type) := {
  AddMenuItem : option nat -> string -> S -> nat * S;
  AddSeparator : S -> S;
  SetTitle : nat -> string -> S -> S;
  Disable : nat -> S -> S;
  Enable : nat -> S -> S;
  Check : nat -> S -> S;
  Uncheck : nat -> S -> S
}.

(** [platform.MenuItem]: [OnClick] names the action, if there is one. *)
Record item := { it : MenuItem; OnClick : option string; SubItems : list (MenuItem * option string) }.

(** [listeners] are the goroutines that wait for the clicks of an entry. *)
Record systrayImpl (S : Type) := {
  menuItems : gmap string nat; listeners : list (nat * string); lib : S
}.
Arguments menuItems {S} _.
Arguments listeners {S} _.
Arguments lib {S} _.

Section Menu.
Context {S : Type} `{Systray S}.

Definition NewTray (s : S) : systrayImpl S := {| menuItems := ∅; listeners := []; lib := s |}.

Definition on_lib (f : S -> S) (t : systrayImpl S) : systrayImpl S :=
  {| menuItems := menuItems t; listeners := listeners t; lib := f (lib t) |}.

(** [systray.AddMenuItem] or [AddSubMenuItem], the entry of the map and the
    goroutine of its clicks. *)
Definition add_entry (up : option nat) (m : MenuItem) (click : option string)
    (t : systrayImpl S) : nat * systrayImpl S :=
  let '(h, s) := AddMenuItem up (Label m) (lib t) in
  (h, {| menuItems := <[MenuID m := h]> (menuItems t);
         listeners := listeners t ++ match click with Some a => [(h, a)] | None => [] end;
         lib := s |}).

Definition add_sub (up : nat) (t : systrayImpl S) (sub : MenuItem * option string) : systrayImpl S :=
  snd (add_entry (Some up) (fst sub) (snd sub) t).

Definition addMenuItem (t : systrayImpl S) (i : item) : systrayImpl S :=
  if decide (SubItems i <> []) then
    let '(h, t) := add_entry None (it i) None t in foldl (add_sub h) t (SubItems i)
  else if decide (MenuID (it i) = "separator") then on_lib AddSeparator t
  else
    let '(h, t) := add_entry None (it i) (OnClick i) t in
    let t := if Disabled (it i) then on_lib (Disable h) t else t in
    if Checked (it i) then on_lib (Check h) t else t.

Definition SetMenu (items : list item) (t : systrayImpl S) : systrayImpl S :=
  foldl addMenuItem {| menuItems := ∅; listeners := listeners t; lib := lib t |} items.

Definition on_item (id : string) (f : nat -> S -> S) (t : systrayImpl S) : systrayImpl S :=
  match menuItems t !! id with Some h => on_lib (f h) t | None => t end.

Definition SetMenuItemLabel (id label : string) : systrayImpl S -> systrayImpl S :=
  on_item id (fun h => SetTitle h label).
Definition SetMenuItemDisabled (id : string) (disabled : bool) : systrayImpl S -> systrayImpl S :=
  on_item id (if disabled then Disable else Enable).
Definition SetMenuItemChecked (id : string) (checked : bool) : systrayImpl S -> systrayImpl S :=
  on_item id (fun h s => let s := Check h s in if checked then s else Uncheck h s).

(** What the goroutines of an entry do when it is clicked. *)
Definition clicks_of (h : nat) : list (nat * string) -> list string :=
  omap (fun l => if decide (fst l = h) then Some (snd l) else None).
Definition clicked (h : nat) (t : systrayImpl S) : list string := clicks_of h (listeners t).

(** The items [Tray.buildMenu] gives: all but the separators have a handler. *)
Definition item_of (m : MenuItem) : item :=
  {| it := m; SubItems := [];
     OnClick := if bool_decide (MenuID m = "sep1") || bool_decide (MenuID m = "sep2") then None
                else Some (MenuID m) |}.

(** The application's calls, as this tray carries them out; those to the icon,
    the network and the rest do not reach the menu. *)
Definition carry_out (t : systrayImpl S) (c : Call) : systrayImpl S :=
  match c with CMenu items => SetMenu (map item_of items) t | _ => t end.
End Menu.

(** The picture of a state. *)
Inductive picture := Green | Yellow | Red.
Definition SetIcon (state : IconState) : picture :=
  match state with IconGreen => Green | IconYellow => Yellow | IconRed => Red end.
End Menu.

(** ** autostart_windows.go, stubs_other.go *)
Module Autostart.

Definition runKeyName : string := "unet".

(** The Run key of the user and the paths of this process. *)
Class Registry (R : Type) := {
  CreateKey : eff R unit;
  OpenKey : R -> result unit;
  SetStringValue : string -> string -> eff R unit;
  DeleteValue : string -> eff R unit;
  GetStringValue : string -> R -> result string
}.

Definition quote (path : string) : string := dquote +:+ path +:+ dquote.

Definition unquote (val : string) : string :=
  if bool_decide (2 <= slen val) && HasPrefix val dquote && HasSuffix val dquote
  then stake (slen val - 2) (sdrop 1 val) else val.

Section Autostart.
Context {R : Type} `{Registry R}.
(** [os.Executable] and [filepath.EvalSymlinks] of the calling program. *)
Context (Executable : R -> result string) (EvalSymlinks : string -> R -> result string).

Definition executable : eff R string := fun r =>
  (exe ← wrap_err "autostart: get executable path: " (Executable r);
   wrap_err "autostart: resolve symlinks: " (EvalSymlinks exe r), r).

Definition Enable : eff R unit :=
  exe ← executable;
  _ ← wrap "autostart: open registry key: " CreateKey;
  wrap "autostart: set registry value: " (SetStringValue runKeyName (quote exe)).

Definition Disable : eff R unit := fun r =>
  match OpenKey r with
  | Ok _ => let '(_, r') := DeleteValue runKeyName r in (Ok tt, r')
  | _ => (Ok tt, r)
  end.

(** An error of [EvalSymlinks] leaves the empty path. *)
Definition IsEnabled (r : R) : bool :=
  match OpenKey r, GetStringValue runKeyName r with
  | Ok _, Ok val =>
      match Executable r with
      | Ok exe =>
          let exe := match EvalSymlinks exe r with Ok e => e | _ => EmptyString end in
          EqualFold (unquote val) exe
      | _ => negb (bool_decide (val = EmptyString))
      end
  | _, _ => false
  end.

Definition windows_autostart : AutoStart R :=
  {| LocalAPI.Enable := Enable; LocalAPI.Disable := Disable; LocalAPI.IsEnabled := IsEnabled |}.

(** The start of the tray application: the entry is written again when it is
    there. *)
Definition sync (r : R) : R := if IsEnabled r then snd (Enable r) else r.

(** The item "Start at login" of the menu. *)
Definition toggle (r : R) : R := snd ((if IsEnabled r then Disable else Enable) r).
End Autostart.

(** The stub of the other systems. *)
Definition stub_autostart : AutoStart unit :=
  {| LocalAPI.Enable := mret tt; LocalAPI.Disable := mret tt; LocalAPI.IsEnabled _ := false |}.
(** Its monitor closes the channel at once. *)
Definition stub_Watch : list NetworkEventType := [].
End Autostart.

(** ** cmd/unet-tray/main.go *)
Module Process.

(** [app_ctx_done] is the context of [App.Run], a child of that of [main]. *)
Record proc := {
  lock_held : bool; app_running : bool; app_ctx_done : bool; ctx_done : bool; exited : option Z
}.

(** [AppReturns] is [tray.Run] returning nil after [systray.Quit]. *)
Inductive event := Signal | QuitClicked | AppReturns | AppFails | MainWakes.

Definition start (lock : MutexResult) (app_ok : bool) : proc :=
  if AcquireSingletonLock lock then
    if app_ok then {| lock_held := match lock with MutexCreated => true | _ => false end;
                      app_running := true; app_ctx_done := false;
                      ctx_done := false; exited := None |}
    else {| lock_held := false; app_running := false; app_ctx_done := false; ctx_done := false;
            exited := Some 1%Z |}
  else {| lock_held := false; app_running := false; app_ctx_done := false; ctx_done := false;
          exited := Some 1%Z |}.

(** The end of [main]: the deferred release of the lock and of the context. *)
Definition leave (p : proc) : proc :=
  {| lock_held := false; app_running := false; app_ctx_done := true; ctx_done := true;
     exited := Some 0%Z |}.

Definition step (e : event) (p : proc) : option proc :=
  match exited p with
  | Some _ => None
  | None =>
      match e with
      | Signal => Some (leave p)
      | QuitClicked =>
          if app_running p
          then Some {| lock_held := lock_held p; app_running := true; app_ctx_done := true;
                       ctx_done := ctx_done p; exited := None |} else None
      | AppReturns =>
          if app_running p && (app_ctx_done p || ctx_done p)
          then Some {| lock_held := lock_held p; app_running := false; app_ctx_done := true;
                       ctx_done := ctx_done p; exited := None |} else None
      | AppFails =>
          if app_running p
          then Some {| lock_held := lock_held p; app_running := false; app_ctx_done := true;
                       ctx_done := true; exited := None |} else None
      | MainWakes => if ctx_done p then Some (leave p) else None
      end
  end.

Fixpoint run (es : list event) (p : proc) : option proc :=
  match es with [] => Some p | e :: es => p' ← step e p; run es p' end.

(** What [CreateMutex] says to the next tray application. *)
Definition next_lock (p : proc) : MutexResult := if lock_held p then MutexExists else MutexCreated.
End Process.

(** ** The menu *)
Module MenuView.
Import Menu.

Definition set_title (t : string) (e : entry) : entry :=
  {| title := t; greyed := greyed e; ticked := ticked e; parent := parent e |}.
Definition set_grey (b : bool) (e : entry) : entry :=
  {| title := title e; greyed := b; ticked := ticked e; parent := parent e |}.
Definition set_tick (b : bool) (e : entry) : entry :=
  {| title := title e; greyed := greyed e; ticked := b; parent := parent e |}.

(** What the library documents of its calls: [rows] are the entries in the order
    they were made, [None] a separator; [look] is an entry by its handle. *)
Class SystrayView (S : Type) `{Systray S} := {
  rows : S -> list (option nat);
  look : S -> nat -> option entry;
  add_rows p l s : rows (snd (AddMenuItem p l s)) = rows s ++ [Some (fst (AddMenuItem p l s))];
  add_fresh p l s : look s (fst (AddMenuItem p l s)) = None;
  add_look p l s h : look (snd (AddMenuItem p l s)) h =
    if decide (h = fst (AddMenuItem p l s))
    then Some {| title := l; greyed := false; ticked := false; parent := p |} else look s h;
  sep_rows s : rows (AddSeparator s) = rows s ++ [None];
  sep_look s h : look (AddSeparator s) h = look s h;
  title_rows h t s : rows (SetTitle h t s) = rows s;
  title_look h t s g : look (SetTitle h t s) g =
    if decide (g = h) then set_title t <$> look s g else look s g;
  disable_rows h s : rows (Disable h s) = rows s;
  disable_look h s g : look (Disable h s) g =
    if decide (g = h) then set_grey true <$> look s g else look s g;
  enable_rows h s : rows (Enable h s) = rows s;
  enable_look h s g : look (Enable h s) g =
    if decide (g = h) then set_grey false <$> look s g else look s g;
  check_rows h s : rows (Check h s) = rows s;
  check_look h s g : look (Check h s) g =
    if decide (g = h) then set_tick true <$> look s g else look s g;
  uncheck_rows h s : rows (Uncheck h s) = rows s;
  uncheck_look h s g : look (Uncheck h s) g =
    if decide (g = h) then set_tick false <$> look s g else look s g
}.
End MenuView.

Section MenuProofs.
Import Menu MenuView.
Context {S : Type} `{SystrayView S}.

(** An item with no submenu that is not called a separator. *)
Definition plain (i : item) : Prop := SubItems i = [] /\ MenuID (it i) <> "separator".

Definition entry_for (i : item) : entry :=
  {| title := Label (it i); greyed := Disabled (it i); ticked := Checked (it i); parent := None |}.

(** Every goroutine waits for an entry that exists. *)
Definition attended (t : systrayImpl S) : Prop :=
  forall h a, (h, a) ∈ listeners t -> look (lib t) h <> None.

Lemma clicks_none h l : (forall a, ~ (h, a) ∈ l) -> clicks_of h l = [].
Proof.
  unfold clicks_of. induction l as [|[g a] l IH]; intros Hn; cbn; [done|].
  case_decide as E; cbn in E; [subst; destruct (Hn a); left|].
  apply IH. intros b Hb. apply (Hn b). by right.
Qed.

Ltac view := repeat progress rewrite ?add_rows, ?sep_rows, ?title_rows, ?disable_rows, ?enable_rows, ?check_rows,
  ?uncheck_rows, ?sep_look, ?title_look, ?disable_look, ?enable_look, ?check_look, ?uncheck_look.

(** One item. *)
Record added (i : item) (t t' : systrayImpl S) (h : nat) : Prop := {
  ad_rows : rows (lib t') = rows (lib t) ++ [Some h];
  ad_look : look (lib t') h = Some (entry_for i);
  ad_old : forall g, g <> h -> look (lib t') g = look (lib t) g;
  ad_fresh : look (lib t) h = None;
  ad_map : menuItems t' = <[MenuID (it i) := h]> (menuItems t);
  ad_listeners : listeners t' = listeners t ++ match OnClick i with Some a => [(h, a)] | None => [] end
}.

Lemma addMenuItem_added i t : plain i -> exists h, added i t (addMenuItem t i) h.
Proof.
  intros [Hs Hsep]. unfold addMenuItem. rewrite decide_False by (intros n; apply n, Hs).
  rewrite decide_False by done. unfold add_entry.
  pose proof (add_rows None (Label (it i)) (lib t)) as Hr.
  pose proof (add_fresh None (Label (it i)) (lib t)) as Hf.
  pose proof (add_look None (Label (it i)) (lib t)) as Hl.
  destruct (AddMenuItem None (Label (it i)) (lib t)) as [h s]. cbn in Hr, Hf, Hl. exists h.
  destruct (Disabled (it i)) eqn:Hd, (Checked (it i)) eqn:Hc; (split; cbn [lib on_lib menuItems listeners];
    [view; exact Hr
    |view; rewrite ?decide_True, Hl, decide_True by done; unfold entry_for; by rewrite Hd, Hc
    |intros g Hg; view; by rewrite ?decide_False, Hl, ?decide_False by done
    |exact Hf|done|done]).
Qed.

Lemma clicked_added i t t' h g : added i t t' h -> attended t ->
  clicked g t' = clicked g t ++ (if decide (g = h) then option_list (OnClick i) else []).
Proof.
  intros [_ _ _ _ _ Hl] _. unfold clicked. rewrite Hl. unfold clicks_of. rewrite omap_app. f_equal.
  destruct (OnClick i) as [a|]; cbn; [|by case_decide].
  repeat case_decide; cbn; congruence.
Qed.

Lemma attended_added i t t' h : added i t t' h -> attended t -> attended t'.
Proof.
  intros [_ Hlk Hold Hf _ Hl] Ha g a. rewrite Hl. intros [Hin|Hin]%elem_of_app.
  - rewrite Hold; [by eapply Ha|]. intros ->. by apply (Ha h a).
  - destruct (OnClick i); [|by apply elem_of_nil in Hin].
    apply list_elem_of_singleton in Hin as [= -> ->]. by rewrite Hlk.
Qed.

Definition remember (m : gmap string nat) (ih : item * nat) : gmap string nat :=
  <[MenuID (it (fst ih)) := snd ih]> m.

(** A list of items. *)
Record shown_as (items : list item) (t t' : systrayImpl S) (hs : list nat) : Prop := {
  sh_rows : rows (lib t') = rows (lib t) ++ map Some hs;
  sh_new : Forall2 (fun i h => look (lib t') h = Some (entry_for i) /\ look (lib t) h = None /\
                               clicked h t' = option_list (OnClick i)) items hs;
  sh_old : forall g, look (lib t) g <> None ->
    look (lib t') g = look (lib t) g /\ clicked g t' = clicked g t;
  sh_map : menuItems t' = foldl remember (menuItems t) (zip items hs);
  sh_attended : attended t'
}.

Lemma add_all items t : Forall plain items -> attended t ->
  exists hs, shown_as items t (foldl addMenuItem t items) hs.
Proof.
  intros Hp. revert t. induction Hp as [|i items Hi Hp IH]; intros t Ha.
  - exists []. split; cbn; [by rewrite app_nil_r|constructor|done|done|done].
  - destruct (addMenuItem_added i t Hi) as [h Had]. cbn [foldl].
    pose proof (attended_added _ _ _ _ Had Ha) as Ha1.
    destruct (IH _ Ha1) as [hs [Hr Hn Ho Hm Hat]].
    pose proof (fun g => clicked_added _ _ _ _ g Had Ha) as Hc. destruct Had as [Ar Al Ao Af Am _].
    assert (clicked h t = []) as Hch.
    { apply clicks_none. intros a Hin. by apply (Ha h a). }
    exists (h :: hs). split.
    + rewrite Hr, Ar, <- app_assoc. done.
    + constructor.
      * destruct (Ho h) as [Hl1 Hc1]; [by rewrite Al|]. rewrite Hl1, Hc1, Hc, decide_True, Hch by done.
        by rewrite Al.
      * eapply list.Forall2_impl; [exact Hn|]. intros j g (H1 & H2 & H3). split_and!; [done| |done].
        destruct (decide (g = h)) as [->|Hne]; [done|]. by rewrite <- Ao.
    + intros g Hg. assert (g <> h) as Hne by (intros ->; by rewrite Af in Hg).
      destruct (Ho g) as [H1 H2]; [by rewrite Ao|]. rewrite H1, H2, Ao, Hc, decide_False by done.
      by rewrite app_nil_r.
    + rewrite Hm, Am. done.
    + done.
Qed.

Lemma SetMenu_shown items t : Forall plain items -> attended t ->
  exists hs, shown_as items {| menuItems := ∅; listeners := listeners t; lib := lib t |}
               (SetMenu items t) hs.
Proof. intros Hp Ha. by apply add_all. Qed.

(** The titles from top to bottom; a separator has none. *)
Definition titles (t : systrayImpl S) : list (option string) :=
  map (fun r => h ← r; title <$> look (lib t) h) (rows (lib t)).

(** Every row is an entry that exists. *)
Definition sound (t : systrayImpl S) : Prop :=
  attended t /\ Forall (fun r => exists h, r = Some h /\ look (lib t) h <> None) (rows (lib t)).

Lemma shown_titles items t t' hs : shown_as items t t' hs -> sound t ->
  titles t' = titles t ++ map (fun i => Some (Label (it i))) items /\ sound t'.
Proof.
  intros [Hr Hn Ho _ Hat] [_ Hs]. unfold titles, sound. rewrite Hr. split; [|split; [done|]].
  - rewrite map_app, map_map. f_equal.
    + apply map_ext_in. intros r Hin. rewrite List.Forall_forall in Hs.
      destruct (Hs _ Hin) as (h & -> & Hl). cbn. by rewrite (proj1 (Ho _ Hl)).
    + change (map (fun h => title <$> look (lib t') h) hs = map (fun i => Some (Label (it i))) items).
      clear Hr. induction Hn as [|i h items hs (Hl & _) _ IH]; [done|].
      cbn [map]. rewrite Hl, IH. done.
  - apply list.Forall_app. split.
    + eapply list.Forall_impl; [exact Hs|]. intros r (h & -> & Hl). exists h. split; [done|].
      by rewrite (proj1 (Ho _ Hl)).
    + clear Hr. induction Hn as [|i h items hs (Hl & _) _ IH]; [constructor|].
      cbn [map]. constructor; [|exact IH]. exists h. by rewrite Hl.
Qed.

(** The menus of a list of calls. *)
Definition menus_of (cs : list Call) : list (list MenuItem) :=
  omap (fun c => match c with CMenu m => Some m | _ => None end) cs.

Lemma item_of_plain m : Forall (fun m => MenuID m <> "separator") m -> Forall plain (map item_of m).
Proof. induction 1; constructor; done. Qed.

(** The menu is never replaced, it grows.  Whatever the application calls,
    each of its menus is appended below those before it: after [n] toggles of
    the start at login the user sees [n + 1] menus, with no separator in any of
    them, since the separators are asked for under other names and become
    entries without a title. *)
Theorem menus_pile_up cs t : sound t ->
  Forall (Forall (fun m => MenuID m <> "separator")) (menus_of cs) ->
  titles (foldl carry_out t cs) =
    titles t ++ map (fun m => Some (Label m)) (concat (menus_of cs)) /\
  sound (foldl carry_out t cs).
Proof.
  revert t. induction cs as [|c cs IH]; intros t Hs Hm; cbn; [by rewrite app_nil_r|].
  destruct c; try (by apply IH). cbn in Hm. apply list.Forall_cons in Hm as [Hm1 Hm].
  destruct (SetMenu_shown (map item_of items) t (item_of_plain _ Hm1) (proj1 Hs)) as [hs Hsh].
  destruct (shown_titles _ _ _ _ Hsh Hs) as [Ht Hs']. cbn [carry_out].
  destruct (IH _ Hs' Hm) as [-> ?]. split; [|done]. rewrite Ht, map_map.
  cbn [menus_of omap list_omap concat]. rewrite map_app, app_assoc. done.
Qed.

Lemma buildMenu_names autostart st : Forall (fun m => MenuID m <> "separator") (buildMenu autostart st).
Proof. unfold buildMenu. repeat case_match; repeat constructor; done. Qed.

(** Within one menu the handles are right.  After [SetMenu] of items with
    names of their own, the entry kept under a name is the one with the label
    and the flags asked for, a click on it runs its handler, and a check mark
    that is set or cleared afterwards is the one asked for; the entries of
    older menus stay as they were and keep their handlers. *)
Theorem last_menu_is_held items t i : Forall plain items -> attended t ->
  NoDup (map (fun i => MenuID (it i)) items) -> i ∈ items ->
  exists h, menuItems (SetMenu items t) !! MenuID (it i) = Some h /\
    look (lib (SetMenu items t)) h = Some (entry_for i) /\
    clicked h (SetMenu items t) = option_list (OnClick i) /\
    (forall b, look (lib (SetMenuItemChecked (MenuID (it i)) b (SetMenu items t))) h =
               Some (set_tick b (entry_for i))) /\
    (forall g, look (lib t) g <> None ->
       look (lib (SetMenu items t)) g = look (lib t) g /\
       clicked g (SetMenu items t) = clicked g t).
Proof.
  intros Hp Ha Hnd Hi. destruct (SetMenu_shown items t Hp Ha) as [hs [Hr Hn Ho Hm _]].
  generalize dependent (SetMenu items t). intros t' Hr Hn Ho Hm. cbn [menuItems lib] in *.
  assert (exists h, menuItems t' !! MenuID (it i) = Some h /\
    look (lib t') h = Some (entry_for i) /\
    clicked h t' = option_list (OnClick i)) as (h & H1 & H2 & H3).
  { rewrite Hm. clear Hm Ho Hr Ha Hp. generalize (∅ : gmap string nat) as m.
    induction Hn as [|j h js hs (Hl & _ & Hc) Hn IH]; intros m; [by apply elem_of_nil in Hi|].
    cbn [map] in Hnd. apply list.NoDup_cons in Hnd as [Hj Hnd]. cbn [zip zip_with foldl].
    apply elem_of_cons in Hi as [->|Hi]; [|by apply IH].
    exists h. split_and!; [|done|done].
    assert (forall l m, ~ MenuID (it j) ∈ map (fun i => MenuID (it i)) (map fst l) ->
      foldl remember m l !! MenuID (it j) = m !! MenuID (it j)) as Hk.
    { induction l as [|[k g] l IHl]; intros m'; cbn; [done|].
      rewrite elem_of_cons. intros Hne. rewrite IHl by tauto. apply lookup_insert_ne. naive_solver. }
    rewrite Hk; [apply lookup_insert_eq|]. intros Hin. apply Hj.
    apply list_elem_of_In in Hin. apply list_elem_of_In.
    apply in_map_iff in Hin as (k & E & Hin). apply in_map_iff. exists k. split; [done|].
    apply in_map_iff in Hin as ([k' g] & E2 & Hin). cbn in E2. subst k'. by eapply in_combine_l. }
  exists h. split_and!; [exact H1|exact H2|exact H3| |exact Ho].
  intros b. unfold SetMenuItemChecked, on_item. rewrite H1. cbn [lib on_lib].
  destruct b; view; rewrite ?decide_True by done; rewrite H2; done.
Qed.

(** Of a submenu only the labels and the handlers reach the screen: a
    disabled or checked entry of it is shown enabled and unchecked, and the
    handler of the entry that opens it is dropped. *)
Theorem submenu_flags_lost m click sub sclick t : MenuID m <> MenuID sub ->
  let t' := addMenuItem t {| it := m; OnClick := click; SubItems := [(sub, sclick)] |} in
  exists h g, menuItems t' !! MenuID m = Some h /\ menuItems t' !! MenuID sub = Some g /\
    look (lib t') g = Some {| title := Label sub; greyed := false; ticked := false; parent := Some h |} /\
    listeners t' = listeners t ++ match sclick with Some a => [(g, a)] | None => [] end.
Proof.
  intros Hne. unfold addMenuItem. rewrite decide_True by done. cbn [it SubItems foldl].
  unfold add_sub, add_entry. destruct (AddMenuItem None (Label m) (lib t)) as [h s] eqn:E1.
  cbn [fst snd lib menuItems listeners].
  pose proof (add_look (Some h) (Label sub) s) as Hl.
  destruct (AddMenuItem (Some h) (Label sub) s) as [g s'] eqn:E2. cbn in *. exists h, g.
  rewrite lookup_insert_ne, !lookup_insert_eq by done. rewrite Hl, decide_True by done.
  rewrite app_nil_r. done.
Qed.
End MenuProofs.

(** ** The start at login *)
Section AutostartProofs.
Import Autostart.
Context {R : Type} `{Registry R}.

(** What the registry documents: [stored] is the value of a name under the Run
    key; a call that fails leaves it. *)
Context (stored : R -> string -> option string).
Context (create_keeps : forall r, stored (snd (CreateKey r)) = stored r).
Context (set_ok : forall n v r r', SetStringValue n v r = (Ok tt, r') -> stored r' n = Some v).
Context (set_err : forall n v r, is_ok (fst (SetStringValue n v r)) = false ->
  stored (snd (SetStringValue n v r)) = stored r).
Context (delete_ok : forall n r r', DeleteValue n r = (Ok tt, r') -> stored r' n = None).
Context (delete_err : forall n r, is_ok (fst (DeleteValue n r)) = false ->
  stored (snd (DeleteValue n r)) = stored r).
Context (get_stored : forall n r v, GetStringValue n r = Ok v -> stored r n = Some v).

(** The key can be read. *)
Definition readable (r : R) : Prop :=
  is_ok (OpenKey r) = true /\ is_ok (GetStringValue runKeyName r) = true.

Lemma stake_all_but_last a s : stake (slen a) (a +:+ s) = a.
Proof. apply stake_app. Qed.

Lemma HasSuffix_app a b : HasSuffix (a +:+ b) b = true.
Proof.
  unfold HasSuffix. assert (slen (a +:+ b) = slen a + slen b) as ->.
  { unfold slen. induction a as [|c a IH]; cbn; [done|]. by rewrite IH. }
  replace (slen a + slen b - slen b) with (slen a) by lia. rewrite sdrop_app.
  rewrite !bool_decide_true by (done || lia). done.
Qed.

Lemma unquote_quote p : unquote (quote p) = p.
Proof.
  unfold unquote, quote.
  assert (slen (dquote +:+ p +:+ dquote) = S (slen p + 1)) as Hl.
  { unfold slen. cbn. f_equal. induction p as [|c p IH]; cbn; [done|]. by rewrite IH. }
  rewrite Hl, bool_decide_true by lia. rewrite HasPrefix_app, <- sapp_assoc, HasSuffix_app.
  cbn [andb]. replace (S (slen p + 1) - 2) with (slen p) by lia.
  change (sdrop 1 ((dquote +:+ p) +:+ dquote)) with (p +:+ dquote). apply stake_app.
Qed.

Lemma EqualFold_refl s : EqualFold s s = true.
Proof. induction s as [|c s IH]; cbn; [done|]. by rewrite bool_decide_true, IH. Qed.

Section Program.
(** The paths of a program do not depend on the registry. *)
Context (exe : string).
Abbreviation own_path := (fun _ : R => Ok exe).
Abbreviation real_path := (fun (p : string) (_ : R) => Ok p).
Abbreviation enable := (Enable own_path real_path).
Abbreviation enabled := (IsEnabled own_path real_path).

Lemma enable_shape r :
  enable r = match CreateKey r with
             | (Ok _, r1) => wrap "autostart: set registry value: "
                               (SetStringValue runKeyName (quote exe)) r1
             | (Err e, r1) => (Err ("autostart: open registry key: " +:+ e), r1)
             | (Panic e, r1) => (Panic e, r1)
             end.
Proof.
  unfold Enable, executable, mbind, eff_bind, wrap. cbn.
  by destruct (CreateKey r) as [[|e|e] r1].
Qed.

Lemma enable_cases r :
  (fst (enable r) = Ok tt /\ stored (snd (enable r)) runKeyName = Some (quote exe)) \/
  (is_ok (fst (enable r)) = false /\ stored (snd (enable r)) = stored r).
Proof.
  rewrite enable_shape. pose proof (create_keeps r) as Hc.
  destruct (CreateKey r) as [[u|e|e] r1]; cbn in Hc; [|by right..]. unfold wrap.
  pose proof (set_err runKeyName (quote exe) r1) as He.
  destruct (SetStringValue runKeyName (quote exe) r1) as [[[]|e|e] r2] eqn:E; cbn in *;
    [left; split; [done|by eapply set_ok]|right; by rewrite He, Hc..].
Qed.

Lemma enabled_iff r : readable r ->
  enabled r = match stored r runKeyName with Some v => EqualFold (unquote v) exe | None => false end.
Proof.
  intros [Ho Hg]. unfold IsEnabled. destruct (OpenKey r); [|done..].
  destruct (GetStringValue runKeyName r) as [v|e|e] eqn:E; [|done..].
  by rewrite (get_stored _ _ _ E).
Qed.

Lemma enabled_stored r : enabled r = true ->
  exists v, stored r runKeyName = Some v /\ EqualFold (unquote v) exe = true.
Proof.
  unfold IsEnabled. destruct (OpenKey r); [|done..].
  destruct (GetStringValue runKeyName r) as [v|e|e] eqn:E; [|done..]. intros Hv. exists v.
  split; [by eapply get_stored|done].
Qed.

(** What is enabled is seen as enabled, spaces and all: the path is stored
    between quotes and read back without them.  A failure leaves the entry as it
    was. *)
Theorem enabled_reads_back r :
  (fst (enable r) = Ok tt /\ stored (snd (enable r)) runKeyName = Some (quote exe) /\
   unquote (quote exe) = exe /\ (readable (snd (enable r)) -> enabled (snd (enable r)) = true)) \/
  (is_ok (fst (enable r)) = false /\ stored (snd (enable r)) = stored r).
Proof.
  destruct (enable_cases r) as [[H1 H2]|H1]; [left|by right].
  split_and!; [done|done|apply unquote_quote|]. intros Hr. rewrite enabled_iff, H2 by done.
  rewrite unquote_quote. apply EqualFold_refl.
Qed.

(** The tray application writes its entry again at its start to follow a
    binary that has moved, and never does: the entry is written only when it
    already names the running binary, so what is stored afterwards is what was
    stored, or the same path up to the case of its letters. *)
Theorem moved_binary_stays_lost r :
  let r' := sync own_path real_path r in
  stored r' = stored r \/
  exists v, stored r runKeyName = Some v /\ EqualFold (unquote v) exe = true /\
    stored r' runKeyName = Some (quote exe).
Proof.
  cbv zeta. unfold sync. destruct (enabled r) eqn:E; [|by left].
  apply enabled_stored in E as (v & Hv & He).
  destruct (enable_cases r) as [[_ H2]|[_ H2]]; [right; by exists v|by left].
Qed.

(** Turning the start at login off is answered with success whatever the
    registry does; the entry is gone only when the deletion worked.  Over the
    API the answer shows what is left. *)
Theorem disable_always_succeeds r :
  let r' := snd (Disable r) in
  fst (Disable r) = Ok tt /\ (stored r' runKeyName = None \/ stored r' = stored r) /\
  handleAutostart (H := windows_autostart own_path real_path) (Some false) r =
    (autostart_body (enabled r'), r').
Proof.
  cbv zeta. unfold handleAutostart. cbn [LocalAPI.Disable windows_autostart LocalAPI.IsEnabled].
  unfold Disable. destruct (OpenKey r) as [u|e|e]; [|split_and!; [done|by right|done]..].
  pose proof (delete_err runKeyName r) as He.
  destruct (DeleteValue runKeyName r) as [[[]|e|e] r1] eqn:E; cbn in *; split_and!; try done;
    [left; by eapply delete_ok|right; by apply He..].
Qed.
End Program.

(** The daemon and the tray application keep their entries under one name.
    Once one of them is enabled the other takes itself for disabled, and its
    item "Start at login" replaces the entry, after which the first is the one
    that is not started. *)
Theorem programs_share_an_entry exe1 exe2 r : EqualFold exe1 exe2 = false ->
  EqualFold exe2 exe1 = false ->
  let path e := fun _ : R => Ok e in
  let real := fun (p : string) (_ : R) => Ok p in
  let r1 := snd (Enable (path exe1) real r) in
  let r2 := toggle (path exe2) real r1 in
  fst (Enable (path exe1) real r) = Ok tt -> readable r1 ->
  IsEnabled (path exe2) real r1 = false /\
  (is_ok (fst (Enable (path exe2) real r1)) = true -> readable r2 ->
   stored r2 runKeyName = Some (quote exe2) /\ IsEnabled (path exe2) real r2 = true /\
   IsEnabled (path exe1) real r2 = false).
Proof.
  intros H12 H21 path real r1 r2 Hok Hr1. subst path real. cbv beta in *.
  destruct (enable_cases exe1 r) as [[_ Hs1]|[Hf _]]; [|by rewrite Hok in Hf].
  assert (Hoff : IsEnabled (fun _ => Ok exe2) (fun p _ => Ok p) r1 = false).
  { rewrite (enabled_iff exe2) by done. fold r1 in Hs1. rewrite Hs1, unquote_quote. done. }
  split; [done|]. intros Hok2 Hr2. unfold r2, toggle in *. rewrite Hoff in *.
  destruct (enable_cases exe2 r1) as [[_ Hs2]|[Hf _]]; [|by rewrite Hok2 in Hf].
  split; [done|]. rewrite (enabled_iff exe2), (enabled_iff exe1) by done.
  rewrite Hs2, unquote_quote, EqualFold_refl. done.
Qed.
End AutostartProofs.

(** Where the start at login is a stub the API answers a request to enable
    it with success and with [enabled: false], the tray shows it unchecked, and
    the network monitor never reports anything. *)
Theorem stub_answers want :
  fst (handleAutostart (H := Autostart.stub_autostart) (Some want) tt) = autostart_body false /\
  handleAutostartGet (H := Autostart.stub_autostart) tt = autostart_body false /\
  Autostart.stub_Watch = [].
Proof. by destruct want. Qed.

(** ** The process of the tray *)
Section ProcessProofs.
Import Process.

Lemma run_keeps (I : proc -> Prop) (ok : event -> Prop) es p p' :
  (forall e q q', ok e -> I q -> step e q = Some q' -> I q') ->
  Forall ok es -> I p -> run es p = Some p' -> I p'.
Proof.
  intros Hs Hok. revert p. induction Hok as [|e es He _ IH]; intros p Hp; cbn; [by intros [= <-]|].
  intros (q & Hq & H)%bind_Some. eapply IH; [|exact H]. by eapply Hs.
Qed.

(** "Quit" removes the icon and leaves the process.  As long as no signal
    comes and the tray itself does not fail, whatever is clicked the process
    stays and keeps its lock, also after the tray has returned, so the next
    tray application that is started finds the lock taken and ends. *)
Theorem quit_keeps_the_process es p :
  run es (start MutexCreated true) = Some p -> ~ Signal ∈ es -> ~ AppFails ∈ es ->
  exited p = None /\ lock_held p = true /\ step MainWakes p = None /\
  exited (start (next_lock p) true) = Some 1%Z.
Proof.
  intros Hr Hs Hf.
  assert (exited p = None /\ lock_held p = true /\ ctx_done p = false) as (H1 & H2 & H3).
  { refine (run_keeps (fun q => exited q = None /\ lock_held q = true /\ ctx_done q = false)
      (fun e => e <> Signal /\ e <> AppFails) es _ p _ _ _ Hr); [| |split_and!; reflexivity].
    - intros e q q' [He1 He2] (Hq & Hl & Hc). unfold step. rewrite Hq, Hc.
      destruct e; try done; repeat case_match; try done; intros [= <-]; done.
    - apply list.Forall_forall. intros e He. split; intros ->; done. }
  unfold step, next_lock. rewrite H1, H2, H3. done.
Qed.

(** A signal or a failure of the tray does end it, with the lock released. *)
Theorem process_ends p : exited p = None ->
  (exists p', step Signal p = Some p' /\ exited p' = Some 0%Z /\ lock_held p' = false) /\
  (app_running p = true -> exists p', run [AppFails; MainWakes] p = Some p' /\
     exited p' = Some 0%Z /\ lock_held p' = false).
Proof.
  intros He. split; [|intros Ha]; unfold step; cbn; rewrite ?He.
  - by eexists.
  - unfold step. rewrite He, Ha. cbn. by eexists.
Qed.
End ProcessProofs.

(** ** Witnesses *)

(** A menu as a list of entries; a handle is a position. *)
Record menu := { entries : list Menu.entry; order : list (option nat) }.

Definition edit (f : Menu.entry -> Menu.entry) (h : nat) (s : menu) : menu :=
  {| entries := alter f h (entries s); order := order s |}.

#[local] Instance list_systray : Menu.Systray menu := {|
  Menu.AddMenuItem p l s := (length (entries s),
    {| entries := entries s ++ [{| Menu.title := l; Menu.greyed := false; Menu.ticked := false;
                                   Menu.parent := p |}];
       order := order s ++ [Some (length (entries s))] |});
  Menu.AddSeparator s := {| entries := entries s; order := order s ++ [None] |};
  Menu.SetTitle h t := edit (MenuView.set_title t) h;
  Menu.Disable := edit (MenuView.set_grey true);
  Menu.Enable := edit (MenuView.set_grey false);
  Menu.Check := edit (MenuView.set_tick true);
  Menu.Uncheck := edit (MenuView.set_tick false)
|}.

Lemma edit_look f h s g : entries (edit f h s) !! g =
  if decide (g = h) then f <$> entries s !! g else entries s !! g.
Proof.
  cbn. case_decide as E; [subst; apply list_lookup_alter_eq|by apply list_lookup_alter_ne].
Qed.

#[local] Instance list_view : MenuView.SystrayView menu.
Proof.
  refine {| MenuView.rows := order; MenuView.look := fun s h => entries s !! h |}; try done;
    try (intros; apply edit_look).
  - intros p l s. cbn. apply lookup_ge_None_2. lia.
  - intros p l s h. cbn. case_decide as E.
    + subst. rewrite lookup_app_r, Nat.sub_diag by lia. done.
    + destruct (decide (h < length (entries s))); [by rewrite lookup_app_l|].
      rewrite !lookup_ge_None_2; [done|lia|]. rewrite length_app. cbn. lia.
Defined.

Definition bare : Menu.systrayImpl menu := Menu.NewTray {| entries := []; order := [] |}.

(** The start of the application and one toggle of the start at login. *)
Definition two_menus : list Call :=
  [CIcon IconRed; CMenu (buildMenu false initial_state); CAutostart true;
   CMenu (buildMenu true initial_state)].

Lemma menus_pile_up_witness :
  length (titles (foldl Menu.carry_out bare two_menus)) = 16 /\
  titles (foldl Menu.carry_out bare two_menus) !! 2 = Some (Some "").
Proof.
  destruct (menus_pile_up two_menus bare) as [Ht _].
  - split; [intros h a Hin; by apply elem_of_nil in Hin|constructor].
  - repeat constructor; discriminate.
  - rewrite Ht. split; vm_compute; reflexivity.
Defined.

Lemma last_menu_is_held_witness : exists h,
  Menu.menuItems (Menu.SetMenu (map Menu.item_of (buildMenu true initial_state)) bare) !! "autostart" = Some h /\
  Menu.clicked h (Menu.SetMenu (map Menu.item_of (buildMenu true initial_state)) bare) = ["autostart"].
Proof.
  destruct (last_menu_is_held (map Menu.item_of (buildMenu true initial_state)) bare
    (Menu.item_of {| MenuID := "autostart"; Label := "Start at login"; Disabled := false; Checked := true |}))
    as (h & H1 & _ & H2 & _).
  - repeat constructor; discriminate.
  - intros h a Hin. by apply elem_of_nil in Hin.
  - vm_compute. repeat (constructor; [intros Hin; repeat (apply elem_of_cons in Hin as [Hin|Hin];
      [discriminate|]); by apply elem_of_nil in Hin|]). constructor.
  - do 3 right. left.
  - exists h. exact (conj H1 H2).
Defined.

Lemma submenu_flags_lost_witness : exists h g,
  let sub := {| MenuID := "ssh"; Label := "SSH"; Disabled := true; Checked := true |} in
  let t' := Menu.addMenuItem bare {| Menu.it := item "vps" "VPS"; Menu.OnClick := Some "vps";
                                     Menu.SubItems := [(sub, Some "ssh")] |} in
  Menu.menuItems t' !! "vps" = Some h /\
  MenuView.look (Menu.lib t') g = Some {| Menu.title := "SSH"; Menu.greyed := false;
                                          Menu.ticked := false; Menu.parent := Some h |}.
Proof.
  destruct (submenu_flags_lost (item "vps" "VPS") (Some "vps")
    {| MenuID := "ssh"; Label := "SSH"; Disabled := true; Checked := true |} (Some "ssh") bare)
    as (h & g & H1 & _ & H2 & _); [discriminate|].
  exists h, g. exact (conj H1 H2).
Defined.

(** A registry with one value; a deletion is refused when [locked]. *)
Record one_key := { run_value : option string; locked : bool }.
#[local] Instance one_key_registry : Autostart.Registry one_key := {|
  Autostart.CreateKey r := (Ok tt, r);
  Autostart.OpenKey r := Ok tt;
  Autostart.SetStringValue n v r := (Ok tt, {| run_value := Some v; locked := locked r |});
  Autostart.DeleteValue n r :=
    if locked r then (Err "access denied", r)
    else (Ok tt, {| run_value := None; locked := false |});
  Autostart.GetStringValue n r :=
    match run_value r with Some v => Ok v | None => Err "not found" end
|}.
Definition value_of_key (r : one_key) (_ : string) : option string := run_value r.
Definition empty_key : one_key := {| run_value := None; locked := false |}.
Definition tray_exe : string := "C:\Program Files\unet\unet-tray.exe".
Definition daemon_exe : string := "C:\Program Files\unet\unet.exe".
Definition old_entry : one_key :=
  {| run_value := Some (Autostart.quote "D:\old\unet-tray.exe"); locked := true |}.

Lemma key_create r : value_of_key (snd (Autostart.CreateKey r)) = value_of_key r.
Proof. done. Qed.
Lemma key_set n v r r' : Autostart.SetStringValue n v r = (Ok tt, r') -> value_of_key r' n = Some v.
Proof. by intros [= <-]. Qed.
Lemma key_set_err n v r : is_ok (fst (Autostart.SetStringValue n v r)) = false ->
  value_of_key (snd (Autostart.SetStringValue n v r)) = value_of_key r.
Proof. done. Qed.
Lemma key_delete n r r' : Autostart.DeleteValue n r = (Ok tt, r') -> value_of_key r' n = None.
Proof. cbn. destruct (locked r); [done|]. by intros [= <-]. Qed.
Lemma key_delete_err n r : is_ok (fst (Autostart.DeleteValue n r)) = false ->
  value_of_key (snd (Autostart.DeleteValue n r)) = value_of_key r.
Proof. cbn. by destruct (locked r). Qed.
Lemma key_get n r v : Autostart.GetStringValue n r = Ok v -> value_of_key r n = Some v.
Proof. unfold value_of_key. cbn. destruct (run_value r); [|done]. by intros [= ->]. Qed.

Lemma enabled_reads_back_witness :
  Autostart.IsEnabled (fun _ => Ok tray_exe) (fun p _ => Ok p)
    (snd (Autostart.Enable (fun _ => Ok tray_exe) (fun p _ => Ok p) empty_key)) = true.
Proof.
  destruct (enabled_reads_back value_of_key key_create key_set key_set_err
    key_get tray_exe empty_key) as [(_ & _ & _ & H)|[H _]];
    [apply H; split; reflexivity|vm_compute in H; discriminate].
Defined.

Lemma moved_binary_stays_lost_witness :
  run_value (Autostart.sync (fun _ => Ok tray_exe) (fun p _ => Ok p) old_entry) = run_value old_entry.
Proof.
  destruct (moved_binary_stays_lost value_of_key key_create key_set key_set_err
    key_get tray_exe old_entry) as [H|(v & Hv & He & _)].
  - exact (f_equal (fun f => f "unet") H).
  - vm_compute in Hv. injection Hv as <-. vm_compute in He. discriminate.
Defined.

Lemma disable_always_succeeds_witness :
  fst (Autostart.Disable old_entry) = Ok tt /\
  run_value (snd (Autostart.Disable old_entry)) = run_value old_entry.
Proof.
  destruct (disable_always_succeeds value_of_key key_delete key_delete_err tray_exe old_entry)
    as (H1 & _ & _).
  split; [exact H1|reflexivity].
Defined.

Lemma programs_share_an_entry_witness :
  Autostart.IsEnabled (fun _ => Ok tray_exe) (fun p _ => Ok p)
    (snd (Autostart.Enable (fun _ => Ok daemon_exe) (fun p _ => Ok p) empty_key)) = false.
Proof.
  destruct (programs_share_an_entry value_of_key key_create key_set key_set_err key_get
    daemon_exe tray_exe empty_key) as [H _];
    [vm_compute; reflexivity|vm_compute; reflexivity|reflexivity|split; reflexivity|exact H].
Defined.

Lemma quit_keeps_the_process_witness : exists p,
  Process.run [Process.QuitClicked; Process.AppReturns] (Process.start MutexCreated true) = Some p /\
  Process.exited p = None /\ Process.app_running p = false /\
  Process.exited (Process.start (Process.next_lock p) true) = Some 1%Z.
Proof.
  eexists. split; [vm_compute; reflexivity|]. split; [reflexivity|]. split; [reflexivity|].
  eapply (quit_keeps_the_process [Process.QuitClicked; Process.AppReturns]); [vm_compute; reflexivity|..];
    intros Hin; repeat (apply elem_of_cons in Hin as [Hin|Hin]; [discriminate|]); by apply elem_of_nil in Hin.
Defined.

Lemma process_ends_witness : exists p',
  Process.step Process.Signal (Process.start MutexCreated true) = Some p' /\
  Process.exited p' = Some 0%Z /\ Process.lock_held p' = false.
Proof. exact (proj1 (process_ends (Process.start MutexCreated true) eq_refl)). Defined.
