(* ===== verification/System.v ===== *)
(** * cmd/unet/startup*.go, daemon/server.go, privileged*.go, config_*.go: the process and its system

    The gates of the start (the privileges, the command awg-quick, the lock
    of the single instance on every system), the named mutex of Windows with
    every interleaving of processes that start and end, the permissions of the
    configuration file on Windows, and the local server from its listener to
    the end of the process.  The answers of the operating system are
    parameters; the laws of named mutexes and the access check are the
    documented behaviour of Windows. *)

From S2P Require Import Prelude GoLib FS Config ServerConfig AWG Peer Tunnel Middleware Ports LocalAPI Startup Sockets.

(** ** startup.go, privileged_other.go and privileged_windows.go *)

(** The system a build is for, and what it answers.  A file with the suffix
    [_windows] or the tag [!windows] is part of one kind of build only. *)
Record platform := {
  GOOS : string;
  Getuid : Z;
  AllocateSid : option string;    (* why AllocateAndInitializeSid fails *)
  IsMember : result bool;         (* of the token in the administrators *)
  LookPath : string -> result string
}.

Definition sid_member (p : platform) : result bool :=
  match AllocateSid p with Some e => Err e | None => IsMember p end.

Definition windows_privileges (p : platform) : result unit :=
  match sid_member p with
  | Ok true => Ok tt
  | Ok false => Err "Error: unet requires administrator privileges. Right-click and 'Run as administrator'."
  | _ => Err "Error: could not determine administrator status."
  end.

(** The stub of the other builds. *)
Definition other_privileges : result unit :=
  Err "Error: Windows privilege check called on non-Windows platform.".

Definition checkPrivilegesWindows (p : platform) : result unit :=
  if decide (GOOS p = "windows") then windows_privileges p else other_privileges.

Definition checkPrivilegesPOSIX (p : platform) : result unit :=
  if decide (Getuid p <> 0%Z) then Err "Error: unet requires root privileges. Re-run with sudo or as root."
  else Ok tt.

Definition CheckPrivileges (p : platform) : result unit :=
  if decide (GOOS p = "windows") then checkPrivilegesWindows p
  else if decide (GOOS p ∈ ["linux"; "darwin"; "freebsd"]) then checkPrivilegesPOSIX p
  else Ok tt.

Definition CheckAwgPath (p : platform) : result unit :=
  if decide (GOOS p = "windows") then Ok tt
  else match LookPath p "awg-quick" with
       | Ok _ => Ok tt
       | _ => Err "Error: awg-quick not found. Install the AmneziaWG client first."
       end.

(** What a handler asks again at every request, in the two kinds of build. *)
Definition privileged_windows (p : platform) : bool := match sid_member p with Ok m => m | _ => false end.
Definition privileged_other (p : platform) : bool := bool_decide (Getuid p = 0%Z).
Definition checkPrivileged (p : platform) : bool :=
  if decide (GOOS p = "windows") then privileged_windows p else privileged_other p.
Definition isPrivileged (p : platform) : bool := checkPrivileged p.

(** ** startup_windows.go: the named mutex *)

Definition mutexName : string := "Global\unet-single-instance".
Definition waitTimeout : Z := 258.

(** The named mutexes of Windows.  A process has one handle to a mutex at
    most; a thread is a process and its number there.  [owner] is the thread
    that has a mutex, [opened] the processes with a handle to it.  The laws
    are what is documented: creating and closing do not change the owner,
    except that a mutex without handles is gone; a wait with no timeout takes
    a mutex that nobody has or says that another thread has it; only the owner
    releases it; and a thread that ends, or whose process does, abandons it. *)
Class NamedMutexes (K : Type) := {
  CreateMutex : string -> Z -> eff K unit;
  WaitForSingleObject : string -> Z * nat -> eff K Z;
  ReleaseMutex : string -> Z * nat -> eff K unit;
  CloseHandle : string -> Z -> eff K unit;
  thread_ends : Z * nat -> K -> K;
  process_ends : Z -> K -> K;
  owner : string -> K -> option (Z * nat);
  opened : string -> K -> gset Z;
  create_law n p k r k' : CreateMutex n p k = (r, k') -> owner n k' = owner n k /\
    (opened n k' = {[p]} ∪ opened n k \/ is_ok r = false /\ opened n k' = opened n k);
  wait_law n t k r k' : WaitForSingleObject n t k = (r, k') -> opened n k' = opened n k /\
    match r with
    | Ok v => if decide (v = waitTimeout) then owner n k' = owner n k /\ exists u, owner n k = Some u /\ u <> t
              else owner n k' = Some t /\ (owner n k = None \/ owner n k = Some t)
    | _ => owner n k' = owner n k
    end;
  release_law n t k r k' : ReleaseMutex n t k = (r, k') -> opened n k' = opened n k /\
    (owner n k' = owner n k \/ owner n k' = None /\ owner n k = Some t);
  close_law n p k r k' : CloseHandle n p k = (r, k') ->
    (forall q, q <> p -> q ∈ opened n k' <-> q ∈ opened n k) /\
    (owner n k' = owner n k \/ owner n k' = None /\ forall u, owner n k = Some u -> fst u ∉ opened n k');
  thread_law n t k : opened n (thread_ends t k) = opened n k /\
    owner n (thread_ends t k) = if decide (owner n k = Some t) then None else owner n k;
  process_law n p k : opened n (process_ends p k) = opened n k ∖ {[p]} /\
    match owner n k with
    | Some u => owner n (process_ends p k) = None /\ fst u ∉ opened n (process_ends p k) \/
                owner n (process_ends p k) = Some u /\ fst u <> p
    | None => owner n (process_ends p k) = None
    end
}.

Section Mutex.
Context {K : Type} `{NamedMutexes K}.

(** The two halves of [acquireLockWindows]: other processes run between. *)
Definition open_mutex (pid : Z) : eff K unit :=
  wrap "Error: could not create single-instance lock: " (CreateMutex mutexName pid).
Definition take_mutex (th : Z * nat) : eff K unit :=
  event ← wrap "Error: could not acquire single-instance lock: " (WaitForSingleObject mutexName th);
  if decide (event = waitTimeout) then throw "Error: another instance of unet is already running." else mret tt.
Definition acquireLockWindows (th : Z * nat) : eff K unit := _ ← open_mutex (fst th); take_mutex th.

(** The function it returns, on the thread that runs it then; what the two
    calls answer is dropped. *)
Definition release_lock (th : Z * nat) (k : K) : K := snd (ReleaseMutex mutexName th k).
Definition close_lock (pid : Z) (k : K) : K := snd (CloseHandle mutexName pid k).
End Mutex.

(** ** startup.go: the gates of [main] *)

(** What the lock is kept in. *)
Record os_state (K : Type) := { o_disk : World; o_kernel : K }.
Arguments o_disk {K} _. Arguments o_kernel {K} _. Arguments Build_os_state {K} _ _.
Definition onDiskOf {K A} (m : eff World A) : eff (os_state K) A :=
  on_part o_disk (fun w s => {| o_disk := w; o_kernel := o_kernel s |}) m.
Definition onKernel {K A} (m : eff K A) : eff (os_state K) A :=
  on_part o_kernel (fun k s => {| o_disk := o_disk s; o_kernel := k |}) m.

(** What the deferred function gives back. *)
Inductive held := PidFileHeld (path : string) | MutexHeld.

Section Gates.
Context {K : Type} `{NamedMutexes K}.
Context (p : platform) (home_dir : result string) (alive : Z -> bool) (th : Z * nat).

Definition AcquireLock : eff (os_state K) held :=
  if decide (GOOS p = "windows") then
    _ ← onKernel (acquireLockWindows th); mret MutexHeld
  else path ← onDiskOf (acquireLockPIDFile home_dir alive (fst th)); mret (PidFileHeld path).

(** The first three calls of [main]; an error ends the process. *)
Definition gates : eff (os_state K) held :=
  _ ← lift (CheckPrivileges p);
  _ ← lift (CheckAwgPath p);
  AcquireLock.
End Gates.

(** ** The processes of the machine *)

(** A process that has opened the mutex and not yet waited; one past the lock,
    with the thread that took it and whether that has not ended yet; one whose
    [main] has released it; and one on its way out, refused or done. *)
Inductive phase := Opened | Running (taker : nat) (alive : bool) | Released | Leaving.

Record machine (K : Type) := { procs : gmap Z phase; objects : K }.
Arguments procs {K} _. Arguments objects {K} _. Arguments Build_machine {K} _ _.

Definition thread_gone (t : nat) (ph : phase) : phase :=
  match ph with Running u a => Running u (a && negb (bool_decide (u = t))) | _ => ph end.

Section Processes.
Context {K : Type} `{NamedMutexes K}.

(** The scheduler of Go may move the goroutine of [main] from thread to thread:
    any thread of a process makes its next call, and any of them may end. *)
Inductive mutex_step : machine K -> machine K -> Prop :=
  | mx_open p m r k : procs m !! p = None -> open_mutex p (objects m) = (r, k) ->
      mutex_step m {| procs := <[p := if is_ok r then Opened else Leaving]> (procs m); objects := k |}
  | mx_take p t m r k : procs m !! p = Some Opened -> take_mutex (p, t) (objects m) = (r, k) ->
      mutex_step m {| procs := <[p := if is_ok r then Running t true else Leaving]> (procs m); objects := k |}
  | mx_release p t u a m : procs m !! p = Some (Running u a) ->
      mutex_step m {| procs := <[p := Released]> (procs m); objects := release_lock (p, t) (objects m) |}
  | mx_close p m : procs m !! p = Some Released ->
      mutex_step m {| procs := <[p := Leaving]> (procs m); objects := close_lock p (objects m) |}
  | mx_thread p t ph m : procs m !! p = Some ph ->
      mutex_step m {| procs := <[p := thread_gone t ph]> (procs m); objects := thread_ends (p, t) (objects m) |}
  | mx_gone p ph m : procs m !! p = Some ph ->
      mutex_step m {| procs := delete p (procs m); objects := process_ends p (objects m) |}.

(** No process of the program, and nobody has its mutex. *)
Definition quiet (m : machine K) : Prop :=
  procs m = ∅ /\ owner mutexName (objects m) = None /\ opened mutexName (objects m) = ∅.

(** ** Lemmas: the owner and the processes *)

Definition holds_handle (ph : phase) : Prop := match ph with Opened | Running _ _ => True | _ => False end.

Record mutex_inv (m : machine K) : Prop := {
  handle_open p ph : procs m !! p = Some ph -> holds_handle ph -> p ∈ opened mutexName (objects m);
  runner_owns p t : procs m !! p = Some (Running t true) -> owner mutexName (objects m) = Some (p, t);
  owner_started u : owner mutexName (objects m) = Some u ->
    exists ph, procs m !! fst u = Some ph /\ ph <> Opened
}.

Lemma take_mutex_inv th k r k' : take_mutex th k = (r, k') ->
  opened mutexName k' = opened mutexName k /\
  if is_ok r then owner mutexName k' = Some th /\ (owner mutexName k = None \/ owner mutexName k = Some th)
  else owner mutexName k' = owner mutexName k.
Proof.
  unfold take_mutex, wrap, mbind, eff_bind, throw, mret, eff_ret.
  destruct (WaitForSingleObject mutexName th k) as [r1 k1] eqn:Hw. apply wait_law in Hw as [Ho Hr].
  destruct r1 as [v|e|e]; cbn; [|by intros [= <- <-]..].
  revert Hr. destruct (decide (v = waitTimeout)); intros Hr [= <- <-]; cbn; tauto.
Qed.

Lemma mutex_step_inv m m' : mutex_inv m -> mutex_step m m' -> mutex_inv m'.
Proof.
  intros [Hh Hr Ho]. destruct 1 as [p m r k Hp Hk|p t m r k Hp Hk|p t u a m Hp|p m Hp|p t ph m Hp|p ph m Hp].
  - assert (Hk' : owner mutexName k = owner mutexName (objects m) /\ opened mutexName (objects m) ⊆ opened mutexName k /\
              (is_ok r = true -> p ∈ opened mutexName k)).
    { unfold open_mutex, wrap in Hk. destruct (CreateMutex mutexName p (objects m)) as [r1 k1] eqn:Hc.
      apply create_law in Hc as [Hc1 Hc2]. destruct r1; injection Hk as <- <-; cbn in *;
        (split; [done|]); (destruct Hc2 as [->|[? ->]]; [split; set_solver|split; done]). }
    destruct Hk' as (Hk1 & Hk2 & Hk3). split; cbn.
    + intros q ph [[<- <-]|[_ Hq]]%lookup_insert_Some Hhold; [destruct (is_ok r); [by apply Hk3|done]|].
      apply Hk2. by eapply Hh.
    + intros q u [[_ Hq]|[_ Hq]]%lookup_insert_Some; [by destruct (is_ok r)|]. rewrite Hk1. by apply Hr.
    + intros u Hu. rewrite Hk1 in Hu. destruct (Ho u Hu) as (ph & Hph & Hne). exists ph. split; [|done].
      apply lookup_insert_Some. right. split; [congruence|done].
  - apply take_mutex_inv in Hk as [Hop Hk]. split; cbn.
    + intros q ph [[<- <-]|[_ Hq]]%lookup_insert_Some Hhold; rewrite Hop; [by apply (Hh p Opened)|by eapply Hh].
    + intros q u [[<- Hq]|[Hne Hq]]%lookup_insert_Some; destruct (is_ok r); try done.
      * injection Hq as <-. tauto.
      * apply Hr in Hq. destruct Hk as [_ [Hk|Hk]]; congruence.
      * rewrite Hk. by apply Hr.
    + intros u Hu. destruct (is_ok r) eqn:Hok.
      * destruct Hk as [Hk _]. rewrite Hk in Hu. injection Hu as <-. cbn. rewrite lookup_insert_eq. by eexists.
      * rewrite Hk in Hu. destruct (Ho u Hu) as (ph & Hph & Hne).
        exists ph. rewrite lookup_insert_ne by congruence. done.
  - unfold release_lock. destruct (ReleaseMutex mutexName (p, t) (objects m)) as [r k] eqn:Hk.
    apply release_law in Hk as [Hop Hk]. split; cbn.
    + intros q ph [[<- <-]|[_ Hq]]%lookup_insert_Some Hhold; [done|]. rewrite Hop. by eapply Hh.
    + intros q v [[_ ?]|[Hne Hq]]%lookup_insert_Some; [done|]. apply Hr in Hq.
      destruct Hk as [->|[_ Hk]]; [done|congruence].
    + intros v Hv. destruct (decide (p = fst v)) as [->|Hne]; [rewrite lookup_insert_eq; by eexists|].
      rewrite lookup_insert_ne by done. apply Ho. destruct Hk as [Hk|[Hk _]]; congruence.
  - unfold close_lock. destruct (CloseHandle mutexName p (objects m)) as [r k] eqn:Hk.
    apply close_law in Hk as [Hop Hk]. split; cbn.
    + intros q ph [[<- <-]|[Hne Hq]]%lookup_insert_Some Hhold; [done|]. apply Hop; [done|]. by eapply Hh.
    + intros q v [[_ ?]|[Hne Hq]]%lookup_insert_Some; [done|]. pose proof (Hr _ _ Hq) as Hown.
      destruct Hk as [->|[_ Hk]]; [done|]. destruct (Hk _ Hown). apply Hop; [done|]. by eapply Hh.
    + intros v Hv. destruct (decide (p = fst v)) as [->|Hne]; [rewrite lookup_insert_eq; by eexists|].
      rewrite lookup_insert_ne by done. apply Ho. destruct Hk as [Hk|[Hk _]]; congruence.
  - destruct (thread_law mutexName (p, t) (objects m)) as [Hop Hk]. split; cbn.
    + intros q ph' [[<- <-]|[_ Hq]]%lookup_insert_Some Hhold; rewrite Hop; [|by eapply Hh].
      apply (Hh p ph Hp). by destruct ph.
    + intros q v [[<- Hq]|[Hne Hq]]%lookup_insert_Some; rewrite Hk.
      * destruct ph as [|w b| |]; cbn in Hq; try done. injection Hq as -> [-> Hne]%andb_prop.
        apply negb_true_iff, bool_decide_eq_false in Hne. rewrite (Hr _ _ Hp), decide_False by congruence. done.
      * rewrite (Hr _ _ Hq), decide_False by congruence. done.
    + intros v Hv. rewrite Hk in Hv. destruct (decide (owner mutexName (objects m) = Some (p, t))); [done|].
      destruct (Ho v Hv) as (ph' & Hph & Hne). destruct (decide (p = fst v)) as [->|Hne'].
      * rewrite lookup_insert_eq. eexists. split; [done|]. rewrite Hp in Hph. injection Hph as ->. by destruct ph'.
      * rewrite lookup_insert_ne by done. eauto.
  - destruct (process_law mutexName p (objects m)) as [Hop Hk]. split; cbn.
    + intros q ph' [Hne Hq]%lookup_delete_Some Hhold. rewrite Hop. apply elem_of_difference.
      split; [by eapply Hh|set_solver].
    + intros q v [Hne Hq]%lookup_delete_Some. rewrite (Hr _ _ Hq) in Hk.
      destruct Hk as [[_ Hk]|[Hk _]]; [|done]. destruct Hk. cbn. rewrite Hop. apply elem_of_difference.
      split; [by apply (Hh q _ Hq)|set_solver].
    + intros v Hv. destruct (owner mutexName (objects m)) as [w|] eqn:Hw; [|congruence].
      destruct Hk as [[Hk _]|[Hk Hne]]; [congruence|]. assert (v = w) as -> by congruence.
      destruct (Ho w eq_refl) as (ph' & Hph & Hx). exists ph'. by rewrite lookup_delete_ne.
Qed.

Lemma mutex_reachable m0 m : quiet m0 -> star mutex_step m0 m -> mutex_inv m.
Proof.
  intros (Hp & Hw & Hh). apply star_inv_ind; [intros s s'; apply mutex_step_inv|].
  split; rewrite ?Hp, ?Hw; intros *; by rewrite ?lookup_empty.
Qed.

(** ** Theorems: the lock of Windows *)

(** C40: On Windows two daemons never run at a time, however starts, ends and
    crashes of processes interleave and whatever threads make their calls,
    unlike with the pid file: as long as the threads that took the lock have
    not ended.  Nothing pins the goroutine of [main] to that thread. *)
Theorem windows_one_instance m0 m p q t u : quiet m0 -> star mutex_step m0 m ->
  procs m !! p = Some (Running t true) -> procs m !! q = Some (Running u true) -> p = q.
Proof.
  intros H0 Hs Hp Hq. destruct (mutex_reachable m0 m H0 Hs) as [_ Hr _].
  apply Hr in Hp. apply Hr in Hq. congruence.
Qed.

(** The lock is never lost: a process that is told that another instance runs
    is told so while another one is past its wait, and has not ended. *)
Theorem windows_lock_is_not_lost m0 m p t k : quiet m0 -> star mutex_step m0 m -> procs m !! p = Some Opened ->
  take_mutex (p, t) (objects m) = (Err "Error: another instance of unet is already running.", k) ->
  exists q ph, q <> p /\ procs m !! q = Some ph /\ ph <> Opened.
Proof.
  intros H0 Hs Hp. destruct (mutex_reachable m0 m H0 Hs) as [_ _ Ho].
  unfold take_mutex, wrap, mbind, eff_bind, throw, mret, eff_ret.
  destruct (WaitForSingleObject mutexName (p, t) (objects m)) as [[v|e|e] k1] eqn:Hw; [|done..].
  apply wait_law in Hw as [_ Hw]. revert Hw. cbn [wrap_err]. destruct (decide (v = waitTimeout)); [|by cbn; intros _]. intros (_ & u & Hu & _) _.
  destruct (Ho u Hu) as (ph & Hph & Hne). exists (fst u), ph. split_and!; try done. intros He. congruence.
Qed.

(** Where the creation answers with an error for a mutex that exists, besides
    the handle, as the binding of Go does, a start is refused as soon as
    another process has opened the lock: with the message that the lock could
    not be created, although it may be that no daemon runs and none will.  The
    message that another instance runs is for other bindings. *)
Theorem windows_start_refused m0 m p q ph t : quiet m0 -> star mutex_step m0 m ->
  (forall k, opened mutexName k <> ∅ -> is_ok (fst (CreateMutex mutexName p k)) = false) ->
  procs m !! q = Some ph -> holds_handle ph ->
  fst (acquireLockWindows (p, t) (objects m)) =
    wrap_err "Error: could not create single-instance lock: " (fst (CreateMutex mutexName p (objects m))) /\
  is_ok (fst (acquireLockWindows (p, t) (objects m))) = false.
Proof.
  intros H0 Hs Hrep Hq Hh. destruct (mutex_reachable m0 m H0 Hs) as [Ho _ _].
  specialize (Hrep (objects m) ltac:(intros He; pose proof (Ho q ph Hq Hh) as Hx; rewrite He in Hx; by apply not_elem_of_empty in Hx)).
  unfold acquireLockWindows, open_mutex, wrap, mbind, eff_bind. cbn [fst].
  destruct (CreateMutex mutexName p (objects m)) as [[[]|e|e] k]; done.
Qed.
End Processes.

(** *** Mutexes that behave so *)

(** A mutex exists while a process has a handle to it. *)
Record mutex := { m_owner : option (Z * nat); m_handles : gset Z; abandoned : bool }.
Abbreviation kernel := (gmap string mutex).
Definition get_mutex (n : string) (k : kernel) : mutex :=
  default {| m_owner := None; m_handles := ∅; abandoned := false |} (k !! n).

Definition drop_handle (p : Z) (m : mutex) : option mutex :=
  if decide (m_handles m ∖ {[p]} = ∅) then None
  else Some {| m_owner := m_owner m; m_handles := m_handles m ∖ {[p]}; abandoned := abandoned m |}.
Definition abandon (who : Z * nat -> bool) (m : mutex) : mutex :=
  match m_owner m with
  | Some t => if who t then {| m_owner := None; m_handles := m_handles m; abandoned := true |} else m
  | None => m
  end.

(** [reports]: the creation answers with an error for a mutex that exists. *)
Program Definition kernel_mutexes (reports : bool) : NamedMutexes kernel := {|
  CreateMutex n p k :=
    let m := get_mutex n k in
    (if reports && bool_decide (m_handles m <> ∅) then Err "Cannot create a file when that file already exists." else Ok tt,
     <[n := {| m_owner := m_owner m; m_handles := {[p]} ∪ m_handles m; abandoned := abandoned m |}]> k);
  WaitForSingleObject n t k :=
    match k !! n with
    | None => (Err "The handle is invalid.", k)
    | Some m =>
        if decide (m_owner m = None \/ m_owner m = Some t)
        then (Ok (if abandoned m then 128 else 0)%Z,
              <[n := {| m_owner := Some t; m_handles := m_handles m; abandoned := false |}]> k)
        else (Ok waitTimeout, k)
    end;
  ReleaseMutex n t k :=
    let m := get_mutex n k in
    if decide (m_owner m = Some t)
    then (Ok tt, <[n := {| m_owner := None; m_handles := m_handles m; abandoned := false |}]> k)
    else (Err "Attempt to release mutex not owned by caller.", k);
  CloseHandle n p k := (Ok tt, partial_alter (fun o => o ≫= drop_handle p) n k);
  thread_ends t k := abandon (fun u => bool_decide (u = t)) <$> k;
  process_ends p k := omap (fun m => drop_handle p (abandon (fun u => bool_decide (fst u = p)) m)) k;
  owner n k := m_owner (get_mutex n k);
  opened n k := m_handles (get_mutex n k)
|}.
Next Obligation.
  intros reports n p k r k' [= <- <-]. unfold get_mutex. rewrite lookup_insert_eq. cbn. auto.
Qed.
Next Obligation.
  intros reports n t k r k'. unfold get_mutex. destruct (k !! n) as [[o hs ab]|] eqn:Hn; cbn; [|intros [= <- <-]; by rewrite Hn].
  case_decide as Ho; intros [= <- <-].
  - rewrite lookup_insert_eq, decide_False by by destruct ab. done.
  - rewrite Hn, decide_True by done. split; [done|]. split; [done|]. cbn. destruct o as [u|]; [|tauto]. exists u.
    split; [done|]. intros ->. tauto.
Qed.
Next Obligation.
  intros reports n t k r k'. unfold get_mutex. cbn. case_decide as Ho; intros [= <- <-]; [|auto].
  rewrite lookup_insert_eq. cbn. auto.
Qed.
Next Obligation.
  intros reports n p k r k' [= <- <-]. unfold get_mutex. rewrite lookup_partial_alter_eq.
  destruct (k !! n) as [[o hs ab]|]; cbn; [|by split; [|left]]. unfold drop_handle. cbn.
  case_decide as He; cbn; (split; [set_solver|]); [right|by left]. split; [done|]. set_solver.
Qed.
Next Obligation.
  intros reports n t k. unfold get_mutex. rewrite lookup_fmap. destruct (k !! n) as [[[u|] hs ab]|]; cbn; [|done..].
  unfold abandon. cbn. destruct (decide (u = t)) as [->|Hu].
  - rewrite bool_decide_eq_true_2, decide_True by done. done.
  - rewrite bool_decide_eq_false_2, decide_False by congruence. done.
Qed.
Next Obligation.
  intros reports n p k. unfold get_mutex. rewrite lookup_omap.
  destruct (k !! n) as [[o hs ab]|]; cbn; [|split; [set_solver|done]]. unfold abandon, drop_handle. cbn.
  destruct o as [u|]; [destruct (decide (fst u = p)) as [Hu|Hu];
    [rewrite (bool_decide_eq_true_2 (fst u = p)) by done|rewrite (bool_decide_eq_false_2 (fst u = p)) by done]|];
    cbn; (destruct (decide (hs ∖ {[p]} = ∅)) as [He|He]; cbn; [|]); set_solver.
Qed.

(** One daemon runs; a second process has opened the mutex; the first has
    crashed, or the thread that took its lock has ended. *)
Definition before : machine kernel := {| procs := ∅; objects := ∅ |}.
Definition k1 (reports : bool) : kernel := snd (acquireLockWindows (H := kernel_mutexes reports) (1%Z, 0) ∅).
Definition one_running (reports : bool) : machine kernel :=
  {| procs := <[1%Z := Running 0 true]> (<[1%Z := Opened]> ∅); objects := k1 reports |}.
Definition second_opened : machine kernel :=
  {| procs := <[2%Z := Opened]> (procs (one_running false)); objects := snd (open_mutex (H := kernel_mutexes false) 2 (k1 false)) |}.

Lemma before_quiet reports : quiet (H := kernel_mutexes reports) before.
Proof. done. Qed.

Definition first_opened (reports : bool) : machine kernel :=
  {| procs := <[1%Z := Opened]> ∅; objects := snd (open_mutex (H := kernel_mutexes reports) 1 ∅) |}.

Lemma one_running_reached reports : star (mutex_step (H := kernel_mutexes reports)) before (one_running reports).
Proof.
  apply (star_snoc _ _ (first_opened reports)); [apply (star_snoc _ _ before); [apply star_nil|]|].
  - refine (mx_open (H := kernel_mutexes reports) 1 before (Ok tt) _ eq_refl _). by destruct reports.
  - refine (mx_take (H := kernel_mutexes reports) 1 0 (first_opened reports) (Ok tt) (k1 reports) eq_refl _).
    by destruct reports.
Qed.

Lemma second_opened_reached : star (mutex_step (H := kernel_mutexes false)) before second_opened.
Proof.
  apply (star_snoc _ _ (one_running false)); [apply one_running_reached|].
  refine (mx_open (H := kernel_mutexes false) 2 (one_running false) (Ok tt) _ eq_refl _). reflexivity.
Qed.

Lemma windows_one_instance_witness :
  (forall q u, q <> 1%Z -> procs (one_running true) !! q <> Some (Running u true)) /\
  procs (one_running true) !! 1%Z = Some (Running 0 true).
Proof.
  split; [|reflexivity]. intros q u Hne Hq. apply Hne.
  exact (windows_one_instance (H := kernel_mutexes true) before (one_running true) q 1 u 0 (before_quiet true)
    (one_running_reached true) Hq eq_refl).
Defined.

(** When the thread ends under a daemon that runs, the next one is let in:
    [windows_one_instance] needs its threads. *)
Example taker_gone_second_runs :
  let k := thread_ends (NamedMutexes := kernel_mutexes false) (1%Z, 0) (objects second_opened) in
  fst (take_mutex (H := kernel_mutexes false) (2%Z, 0) (objects second_opened)) =
    Err "Error: another instance of unet is already running." /\
  fst (take_mutex (H := kernel_mutexes false) (2%Z, 0) k) = Ok tt /\
  fst (take_mutex (H := kernel_mutexes false) (2%Z, 0) (process_ends (NamedMutexes := kernel_mutexes false) 1 (objects second_opened))) = Ok tt.
Proof. vm_compute. done. Qed.

Lemma windows_lock_is_not_lost_witness :
  exists q ph, q <> 2%Z /\ procs second_opened !! q = Some ph /\ ph <> Opened.
Proof.
  exact (windows_lock_is_not_lost (H := kernel_mutexes false) before second_opened 2 0 _ (before_quiet false)
    second_opened_reached eq_refl eq_refl).
Defined.

Lemma windows_start_refused_witness :
  is_ok (fst (acquireLockWindows (H := kernel_mutexes true) (2%Z, 0) (objects (one_running true)))) = false.
Proof.
  refine (proj2 (windows_start_refused (H := kernel_mutexes true) before (one_running true) 2 1 (Running 0 true) 0
    (before_quiet true) (one_running_reached true) _ eq_refl I)).
  intros k Hk. cbn in *. by rewrite bool_decide_eq_true_2.
Defined.

(** ** Theorems: the gates *)

Definition supported (p : platform) : bool := bool_decide (GOOS p ∈ ["windows"; "linux"; "darwin"; "freebsd"]).

Lemma CheckPrivileges_spec p : CheckPrivileges p = Ok tt <-> (supported p = true -> checkPrivileged p = true).
Proof.
  unfold CheckPrivileges, checkPrivilegesWindows, windows_privileges, checkPrivilegesPOSIX, checkPrivileged,
    privileged_windows, privileged_other, supported.
  rewrite bool_decide_eq_true. case_decide as Hw.
  - destruct (sid_member p) as [[]|e|e]; split; try done;
      intros H; by specialize (H ltac:(set_solver)).
  - rewrite (elem_of_cons _ _ "windows"). case_decide as Hs; [|tauto].
    case_decide as Hu; rewrite bool_decide_eq_true; split; try done; try lia.
    intros H. by destruct (Hu (H (or_intror Hs))).
Qed.

(** A daemon gets as far as the lock only when it has its privileges,
    on the systems whose privileges are checked, and finds its command,
    outside Windows; a process that is refused before has touched neither
    the disk nor a kernel object, and every other one ends with what the
    attempt at the lock gives. *)
Theorem gates_before_the_lock {K} `{NamedMutexes K} p home_dir alive th s :
  let go := gates p home_dir alive th s in
  let fit := (supported p = true -> checkPrivileged p = true) /\
             (GOOS p <> "windows" -> is_ok (LookPath p "awg-quick") = true) in
  (fit -> go = AcquireLock p home_dir alive th s) /\
  (~ fit -> exists e, go = (Err e, s)).
Proof.
  intros go fit. subst go fit. rewrite <- CheckPrivileges_spec. unfold gates, mbind, eff_bind, lift.
  destruct (CheckPrivileges p) as [[]|e|e] eqn:Hp.
  - unfold CheckAwgPath. case_decide as Hw; [split; [done|]; intros []; tauto|].
    destruct (LookPath p "awg-quick") as [x|e|e]; cbn; [split; [done|intros []; tauto]|..];
      (split; [intros [_ Hf]; by specialize (Hf Hw)|eauto]).
  - split; [by intros [? _]|eauto].
  - exfalso. revert Hp. unfold CheckPrivileges, checkPrivilegesWindows, windows_privileges, checkPrivilegesPOSIX.
    repeat case_match; done.
Qed.

(** ** Theorems: the privileges that handlers ask for *)

Section PrivilegeProofs.
Context {C E : Type} `{ConfigManager C} `{SSHExecutor E} `{LocalHost E}.

(** The answer that asks for privileges is never given by a daemon
    that passed its start on Windows, Linux, macOS or FreeBSD, where the two
    checks ask for the same; on any other system the start lets everybody in,
    and a daemon of an ordinary user refuses every request to connect. *)
Theorem privileges_asked_twice p (s : Tunnel.Manager (C := C) (E := E)) : CheckPrivileges p = Ok tt ->
  (supported p = true -> handleConnect (isPrivileged p) s = handleConnect true s /\
                         code (fst (handleConnect (isPrivileged p) s)) <> 503%Z) /\
  (supported p = false -> Getuid p <> 0%Z -> code (fst (handleConnect (isPrivileged p) s)) = 503%Z).
Proof.
  intros Hp. rewrite CheckPrivileges_spec in Hp. unfold isPrivileged. split.
  - intros Hs. rewrite (Hp Hs). split; [done|]. unfold handleConnect. cbn. by case_decide.
  - unfold supported, checkPrivileged, privileged_other. rewrite bool_decide_eq_false. intros Hs Hu.
    rewrite decide_False by set_solver. by rewrite bool_decide_eq_false_2.
Qed.
End PrivilegeProofs.

(** A daemon of root on Linux, and one of a user on NetBSD. *)
Definition linux_root : platform :=
  {| GOOS := "linux"; Getuid := 0; AllocateSid := None; IsMember := Ok false; LookPath f := Ok ("/usr/bin/" +:+ f) |}.
Definition netbsd_user : platform :=
  {| GOOS := "netbsd"; Getuid := 1000; AllocateSid := None; IsMember := Ok false; LookPath f := Ok ("/usr/bin/" +:+ f) |}.

Lemma privileges_asked_twice_witness :
  code (fst (handleConnect (C := RootConfig) (E := unit) (isPrivileged linux_root) ready)) <> 503%Z /\
  code (fst (handleConnect (C := RootConfig) (E := unit) (isPrivileged netbsd_user) ready)) = 503%Z.
Proof.
  split.
  - exact (proj2 (proj1 (privileges_asked_twice linux_root ready eq_refl) eq_refl)).
  - exact (proj2 (privileges_asked_twice netbsd_user ready eq_refl) eq_refl ltac:(done)).
Defined.

(** ** config_windows.go and config_posix.go *)

(** An entry of an access list: full access allowed or denied to a SID. *)
Record ace := { allow : bool; sid : string }.

(** The SIDs of a process; one for denial only counts for denials. *)
Record token := { enabled : gset string; deny_only : gset string }.

(** The access check of Windows: the first entry that applies decides, and
    without one access is denied. *)
Fixpoint access_check (t : token) (acl : list ace) : bool :=
  match acl with
  | [] => false
  | e :: rest =>
      if allow e then (if decide (sid e ∈ enabled t) then true else access_check t rest)
      else (if decide (sid e ∈ enabled t ∪ deny_only t) then false else access_check t rest)
  end.

(** What [saveLocked] asks of the system it is built for. *)
Class FileOps (S : Type) := {
  setFilePerm : string -> eff S unit;
  atomicRename : string -> string -> eff S unit;
  RemoveFile : string -> eff S unit
}.

(** The last step: a file that cannot be moved is removed. *)
Definition rename_or_remove {S} `{FileOps S} (tmpName path : string) : eff S unit := fun s =>
  match atomicRename tmpName path s with
  | (Err e, s') => (Err ("config: rename " +:+ tmpName +:+ " -> " +:+ path +:+ ": " +:+ e), snd (RemoveFile tmpName s'))
  | r => r
  end.

(** The end of [saveLocked]: a failure of the permissions is logged. *)
Definition publish {S} `{FileOps S} (tmpName path : string) : eff S unit :=
  _ ← try (setFilePerm tmpName);
  rename_or_remove tmpName path.

(** Its beginning: a new file with the data, closed. *)
Definition write_temp (dir data : string) : eff World string :=
  tmpName ← wrap "config: create temp: " (CreateTemp (dir +:+ "/config.") ".tmp");
  _ ← or_cleanup (WriteTo tmpName data) "config: write temp: " [CloseFile tmpName; Remove tmpName];
  _ ← or_cleanup (Sync tmpName) "config: sync temp: " [CloseFile tmpName; Remove tmpName];
  _ ← or_cleanup (CloseFile tmpName) "config: close temp: " [Remove tmpName];
  mret tmpName.

#[export] Instance posix_files : FileOps World := {|
  setFilePerm := Chmod;
  atomicRename := Rename;
  RemoveFile := Remove
|}.

Definition sddl : string := "D:P(A;;FA;;;BA)(A;;FA;;;SY)(A;;FA;;;CO)(D;;FA;;;WD)".

(** The entries it stands for. *)
Definition config_acl : list ace :=
  [{| allow := true; sid := "BA" |}; {| allow := true; sid := "SY" |};
   {| allow := true; sid := "CO" |}; {| allow := false; sid := "WD" |}].

Section WindowsFiles.
(** A security descriptor, how one is read and its access list. *)
Context {SD : Type} (SecurityDescriptorFromString : string -> result SD) (DACL : SD -> result (list ace)).
(** The list that a new file of the directory gets. *)
Context (inherited : list ace).

Record winfs := { w_disk : World; acls : gmap string (list ace) }.
Definition onFiles {A} (m : eff World A) : eff winfs A :=
  on_part w_disk (fun w s => {| w_disk := w; acls := acls s |}) m.
Definition set_acls (f : gmap string (list ace) -> gmap string (list ace)) : eff winfs unit :=
  fun s => (Ok tt, {| w_disk := w_disk s; acls := f (acls s) |}).

Definition setFilePerm_windows (path : string) : eff winfs unit :=
  sd ← wrap "config: SDDL parse: " (lift (SecurityDescriptorFromString sddl));
  dacl ← wrap "config: extract DACL: " (lift (DACL sd));
  _ ← wrap "config: windows set ACL: " (onFiles (syscall id no_change));
  set_acls <[path := dacl]>.

(** [windows.UTF16PtrFromString] *)
Definition UTF16PtrFromString (s : string) : result string :=
  if free_of zero s then Ok s else Err "invalid argument".

(** A file keeps its list when it is moved. *)
Definition move_acl (src dst : string) (m : gmap string (list ace)) : gmap string (list ace) :=
  match m !! src with Some a => <[dst := a]> (delete src m) | None => delete dst m end.

Definition atomicRename_windows (src dst : string) : eff winfs unit :=
  _ ← wrap "config: atomicRename src: " (lift (UTF16PtrFromString src));
  _ ← wrap "config: atomicRename dst: " (lift (UTF16PtrFromString dst));
  _ ← wrap "config: MoveFileEx: " (onFiles (Rename src dst));
  set_acls (move_acl src dst).

Definition windows_files : FileOps winfs := {|
  setFilePerm := setFilePerm_windows;
  atomicRename := atomicRename_windows;
  RemoveFile path := _ ← onFiles (Remove path); set_acls (delete path)
|}.

(** [saveLocked] of a build for Windows: a new file has the list of its
    directory. *)
Definition saveLocked_windows (dir data : string) : eff winfs unit :=
  tmpName ← onFiles (write_temp dir data);
  _ ← set_acls (delete tmpName);
  publish (H := windows_files) tmpName (Config.cfgPath dir).

Definition can_access (t : token) (path : string) (s : winfs) : bool :=
  access_check t (default inherited (acls s !! path)).
End WindowsFiles.

(** ** Theorems: the configuration file on each system *)

(** The save of the configuration is one program over two systems: its
    new file, then the step that asks the system for permissions and for the
    move.  On POSIX that is the save whose atomicity is proved. *)
Theorem save_over_posix dir marshal cfg w :
  saveLocked dir marshal cfg w =
  (data ← marshalled "config: marshal: " (marshal cfg); tmp ← write_temp dir data; publish tmp (Config.cfgPath dir)) w.
Proof.
  unfold saveLocked, write_temp, publish, mbind, eff_bind.
  destruct (marshalled _ (marshal cfg) w) as [[data|e|e] w0]; [|done..]. clear w. rename w0 into w.
  destruct (wrap _ (CreateTemp _ _) w) as [[tmp|e|e] w1]; [|done..].
  destruct (or_cleanup (WriteTo _ _) _ _ w1) as [[x|e|e] w2]; [|done..].
  destruct (or_cleanup (Sync _) _ _ w2) as [[y|e|e] w3]; [|done..].
  destruct (or_cleanup (CloseFile _) _ _ w3) as [[z|e|e] w4]; [|done..].
  unfold mret, eff_ret. cbv beta iota.
  change (try (setFilePerm tmp)) with (try (Chmod tmp)). destruct (try (Chmod tmp) w4) as [[c|e|e] w5]; [|done..].
  unfold or_cleanup, rename_or_remove. change (atomicRename tmp) with (Rename tmp).
  destruct (Rename tmp (Config.cfgPath dir) w5) as [[]]; [done| |done]. by rewrite !sapp_assoc.
Qed.

Section WindowsProofs.
Context {SD : Type} (SecurityDescriptorFromString : string -> result SD) (DACL : SD -> result (list ace)).
Context (inherited : list ace).

(** The list that the saved file has. *)
Definition saved_acl : list ace :=
  match SecurityDescriptorFromString sddl with
  | Ok sd => match DACL sd with Ok a => a | _ => inherited end
  | _ => inherited
  end.

Lemma write_temp_quiet dir data w tmp w' : outcomes w = [] -> write_temp dir data w = (Ok tmp, w') ->
  files w' = <[tmp := data]> (<[tmp := EmptyString]> (files w)) /\ outcomes w' = [].
Proof.
  destruct w as [fs os dr ds]. cbn. intros ->. unfold write_temp, CreateTemp, wrap, mbind, eff_bind, next_outcome.
  cbn. set (name := _ +:+ _). destruct (fs !! name); [done|]. cbn. intros [= <- <-]. done.
Qed.

Lemma setFilePerm_quiet path s : outcomes (w_disk s) = [] ->
  let '(r, s') := try (setFilePerm_windows SecurityDescriptorFromString DACL path) s in
  files (w_disk s') = files (w_disk s) /\ outcomes (w_disk s') = [] /\
  (acls s' = acls s /\ saved_acl = inherited \/ acls s' = <[path := saved_acl]> (acls s)) .
Proof.
  destruct s as [[fs os dr ds] ac]. cbn. intros ->. unfold saved_acl, setFilePerm_windows, try, mbind, eff_bind, wrap, lift.
  destruct (SecurityDescriptorFromString sddl) as [sd|e|e]; cbn; [|auto..].
  destruct (DACL sd) as [a|e|e]; cbn; auto.
Qed.

(** On Windows the list that the saved configuration has is the one
    the program asks for, moved along with the file; but when the system does
    not take it the save succeeds all the same, and the file is as open as
    its directory. *)
Theorem windows_config_access dir data s s' : outcomes (w_disk s) = [] ->
  saveLocked_windows SecurityDescriptorFromString DACL dir data s = (Ok tt, s') ->
  files (w_disk s') !! Config.cfgPath dir = Some data /\
  forall t, can_access inherited t (Config.cfgPath dir) s' = access_check t saved_acl.
Proof.
  intros Hq H. unfold saveLocked_windows in H. apply bind_ok_inv in H as (tmp & s1 & Ht & H).
  unfold onFiles, on_part in Ht. destruct (write_temp dir data (w_disk s)) as [r w1] eqn:E. injection Ht as -> <-.
  apply write_temp_quiet in E as [Hf Hq1]; [|exact Hq].
  apply bind_ok_inv in H as ([] & s2 & Hs & H). injection Hs as <-. unfold publish in H.
  apply bind_ok_inv in H as (x & s3 & Hp & H).
  match type of Hp with try _ ?st = _ => pose proof (setFilePerm_quiet tmp st Hq1) as Hx; cbn in Hx end.
  unfold setFilePerm, windows_files in Hp. rewrite Hp in Hx. destruct Hx as (Hf3 & Hq3 & Ha).
  unfold rename_or_remove, atomicRename, windows_files, atomicRename_windows, UTF16PtrFromString in H.
  destruct s3 as [[fs os dr ds] ac]. cbn in Hf3, Hq3, Ha. subst fs os.
  unfold wrap, lift, mbind, eff_bind in H.
  destruct (free_of zero tmp); [|done]. destruct (free_of zero (cfgPath dir)); [|done]. cbn in H.
  injection H as <-. cbn. rewrite Hf, lookup_insert_eq. split; [by rewrite lookup_insert_eq|].
  intros t. unfold can_access, move_acl. cbn.
  destruct Ha as [[-> ->]| ->]; cbn.
  - by rewrite !lookup_delete_eq.
  - by rewrite !lookup_insert_eq.
Qed.
End WindowsProofs.

(** The list lets in the administrators, the system and who carries
    the SID of the creator-owner, and nobody else, with or without its last
    entry.  That SID is a placeholder no process carries, so the user who owns
    the file but is not elevated is kept out. *)
Theorem config_acl_grants t :
  access_check t config_acl = bool_decide ("BA" ∈ enabled t \/ "SY" ∈ enabled t \/ "CO" ∈ enabled t) /\
  access_check t config_acl = access_check t (take 3 config_acl).
Proof.
  unfold config_acl. cbn. destruct (decide ("BA" ∈ enabled t)) as [?|?]; [by rewrite bool_decide_eq_true_2 by auto|].
  destruct (decide ("SY" ∈ enabled t)) as [?|?]; [by rewrite bool_decide_eq_true_2 by auto|].
  destruct (decide ("CO" ∈ enabled t)) as [?|?]; [by rewrite bool_decide_eq_true_2 by auto|].
  rewrite bool_decide_eq_false_2 by tauto. by case_decide.
Qed.

(** A reader of such descriptors: the entries between parentheses. *)
Definition plain_ace (s : string) : option ace :=
  match Split s ";" with
  | [kind; _; _; _; _; who] => Some {| allow := bool_decide (kind = "A"); sid := stake 2 who |}
  | _ => None
  end.
Definition plain_descriptor (s : string) : result (list string) := Ok (tail (Split s "(")).
Definition plain_dacl (sd : list string) : result (list ace) :=
  match mapM plain_ace sd with Some l => Ok l | None => Err "The revision level is unknown." end.

Lemma windows_config_access_witness :
  exists s', saveLocked_windows plain_descriptor plain_dacl "C:/u" "{}" {| w_disk := {| files := ∅; outcomes := []; draws := ["7"]; disks := [] |}; acls := ∅ |}
    = (Ok tt, s') /\ can_access [] {| enabled := {["U"; "WD"]}; deny_only := {["BA"]} |} (Config.cfgPath "C:/u") s' = false.
Proof.
  eexists. split; [vm_compute; reflexivity|].
  refine (eq_trans (proj2 (windows_config_access plain_descriptor plain_dacl [] "C:/u" "{}"
    {| w_disk := {| files := ∅; outcomes := []; draws := ["7"]; disks := [] |}; acls := ∅ |} _ eq_refl _) _) _);
    vm_compute; reflexivity.
Defined.

(** The reader gives the list. *)
Example config_acl_read : saved_acl plain_descriptor plain_dacl [] = config_acl.
Proof. vm_compute. reflexivity. Qed.

(** ** server.go: the local server *)

(** What [Start] builds: the address, and the three timeouts in
    nanoseconds. *)
Record started := { on : string; ReadTimeout : Z; WriteTimeout : Z; IdleTimeout : Z }.

Definition listen_address (port : Z) : string := "127.0.0.1:" +:+ Itoa port.
Definition seconds (n : Z) : Z := n * 1000000000.

(** [net.Listen] as a parameter; the server is that of [NewServer]. *)
Definition Start {E} (Listen : string -> eff E unit) (port : Z) : eff E started :=
  let addr := listen_address port in
  _ ← wrap ("listen on " +:+ addr +:+ ": ") (Listen addr);
  mret {| on := addr; ReadTimeout := seconds 15; WriteTimeout := seconds 60; IdleTimeout := seconds 120 |}.

(** *** From the listener to the end of the process *)

(** [main] waits for a signal, has called [cancel], or has returned, which
    ends the process with its goroutines. *)
Inductive stage := Waiting | Cancelled | Gone.
#[export] Instance stage_eq_dec : EqDecision stage.
Proof. solve_decision. Defined.

Record serving := {
  accepting : bool;      (* the listener is open *)
  shutting : bool;       (* the second goroutine is in [Shutdown] *)
  main_at : stage;
  inflight : gset nat;   (* requests being handled *)
  answered : gset nat;
  cut : gset nat         (* ended with the process *)
}.

Definition up : serving :=
  {| accepting := true; shutting := false; main_at := Waiting; inflight := ∅; answered := ∅; cut := ∅ |}.

Inductive serve_step : serving -> serving -> Prop :=
  | sv_request r s : accepting s = true -> main_at s <> Gone -> r ∉ inflight s ∪ answered s ->
      serve_step s {| accepting := true; shutting := shutting s; main_at := main_at s;
                      inflight := {[r]} ∪ inflight s; answered := answered s; cut := cut s |}
  | sv_answer r s : main_at s <> Gone -> r ∈ inflight s ->
      serve_step s {| accepting := accepting s; shutting := shutting s; main_at := main_at s;
                      inflight := inflight s ∖ {[r]}; answered := {[r]} ∪ answered s; cut := cut s |}
  | sv_serve_fails s : accepting s = true -> main_at s <> Gone -> (* logged *)
      serve_step s {| accepting := false; shutting := shutting s; main_at := main_at s;
                      inflight := inflight s; answered := answered s; cut := cut s |}
  | sv_signal s : main_at s = Waiting ->
      serve_step s {| accepting := accepting s; shutting := shutting s; main_at := Cancelled;
                      inflight := inflight s; answered := answered s; cut := cut s |}
  | sv_shutdown s : main_at s = Cancelled ->
      serve_step s {| accepting := false; shutting := true; main_at := Cancelled;
                      inflight := inflight s; answered := answered s; cut := cut s |}
  | sv_return s : main_at s = Cancelled ->
      serve_step s {| accepting := false; shutting := shutting s; main_at := Gone;
                      inflight := ∅; answered := answered s; cut := cut s ∪ inflight s |}.

(** ** Theorems: the local server *)

Lemma last_colon_free s : free_of ":" s = true -> last_colon s = None.
Proof.
  unfold free_of. induction s as [|a s IH]; cbn; [done|].
  intros [Ha Hs]%andb_prop. rewrite (IH Hs). rewrite decide_False; [done|]. intros ->. done.
Qed.

(** The local server is reachable from its own machine only: whatever
    port it is given, the address it listens on is one that the daemon itself
    takes for a loopback address, and a failure of the listener names it. *)
Theorem local_server_stays_local {E} (Listen : string -> eff E unit) port e :
  let addr := listen_address (NewServer port) in
  isLoopbackAddress addr = true /\ SplitHostPort addr = Some ("127.0.0.1", Itoa (NewServer port)) /\
  (forall s e', Start Listen (NewServer port) e = (Ok s, e') -> on s = addr /\ Listen addr e = (Ok tt, e')) /\
  (forall m e', Listen addr e = (Err m, e') -> Start Listen (NewServer port) e = (Err ("listen on " +:+ addr +:+ ": " +:+ m), e')).
Proof.
  intros addr. assert (Hp : (0 <= NewServer port)%Z) by (unfold NewServer; case_decide; lia).
  assert (Hsplit : SplitHostPort addr = Some ("127.0.0.1", Itoa (NewServer port))).
  { subst addr. unfold listen_address, SplitHostPort. simpl last_colon.
    rewrite last_colon_free by (by apply Itoa_free). cbn.
    pose proof (Itoa_free "[" _ Hp eq_refl) as Ho. pose proof (Itoa_free "]" _ Hp eq_refl) as Hc.
    unfold free_of in *. cbn. rewrite Ho, Hc. done. }
  split; [unfold isLoopbackAddress; by rewrite Hsplit|]. split; [exact Hsplit|].
  unfold Start, wrap, mbind, eff_bind. fold addr. split.
  - intros s e'. destruct (Listen addr e) as [[[]|m|m] e1]; [|done..]. by intros [= <- <-].
  - intros m e' ->. unfold wrap_err. by rewrite !sapp_assoc.
Qed.

Lemma serve_inv s : star serve_step up s ->
  (main_at s = Waiting -> shutting s = false) /\ (main_at s <> Gone -> cut s = ∅).
Proof.
  apply (star_inv_ind serve_step (fun s => (main_at s = Waiting -> shutting s = false) /\
                                           (main_at s <> Gone -> cut s = ∅))); [|done].
  intros a b [H1 H2]. destruct 1; cbn in *; split; intros; try done; auto; apply H2; congruence.
Qed.

(** The ten seconds that the shutdown gives its requests are never
    waited for: from every state in which the process runs, with any requests
    in flight, a signal and the return of [main] are possible next, without
    the shutdown having begun, and end them all unanswered. *)
Theorem signal_cuts_requests s : star serve_step up s -> main_at s = Waiting ->
  exists s1 s2, serve_step s s1 /\ serve_step s1 s2 /\ main_at s2 = Gone /\ shutting s2 = false /\
    answered s2 = answered s /\ cut s2 = inflight s.
Proof.
  intros Hs Hw. destruct (serve_inv s Hs) as [Hsh Hc].
  eexists _, _. split; [by apply sv_signal|]. split; [by apply sv_return|]. cbn.
  rewrite (Hc ltac:(congruence)). split_and!; try done; [by apply Hsh|]. by rewrite union_empty_l_L.
Qed.

(** A listener that fails takes the API with it and nothing else: the
    process goes on, no later request is taken, and only a signal ends it. *)
Theorem failed_listener_stays_down s s' : star serve_step s s' -> accepting s = false ->
  accepting s' = false /\ inflight s' ⊆ inflight s /\
  (main_at s = Waiting -> main_at s' <> Waiting -> exists t t', star serve_step s t /\ main_at t = Waiting /\
     serve_step t t' /\ main_at t' = Cancelled /\ star serve_step t' s').
Proof.
  intros Hs Ha. induction Hs as [s|s s1 s2 Hs IH Hstep]; [done|].
  destruct (IH Ha) as (Ha1 & Hin & Hex). split; [|split].
  - by destruct Hstep; cbn in *; try done; congruence.
  - destruct Hstep; cbn in *; try done; try congruence; set_solver.
  - intros Hw Hn. destruct (decide (main_at s1 = Waiting)) as [Hw1|Hw1].
    + exists s1, s2. split_and!; try done; [|constructor]. destruct Hstep; cbn in *; congruence.
    + destruct (Hex Hw Hw1) as (t & t' & H1 & H2 & H3 & H4 & H5). exists t, t'. split_and!; try done.
      by econstructor.
Qed.

(** One request is being handled; then the listener fails. *)
Definition one_request : serving :=
  {| accepting := true; shutting := false; main_at := Waiting; inflight := {[7]} ∪ ∅; answered := ∅; cut := ∅ |}.
Definition failed_listener : serving :=
  {| accepting := false; shutting := false; main_at := Waiting; inflight := {[7]} ∪ ∅; answered := ∅; cut := ∅ |}.

Lemma one_request_reached : star serve_step up one_request.
Proof. eapply star_snoc; [apply star_nil|]. apply (sv_request 7 up); cbn; [done|done|set_solver]. Qed.

Lemma signal_cuts_requests_witness : exists s2, main_at s2 = Gone /\ answered s2 = ∅ /\ 7 ∈ cut s2.
Proof.
  destruct (signal_cuts_requests one_request one_request_reached eq_refl) as (s1 & s2 & _ & _ & Hg & _ & Ha & Hc).
  exists s2. split; [exact Hg|]. split; [exact Ha|]. rewrite Hc. cbn. set_solver.
Defined.

Lemma failed_listener_stays_down_witness :
  accepting (Build_serving false false Waiting (inflight failed_listener ∖ {[7]}) ({[7]} ∪ ∅) ∅) = false.
Proof.
  refine (proj1 (failed_listener_stays_down failed_listener _ _ eq_refl)).
  eapply star_snoc; [apply star_nil|]. apply (sv_answer 7 failed_listener); cbn; [done|set_solver].
Defined.
